(* ===== verification/_CoqProject ===== *)
-Q . S2P
Prelude.v
MachineInt.v
Hardfork.v
Asset.v
PriceRatio.v
CallOrder.v
CallOrderTheorems.v
PriceFeed.v
PriceFeedTheorems.v
AmountString.v
Authority.v
AuthorityTheorems.v
Voting.v
VotingTheorems.v
UndoDb.v
ForkDb.v
ForkSwitch.v
Vesting.v
ChainState.v
Frames.v
Ledger.v
Sample.v
CreditBooks.v
Balance.v
WitnessSchedule.v
Budget.v
Fees.v
Evaluator.v
VestingEval.v
Transfer.v
AssetOps.v
LiquidityPool.v
PoolTheorems.v
SametFund.v
CreditOffer.v
CreditTheorems.v
WithdrawPermission.v
Htlc.v
Ticket.v
TicketTheorems.v
LimitOrder.v
MarketBooks.v
MarketMatching.v
OrderBook.v
MarketTheorems.v
Settings.v
DebtState.v
DebtMarket.v
MarginCalls.v
DebtOps.v
SettleOps.v
FeedOps.v
DebtBooks.v
DebtSample.v
DebtMatching.v
BlackSwan.v
MarginCallTheorems.v
DebtOpTheorems.v
FeedOpTheorems.v
Revival.v
DebtTheorems.v
DebtHistory.v
Transaction.v
Proposal.v
ProposalTheorems.v
