(* ===== verification/Prelude.v ===== *)
(** * A verification library for the BitShares ledger core

    This library models the core of a BitShares node - the ledger its operations work on, the
    authorities that sign for them, the undo and fork databases underneath and the scheduling of
    blocks - as executable functions,
    translated from the C++ sources under src/libraries, and proves what makes it correct.

    ** The program's parts and where they are modelled

    A node keeps its state in an object database (libraries/db) whose changes are recorded by an
    undo database.  Transactions are lists of operations; each operation has a validation
    (libraries/protocol) and an evaluator (libraries/chain), which checks it against the state
    and applies it.  Blocks are applied in undo sessions; the fork database keeps the recent
    blocks of all forks and [_push_block] switches between them.  A transaction needs signatures
    that satisfy the authorities of the accounts it acts for; a proposal is a transaction that
    collects its approvals on the chain.  At the end of a block due proposals, orders, tickets,
    contracts, permissions and credit deals are processed.  Assets backed by collateral follow
    a price that publishers feed.  Once per maintenance interval votes are counted, witnesses and
    committee members are elected and the budget pays workers and witnesses.

    - Prelude.v: the [result] monad for exceptions ([FC_ASSERT], [GRAPHENE_ASSERT]), total
      correctness of computations in it ([returns]), tactics that take computations apart, sums
      over finite maps.
    - MachineInt.v: [fc::safe] arithmetic, 128-bit and 32-bit wrapping arithmetic, times.
    - Hardfork.v: the times at which rules change (chain/hardfork.d).
    - Asset.v, PriceRatio.v: assets, prices, conversions, scaling a price by a ratio
      (protocol/asset.cpp).
    - CallOrder.v, CallOrderTheorems.v: debt positions, [call_price] and how much debt a margin
      call covers (chain/market_object.cpp).
    - PriceFeed.v, PriceFeedTheorems.v: price feeds and their medians, the prices of margin calls,
      the price in force (protocol/asset.cpp, chain/asset_object.cpp, chain/db_update.cpp).
      [std::nth_element] is behind the class [NthElement] with its specification.
    - AmountString.v: amounts as text (chain/asset_object.cpp).
    - Voting.v, VotingTheorems.v: decay of votes, the tally, the number of seats, the election
      of witnesses and committee members (chain/db_maint.cpp, chain/vote_count.hpp).
    - Budget.v: workers, their payment, the budget of a maintenance interval
      (chain/worker_evaluator.cpp, chain/db_maint.cpp).
    - Authority.v, AuthorityTheorems.v: authorities, the check of signatures against them, the
      search for the keys to sign with (protocol/transaction.cpp, protocol/authority.hpp).
    - UndoDb.v: object and undo databases, sessions around transactions, blocks and proposals
      (db/undo_database.cpp, db/object_database.cpp, db/generic_index.hpp, chain/db_block.cpp),
      refined by a stack of snapshots.  The unique keys of objects are behind the class
      [UniqueKeys]; a modification that violates them erases the object, as the code does.
    - ForkDb.v, ForkSwitch.v: the fork database with the ownership of its items
      (chain/fork_database.cpp), and [_push_block], [pop_block] (chain/db_block.cpp) over it and
      the undo database.  What applying a block does to the objects is behind the class
      [BlockApplication] with its laws; the sizes it gives the undo and fork databases are
      those of [update_global_dynamic_data].
    - WitnessSchedule.v: slots, the shuffled schedule, the global properties updated by a block,
      irreversibility, header validation (chain/db_witness_schedule.cpp, chain/db_update.cpp).
    - Vesting.v: vesting policies and balances (chain/vesting_balance_object.cpp).
    - ChainState.v: the state [database]: the objects of each index that the modelled operations
      use, as finite maps or tables with an id counter and uniqueness constraints.
    - Ledger.v: the abstract view: what all objects hold of an asset ([holdings]) and the supply;
      [conserves] and [moves] relate two states, and every component is proved against them.
    - Frames.v: what a routine leaves unchanged, and the tactics that prove it.
    - CreditBooks.v: the invariant that ties credit offers, deals and summaries together.
    - Balance.v, Fees.v: balances, asset authorization, cashback, operation fees and market fees
      (chain/db_balance.cpp, chain/account_object.cpp, chain/db_market.cpp).
    - Evaluator.v: the evaluation scheme (chain/evaluator.cpp): [Evaluator] is the interface of a
      concrete evaluator, [EvaluatorLaws] what the scheme needs of it.
    - VestingEval.v, Transfer.v, AssetOps.v, LiquidityPool.v, SametFund.v, CreditOffer.v,
      WithdrawPermission.v, Htlc.v, Ticket.v: the operations, each an instance of both classes,
      with the end-of-block processing that belongs to them; PoolTheorems.v, CreditTheorems.v and
      TicketTheorems.v hold the longer developments.
    - LimitOrder.v: limit orders (chain/market_evaluator.cpp and the limit-order part of
      chain/db_market.cpp): creation, update and cancellation, [apply_order], [match],
      [fill_limit_order] with its fees, culling, take-profit orders pushed as virtual operations,
      expiration.  MarketBooks.v proves what a fill does to the books, MarketMatching.v the
      amounts and effect of a match, OrderBook.v the price index and the matching loop,
      MarketTheorems.v the operations.
    - DebtState.v: the state of the markets of assets backed by collateral, beside the [database]: bitasset data, debt
      positions, settlement orders, bids (chain/market_object.hpp, chain/asset_object.hpp).
      DebtMarket.v: filling and matching call orders, settlement orders and settled debt, black
      swans with individual and global settlement, bids; MarginCalls.v: the loops of
      [check_call_orders], [apply_order], [apply_force_settlement] (chain/db_market.cpp).
      DebtOps.v, SettleOps.v: the evaluators of the operations on debt behind the interface
      [DebtEvaluator], due settlements and the revival by bids (chain/market_evaluator.cpp,
      chain/asset_evaluator.cpp, chain/db_update.cpp, chain/db_maint.cpp).  FeedOps.v: publishing
      feeds, replacing publishers, claiming fees, expired feeds (chain/asset_evaluator.cpp,
      chain/db_update.cpp).
      DebtBooks.v: what is held and owed ([unbacked], [debt_gap]), the invariant [debt_ok], the
      elementary steps; DebtMatching.v, BlackSwan.v, MarginCallTheorems.v: fills, settlements and
      the loops keep it; DebtOpTheorems.v, FeedOpTheorems.v: [DebtLaws], fulfilled by every evaluator; Revival.v,
      DebtTheorems.v, DebtHistory.v: the guarantees; DebtSample.v: a small debt market.
    - Settings.v: what no operation changes (times, parameters, the number of witnesses).
    - Transaction.v: the operation variant, [_apply_transaction], and the chain of states that
      transactions, new blocks and end-of-block tasks run through.
    - Proposal.v, ProposalTheorems.v: the operation variant with the operations on proposals,
      their evaluators (chain/proposal_evaluator.cpp), [push_proposal] with nested executions
      (chain/db_block.cpp), [clear_expired_proposals] (chain/db_update.cpp), the index of
      approvals (chain/proposal_object.cpp).
    - Sample.v: a small concrete state on which the files run their operations.

    State is passed explicitly; a routine that throws returns [Err].  Where the code mutates
    before it throws and the change survives (UndoDb, ForkSwitch) functions return the new state
    together with the result.

    ** What the theorems show

    - Books: every modelled operation, and hence every transaction and every reachable state,
      keeps for every asset what is held equal to what is issued, no balance negative, and the
      invariants of pools, funds, offers, deals and tickets - for limit orders without
      take-profit actions whose fees are paid in core or have a core value ([plain_operation]).
    - Authority: the check of an authority agrees with its plain definition, a transaction is
      applied only with the authority of the accounts it acts for and no superfluous signature,
      the keys a wallet is told to sign with are the right ones.
    - Proposals: they are executed only with their authorities and not before a review period is
      over; after hard fork 1479, executing one never touches it or later ones, expired ones are
      cleared, the books stay balanced through nested and failing executions.
    - Atomicity: failed transactions, proposals and blocks leave the objects exactly as they
      were, provided modifications keep the unique keys; blocks can be popped; switching forks is
      all or nothing as far as the histories that the last irreversible block leaves reach.
    - Forks and schedule: the branches found by [fetch_branch_from] are the right ones, the head
      is the highest block; schedules are permutations, slots and times correspond,
      irreversibility needs 70% of the witnesses.
    - Order matching: the matching loop terminates and leaves no crossed orders on the book; after
      hard fork core-342 a match is fair to both orders up to rounding, fills one of them and conserves every asset.
    - Debt and feeds: the search of a margin call ends and reaches the target it is given; a
      minority of publishers cannot move the median; under global settlement protection every
      position, if small enough for exact prices, can pay at the price in force.
    - Debt markets: whatever sequence of operations on debt and feeds, new orders, margin calls,
      black swans and settlements happens, what is held of an asset, collateral included, and what is owed of
      it follow its supply; after the check for black swans no position is under water or the
      asset is globally settled; a global settlement leaves no debt and a price that is the whole
      supply for the whole fund; revival of an asset without debt makes the fund and the bids the collateral of debt that
      is exactly the supply; where no debt is involved, matching is that of LimitOrder.v.
    - Maintenance: the elected have the most votes, seats are a weighted median, no minority
      controls the witness account; the budget stays within the reserve and keeps the books.
    - Components: constant product and fair rounding of pools, repayment of SameT funds, deals
      and collateral, limits of withdraw permissions, redemption and refund of contracts, vesting
      schedules, the ticket state machine and its counters, fee distribution, price order and
      conversion rounding, overflow behaviour of [fc::safe].
    - Findings: places where the code does not do what it means to, or what its comments say, are
      proved (UndoDb.v, Vesting.v, WithdrawPermission.v, CreditTheorems.v, ForkSwitch.v,
      AuthorityTheorems.v, MarketTheorems.v, ProposalTheorems.v, PriceFeedTheorems.v,
      AmountString.v, Budget.v, Revival.v).

    ** Fuel

    Loops over an index run on fuel that is proved sufficient: the number of deals
    (process_due_deals), contracts (refund_expired), permissions (remove_expired_permissions),
    eight updates per ticket (process_due_tickets), the block number of a branch's first block
    (fetch_branch_from), the depth of the undo stack (pop_until), the number of witnesses
    (shuffle), the number of orders (cancel_expired), of proposals (expire_proposals), of bids
    (cancel_bids), of debt positions (blackswan_loop) and of bitassets (update_cers).  The
    matching loops of the markets and the searches of [get_max_debt_to_cover] run up to 2^64 rounds
    ([while_pow]), which is more than the orders an index with 64-bit ids can hold and than the
    amounts of an asset, and virtual operations and proposals nest as deep as the code's own limit, twice the number of active
    witnesses.

    ** Scope of the market model

    LimitOrder.v is about markets without debt positions; MarginCalls.v has [apply_order] with
    them, and DebtHistory.v shows that it is the former where no debt is involved.  The state of
    the debt markets is kept beside the [database] and its operations are not part of the variant
    of Transaction.v.  References
    and iterators are ids, looked up when the code follows them, so the aliasing of an order that
    is changed while it is matched is kept.  Take-profit actions are part of the definitions; the
    conservation and uncrossing theorems are about books whose orders have none ([order_ok]),
    because of the finding on them.  The definitions of the debt markets follow all hard forks;
    the theorems on sequences assume that core-1270 has passed (those on global settlement and on
    the check for black swans core-1669 and core-2481), and all of them that no asset responds to black
    swans by individual settlement to an order ([bw_method], [do_settled]); feeds that may revive a
    globally settled asset are the subject of Revival.v.

    ** Parameters

    Hash functions, the fee schedule's required fee, the recovery of keys from signatures, the
    addresses of keys, the custom authorities that are viable for an operation, the transaction
    digest and serialized sizes are arguments of the definitions that use them.

    ** Not modelled

    Networking, the applications, plugins, wallet and command line programs (I/O around the
    ledger); serialization and cryptography (fc), both behind parameters or without effect on the
    state; creating and updating assets; the fee schedule; account
    administration; the part of maintenance for top-n
    authorities, buybacks and migrations at hard forks;
    confidential transfers, custom authorities, fee-backed assets and genesis balances. *)

From stdpp Require Export base tactics numbers list gmap strings.
From Stdlib Require Export ZArith Lia.

#[global] Open Scope Z_scope.

(** ** Exceptions and the result monad

    Every fallible C++ routine is a function into [result]: a thrown
    [fc::exception] is the value [Err e].  [FC_ASSERT] throws an
    [assert_exception]; the arithmetic of [fc::safe] has exceptions of its own,
    and [GRAPHENE_ASSERT] names a specific exception class. *)
Inductive fc_exception :=
  | assert_exception (msg : string)
  | overflow_exception
  | underflow_exception
  | divide_by_zero_exception
  | fc_throw (msg : string)
  | graphene_exception (name : string).

#[global] Instance fc_exception_eq_dec : EqDecision fc_exception.
Proof. solve_decision. Defined.

Inductive result (A : Type) : Type :=
  | Ok (a : A)
  | Err (e : fc_exception).
Arguments Ok {A} a.
Arguments Err {A} e.

#[global] Instance result_ret : MRet result := λ A a, Ok a.
#[global] Instance result_bind : MBind result := λ A B f r,
  match r with Ok a => f a | Err e => Err e end.

Definition FC_ASSERT (b : bool) (msg : string) : result unit :=
  if b then Ok () else Err (assert_exception msg).

Definition GRAPHENE_ASSERT (b : bool) (name : string) : result unit :=
  if b then Ok () else Err (graphene_exception name).

Definition is_ok {A} (r : result A) : bool :=
  match r with Ok _ => true | Err _ => false end.

(** Traversals: [for( x : l ) f(x)] where [f] may throw, and the same loop
    threading a state. *)
Fixpoint res_iter {A} (f : A → result unit) (l : list A) : result unit :=
  match l with
  | [] => Ok ()
  | x :: l' => f x;; res_iter f l'
  end.

Fixpoint res_fold {A S} (f : A → S → result S) (l : list A) (s : S) : result S :=
  match l with
  | [] => Ok s
  | x :: l' => s' ← f x s; res_fold f l' s'
  end.

(** A loop: [body] says whether to go on; [while_pow body k] runs it up to 2^k times, and its
    flag says whether the loop is still running then. *)
Fixpoint while_pow {St : Type} (body : St → result (St * bool)) (k : nat) (s : St) : result (St * bool) :=
  match k with
  | O => body s
  | S k =>
    '(s, running) ← while_pow body k s;
    if (running : bool) then while_pow body k s else Ok (s, false)
  end.

Section result_lemmas.
Context {A B : Type}.
Implicit Types (r : result A) (f : A → result B).

Lemma bind_Ok r f b : r ≫= f = Ok b ↔ ∃ a, r = Ok a ∧ f a = Ok b.
Proof. destruct r; naive_solver. Qed.

Lemma bind_Err r f e :
  r ≫= f = Err e ↔ r = Err e ∨ ∃ a, r = Ok a ∧ f a = Err e.
Proof. destruct r; naive_solver. Qed.

Lemma bind_assoc {C} r f (g : B → result C) :
  (r ≫= f) ≫= g = r ≫= (λ a, f a ≫= g).
Proof. by destruct r. Qed.

Lemma bind_ret_l (a : A) f : mret a ≫= f = f a.
Proof. done. Qed.

Lemma is_ok_true r : is_ok r = true ↔ ∃ a, r = Ok a.
Proof. destruct r; naive_solver. Qed.
End result_lemmas.

(** A loop keeps what its rounds keep; [Q] holds when a round ends it. *)
Lemma while_pow_ind {St} (body : St → result (St * bool)) (P Q : St → Prop) k s s' c :
  (∀ s s', P s → body s = Ok (s', true) → P s') → (∀ s s', P s → body s = Ok (s', false) → Q s') →
  P s → while_pow body k s = Ok (s', c) → if c then P s' else Q s'.
Proof.
  intros Hgo Hstop. revert s s' c. induction k as [|k IH]; intros s s' c HP Hw; simpl in Hw.
  - destruct c; eauto.
  - apply bind_Ok in Hw as ([s1 c1] & H1 & H2). apply IH in H1; [|done].
    destruct c1; [by eapply IH|]. by injection H2 as <- <-.
Qed.

(** A loop whose running rounds decrease a measure below 2^k comes to its end. *)
Lemma while_pow_measure {St} (body : St → result (St * bool)) (P : St → Prop) (mu : St → Z) k s s' :
  (∀ s s', P s → body s = Ok (s', true) → P s' ∧ mu s' < mu s) →
  P s → while_pow body k s = Ok (s', true) → P s' ∧ mu s' + 2 ^ Z.of_nat k ≤ mu s.
Proof.
  intros Hgo. revert s s'. induction k as [|k IH]; intros s s' HP Hw; simpl in Hw.
  - apply Hgo in Hw as [? ?]; [|done]. split; [done|]. simpl. lia.
  - apply bind_Ok in Hw as ([s1 c1] & H1 & H2). destruct c1; [|done].
    apply IH in H1 as [HP1 Hm1]; [|done]. apply IH in H2 as [HP2 Hm2]; [|done].
    split; [done|]. rewrite Nat2Z.inj_succ, Z.pow_succ_r by lia. lia.
Qed.

(** ** Total correctness

    [returns r Q]: [r] does not throw, and its value satisfies [Q]. *)
Definition returns {A} (r : result A) (Q : A → Prop) : Prop :=
  match r with Ok a => Q a | Err _ => False end.

Lemma returns_Ok {A} (r : result A) Q : returns r Q ↔ ∃ a, r = Ok a ∧ Q a.
Proof. destruct r; naive_solver. Qed.

Lemma returns_bind {A B} (r : result A) (f : A → result B) Q :
  returns r (λ a, returns (f a) Q) → returns (r ≫= f) Q.
Proof. by destruct r. Qed.

Lemma returns_mono {A} (r : result A) (P Q : A → Prop) : returns r P → (∀ a, P a → Q a) → returns r Q.
Proof. destruct r; naive_solver. Qed.

Lemma returns_assert b msg (Q : unit → Prop) : b = true → Q () → returns (FC_ASSERT b msg) Q.
Proof. by intros ->. Qed.

(** A loop all of whose rounds return, the running ones with a smaller measure, returns. *)
Lemma while_pow_returns {St} (body : St → result (St * bool)) (P Q : St → Prop) (mu : St → Z) k s :
  (∀ s, P s → 0 ≤ mu s ∧ returns (body s) (λ '(s', c), if (c : bool) then P s' ∧ mu s' < mu s else Q s')) →
  P s → mu s < 2 ^ Z.of_nat k → returns (while_pow body k s) (λ '(s', c), c = false ∧ Q s').
Proof.
  intros Hbody HP Hmu.
  assert (∀ k s, P s → returns (while_pow body k s)
    (λ '(s', c), if (c : bool) then P s' ∧ mu s' + 2 ^ Z.of_nat k ≤ mu s else Q s')) as Hloop.
  { clear - Hbody. induction k as [|k IH]; intros s HP; cbn [while_pow].
    - eapply returns_mono; [by apply Hbody|]. intros [s' []]; simpl; [|done]. intros [? ?]. split; [done|lia].
    - apply returns_bind. eapply returns_mono; [by apply IH|]. intros [s1 []]; [|done].
      intros [HP1 Hm1]. eapply returns_mono; [by apply IH|]. intros [s2 []]; [|done].
      intros [HP2 Hm2]. split; [done|].
      rewrite Nat2Z.inj_succ, Z.pow_succ_r by lia. lia. }
  eapply returns_mono; [by apply Hloop|]. intros [s' []]; [|done].
  intros [HP' ?]. destruct (Hbody s' HP'). lia.
Qed.

Lemma FC_ASSERT_Ok b msg u : FC_ASSERT b msg = Ok u ↔ b = true.
Proof. destruct b, u; naive_solver. Qed.

Lemma GRAPHENE_ASSERT_Ok b msg u : GRAPHENE_ASSERT b msg = Ok u ↔ b = true.
Proof. destruct b, u; naive_solver. Qed.

(** ** Tactics *)

(** [inv_ok] decomposes every hypothesis [prog = Ok v]: it splits binds,
    asserts, conditionals and pairs until only equations on the primitive
    operations are left. *)
Ltac inv_ok_step :=
  match goal with
  | H : Ok _ = Ok _ |- _ => block_goal; injection H; clear H; intros; unblock_goal; subst
  | H : Err _ = Ok _ |- _ => discriminate H
  | H : Ok _ = Err _ |- _ => discriminate H
  | H : mret _ = Ok _ |- _ => block_goal; injection H; clear H; intros; unblock_goal; subst
  | H : FC_ASSERT _ _ = Ok _ |- _ => apply FC_ASSERT_Ok in H
  | H : GRAPHENE_ASSERT _ _ = Ok _ |- _ => apply GRAPHENE_ASSERT_Ok in H
  | H : mbind _ _ = Ok _ |- _ =>
      let x := fresh "x" in let Hx := fresh "H" in
      apply bind_Ok in H as (x & Hx & H)
  | H : (if ?b then _ else _) = Ok _ |- _ =>
      let E := fresh "E" in destruct b eqn:E
  | H : (match ?o with Some _ => _ | None => _ end) = Ok _ |- _ =>
      let E := fresh "E" in destruct o eqn:E
  | H : (let '(_, _) := ?p in _) = Ok _ |- _ =>
      let E := fresh "E" in destruct p eqn:E
  end.
Ltac inv_ok := repeat (inv_ok_step; simpl in *).

(** [propify] turns the boolean tests of the code into propositions. *)
Ltac propify_step :=
  match goal with
  | H : andb _ _ = true |- _ => apply andb_true_iff in H as [? ?]
  | H : andb _ _ = false |- _ => apply andb_false_iff in H
  | H : orb _ _ = true |- _ => apply orb_true_iff in H
  | H : orb _ _ = false |- _ => apply orb_false_iff in H as [? ?]
  | H : negb _ = true |- _ => apply negb_true_iff in H
  | H : negb _ = false |- _ => apply negb_false_iff in H
  | H : Z.eqb _ _ = true |- _ => apply Z.eqb_eq in H
  | H : Z.eqb _ _ = false |- _ => apply Z.eqb_neq in H
  | H : Z.ltb _ _ = true |- _ => apply Z.ltb_lt in H
  | H : Z.ltb _ _ = false |- _ => apply Z.ltb_ge in H
  | H : Z.leb _ _ = true |- _ => apply Z.leb_le in H
  | H : Z.leb _ _ = false |- _ => apply Z.leb_gt in H
  | H : Z.gtb _ _ = _ |- _ => rewrite Z.gtb_ltb in H
  | H : Z.geb _ _ = _ |- _ => rewrite Z.geb_leb in H
  end.
Ltac propify := repeat propify_step.

(** [split_ifs] destructs every test the goal branches on. *)
Ltac split_ifs :=
  repeat match goal with
  | |- context [if ?b then _ else _] =>
      match type of b with
      | bool => let E := fresh "E" in destruct b eqn:E
      | _ => case_decide
      end
  end.

Create HintDb chain discriminated.

(** ** Sums over finite maps

    [msum f m] adds [f k v] over the entries of [m]; the ledger's totals are
    such sums, and every table update changes them by the difference of the
    entries it replaces. *)
Section msum.
Context `{Countable K} {A : Type}.
Implicit Types (f g : K → A → Z) (m : gmap K A).

Definition msum f m : Z := map_fold (λ k a s, f k a + s) 0 m.

Lemma msum_empty f : msum f ∅ = 0.
Proof. apply map_fold_empty. Qed.

Lemma msum_insert_new f m k a :
  m !! k = None → msum f (<[k:=a]> m) = f k a + msum f m.
Proof.
  intros Hk. unfold msum.
  rewrite (map_fold_insert_L (λ k a s, f k a + s)); [done | | done].
  intros. lia.
Qed.

Lemma msum_delete f m k a :
  m !! k = Some a → msum f (delete k m) = msum f m - f k a.
Proof.
  intros Hk. rewrite <- (insert_delete_id m k a Hk) at 2.
  rewrite msum_insert_new by apply lookup_delete_eq. lia.
Qed.

Lemma msum_insert_old f m k a b :
  m !! k = Some a → msum f (<[k:=b]> m) = msum f m - f k a + f k b.
Proof.
  intros Hk. rewrite <- insert_delete_eq.
  rewrite msum_insert_new by apply lookup_delete_eq.
  rewrite (msum_delete f m k a Hk). lia.
Qed.

Lemma msum_ext f g m :
  (∀ k a, m !! k = Some a → f k a = g k a) → msum f m = msum g m.
Proof.
  induction m as [|k a m Hk IH] using map_ind; intros Hfg.
  - by rewrite !msum_empty.
  - rewrite !msum_insert_new by done.
    rewrite (Hfg k a) by apply lookup_insert_eq. f_equal. apply IH.
    intros k' a' Hk'. apply Hfg. rewrite lookup_insert_ne; [done | congruence].
Qed.

Lemma msum_nonneg f m :
  (∀ k a, m !! k = Some a → 0 ≤ f k a) → 0 ≤ msum f m.
Proof.
  induction m as [|k a m Hk IH] using map_ind; intros Hf.
  - by rewrite msum_empty.
  - rewrite msum_insert_new by done.
    assert (0 ≤ f k a) by (apply Hf, lookup_insert_eq).
    assert (0 ≤ msum f m); [|lia]. apply IH.
    intros k' a' Hk'. apply Hf. rewrite lookup_insert_ne; [done | congruence].
Qed.

(** A single entry is bounded by the total of a nonnegative sum. *)
Lemma msum_ge_entry f m k a :
  (∀ k a, m !! k = Some a → 0 ≤ f k a) → m !! k = Some a → f k a ≤ msum f m.
Proof.
  intros Hf Hk. pose proof (msum_delete f m k a Hk).
  assert (0 ≤ msum f (delete k m)); [|lia].
  apply msum_nonneg. intros k' a' [? ?]%lookup_delete_Some. eauto.
Qed.
End msum.

(** ** Integer division, as the code rounds *)

(** [( x + y - 1 ) / y], the code's idiom for rounding a quotient up. *)
Definition div_up (x y : Z) : Z := (x + y - 1) / y.

Lemma div_up_spec x y : 0 < y → x ≤ div_up x y * y < x + y.
Proof.
  intros Hy. unfold div_up.
  pose proof (Z.div_mod (x + y - 1) y ltac:(lia)).
  pose proof (Z.mod_pos_bound (x + y - 1) y Hy). nia.
Qed.

Lemma div_down_spec x y : 0 < y → x - y < x / y * y ≤ x.
Proof.
  intros Hy. pose proof (Z.div_mod x y ltac:(lia)).
  pose proof (Z.mod_pos_bound x y Hy). nia.
Qed.

(** [div_up x y] is the least [q] with [x <= q * y]. *)
Lemma div_up_le x y q : 0 < y → x ≤ q * y → div_up x y ≤ q.
Proof. intros Hy Hq. pose proof (div_up_spec x y Hy). nia. Qed.

(** [x / y] is the greatest [q] with [q * y <= x]. *)
Lemma div_down_ge x y q : 0 < y → q * y ≤ x → q ≤ x / y.
Proof. intros Hy Hq. apply Z.div_le_lower_bound; lia. Qed.

Lemma div_up_nonneg x y : 0 < y → 0 ≤ x → 0 ≤ div_up x y.
Proof. intros Hy Hx. pose proof (div_up_spec x y Hy). nia. Qed.

Lemma div_up_pos x y : 0 < y → 0 < x → 0 < div_up x y.
Proof. intros Hy Hx. pose proof (div_up_spec x y Hy). nia. Qed.

#[export] Hint Resolve div_up_nonneg div_up_pos Z.div_pos : chain.
