(* ===== verification/MachineInt.v ===== *)
(** * Machine integers

    The integer types the ledger computes with, as ranges of [Z]:
    - [safe] (libraries/fc/include/fc/safe.hpp): checked arithmetic that throws on
      overflow; [share_type] is [safe<int64_t>];
    - [fc::uint128_t] (an unsigned [__int128]), which wraps around, and the casts
      between the two;
    - [fc::time_point_sec], unsigned 32-bit seconds that wrap around.

    The lemmas say when a checked or wrapping operation is the mathematical one. *)
From S2P Require Import Prelude.

(** ** fc::safe<T> *)
Module Safe.

(** The limits [std::numeric_limits<T>::min()/max()] of the wrapped type. *)
Record limits := Limits { t_min : Z; t_max : Z }.

Definition in_range (T : limits) (v : Z) : Prop := t_min T ≤ v ≤ t_max T.
#[global] Instance in_range_dec T v : Decision (in_range T v).
Proof. unfold in_range. apply _. Defined.

(** The limits of the two's complement types of width [w]. *)
Definition signed_limits (w : Z) : limits := Limits (- 2 ^ (w - 1)) (2 ^ (w - 1) - 1).
Definition unsigned_limits (w : Z) : limits := Limits 0 (2 ^ w - 1).
Definition int64_t : limits := signed_limits 64.
Definition uint64_t : limits := unsigned_limits 64.
Definition uint32_t : limits := unsigned_limits 32.

Section ops.
Variable T : limits.

(** [safe<T>::check( V v )]: the conversion of a value of another integral
    type. The four overloads differ only in how the comparison is written so
    that it is free of signed/unsigned conversions. *)
Definition check (v : Z) : result Z :=
  if t_max T <? v then Err overflow_exception
  else if v <? t_min T then Err underflow_exception
  else Ok v.

Definition add (a b : Z) : result Z :=
  if (0 <? b) && (t_max T - b <? a) then Err overflow_exception
  else if (b <? 0) && (a <? t_min T - b) then Err underflow_exception
  else check (a + b).

Definition sub (a b : Z) : result Z :=
  if (0 <? b) && (a <? t_min T + b) then Err underflow_exception
  else if (b <? 0) && (t_max T + b <? a) then Err overflow_exception
  else check (a - b).

Definition mul (a b : Z) : result Z :=
  if 0 <? a then
    if 0 <? b then
      if t_max T ÷ b <? a then Err overflow_exception else check (a * b)
    else
      if b <? t_min T ÷ a then Err underflow_exception else check (a * b)
  else
    if 0 <? b then
      if a <? t_min T ÷ b then Err underflow_exception else check (a * b)
    else
      if negb (a =? 0) && (b <? t_max T ÷ a) then Err overflow_exception
      else check (a * b).

(** [operator /] and [operator %] truncate towards zero; the second test is
    the signed overload's, and never holds for unsigned [T]. *)
Definition div (a b : Z) : result Z :=
  if b =? 0 then Err divide_by_zero_exception
  else if (a =? t_min T) && (b =? -1) then Err overflow_exception
  else check (a ÷ b).

Definition rem (a b : Z) : result Z :=
  if b =? 0 then Err divide_by_zero_exception
  else if (a =? t_min T) && (b =? -1) then Err overflow_exception
  else check (Z.rem a b).

(** Unary minus, signed overload. *)
Definition neg (a : Z) : result Z :=
  if a =? t_min T then Err overflow_exception else check (- a).
End ops.

(** Reference definition: compute exactly, then throw when the exact result
    does not fit. *)
Definition exact (T : limits) (v : Z) : result Z :=
  if decide (t_max T < v) then Err overflow_exception
  else if decide (v < t_min T) then Err underflow_exception
  else Ok v.

Lemma exact_Ok T v r : exact T v = Ok r ↔ r = v ∧ in_range T v.
Proof.
  unfold exact, in_range. repeat case_decide; split; intros; naive_solver lia.
Qed.

Lemma check_exact T v : check T v = exact T v.
Proof.
  unfold check, exact.
  destruct (Z.ltb_spec (t_max T) v), (Z.ltb_spec v (t_min T)); repeat case_decide;
    first [done | lia].
Qed.

Lemma check_Ok T v r : check T v = Ok r ↔ r = v ∧ in_range T v.
Proof. rewrite check_exact. apply exact_Ok. Qed.

Section spec.
Context (T : limits) (a b : Z).
Context (Ha : in_range T a) (Hb : in_range T b).

(** The guarded additions of the source are the exact ones. *)
Lemma add_exact : t_min T ≤ 0 → add T a b = exact T (a + b).
Proof.
  unfold in_range in *. intros ?. unfold add. rewrite check_exact. unfold exact.
  split_ifs; propify; repeat case_decide; try done; lia.
Qed.

Lemma sub_exact : t_min T ≤ 0 ≤ t_max T → sub T a b = exact T (a - b).
Proof.
  unfold in_range in *. intros ?. unfold sub. rewrite check_exact. unfold exact.
  split_ifs; propify; repeat case_decide; try done; lia.
Qed.
End spec.

Lemma quot_pos_lt p q x : 0 ≤ p → 0 < q → (p ÷ q < x ↔ p < x * q).
Proof.
  intros Hp Hq. rewrite Z.quot_div_nonneg by lia.
  pose proof (div_down_spec p q Hq). split; nia.
Qed.

Lemma quot_neg_lt p q x : p ≤ 0 → 0 < q → (x < p ÷ q ↔ x * q < p).
Proof.
  intros Hp Hq. rewrite <- (Z.opp_involutive p), Z.quot_opp_l by lia.
  pose proof (quot_pos_lt (- p) q (- x) ltac:(lia) Hq). split; intros; [|]; nia.
Qed.

(** The guarded multiplication of the source is the exact one: each of its four
    division tests decides precisely whether the product leaves the range. *)
Lemma mul_exact T a b :
  t_min T ≤ 0 ≤ t_max T → in_range T a → in_range T b →
  mul T a b = exact T (a * b).
Proof.
  unfold in_range. intros HT Ha Hb. unfold mul. rewrite check_exact. unfold exact.
  destruct (Z.ltb_spec 0 a), (Z.ltb_spec 0 b).
  - pose proof (quot_pos_lt (t_max T) b a). split_ifs; propify; try done; nia.
  - pose proof (quot_neg_lt (t_min T) a b). split_ifs; propify; try done; nia.
  - pose proof (quot_neg_lt (t_min T) b a). split_ifs; propify; try done; nia.
  - destruct (Z.eqb_spec a 0) as [->|Hne]; simpl.
    + split_ifs; propify; try done; nia.
    + pose proof (quot_pos_lt (t_max T) (- a) (- b)) as Hq.
      rewrite Z.quot_opp_r in Hq by lia. split_ifs; propify; try done; nia.
Qed.

End Safe.

(** ** share_type = safe<int64_t> *)
Notation share_add := (Safe.add Safe.int64_t).
Notation share_sub := (Safe.sub Safe.int64_t).
Notation share_mul := (Safe.mul Safe.int64_t).
Notation share_div := (Safe.div Safe.int64_t).
Notation share_neg := (Safe.neg Safe.int64_t).
Notation share_check := (Safe.check Safe.int64_t).

Definition INT64_MAX : Z := 2 ^ 63 - 1.
Definition INT64_MIN : Z := - 2 ^ 63.

(** The values a [share_type] can hold. *)
Definition is_share (v : Z) : Prop := INT64_MIN ≤ v ≤ INT64_MAX.
#[global] Instance is_share_dec v : Decision (is_share v).
Proof. unfold is_share. apply _. Defined.

Lemma is_share_in_range v : is_share v ↔ Safe.in_range Safe.int64_t v.
Proof. unfold is_share, Safe.in_range, INT64_MIN, INT64_MAX. simpl. lia. Qed.

(** Whatever its operands, a checked operation that returns has returned the
    mathematical value, and that value is a [share_type]. *)
Lemma share_add_Ok a b r : share_add a b = Ok r → r = a + b ∧ is_share r.
Proof.
  unfold Safe.add. intros H. inv_ok. apply Safe.check_Ok in H as [-> H].
  by rewrite is_share_in_range.
Qed.
Lemma share_sub_Ok a b r : share_sub a b = Ok r → r = a - b ∧ is_share r.
Proof.
  unfold Safe.sub. intros H. inv_ok. apply Safe.check_Ok in H as [-> H].
  by rewrite is_share_in_range.
Qed.
Lemma share_mul_Ok a b r : share_mul a b = Ok r → r = a * b ∧ is_share r.
Proof.
  unfold Safe.mul. intros H. inv_ok; apply Safe.check_Ok in H as [-> H];
    by rewrite is_share_in_range.
Qed.
Lemma share_div_Ok a b r : share_div a b = Ok r → r = a ÷ b ∧ b ≠ 0 ∧ is_share r.
Proof.
  unfold Safe.div. intros H. inv_ok; propify. apply Safe.check_Ok in H as [-> H].
  by rewrite is_share_in_range.
Qed.
Lemma share_neg_Ok a r : share_neg a = Ok r → r = - a ∧ is_share r.
Proof.
  unfold Safe.neg. intros H. inv_ok. apply Safe.check_Ok in H as [-> H].
  by rewrite is_share_in_range.
Qed.
Lemma share_check_Ok v r : share_check v = Ok r → r = v ∧ is_share v.
Proof. intros [-> H]%Safe.check_Ok. by rewrite is_share_in_range. Qed.

(** Conversely, the operation returns when operands and result are in range. *)
Lemma share_add_ok a b :
  is_share a → is_share b → is_share (a + b) → share_add a b = Ok (a + b).
Proof.
  rewrite !is_share_in_range. intros. rewrite Safe.add_exact by done.
  by apply Safe.exact_Ok.
Qed.
Lemma share_sub_ok a b :
  is_share a → is_share b → is_share (a - b) → share_sub a b = Ok (a - b).
Proof.
  rewrite !is_share_in_range. intros. rewrite Safe.sub_exact by done.
  by apply Safe.exact_Ok.
Qed.
Lemma share_mul_ok a b :
  is_share a → is_share b → is_share (a * b) → share_mul a b = Ok (a * b).
Proof.
  rewrite !is_share_in_range. intros. rewrite Safe.mul_exact by done.
  by apply Safe.exact_Ok.
Qed.
Lemma share_neg_ok a : is_share a → is_share (- a) → share_neg a = Ok (- a).
Proof.
  rewrite !is_share_in_range. intros [Ha ?] Hna. unfold Safe.neg.
  case_match eqn:E; propify.
  - destruct Hna as [? Hna]. rewrite E in Hna. by vm_compute in Hna.
  - rewrite Safe.check_exact. by apply Safe.exact_Ok.
Qed.

Lemma share_check_ok v : is_share v → share_check v = Ok v.
Proof. rewrite is_share_in_range. intros. by apply Safe.check_Ok. Qed.

(** [inv_share] replaces every successful checked operation in the context by
    its mathematical value. *)
Ltac inv_share :=
  repeat match goal with
  | H : share_add _ _ = Ok _ |- _ => apply share_add_Ok in H as [? ?]
  | H : share_sub _ _ = Ok _ |- _ => apply share_sub_Ok in H as [? ?]
  | H : share_mul _ _ = Ok _ |- _ => apply share_mul_Ok in H as [? ?]
  | H : share_div _ _ = Ok _ |- _ => apply share_div_Ok in H as (? & ? & ?)
  | H : share_neg _ = Ok _ |- _ => apply share_neg_Ok in H as [? ?]
  | H : share_check _ = Ok _ |- _ => apply share_check_Ok in H as [? ?]
  end.

(** ** fc::uint128_t *)
Definition UINT128_MOD : Z := 2 ^ 128.

(** Conversion of an integer to [uint128_t], and the wrapping operations. *)
Definition u128 (v : Z) : Z := v mod UINT128_MOD.
Definition u128_add (a b : Z) : Z := u128 (a + b).
Definition u128_sub (a b : Z) : Z := u128 (a - b).
Definition u128_mul (a b : Z) : Z := u128 (a * b).
(** Division; the code never divides by zero, where C++ has no behaviour. *)
Definition u128_div (a b : Z) : Z := a / b.

(** [static_cast<int64_t>( x )], [static_cast<uint64_t>( x )]. *)
Definition to_int64 (v : Z) : Z := (v + 2 ^ 63) mod 2 ^ 64 - 2 ^ 63.
Definition to_uint64 (v : Z) : Z := v mod 2 ^ 64.

Lemma u128_small v : 0 ≤ v < UINT128_MOD → u128 v = v.
Proof. intros. by apply Z.mod_small. Qed.

Lemma u128_range v : 0 ≤ u128 v < UINT128_MOD.
Proof. by apply Z.mod_pos_bound. Qed.

Lemma to_int64_small v : is_share v → to_int64 v = v.
Proof.
  unfold is_share, INT64_MIN, INT64_MAX, to_int64. intros.
  rewrite Z.mod_small; lia.
Qed.

Lemma to_int64_le v : 0 ≤ v → to_int64 v ≤ v.
Proof. intros. unfold to_int64. pose proof (Z.mod_le (v + 2 ^ 63) (2 ^ 64)). lia. Qed.

Lemma u128_le v : 0 ≤ v → u128 v ≤ v.
Proof. intros. by apply Z.mod_le. Qed.

Lemma to_int64_is_share v : is_share (to_int64 v).
Proof.
  unfold is_share, INT64_MIN, INT64_MAX, to_int64.
  pose proof (Z.mod_pos_bound (v + 2 ^ 63) (2 ^ 64) ltac:(done)). lia.
Qed.

Lemma to_uint64_small v : 0 ≤ v < 2 ^ 64 → to_uint64 v = v.
Proof. intros. by apply Z.mod_small. Qed.

(** A nonnegative [share_type] survives the conversion to 128 bits, and so does
    the product of two of them. *)
Lemma u128_share v : is_share v → 0 ≤ v → u128 v = v.
Proof. unfold is_share, INT64_MAX. intros. apply u128_small. unfold UINT128_MOD. lia. Qed.

Lemma u128_mul_share a b :
  is_share a → is_share b → 0 ≤ a → 0 ≤ b → u128_mul a b = a * b.
Proof.
  unfold is_share, INT64_MAX. intros. apply u128_small. unfold UINT128_MOD.
  split; [nia|]. apply Z.le_lt_trans with ((2 ^ 63 - 1) * (2 ^ 63 - 1)); [nia|done].
Qed.

(** The rounding-up idiom on 128-bit values does not wrap when the dividend
    leaves room for the divisor. *)
Lemma u128_div_up_small x y :
  0 ≤ x → 0 < y → x + y ≤ UINT128_MOD →
  u128_div (u128_sub (u128_add x y) 1) y = div_up x y.
Proof.
  intros. unfold u128_div, u128_sub, u128_add, div_up.
  destruct (decide (x + y = UINT128_MOD)) as [E|].
  - rewrite E. unfold u128 at 2. rewrite Z.mod_same by done.
    unfold u128. rewrite <- E. replace (0 - 1) with (x + y - 1 + (-1) * (x + y)) by lia.
    rewrite Z.mod_add by lia. rewrite Z.mod_small by lia. done.
  - rewrite (u128_small (x + y)) by lia. rewrite u128_small by lia. done.
Qed.

(** ** fc::time_point_sec *)
Definition time_point_sec_maximum : Z := 2 ^ 32 - 1.

(** [t + offset]: unsigned 32-bit addition. *)
Definition time_add (t offset : Z) : Z := (t + offset) mod 2 ^ 32.

Definition is_time (t : Z) : Prop := 0 ≤ t ≤ time_point_sec_maximum.

Lemma time_add_small t s : is_time (t + s) → time_add t s = t + s.
Proof. unfold is_time, time_point_sec_maximum, time_add. intros. apply Z.mod_small. lia. Qed.

Lemma time_add_is_time t s : is_time (time_add t s).
Proof.
  unfold is_time, time_point_sec_maximum, time_add.
  pose proof (Z.mod_pos_bound (t + s) (2 ^ 32) ltac:(done)). lia.
Qed.

#[export] Hint Resolve u128_range to_int64_is_share time_add_is_time : chain.

(** The arithmetic of [fc::safe] is exact or throws.  For every integral type and every
    pair of its values, the guarded addition, subtraction and multiplication return the
    mathematical result when it is representable, throw [overflow_exception] when it is above
    the maximum and [underflow_exception] when it is below the minimum. *)
Theorem safe_arithmetic_exact T a b :
  Safe.t_min T ≤ 0 ≤ Safe.t_max T → Safe.in_range T a → Safe.in_range T b →
  Safe.add T a b = Safe.exact T (a + b) ∧
  Safe.sub T a b = Safe.exact T (a - b) ∧
  Safe.mul T a b = Safe.exact T (a * b).
Proof.
  intros HT Ha Hb. split_and!;
    [apply Safe.add_exact | apply Safe.sub_exact | apply Safe.mul_exact]; tauto.
Qed.

Example safe_arithmetic_exact_witness :
  share_add INT64_MAX 1 = Err overflow_exception ∧
  share_sub INT64_MIN 1 = Err underflow_exception ∧
  share_mul (2 ^ 32) (- 2 ^ 31) = Ok INT64_MIN.
Proof.
  pose proof (safe_arithmetic_exact Safe.int64_t INT64_MAX 1) as (-> & _ & _); [done..|].
  pose proof (safe_arithmetic_exact Safe.int64_t INT64_MIN 1) as (_ & -> & _); [done..|].
  pose proof (safe_arithmetic_exact Safe.int64_t (2 ^ 32) (- 2 ^ 31)) as (_ & _ & ->); [done..|].
  done.
Defined.
