(* ===== verification/Hardfork.v ===== *)
(** * Hard forks

    The times at which rules of the chain change (chain/hardfork.d).  Some rules compare the time of the head
    block, some the time of the next maintenance; a rule "passed" at its time exactly or only after it,
    as its macro says. *)
From S2P Require Import Prelude MachineInt.

Definition HARDFORK_436_TIME : Z := 1450288800.
Definition HARDFORK_445_TIME : Z := 1450288800.
Definition HARDFORK_480_TIME : Z := 1450378800.
Definition HARDFORK_533_TIME : Z := 1456250400.
Definition HARDFORK_555_TIME : Z := 1456250400.
Definition HARDFORK_607_TIME : Z := 1458752400.
Definition HARDFORK_615_TIME : Z := 1458752400.
Definition HARDFORK_1774_TIME : Z := 1596117300.
Definition HARDFORK_CORE_184_TIME : Z := 1532008920.
Definition HARDFORK_CORE_214_TIME : Z := 1532008920.
Definition HARDFORK_CORE_216_TIME : Z := 1512747600.
Definition HARDFORK_CORE_338_TIME : Z := 1532008920.
Definition HARDFORK_CORE_342_TIME : Z := 1532008920.
Definition HARDFORK_CORE_343_TIME : Z := 1532008920.
Definition HARDFORK_CORE_453_TIME : Z := 1532008920.
Definition HARDFORK_CORE_460_TIME : Z := 1596117300.
Definition HARDFORK_CORE_583_TIME : Z := 1532008920.
Definition HARDFORK_CORE_584_TIME : Z := 1556028120.
Definition HARDFORK_CORE_604_TIME : Z := 1532008920.
Definition HARDFORK_CORE_606_TIME : Z := 1532008920.
Definition HARDFORK_CORE_625_TIME : Z := 1532008920.
Definition HARDFORK_CORE_834_TIME : Z := 1532008920.
Definition HARDFORK_CORE_1270_TIME : Z := 1556028120.
Definition HARDFORK_CORE_BSIP_87_74_COLLATFEE_TIME : Z := 1596117300.
Definition HARDFORK_CORE_1465_TIME : Z := 1556028120.
Definition HARDFORK_CORE_1468_TIME : Z := 1556028120.
Definition HARDFORK_CORE_1479_TIME : Z := 1545436800.
Definition HARDFORK_CORE_1573_TIME : Z := 1556028120.
Definition HARDFORK_CORE_1669_TIME : Z := 1596117300.
Definition HARDFORK_CORE_1692_TIME : Z := 1596117300.
Definition HARDFORK_CORE_1780_TIME : Z := 1596117300.
Definition HARDFORK_CORE_1800_TIME : Z := 1596117300.
Definition HARDFORK_CORE_BSIP64_TIME : Z := 1596117300.

Definition HARDFORK_CORE_973_PASSED (now : Z) : bool := 1641909720 <=? now.
Definition HARDFORK_CORE_1604_PASSED (now : Z) : bool := 1700143200 <=? now.
Definition HARDFORK_CORE_2103_PASSED (now : Z) : bool := 1596117300 <=? now.
Definition HARDFORK_CORE_2262_PASSED (now : Z) : bool := 1601312520 <? now.
Definition HARDFORK_CORE_2281_PASSED (now : Z) : bool := 1641909720 <? now.
Definition HARDFORK_CORE_2290_PASSED (now : Z) : bool := 1641909720 <? now.
Definition HARDFORK_CORE_2295_PASSED (now : Z) : bool := 1641909720 <=? now.
Definition HARDFORK_CORE_2350_PASSED (now : Z) : bool := 1641909720 <=? now.
Definition HARDFORK_CORE_2351_PASSED (now : Z) : bool := 1641909720 <=? now.
Definition HARDFORK_CORE_2362_PASSED (now : Z) : bool := 1641909720 <=? now.
Definition HARDFORK_CORE_2467_PASSED (now : Z) : bool := 1641909720 <? now.
Definition HARDFORK_CORE_2481_PASSED (now : Z) : bool := 1641909720 <? now.
Definition HARDFORK_CORE_2535_PASSED (now : Z) : bool := 1700143200 <=? now.
Definition HARDFORK_CORE_2582_PASSED (now : Z) : bool := 1656203698 <=? now.
Definition HARDFORK_CORE_2587_PASSED (now : Z) : bool := 1700143200 <=? now.
Definition HARDFORK_CORE_2591_PASSED (now : Z) : bool := 1700143200 <=? now.
Definition HARDFORK_CORE_2595_PASSED (now : Z) : bool := 1700143200 <=? now.
Definition HARDFORK_CORE_2604_PASSED (now : Z) : bool := 1700143200 <=? now.
Definition HARDFORK_BSIP_86_PASSED (now : Z) : bool := 1596117300 <=? now.
Definition HARDFORK_LIQUIDITY_POOL_PASSED (now : Z) : bool := 1601312520 <=? now.
Definition HARDFORK_BSIP_77_PASSED (now : Z) : bool := 1596117300 <=? now.
