(* ===== verification/Asset.v ===== *)
(** * Assets and prices

    [asset], [price] and their arithmetic, from
    libraries/protocol/include/graphene/protocol/asset.hpp and
    libraries/protocol/asset.cpp.  Identifiers are the instance numbers of object
    ids; [asset_id_type()] is the core asset, instance 0. *)
From S2P Require Import Prelude MachineInt Hardfork.

Notation share_type := Z (only parsing).
Notation asset_id_type := Z (only parsing).
Notation account_id_type := Z (only parsing).

Definition core_asset_id : asset_id_type := 0.

Definition GRAPHENE_MAX_SHARE_SUPPLY : Z := 1000000000000000.
Definition GRAPHENE_100_PERCENT : Z := 10000.
Definition GRAPHENE_COLLATERAL_RATIO_DENOM : Z := 1000.
Definition GRAPHENE_FEE_RATE_DENOM : Z := 1000000.

Definition GRAPHENE_COMMITTEE_ACCOUNT : account_id_type := 0.
Definition GRAPHENE_WITNESS_ACCOUNT : account_id_type := 1.
Definition GRAPHENE_RELAXED_COMMITTEE_ACCOUNT : account_id_type := 2.
Definition GRAPHENE_NULL_ACCOUNT : account_id_type := 3.
Definition GRAPHENE_TEMP_ACCOUNT : account_id_type := 4.

Record asset := Asset { amount : share_type; asset_id : asset_id_type }.

#[global] Instance asset_eq_dec : EqDecision asset.
Proof. solve_decision. Defined.

Record price := Price { base : asset; quote : asset }.

#[global] Instance price_eq_dec : EqDecision price.
Proof. solve_decision. Defined.

(** ** Asset arithmetic *)

(** [asset + asset], [asset - asset] and unary minus; the two asset types have to
    agree.  [operator +=] and [operator -=] have the same checks and values. *)
Definition asset_add (a b : asset) : result asset :=
  FC_ASSERT (asset_id a =? asset_id b) "asset_id == o.asset_id";;
  s ← share_add (amount a) (amount b); Ok (Asset s (asset_id a)).

Definition asset_sub (a b : asset) : result asset :=
  FC_ASSERT (asset_id a =? asset_id b) "asset_id == o.asset_id";;
  s ← share_sub (amount a) (amount b); Ok (Asset s (asset_id a)).

Definition asset_neg (a : asset) : result asset :=
  s ← share_neg (amount a); Ok (Asset s (asset_id a)).

(** [operator <]; the other comparisons are derived from it. *)
Definition asset_lt (a b : asset) : result bool :=
  FC_ASSERT (asset_id a =? asset_id b) "a.asset_id == b.asset_id";;
  Ok (amount a <? amount b).

Definition asset_le (a b : asset) : result bool := c ← asset_lt b a; Ok (negb c).
Definition asset_ge (a b : asset) : result bool := c ← asset_lt a b; Ok (negb c).

Definition asset_eqb (a b : asset) : bool :=
  (asset_id a =? asset_id b) && (amount a =? amount b).

(** ** Prices *)

(** [operator ==] and [operator <] compare the ratios base/quote by cross
    multiplication in 128 bits, after the asset types. *)
Definition price_eqb (a b : price) : bool :=
  if negb ((asset_id (base a) =? asset_id (base b))
           && (asset_id (quote a) =? asset_id (quote b))) then false
  else
    let amult := u128_mul (u128 (amount (quote b))) (u128 (amount (base a))) in
    let bmult := u128_mul (u128 (amount (quote a))) (u128 (amount (base b))) in
    amult =? bmult.

Definition price_ltb (a b : price) : bool :=
  if asset_id (base a) <? asset_id (base b) then true
  else if asset_id (base b) <? asset_id (base a) then false
  else if asset_id (quote a) <? asset_id (quote b) then true
  else if asset_id (quote b) <? asset_id (quote a) then false
  else
    let amult := u128_mul (u128 (amount (quote b))) (u128 (amount (base a))) in
    let bmult := u128_mul (u128 (amount (quote a))) (u128 (amount (base b))) in
    amult <? bmult.

(** [operator ~]. *)
Definition price_flip (p : price) : price := Price (quote p) (base p).

(** One direction of [asset * price]: convert [a] at the rate [to/from],
    rounding down. *)
Definition convert_down (a from to : asset) : result asset :=
  FC_ASSERT (0 <? amount from) "amount.value > 0";;
  let res := u128_div (u128_mul (u128 (amount a)) (u128 (amount to))) (amount from) in
  FC_ASSERT (res <=? GRAPHENE_MAX_SHARE_SUPPLY) "result <= GRAPHENE_MAX_SHARE_SUPPLY";;
  Ok (Asset (to_int64 res) (asset_id to)).

(** The same, rounding up. *)
Definition convert_up (a from to : asset) : result asset :=
  FC_ASSERT (0 <? amount from) "amount.value > 0";;
  let res := u128_div (u128_sub (u128_add (u128_mul (u128 (amount a)) (u128 (amount to)))
                                          (amount from)) 1) (amount from) in
  FC_ASSERT (res <=? GRAPHENE_MAX_SHARE_SUPPLY) "result <= GRAPHENE_MAX_SHARE_SUPPLY";;
  Ok (Asset (to_int64 res) (asset_id to)).

(** [asset operator * ( const asset& a, const price& b )]. *)
Definition asset_mul_price (a : asset) (b : price) : result asset :=
  if asset_id a =? asset_id (base b) then convert_down a (base b) (quote b)
  else if asset_id a =? asset_id (quote b) then convert_down a (quote b) (base b)
  else Err (assert_exception "invalid asset * price").

(** [asset::multiply_and_round_up]. *)
Definition multiply_and_round_up (a : asset) (b : price) : result asset :=
  if asset_id a =? asset_id (base b) then convert_up a (base b) (quote b)
  else if asset_id a =? asset_id (quote b) then convert_up a (quote b) (base b)
  else Err (assert_exception "invalid asset::multiply_and_round_up(price)").

(** [price operator / ( const asset& base, const asset& quote )]. *)
Definition make_price (b q : asset) : result price :=
  FC_ASSERT (negb (asset_id b =? asset_id q)) "base.asset_id != quote.asset_id";;
  Ok (Price b q).

Definition price_max (b q : asset_id_type) : result price :=
  make_price (Asset GRAPHENE_MAX_SHARE_SUPPLY b) (Asset 1 q).
Definition price_min (b q : asset_id_type) : result price :=
  make_price (Asset 1 b) (Asset GRAPHENE_MAX_SHARE_SUPPLY q).

Definition price_is_null (p : price) : bool :=
  (asset_id (base p) =? core_asset_id) && (asset_id (quote p) =? core_asset_id).

Definition price_validate (check_upper_bound : bool) (p : price) : result unit :=
  FC_ASSERT (0 <? amount (base p)) "Base amount should be positive";;
  FC_ASSERT (0 <? amount (quote p)) "Quote amount should be positive";;
  FC_ASSERT (negb (asset_id (base p) =? asset_id (quote p)))
    "Base asset ID and quote asset ID should be different";;
  if check_upper_bound then
    FC_ASSERT (amount (base p) <=? GRAPHENE_MAX_SHARE_SUPPLY)
      "Base amount should not be greater than max";;
    FC_ASSERT (amount (quote p) <=? GRAPHENE_MAX_SHARE_SUPPLY)
      "Quote amount should not be greater than max"
  else Ok ().

(** [asset::scaled_precision]: the table of powers of ten. *)
Definition scaled_precision (precision : Z) : result share_type :=
  FC_ASSERT (precision <? 19) "precision < 19";; Ok (10 ^ precision).

(** ** Lemmas used by the clients *)

Definition asset_wf (a : asset) : Prop := is_share (amount a) ∧ 0 ≤ amount a.

(** The prices [price::validate] accepts, with amounts that are [share_type]s. *)
Definition price_wf (p : price) : Prop :=
  is_share (amount (base p)) ∧ is_share (amount (quote p)) ∧
  0 < amount (base p) ∧ 0 < amount (quote p) ∧
  asset_id (base p) ≠ asset_id (quote p).

Lemma asset_eqb_eq a b : asset_eqb a b = true ↔ a = b.
Proof.
  unfold asset_eqb. rewrite andb_true_iff, !Z.eqb_eq. destruct a, b; naive_solver.
Qed.

Lemma asset_add_Ok a b c :
  asset_add a b = Ok c →
  c = Asset (amount a + amount b) (asset_id a) ∧ asset_id a = asset_id b ∧ is_share (amount c).
Proof. unfold asset_add. intros. inv_ok. inv_share. propify. by subst. Qed.

Lemma asset_sub_Ok a b c :
  asset_sub a b = Ok c →
  c = Asset (amount a - amount b) (asset_id a) ∧ asset_id a = asset_id b ∧ is_share (amount c).
Proof. unfold asset_sub. intros. inv_ok. inv_share. propify. by subst. Qed.

Lemma asset_neg_Ok a c :
  asset_neg a = Ok c → c = Asset (- amount a) (asset_id a) ∧ is_share (amount c).
Proof. unfold asset_neg. intros. inv_ok. inv_share. by subst. Qed.

Lemma asset_le_Ok a b c :
  asset_le a b = Ok c → asset_id a = asset_id b ∧ c = (amount a <=? amount b).
Proof.
  unfold asset_le, asset_lt. intros. inv_ok. propify.
  split; [done|]. by rewrite Z.leb_antisym.
Qed.

Lemma asset_lt_Ok a b c :
  asset_lt a b = Ok c → asset_id a = asset_id b ∧ c = (amount a <? amount b).
Proof. unfold asset_lt. intros. inv_ok. propify. done. Qed.

Lemma asset_ge_Ok a b c :
  asset_ge a b = Ok c → asset_id a = asset_id b ∧ c = (amount b <=? amount a).
Proof.
  unfold asset_ge, asset_lt. intros. inv_ok. propify.
  split; [done|]. by rewrite Z.leb_antisym.
Qed.

Ltac inv_asset :=
  repeat match goal with
  | H : asset_add _ _ = Ok _ |- _ => apply asset_add_Ok in H as (? & ? & ?)
  | H : asset_sub _ _ = Ok _ |- _ => apply asset_sub_Ok in H as (? & ? & ?)
  | H : asset_neg _ = Ok _ |- _ => apply asset_neg_Ok in H as (? & ?)
  | H : asset_le _ _ = Ok _ |- _ => apply asset_le_Ok in H as (? & ?)
  | H : asset_lt _ _ = Ok _ |- _ => apply asset_lt_Ok in H as (? & ?)
  | H : asset_ge _ _ = Ok _ |- _ => apply asset_ge_Ok in H as (? & ?)
  end; subst; simpl in *.

Lemma max_supply_is_share v : 0 ≤ v ≤ GRAPHENE_MAX_SHARE_SUPPLY → is_share v.
Proof. unfold GRAPHENE_MAX_SHARE_SUPPLY, is_share, INT64_MIN, INT64_MAX. lia. Qed.

(** Conversions of nonnegative amounts are the mathematical quotients. *)
Lemma convert_down_spec a from to :
  asset_wf a → is_share (amount from) → asset_wf to →
  convert_down a from to =
   (FC_ASSERT (0 <? amount from) "amount.value > 0";;
    FC_ASSERT (amount a * amount to / amount from <=? GRAPHENE_MAX_SHARE_SUPPLY)
      "result <= GRAPHENE_MAX_SHARE_SUPPLY";;
    Ok (Asset (amount a * amount to / amount from) (asset_id to))).
Proof.
  intros [Ha ?] Hf [Ht ?]. unfold convert_down. destruct (Z.ltb_spec 0 (amount from)); [|done].
  simpl. rewrite !u128_share, u128_mul_share by done. unfold u128_div.
  destruct (Z.leb_spec (amount a * amount to / amount from) GRAPHENE_MAX_SHARE_SUPPLY); [|done].
  simpl. rewrite to_int64_small; [done|]. apply max_supply_is_share.
  split; [apply Z.div_pos; nia | done].
Qed.

Lemma convert_up_spec a from to :
  asset_wf a → is_share (amount from) → asset_wf to →
  convert_up a from to =
   (FC_ASSERT (0 <? amount from) "amount.value > 0";;
    FC_ASSERT (div_up (amount a * amount to) (amount from) <=? GRAPHENE_MAX_SHARE_SUPPLY)
      "result <= GRAPHENE_MAX_SHARE_SUPPLY";;
    Ok (Asset (div_up (amount a * amount to) (amount from)) (asset_id to))).
Proof.
  intros [Ha ?] Hf [Ht ?]. unfold convert_up. destruct (Z.ltb_spec 0 (amount from)); [|done].
  simpl. rewrite !u128_share, u128_mul_share by done.
  rewrite u128_div_up_small; [|nia|done|].
  2:{ unfold is_share, INT64_MAX in *. unfold UINT128_MOD. nia. }
  destruct (Z.leb_spec (div_up (amount a * amount to) (amount from)) GRAPHENE_MAX_SHARE_SUPPLY);
    [|done].
  simpl. rewrite to_int64_small; [done|]. apply max_supply_is_share.
  split; [apply div_up_nonneg; nia | done].
Qed.

Lemma price_mults a b :
  price_wf a → price_wf b →
  u128_mul (u128 (amount (quote b))) (u128 (amount (base a)))
    = amount (quote b) * amount (base a).
Proof.
  intros (? & ? & ? & ? & ?) (? & ? & ? & ? & ?).
  rewrite !u128_share, u128_mul_share; done || lia.
Qed.

(** On well-formed prices of the same market, [operator <] and [operator ==] are
    the order and the equality of the rationals base/quote. *)
Lemma price_ltb_cross a b :
  price_wf a → price_wf b →
  asset_id (base a) = asset_id (base b) → asset_id (quote a) = asset_id (quote b) →
  price_ltb a b = (amount (base a) * amount (quote b) <? amount (base b) * amount (quote a)).
Proof.
  intros Ha Hb Hbase Hquote. unfold price_ltb.
  rewrite Hbase, Hquote, !Z.ltb_irrefl. rewrite !price_mults by done.
  f_equal; lia.
Qed.

Lemma price_eqb_cross a b :
  price_wf a → price_wf b →
  asset_id (base a) = asset_id (base b) → asset_id (quote a) = asset_id (quote b) →
  price_eqb a b = (amount (base a) * amount (quote b) =? amount (base b) * amount (quote a)).
Proof.
  intros Ha Hb Hbase Hquote. unfold price_eqb.
  rewrite Hbase, Hquote, !Z.eqb_refl. simpl. rewrite !price_mults by done. f_equal; lia.
Qed.

(** ** Properties *)

(** Prices of one market compare as [base a * quote b] against [base b * quote a]. *)
Lemma price_ltb_true a b :
  price_wf a → price_wf b →
  price_ltb a b = true ↔
    asset_id (base a) < asset_id (base b) ∨
    (asset_id (base a) = asset_id (base b) ∧
     (asset_id (quote a) < asset_id (quote b) ∨
      (asset_id (quote a) = asset_id (quote b) ∧
       amount (base a) * amount (quote b) < amount (base b) * amount (quote a)))).
Proof.
  intros Ha Hb. unfold price_ltb. rewrite !price_mults by done.
  split_ifs; propify; try rewrite Z.ltb_lt; lia.
Qed.

Lemma price_eqb_true a b :
  price_wf a → price_wf b →
  price_eqb a b = true ↔
    asset_id (base a) = asset_id (base b) ∧ asset_id (quote a) = asset_id (quote b) ∧
    amount (base a) * amount (quote b) = amount (base b) * amount (quote a).
Proof.
  intros Ha Hb. unfold price_eqb. rewrite !price_mults by done.
  split_ifs; propify; try rewrite Z.eqb_eq; lia.
Qed.

Lemma cross_trans xa ya xb yb xc yc :
  0 < ya → 0 < yb → 0 < yc →
  xa * yb < xb * ya → xb * yc < xc * yb → xa * yc < xc * ya.
Proof. intros. nia. Qed.

Lemma cross_le_trans xa ya xb yb xc yc :
  0 < ya → 0 < yb → 0 < yc →
  xa * yb ≤ xb * ya → xb * yc ≤ xc * yb → xa * yc ≤ xc * ya.
Proof. intros. nia. Qed.

(** On valid prices [operator <] is a strict weak order. *)
Lemma price_ltb_irrefl a : price_ltb a a = false.
Proof. unfold price_ltb. by rewrite !Z.ltb_irrefl. Qed.

Lemma price_ltb_trans a b c :
  price_wf a → price_wf b → price_wf c →
  price_ltb a b = true → price_ltb b c = true → price_ltb a c = true.
Proof.
  intros Ha Hb Hc. rewrite !price_ltb_true by done.
  destruct Ha as (_&_&?&?&_), Hb as (_&_&?&?&_), Hc as (_&_&?&?&_).
  pose proof (cross_trans (amount (base a)) (amount (quote a)) (amount (base b))
    (amount (quote b)) (amount (base c)) (amount (quote c))). lia.
Qed.

Lemma price_ltb_asym a b :
  price_wf a → price_wf b → price_ltb a b = true → price_ltb b a = false.
Proof.
  intros Ha Hb H1. destruct (price_ltb b a) eqn:E; [|done].
  apply (price_ltb_trans a b a) in E; [|done..]. by rewrite price_ltb_irrefl in E.
Qed.

(** [>=] is transitive. *)
Lemma price_ge_trans a b c :
  price_wf a → price_wf b → price_wf c →
  price_ltb a b = false → price_ltb b c = false → price_ltb a c = false.
Proof.
  intros Ha Hb Hc. rewrite <- !not_true_iff_false, !price_ltb_true by done.
  destruct Ha as (_&_&?&?&_), Hb as (_&_&?&?&_), Hc as (_&_&?&?&_).
  pose proof (cross_le_trans (amount (base c)) (amount (quote c)) (amount (base b))
    (amount (quote b)) (amount (base a)) (amount (quote a))). lia.
Qed.

Lemma price_flip_wf p : price_wf p → price_wf (price_flip p).
Proof. unfold price_wf, price_flip. simpl. naive_solver. Qed.

(** The order on prices is a strict total preorder compatible with price equality.  On
    valid prices [operator <] is transitive, and exactly one of [a < b], [a == b] and
    [b < a] holds, although the comparison is done by 128-bit cross multiplication. *)
Theorem price_order_total a b c :
  price_wf a → price_wf b → price_wf c →
  (price_ltb a b = true → price_ltb b c = true → price_ltb a c = true) ∧
  (price_ltb a b, price_eqb a b, price_ltb b a) ∈
    [(true, false, false); (false, true, false); (false, false, true)].
Proof.
  intros Ha Hb Hc. split.
  - by apply price_ltb_trans.
  - pose proof (price_ltb_true a b Ha Hb). pose proof (price_ltb_true b a Hb Ha).
    pose proof (price_eqb_true a b Ha Hb).
    destruct (price_ltb a b), (price_eqb a b), (price_ltb b a);
      first [by left | by right; left | by right; right; left | exfalso; lia].
Qed.

Example price_order_total_witness :
  let a := Price (Asset 1 0) (Asset 3 1) in
  let b := Price (Asset INT64_MAX 0) (Asset (3 * 2 ^ 61 - 1) 1) in
  let c := Price (Asset 7 0) (Asset 2 1) in
  price_ltb a c = true ∧
  (price_ltb a b, price_eqb a b, price_ltb b a) ∈
    [(true, false, false); (false, true, false); (false, false, true)].
Proof.
  intros a b c.
  assert (price_wf a ∧ price_wf b ∧ price_wf c) as (Ha & Hb & Hc)
    by (unfold a, b, c, price_wf, is_share, INT64_MIN, INT64_MAX; simpl; lia).
  destruct (price_order_total a b c Ha Hb Hc) as [Ht Hx].
  split; [apply Ht; vm_compute; reflexivity | exact Hx].
Defined.

(** Both conversions go from one side of the price to the other. *)
Definition price_sides (p : price) (from to : asset) : Prop :=
  (from = base p ∧ to = quote p) ∨ (from = quote p ∧ to = base p).

Lemma price_sides_wf p from to :
  price_wf p → price_sides p from to →
  asset_wf to ∧ is_share (amount from) ∧ 0 < amount from ∧ 0 < amount to ∧
  asset_id from ≠ asset_id to.
Proof.
  intros (? & ? & ? & ? & ?) [[-> ->]|[-> ->]]; unfold asset_wf; split_and!; auto; lia.
Qed.

Lemma asset_mul_price_Ok a p d :
  asset_wf a → price_wf p → asset_mul_price a p = Ok d →
  ∃ from to, price_sides p from to ∧ asset_id a = asset_id from ∧ asset_wf d ∧
    d = Asset (amount a * amount to / amount from) (asset_id to).
Proof.
  intros Ha Hp H. assert (∃ from to, price_sides p from to ∧ asset_id a = asset_id from ∧
    convert_down a from to = Ok d) as (from & to & Hs & Hid & Hc).
  { unfold asset_mul_price in H. inv_ok; propify; unfold price_sides; eauto 10. }
  destruct (price_sides_wf _ _ _ Hp Hs) as (Hto & ? & ? & ? & _).
  rewrite convert_down_spec in Hc by done. inv_ok. propify. exists from, to. split_and!; try done.
  destruct Ha. assert (0 ≤ amount a * amount to / amount from) by (apply Z.div_pos; nia).
  split; simpl; [apply max_supply_is_share|]; lia.
Qed.

Lemma multiply_and_round_up_Ok a p d :
  asset_wf a → price_wf p → multiply_and_round_up a p = Ok d →
  ∃ from to, price_sides p from to ∧ asset_id a = asset_id from ∧ asset_wf d ∧
    d = Asset (div_up (amount a * amount to) (amount from)) (asset_id to).
Proof.
  intros Ha Hp H. assert (∃ from to, price_sides p from to ∧ asset_id a = asset_id from ∧
    convert_up a from to = Ok d) as (from & to & Hs & Hid & Hc).
  { unfold multiply_and_round_up in H. inv_ok; propify; unfold price_sides; eauto 10. }
  destruct (price_sides_wf _ _ _ Hp Hs) as (Hto & ? & ? & ? & _).
  rewrite convert_up_spec in Hc by done. inv_ok. propify. exists from, to. split_and!; try done.
  destruct Ha. assert (0 ≤ div_up (amount a * amount to) (amount from)) by (apply div_up_nonneg; nia).
  split; simpl; [apply max_supply_is_share|]; lia.
Qed.

(** The side of the price is determined by the asset that is converted. *)
Lemma price_sides_from p f1 t1 f2 t2 :
  price_wf p → price_sides p f1 t1 → price_sides p f2 t2 → asset_id f1 = asset_id f2 →
  f1 = f2 ∧ t1 = t2.
Proof.
  intros (_ & _ & _ & _ & Hne) [[-> ->]|[-> ->]] [[-> ->]|[-> ->]]; intros; split; congruence.
Qed.
Lemma price_sides_back p f1 t1 f2 t2 :
  price_wf p → price_sides p f1 t1 → price_sides p f2 t2 → asset_id t1 = asset_id f2 →
  f2 = t1 ∧ t2 = f1.
Proof.
  intros (_ & _ & _ & _ & Hne) [[-> ->]|[-> ->]] [[-> ->]|[-> ->]]; intros; split; congruence.
Qed.

(** Conversions round in the direction they name and never create value.  When both
    [a * p] and [a.multiply_and_round_up(p)] return, the first is at most the second and they
    differ by at most one unit; and converting the rounded-down result back, even rounding up,
    never yields more than [a]. *)
Theorem conversion_rounding a p d u a' :
  asset_wf a → price_wf p →
  asset_mul_price a p = Ok d → multiply_and_round_up a p = Ok u →
  multiply_and_round_up d p = Ok a' →
  asset_id d = asset_id u ∧ 0 ≤ amount d ≤ amount u ∧ amount u ≤ amount d + 1 ∧
  asset_id a' = asset_id a ∧ amount a' ≤ amount a.
Proof.
  intros Ha Hp Hd Hu Hback.
  apply asset_mul_price_Ok in Hd as (f1 & t1 & Hs1 & ? & Hwd & ->); [|done..].
  apply multiply_and_round_up_Ok in Hu as (f2 & t2 & Hs2 & ? & _ & ->); [|done..].
  apply multiply_and_round_up_Ok in Hback as (f3 & t3 & Hs3 & Hid3 & _ & ->); [|done..].
  destruct (price_sides_from p f1 t1 f2 t2) as [<- <-]; [done..|congruence|].
  destruct (price_sides_back p f1 t1 f3 t3) as [-> ->]; [done..|].
  destruct (price_sides_wf _ _ _ Hp Hs1) as (_ & _ & Hf & Ht & _). destruct Ha, Hwd; simpl in *.
  pose proof (div_down_spec (amount a * amount t1) (amount f1) Hf).
  pose proof (div_up_spec (amount a * amount t1) (amount f1) Hf).
  split_and!; try done; [nia..|]. apply div_up_le; lia.
Qed.

Example conversion_rounding_witness :
  let p := Price (Asset 3 0) (Asset 10 1) in
  let a := Asset 100 0 in
  asset_mul_price a p = Ok (Asset 333 1) ∧ multiply_and_round_up a p = Ok (Asset 334 1) ∧
  amount (Asset 333 1) ≤ amount (Asset 334 1).
Proof.
  intros p a. split; [done|]. split; [done|].
  eapply (conversion_rounding a p (Asset 333 1) (Asset 334 1) (Asset 100 0));
    [by (unfold a, asset_wf, is_share, INT64_MIN, INT64_MAX; simpl; lia)
    |by (unfold p, price_wf, is_share, INT64_MIN, INT64_MAX; simpl; lia)|reflexivity..].
Defined.
