(* ===== verification/PriceRatio.v ===== *)
(** * Scaling a price by a ratio

    [price operator * ( const price& p, const ratio_type& r )] of
    libraries/protocol/asset.cpp: the product is computed in [boost::rational<uint128_t>] and,
    if a side exceeds the maximum share supply, approximated by halving both sides. *)
From S2P Require Import Prelude MachineInt Hardfork Asset.

(** A [boost::rational<uint128_t>] is kept in lowest terms. *)
Record rational := Rational { numerator : Z; denominator : Z }.

Definition make_rational (n d : Z) : rational :=
  let g := Z.gcd n d in Rational (n / g) (d / g).

Definition rat_mul (a b : rational) : rational :=
  let g1 := Z.gcd (numerator a) (denominator b) in
  let g2 := Z.gcd (numerator b) (denominator a) in
  Rational (u128_mul (numerator a / g1) (numerator b / g2))
    (u128_mul (denominator a / g2) (denominator b / g1)).

Definition rat_ltb (a b : rational) : bool :=
  numerator a * denominator b <? numerator b * denominator a.

Definition rat_sub (a b : rational) : rational :=
  let g := Z.gcd (denominator a) (denominator b) in
  let den := denominator a / g in
  let num := u128_sub (u128_mul (numerator a) (denominator b / g)) (u128_mul (numerator b) den) in
  let g' := Z.gcd num g in
  Rational (num / g') (u128_mul den (denominator b / g')).

Definition rat_diff (a b : rational) : rational :=
  if rat_ltb a b then rat_sub b a else rat_sub a b.

(** The loop [while( cp.numerator() > max || cp.denominator() > max )]; the flags are
    [shrinked] and [using_max].  Both sides are below 2^128 and are halved in each round. *)
Fixpoint shrink (fuel : nat) (cp : rational) (shrinked : bool) : rational * bool * bool :=
  let max := GRAPHENE_MAX_SHARE_SUPPLY in
  if (max <? numerator cp) || (max <? denominator cp) then
    if 1 =? numerator cp then (Rational 1 max, shrinked, true)
    else if 1 =? denominator cp then (Rational max 1, shrinked, true)
    else match fuel with
         | O => (cp, shrinked, false)
         | S fuel =>
           shrink fuel (make_rational (Z.shiftr (numerator cp) 1) (Z.shiftr (denominator cp) 1)) true
         end
  else (cp, shrinked, false).

(** The better of the shrunk ratio [cp] and the nearest ratio with a side of one. *)
Definition refine_shrunk (ocp cp : rational) : result rational :=
  let max := GRAPHENE_MAX_SHARE_SUPPLY in
  let num := numerator ocp in
  let den := denominator ocp in
  FC_ASSERT ((0 <? num) && (0 <? den)) "Internal error";;
  let '(num, den) := if den <? num then (Z.min (num / den) max, 1) else (1, Z.min (den / num) max) in
  let ncp := make_rational num den in
  if (num =? max) || (den =? max) then Ok ncp
  else if rat_ltb (rat_diff ncp ocp) (rat_diff cp ocp) then Ok ncp else Ok cp.

Definition price_mul_ratio (p : price) (r_num r_den : Z) : result price :=
  price_validate false p;;
  FC_ASSERT ((0 <? r_num) && (0 <? r_den)) "r.numerator() > 0 && r.denominator() > 0";;
  if r_num =? r_den then Ok p
  else
    let ocp := rat_mul (make_rational (amount (base p)) (amount (quote p))) (make_rational r_num r_den) in
    let '(cp, shrinked, using_max) := shrink 128 ocp false in
    cp ← (if shrinked then refine_shrunk ocp cp else Ok cp);
    np ← make_price (Asset (to_int64 (numerator cp)) (asset_id (base p)))
           (Asset (to_int64 (denominator cp)) (asset_id (quote p)));
    let flipped := if r_den <? r_num then price_ltb np p else price_ltb p np in
    let np := if (shrinked || using_max) && flipped then p else np in
    price_validate false np;;
    Ok np.

(** ** Exactness *)

Lemma gcd_parts a b : 0 < a → 0 < b →
  ∃ x y, a = x * Z.gcd a b ∧ b = y * Z.gcd a b ∧ 0 < x ∧ 0 < y ∧ a / Z.gcd a b = x ∧ b / Z.gcd a b = y.
Proof.
  intros Ha Hb. pose proof (Z.gcd_nonneg a b). assert (Z.gcd a b ≠ 0) as Hg by (intros [? ?]%Z.gcd_eq_0; lia).
  destruct (Z.gcd_divide_l a b) as [x Hx], (Z.gcd_divide_r a b) as [y Hy]. exists x, y.
  assert (0 < x ∧ 0 < y) as [? ?] by nia. split_and!; [done..| |].
  - rewrite Hx at 1. by apply Z.div_mul.
  - rewrite Hy at 1. by apply Z.div_mul.
Qed.

(** The product of two ratios of positive numbers, as long as it fits, is exact. *)
Lemma rat_mul_exact b q n d :
  0 < b → 0 < q → 0 < n → 0 < d → b * n < UINT128_MOD → q * d < UINT128_MOD →
  let r := rat_mul (make_rational b q) (make_rational n d) in
  0 < numerator r ≤ b * n ∧ 0 < denominator r ≤ q * d ∧ numerator r * (q * d) = denominator r * (b * n).
Proof.
  intros Hb Hq Hn Hd Hbn Hqd. unfold rat_mul, make_rational. simpl.
  destruct (gcd_parts b q Hb Hq) as (b1 & q1 & Eb & Eq & Hb1 & Hq1 & -> & ->).
  destruct (gcd_parts n d Hn Hd) as (n1 & d1 & En & Ed & Hn1 & Hd1 & -> & ->).
  destruct (gcd_parts b1 d1 Hb1 Hd1) as (b2 & d2 & Eb1 & Ed1 & Hb2 & Hd2 & -> & ->).
  destruct (gcd_parts n1 q1 Hn1 Hq1) as (n2 & q2 & En1 & Eq1 & Hn2 & Hq2 & -> & ->).
  set (g := Z.gcd b q) in *. set (h := Z.gcd n d) in *.
  set (g1 := Z.gcd b1 d1) in *. set (g2 := Z.gcd n1 q1) in *.
  assert (0 < g ∧ 0 < h ∧ 0 < g1 ∧ 0 < g2) as (? & ? & ? & ?) by (split_and!; nia).
  assert (b2 ≤ b1 ∧ b1 ≤ b ∧ n2 ≤ n1 ∧ n1 ≤ n ∧ q2 ≤ q1 ∧ q1 ≤ q ∧ d2 ≤ d1 ∧ d1 ≤ d)
    as (? & ? & ? & ? & ? & ? & ? & ?) by (split_and!; nia).
  assert (b2 * n2 ≤ b * n) by (apply Z.mul_le_mono_nonneg; lia).
  assert (q2 * d2 ≤ q * d) by (apply Z.mul_le_mono_nonneg; lia).
  unfold u128_mul. rewrite !u128_small by nia. split_and!; [nia|done|nia|done|].
  rewrite Eb, Eq, En, Ed, Eb1, Ed1, En1, Eq1. ring.
Qed.

Lemma shrink_fits k r b :
  numerator r ≤ GRAPHENE_MAX_SHARE_SUPPLY → denominator r ≤ GRAPHENE_MAX_SHARE_SUPPLY →
  shrink k r b = (r, b, false).
Proof. intros H1 H2. destruct k; simpl; by rewrite !(proj2 (Z.ltb_ge GRAPHENE_MAX_SHARE_SUPPLY _)) by done. Qed.

(** As long as neither side can exceed the maximum share supply, scaling a price is exact. *)
Lemma price_mul_ratio_exact p n d :
  price_wf p → 0 < n → 0 < d →
  amount (base p) * n ≤ GRAPHENE_MAX_SHARE_SUPPLY → amount (quote p) * d ≤ GRAPHENE_MAX_SHARE_SUPPLY →
  ∃ np, price_mul_ratio p n d = Ok np ∧ price_wf np ∧
    asset_id (base np) = asset_id (base p) ∧ asset_id (quote np) = asset_id (quote p) ∧
    amount (base np) * (amount (quote p) * d) = amount (quote np) * (amount (base p) * n).
Proof.
  intros Hp Hn Hd Hb Hq. pose proof Hp as (? & ? & HB & HQ & Hne).
  assert (GRAPHENE_MAX_SHARE_SUPPLY < UINT128_MOD) by done.
  destruct (rat_mul_exact (amount (base p)) (amount (quote p)) n d) as (R1 & R2 & R3); [lia..|].
  assert (∀ x y, 0 < x → 0 < y → price_validate false
    (Price (Asset x (asset_id (base p))) (Asset y (asset_id (quote p)))) = Ok ()) as Hval.
  { intros x y Hx Hy. unfold price_validate. simpl. rewrite !(proj2 (Z.ltb_lt 0 _)) by lia. simpl.
    by destruct (Z.eqb_spec (asset_id (base p)) (asset_id (quote p))). }
  assert (price_validate false p = Ok ()) as Hvp by (destruct p as [[] []]; by apply Hval).
  set (r := rat_mul (make_rational (amount (base p)) (amount (quote p))) (make_rational n d)) in *.
  set (k := 128%nat).
  assert (shrink k r false = (r, false, false)) as Hsh.
  { apply shrink_fits; lia. }
  unfold price_mul_ratio. fold r k. clearbody r k. rewrite Hvp, Hsh, !(proj2 (Z.ltb_lt 0 _)) by lia. simpl.
  destruct (Z.eqb_spec n d) as [->|Hnd].
  { exists p. split; [reflexivity|]. split_and!; [exact Hp|reflexivity|reflexivity|lia]. }
  unfold make_price. simpl. rewrite (proj2 (Z.eqb_neq _ _) Hne). simpl.
  rewrite !to_int64_small by (apply max_supply_is_share; lia). rewrite Hval by lia. simpl.
  eexists. split; [done|].
  assert (is_share (numerator r) ∧ is_share (denominator r)) as [? ?]
    by (split; apply max_supply_is_share; lia).
  split_and!; [|reflexivity|reflexivity|exact R3].
  split_and!; [assumption|assumption|apply R1|apply R2|exact Hne].
Qed.
