(* ===== verification/CallOrder.v ===== *)
(** * Debt positions and how much of one is sold in a margin call

    [price::call_price] of libraries/protocol/asset.cpp, [call_order_object] and
    [call_order_object::get_max_debt_to_cover] of libraries/chain/market_object.cpp: a borrower
    may name a target collateral ratio; a margin call then covers only as much debt as is needed
    to reach it.  The amount is estimated in 256-bit arithmetic, improved by a binary search and,
    if rounding still leaves it too small, by a search forward in growing steps. *)
From S2P Require Import Prelude MachineInt Hardfork Asset PriceRatio.

(** ** Call prices *)

(** The constructor [boost::rational( n, d )], which throws for a zero denominator. *)
Definition checked_rational (n d : Z) : result rational :=
  if d =? 0 then Err (fc_throw "bad rational: zero denominator") else Ok (make_rational n d).

(** The loop of [price::call_price]. *)
Fixpoint halve_up (fuel : nat) (cp : rational) : rational :=
  let max := GRAPHENE_MAX_SHARE_SUPPLY in
  if (max <? numerator cp) || (max <? denominator cp) then
    match fuel with
    | O => cp
    | S fuel => halve_up fuel (make_rational (Z.shiftr (numerator cp) 1 + 1) (Z.shiftr (denominator cp) 1 + 1))
    end
  else cp.

(** [price::call_price]; the 128 rounds are enough for 128-bit numbers. *)
Definition call_price (debt collateral : asset) (collateral_ratio : Z) : result price :=
  swan ← checked_rational (u128 (amount debt)) (u128 (amount collateral));
  let ratio := make_rational collateral_ratio GRAPHENE_COLLATERAL_RATIO_DENOM in
  let cp := halve_up 128 (rat_mul swan ratio) in
  make_price (Asset (to_int64 (denominator cp)) (asset_id collateral))
    (Asset (to_int64 (numerator cp)) (asset_id debt)).

(** ** Call orders *)

Record call_order_object := CallOrderObject {
  borrower : account_id_type;
  collateral : share_type;
  debt : share_type;
  co_call_price : price;
  target_collateral_ratio : option Z }.

Definition debt_type (o : call_order_object) : asset_id_type := asset_id (quote (co_call_price o)).
Definition collateral_type (o : call_order_object) : asset_id_type := asset_id (base (co_call_price o)).
Definition get_collateral (o : call_order_object) : asset := Asset (collateral o) (collateral_type o).
Definition get_debt (o : call_order_object) : asset := Asset (debt o) (debt_type o).
Definition collateralization (o : call_order_object) : result price := make_price (get_collateral o) (get_debt o).

(** In the format collateral / debt. *)
Definition oriented (o : call_order_object) (p : price) : price :=
  if negb (asset_id (base p) =? collateral_type o) then price_flip p else p.

Definition same_market (o : call_order_object) (p : price) : bool :=
  (asset_id (base p) =? collateral_type o) && (asset_id (quote p) =? debt_type o).

(** ** The search *)

Section search.
Variable o : call_order_object.
Variable match_price : price.
(** [result_is_good] for [to_pay] and [to_cover]. *)
Variable result_is_good : share_type → share_type → result bool.

(** [asset( to_pay ) * match_price] and [asset( to_cover ).multiply_and_round_up( match_price )]. *)
Definition cover_for (to_pay : share_type) : result share_type :=
  a ← asset_mul_price (Asset to_pay (collateral_type o)) match_price; Ok (amount a).
Definition pay_for (to_cover : share_type) : result share_type :=
  a ← multiply_and_round_up (Asset to_cover (debt_type o)) match_price; Ok (amount a).

Record search := Search {
  min_to_pay : share_type; min_to_cover : share_type;
  max_to_pay : share_type; max_to_cover : share_type;
  max_is_ok : bool;
  to_pay : share_type; to_cover : share_type;
  (** the value returned, if the loop returned *)
  found : option share_type }.

(** The mean, by the amount whose steps are smaller. *)
Definition mean_by_pay (s : search) : result (share_type * share_type) :=
  sum ← share_add (min_to_pay s) (max_to_pay s);
  sum ← share_add sum 1;
  pay ← share_div sum 2;
  if pay =? max_to_pay s then Ok (pay, max_to_cover s)
  else
    cover ← cover_for pay;
    if max_to_cover s <=? cover then Ok (max_to_pay s, max_to_cover s)
    else
      pay ← pay_for cover;
      FC_ASSERT (pay <? max_to_pay s) "to_pay.amount < max_to_pay.amount";;
      Ok (pay, cover).

Definition mean_by_cover (s : search) : result (share_type * share_type) :=
  sum ← share_add (min_to_cover s) (max_to_cover s);
  cover ← share_div sum 2;
  if cover =? max_to_cover s then Ok (max_to_pay s, cover)
  else
    pay ← pay_for cover;
    if max_to_pay s <=? pay then Ok (max_to_pay s, max_to_cover s)
    else
      cover ← cover_for pay;
      if max_to_cover s <=? cover then Ok (max_to_pay s, max_to_cover s) else Ok (pay, cover).

Definition mean (s : search) : result (share_type * share_type) :=
  '(pay, cover) ← (if amount (base match_price) <? amount (quote match_price) then mean_by_pay s else mean_by_cover s);
  if (pay <=? min_to_pay s) || (cover <=? min_to_cover s) || (max_to_pay s <? pay) || (max_to_cover s <? cover)
  then Ok (max_to_pay s, max_to_cover s) else Ok (pay, cover).

Definition set_found (s : search) (pay cover : share_type) (r : option share_type) : search :=
  Search (min_to_pay s) (min_to_cover s) (max_to_pay s) (max_to_cover s) (max_is_ok s) pay cover r.

(** One round of [while( true )]. *)
Definition search_round (s : search) : result (search * bool) :=
  '(pay, cover) ← mean s;
  let at_max := pay =? max_to_pay s in
  if at_max && (max_is_ok s || (pay =? collateral o)) then Ok (set_found s pay cover (Some cover), false)
  else
    FC_ASSERT ((pay <? collateral o) && (cover <? debt o)) "to_pay.amount < collateral && to_cover.amount < debt";;
    good ← result_is_good pay cover;
    if (good : bool) then
      if at_max then Ok (set_found s pay cover (Some cover), false)
      else Ok (Search (min_to_pay s) (min_to_cover s) pay cover true pay cover None, true)
    else if at_max then Ok (set_found s pay cover None, false)
    else Ok (Search pay cover (max_to_pay s) (max_to_cover s) (max_is_ok s) pay cover None, true).

(** [for( uint64_t d1 = 0, d2 = 1, d3 = 1; ; d1 = d2, d2 = d3, d3 = d1 + d2 )]. *)
Record forward := Forward { f_to_pay : share_type; f_to_cover : share_type; d2 : Z; d3 : Z; f_found : option share_type }.

Definition forward_round (s : forward) : result (forward * bool) :=
  let return_debt := Ok (Forward (f_to_pay s) (f_to_cover s) (d2 s) (d3 s) (Some (debt o)), false) in
  let check pay cover :=
    FC_ASSERT ((pay <? collateral o) && (cover <? debt o)) "to_pay.amount < collateral && to_cover.amount < debt";;
    good ← result_is_good pay cover;
    if (good : bool) then Ok (Forward pay cover (d2 s) (d3 s) (Some cover), false)
    else Ok (Forward pay cover (d3 s) (to_uint64 (d2 s + d3 s)) None, true) in
  if amount (quote match_price) <? amount (base match_price) then
    pay ← share_add (f_to_pay s) (to_int64 (d2 s));
    if collateral o <=? pay then return_debt
    else
      cover ← cover_for pay;
      if debt o <=? cover then return_debt
      else
        pay ← pay_for cover;
        if collateral o <=? pay then return_debt else check pay cover
  else
    cover ← share_add (f_to_cover s) (to_int64 (d2 s));
    if debt o <=? cover then return_debt
    else
      pay ← pay_for cover;
      if collateral o <=? pay then return_debt
      else
        cover ← cover_for pay;
        if debt o <=? cover then return_debt else check pay cover.

(** Every round of the binary search narrows the range; the steps forward exceed the collateral
    and the debt after less than 128 rounds (see CallOrderTheorems.v). *)
Definition search_from (s : search) : result share_type :=
  '(s, running) ← while_pow search_round 64 s;
  if (running : bool) then Err (assert_exception "out of fuel")
  else match found s with
       | Some c => Ok c
       | None =>
         '(s, running) ← while_pow forward_round 7 (Forward (to_pay s) (to_cover s) 1 1 None);
         if (running : bool) then Err (assert_exception "out of fuel") else Ok (default (debt o) (f_found s))
       end.

(** The part after the estimates [num] / [den]: [tcr_fp] is the term added for the fraction. *)
Definition refine_cover (num den tcr_fp : Z) : result share_type :=
  if debt o <=? Z.quot num den then Ok (debt o)
  else
    let to_cover_amt := to_int64 (Z.quot num den) in
    pay ← (a ← asset_mul_price (Asset to_cover_amt (debt_type o)) match_price; Ok (amount a));
    cover ← cover_for pay;
    pay ← pay_for cover;
    if (debt o <=? cover) || (collateral o <=? pay) then Ok (debt o)
    else
      FC_ASSERT ((pay <? collateral o) && (cover <? debt o)) "to_pay.amount < collateral && to_cover.amount < debt";;
      good ← result_is_good pay cover;
      if (good : bool) then Ok cover
      else
        let to_cover_amt := Z.min (Z.quot (num + tcr_fp) den + 1) (debt o) in
        max_pay ← (if to_cover_amt =? debt o then Ok (collateral o) else pay_for to_cover_amt);
        let max_pay := Z.min max_pay (collateral o) in
        max_cover ← (if max_pay =? collateral o then Ok (debt o) else cover_for max_pay);
        let '(max_pay, max_cover) := if debt o <=? max_cover then (collateral o, debt o) else (max_pay, max_cover) in
        if (max_pay <=? pay) || (max_cover <=? cover) then Ok (debt o)
        else search_from (Search pay cover max_pay max_cover false pay cover None).
End search.

Definition get_max_debt_to_cover (o : call_order_object) (match_price feed_price : price)
    (maintenance_collateral_ratio : Z) (maintenance_collateralization : option price) : result share_type :=
  let feed_price := oriented o feed_price in
  FC_ASSERT (same_market o feed_price) "feed_price is in the market of the order";;
  (if maintenance_collateralization is Some mc then
     FC_ASSERT (same_market o mc) "maintenance_collateralization is in the market of the order"
   else Ok ());;
  called ← (match maintenance_collateralization with
            | None => Ok (negb (price_ltb feed_price (co_call_price o)))
            | Some mc => c ← collateralization o; Ok (negb (price_ltb mc c))
            end);
  if negb (called : bool) then Ok 0
  else match target_collateral_ratio o with
  | None => Ok (debt o)
  | Some target =>
    let tcr := Z.max target maintenance_collateral_ratio in
    target_collateralization ←
      (if maintenance_collateralization is Some _
       then price_mul_ratio feed_price tcr GRAPHENE_COLLATERAL_RATIO_DENOM
       else Ok (Price (Asset 0 core_asset_id) (Asset 0 core_asset_id)));
    let match_price := oriented o match_price in
    FC_ASSERT (same_market o match_price) "match_price is in the market of the order";;
    let mp_debt_amt := amount (quote match_price) in
    let mp_coll_amt := amount (base match_price) in
    let fp_debt_amt := amount (quote feed_price) in
    let fp_coll_amt := amount (base feed_price) in
    let numerator := fp_coll_amt * mp_debt_amt * debt o * tcr
                     - fp_debt_amt * mp_debt_amt * collateral o * GRAPHENE_COLLATERAL_RATIO_DENOM in
    if numerator <? 0 then Ok 0
    else
      let denominator := fp_coll_amt * mp_debt_amt * tcr - fp_debt_amt * mp_coll_amt * GRAPHENE_COLLATERAL_RATIO_DENOM in
      if denominator <=? 0 then Ok (debt o)
      else
        let result_is_good pay cover :=
          c ← asset_sub (get_collateral o) (Asset pay (collateral_type o));
          d ← asset_sub (get_debt o) (Asset cover (debt_type o));
          if maintenance_collateralization is Some _ then
            new_collateralization ← make_price c d; Ok (price_ltb target_collateralization new_collateralization)
          else new_call_price ← call_price d c tcr; Ok (price_ltb feed_price new_call_price) in
        refine_cover o match_price result_is_good numerator denominator (fp_coll_amt * mp_debt_amt * tcr)
  end.
