(* ===== verification/CallOrderTheorems.v ===== *)
(** * Margin calls reach their target

    [get_max_debt_to_cover] always returns, and unless it returns the whole debt or the position is
    above its target already, paying for the debt it returns lifts the collateralization of what
    is left above the target. *)
From S2P Require Import Prelude MachineInt Hardfork Asset PriceRatio CallOrder.

(** ** Scaled prices are prices *)

Lemma make_rational_pos n d :
  0 < n → 0 < d → 0 < numerator (make_rational n d) ≤ n ∧ 0 < denominator (make_rational n d) ≤ d.
Proof.
  intros Hn Hd. unfold make_rational. simpl. destruct (gcd_parts n d Hn Hd) as (x & y & ? & ? & ? & ? & -> & ->).
  assert (0 < Z.gcd n d) by nia. nia.
Qed.

Definition small_rational (r : rational) : Prop :=
  0 < numerator r ≤ GRAPHENE_MAX_SHARE_SUPPLY ∧ 0 < denominator r ≤ GRAPHENE_MAX_SHARE_SUPPLY.

(** The 128 rounds of [shrink] are enough: every round halves numbers below 2^128. *)
Lemma shrink_small k r b :
  0 < numerator r < 2 ^ Z.of_nat k → 0 < denominator r < 2 ^ Z.of_nat k → small_rational (shrink k r b).1.1.
Proof.
  revert r b. induction k as [|k IH]; intros r b Hn Hd; [simpl in *; lia|].
  assert (0 < GRAPHENE_MAX_SHARE_SUPPLY) by done. rewrite Nat2Z.inj_succ, Z.pow_succ_r in Hn, Hd by lia.
  cbn [shrink]. split_ifs; propify; cbn [fst]; [unfold small_rational; cbn [numerator denominator]; lia..| |unfold small_rational; lia].
  rewrite !Z.shiftr_div_pow2 by lia. change (2 ^ 1) with 2.
  destruct (make_rational_pos (numerator r / 2) (denominator r / 2)) as [? ?];
    [apply Z.div_str_pos; lia..|].
  assert (numerator r / 2 < 2 ^ Z.of_nat k) by (apply Z.div_lt_upper_bound; lia).
  assert (denominator r / 2 < 2 ^ Z.of_nat k) by (apply Z.div_lt_upper_bound; lia).
  apply IH; lia.
Qed.

Lemma refine_shrunk_small ocp cp :
  0 < numerator ocp → 0 < denominator ocp → small_rational cp → returns (refine_shrunk ocp cp) small_rational.
Proof.
  intros Hn Hd Hcp. unfold refine_shrunk. rewrite !(proj2 (Z.ltb_lt 0 _)) by done. cbn -[GRAPHENE_MAX_SHARE_SUPPLY].
  assert (0 < GRAPHENE_MAX_SHARE_SUPPLY) by done. pose proof (Z.le_refl 1).
  destruct (if denominator ocp <? numerator ocp then _ else _) as [n d] eqn:E.
  assert (0 < n ≤ GRAPHENE_MAX_SHARE_SUPPLY ∧ 0 < d ≤ GRAPHENE_MAX_SHARE_SUPPLY) as [? ?].
  { destruct (Z.ltb_spec (denominator ocp) (numerator ocp)); injection E as <- <-.
    - assert (0 < numerator ocp / denominator ocp) by (apply Z.div_str_pos; lia). lia.
    - assert (0 < denominator ocp / numerator ocp) by (apply Z.div_str_pos; lia). lia. }
  assert (small_rational (make_rational n d)).
  { destruct (make_rational_pos n d); [lia..|]. unfold small_rational. lia. }
  by split_ifs.
Qed.

Lemma price_validate_wf p : price_wf p → price_validate false p = Ok ().
Proof.
  intros (? & ? & ? & ? & ?). unfold price_validate. rewrite !(proj2 (Z.ltb_lt 0 _)) by lia. simpl.
  by rewrite (proj2 (Z.eqb_neq _ _)).
Qed.

(** Scaling a valid price by a positive 16-bit ratio returns a valid price of the same market. *)
Lemma price_mul_ratio_returns p n d :
  price_wf p → 0 < n < 2 ^ 16 → 0 < d < 2 ^ 16 →
  returns (price_mul_ratio p n d)
    (λ np, price_wf np ∧ asset_id (base np) = asset_id (base p) ∧ asset_id (quote np) = asset_id (quote p)).
Proof.
  intros Hp Hn Hd. pose proof Hp as (HB & HQ & ? & ? & Hne). unfold is_share, INT64_MIN, INT64_MAX in HB, HQ.
  unfold price_mul_ratio. rewrite price_validate_wf, !(proj2 (Z.ltb_lt 0 _)) by (done || lia). cbn -[shrink rat_mul].
  destruct (n =? d); [done|].
  destruct (rat_mul_exact (amount (base p)) (amount (quote p)) n d) as (R1 & R2 & _); [lia..| | |].
  { unfold UINT128_MOD. nia. } { unfold UINT128_MOD. nia. }
  set (ocp := rat_mul _ _) in *. clearbody ocp.
  assert (small_rational (shrink 128 ocp false).1.1) as Hcp.
  { apply shrink_small; change (Z.of_nat 128) with 128; split; [lia|nia|lia|nia]. }
  destruct (shrink 128 ocp false) as [[cp sh] um]. simpl in Hcp.
  apply returns_bind. eapply (returns_mono _ small_rational).
  { destruct sh; [apply refine_shrunk_small; [lia..|done]|done]. }
  intros r [? ?]. unfold make_price. simpl. rewrite (proj2 (Z.eqb_neq _ _) Hne). simpl.
  rewrite !to_int64_small by (apply max_supply_is_share; lia).
  set (np := Price _ _).
  assert (price_wf np) by (split_and!; simpl; [apply max_supply_is_share; lia..|lia|lia|done]).
  destruct (_ && _); by rewrite price_validate_wf.
Qed.

(** ** The search *)

Section search.
Context (o : call_order_object) (mp : price) (good : share_type → share_type → result bool).
Notation C := (collateral o).
Notation D := (debt o).
Notation mc := (amount (base mp)).
Notation md := (amount (quote mp)).
Context (HC : 0 < C ≤ GRAPHENE_MAX_SHARE_SUPPLY) (HD : 0 < D ≤ GRAPHENE_MAX_SHARE_SUPPLY).
Context (Hmp : price_wf mp) (Hmarket : same_market o mp = true).
(** At the match price the collateral is worth more than the debt, and its worth is a supply. *)
Context (Hworth : D * mc < C * md) (Hsupply : C * md ≤ GRAPHENE_MAX_SHARE_SUPPLY * mc).
Context (Hgood : ∀ p c, 0 ≤ p < C → 0 ≤ c < D → returns (good p c) (λ _, True)).

#[local] Lemma mc_pos : 0 < mc. Proof. apply Hmp. Qed.
#[local] Lemma md_pos : 0 < md. Proof. apply Hmp. Qed.

Lemma share_is_wf v a : 0 ≤ v ≤ GRAPHENE_MAX_SHARE_SUPPLY → asset_wf (Asset v a).
Proof. split; simpl; [by apply max_supply_is_share|lia]. Qed.

Lemma mp_sides : asset_wf (base mp) ∧ asset_wf (quote mp).
Proof. destruct Hmp as (? & ? & ? & ? & ?). split; split; (done || lia). Qed.

Lemma cover_for_eq p :
  0 ≤ p ≤ C → cover_for o mp p = Ok (p * md / mc) ∧ 0 ≤ p * md / mc ∧ p * md / mc * mc ≤ p * md.
Proof.
  intros Hp. pose proof mc_pos. pose proof md_pos. destruct mp_sides as [Hb Hq].
  destruct (andb_prop _ _ Hmarket) as [Eb%Z.eqb_eq Eq%Z.eqb_eq].
  pose proof (div_down_spec (p * md) mc ltac:(lia)).
  assert (p * md / mc ≤ GRAPHENE_MAX_SHARE_SUPPLY) by (apply Z.div_le_upper_bound; nia).
  assert (0 ≤ p * md / mc) by (apply Z.div_pos; nia).
  split; [|lia]. unfold cover_for, asset_mul_price. cbn [asset_id]. rewrite (proj2 (Z.eqb_eq _ _)) by done.
  rewrite convert_down_spec by (done || apply Hb || (apply share_is_wf; lia)). cbn [amount].
  by rewrite (proj2 (Z.ltb_lt 0 _)), (proj2 (Z.leb_le _ _)) by done.
Qed.

Lemma debt_type_ne : debt_type o ≠ asset_id (base mp) ∧ asset_id (quote mp) = debt_type o.
Proof.
  destruct (andb_prop _ _ Hmarket) as [Eb%Z.eqb_eq Eq%Z.eqb_eq]. destruct Hmp as (? & ? & ? & ? & ?). split; congruence.
Qed.

Lemma pay_for_eq c :
  0 ≤ c ≤ D → pay_for o mp c = Ok (div_up (c * mc) md) ∧ 0 ≤ div_up (c * mc) md ≤ C ∧ c * mc ≤ div_up (c * mc) md * md.
Proof.
  intros Hc. pose proof mc_pos. pose proof md_pos. destruct mp_sides as [Hb Hq]. destruct debt_type_ne as [En Eq].
  pose proof (div_up_spec (c * mc) md ltac:(lia)).
  assert (div_up (c * mc) md ≤ C) by (apply div_up_le; nia).
  assert (0 ≤ div_up (c * mc) md) by (apply div_up_nonneg; nia).
  split; [|lia]. unfold pay_for, multiply_and_round_up. cbn [asset_id].
  rewrite (proj2 (Z.eqb_neq _ _) En), (proj2 (Z.eqb_eq _ _)) by done.
  rewrite convert_up_spec by (done || apply Hq || (apply share_is_wf; lia)). cbn [amount].
  by rewrite (proj2 (Z.ltb_lt 0 _)), (proj2 (Z.leb_le _ _)) by lia.
Qed.

(** Rounding the payment for what a payment covers up again does not increase it. *)
Lemma stabilized p : 0 ≤ p → div_up (p * md / mc * mc) md ≤ p.
Proof.
  intros. pose proof mc_pos. pose proof md_pos. apply div_up_le; [done|]. apply (div_down_spec (p * md) mc). lia.
Qed.

(** What the search may return: the whole debt, or an amount that was checked. *)
Definition acceptable (c : share_type) : Prop :=
  c = D ∨ (0 ≤ c < D ∧ ∃ p, 0 ≤ p < C ∧ c * mc ≤ p * md ∧ good p c = Ok true).

Record search_inv (s : search) : Prop := {
  si_pay : 0 ≤ min_to_pay s < max_to_pay s;
  si_cover : 0 ≤ min_to_cover s < max_to_cover s;
  si_max : (max_to_pay s = C ∧ max_to_cover s = D) ∨ (max_to_pay s < C ∧ max_to_cover s < D);
  si_worth : max_to_cover s * mc ≤ max_to_pay s * md;
  si_ok : max_is_ok s = true → max_to_pay s < C ∧ good (max_to_pay s) (max_to_cover s) = Ok true }.

(** The mean is the maximum, or strictly between the ends. *)
Definition is_mean (s : search) (m : share_type * share_type) : Prop :=
  m = (max_to_pay s, max_to_cover s) ∨
  (min_to_pay s < m.1 < max_to_pay s ∧ min_to_cover s < m.2 < max_to_cover s ∧ m.2 * mc ≤ m.1 * md).

Definition below_max (s : search) (m : share_type * share_type) : Prop :=
  m = (max_to_pay s, max_to_cover s) ∨
  (0 ≤ m.1 < max_to_pay s ∧ 0 ≤ m.2 < max_to_cover s ∧ m.2 * mc ≤ m.1 * md).

Lemma search_bounds s : search_inv s → max_to_pay s ≤ C ∧ max_to_cover s ≤ D.
Proof. intros []. lia. Qed.

Lemma half_sum a b : 0 ≤ a → 0 ≤ b → a + b ≤ 4 * GRAPHENE_MAX_SHARE_SUPPLY → share_div (a + b) 2 = Ok ((a + b) / 2).
Proof.
  intros. rewrite <- Z.quot_div_nonneg by lia. unfold Safe.div. simpl (2 =? 0). simpl (2 =? -1). rewrite andb_false_r.
  apply share_check_ok. rewrite Z.quot_div_nonneg by lia.
  assert (0 ≤ (a + b) / 2) by (apply Z.div_pos; lia). assert ((a + b) / 2 ≤ a + b) by (apply Z.div_le_upper_bound; lia).
  unfold is_share, INT64_MIN, INT64_MAX, GRAPHENE_MAX_SHARE_SUPPLY in *. lia.
Qed.

Lemma add_small a b :
  0 ≤ a ≤ 2 * GRAPHENE_MAX_SHARE_SUPPLY → 0 ≤ b ≤ 2 * GRAPHENE_MAX_SHARE_SUPPLY → share_add a b = Ok (a + b).
Proof.
  intros. unfold GRAPHENE_MAX_SHARE_SUPPLY in *. apply share_add_ok; unfold is_share, INT64_MIN, INT64_MAX; lia.
Qed.

Lemma mean_by_pay_returns s : search_inv s → returns (mean_by_pay o mp s) (below_max s).
Proof.
  intros Hs. destruct (search_bounds s Hs) as [? ?]. destruct Hs as [Hp Hc _ _ _].
  assert (2 ≤ GRAPHENE_MAX_SHARE_SUPPLY) by done. unfold mean_by_pay.
  rewrite add_small by lia. simpl. rewrite add_small by lia. simpl. rewrite half_sum by lia. simpl.
  set (p := _ / 2). assert (min_to_pay s + 1 ≤ p ≤ max_to_pay s) as Hm.
  { split; [apply Z.div_le_lower_bound|apply Z.div_le_upper_bound]; lia. }
  clearbody p. destruct (Z.eqb_spec p (max_to_pay s)) as [->|Hne]; [by left|].
  destruct (cover_for_eq p ltac:(lia)) as (-> & Hc0 & Hcp). simpl.
  destruct (Z.leb_spec (max_to_cover s) (p * md / mc)); [by left|].
  destruct (pay_for_eq (p * md / mc) ltac:(lia)) as (-> & Hp0 & Hpc). simpl.
  pose proof (stabilized p ltac:(lia)). rewrite (proj2 (Z.ltb_lt _ _)) by lia. right. simpl. lia.
Qed.

Lemma mean_by_cover_returns s : search_inv s → returns (mean_by_cover o mp s) (below_max s).
Proof.
  intros Hs. destruct (search_bounds s Hs) as [? ?]. destruct Hs as [Hp Hc _ _ _]. unfold mean_by_cover.
  rewrite add_small by lia. simpl. rewrite half_sum by lia. simpl.
  set (c := _ / 2). assert (min_to_cover s ≤ c ≤ max_to_cover s) as Hm.
  { split; [apply Z.div_le_lower_bound|apply Z.div_le_upper_bound]; lia. }
  clearbody c. destruct (Z.eqb_spec c (max_to_cover s)) as [->|Hne]; [by left|].
  destruct (pay_for_eq c ltac:(lia)) as (-> & Hp0 & Hpc). simpl. set (p := div_up _ _) in *. clearbody p.
  destruct (Z.leb_spec (max_to_pay s) p); [by left|].
  destruct (cover_for_eq p ltac:(lia)) as (-> & Hc0 & Hcp). simpl.
  destruct (Z.leb_spec (max_to_cover s) (p * md / mc)); [by left|]. right. simpl. lia.
Qed.

Lemma mean_returns s : search_inv s → returns (mean o mp s) (is_mean s).
Proof.
  intros Hs. unfold mean. apply returns_bind. eapply (returns_mono _ (below_max s)).
  { destruct (_ <? _); [by apply mean_by_pay_returns|by apply mean_by_cover_returns]. }
  intros [p c] Hm. destruct (_ || _) eqn:E; [by left|]. propify.
  destruct Hm as [[= -> ->]|?]; [by left|]. right. simpl in *. lia.
Qed.

Lemma good_returns p c : 0 ≤ p < C → 0 ≤ c < D → returns (good p c) (λ b, good p c = Ok b).
Proof. intros Hp Hc. specialize (Hgood p c Hp Hc). by destruct (good p c). Qed.

(** The end of the search: a value was found, or it goes on forward from [to_pay], [to_cover]. *)
Definition searched (s : search) : Prop :=
  match found s with
  | Some c => acceptable c
  | None => 0 ≤ to_pay s < C ∧ 0 ≤ to_cover s < D
  end.

Definition search_width (s : search) : Z := max_to_pay s - min_to_pay s.

Lemma search_round_returns s : search_inv s → 0 ≤ search_width s ∧
  returns (search_round o mp good s)
    (λ '(s', c), if (c : bool) then search_inv s' ∧ search_width s' < search_width s else searched s').
Proof.
  intros Hs. pose proof (search_bounds s Hs). pose proof Hs as [Hp Hc Hmax Hw Hok].
  unfold search_width, search_round. split; [lia|]. apply returns_bind.
  eapply returns_mono; [by apply mean_returns|]. intros [p c] Hm.
  destruct Hm as [[= -> ->]|(Hp' & Hc' & Hw')]; cbn [fst snd] in *.
  - rewrite Z.eqb_refl. cbn [andb]. destruct (max_is_ok s || _) eqn:E; [|].
    { simpl. destruct (max_is_ok s); [|simpl in E; propify].
      - destruct (Hok eq_refl) as [? ?]. right. split; [lia|]. exists (max_to_pay s). split_and!; (done || lia).
      - left. lia. }
    propify. apply returns_bind, returns_assert; [by rewrite !(proj2 (Z.ltb_lt _ _)) by lia|].
    apply returns_bind. eapply returns_mono; [apply good_returns; lia|].
    intros [] G; unfold searched; simpl; [|lia]. right. split; [lia|]. exists (max_to_pay s). split_and!; (done || lia).
  - rewrite (proj2 (Z.eqb_neq p _)) by lia. cbn [andb]. apply returns_bind, returns_assert; [by rewrite !(proj2 (Z.ltb_lt _ _)) by lia|].
    apply returns_bind. eapply returns_mono; [apply good_returns; lia|].
    intros [] G; simpl; (split; [split; simpl; first [done | lia | split; (done || lia) | auto]|unfold search_width; simpl; lia]).
Qed.

Lemma search_loop_returns s : search_inv s →
  returns (while_pow (search_round o mp good) 64 s) (λ '(s', c), c = false ∧ searched s').
Proof.
  intros Hs. eapply while_pow_returns; [apply search_round_returns|done|].
  destruct (search_bounds s Hs), Hs. unfold search_width. change (Z.of_nat 64) with 64.
  unfold GRAPHENE_MAX_SHARE_SUPPLY in *. lia.
Qed.

(** *** The steps forward *)

Record forward_inv (s : forward) : Prop := {
  fi_pay : 0 ≤ f_to_pay s < C;
  fi_cover : 0 ≤ f_to_cover s < D;
  fi_step : 1 ≤ d2 s ≤ 2 * GRAPHENE_MAX_SHARE_SUPPLY;
  fi_next : d2 s ≤ d3 s ≤ 2 * d2 s }.

(** The steps are Fibonacci numbers: the product of two neighbours doubles in every round. *)
Definition forward_left (s : forward) : Z := 127 - Z.log2 (d2 s * d3 s).

Lemma forward_left_step a b x y fd : 1 ≤ x → x ≤ y →
  127 - Z.log2 (y * (x + y)) < forward_left (Forward a b x y fd).
Proof.
  intros. unfold forward_left. simpl. assert (Z.log2 (2 * (x * y)) ≤ Z.log2 (y * (x + y))) by (apply Z.log2_le_mono; nia).
  rewrite Z.log2_double in * by nia. lia.
Qed.

Definition forwarded (s : forward) : Prop := ∃ c, f_found s = Some c ∧ acceptable c.

Lemma forward_check_returns pay cover a b x y fd :
  0 ≤ pay < C → 0 ≤ cover < D → cover * mc ≤ pay * md → 1 ≤ x ≤ GRAPHENE_MAX_SHARE_SUPPLY → x ≤ y ≤ 2 * x →
  returns (FC_ASSERT ((pay <? C) && (cover <? D)) "to_pay.amount < collateral && to_cover.amount < debt";;
           g ← good pay cover;
           if (g : bool) then Ok (Forward pay cover x y (Some cover), false)
           else Ok (Forward pay cover y (to_uint64 (x + y)) None, true))
    (λ '(s', c), if (c : bool) then forward_inv s' ∧ forward_left s' < forward_left (Forward a b x y fd) else forwarded s').
Proof.
  intros Hp Hc Hw Hx Hy. apply returns_bind, returns_assert; [by rewrite !(proj2 (Z.ltb_lt _ _)) by lia|].
  apply returns_bind. eapply returns_mono; [by apply good_returns|]. intros [] G; simpl.
  - exists cover. split; [done|]. right. eauto.
  - rewrite to_uint64_small by (unfold GRAPHENE_MAX_SHARE_SUPPLY in *; lia).
    split; [split; simpl; lia|]. unfold forward_left at 1. simpl. apply forward_left_step; lia.
Qed.

Lemma forward_round_returns s : forward_inv s → 0 ≤ forward_left s ∧
  returns (forward_round o mp good s)
    (λ '(s', c), if (c : bool) then forward_inv s' ∧ forward_left s' < forward_left s else forwarded s').
Proof.
  intros [Hp Hc Hx Hy]. destruct s as [p c x y fd]. simpl in *. split.
  { assert (Z.log2 (x * y) ≤ Z.log2 (2 ^ 127)); [|rewrite Z.log2_pow2 in * by lia; unfold forward_left; simpl; lia].
    apply Z.log2_le_mono. unfold GRAPHENE_MAX_SHARE_SUPPLY in *. nia. }
  assert (∀ a b, returns (Ok (Forward a b x y (Some D), false))
    (λ '(s', c'), if (c' : bool) then forward_inv s' ∧ forward_left s' < forward_left (Forward p c x y fd) else forwarded s')) as Hdebt.
  { intros a b. exists D. split; [done|by left]. }
  assert (to_int64 x = x) as Ex by (apply to_int64_small; unfold is_share, INT64_MIN, INT64_MAX, GRAPHENE_MAX_SHARE_SUPPLY in *; lia).
  unfold forward_round. cbn [f_to_pay f_to_cover d2 d3]. rewrite Ex. destruct (md <? mc); rewrite add_small by lia; cbn [mbind result_bind].
  - destruct (Z.leb_spec C (p + x)); [done|]. destruct (cover_for_eq (p + x) ltac:(lia)) as (-> & Hc0 & Hcp). cbn [mbind result_bind].
    destruct (Z.leb_spec D ((p + x) * md / mc)); [done|].
    destruct (pay_for_eq ((p + x) * md / mc) ltac:(lia)) as (-> & Hp0 & Hpc). cbn [mbind result_bind].
    destruct (Z.leb_spec C (div_up ((p + x) * md / mc * mc) md)); [done|]. apply forward_check_returns; lia.
  - destruct (Z.leb_spec D (c + x)); [done|]. destruct (pay_for_eq (c + x) ltac:(lia)) as (-> & Hp0 & Hpc). cbn [mbind result_bind].
    destruct (Z.leb_spec C (div_up ((c + x) * mc) md)); [done|]. set (p' := div_up _ _) in *. clearbody p'.
    destruct (cover_for_eq p' ltac:(lia)) as (-> & Hc0 & Hcp). cbn [mbind result_bind].
    destruct (Z.leb_spec D (p' * md / mc)); [done|]. apply forward_check_returns; lia.
Qed.

Lemma search_from_returns s : search_inv s → returns (search_from o mp good s) acceptable.
Proof.
  intros Hs. unfold search_from. apply returns_bind. eapply returns_mono; [by apply search_loop_returns|].
  intros [s' c] [-> Hd]. unfold searched in Hd. destruct (found s') as [c|]; [done|]. apply returns_bind.
  eapply returns_mono.
  { apply (while_pow_returns _ forward_inv forwarded forward_left); [apply forward_round_returns| |done].
    split; simpl; unfold GRAPHENE_MAX_SHARE_SUPPLY in *; lia. }
  intros [f c] [-> (v & Hv & Ha)]. simpl. by rewrite Hv.
Qed.

Lemma pay_down_eq c : 0 ≤ c < D →
  asset_mul_price (Asset c (debt_type o)) mp = Ok (Asset (c * mc / md) (asset_id (base mp))) ∧ 0 ≤ c * mc / md ≤ C ∧
  c * mc / md * md ≤ c * mc.
Proof.
  intros Hc. pose proof mc_pos. pose proof md_pos. destruct mp_sides as [Hb Hq]. destruct debt_type_ne as [En Eq].
  pose proof (div_down_spec (c * mc) md ltac:(lia)).
  assert (c * mc / md ≤ C) by (apply Z.div_le_upper_bound; nia).
  assert (0 ≤ c * mc / md) by (apply Z.div_pos; nia).
  split; [|lia]. unfold asset_mul_price. cbn [asset_id].
  rewrite (proj2 (Z.eqb_neq _ _) En), (proj2 (Z.eqb_eq _ _)) by done.
  rewrite convert_down_spec by (done || apply Hq || (apply share_is_wf; lia)). cbn [amount].
  by rewrite (proj2 (Z.ltb_lt 0 _)), (proj2 (Z.leb_le _ _)) by lia.
Qed.

(** The upper end of the search. *)
Definition upper_end (t : Z) : result (share_type * share_type) :=
  max_pay ← (if t =? D then Ok C else pay_for o mp t);
  let max_pay := Z.min max_pay C in
  max_cover ← (if max_pay =? C then Ok D else cover_for o mp max_pay);
  Ok (if D <=? max_cover then (C, D) else (max_pay, max_cover)).

Lemma upper_end_returns t : 0 ≤ t ≤ D → returns (upper_end t) (λ '(p, c),
  ((p = C ∧ c = D) ∨ (p < C ∧ c < D)) ∧ c * mc ≤ p * md).
Proof.
  intros Ht. unfold upper_end. apply returns_bind. apply (returns_mono _ (λ p, 0 ≤ p ≤ C)).
  { destruct (t =? D); [simpl; lia|]. destruct (pay_for_eq t ltac:(lia)) as (-> & ? & ?). simpl. lia. }
  intros p Hp. rewrite Z.min_l by lia. destruct (Z.eqb_spec p C) as [->|Hne].
  { simpl. rewrite Z.leb_refl. simpl. lia. }
  destruct (cover_for_eq p ltac:(lia)) as (-> & ? & ?). simpl. destruct (Z.leb_spec D (p * md / mc)); lia.
Qed.

Lemma refine_rest_returns num den f :
  0 ≤ num → 0 < den → 0 ≤ f → num ÷ den < D → returns (refine_cover o mp good num den f) acceptable.
Proof.
  intros Hn Hd Hf Hlt. unfold refine_cover. rewrite (proj2 (Z.leb_gt _ _)) by lia.
  assert (0 ≤ num ÷ den) by (rewrite Z.quot_div_nonneg by lia; apply Z.div_pos; lia).
  rewrite to_int64_small by (apply max_supply_is_share; lia).
  destruct (pay_down_eq (num ÷ den) ltac:(lia)) as (-> & Hp0 & Hpc). cbn [mbind result_bind amount].
  set (p := _ / _) in *. clearbody p. destruct (cover_for_eq p ltac:(lia)) as (-> & Hc0 & Hcp). cbn [mbind result_bind].
  assert (p * md / mc ≤ num ÷ den) by (apply Z.div_le_upper_bound; [apply mc_pos|lia]).
  set (c := p * md / mc) in *. clearbody c.
  destruct (pay_for_eq c ltac:(lia)) as (-> & Hp1 & Hpc1). cbn [mbind result_bind]. set (q := div_up _ _) in *. clearbody q.
  destruct ((D <=? c) || (C <=? q)) eqn:E; [by left|]. propify.
  apply returns_bind, returns_assert; [by rewrite !(proj2 (Z.ltb_lt _ _)) by lia|].
  apply returns_bind. eapply returns_mono; [apply good_returns; lia|]. intros [] G.
  { right. split; [lia|]. exists q. split_and!; (done || lia). }
  assert (0 ≤ (num + f) ÷ den) by (rewrite Z.quot_div_nonneg by lia; apply Z.div_pos; lia).
  pose proof (upper_end_returns (Z.min ((num + f) ÷ den + 1) D) ltac:(lia)) as Hup. unfold upper_end in Hup.
  cbv zeta in *. destruct (if _ =? D then _ else pay_for _ _ _) as [mp'|]; [|done]. cbn [mbind result_bind] in *.
  destruct (if _ =? C then _ else cover_for _ _ _) as [mc'|]; [|done]. cbn [mbind result_bind returns] in *.
  destruct (if D <=? mc' then _ else _) as [mxp mxc]. destruct Hup as [? ?].
  destruct ((mxp <=? q) || (mxc <=? c)) eqn:E'; [by left|]. propify. apply search_from_returns. split; simpl; (done || lia).
Qed.

(** What is acceptable, at the least payment for it. *)
Lemma acceptable_paid c : (∀ p p' c, 0 ≤ p' ≤ p → p < C → 0 ≤ c < D → good p c = Ok true → good p' c = Ok true) →
  acceptable c → c = D ∨ (0 ≤ c < D ∧ div_up (c * mc) md < C ∧ good (div_up (c * mc) md) c = Ok true).
Proof.
  intros Hmono [->|(Hc & p & Hp & Hpc & G)]; [by left|right]. pose proof mc_pos. pose proof md_pos.
  assert (div_up (c * mc) md ≤ p) by (apply div_up_le; lia). assert (0 ≤ div_up (c * mc) md) by (apply div_up_nonneg; nia).
  split_and!; [lia..|]. eapply Hmono; [|apply Hp|done|done]. lia.
Qed.
End search.

(** ** The whole routine *)

(** A debt position: amounts up to the maximum share supply, of two assets; the ratio has 16 bits. *)
Definition call_order_wf (o : call_order_object) : Prop :=
  0 < collateral o ≤ GRAPHENE_MAX_SHARE_SUPPLY ∧ 0 < debt o ≤ GRAPHENE_MAX_SHARE_SUPPLY ∧
  collateral_type o ≠ debt_type o ∧ ∀ t, target_collateral_ratio o = Some t → 0 ≤ t < 2 ^ 16.

Definition market_price (o : call_order_object) (p : price) : Prop := price_wf p ∧ same_market o (oriented o p) = true.

Lemma oriented_wf o p : price_wf p → price_wf (oriented o p).
Proof. intros (? & ? & ? & ? & ?). unfold oriented. destruct (negb _); [|done]. split_and!; (done || by apply not_eq_sym). Qed.

(** The position left when [c] of the debt is covered for [p] of the collateral. *)
Definition position_left (o : call_order_object) (p c : share_type) : price :=
  Price (Asset (collateral o - p) (collateral_type o)) (Asset (debt o - c) (debt_type o)).

Lemma position_left_wf o p c : call_order_wf o → 0 ≤ p < collateral o → 0 ≤ c < debt o → price_wf (position_left o p c).
Proof. intros (? & ? & ? & _) ? ?. split_and!; simpl; [apply max_supply_is_share; lia..|lia|lia|done]. Qed.

Lemma sub_in_position v w t :
  0 ≤ v ≤ GRAPHENE_MAX_SHARE_SUPPLY → 0 ≤ w ≤ v → asset_sub (Asset v t) (Asset w t) = Ok (Asset (v - w) t).
Proof.
  intros. unfold asset_sub. cbn [asset_id amount]. rewrite Z.eqb_refl. simpl.
  rewrite share_sub_ok; [done|apply max_supply_is_share; lia..].
Qed.

(** [result_is_good] after hard fork core-1270 compares the position left with the target. *)
Lemma result_is_good_eq o target p c :
  call_order_wf o → 0 ≤ p < collateral o → 0 ≤ c < debt o →
  (x ← asset_sub (get_collateral o) (Asset p (collateral_type o));
   y ← asset_sub (get_debt o) (Asset c (debt_type o));
   new_collateralization ← make_price x y; Ok (price_ltb target new_collateralization))
  = Ok (price_ltb target (position_left o p c)).
Proof.
  intros (? & ? & Hne & _) Hp Hc. unfold get_collateral, get_debt.
  rewrite sub_in_position by lia. simpl. rewrite sub_in_position by lia. simpl.
  unfold make_price. simpl. by rewrite (proj2 (Z.eqb_neq _ _) Hne).
Qed.

Lemma less_pay_is_better o target p p' c :
  call_order_wf o → price_wf target → asset_id (base target) = collateral_type o → asset_id (quote target) = debt_type o →
  0 ≤ p' ≤ p → p < collateral o → 0 ≤ c < debt o →
  price_ltb target (position_left o p c) = true → price_ltb target (position_left o p' c) = true.
Proof.
  intros Ho Ht Eb Eq Hp' Hp Hc. pose proof Ht as (? & ? & ? & ? & ?).
  rewrite !price_ltb_cross by (done || (apply position_left_wf; (done || lia))). simpl. rewrite !Z.ltb_lt. nia.
Qed.

(** An estimate below the debt means that the collateral is worth more than the debt. *)
Lemma estimate_below_debt fc fd mc md C D tcr :
  0 < fd → 0 ≤ fc * md * D * tcr - fd * md * C * GRAPHENE_COLLATERAL_RATIO_DENOM →
  0 < fc * md * tcr - fd * mc * GRAPHENE_COLLATERAL_RATIO_DENOM →
  (fc * md * D * tcr - fd * md * C * GRAPHENE_COLLATERAL_RATIO_DENOM)
    ÷ (fc * md * tcr - fd * mc * GRAPHENE_COLLATERAL_RATIO_DENOM) < D →
  D * mc < C * md.
Proof.
  unfold GRAPHENE_COLLATERAL_RATIO_DENOM. intros Hfd Hn Hd Hq. apply Safe.quot_pos_lt in Hq; [|done..].
  assert (fd * (D * mc) < fd * (C * md)) as H by lia. by apply Z.mul_lt_mono_pos_l in H.
Qed.

(** What the search is asked to reach, with the code's [result_is_good]. *)
Definition reaches_target (o : call_order_object) (mp target : price) (c : share_type) : Prop :=
  let p := div_up (c * amount (base mp)) (amount (quote mp)) in
  p < collateral o ∧ price_ltb target (position_left o p c) = true.

Lemma refine_cover_reaches o mp target (good : share_type → share_type → result bool) num den f :
  call_order_wf o → price_wf mp → same_market o mp = true →
  price_wf target → asset_id (base target) = collateral_type o → asset_id (quote target) = debt_type o →
  collateral o * amount (quote mp) ≤ GRAPHENE_MAX_SHARE_SUPPLY * amount (base mp) →
  (∀ p c, 0 ≤ p < collateral o → 0 ≤ c < debt o → good p c = Ok (price_ltb target (position_left o p c))) →
  0 ≤ num → 0 < den → 0 ≤ f → (num ÷ den < debt o → debt o * amount (base mp) < collateral o * amount (quote mp)) →
  returns (refine_cover o mp good num den f) (λ c, c = debt o ∨ (0 ≤ c < debt o ∧ reaches_target o mp target c)).
Proof.
  intros Ho Hmp Hmm Htw Etb Etq Hsupply Hgood Hn Hd Hf Hworth. pose proof Ho as (HC & HD & Hne & _).
  destruct (Z.lt_ge_cases (num ÷ den) (debt o)) as [Hlt|Hge].
  2: { unfold refine_cover. rewrite (proj2 (Z.leb_le _ _)) by done. by left. }
  eapply returns_mono.
  { apply refine_rest_returns; try done; [by apply Hworth|]. intros. by rewrite Hgood. }
  intros c Hc. apply acceptable_paid in Hc; [|done|done|].
  - destruct Hc as [->|(Hc & Hp & G)]; [by left|right]. split; [done|]. split; [done|].
    destruct Hmp as (_ & _ & ? & ? & _).
    rewrite Hgood in G; [by injection G|split; [apply div_up_nonneg; nia|done]|done].
  - intros p p' c' Hp' Hp Hc'. rewrite !Hgood by lia. intros [= E]. f_equal. by eapply less_pay_is_better.
Qed.

(** C29: margin calls stop at the target ratio. After hard fork core-1270, for a well-formed debt
    position, well-formed match, feed and maintenance prices of its market and a nonzero 16-bit
    maintenance ratio, and provided the match price values the position's collateral at no more than
    the maximum supply (otherwise a multiplication may throw), [get_max_debt_to_cover] returns an
    amount between zero and the debt (its loops end, and nothing in it throws): zero if the position
    is above the maintenance collateralization, the whole debt if it has no target ratio; else the
    whole debt, zero with the position above the target, or an amount which, paid for with the least
    collateral at the match price, leaves a collateralization above the target. *)
Theorem margin_call_reaches_target o match_price feed_price mcr mc :
  call_order_wf o → market_price o match_price → market_price o feed_price →
  price_wf mc → same_market o mc = true → 0 < mcr < 2 ^ 16 →
  (let mp := oriented o match_price in
   collateral o * amount (quote mp) ≤ GRAPHENE_MAX_SHARE_SUPPLY * amount (base mp)) →
  ∃ c, get_max_debt_to_cover o match_price feed_price mcr (Some mc) = Ok c ∧ 0 ≤ c ≤ debt o ∧
  if price_ltb mc (position_left o 0 0) then c = 0
  else match target_collateral_ratio o with
  | None => c = debt o
  | Some t =>
    let mp := oriented o match_price in
    let fp := oriented o feed_price in
    let tcr := Z.max t mcr in
    c = debt o ∨
    (c = 0 ∧ amount (base fp) * debt o * tcr < amount (quote fp) * collateral o * GRAPHENE_COLLATERAL_RATIO_DENOM) ∨
    ∃ target, price_mul_ratio fp tcr GRAPHENE_COLLATERAL_RATIO_DENOM = Ok target ∧ reaches_target o mp target c
  end.
Proof.
  intros Ho [Hmp Hmm] [Hfp Hfm] Hmc Hmcm Hmcr Hsupply. pose proof Ho as (HC & HD & Hne & Ht).
  apply (oriented_wf o) in Hmp, Hfp. cbv zeta in *. unfold get_max_debt_to_cover.
  rewrite Hfm, Hmcm. cbn [FC_ASSERT mbind result_bind]. unfold collateralization, make_price. cbn [asset_id get_collateral get_debt].
  rewrite (proj2 (Z.eqb_neq _ _) Hne). cbn [negb FC_ASSERT mbind result_bind].
  assert (Price (get_collateral o) (get_debt o) = position_left o 0 0) as ->
    by (unfold position_left, get_collateral, get_debt; by rewrite !Z.sub_0_r).
  destruct (price_ltb mc (position_left o 0 0)); cbn [negb]; [exists 0; split_and!; (done || lia)|].
  destruct (target_collateral_ratio o) as [t|]; [|exists (debt o); split_and!; (done || lia)].
  specialize (Ht t eq_refl). set (tcr := Z.max t mcr).
  pose proof (price_mul_ratio_returns (oriented o feed_price) tcr GRAPHENE_COLLATERAL_RATIO_DENOM Hfp ltac:(lia) ltac:(done)) as Htr.
  apply returns_Ok in Htr as (target & -> & Htw & Etb & Etq). cbn [mbind result_bind]. rewrite Hmm. cbn [FC_ASSERT mbind result_bind].
  pose proof Hmp as (_ & _ & ? & ? & _). pose proof Hfp as (_ & _ & ? & ? & _).
  destruct (andb_prop _ _ Hfm) as [Eb%Z.eqb_eq Eq%Z.eqb_eq].
  destruct (Z.ltb_spec (amount (base (oriented o feed_price)) * amount (quote (oriented o match_price)) * debt o * tcr
    - amount (quote (oriented o feed_price)) * amount (quote (oriented o match_price)) * collateral o * GRAPHENE_COLLATERAL_RATIO_DENOM) 0).
  { exists 0. split; [done|]. split; [lia|]. right. left. split; [done|].
    unfold GRAPHENE_COLLATERAL_RATIO_DENOM in *. nia. }
  destruct (Z.leb_spec (amount (base (oriented o feed_price)) * amount (quote (oriented o match_price)) * tcr
    - amount (quote (oriented o feed_price)) * amount (base (oriented o match_price)) * GRAPHENE_COLLATERAL_RATIO_DENOM) 0).
  { exists (debt o). split; [done|]. split; [lia|by left]. }
  match goal with |- context [refine_cover o ?mp ?g ?n ?d ?f] =>
    pose proof (refine_cover_reaches o mp target g n d f) as Hrefine end.
  apply returns_Ok in Hrefine as (c & -> & Hr); try done; [|congruence|congruence|..].
  - exists c. split; [done|]. split; [lia|]. destruct Hr as [->|[? ?]]; [by left|]. right. right. eauto.
  - intros p c ? ?. by apply result_is_good_eq.
  - nia.
  - by apply estimate_below_debt.
Qed.

(** A position of 2000 against 1000 at a feed price of 1:1 and a maintenance ratio of 2.1, with target ratio 2.5. *)
Definition sample_call : call_order_object :=
  CallOrderObject 7 2000 1000 (Price (Asset 1050 0) (Asset 1000 1)) (Some 2500).

Lemma margin_call_reaches_target_witness :
  ∃ c, get_max_debt_to_cover sample_call (Price (Asset 100 1) (Asset 110 0)) (Price (Asset 1 1) (Asset 1 0)) 2100
         (Some (Price (Asset 21 0) (Asset 10 1))) = Ok c ∧
  0 < c < 1000 ∧ reaches_target sample_call (Price (Asset 110 0) (Asset 100 1)) (Price (Asset 5 0) (Asset 2 1)) c.
Proof.
  pose proof (margin_call_reaches_target sample_call (Price (Asset 100 1) (Asset 110 0)) (Price (Asset 1 1) (Asset 1 0)) 2100
    (Price (Asset 21 0) (Asset 10 1))) as (c & Hc & Hb & H).
  - split_and!; try done. intros t [= <-]. done.
  - done.
  - done.
  - done.
  - done.
  - done.
  - done.
  - vm_compute in Hc. injection Hc as <-. exists 358. split; [reflexivity|]. split; [lia|].
    destruct H as [H|[[H _]|(t & Ht & Hr)]]; [discriminate H..|]. vm_compute in Ht. by injection Ht as <-.
Defined.
