(* ===== verification/PriceFeed.v ===== *)
(** * Price feeds of market-issued assets

    [price_feed] of libraries/protocol/asset.cpp, and [asset_bitasset_data_object] of
    libraries/chain/asset_object.cpp with the functions of libraries/chain/db_update.cpp that
    derive the current feed: feeds are published per account, their median is taken field by
    field, and the settlement price in force may be capped to protect debt positions. *)
From S2P Require Import Prelude MachineInt Hardfork Asset PriceRatio CallOrder.

Definition GRAPHENE_MIN_COLLATERAL_RATIO : Z := 1001.
Definition GRAPHENE_MAX_COLLATERAL_RATIO : Z := 32000.
Definition GRAPHENE_DEFAULT_MAINTENANCE_COLLATERAL_RATIO : Z := 1750.
Definition GRAPHENE_DEFAULT_MAX_SHORT_SQUEEZE_RATIO : Z := 1500.

(** [price()]. *)
Definition null_price : price := Price (Asset 0 core_asset_id) (Asset 0 core_asset_id).

(** ** price_feed *)

Record price_feed := PriceFeed {
  pf_settlement_price : price;
  pf_core_exchange_rate : price;
  pf_maintenance_collateral_ratio : Z;
  pf_maximum_short_squeeze_ratio : Z }.

Definition default_price_feed : price_feed :=
  PriceFeed null_price null_price GRAPHENE_DEFAULT_MAINTENANCE_COLLATERAL_RATIO GRAPHENE_DEFAULT_MAX_SHORT_SQUEEZE_RATIO.

Definition ratio_in_limits (r : Z) : bool := (GRAPHENE_MIN_COLLATERAL_RATIO <=? r) && (r <=? GRAPHENE_MAX_COLLATERAL_RATIO).

Definition price_feed_validate (f : price_feed) : result unit :=
  (if negb (price_is_null (pf_settlement_price f)) then price_validate false (pf_settlement_price f) else Ok ());;
  FC_ASSERT (GRAPHENE_MIN_COLLATERAL_RATIO <=? pf_maximum_short_squeeze_ratio f)
    "maximum_short_squeeze_ratio >= GRAPHENE_MIN_COLLATERAL_RATIO";;
  FC_ASSERT (pf_maximum_short_squeeze_ratio f <=? GRAPHENE_MAX_COLLATERAL_RATIO)
    "maximum_short_squeeze_ratio <= GRAPHENE_MAX_COLLATERAL_RATIO";;
  FC_ASSERT (GRAPHENE_MIN_COLLATERAL_RATIO <=? pf_maintenance_collateral_ratio f)
    "maintenance_collateral_ratio >= GRAPHENE_MIN_COLLATERAL_RATIO";;
  FC_ASSERT (pf_maintenance_collateral_ratio f <=? GRAPHENE_MAX_COLLATERAL_RATIO)
    "maintenance_collateral_ratio <= GRAPHENE_MAX_COLLATERAL_RATIO".

Definition is_for (f : price_feed) (a : asset_id_type) : bool :=
  if negb (price_is_null (pf_settlement_price f)) then asset_id (base (pf_settlement_price f)) =? a
  else if negb (price_is_null (pf_core_exchange_rate f)) then asset_id (base (pf_core_exchange_rate f)) =? a
  else true.

(** The loop of [max_short_squeeze_price_before_hf_1270]. *)
Fixpoint halve_odd_up (fuel : nat) (cp : rational) : rational :=
  let max := GRAPHENE_MAX_SHARE_SUPPLY in
  if (max <? numerator cp) || (max <? denominator cp) then
    match fuel with
    | O => cp
    | S fuel =>
      halve_odd_up fuel (make_rational (Z.shiftr (numerator cp) 1 + Z.land (numerator cp) 1)
                           (Z.shiftr (denominator cp) 1 + Z.land (denominator cp) 1))
    end
  else cp.

Definition max_short_squeeze_price_before_hf_1270 (f : price_feed) : result price :=
  let p := pf_settlement_price f in
  sp ← checked_rational (u128 (amount (base p))) (u128 (amount (quote p)));
  ratio ← checked_rational GRAPHENE_COLLATERAL_RATIO_DENOM (pf_maximum_short_squeeze_ratio f);
  let cp := halve_odd_up 128 (rat_mul sp ratio) in
  make_price (Asset (to_int64 (numerator cp)) (asset_id (base p)))
    (Asset (to_int64 (denominator cp)) (asset_id (quote p))).

(** [price operator / ( const price& p, const ratio_type& r )]. *)
Definition price_div_ratio (p : price) (r_num r_den : Z) : result price := price_mul_ratio p r_den r_num.

Definition max_short_squeeze_price (f : price_feed) : result price :=
  price_mul_ratio (pf_settlement_price f) GRAPHENE_COLLATERAL_RATIO_DENOM (pf_maximum_short_squeeze_ratio f).

Definition get_margin_call_price_numerator (f : price_feed) (maybe_mcfr : option Z) : Z :=
  let mcfr := default 0 maybe_mcfr in
  let mssr := pf_maximum_short_squeeze_ratio f in
  let numerator := if mcfr <? mssr then mssr - mcfr else GRAPHENE_COLLATERAL_RATIO_DENOM in
  if numerator <? GRAPHENE_COLLATERAL_RATIO_DENOM then GRAPHENE_COLLATERAL_RATIO_DENOM else numerator.

(** A [ratio_type] is the pair of its numerator and denominator. *)
Definition margin_call_order_ratio (f : price_feed) (maybe_mcfr : option Z) : Z * Z :=
  (get_margin_call_price_numerator f maybe_mcfr, GRAPHENE_COLLATERAL_RATIO_DENOM).

Definition margin_call_order_price (f : price_feed) (maybe_mcfr : option Z) : result price :=
  let '(n, d) := margin_call_order_ratio f maybe_mcfr in price_div_ratio (pf_settlement_price f) n d.

Definition margin_call_pays_ratio (f : price_feed) (maybe_mcfr : option Z) : Z * Z :=
  (get_margin_call_price_numerator f maybe_mcfr, pf_maximum_short_squeeze_ratio f).

Definition maintenance_collateralization (f : price_feed) : result price :=
  if price_is_null (pf_settlement_price f) then Ok null_price
  else price_mul_ratio (price_flip (pf_settlement_price f)) (pf_maintenance_collateral_ratio f) GRAPHENE_COLLATERAL_RATIO_DENOM.

(** The comparison of the members that affect margin calls; prices are compared as ratios. *)
Definition margin_call_params_equal (a b : price_feed) : bool :=
  price_eqb (pf_settlement_price a) (pf_settlement_price b) &&
  (pf_maintenance_collateral_ratio a =? pf_maintenance_collateral_ratio b) &&
  (pf_maximum_short_squeeze_ratio a =? pf_maximum_short_squeeze_ratio b).

(** ** price_feed_with_icr *)

Record price_feed_with_icr := PriceFeedIcr { feed : price_feed; initial_collateral_ratio : Z }.

Definition default_feed_with_icr : price_feed_with_icr :=
  PriceFeedIcr default_price_feed (pf_maintenance_collateral_ratio default_price_feed).

Definition make_feed_with_icr (f : price_feed) (icr : option Z) : price_feed_with_icr :=
  PriceFeedIcr f (default (pf_maintenance_collateral_ratio f) icr).

Definition get_initial_collateralization (f : price_feed_with_icr) : result price :=
  if price_is_null (pf_settlement_price (feed f)) then Ok null_price
  else price_mul_ratio (price_flip (pf_settlement_price (feed f))) (initial_collateral_ratio f) GRAPHENE_COLLATERAL_RATIO_DENOM.

(** The members of a feed, as the medians read them. *)
Definition settlement_price (f : price_feed_with_icr) : price := pf_settlement_price (feed f).
Definition core_exchange_rate (f : price_feed_with_icr) : price := pf_core_exchange_rate (feed f).
Definition maintenance_collateral_ratio (f : price_feed_with_icr) : Z := pf_maintenance_collateral_ratio (feed f).
Definition maximum_short_squeeze_ratio (f : price_feed_with_icr) : Z := pf_maximum_short_squeeze_ratio (feed f).

Definition set_settlement_price (f : price_feed_with_icr) (p : price) : price_feed_with_icr :=
  PriceFeedIcr (PriceFeed p (core_exchange_rate f) (maintenance_collateral_ratio f) (maximum_short_squeeze_ratio f))
    (initial_collateral_ratio f).

(** ** bitasset_options *)

Inductive black_swan_response_type :=
  | global_settlement
  | no_settlement
  | individual_settlement_to_fund
  | individual_settlement_to_order.

Record bitasset_options := BitassetOptions {
  feed_lifetime_sec : Z;
  minimum_feeds : Z;
  force_settlement_delay_sec : Z;
  force_settlement_offset_percent : Z;
  maximum_force_settlement_volume : Z;
  short_backing_asset : asset_id_type;
  ext_initial_collateral_ratio : option Z;
  ext_maintenance_collateral_ratio : option Z;
  ext_maximum_short_squeeze_ratio : option Z;
  ext_margin_call_fee_ratio : option Z;
  ext_force_settle_fee_percent : option Z;
  ext_black_swan_response_method : option Z }.

Definition opt_assert (o : option Z) (test : Z → bool) (msg : string) : result unit :=
  match o with Some v => FC_ASSERT (test v) msg | None => Ok () end.

Definition bitasset_options_validate (o : bitasset_options) : result unit :=
  FC_ASSERT (0 <? minimum_feeds o) "minimum_feeds > 0";;
  FC_ASSERT (force_settlement_offset_percent o <=? GRAPHENE_100_PERCENT)
    "force_settlement_offset_percent <= GRAPHENE_100_PERCENT";;
  FC_ASSERT (maximum_force_settlement_volume o <=? GRAPHENE_100_PERCENT)
    "maximum_force_settlement_volume <= GRAPHENE_100_PERCENT";;
  opt_assert (ext_margin_call_fee_ratio o) (λ v, v <=? GRAPHENE_MAX_COLLATERAL_RATIO) "margin_call_fee_ratio";;
  opt_assert (ext_initial_collateral_ratio o) ratio_in_limits "initial_collateral_ratio";;
  opt_assert (ext_maintenance_collateral_ratio o) ratio_in_limits "maintenance_collateral_ratio";;
  opt_assert (ext_maximum_short_squeeze_ratio o) ratio_in_limits "maximum_short_squeeze_ratio";;
  opt_assert (ext_force_settle_fee_percent o) (λ v, v <=? GRAPHENE_100_PERCENT) "force_settle_fee_percent";;
  opt_assert (ext_black_swan_response_method o) (λ v, v <? 4) "black_swan_response_method should be less than ${c}".

(** Options are validated: the value, if any, is below 4. *)
Definition get_black_swan_response_method (o : bitasset_options) : black_swan_response_type :=
  match ext_black_swan_response_method o with
  | Some 1 => no_settlement
  | Some 2 => individual_settlement_to_fund
  | Some 3 => individual_settlement_to_order
  | _ => global_settlement
  end.

(** ** asset_bitasset_data_object *)

(** [feeds] is a [flat_map]: a vector sorted by the publishing accounts. *)
Record asset_bitasset_data_object := Bitasset {
  ba_asset_id : asset_id_type;
  ba_options : bitasset_options;
  ba_feeds : list (account_id_type * (Z * price_feed_with_icr));
  median_feed : price_feed_with_icr;
  current_feed : price_feed_with_icr;
  current_feed_publication_time : Z;
  current_maintenance_collateralization : price;
  current_initial_collateralization : price;
  is_prediction_market : bool;
  force_settled_volume : share_type;
  ba_settlement_price : price;
  settlement_fund : share_type;
  individual_settlement_debt : share_type;
  individual_settlement_fund : share_type;
  asset_cer_updated : bool;
  feed_cer_updated : bool }.

Definition set_feeds (b : asset_bitasset_data_object) fs : asset_bitasset_data_object :=
  Bitasset (ba_asset_id b) (ba_options b) fs (median_feed b) (current_feed b) (current_feed_publication_time b)
    (current_maintenance_collateralization b) (current_initial_collateralization b) (is_prediction_market b)
    (force_settled_volume b) (ba_settlement_price b) (settlement_fund b) (individual_settlement_debt b)
    (individual_settlement_fund b) (asset_cer_updated b) (feed_cer_updated b).

(** [median_feed], [current_feed_publication_time] and [feed_cer_updated] are set together. *)
Definition set_median (b : asset_bitasset_data_object) (m : price_feed_with_icr) (time : Z) (cer : bool) : asset_bitasset_data_object :=
  Bitasset (ba_asset_id b) (ba_options b) (ba_feeds b) m (current_feed b) time
    (current_maintenance_collateralization b) (current_initial_collateralization b) (is_prediction_market b)
    (force_settled_volume b) (ba_settlement_price b) (settlement_fund b) (individual_settlement_debt b)
    (individual_settlement_fund b) (asset_cer_updated b) cer.

Definition set_current_feed (b : asset_bitasset_data_object) (f : price_feed_with_icr) : asset_bitasset_data_object :=
  Bitasset (ba_asset_id b) (ba_options b) (ba_feeds b) (median_feed b) f (current_feed_publication_time b)
    (current_maintenance_collateralization b) (current_initial_collateralization b) (is_prediction_market b)
    (force_settled_volume b) (ba_settlement_price b) (settlement_fund b) (individual_settlement_debt b)
    (individual_settlement_fund b) (asset_cer_updated b) (feed_cer_updated b).

Definition set_cache (b : asset_bitasset_data_object) (m i : price) : asset_bitasset_data_object :=
  Bitasset (ba_asset_id b) (ba_options b) (ba_feeds b) (median_feed b) (current_feed b) (current_feed_publication_time b)
    m i (is_prediction_market b) (force_settled_volume b) (ba_settlement_price b) (settlement_fund b)
    (individual_settlement_debt b) (individual_settlement_fund b) (asset_cer_updated b) (feed_cer_updated b).

Definition bsrm (b : asset_bitasset_data_object) : black_swan_response_type := get_black_swan_response_method (ba_options b).

Definition is_current_feed_price_capped (b : asset_bitasset_data_object) : bool :=
  negb (price_eqb (settlement_price (median_feed b)) (settlement_price (current_feed b))).
Definition is_globally_settled (b : asset_bitasset_data_object) : bool := negb (price_is_null (ba_settlement_price b)).

Definition is_individually_settled_to_fund (b : asset_bitasset_data_object) : bool :=
  negb (individual_settlement_debt b =? 0) &&
  match bsrm b with individual_settlement_to_fund => true | _ => false end.

Definition get_individual_settlement_price (b : asset_bitasset_data_object) : result price :=
  make_price (Asset (individual_settlement_debt b) (ba_asset_id b))
    (Asset (individual_settlement_fund b) (short_backing_asset (ba_options b))).

Definition get_margin_call_order_price (b : asset_bitasset_data_object) : result price :=
  margin_call_order_price (feed (current_feed b)) (ext_margin_call_fee_ratio (ba_options b)).
Definition get_margin_call_order_ratio (b : asset_bitasset_data_object) : Z * Z :=
  margin_call_order_ratio (feed (current_feed b)) (ext_margin_call_fee_ratio (ba_options b)).
Definition get_margin_call_pays_ratio (b : asset_bitasset_data_object) : Z * Z :=
  margin_call_pays_ratio (feed (current_feed b)) (ext_margin_call_fee_ratio (ba_options b)).

Definition need_to_update_cer (b : asset_bitasset_data_object) : bool :=
  (feed_cer_updated b || asset_cer_updated b) && negb (price_is_null (core_exchange_rate (current_feed b))).

Definition feed_expiration_time (b : asset_bitasset_data_object) : Z :=
  if time_point_sec_maximum - current_feed_publication_time b <=? feed_lifetime_sec (ba_options b) then time_point_sec_maximum
  else time_add (current_feed_publication_time b) (feed_lifetime_sec (ba_options b)).
Definition feed_is_expired_before_hf_615 (b : asset_bitasset_data_object) (current_time : Z) : bool :=
  current_time <=? feed_expiration_time b.
Definition feed_is_expired (b : asset_bitasset_data_object) (current_time : Z) : bool := feed_expiration_time b <=? current_time.

Definition max_force_settlement_volume (b : asset_bitasset_data_object) (current_supply : share_type) : result share_type :=
  let max := maximum_force_settlement_volume (ba_options b) in
  if 0 =? max then Ok 0
  else if GRAPHENE_100_PERCENT =? max then share_add current_supply (force_settled_volume b)
  else
    let volume := u128_add (u128 current_supply) (u128 (force_settled_volume b)) in
    let volume := u128_div (u128_mul volume max) GRAPHENE_100_PERCENT in
    share_check (to_uint64 volume).

(** *** Medians *)

(** [std::nth_element]: it permutes the range so that the element at [k] has no greater one before
    it and no smaller one after it, if [lt] is a strict weak ordering of the elements.  Which one of several
    equivalent elements that is depends on the implementation. *)
Definition weak_order {A} (lt : A → A → bool) (l : list A) : Prop :=
  (∀ x y, x ∈ l → y ∈ l → lt x y = true → lt y x = false) ∧
  (∀ x y z, x ∈ l → y ∈ l → z ∈ l → lt x y = false → lt y z = false → lt x z = false).

Class NthElement (A : Type) := {
  nth_element : (A → A → bool) → nat → list A → list A;
  nth_element_perm lt k l : nth_element lt k l ≡ₚ l;
  nth_element_before lt k l i x y : weak_order lt l →
    nth_element lt k l !! k = Some x → (i < k)%nat → nth_element lt k l !! i = Some y → lt x y = false;
  nth_element_after lt k l i x y : weak_order lt l →
    nth_element lt k l !! k = Some x → (k < i)%nat → nth_element lt k l !! i = Some y → lt y x = false }.

Section medians.
Context `{NthElement price_feed_with_icr}.
Implicit Types (fs : list price_feed_with_icr) (b : asset_bitasset_data_object).

(** [CALCULATE_MEDIAN_VALUE]; for no feeds, the iterator would not be dereferenceable. *)
Definition CALCULATE_MEDIAN_VALUE {A} (field : price_feed_with_icr → A) (lt : A → A → bool) fs :
    result (A * list price_feed_with_icr) :=
  let k := (length fs / 2)%nat in
  let fs := nth_element (λ x y, lt (field x) (field y)) k fs in
  match fs !! k with
  | Some f => Ok (field f, fs)
  | None => Err (assert_exception "undefined: no median of no feeds")
  end.

Definition CHECK_AND_CALCULATE_MEDIAN_VALUE (ext : option Z) (field : price_feed_with_icr → Z) fs :
    result (Z * list price_feed_with_icr) :=
  match ext with
  | Some v => Ok (v, fs)
  | None => CALCULATE_MEDIAN_VALUE field Z.ltb fs
  end.

(** The feeds that were alive at [current_time]; the difference of two times is signed. *)
Definition is_alive (b : asset_bitasset_data_object) (current_time : Z) (f : Z * price_feed_with_icr) : bool :=
  (current_time - f.1 <? feed_lifetime_sec (ba_options b)) && negb (f.1 =? 0).

Definition alive_feeds (b : asset_bitasset_data_object) (current_time : Z) : list (Z * price_feed_with_icr) :=
  filter (λ f, is_alive b current_time f = true) (map snd (ba_feeds b)).

Definition refresh_cache (b : asset_bitasset_data_object) : result asset_bitasset_data_object :=
  m ← maintenance_collateralization (feed (median_feed b));
  i ← (if maintenance_collateral_ratio (median_feed b) <? initial_collateral_ratio (median_feed b)
       then get_initial_collateralization (median_feed b) else Ok m);
  Ok (set_cache b m i).

Definition calculate_medians (o : bitasset_options) fs : result price_feed_with_icr :=
  '(sp, fs) ← CALCULATE_MEDIAN_VALUE settlement_price price_ltb fs;
  '(cer, fs) ← CALCULATE_MEDIAN_VALUE core_exchange_rate price_ltb fs;
  '(mcr, fs) ← CHECK_AND_CALCULATE_MEDIAN_VALUE (ext_maintenance_collateral_ratio o) maintenance_collateral_ratio fs;
  '(mssr, fs) ← CHECK_AND_CALCULATE_MEDIAN_VALUE (ext_maximum_short_squeeze_ratio o) maximum_short_squeeze_ratio fs;
  '(icr, fs) ← CHECK_AND_CALCULATE_MEDIAN_VALUE (ext_initial_collateral_ratio o) initial_collateral_ratio fs;
  Ok (PriceFeedIcr (PriceFeed sp cer mcr mssr) icr).

(** The single feed, with the owner's ratios after hard fork core-1270. *)
Definition single_median (after_1270 : bool) (o : bitasset_options) (f : price_feed_with_icr) : price_feed_with_icr :=
  if after_1270 then
    PriceFeedIcr (PriceFeed (settlement_price f) (core_exchange_rate f)
                   (default (maintenance_collateral_ratio f) (ext_maintenance_collateral_ratio o))
                   (default (maximum_short_squeeze_ratio f) (ext_maximum_short_squeeze_ratio o)))
      (default (initial_collateral_ratio f) (ext_initial_collateral_ratio o))
  else f.

Definition update_median_feeds (b : asset_bitasset_data_object) (current_time next_maintenance_time : Z) :
    result asset_bitasset_data_object :=
  let after_core_hardfork_1270 := HARDFORK_CORE_1270_TIME <? next_maintenance_time in
  let alive := alive_feeds b current_time in
  let publication_time := fold_left Z.min (map fst alive) current_time in
  let effective_feeds := map snd alive in
  let refresh b := if after_core_hardfork_1270 then refresh_cache b else Ok b in
  let cer_changed m := negb (price_eqb (core_exchange_rate (median_feed b)) (core_exchange_rate m)) || feed_cer_updated b in
  if Z.of_nat (length effective_feeds) <? minimum_feeds (ba_options b) then
    refresh (set_median b default_feed_with_icr current_time false)
  else match effective_feeds with
  | [f] =>
    refresh (set_median b (single_median after_core_hardfork_1270 (ba_options b) f) publication_time (cer_changed f))
  | _ =>
    m ← calculate_medians (ba_options b) effective_feeds;
    refresh (set_median b m publication_time (cer_changed m))
  end.
End medians.

(** ** The current feed *)

(** The call orders, by id. *)
Notation call_order_index := (gmap Z call_order_object) (only parsing).

(** The index [by_collateral] (or [by_price]) orders by a price, then by id. *)
Definition call_before (key : call_order_object → price) (a b : Z * call_order_object) : bool :=
  price_ltb (key a.2) (key b.2) || (negb (price_ltb (key b.2) (key a.2)) && (a.1 <? b.1)).

Definition first_from (key : call_order_object → price) (low : price) (calls : call_order_index) : option (Z * call_order_object) :=
  fold_left (λ best c, if price_ltb (key c.2) low then best
                       else match best with
                            | Some c' => if call_before key c c' then Some c else best
                            | None => Some c
                            end) (map_to_list calls) None.

(** [collateralization()] as a key: the assets of a call order differ, so that it does not throw. *)
Definition collateralization_key (o : call_order_object) : price := Price (get_collateral o) (get_debt o).

Definition find_least_collateralized_short (calls : call_order_index) (next_maintenance_time : Z)
    (b : asset_bitasset_data_object) (force_by_collateral_index : bool) : result (option (Z * call_order_object)) :=
  let find_by_collateral := force_by_collateral_index || (HARDFORK_CORE_1270_TIME <? next_maintenance_time) in
  call_min ← price_min (short_backing_asset (ba_options b)) (ba_asset_id b);
  let call := first_from (if find_by_collateral then collateralization_key else co_call_price) call_min calls in
  Ok (match call with
      | Some c => if negb (debt_type c.2 =? ba_asset_id b) then None else Some c
      | None => None
      end).

(** [std::max( a, b )]. *)
Definition std_max (a b : price) : price := if price_ltb a b then b else a.

Definition get_derived_current_feed_price (calls : call_order_index) (b : asset_bitasset_data_object) : result (option price) :=
  let median_price := settlement_price (median_feed b) in
  let current_price := settlement_price (current_feed b) in
  if price_is_null median_price then
    Ok (if price_is_null current_price then None else Some median_price)
  else
    p ← (match bsrm b with
         | no_settlement =>
           call ← find_least_collateralized_short calls 0 b true;
           match call with
           | Some c =>
             least_collateral ← collateralization c.2;
             lowest_callable_feed_price ←
               price_div_ratio (price_flip least_collateral) GRAPHENE_COLLATERAL_RATIO_DENOM
                 (maximum_short_squeeze_ratio (current_feed b));
             Ok (std_max median_price lowest_callable_feed_price)
           | None => Ok median_price
           end
         | individual_settlement_to_fund =>
           if 0 <? individual_settlement_debt b then
             fund_price ← make_price (Asset (individual_settlement_debt b) (ba_asset_id b))
                            (Asset (individual_settlement_fund b) (short_backing_asset (ba_options b)));
             let '(n, d) := get_margin_call_order_ratio b in
             lowest_callable_feed_price ← price_mul_ratio fund_price n d;
             Ok (std_max median_price lowest_callable_feed_price)
           else Ok median_price
         | _ => Ok median_price
         end);
    Ok (if price_eqb p current_price then None else Some p).

(** [update_bitasset_current_feed], what it does to the bitasset; [update_settled_debt_order], which it calls last,
    changes a limit order. *)
Definition caps_price (m : black_swan_response_type) : bool :=
  match m with no_settlement | individual_settlement_to_fund => true | _ => false end.

Definition update_bitasset_current_feed `{NthElement price_feed_with_icr} (calls : call_order_index)
    (head_time next_maintenance_time : Z) (b : asset_bitasset_data_object) (skip_median_update : bool) :
    result asset_bitasset_data_object :=
  let put b np := match np with Some p => set_current_feed b (set_settlement_price (current_feed b) p) | None => b end in
  if skip_median_update then
    if negb (caps_price (bsrm b)) then
      if price_eqb (settlement_price (current_feed b)) (settlement_price (median_feed b)) then Ok b
      else Ok (put b (Some (settlement_price (median_feed b))))
    else np ← get_derived_current_feed_price calls b; Ok (put b np)
  else
    b ← update_median_feeds b head_time next_maintenance_time;
    let b := set_current_feed b (median_feed b) in
    np ← (if caps_price (bsrm b) then get_derived_current_feed_price calls b else Ok None);
    Ok (put b np).
