(* ===== verification/PriceFeedTheorems.v ===== *)
(** * Properties of price feeds

    The median lies where the majority of the feeds is; the feed in force expires with the oldest
    feed it was made from; and the price in force protects the positions from a black swan where the
    asset says so. *)
From stdpp Require Import sorting.
From S2P Require Import Prelude MachineInt Hardfork Asset PriceRatio CallOrder CallOrderTheorems PriceFeed.

(** ** A sort is an [nth_element] *)

Section sort.
Context {A : Type} (lt : A → A → bool).

Fixpoint sort_insert (x : A) (l : list A) : list A :=
  match l with
  | [] => [x]
  | y :: l' => if lt y x then y :: sort_insert x l' else x :: y :: l'
  end.

Fixpoint insertion_sort (l : list A) : list A :=
  match l with [] => [] | x :: l' => sort_insert x (insertion_sort l') end.

Lemma sort_insert_perm x l : sort_insert x l ≡ₚ x :: l.
Proof.
  induction l as [|y l IH]; [done|]. simpl. destruct (lt y x); [|done]. rewrite IH. apply Permutation_swap.
Qed.

Lemma insertion_sort_perm l : insertion_sort l ≡ₚ l.
Proof. induction l as [|x l IH]; [done|]. simpl. by rewrite sort_insert_perm, IH. Qed.

(** [x] may stand before [y]. *)
Definition may_precede (x y : A) : Prop := lt y x = false.

Lemma sort_insert_sorted l0 x l :
  weak_order lt l0 → x ∈ l0 → (∀ y, y ∈ l → y ∈ l0) →
  StronglySorted may_precede l → StronglySorted may_precede (sort_insert x l).
Proof.
  intros [Has Htr] Hx Hl Hs. unfold may_precede in *.
  induction Hs as [|y l Hs IH Hy]; simpl; [by repeat constructor|]. rewrite Forall_forall in Hy.
  assert (y ∈ l0) as Hy0 by (apply Hl; set_solver).
  destruct (lt y x) eqn:E.
  - constructor; [apply IH; set_solver|]. apply Forall_forall. intros z. rewrite sort_insert_perm, elem_of_cons.
    intros [->|Hz]; auto.
  - constructor; [by constructor; [|apply Forall_forall]|]. apply Forall_forall. intros z [->|Hz]%elem_of_cons; [done|].
    apply (Htr z y x); auto. set_solver.
Qed.

Lemma insertion_sort_sorted l : weak_order lt l → StronglySorted may_precede (insertion_sort l).
Proof.
  intros Hw. assert (∀ l', (∀ y, y ∈ l' → y ∈ l) → StronglySorted may_precede (insertion_sort l')) as H; [|by apply H].
  induction l' as [|x l' IH]; intros Hl; simpl; [constructor|].
  eapply sort_insert_sorted; [done|apply Hl; set_solver| |apply IH; set_solver].
  intros y. rewrite insertion_sort_perm. set_solver.
Qed.
End sort.

Lemma StronglySorted_lookup_lt {A} (R : relation A) l i j x y :
  StronglySorted R l → l !! i = Some x → l !! j = Some y → (i < j)%nat → R x y.
Proof.
  intros Hs. revert i j. induction Hs as [|z l Hs IH Hz]; intros [|i] [|j] Hi Hj Hij; try (done || lia).
  - rewrite Forall_forall in Hz. injection Hi as <-. eapply Hz, list_elem_of_lookup_2, Hj.
  - apply (IH i j); [done..|lia].
Qed.

#[export, refine] Instance sorting_nth_element A : NthElement A := {| nth_element lt _ := insertion_sort lt |}.
Proof.
  - intros lt _ l. apply insertion_sort_perm.
  - intros lt k l i x y Hw Hx Hi Hy. apply insertion_sort_sorted in Hw.
    exact (StronglySorted_lookup_lt _ _ i k y x Hw Hy Hx Hi).
  - intros lt k l i x y Hw Hx Hi Hy. apply insertion_sort_sorted in Hw.
    exact (StronglySorted_lookup_lt _ _ k i x y Hw Hx Hy Hi).
Defined.

(** ** Prices are weakly ordered *)

(** The prices feeds hold: valid ones, or none. *)
Definition price_or_null (p : price) : Prop := price_wf p ∨ p = null_price.

Lemma price_ltb_spec a b : price_or_null a → price_or_null b →
  price_ltb a b = true ↔
  asset_id (base a) < asset_id (base b) ∨ (asset_id (base a) = asset_id (base b) ∧
   (asset_id (quote a) < asset_id (quote b) ∨ (asset_id (quote a) = asset_id (quote b) ∧
    amount (base a) * amount (quote b) < amount (base b) * amount (quote a)))).
Proof.
  intros Ha Hb.
  assert (∀ p, price_or_null p → is_share (amount (base p)) ∧ is_share (amount (quote p)) ∧
    0 ≤ amount (base p) ∧ 0 ≤ amount (quote p)) as Hs.
  { intros p [(? & ? & ? & ? & _)| ->]; split_and!; (done || lia). }
  apply Hs in Ha as (? & ? & ? & ?), Hb as (? & ? & ? & ?). unfold is_share, INT64_MIN, INT64_MAX in *.
  unfold price_ltb, u128_mul. rewrite !(u128_small (amount _)) by (unfold UINT128_MOD; lia).
  rewrite !u128_small by (unfold UINT128_MOD; nia).
  split_ifs; propify; lia.
Qed.

Lemma price_or_null_ltb_asym a b : price_or_null a → price_or_null b → price_ltb a b = true → price_ltb b a = false.
Proof.
  intros Ha Hb Hab. destruct (price_ltb b a) eqn:Hba; [|done].
  rewrite price_ltb_spec in Hab, Hba by done. lia.
Qed.

Lemma price_same_kind a b : price_or_null a → price_or_null b →
  asset_id (base a) = asset_id (base b) → asset_id (quote a) = asset_id (quote b) →
  (0 < amount (quote a) ∧ 0 < amount (quote b)) ∨ (a = null_price ∧ b = null_price).
Proof.
  intros [(? & ? & ? & ? & Hna)| ->] [(? & ? & ? & ? & Hnb)| ->] Eb Eq; [by left| | |by right]; simpl in *; congruence.
Qed.

(** [a <= b <= c] implies [a <= c], where [a <= b] is [!( b < a )]. *)
Lemma price_leb_trans a b c : price_or_null a → price_or_null b → price_or_null c →
  price_ltb b a = false → price_ltb c b = false → price_ltb c a = false.
Proof.
  intros Ha Hb Hc Hba Hcb. destruct (price_ltb c a) eqn:Hca; [exfalso|done].
  apply not_true_iff_false in Hba, Hcb. rewrite price_ltb_spec in Hba, Hcb, Hca by done.
  destruct (Z.eq_dec (asset_id (base a)) (asset_id (base b))) as [E1|]; [|lia].
  destruct (Z.eq_dec (asset_id (base b)) (asset_id (base c))) as [E2|]; [|lia].
  destruct (Z.eq_dec (asset_id (quote a)) (asset_id (quote b))) as [E3|]; [|lia].
  destruct (Z.eq_dec (asset_id (quote b)) (asset_id (quote c))) as [E4|]; [|lia].
  assert (amount (base a) * amount (quote b) ≤ amount (base b) * amount (quote a)) by lia.
  assert (amount (base b) * amount (quote c) ≤ amount (base c) * amount (quote b)) by lia.
  assert (amount (base c) * amount (quote a) < amount (base a) * amount (quote c)) as Hlt by lia.
  destruct (price_same_kind a b) as [[? ?]|[-> ->]]; [done..| |simpl in *; lia].
  destruct (price_same_kind b c) as [[? ?]|[-> ->]]; [done..| |simpl in *; lia].
  clear - H H0 Hlt H1 H2 H4.
  apply (Z.mul_lt_mono_pos_l (amount (quote b))) in Hlt; [|done]. nia.
Qed.

Definition price_leb (a b : price) : bool := negb (price_ltb b a).

Lemma prices_weakly_ordered {A} (field : A → price) l :
  (∀ x, x ∈ l → price_or_null (field x)) → weak_order (λ x y, price_ltb (field x) (field y)) l.
Proof.
  intros Hl. split; intros; [by apply price_or_null_ltb_asym; auto|].
  eapply price_leb_trans; [| | |eassumption|eassumption]; auto.
Qed.

(** ** The median lies with the majority *)

Section median.
Context `{NthElement price_feed_with_icr}.
Implicit Types (fs : list price_feed_with_icr).

(** [P] holds of everything between two elements of which it holds. *)
Definition convex (lt : price_feed_with_icr → price_feed_with_icr → bool) (P : price_feed_with_icr → bool) fs : Prop :=
  ∀ x y z, x ∈ fs → y ∈ fs → z ∈ fs → P x = true → P z = true → lt y x = false → lt z y = false → P y = true.

Definition majority (P : price_feed_with_icr → bool) fs : Prop := (length fs < 2 * length (filter (λ f, P f = true) fs))%nat.

Lemma majority_perm P fs fs' : fs ≡ₚ fs' → majority P fs → majority P fs'.
Proof. unfold majority. by intros ->. Qed.

Lemma existsb_lookup (P : price_feed_with_icr → bool) l : existsb P l = true → ∃ i x, l !! i = Some x ∧ P x = true.
Proof. intros (x & [i Hi]%list_elem_of_In%list_elem_of_lookup_1 & Px)%existsb_exists. eauto. Qed.

Lemma filter_none (P : price_feed_with_icr → bool) l : existsb P l = false → filter (λ f, P f = true) l = [].
Proof. induction l as [|x l IH]; [done|]. simpl. intros [Hx Hl]%orb_false_iff. rewrite filter_cons_False by congruence. auto. Qed.

(** A majority has members on both sides of the middle. *)
Lemma majority_straddles (P : price_feed_with_icr → bool) fs :
  majority P fs → ∃ i j x z, (i ≤ length fs / 2 ≤ j)%nat ∧ fs !! i = Some x ∧ fs !! j = Some z ∧ P x = true ∧ P z = true.
Proof.
  unfold majority. intros Hm. set (k := (length fs / 2)%nat).
  assert (2 * k ≤ length fs < 2 * (k + 1))%nat as Hk.
  { unfold k. pose proof (Nat.div_mod (length fs) 2 ltac:(lia)). pose proof (Nat.mod_upper_bound (length fs) 2). lia. }
  assert (∀ n, length (filter (λ f, P f = true) fs) =
    (length (filter (λ f, P f = true) (take n fs)) + length (filter (λ f, P f = true) (drop n fs)))%nat) as Hsplit.
  { intros n. by rewrite <- length_app, <- filter_app, take_drop. }
  pose proof (λ n, length_filter (λ f, P f = true) (take n fs)) as Ht.
  pose proof (λ n, length_filter (λ f, P f = true) (drop n fs)) as Hd.
  setoid_rewrite length_take in Ht. setoid_rewrite length_drop in Hd.
  assert (existsb P (take (k + 1) fs) = true) as (i & x & Hi & Px)%existsb_lookup.
  { apply not_false_iff_true. intros E%filter_none. specialize (Hsplit (k + 1)%nat). specialize (Hd (k + 1)%nat).
    rewrite E in Hsplit. simpl in Hsplit. lia. }
  assert (existsb P (drop k fs) = true) as (j & z & Hj & Pz)%existsb_lookup.
  { apply not_false_iff_true. intros E%filter_none. specialize (Hsplit k). specialize (Ht k).
    rewrite E in Hsplit. simpl in Hsplit. lia. }
  apply lookup_take_Some in Hi as [? ?]. rewrite lookup_drop in Hj. exists i, (k + j)%nat, x, z. split_and!; (done || lia).
Qed.

(** A median of some feeds is a value of one of them, and lies in every convex set a majority is in. *)
Lemma median_returns {A} (field : price_feed_with_icr → A) lt fs :
  fs ≠ [] → weak_order (λ x y, lt (field x) (field y)) fs →
  returns (CALCULATE_MEDIAN_VALUE field lt fs) (λ '(v, fs'), fs' ≡ₚ fs ∧ ∃ f, f ∈ fs ∧ v = field f ∧
    ∀ P, convex (λ x y, lt (field x) (field y)) P fs → majority P fs → P f = true).
Proof.
  intros Hne Hw. unfold CALCULATE_MEDIAN_VALUE. set (k := (length fs / 2)%nat). set (ltf := λ x y, lt (field x) (field y)) in *.
  pose proof (nth_element_perm ltf k fs) as Hp. pose proof (Permutation_length Hp) as Hlen.
  destruct (nth_element ltf k fs !! k) as [f|] eqn:Hf.
  2: { apply lookup_ge_None in Hf. unfold k in *. rewrite Hlen in Hf. destruct fs as [|x fs]; [done|]. 
       pose proof (Nat.div_lt (length (x :: fs)) 2 ltac:(simpl; lia) ltac:(lia)). lia. }
  cbn. split; [done|]. assert (f ∈ fs) as Hfs by (rewrite <- Hp; by eapply list_elem_of_lookup_2).
  exists f. split_and!; [done..|]. intros P Hc Hm. apply (majority_perm P _ (nth_element ltf k fs)) in Hm; [|done].
  apply majority_straddles in Hm as (i & j & x & z & Hij & Hx & Hz & Px & Pz). rewrite Hlen in Hij. fold k in Hij.
  assert (x ∈ fs ∧ z ∈ fs) as [? ?] by (rewrite <- Hp; split; by eapply list_elem_of_lookup_2).
  assert (ltf f f = false) as Hff by (destruct (ltf f f) eqn:E; [by rewrite (proj1 Hw f f Hfs Hfs E) in E|done]).
  apply (Hc x f z); try done.
  - destruct (decide (i = k)) as [->|]; [|eapply nth_element_before; [done|done| |done]; lia].
    rewrite Hf in Hx. by injection Hx as ->.
  - destruct (decide (j = k)) as [->|]; [|eapply nth_element_after; [done|done| |done]; lia].
    rewrite Hf in Hz. by injection Hz as ->.
Qed.

(** *** All medians *)

Definition ratio_ok (r : Z) : Prop := 0 < r < 2 ^ 16.

Definition feed_ok (f : price_feed_with_icr) : Prop :=
  price_or_null (settlement_price f) ∧ price_or_null (core_exchange_rate f) ∧ ratio_ok (maintenance_collateral_ratio f) ∧
  ratio_ok (maximum_short_squeeze_ratio f) ∧ ratio_ok (initial_collateral_ratio f).

Definition feed_options_ok (o : bitasset_options) : Prop :=
  0 < minimum_feeds o ∧ (∀ r, ext_maintenance_collateral_ratio o = Some r → ratio_ok r) ∧
  (∀ r, ext_maximum_short_squeeze_ratio o = Some r → ratio_ok r) ∧ (∀ r, ext_initial_collateral_ratio o = Some r → ratio_ok r).

Lemma numbers_weakly_ordered (field : price_feed_with_icr → Z) fs : weak_order (λ x y, field x <? field y) fs.
Proof. split; intros; propify; apply Z.ltb_ge; lia. Qed.

Lemma checked_median_returns ext field fs :
  fs ≠ [] → (∀ r, ext = Some r → ratio_ok r) → (∀ f, f ∈ fs → ratio_ok (field f)) →
  returns (CHECK_AND_CALCULATE_MEDIAN_VALUE ext field fs) (λ '(v, fs'), fs' ≡ₚ fs ∧ ratio_ok v).
Proof.
  intros Hne He Hf. destruct ext as [r|]; simpl; [by auto|].
  eapply returns_mono; [apply median_returns; [done|apply numbers_weakly_ordered]|].
  intros [v fs'] (? & f & ? & -> & _). auto.
Qed.

(** The price at the median position of the feeds. *)
Definition is_median_price fs (p : price) : Prop :=
  ∃ f, f ∈ fs ∧ p = settlement_price f ∧
    ∀ P, convex (λ x y, price_ltb (settlement_price x) (settlement_price y)) P fs → majority P fs → P f = true.

Lemma not_nil_perm {A} (l l' : list A) : l' ≡ₚ l → l ≠ [] → l' ≠ [].
Proof. intros Hp Hne ->. by apply Permutation_nil_l in Hp. Qed.

Lemma calculate_medians_returns o fs :
  fs ≠ [] → feed_options_ok o → (∀ f, f ∈ fs → feed_ok f) →
  returns (calculate_medians o fs) (λ m, feed_ok m ∧ is_median_price fs (settlement_price m)).
Proof.
  intros Hne (_ & Hm & Hs & Hi) Hf. unfold calculate_medians. apply returns_bind.
  eapply returns_mono; [apply median_returns; [done|apply prices_weakly_ordered; intros; by apply Hf]|].
  intros [sp fs1] (Hp1 & f1 & Hf1 & -> & Hmed). apply returns_bind.
  assert (∀ f, f ∈ fs1 → feed_ok f) as Hok1 by (intros f; rewrite Hp1; apply Hf).
  eapply returns_mono; [apply median_returns; [by eapply not_nil_perm|apply prices_weakly_ordered; intros; by apply Hok1]|].
  intros [cer fs2] (Hp2 & f2 & Hf2 & -> & _). rewrite Hp1 in Hp2. apply returns_bind.
  assert (∀ f, f ∈ fs2 → feed_ok f) as Hok2 by (intros f; rewrite Hp2; apply Hf).
  eapply returns_mono; [apply checked_median_returns; [by eapply not_nil_perm|done|intros f Hin; apply (Hok2 f Hin)]|].
  intros [mcr fs3] [Hp3 Hmcr]. rewrite Hp2 in Hp3. apply returns_bind.
  assert (∀ f, f ∈ fs3 → feed_ok f) as Hok3 by (intros f; rewrite Hp3; apply Hf).
  eapply returns_mono; [apply checked_median_returns; [by eapply not_nil_perm|done|intros f Hin; apply (Hok3 f Hin)]|].
  intros [mssr fs4] [Hp4 Hmssr]. rewrite Hp3 in Hp4. apply returns_bind.
  assert (∀ f, f ∈ fs4 → feed_ok f) as Hok4 by (intros f; rewrite Hp4; apply Hf).
  eapply returns_mono; [apply checked_median_returns; [by eapply not_nil_perm|done|intros f Hin; apply (Hok4 f Hin)]|].
  intros [icr fs5] [Hp5 Hicr]. rewrite Hp1 in Hf2. cbn.
  split; [|by exists f1]. exact (conj (proj1 (Hf f1 Hf1)) (conj (proj1 (proj2 (Hf f2 Hf2))) (conj Hmcr (conj Hmssr Hicr)))).
Qed.

Lemma flip_wf p : price_wf p → price_wf (price_flip p).
Proof. intros (? & ? & ? & ? & ?). split_and!; (done || by apply not_eq_sym). Qed.

Lemma scaled_or_null p r : price_or_null p → ratio_ok r →
  returns (if price_is_null p then Ok null_price else price_mul_ratio (price_flip p) r GRAPHENE_COLLATERAL_RATIO_DENOM) price_or_null.
Proof.
  intros [Hp| ->] Hr; [|by right]. destruct (price_is_null p); [by right|].
  eapply returns_mono; [apply price_mul_ratio_returns; [by apply flip_wf|done|done]|]. intros q [? _]. by left.
Qed.

Lemma refresh_cache_returns b : feed_ok (median_feed b) →
  returns (refresh_cache b) (λ b', median_feed b' = median_feed b ∧
    maintenance_collateralization (feed (median_feed b)) = Ok (current_maintenance_collateralization b') ∧
    current_feed_publication_time b' = current_feed_publication_time b ∧ ba_options b' = ba_options b ∧
    ba_asset_id b' = ba_asset_id b ∧ current_feed b' = current_feed b).
Proof.
  intros (Hs & _ & Hm & _ & Hi). unfold refresh_cache, maintenance_collateralization, get_initial_collateralization.
  pose proof (scaled_or_null _ _ Hs Hm) as (m & Em & Hm')%returns_Ok.
  pose proof (scaled_or_null _ _ Hs Hi) as (i & Ei & Hi')%returns_Ok.
  unfold settlement_price, maintenance_collateral_ratio in *. rewrite Em. simpl. rewrite Ei.
  by destruct (_ <? _).
Qed.

(** *** The update *)

Definition bitasset_ok (b : asset_bitasset_data_object) : Prop :=
  feed_options_ok (ba_options b) ∧ ∀ a t f, (a, (t, f)) ∈ ba_feeds b → feed_ok f.

Definition effective_feeds (b : asset_bitasset_data_object) (now : Z) : list price_feed_with_icr := map snd (alive_feeds b now).

Definition enough_feeds (b : asset_bitasset_data_object) (now : Z) : bool :=
  minimum_feeds (ba_options b) <=? Z.of_nat (length (alive_feeds b now)).

Lemma alive_published b now t f : (t, f) ∈ alive_feeds b now → ∃ a, (a, (t, f)) ∈ ba_feeds b.
Proof.
  unfold alive_feeds. intros [_ ([a [t' f']] & E & Hin)%list_elem_of_fmap]%list_elem_of_filter. injection E as -> ->. by exists a.
Qed.

Lemma effective_ok b now f : bitasset_ok b → f ∈ effective_feeds b now → feed_ok f.
Proof.
  intros [_ Hf] ([t f'] & -> & Hin)%list_elem_of_fmap. destruct (alive_published _ _ _ _ Hin) as [a Ha]. by eapply Hf.
Qed.

Lemma single_median_ok after o f : feed_options_ok o → feed_ok f → feed_ok (single_median after o f).
Proof.
  intros (_ & Hm & Hs & Hi) Hf. pose proof Hf as (? & ? & ? & ? & ?). unfold single_median. destruct after; [|done].
  split; [done|]. split; [done|]. cbn.
  split; [destruct (ext_maintenance_collateral_ratio o); by auto|].
  split; [destruct (ext_maximum_short_squeeze_ratio o); by auto|destruct (ext_initial_collateral_ratio o); by auto].
Qed.

Lemma single_median_price after o f : settlement_price (single_median after o f) = settlement_price f.
Proof. by destruct after. Qed.

(** What [update_median_feeds] leaves: the median of the feeds alive, or no feed. *)
Definition medians_updated (b b' : asset_bitasset_data_object) (now maint : Z) : Prop :=
  feed_ok (median_feed b') ∧ (ba_options b' = ba_options b ∧ ba_asset_id b' = ba_asset_id b) ∧ current_feed b' = current_feed b ∧
  (if enough_feeds b now then
     is_median_price (effective_feeds b now) (settlement_price (median_feed b')) ∧
     current_feed_publication_time b' = fold_left Z.min (map fst (alive_feeds b now)) now
   else median_feed b' = default_feed_with_icr ∧ current_feed_publication_time b' = now) ∧
  (HARDFORK_CORE_1270_TIME < maint →
   maintenance_collateralization (feed (median_feed b')) = Ok (current_maintenance_collateralization b')).

Lemma default_feed_ok : feed_ok default_feed_with_icr.
Proof. split; [by right|]. split; [by right|]. done. Qed.

Lemma refreshed b m t c now maint : feed_ok m →
  (if enough_feeds b now then
     is_median_price (effective_feeds b now) (settlement_price m) ∧ t = fold_left Z.min (map fst (alive_feeds b now)) now
   else m = default_feed_with_icr ∧ t = now) →
  returns (if HARDFORK_CORE_1270_TIME <? maint then refresh_cache (set_median b m t c) else Ok (set_median b m t c))
    (λ b', medians_updated b b' now maint).
Proof.
  intros Hm Hd. destruct (Z.ltb_spec HARDFORK_CORE_1270_TIME maint) as [Hmt|Hmt].
  - eapply returns_mono; [by apply refresh_cache_returns|]. intros b' (E1 & E2 & E3 & E4 & E5 & E6).
    unfold medians_updated. rewrite E1, E3, E4, E5, E6. split_and!; try done.
  - split_and!; try done. intros. lia.
Qed.

Lemma is_median_price_single f : is_median_price [f] (settlement_price f).
Proof.
  exists f. split; [by left|]. split; [done|]. intros P _ Hm. unfold majority in Hm.
  destruct (P f) eqn:E; [done|]. rewrite filter_cons_False in Hm by congruence. simpl in Hm. lia.
Qed.

Lemma update_median_feeds_returns b now maint :
  bitasset_ok b → returns (update_median_feeds b now maint) (λ b', medians_updated b b' now maint).
Proof.
  intros Hb. unfold update_median_feeds. fold (effective_feeds b now).
  assert (length (effective_feeds b now) = length (alive_feeds b now)) as Hlen by apply length_map.
  assert (0 < minimum_feeds (ba_options b)) as Hmin by (destruct Hb as [[? _] _]; done).
  destruct (Z.ltb_spec (Z.of_nat (length (effective_feeds b now))) (minimum_feeds (ba_options b))) as [Hfew|Hen].
  { apply refreshed; [apply default_feed_ok|]. unfold enough_feeds. by rewrite (proj2 (Z.leb_gt _ _)) by lia. }
  assert (enough_feeds b now = true) as Hen' by (unfold enough_feeds; apply Z.leb_le; lia).
  pose proof (effective_ok b now) as Hok. pose proof (calculate_medians_returns (ba_options b) (effective_feeds b now)) as Hmed.
  destruct (effective_feeds b now) as [|f [|g fs]] eqn:Hfs; [simpl in Hen; lia| |].
  - apply refreshed; [apply single_median_ok; [apply Hb|apply Hok; [done|by left]]|].
    rewrite Hen', single_median_price, Hfs. split; [apply is_median_price_single|done].
  - apply returns_bind. eapply returns_mono; [apply Hmed; [done|apply Hb|intros; by apply Hok]|].
    intros m [Hm Hp]. apply refreshed; [done|]. by rewrite Hen', Hfs.
Qed.

Definition price_in_range (lo hi : price) (f : price_feed_with_icr) : bool :=
  price_leb lo (settlement_price f) && price_leb (settlement_price f) hi.

Lemma price_in_range_convex lo hi fs : price_or_null lo → price_or_null hi → (∀ f, f ∈ fs → price_or_null (settlement_price f)) →
  convex (λ x y, price_ltb (settlement_price x) (settlement_price y)) (price_in_range lo hi) fs.
Proof.
  intros Hlo Hhi Hok x y z Hx Hy Hz. unfold price_in_range, price_leb. rewrite !andb_true_iff, !negb_true_iff.
  intros [Px _] [_ Pz] Hxy Hyz. split.
  - exact (price_leb_trans lo (settlement_price x) (settlement_price y) Hlo (Hok x Hx) (Hok y Hy) Px Hxy).
  - exact (price_leb_trans (settlement_price y) (settlement_price z) hi (Hok y Hy) (Hok z Hz) Hhi Hyz Pz).
Qed.

(** C31: if there are enough feeds alive, [update_median_feeds] returns (for any implementation of
    [std::nth_element]), and the median settlement price lies in every range of prices that more than
    half of the feeds alive lie in: no minority of publishers can move it out of the range the others
    agree on. *)
Theorem median_stays_with_majority b now maint lo hi :
  bitasset_ok b → enough_feeds b now = true → price_or_null lo → price_or_null hi →
  majority (price_in_range lo hi) (effective_feeds b now) →
  ∃ b', update_median_feeds b now maint = Ok b' ∧ price_in_range lo hi (median_feed b') = true.
Proof.
  intros Hb Hen Hlo Hhi Hmaj. pose proof (update_median_feeds_returns b now maint Hb) as (b' & E & Hu)%returns_Ok.
  exists b'. split; [done|]. destruct Hu as (_ & _ & _ & Hu & _). rewrite Hen in Hu.
  destruct Hu as [(f & Hf & Ep & Hmed) _]. unfold price_in_range. rewrite Ep. apply (Hmed (price_in_range lo hi)); [|done].
  apply price_in_range_convex; [done..|]. intros g Hg. by apply (effective_ok b now).
Qed.

Lemma fold_min_bounds l t : fold_left Z.min l t ≤ t ∧ (∀ x, x ∈ l → fold_left Z.min l t ≤ x) ∧
  (fold_left Z.min l t = t ∨ fold_left Z.min l t ∈ l).
Proof.
  revert t. induction l as [|x l IH]; intros t; simpl; [split_and!; [lia|set_solver|by left]|].
  destruct (IH (Z.min t x)) as (H1 & H2 & H3). split_and!; [lia| |].
  - intros z [->|Hz]%elem_of_cons; [lia|by apply H2].
  - destruct H3 as [->|H3]; [|right; by right]. destruct (Z.min_spec t x) as [[_ ->]|[_ ->]]; [by left|right; by left].
Qed.

Lemma fold_min_spec l t : (∀ x, x ∈ l → x ≤ t) → l ≠ [] →
  fold_left Z.min l t ∈ l ∧ ∀ x, x ∈ l → fold_left Z.min l t ≤ x.
Proof.
  intros Hl Hne. destruct l as [|y l]; [done|]. simpl. rewrite Z.min_r by (apply Hl; by left).
  destruct (fold_min_bounds l y) as (H1 & H2 & H3). split.
  - destruct H3 as [->|H3]; [by left|by right].
  - intros z [->|Hz]%elem_of_cons; [done|by apply H2].
Qed.

(** The feed in force expires with the oldest feed it was made from: after an update with enough feeds, none of
    them from the future, it is expired at a later time exactly if one of the feeds that were alive no longer is. *)
Theorem feed_expires_with_oldest b b' now maint t :
  bitasset_ok b → enough_feeds b now = true → 0 ≤ feed_lifetime_sec (ba_options b) < 2 ^ 32 →
  (∀ a pt f, (a, (pt, f)) ∈ ba_feeds b → 0 ≤ pt ≤ now) → now ≤ t < time_point_sec_maximum →
  update_median_feeds b now maint = Ok b' →
  feed_is_expired b' t = true ↔ ∃ f, f ∈ alive_feeds b now ∧ is_alive b t f = false.
Proof.
  intros Hb Hen Hlife Hpast Ht E. pose proof (update_median_feeds_returns b now maint Hb) as (b1 & E1 & Hu)%returns_Ok.
  rewrite E in E1. injection E1 as <-. destruct Hu as (_ & [Eo _] & _ & Hu & _). rewrite Hen in Hu. destruct Hu as [_ Ep].
  assert (alive_feeds b now ≠ []) as Hne.
  { intros Hnil. unfold enough_feeds in Hen. rewrite Hnil in Hen. destruct Hb as [[? _] _]. propify. simpl in *. lia. }
  assert (∀ f, f ∈ alive_feeds b now → 0 < f.1 ≤ now) as Htimes.
  { intros [pt f] Hf. destruct (alive_published _ _ _ _ Hf) as [a Ha]. apply list_elem_of_filter in Hf as [Hf _].
    unfold is_alive in Hf. propify. specialize (Hpast _ _ _ Ha). simpl in *. lia. }
  destruct (fold_min_spec (map fst (alive_feeds b now)) now) as [Hin Hmin].
  { intros x (f & -> & Hf)%list_elem_of_fmap. by apply Htimes. } { by destruct (alive_feeds b now). }
  rewrite <- Ep in *. apply list_elem_of_fmap in Hin as (f0 & Ef0 & Hf0).
  pose proof (Htimes f0 Hf0). unfold feed_is_expired, feed_expiration_time. rewrite Eo.
  set (pub := current_feed_publication_time b') in *. clearbody pub. set (life := feed_lifetime_sec _) in *.
  assert (feed_lifetime_sec (ba_options b) = life) as El by done. clearbody life.
  assert ((∃ f, f ∈ alive_feeds b now ∧ is_alive b t f = false) ↔ pub + life ≤ t) as ->.
  { unfold is_alive. rewrite El. split.
    - intros (f & Hf & Hd). pose proof (Htimes f Hf). assert (pub ≤ f.1) by (apply Hmin, list_elem_of_fmap; by exists f).
      rewrite (proj2 (Z.eqb_neq _ _)) in Hd by lia. rewrite andb_true_r in Hd. propify. lia.
    - intros. exists f0. split; [done|]. rewrite <- Ef0. rewrite (proj2 (Z.ltb_ge _ _)) by lia. done. }
  unfold time_point_sec_maximum, time_add in *. destruct (Z.leb_spec (2 ^ 32 - 1 - pub) life); rewrite Z.leb_le; [lia|].
  rewrite Z.mod_small by lia. lia.
Qed.
End median.

(** ** Global settlement protection *)

(** The call orders the chain holds: positions of two different assets. *)
Definition calls_ok (calls : call_order_index) : Prop := ∀ id o, calls !! id = Some o → call_order_wf o.

Lemma collateralization_key_wf o : call_order_wf o → price_wf (collateralization_key o).
Proof. intros (? & ? & ? & _). split_and!; simpl; [apply max_supply_is_share; lia..|lia|lia|done]. Qed.

Section first_from.
Context (key : call_order_object → price) (low : price).

Definition pick (best : option (Z * call_order_object)) (c : Z * call_order_object) : option (Z * call_order_object) :=
  if price_ltb (key c.2) low then best
  else match best with Some c' => if call_before key c c' then Some c else best | None => Some c end.

(** The element found so far, and that none of those seen is below it. *)
Definition least_of (l : list (Z * call_order_object)) (best : option (Z * call_order_object)) : Prop :=
  match best with
  | Some m => m ∈ l ∧ price_ltb (key m.2) low = false ∧
      ∀ c, c ∈ l → price_ltb (key c.2) low = false → price_ltb (key c.2) (key m.2) = false
  | None => ∀ c, c ∈ l → price_ltb (key c.2) low = true
  end.

Lemma pick_least l c best :
  (∀ x, x ∈ c :: l → price_or_null (key x.2)) → least_of l best → least_of (c :: l) (pick best c).
Proof.
  intros Hok Hl. assert (price_or_null (key c.2)) as Hc by (apply Hok; by left).
  assert (price_ltb (key c.2) (key c.2) = false) as Hrefl.
  { destruct (price_ltb (key c.2) (key c.2)) eqn:E; [|done]. by rewrite (price_or_null_ltb_asym _ _ Hc Hc E) in E. }
  unfold pick. destruct (price_ltb (key c.2) low) eqn:Ec.
  { destruct best as [m|]; simpl in *.
    - destruct Hl as (? & ? & Hm). split_and!; [by right|done|]. intros x [->|Hx]%elem_of_cons Hxl; [congruence|auto].
    - intros x [->|Hx]%elem_of_cons; auto. }
  destruct best as [m|]; simpl in *.
  - destruct Hl as (Hm & Hml & Hmin). assert (price_or_null (key m.2)) as Hmo by (apply Hok; by right).
    unfold call_before. destruct (price_ltb (key c.2) (key m.2)) eqn:Ecm; simpl.
    { split_and!; [by left|done|]. intros x [->|Hx]%elem_of_cons Hxl; [done|].
      refine (price_leb_trans (key c.2) (key m.2) (key x.2) Hc Hmo _ _ _); [apply Hok; by right|by apply price_or_null_ltb_asym|auto]. }
    destruct (negb (price_ltb (key m.2) (key c.2)) && (c.1 <? m.1)) eqn:E.
    + propify. split_and!; [by left|done|]. intros x [->|Hx]%elem_of_cons Hxl; [done|].
      refine (price_leb_trans (key c.2) (key m.2) (key x.2) Hc Hmo _ _ _); [apply Hok; by right|done|auto].
    + split_and!; [by right|done|]. intros x [->|Hx]%elem_of_cons Hxl; [done|auto].
  - split_and!; [by left|done|]. intros x [->|Hx]%elem_of_cons Hxl; [done|]. by rewrite (Hl x Hx) in Hxl.
Qed.

Lemma fold_least l l' best :
  (∀ x, x ∈ l ++ l' → price_or_null (key x.2)) → least_of l' best → ∃ seen, seen ≡ₚ l ++ l' ∧ least_of seen (fold_left pick l best).
Proof.
  revert l' best. induction l as [|c l IH]; intros l' best Hok Hl; simpl; [by exists l'|].
  destruct (IH (c :: l') (pick best c)) as (seen & Hp & Hs).
  - intros x Hx. apply Hok. set_solver.
  - apply pick_least; [|done]. intros x Hx. apply Hok. set_solver.
  - exists seen. split; [|done]. rewrite Hp. simpl. symmetry. apply Permutation_middle.
Qed.
End first_from.

Lemma price_or_null_cases p : price_or_null p → (price_is_null p = true ∧ p = null_price) ∨ (price_is_null p = false ∧ price_wf p).
Proof.
  intros [Hp| ->]; [right|by left]. split; [|done]. destruct Hp as (_ & _ & _ & _ & Hne).
  unfold price_is_null. destruct (Z.eqb_spec (asset_id (base p)) core_asset_id), (Z.eqb_spec (asset_id (quote p)) core_asset_id);
    simpl; congruence.
Qed.

Lemma price_eqb_spec a b : price_or_null a → price_or_null b → price_eqb a b = true →
  asset_id (base a) = asset_id (base b) ∧ asset_id (quote a) = asset_id (quote b) ∧
  amount (base a) * amount (quote b) = amount (base b) * amount (quote a).
Proof.
  intros Ha Hb He.
  assert (asset_id (base a) = asset_id (base b) ∧ asset_id (quote a) = asset_id (quote b)) as [Eb Eq].
  { unfold price_eqb in He. destruct (negb _) eqn:E; [done|]. by propify. }
  split_and!; [done..|].
  assert (price_ltb a b = false ∧ price_ltb b a = false) as [H1 H2].
  { unfold price_eqb, price_ltb in *. rewrite Eb, Eq in *. rewrite !Z.eqb_refl in He. rewrite !Z.ltb_irrefl. simpl in He.
    apply Z.eqb_eq in He. rewrite He. split; apply Z.ltb_irrefl. }
  apply not_true_iff_false in H1, H2. rewrite price_ltb_spec in H1, H2 by done. lia.
Qed.

(** The positions of the asset, whose collateral is the backing asset. *)
Definition position_of (b : asset_bitasset_data_object) (calls : call_order_index) (id : Z) (o : call_order_object) : Prop :=
  calls !! id = Some o ∧ debt_type o = ba_asset_id b ∧ collateral_type o = short_backing_asset (ba_options b).

(** The position found has the least collateral per debt. *)
Lemma find_least_returns calls b mt :
  calls_ok calls → short_backing_asset (ba_options b) ≠ ba_asset_id b →
  returns (find_least_collateralized_short calls mt b true) (λ r,
    (∀ id m, r = Some (id, m) → calls !! id = Some m ∧ debt_type m = ba_asset_id b) ∧
    ∀ id o, position_of b calls id o → ∃ id' m, r = Some (id', m) ∧ position_of b calls id' m ∧
      collateral m * debt o ≤ collateral o * debt m).
Proof.
  intros Hcalls Hne. unfold find_least_collateralized_short, price_min, make_price. cbn [asset_id].
  rewrite (proj2 (Z.eqb_neq _ _) Hne). cbn [negb FC_ASSERT mbind result_bind returns orb].
  set (low := Price _ _). assert (price_wf low) as Hlow by (split_and!; (done || lia)).
  destruct (fold_least collateralization_key low (map_to_list calls) [] None) as (seen & Hp & Hs).
  { rewrite app_nil_r. intros [id o] Ho%elem_of_map_to_list. left. by eapply collateralization_key_wf, Hcalls. }
  { simpl. set_solver. }
  rewrite app_nil_r in Hp. change (fold_left (pick collateralization_key low) (map_to_list calls) None)
    with (first_from collateralization_key low calls) in Hs.
  set (r := first_from _ _ _) in *. clearbody r. split.
  { intros id m E. destruct r as [[id' m']|]; [|done]. destruct (negb _) eqn:Ed; [done|]. injection E as -> ->. propify.
    destruct Hs as [Hin _]. rewrite Hp in Hin. apply elem_of_map_to_list in Hin. done. }
  intros id o (Ho & Ed & Ec). pose proof (Hcalls _ _ Ho) as (HC & HD & Hne' & _).
  pose proof (collateralization_key_wf o (Hcalls _ _ Ho)) as Hko.
  assert (price_ltb (collateralization_key o) low = false) as Hol.
  { apply not_true_iff_false. rewrite price_ltb_spec by (by left). unfold low. simpl. rewrite Ed, Ec. nia. }
  assert ((id, o) ∈ seen) as Hseen by (rewrite Hp; by apply elem_of_map_to_list).
  destruct r as [[id' m]|]; simpl in Hs; [|specialize (Hs _ Hseen); simpl in Hs; congruence].
  destruct Hs as (Hin & Hml & Hmin). rewrite Hp in Hin. apply elem_of_map_to_list in Hin. specialize (Hmin _ Hseen Hol). simpl in *.
  pose proof (collateralization_key_wf m (Hcalls _ _ Hin)) as Hkm.
  apply not_true_iff_false in Hml, Hmin. rewrite price_ltb_spec in Hml, Hmin by (by left).
  unfold low in Hml. simpl in Hml, Hmin.
  assert (debt_type m = ba_asset_id b ∧ collateral_type m = short_backing_asset (ba_options b)) as [Edm Ecm] by lia.
  exists id', m. rewrite Edm, Z.eqb_refl. split_and!; [done..|lia].
Qed.

(** The position can buy its debt back at the price, squeezed by the ratio, with its collateral. *)
Definition can_pay (p : price) (mssr : Z) (o : call_order_object) : Prop :=
  amount (quote p) * (debt o * mssr) ≤ amount (base p) * (collateral o * GRAPHENE_COLLATERAL_RATIO_DENOM).

(** Positions small enough for their squeezed price to be exact. *)
Definition exactly_priced (mssr : Z) (o : call_order_object) : Prop :=
  debt o * mssr ≤ GRAPHENE_MAX_SHARE_SUPPLY ∧ collateral o * GRAPHENE_COLLATERAL_RATIO_DENOM ≤ GRAPHENE_MAX_SHARE_SUPPLY.

Definition price_of (b : asset_bitasset_data_object) (p : price) : Prop :=
  asset_id (base p) = ba_asset_id b ∧ asset_id (quote p) = short_backing_asset (ba_options b).

Lemma can_pay_mono p q mssr o : price_wf p → price_wf q → call_order_wf o → 0 < mssr →
  amount (base q) * amount (quote p) ≤ amount (base p) * amount (quote q) → can_pay q mssr o → can_pay p mssr o.
Proof.
  intros (_ & _ & ? & ? & _) (_ & _ & ? & ? & _) (? & ? & _) Hm Hpq. unfold can_pay, GRAPHENE_COLLATERAL_RATIO_DENOM. intros Hq.
  set (d := debt o * mssr) in *. set (c := collateral o * 1000) in *. assert (0 ≤ d ∧ 0 ≤ c) as [? ?] by nia. clearbody d c.
  apply (Z.mul_le_mono_pos_l _ _ (amount (quote q))); [done|]. nia.
Qed.

Lemma can_pay_better p mssr m o : price_wf p → call_order_wf m → call_order_wf o → 0 < mssr →
  collateral m * debt o ≤ collateral o * debt m → can_pay p mssr m → can_pay p mssr o.
Proof.
  intros (_ & _ & ? & ? & _) (? & ? & _) (? & ? & _) Hs Hmo. unfold can_pay, GRAPHENE_COLLATERAL_RATIO_DENOM. intros Hm.
  apply (Z.mul_le_mono_pos_l _ _ (debt m)); [lia|].
  assert (amount (quote p) * (debt m * mssr) * debt o ≤ amount (base p) * (collateral m * 1000) * debt o) by nia. nia.
Qed.

(** The lowest price at which a position is callable is one it can pay at. *)
Lemma lowest_callable_returns b mssr m : call_order_wf m → exactly_priced mssr m → ratio_ok mssr →
  debt_type m = ba_asset_id b → collateral_type m = short_backing_asset (ba_options b) →
  returns (l ← collateralization m; price_div_ratio (price_flip l) GRAPHENE_COLLATERAL_RATIO_DENOM mssr)
    (λ q, price_wf q ∧ price_of b q ∧ can_pay q mssr m).
Proof.
  intros Hm [Hd Hc] [Hr _] Ed Ec. pose proof Hm as (? & ? & Hne & _).
  unfold collateralization, make_price. cbn [asset_id get_collateral get_debt]. rewrite (proj2 (Z.eqb_neq _ _) Hne).
  cbn [negb FC_ASSERT mbind result_bind]. unfold price_div_ratio.
  destruct (price_mul_ratio_exact (price_flip (collateralization_key m)) mssr GRAPHENE_COLLATERAL_RATIO_DENOM)
    as (q & Eq & Hq & Eb & Equ & Ex); [by apply flip_wf, collateralization_key_wf|done|done|done|done|].
  unfold collateralization_key in Eq. rewrite Eq. simpl in *. unfold price_of, can_pay. rewrite Eb, Equ. split; [done|]. split; [done|]. lia.
Qed.

Lemma std_max_pays b mssr a q m :
  price_wf a → price_of b a → price_wf q → price_of b q → call_order_wf m → 0 < mssr → can_pay q mssr m →
  price_wf (std_max a q) ∧ price_of b (std_max a q) ∧ can_pay (std_max a q) mssr m ∧ price_ltb (std_max a q) a = false.
Proof.
  intros Ha [Eab Eaq] Hq [Eqb Eqq] Hm Hr Hpay. unfold std_max. destruct (price_ltb a q) eqn:E.
  - split_and!; try done. apply price_or_null_ltb_asym; [by left..|done].
  - apply not_true_iff_false in E as E'. rewrite price_ltb_spec in E' by (by left). split_and!; try done.
    + eapply can_pay_mono; [done|apply Hq|done|done| |done]. lia.
    + apply not_true_iff_false. rewrite price_ltb_spec by (by left). lia.
Qed.

(** The price derived under [no_settlement] lets every position pay, and is not below the median. *)
Lemma derived_price_returns calls b :
  bsrm b = no_settlement → calls_ok calls → short_backing_asset (ba_options b) ≠ ba_asset_id b →
  price_wf (settlement_price (median_feed b)) → price_of b (settlement_price (median_feed b)) →
  ratio_ok (maximum_short_squeeze_ratio (current_feed b)) →
  settlement_price (current_feed b) = settlement_price (median_feed b) →
  (∀ id o, position_of b calls id o → exactly_priced (maximum_short_squeeze_ratio (current_feed b)) o) →
  (∀ id o, calls !! id = Some o → debt_type o = ba_asset_id b → collateral_type o = short_backing_asset (ba_options b)) →
  returns (get_derived_current_feed_price calls b) (λ r,
    let p := default (settlement_price (median_feed b)) r in
    price_wf p ∧ price_ltb p (settlement_price (median_feed b)) = false ∧
    ∀ id o, position_of b calls id o → can_pay p (maximum_short_squeeze_ratio (current_feed b)) o).
Proof.
  intros Hbs Hcalls Hne Hmw Hmo Hr Ecur Hex Hback. unfold get_derived_current_feed_price. rewrite Hbs, Ecur.
  destruct (price_or_null_cases (settlement_price (median_feed b)) ltac:(by left)) as [[_ E]|[-> _]].
  { rewrite E in Hmw. destruct Hmw as (_ & _ & ? & _). simpl in *. lia. }
  set (mp := settlement_price (median_feed b)) in *. set (mssr := maximum_short_squeeze_ratio _) in *.
  assert (0 < mssr) as Hpos by apply Hr.
  assert (price_ltb mp mp = false) as Hrefl.
  { destruct (price_ltb mp mp) eqn:E; [|done]. by rewrite (price_or_null_ltb_asym mp mp ltac:(by left) ltac:(by left) E) in E. }
  apply returns_bind. eapply (returns_mono _ (λ p, price_wf p ∧ price_of b p ∧ price_ltb p mp = false ∧
    ∀ id o, position_of b calls id o → can_pay p mssr o)).
  2: { intros p (Hp & _ & Hpm & Hall). destruct (price_eqb p mp) eqn:E; simpl; [|done].
       apply price_eqb_spec in E as (_ & _ & E); [|by left..]. split_and!; [done..|].
       intros id o Ho. eapply can_pay_mono; [done|exact Hp|apply (Hcalls id), Ho|done| |by apply (Hall id)]. lia. }
  apply returns_bind. eapply returns_mono; [by apply find_least_returns|]. intros [[id m]|] [Hm Hleast].
  - destruct (Hm id m eq_refl) as [Hin Hd]. pose proof (Hback id m Hin Hd) as Hc. simpl.
    pose proof (lowest_callable_returns b mssr m (Hcalls _ _ Hin) (Hex id m (conj Hin (conj Hd Hc))) Hr Hd Hc) as Hlow.
    destruct (collateralization m) as [l|]; [|done]. simpl in *. apply returns_bind. eapply returns_mono; [exact Hlow|].
    intros q (Hq & Hqo & Hpay). destruct (std_max_pays b mssr mp q m) as (Hw & Ho & Hp & Hge); [done..|by apply (Hcalls id)|done|done|].
    refine (conj Hw (conj Ho (conj Hge _))). intros id' o Hpos'. destruct (Hleast id' o Hpos') as (i2 & m2 & [= -> ->] & _ & Hle).
    eapply can_pay_better; [done|by apply (Hcalls i2)|apply (Hcalls id'), Hpos'|done|done|done].
  - refine (conj Hmw (conj Hmo (conj Hrefl _))). intros id o Ho. by destruct (Hleast id o Ho) as (? & ? & ? & _).
Qed.

(** The collateral of the positions of the asset is its backing asset, and amounts are small enough
    for any 16-bit ratio of them to be exact. *)
Definition positions_ok (b : asset_bitasset_data_object) (calls : call_order_index) : Prop :=
  calls_ok calls ∧ short_backing_asset (ba_options b) ≠ ba_asset_id b ∧
  ∀ id o, calls !! id = Some o → debt_type o = ba_asset_id b →
    collateral_type o = short_backing_asset (ba_options b) ∧
    debt o * 2 ^ 16 ≤ GRAPHENE_MAX_SHARE_SUPPLY ∧ collateral o * GRAPHENE_COLLATERAL_RATIO_DENOM ≤ GRAPHENE_MAX_SHARE_SUPPLY.

Lemma positions_exact b calls mssr id o :
  positions_ok b calls → ratio_ok mssr → position_of b calls id o → exactly_priced mssr o.
Proof.
  intros (Hc & _ & Hp) [? ?] (Ho & Ed & _). destruct (Hp id o Ho Ed) as (_ & ? & ?). destruct (Hc id o Ho) as (_ & ? & _).
  split; [nia|done].
Qed.

Section protection.
Context `{NthElement price_feed_with_icr}.

Lemma median_price_of b b' now maint :
  medians_updated b b' now maint →
  (∀ a t f, (a, (t, f)) ∈ ba_feeds b → settlement_price f = null_price ∨ price_of b (settlement_price f)) →
  settlement_price (median_feed b') = null_price ∨
  (price_wf (settlement_price (median_feed b')) ∧ price_of b' (settlement_price (median_feed b'))).
Proof.
  intros (Hf & [Eo Ea] & _ & Hm & _) Hfor. destruct (enough_feeds b now); [|destruct Hm as [-> _]; by left].
  destruct Hm as [(f & ([t f'] & -> & Hin)%list_elem_of_fmap & Ep & _) _]. destruct (alive_published _ _ _ _ Hin) as [a Ha].
  simpl in Ep. rewrite Ep. destruct (Hfor _ _ _ Ha) as [|[? ?]]; [by left|].
  destruct Hf as [[Hw|Hn] _]; rewrite Ep in *; [|by left]. right. split; [done|]. unfold price_of. rewrite Eo, Ea. done.
Qed.

(** C30: global settlement protection, for positions whose ratios are exact. Take a well-formed
    asset with the black swan response no_settlement, whose feeds are null or prices of its market,
    and suppose that all debt positions are well formed and that those of the asset have the backing
    asset as collateral, a debt of at most 10^15 / 2^16 and a collateral of at most 10^15 / 1000 (so
    that no price computed from them is rounded; larger positions are not covered). Then the update
    of the current feed returns; the price in force, if there is one, is not below the median, and
    every debt position of the asset can buy its debt back at that price squeezed by the maximum
    short squeeze ratio. *)
Theorem protected_positions_can_pay calls b head maint :
  bitasset_ok b → bsrm b = no_settlement → positions_ok b calls →
  (∀ a t f, (a, (t, f)) ∈ ba_feeds b → settlement_price f = null_price ∨ price_of b (settlement_price f)) →
  ∃ b', update_bitasset_current_feed calls head maint b false = Ok b' ∧
    let p := settlement_price (current_feed b') in
    p = null_price ∨ (price_leb (settlement_price (median_feed b')) p = true ∧
      ∀ id o, position_of b calls id o → can_pay p (maximum_short_squeeze_ratio (current_feed b')) o).
Proof.
  intros Hb Hbs Hpos Hfor. pose proof (update_median_feeds_returns b head maint Hb) as (b1 & E1 & Hu)%returns_Ok.
  pose proof (median_price_of _ _ _ _ Hu Hfor) as Hmp. destruct Hu as (Hf & [Eo Ea] & _ & _ & _).
  unfold update_bitasset_current_feed. rewrite E1. cbn [mbind result_bind].
  set (b2 := set_current_feed b1 (median_feed b1)).
  assert (bsrm b2 = no_settlement) as Hbs2 by (rewrite <- Hbs; unfold bsrm; simpl; by rewrite Eo).
  rewrite Hbs2. cbn [caps_price].
  assert (∀ id o, position_of b2 calls id o ↔ position_of b calls id o) as Hpo by (intros; unfold position_of; simpl; by rewrite Eo, Ea).
  destruct Hmp as [Hnull|[Hw Hof]].
  { unfold get_derived_current_feed_price. simpl. rewrite Hnull. simpl. exists b2. split; [done|]. left. by simpl. }
  pose proof Hpos as (Hcalls & Hne & Hback).
  pose proof (derived_price_returns calls b2) as Hd. apply returns_Ok in Hd as (r & -> & Hpw & Hge & Hall); try done.
  - simpl. eexists. split; [done|]. right. destruct r as [p|]; simpl in *.
    + unfold price_leb, settlement_price in *. simpl in *. rewrite Hge. split; [done|]. intros id o Ho. by apply (Hall id), Hpo.
    + unfold price_leb. rewrite Hge. split; [done|]. intros id o Ho. by apply (Hall id), Hpo.
  - simpl. by rewrite Eo, Ea.
  - apply Hf.
  - simpl. intros id o Ho. apply (positions_exact b calls _ id); [done|apply Hf|by apply Hpo].
  - simpl. rewrite Eo, Ea. intros id o Ho Ed. by apply (Hback id o).
Qed.
End protection.

(** ** A sample asset

    Asset 1, backed by the core asset, has three feeds, one of them far from the others, and a position with
    as much collateral as debt. *)
Definition sample_feed (debt coll : Z) : price_feed_with_icr :=
  make_feed_with_icr (PriceFeed (Price (Asset debt 1) (Asset coll 0)) null_price 1750 1500) None.

Definition sample_bitasset_options : bitasset_options :=
  BitassetOptions 3600 2 86400 0 2000 0 None None (Some 1400) None None (Some 1).

Definition sample_bitasset : asset_bitasset_data_object :=
  Bitasset 1 sample_bitasset_options
    [(10, (1600000100, sample_feed 10 11)); (11, (1600000200, sample_feed 500 1)); (12, (1600000300, sample_feed 12 11))]
    default_feed_with_icr default_feed_with_icr 0 null_price null_price false 0 null_price 0 0 0 false false.

Lemma sample_bitasset_ok : bitasset_ok sample_bitasset.
Proof.
  split; [split_and!; (done || by intros r [= <-])|]. intros a t f. simpl. rewrite !elem_of_cons, elem_of_nil.
  assert (∀ d c, 0 < d < 1000 → 0 < c < 1000 → feed_ok (sample_feed d c)) as Hs.
  { intros d c ? ?. split; [left|by split; [right|]]. split_and!; simpl; (done || apply max_supply_is_share || lia);
    unfold GRAPHENE_MAX_SHARE_SUPPLY; lia. }
  intros [[= -> -> ->]|[[= -> -> ->]|[[= -> -> ->]|[]]]]; by apply Hs.
Qed.

Lemma median_stays_with_majority_witness :
  ∃ b', update_median_feeds sample_bitasset 1600001000 1600009000 = Ok b' ∧
    price_in_range (Price (Asset 10 1) (Asset 12 0)) (Price (Asset 12 1) (Asset 10 0)) (median_feed b') = true.
Proof.
  apply (median_stays_with_majority sample_bitasset 1600001000 1600009000); [apply sample_bitasset_ok|done|by left|by left|].
  unfold majority. vm_compute. lia.
Defined.

Lemma feed_expires_with_oldest_witness :
  ∃ b', update_median_feeds sample_bitasset 1600001000 1600009000 = Ok b' ∧
    (feed_is_expired b' 1600003700 = true ↔ ∃ f, f ∈ alive_feeds sample_bitasset 1600001000 ∧ is_alive sample_bitasset 1600003700 f = false).
Proof.
  eexists. split; [vm_compute; reflexivity|].
  apply (feed_expires_with_oldest sample_bitasset _ 1600001000 1600009000); [apply sample_bitasset_ok|done|done| |done|reflexivity].
  intros a t f. simpl. rewrite !elem_of_cons, elem_of_nil. intros [[= -> -> ->]|[[= -> -> ->]|[[= -> -> ->]|[]]]]; lia.
Defined.

Definition sample_calls : call_order_index :=
  {[ 5 := CallOrderObject 7 1000 1000 (Price (Asset 1 0) (Asset 1 1)) None;
     6 := CallOrderObject 8 5000 1000 (Price (Asset 1 0) (Asset 1 1)) None ]}.

Lemma protected_positions_can_pay_witness :
  ∃ b', update_bitasset_current_feed sample_calls 1600001000 1600009000 sample_bitasset false = Ok b' ∧
    let p := settlement_price (current_feed b') in
    p = null_price ∨ (price_leb (settlement_price (median_feed b')) p = true ∧
      ∀ id o, position_of sample_bitasset sample_calls id o → can_pay p (maximum_short_squeeze_ratio (current_feed b')) o).
Proof.
  apply (protected_positions_can_pay sample_calls sample_bitasset 1600001000 1600009000); [apply sample_bitasset_ok|done| |].
  - assert (∀ id o, sample_calls !! id = Some o → call_order_wf o ∧ collateral_type o = 0 ∧
      debt o * 2 ^ 16 ≤ GRAPHENE_MAX_SHARE_SUPPLY ∧ collateral o * GRAPHENE_COLLATERAL_RATIO_DENOM ≤ GRAPHENE_MAX_SHARE_SUPPLY) as Hs.
    { unfold sample_calls. intros id o [[_ <-]|[_ [_ <-]%lookup_singleton_Some]]%lookup_insert_Some; split_and!; done. }
    split; [intros id o Ho; apply (Hs id o Ho)|]. split; [done|]. intros id o Ho _. apply (Hs id o Ho).
  - intros a t f. simpl. rewrite !elem_of_cons, elem_of_nil. intros [[= -> -> ->]|[[= -> -> ->]|[[= -> -> ->]|[]]]]; by right.
Defined.

(** With the price capped, the cached maintenance collateralization is that of the median feed, not that
    of the feed in force. *)
Theorem cached_collateralization_is_of_median :
  match update_bitasset_current_feed sample_calls 1600001000 1600009000 sample_bitasset false with
  | Ok b' => is_current_feed_price_capped b' = true ∧
      maintenance_collateralization (feed (median_feed b')) = Ok (current_maintenance_collateralization b') ∧
      maintenance_collateralization (feed (current_feed b')) = Ok (Price (Asset 5 0) (Asset 4 1)) ∧
      current_maintenance_collateralization b' = Price (Asset 77 0) (Asset 48 1)
  | Err _ => False
  end.
Proof. vm_compute. done. Qed.

(** The volume that may be force-settled in an interval is the stated share of the supply before it. *)
Theorem max_force_settlement_volume_exact b supply :
  0 ≤ supply ≤ GRAPHENE_MAX_SHARE_SUPPLY → 0 ≤ force_settled_volume b ≤ GRAPHENE_MAX_SHARE_SUPPLY →
  0 ≤ maximum_force_settlement_volume (ba_options b) ≤ GRAPHENE_100_PERCENT →
  max_force_settlement_volume b supply =
    Ok ((supply + force_settled_volume b) * maximum_force_settlement_volume (ba_options b) / GRAPHENE_100_PERCENT).
Proof.
  unfold GRAPHENE_MAX_SHARE_SUPPLY. intros Hs Hf Hm. unfold max_force_settlement_volume.
  set (m := maximum_force_settlement_volume _) in *. clearbody m. set (f := force_settled_volume b) in *. clearbody f.
  destruct (Z.eqb_spec 0 m) as [<-|Hm0]; [by rewrite Z.mul_0_r|].
  destruct (Z.eqb_spec GRAPHENE_100_PERCENT m) as [<-|Hm1].
  { rewrite Z.div_mul by done. apply share_add_ok; unfold is_share, INT64_MIN, INT64_MAX; lia. }
  unfold GRAPHENE_100_PERCENT in *. unfold u128_mul, u128_add, u128_div. assert (2 * 10 ^ 19 < UINT128_MOD) by done.
  rewrite (u128_small supply), (u128_small f), (u128_small (supply + f)), u128_small by nia.
  assert (0 ≤ (supply + f) * m / 10000 ≤ supply + f) by (split; [apply Z.div_pos; nia|apply Z.div_le_upper_bound; nia]).
  rewrite to_uint64_small by lia. apply share_check_ok. unfold is_share, INT64_MIN, INT64_MAX. lia.
Qed.
