(* ===== verification/AmountString.v ===== *)
(** * Amounts as text

    [asset_object::amount_to_string] and [asset_object::amount_from_string] of
    libraries/chain/asset_object.cpp: amounts are written with as many decimals as the precision of
    the asset has.  Strings are lists of characters. *)
From Stdlib Require Import Ascii String.
From S2P Require Import Prelude MachineInt Hardfork Asset.

Notation chars := (list ascii) (only parsing).

Definition minus : ascii := "-"%char.
Definition point : ascii := "."%char.

(** ** The standard library's conversions *)

Definition isdigit (c : ascii) : bool := let n := Z.of_nat (nat_of_ascii c) in (48 <=? n) && (n <=? 57).
Definition digit_value (c : ascii) : Z := Z.of_nat (nat_of_ascii c) - 48.
Definition digit_char (d : Z) : ascii := ascii_of_nat (Z.to_nat (48 + d)).

(** The digits of a number below 10^(fuel+1), in front of [acc]. *)
Fixpoint digits (fuel : nat) (n : Z) (acc : chars) : chars :=
  if n <? 10 then digit_char n :: acc
  else match fuel with
       | O => acc
       | S fuel => digits fuel (n / 10) (digit_char (n mod 10) :: acc)
       end.

(** [fc::to_string( int64_t )]: 64-bit numbers have at most 19 digits. *)
Definition to_string (v : Z) : chars := if v <? 0 then minus :: digits 18 (- v) [] else digits 18 v [].

(** The number that the leading digits of [s] stand for, after [acc]. *)
Fixpoint parse_digits (acc : Z) (s : chars) : Z :=
  match s with
  | c :: s' => if isdigit c then parse_digits (acc * 10 + digit_value c) s' else acc
  | [] => acc
  end.

(** [std::stoll] on strings of digits, minus signs and points: it reads a sign and digits, ignores what
    follows, and throws if there are no digits or the number does not fit. *)
Definition stoll (s : chars) : result Z :=
  let '(negative, s) := match s with
                        | c :: s' => if Ascii.eqb c minus then (true, s') else (false, s)
                        | [] => (false, [])
                        end in
  match s with
  | c :: _ =>
    if isdigit c then
      let v := parse_digits 0 s in
      let v := if (negative : bool) then - v else v in
      if (INT64_MIN <=? v) && (v <=? INT64_MAX) then Ok v else Err (fc_throw "std::out_of_range")
    else Err (fc_throw "std::invalid_argument")
  | [] => Err (fc_throw "std::invalid_argument")
  end.

(** [s.find( c )]; [None] is [std::string::npos]. *)
Fixpoint find_char (c : ascii) (s : chars) : option nat :=
  match s with
  | [] => None
  | x :: s' => if Ascii.eqb x c then Some O else S <$> find_char c s'
  end.

(** [s.substr( pos, len )]. *)
Definition substr (s : chars) (pos : nat) (len : option nat) : chars :=
  match len with Some n => take n (drop pos s) | None => drop pos s end.

(** ** Printing and parsing *)

Definition amount_to_string (precision : Z) (amount : share_type) : result chars :=
  scaled_precision ← scaled_precision precision;
  let res := to_string (Z.quot amount scaled_precision) in
  let decimals := Z.abs (Z.rem amount scaled_precision) in
  if negb (decimals =? 0) then
    let res := if (amount <? 0) && bool_decide (res = ["0"%char]) then [minus; "0"%char] else res in
    Ok (res ++ point :: drop 1 (to_string (scaled_precision + decimals)))
  else Ok res.

(** The loop over the characters: at most one minus sign and one point, and digits. *)
Fixpoint scan (s : chars) (negative_found decimal_found : bool) : result (bool * bool) :=
  match s with
  | [] => Ok (negative_found, decimal_found)
  | c :: s' =>
    if isdigit c then scan s' negative_found decimal_found
    else if Ascii.eqb c minus && negb negative_found then scan s' true decimal_found
    else if Ascii.eqb c point && negb decimal_found then scan s' negative_found true
    else Err (fc_throw "amount_string")
  end.

Definition amount_from_string (precision : Z) (amount_string : chars) : result share_type :=
  '(negative_found, decimal_found) ← scan amount_string false false;
  scaled_precision ← scaled_precision precision;
  let decimal_pos := find_char point amount_string in
  let lhs := substr amount_string (Nat.b2n negative_found) decimal_pos in
  satoshis ← (match lhs with
              | [] => Ok 0
              | _ => v ← stoll lhs; v ← share_mul v scaled_precision; share_add 0 v
              end);
  satoshis ← (if (decimal_found : bool) then
                let max_rhs_size := length (drop 1 (to_string scaled_precision)) in
                let rhs := substr amount_string (S (default O decimal_pos)) None in
                FC_ASSERT (bool_decide (length rhs ≤ max_rhs_size)%nat) "rhs.size() <= max_rhs_size";;
                let rhs := rhs ++ replicate (max_rhs_size - length rhs) "0"%char in
                match rhs with
                | [] => Ok satoshis
                | _ => v ← stoll rhs; share_add satoshis v
                end
              else Ok satoshis);
  FC_ASSERT (satoshis <=? GRAPHENE_MAX_SHARE_SUPPLY) "satoshis <= GRAPHENE_MAX_SHARE_SUPPLY";;
  if (negative_found : bool) then share_mul satoshis (-1) else Ok satoshis.

(** ** Digits *)

Lemma digit_char_spec d : 0 ≤ d < 10 → isdigit (digit_char d) = true ∧ digit_value (digit_char d) = d.
Proof.
  intros. assert (d = 0 ∨ d = 1 ∨ d = 2 ∨ d = 3 ∨ d = 4 ∨ d = 5 ∨ d = 6 ∨ d = 7 ∨ d = 8 ∨ d = 9) as Hd by lia.
  repeat destruct Hd as [->|Hd]; try subst; done.
Qed.

Definition all_digits (s : chars) : Prop := Forall (λ c, isdigit c = true) s.

(** Exactly [p] digits, with leading zeros. *)
Fixpoint padded (p : nat) (r : Z) (acc : chars) : chars :=
  match p with O => acc | S p => padded p (r / 10) (digit_char (r mod 10) :: acc) end.

Lemma mod10_digit n : 0 ≤ n mod 10 < 10.
Proof. by apply Z.mod_pos_bound. Qed.

Lemma digits_all f n acc : 0 ≤ n → all_digits acc → all_digits (digits f n acc).
Proof.
  revert n acc. induction f as [|f IH]; intros n acc Hn Ha; simpl; destruct (Z.ltb_spec n 10); try done.
  - constructor; [by apply digit_char_spec|done].
  - constructor; [by apply digit_char_spec|done].
  - apply IH; [by apply Z.div_pos|]. constructor; [apply digit_char_spec, mod10_digit|done].
Qed.

Lemma digits_nonempty f n acc : n < 10 ^ Z.of_nat (S f) → 0 ≤ n → digits f n acc ≠ [].
Proof.
  revert n acc. induction f as [|f IH]; intros n acc Hf Hn; simpl; destruct (Z.ltb_spec n 10); try done; [lia|].
  apply IH; [|by apply Z.div_pos]. rewrite Nat2Z.inj_succ, Z.pow_succ_r in Hf by lia. apply Z.div_lt_upper_bound; lia.
Qed.

Lemma parse_digits_of f n acc : 0 ≤ n < 10 ^ Z.of_nat (S f) → parse_digits 0 (digits f n acc) = parse_digits n acc.
Proof.
  revert n acc. induction f as [|f IH]; intros n acc Hn; simpl digits; destruct (Z.ltb_spec n 10) as [Hs|Hs]; try (simpl in Hn; lia).
  - destruct (digit_char_spec n) as [Hd Hv]; [lia|]. simpl. by rewrite Hd, Hv.
  - destruct (digit_char_spec n) as [Hd Hv]; [lia|]. simpl. by rewrite Hd, Hv.
  - rewrite Nat2Z.inj_succ, Z.pow_succ_r in Hn by lia.
    rewrite IH by (split; [apply Z.div_pos; lia|apply Z.div_lt_upper_bound; lia]).
    destruct (digit_char_spec (n mod 10) (mod10_digit n)) as [Hd Hv]. simpl. rewrite Hd, Hv. f_equal.
    pose proof (Z.div_mod n 10). lia.
Qed.

Lemma padded_length p r acc : length (padded p r acc) = (p + length acc)%nat.
Proof. revert r acc. induction p as [|p IH]; intros; simpl; [done|]. rewrite IH. simpl. lia. Qed.

Lemma padded_all p r acc : all_digits acc → all_digits (padded p r acc).
Proof.
  revert r acc. induction p as [|p IH]; intros; simpl; [done|]. apply IH. constructor; [apply digit_char_spec, mod10_digit|done].
Qed.

Lemma parse_padded p r acc a : 0 ≤ r < 10 ^ Z.of_nat p → parse_digits a (padded p r acc) = parse_digits (a * 10 ^ Z.of_nat p + r) acc.
Proof.
  revert r acc. induction p as [|p IH]; intros r acc Hr; simpl padded.
  - simpl in *. f_equal. lia.
  - rewrite Nat2Z.inj_succ, Z.pow_succ_r in * by lia.
    rewrite IH by (split; [apply Z.div_pos; lia|apply Z.div_lt_upper_bound; lia]).
    destruct (digit_char_spec (r mod 10) (mod10_digit r)) as [Hd Hv]. simpl. rewrite Hd, Hv. f_equal.
    pose proof (Z.div_mod r 10). lia.
Qed.

(** A one in front keeps the zeros. *)
Lemma digits_of_scaled f p r acc :
  (p ≤ f)%nat → 0 ≤ r < 10 ^ Z.of_nat p → digits f (10 ^ Z.of_nat p + r) acc = "1"%char :: padded p r acc.
Proof.
  revert f r acc. induction p as [|p IH]; intros f r acc Hf Hr.
  { simpl in Hr. replace r with 0 by lia. by destruct f. }
  destruct f as [|f]; [lia|]. simpl padded. rewrite Nat2Z.inj_succ, Z.pow_succ_r in * by lia.
  assert (0 < 10 ^ Z.of_nat p) by (apply Z.pow_pos_nonneg; lia). cbn [digits].
  rewrite (proj2 (Z.ltb_ge _ _)) by lia. set (t := 10 ^ Z.of_nat p) in *.
  replace (10 * t + r) with (r + t * 10) by lia. rewrite Z.div_add, Z.mod_add by lia. rewrite Z.add_comm.
  apply IH; [lia|]. split; [apply Z.div_pos; lia|apply Z.div_lt_upper_bound; lia].
Qed.

(** ** Strings of digits *)

Lemma digits_app f n acc : digits f n acc = digits f n [] ++ acc.
Proof.
  assert (∀ f n acc acc', digits f n (acc ++ acc') = digits f n acc ++ acc') as H; [|apply (H f n [])].
  clear. induction f as [|f IH]; intros n acc acc'; simpl; destruct (n <? 10); try done. apply (IH _ (_ :: _)).
Qed.

Lemma digit_not_sign c : isdigit c = true → Ascii.eqb c minus = false ∧ Ascii.eqb c point = false.
Proof. intros Hc. split; apply Ascii.eqb_neq; intros ->; done. Qed.

Lemma scan_digits d s n f : all_digits d → scan (d ++ s) n f = scan s n f.
Proof. induction 1 as [|c d Hc _ IH]; [done|]. simpl. by rewrite Hc. Qed.

Lemma find_after_digits d s : all_digits d → find_char point (d ++ s) = Nat.add (length d) <$> find_char point s.
Proof.
  induction 1 as [|c d Hc _ IH]; simpl; [by destruct (find_char point s)|].
  destruct (digit_not_sign c Hc) as [_ ->]. rewrite IH. by destruct (find_char point s).
Qed.

(** [stoll] reads the digits in front of a point or the end. *)
Lemma stoll_digits d s v :
  all_digits d → d ≠ [] → parse_digits 0 (d ++ s) = v → 0 ≤ v ≤ INT64_MAX → stoll (d ++ s) = Ok v.
Proof.
  intros Hd Hne Hv Hr. destruct d as [|c d]; [done|]. inversion Hd as [|? ? Hc _]; subst. unfold stoll.
  cbn [app] in *. destruct (digit_not_sign c Hc) as [-> _]. rewrite Hc.
  rewrite !(proj2 (Z.leb_le _ _)); [done|lia|]. unfold INT64_MIN. lia.
Qed.

#[local] Arguments digits : simpl never.

Section roundtrip.
Context (precision : Z) (Hprec : 0 ≤ precision < 19).
Notation p := (Z.to_nat precision).
Notation scaled := (10 ^ Z.of_nat p).

Lemma scaled_eq : scaled_precision precision = Ok scaled.
Proof. unfold scaled_precision. rewrite (proj2 (Z.ltb_lt _ _)) by lia. simpl. by rewrite Z2Nat.id by lia. Qed.

Lemma scaled_bounds : 1 ≤ scaled ≤ 10 ^ 18.
Proof.
  rewrite Z2Nat.id by lia. split; [|apply Z.pow_le_mono_r; lia].
  assert (0 < 10 ^ precision) by (apply Z.pow_pos_nonneg; lia). lia.
Qed.

Lemma to_string_scaled r : 0 ≤ r < scaled → to_string (scaled + r) = "1"%char :: padded p r [].
Proof.
  intros Hr. pose proof scaled_bounds. unfold to_string. rewrite (proj2 (Z.ltb_ge _ _)) by lia. apply digits_of_scaled; lia.
Qed.

(** What is printed: a sign, the whole units, and the fraction if there is one. *)
Definition printed (neg : bool) (w r : Z) : chars :=
  (if neg then [minus] else []) ++ digits 18 w [] ++ (if r =? 0 then [] else point :: padded p r []).

Lemma amount_to_string_printed v : - GRAPHENE_MAX_SHARE_SUPPLY ≤ v ≤ GRAPHENE_MAX_SHARE_SUPPLY →
  amount_to_string precision v = Ok (printed (v <? 0) (Z.abs v / scaled) (Z.abs v mod scaled)).
Proof.
  intros Hv. pose proof scaled_bounds. unfold amount_to_string. rewrite scaled_eq. cbn [mbind result_bind]. cbv zeta.
  assert (Z.abs (Z.rem v scaled) = Z.abs v mod scaled) as ->.
  { rewrite <- Z.rem_abs, Z.rem_mod_nonneg by lia. f_equal. lia. }
  pose proof (Z.mod_pos_bound (Z.abs v) scaled ltac:(lia)) as Hr. pose proof (Z.div_mod (Z.abs v) scaled ltac:(lia)) as Hdm.
  rewrite to_string_scaled by done. cbn [drop]. unfold printed.
  destruct (Z.ltb_spec v 0) as [Hn|Hn].
  - assert (Z.quot v scaled = - (Z.abs v / scaled)) as ->.
    { rewrite Z.abs_neq by lia. replace v with (- - v) at 1 by lia. rewrite Z.quot_opp_l, Z.quot_div_nonneg by lia. done. }
    assert (0 ≤ Z.abs v / scaled) as Hw by (apply Z.div_pos; lia). unfold to_string.
    destruct (Z.ltb_spec (- (Z.abs v / scaled)) 0) as [Hl|Hl]; rewrite ?Z.opp_involutive.
    + rewrite bool_decide_false by done. rewrite andb_false_r.
      destruct (Z.eqb_spec (Z.abs v mod scaled) 0); cbn; by rewrite ?app_nil_r.
    + assert (Z.abs v / scaled = 0) as E by lia. rewrite E in *. rewrite (proj2 (Z.eqb_neq _ _)) by lia. done.
  - assert (Z.quot v scaled = Z.abs v / scaled) as -> by (rewrite Z.abs_eq by lia; apply Z.quot_div_nonneg; lia).
    assert (0 ≤ Z.abs v / scaled) as Hw by (apply Z.div_pos; lia). unfold to_string. rewrite (proj2 (Z.ltb_ge _ _)) by done.
    cbn [andb]. destruct (Z.eqb_spec (Z.abs v mod scaled) 0); cbn; by rewrite ?app_nil_r.
Qed.

Section parse.
Context (neg : bool) (w r : Z) (Hw : 0 ≤ w) (Hr : 0 ≤ r < scaled) (Hmax : w * scaled + r ≤ GRAPHENE_MAX_SHARE_SUPPLY).
Notation fraction := (if r =? 0 then [] else point :: padded p r []).

#[local] Lemma w_bound : w < 10 ^ Z.of_nat 19.
Proof. pose proof scaled_bounds. unfold GRAPHENE_MAX_SHARE_SUPPLY in *. change (Z.of_nat 19) with 19. nia. Qed.

Lemma scan_printed : scan (printed neg w r) false false = Ok (neg, negb (r =? 0)).
Proof.
  assert (∀ n, scan (digits 18 w [] ++ fraction) n false = Ok (n, negb (r =? 0))) as H.
  { intros n. rewrite scan_digits by (apply digits_all; [done|constructor]). destruct (r =? 0); [done|]. simpl.
    rewrite <- (app_nil_r (padded p r [])), scan_digits by (apply padded_all; constructor). done. }
  unfold printed. destruct neg; simpl; apply H.
Qed.

Lemma find_printed :
  find_char point (printed neg w r) = if r =? 0 then None else Some (Nat.b2n neg + length (digits 18 w []))%nat.
Proof.
  assert (find_char point (digits 18 w [] ++ fraction) = if r =? 0 then None else Some (length (digits 18 w []))) as H.
  { rewrite find_after_digits by (apply digits_all; [done|constructor]). destruct (r =? 0); [done|]. simpl. f_equal. lia. }
  unfold printed. destruct neg; simpl; rewrite H; by destruct (r =? 0).
Qed.

(** The characters in front of the point are read as the whole units. *)
Lemma lhs_printed : ∃ c l,
  substr (printed neg w r) (Nat.b2n neg) (find_char point (printed neg w r)) = c :: l ∧ stoll (c :: l) = Ok w.
Proof.
  rewrite find_printed. pose proof w_bound. pose proof scaled_bounds.
  assert (all_digits (digits 18 w [])) as Hall by (apply digits_all; [done|constructor]).
  pose proof (digits_nonempty 18 w [] w_bound Hw) as Hne.
  assert (∃ s, substr (printed neg w r) (Nat.b2n neg) (if r =? 0 then None else Some (Nat.b2n neg + length (digits 18 w []))%nat) =
    digits 18 w [] ++ s ∧ (s = [] ∨ ∃ s', s = point :: s')) as (s & -> & Hs).
  { unfold printed. destruct (r =? 0); [exists []; split; [destruct neg; by rewrite ?app_nil_r|by left]|].
    exists (take (Nat.b2n neg) (point :: padded p r [])). split; [|destruct neg; simpl; eauto].
    unfold substr. destruct neg; cbn [Nat.b2n app drop Nat.add]; [|by rewrite drop_0, take_app_length, app_nil_r].
    rewrite drop_0, take_app_ge by lia. by replace (S (length (digits 18 w [])) - length (digits 18 w []))%nat with 1%nat by lia. }
  destruct (digits 18 w [] ++ s) as [|c l] eqn:E; [by destruct (digits 18 w [])|]. exists c, l. split; [done|]. rewrite <- E.
  apply stoll_digits; [done..| |unfold INT64_MAX, GRAPHENE_MAX_SHARE_SUPPLY in *; nia].
  rewrite <- digits_app, parse_digits_of by (split; [done|apply w_bound]). by destruct Hs as [->|[? ->]].
Qed.

Lemma rhs_printed : r ≠ 0 → substr (printed neg w r) (S (Nat.b2n neg + length (digits 18 w []))) None = padded p r [].
Proof.
  intros Hr0. unfold printed. rewrite (proj2 (Z.eqb_neq _ _) Hr0). unfold substr.
  destruct neg; cbn [Nat.b2n app Nat.add drop]; rewrite drop_app_ge by lia.
  - by replace (S (length (digits 18 w [])) - length (digits 18 w []))%nat with 1%nat by lia.
  - by replace (S (length (digits 18 w [])) - length (digits 18 w []))%nat with 1%nat by lia.
Qed.

Lemma from_printed : amount_from_string precision (printed neg w r) = Ok (if neg then - (w * scaled + r) else w * scaled + r).
Proof.
  pose proof scaled_bounds. unfold GRAPHENE_MAX_SHARE_SUPPLY in Hmax. unfold amount_from_string. rewrite scan_printed. cbn [mbind result_bind].
  rewrite scaled_eq. cbn [mbind result_bind]. cbv zeta. destruct lhs_printed as (c & l & -> & ->). cbn [mbind result_bind].
  rewrite share_mul_ok; [|unfold is_share, INT64_MIN, INT64_MAX; nia..]. cbn [mbind result_bind].
  rewrite share_add_ok; [|unfold is_share, INT64_MIN, INT64_MAX; nia..]. cbn [mbind result_bind]. rewrite Z.add_0_l.
  rewrite find_printed. destruct (Z.eqb_spec r 0) as [Er|Hr0].
  { cbn [negb mbind result_bind]. rewrite Er in *. rewrite (proj2 (Z.leb_le _ _)) by (unfold GRAPHENE_MAX_SHARE_SUPPLY; lia). cbn.
    rewrite !Z.add_0_r. destruct neg; [|done]. rewrite share_mul_ok; [f_equal; lia|unfold is_share, INT64_MIN, INT64_MAX; nia..]. }
  cbn [negb default id]. rewrite rhs_printed by done.
  pose proof (to_string_scaled 0 ltac:(lia)) as Hts. rewrite Z.add_0_r in Hts. rewrite Hts. cbn [drop].
  rewrite drop_0, !padded_length. rewrite bool_decide_true by lia. cbn [FC_ASSERT mbind result_bind]. rewrite Nat.sub_diag. cbn [replicate].
  assert (padded p r [] ≠ []) as Hne.
  { intros E. pose proof (padded_length p r []) as Hl. rewrite E in Hl. simpl in Hl.
    assert (p = 0%nat) as Ep by lia. rewrite Ep in Hr. simpl in Hr. lia. }
  assert (stoll (padded p r [] ++ []) = Ok r) as Hst.
  { apply stoll_digits; [apply padded_all; constructor|done| |unfold INT64_MAX; lia].
    rewrite app_nil_r, parse_padded by done. simpl. lia. }
  destruct (padded p r [] ++ []) as [|c' l'] eqn:E; [by destruct (padded p r [])|]. rewrite Hst. cbn [mbind result_bind].
  rewrite share_add_ok; [|unfold is_share, INT64_MIN, INT64_MAX; nia..]. cbn [mbind result_bind].
  rewrite (proj2 (Z.leb_le _ _)) by (unfold GRAPHENE_MAX_SHARE_SUPPLY; lia). cbn.
  destruct neg; [|done]. rewrite share_mul_ok; [f_equal; lia|unfold is_share, INT64_MIN, INT64_MAX; nia..].
Qed.
End parse.
End roundtrip.

(** C35: reading what was written gives the amount back: for every precision the protocol has a table for, the
    text [amount_to_string] produces for an amount up to the maximum supply, positive or negative, is read by
    [amount_from_string] as the same amount. *)
Theorem amount_string_roundtrip precision v :
  0 ≤ precision < 19 → - GRAPHENE_MAX_SHARE_SUPPLY ≤ v ≤ GRAPHENE_MAX_SHARE_SUPPLY →
  (s ← amount_to_string precision v; amount_from_string precision s) = Ok v.
Proof.
  intros Hp Hv. pose proof (scaled_bounds precision Hp). rewrite amount_to_string_printed by done. cbn [mbind result_bind].
  pose proof (Z.mod_pos_bound (Z.abs v) (10 ^ Z.of_nat (Z.to_nat precision)) ltac:(lia)).
  pose proof (Z.div_mod (Z.abs v) (10 ^ Z.of_nat (Z.to_nat precision)) ltac:(lia)).
  assert (0 ≤ Z.abs v / 10 ^ Z.of_nat (Z.to_nat precision)) by (apply Z.div_pos; lia).
  rewrite from_printed by (done || lia). f_equal. destruct (Z.ltb_spec v 0); lia.
Qed.

Lemma amount_string_roundtrip_witness : (s ← amount_to_string 5 (-1234567); amount_from_string 5 s) = Ok (-1234567).
Proof. apply amount_string_roundtrip; done. Defined.

(** A minus sign is accepted in any place: the text "1-2000000000000000" is read as an amount above the maximum
    supply, which the check before the sign is applied does not see; and "-.5" is refused where ".5" is not. *)
Theorem misplaced_minus_accepted :
  amount_from_string 0 (String.list_ascii_of_string "1-2000000000000000") = Ok (2 * GRAPHENE_MAX_SHARE_SUPPLY) ∧
  amount_from_string 2 (String.list_ascii_of_string ".5") = Ok 50 ∧
  amount_from_string 2 (String.list_ascii_of_string "-.5") = Err (fc_throw "std::invalid_argument").
Proof. vm_compute. done. Qed.
