(* ===== verification/Authority.v ===== *)
(** * Authorities and signatures

    [authority] of libraries/protocol/include/graphene/protocol/authority.hpp, and [sign_state],
    [verify_authority], [get_required_signatures] and [minimize_required_signatures] of
    libraries/protocol/transaction.cpp.

    A public key and an address are numbers; how an address is computed from a key is the
    parameter [KeyAddresses].  The flat maps of an authority are lists in the order the code
    iterates over them.  The callbacks [get_active] and [get_owner] may throw (an unknown
    account) or give no authority ([nullptr]).

    The code caches which accounts have approved, stops as soon as a threshold is reached and
    bounds the recursion; [satisfied] is the plain reference definition it is compared with. *)
From stdpp Require Import sorting.
From S2P Require Import Prelude MachineInt Hardfork Asset.

Notation public_key_type := Z (only parsing).
Notation address := Z (only parsing).

Record authority := Authority {
  weight_threshold : Z;
  account_auths : list (account_id_type * Z);
  key_auths : list (public_key_type * Z);
  address_auths : list (address * Z) }.

Definition null_authority : authority := Authority 1 [(GRAPHENE_NULL_ACCOUNT, 1)] [] [].

Definition add_weight (l : list (Z * Z)) (total : Z) : Z :=
  foldl (λ t x, to_uint64 (t + x.2)) total l.

Definition is_impossible (a : authority) : bool :=
  add_weight (address_auths a) (add_weight (key_auths a) (add_weight (account_auths a) 0))
    <? weight_threshold a.

(** [address( key )] and [address( pts_address( key, compressed, version ) )]. *)
Class KeyAddresses := {
  address_of : public_key_type → address;
  pts_address : public_key_type → bool → Z → address }.

(** A flat set in the order of iteration. *)
Definition ascending (s : gset Z) : list Z := merge_sort Z.le (elements s).

Record sign_state := SignState {
  provided_signatures : gmap public_key_type bool;
  approved_by : gset account_id_type;
  (** [available_address_sigs] and [provided_address_sigs] *)
  address_sigs : option (gmap address public_key_type * gmap address public_key_type) }.

Definition use_key (k : public_key_type) (s : sign_state) : sign_state :=
  SignState (<[k := true]> (provided_signatures s)) (approved_by s) (address_sigs s).
Definition approve (a : account_id_type) (s : sign_state) : sign_state :=
  SignState (provided_signatures s) ({[ a ]} ∪ approved_by s) (address_sigs s).

Section sign_state.
Context `{KeyAddresses}.
Variable get_active get_owner : account_id_type → result (option authority).
Variable allow_non_immediate_owner : bool.
Variable available_keys : gset public_key_type.

Definition signed_by (k : public_key_type) (s : sign_state) : result (sign_state * bool) :=
  match provided_signatures s !! k with
  | None => if bool_decide (k ∈ available_keys) then Ok (use_key k s, true) else Ok (s, false)
  | Some _ => Ok (use_key k s, true)
  end.

Definition key_addresses (k : public_key_type) : list address :=
  [pts_address k false 56; pts_address k true 56; pts_address k false 0; pts_address k true 0; address_of k].

Definition address_map (l : list public_key_type) : gmap address public_key_type :=
  foldl (λ m k, foldl (λ m a, <[a := k]> m) m (key_addresses k)) ∅ l.

Definition address_cache (s : sign_state) : gmap address public_key_type * gmap address public_key_type :=
  match address_sigs s with
  | Some c => c
  | None => (address_map (ascending available_keys), address_map (ascending (dom (provided_signatures s))))
  end.

(** An address that belongs to no key leaves [itr] at [end()], and the last line reads it. *)
Definition signed_by_address (a : address) (s : sign_state) : result (sign_state * bool) :=
  let '(available, provided) := address_cache s in
  let s := SignState (provided_signatures s) (approved_by s) (Some (available, provided)) in
  match provided !! a with
  | Some k => Ok (use_key k s, true)
  | None =>
    match available !! a with
    | Some k => if bool_decide (k ∈ available_keys) then Ok (use_key k s, true) else Ok (s, false)
    | None => Err (fc_throw "undefined behaviour: dereference of end()")
    end
  end.

(** One of the three loops of [check_authority]: the weights of the members that [signed]
    accepts are added up; the flag says that the threshold was reached. *)
Fixpoint add_weights (signed : Z → sign_state → result (sign_state * bool)) (threshold : Z)
    (l : list (Z * Z)) (s : sign_state) (total_weight : Z) : result (sign_state * Z * bool) :=
  match l with
  | [] => Ok (s, total_weight, false)
  | (k, w) :: l =>
    '(s, yes) ← signed k s;
    if (yes : bool) then
      let total_weight := (total_weight + w) mod 2 ^ 32 in
      if threshold <=? total_weight then Ok (s, total_weight, true)
      else add_weights signed threshold l s total_weight
    else add_weights signed threshold l s total_weight
  end.

(** [check_authority( au, depth )]; [levels] is [max_recursion - depth]. *)
Fixpoint check_authority (levels : nat) (au : option authority) (s : sign_state)
    : result (sign_state * bool) :=
  match au with
  | None => Ok (s, false)
  | Some auth =>
    let threshold := weight_threshold auth in
    '(s, total_weight, reached) ← add_weights signed_by threshold (key_auths auth) s 0;
    if (reached : bool) then Ok (s, true) else
    '(s, total_weight, reached) ← add_weights signed_by_address threshold (address_auths auth) s total_weight;
    if (reached : bool) then Ok (s, true) else
    '(s, total_weight, reached) ← add_weights (λ a s,
        if bool_decide (a ∈ approved_by s) then Ok (s, true)
        else match levels with
             | O => Ok (s, false)
             | S levels =>
               au ← get_active a;
               '(s, yes) ← check_authority levels au s;
               '(s, yes) ← (if (yes : bool) then Ok (s, true)
                            else if allow_non_immediate_owner then
                              au ← get_owner a; check_authority levels au s
                            else Ok (s, false));
               Ok (if (yes : bool) then approve a s else s, yes)
             end) threshold (account_auths auth) s total_weight;
    if (reached : bool) then Ok (s, true) else Ok (s, threshold <=? total_weight)
  end.

(** [check_authority( id )]. *)
Definition check_account (max_recursion : nat) (id : account_id_type) (s : sign_state)
    : result (sign_state * bool) :=
  if bool_decide (id ∈ approved_by s) then Ok (s, true)
  else
    au ← get_active id;
    '(s, yes) ← check_authority max_recursion au s;
    if (yes : bool) then Ok (s, true)
    else if allow_non_immediate_owner then au ← get_owner id; check_authority max_recursion au s
    else Ok (s, false).

(** The signatures that remain, and whether any was removed. *)
Definition remove_unused_signatures (s : sign_state) : sign_state * bool :=
  let used := filter (λ x, x.2 = true) (provided_signatures s) in
  (SignState used (approved_by s) (address_sigs s),
   negb (bool_decide (used = provided_signatures s))).

Definition new_sign_state (sigs : gset public_key_type) (approved : gset account_id_type) : sign_state :=
  SignState (gset_to_gmap false sigs) ({[ GRAPHENE_TEMP_ACCOUNT ]} ∪ approved) None.

(** The second alternative of a requirement: [first || check_authority( get_owner( id ) )]. *)
Definition or_owner (max_recursion : nat) (id : account_id_type) (first : bool) (s : sign_state)
    : result (sign_state * bool) :=
  if first then Ok (s, true) else au ← get_owner id; check_authority max_recursion au s.

Definition check_required_active (max_recursion : nat) (id : account_id_type) (s : sign_state)
    : result (sign_state * bool) :=
  '(s, yes) ← check_account max_recursion id s; or_owner max_recursion id yes s.
End sign_state.

(** ** Verifying and producing signatures *)

Section verify.
Context `{KeyAddresses} {Op : Type}.
(** [operation_get_required_authorities]: active accounts, owner accounts, other authorities. *)
Variable op_required : Op → gset account_id_type * gset account_id_type * list authority.
Variable get_active get_owner : account_id_type → result (option authority).
Variable get_custom : account_id_type → Op → list authority.
Variable allow_non_immediate_owner : bool.
Variable max_recursion : nat.

Notation check := (check_authority get_active get_owner allow_non_immediate_owner).

(** Is one of the account's viable custom authorities satisfied? *)
Fixpoint any_custom (l : list authority) (s : sign_state) : result (sign_state * bool) :=
  match l with
  | [] => Ok (s, false)
  | au :: l =>
    '(s, yes) ← check ∅ max_recursion (Some au) s;
    if (yes : bool) then Ok (s, true) else any_custom l s
  end.

(** The accounts of [l] that no custom authority approves for [op]. *)
Fixpoint without_custom (op : Op) (l : list account_id_type) (s : sign_state)
    : result (sign_state * list account_id_type) :=
  match l with
  | [] => Ok (s, [])
  | id :: l =>
    '(s, yes) ← any_custom (get_custom id op) s;
    '(s, rest) ← without_custom op l s;
    Ok (s, if (yes : bool) then rest else id :: rest)
  end.

Record requirements := Requirements {
  required_active : gset account_id_type;
  required_owner : gset account_id_type;
  required_other : list authority }.

Fixpoint collect_required (ops : list Op) (r : requirements) (s : sign_state)
    : result (sign_state * requirements) :=
  match ops with
  | [] => Ok (s, r)
  | op :: ops =>
    let '(active, owner, other) := op_required op in
    '(s, rest) ← without_custom op (ascending active) s;
    collect_required ops (Requirements (required_active r ∪ list_to_set rest)
      (required_owner r ∪ owner) (required_other r ++ other)) s
  end.

Definition assert_all {A} (check : A → sign_state → result (sign_state * bool)) (name : string)
    : list A → sign_state → result sign_state :=
  res_fold (λ x s, '(s, yes) ← check x s; GRAPHENE_ASSERT yes name;; Ok s).

Definition verify_authority (ops : list Op) (sigs : gset public_key_type) (allow_committee : bool)
    (active_approvals owner_approvals : gset account_id_type) : result unit :=
  let s := new_sign_state sigs (active_approvals ∪ owner_approvals) in
  '(s, r) ← collect_required ops (Requirements ∅ ∅ []) s;
  (if allow_committee then Ok ()
   else GRAPHENE_ASSERT (bool_decide (GRAPHENE_COMMITTEE_ACCOUNT ∉ required_active r)) "invalid_committee_approval");;
  s ← assert_all (λ au, check ∅ max_recursion (Some au)) "tx_missing_other_auth" (required_other r) s;
  s ← assert_all (λ id s, or_owner get_active get_owner allow_non_immediate_owner ∅ max_recursion id
                            (bool_decide (id ∈ owner_approvals)) s)
        "tx_missing_owner_auth" (ascending (required_owner r)) s;
  s ← assert_all (check_required_active get_active get_owner allow_non_immediate_owner ∅ max_recursion)
        "tx_missing_active_auth" (ascending (required_active r)) s;
  GRAPHENE_ASSERT (negb (remove_unused_signatures s).2) "tx_irrelevant_sig".

(** [transaction::get_required_authorities]. *)
Definition get_required_authorities (ops : list Op) : requirements :=
  let r := foldl (λ r op, let '(active, owner, other) := op_required op in
    Requirements (required_active r ∪ active) (required_owner r ∪ owner) (required_other r ++ other))
    (Requirements ∅ ∅ []) ops in
  Requirements (required_active r ∖ required_owner r) (required_owner r) (required_other r).

(** The checks, their answers ignored. *)
Definition try_all {A} (check : A → sign_state → result (sign_state * bool)) : list A → sign_state → result sign_state :=
  res_fold (λ x s, '(s, _) ← check x s; Ok s).

Definition get_required_signatures (ops : list Op) (signature_keys available_keys : gset public_key_type)
    : result (gset public_key_type) :=
  let r := get_required_authorities ops in
  let s := new_sign_state signature_keys ∅ in
  s ← try_all (λ au, check available_keys max_recursion (Some au)) (required_other r) s;
  s ← try_all (λ id s, au ← get_owner id; check available_keys max_recursion au s) (ascending (required_owner r)) s;
  s ← try_all (check_required_active get_active get_owner allow_non_immediate_owner available_keys max_recursion)
        (ascending (required_active r)) s;
  let '(s, _) := remove_unused_signatures s in
  Ok ((dom (provided_signatures s) ∩ available_keys) ∖ signature_keys).

(** Signatures are dropped one by one; only a missing authority brings one back. *)
Fixpoint minimize (ops : list Op) (l : list public_key_type) (keys : gset public_key_type)
    : result (gset public_key_type) :=
  match l with
  | [] => Ok keys
  | k :: l =>
    let without := keys ∖ {[ k ]} in
    match verify_authority ops without false ∅ ∅ with
    | Ok _ => minimize ops l without
    | Err e =>
      if bool_decide (e ∈ graphene_exception <$>
           ["tx_missing_owner_auth"; "tx_missing_active_auth"; "tx_missing_other_auth"]%string)
      then minimize ops l keys else Err e
    end
  end.

Definition minimize_required_signatures (ops : list Op) (signature_keys available_keys : gset public_key_type)
    : result (gset public_key_type) :=
  s ← get_required_signatures ops signature_keys available_keys;
  minimize ops (ascending s) s.
End verify.

(** [get_signature_keys]: the keys the signatures recover to, each one once.  Recovering a key
    may throw. *)
Fixpoint get_signature_keys {Sig : Type} (recover : Sig → result public_key_type) (l : list Sig)
    (found : gset public_key_type) : result (gset public_key_type) :=
  match l with
  | [] => Ok found
  | sig :: l =>
    k ← recover sig;
    GRAPHENE_ASSERT (bool_decide (k ∉ found)) "tx_duplicate_sig";;
    get_signature_keys recover l ({[ k ]} ∪ found)
  end.
