(* ===== verification/AuthorityTheorems.v ===== *)
(** * Correctness of the authority checks

    [check_authority] against the reference definition [satisfied]: whatever the cached
    approvals and the early exits, it accepts what the signatures satisfy within the recursion
    limit, and nothing that they do not satisfy at all.  Then what it means for a transaction
    that [verify_authority] accepts it, and that the signatures [get_required_signatures] asks
    for are enough. *)
From stdpp Require Import sorting.
From S2P Require Import Prelude MachineInt Hardfork Asset Authority.

(** ** The reference definition *)

(** The weight of the members of [l] that satisfy [p]. *)
Definition weight (p : Z → bool) (l : list (Z * Z)) : Z :=
  foldr (λ x t, (if p x.1 then x.2 else 0) + t) 0 l.

Definition total (l : list (Z * Z)) : Z := weight (λ _, true) l.

Definition weights_ok (l : list (Z * Z)) : Prop := Forall (λ x, 0 ≤ x.2) l.

(** Weights are unsigned and do not add up to more than the 32-bit counter can hold. *)
Record auth_wf (au : authority) : Prop := AuthWf {
  wf_accounts : weights_ok (account_auths au);
  wf_keys : weights_ok (key_auths au);
  wf_addresses : weights_ok (address_auths au);
  wf_total : total (key_auths au) + total (address_auths au) + total (account_auths au) < 2 ^ 32 }.

Lemma weight_nonneg p l : weights_ok l → 0 ≤ weight p l.
Proof. induction 1 as [|x l Hx Hl IH]; simpl; [done|]. destruct (p x.1); lia. Qed.

Lemma weight_mono p q l : weights_ok l → (∀ x, x ∈ l → p x.1 = true → q x.1 = true) → weight p l ≤ weight q l.
Proof.
  induction 1 as [|x l Hx Hl IH]; simpl; intros Hpq; [done|].
  assert (weight p l ≤ weight q l) as ? by (apply IH; intros y Hy; apply Hpq; by constructor).
  assert (p x.1 = true → q x.1 = true) as Hxx by (apply Hpq; by constructor).
  destruct (p x.1), (q x.1); lia.
Qed.

Lemma weight_total p l : weights_ok l → weight p l ≤ total l.
Proof. intros Hl. by apply weight_mono. Qed.

Lemma total_cons a w l : total ((a, w) :: l) = w + total l.
Proof. done. Qed.

Section reference.
Variable get_active get_owner : account_id_type → result (option authority).
Variable allow_non_immediate_owner : bool.
Variable signs : public_key_type → bool.
Variable signs_address : address → bool.
Variable trusted : gset account_id_type.

(** The authority is satisfied by the keys that sign and the trusted accounts, looking through
    at most [levels] accounts in a row. *)
Fixpoint satisfied (levels : nat) (au : authority) : bool :=
  weight_threshold au <=?
    weight signs (key_auths au) + weight signs_address (address_auths au)
    + weight (λ a, bool_decide (a ∈ trusted) ||
        match levels with
        | O => false
        | S levels =>
          (if get_active a is Ok (Some au) then satisfied levels au else false)
          || (allow_non_immediate_owner && if get_owner a is Ok (Some au) then satisfied levels au else false)
        end) (account_auths au).

Definition satisfied_by (levels : nat) (au : result (option authority)) : bool :=
  if au is Ok (Some au) then satisfied levels au else false.

(** Account [a], as a member of an authority, approves. *)
Definition approves (levels : nat) (a : account_id_type) : bool :=
  bool_decide (a ∈ trusted) ||
    match levels with
    | O => false
    | S levels => satisfied_by levels (get_active a)
                  || (allow_non_immediate_owner && satisfied_by levels (get_owner a))
    end.

Lemma satisfied_eq n au : satisfied n au =
  (weight_threshold au <=? weight signs (key_auths au) + weight signs_address (address_auths au)
                           + weight (approves n) (account_auths au)).
Proof. by destruct n. Qed.

Hypothesis wf_active : ∀ a au, get_active a = Ok (Some au) → auth_wf au.
Hypothesis wf_owner : ∀ a au, get_owner a = Ok (Some au) → auth_wf au.

Lemma satisfied_mono n m au : (n ≤ m)%nat → auth_wf au → satisfied n au = true → satisfied m au = true.
Proof.
  revert m au. induction n as [n IH] using lt_wf_ind. intros m au Hm Hwf. rewrite !satisfied_eq, !Z.leb_le. intros Hs.
  enough (weight (approves n) (account_auths au) ≤ weight (approves m) (account_auths au)) by lia.
  apply weight_mono; [by destruct Hwf|]. intros [a w] _. simpl. unfold approves. rewrite !orb_true_iff. intros [?|Ha]; [by left|].
  right. destruct n as [|n], m as [|m]; try done; [lia|]. apply orb_true_iff in Ha. apply orb_true_iff.
  assert (∀ r, (∀ x, r = Ok (Some x) → auth_wf x) → satisfied_by n r = true → satisfied_by m r = true) as Hr.
  { intros [[x|]|] Hx; simpl; [|done..]. apply IH; [lia|lia|eauto]. }
  destruct Ha as [Ha|Ha]; [left; eauto|]. right. apply andb_true_iff in Ha as [? ?]. apply andb_true_iff. split; eauto.
Qed.

Lemma approves_mono n m a : (n ≤ m)%nat → approves n a = true → approves m a = true.
Proof.
  intros Hm. unfold approves. rewrite !orb_true_iff. intros [?|Ha]; [by left|]. right.
  destruct n as [|n], m as [|m]; try done; [lia|]. apply orb_true_iff in Ha. apply orb_true_iff.
  destruct Ha as [Ha|Ha].
  - left. destruct (get_active a) as [[x|]|] eqn:E; try done. simpl in *. eapply satisfied_mono; [|eauto|done]. lia.
  - right. apply andb_true_iff in Ha as [? Ha]. apply andb_true_iff. split; [done|].
    destruct (get_owner a) as [[x|]|] eqn:E; try done. simpl in *. eapply satisfied_mono; [|eauto|done]. lia.
Qed.
End reference.

(** ** The authorities a check can look at *)

Section concerns.
Context `{KeyAddresses}.
Variable get_active get_owner : account_id_type → result (option authority).
Variable roots : authority → Prop.

(** Reachable from the authorities that are required through accounts that are their members. *)
Inductive concerns : authority → Prop :=
  | concerns_root au : roots au → concerns au
  | concerns_active au a x : concerns au → a ∈ (account_auths au).*1 → get_active a = Ok (Some x) → concerns x
  | concerns_owner au a x : concerns au → a ∈ (account_auths au).*1 → get_owner a = Ok (Some x) → concerns x.

(** A key that such an authority names, or whose address it names. *)
Definition relevant (k : public_key_type) : Prop := ∃ au, concerns au ∧
  (k ∈ (key_auths au).*1 ∨ ∃ a, a ∈ (address_auths au).*1 ∧ a ∈ key_addresses k).
End concerns.

Lemma address_map_inv `{KeyAddresses} l a k :
  address_map l !! a = Some k → k ∈ l ∧ a ∈ key_addresses k.
Proof.
  unfold address_map. assert (∀ m : gmap Z Z, (∀ b j, m !! b = Some j → j ∈ l ∧ b ∈ key_addresses j) → ∀ l', l' ⊆ l →
    ∀ b j, foldl (λ m k, foldl (λ m a, <[a := k]> m) m (key_addresses k)) m l' !! b = Some j →
    j ∈ l ∧ b ∈ key_addresses j) as Hgen.
  { intros m Hm l'. revert m Hm; induction l' as [|i l' IH]; intros m Hm Hl'; [exact Hm|]. simpl. apply IH; [|set_solver].
    assert (i ∈ l) as Hi by set_solver. intros b j Hj. simpl in Hj.
    repeat (apply lookup_insert_Some in Hj as [[<- <-]|[_ Hj]]; [split; [done|set_solver]|]). eauto. }
  apply (Hgen ∅); [|done]. intros b j Hj. by rewrite lookup_empty in Hj.
Qed.

(** ** The state of a check *)

Section exact.
Context `{KeyAddresses}.
Variable get_active get_owner : account_id_type → result (option authority).
Variable allow_non_immediate_owner : bool.
Variable available sigs : gset public_key_type.
Variable trusted : gset account_id_type.
Variable roots : authority → Prop.

Definition signs (k : public_key_type) : bool := bool_decide (k ∈ sigs ∪ available).
Definition signs_address (a : address) : bool :=
  existsb (λ k, bool_decide (a ∈ key_addresses k)) (elements (sigs ∪ available)).

Notation sat := (satisfied get_active get_owner allow_non_immediate_owner signs signs_address trusted).
Notation sat_by := (satisfied_by get_active get_owner allow_non_immediate_owner signs signs_address trusted).
Notation app := (approves get_active get_owner allow_non_immediate_owner signs signs_address trusted).
Notation check := (check_authority get_active get_owner allow_non_immediate_owner available).
Notation rel := (relevant get_active get_owner roots).

(** What holds of the state all along; [M] bounds how deep the approvals recorded so far are. *)
Record sign_ok (M : nat) (s : sign_state) : Prop := SignOk {
  so_sigs : sigs ⊆ dom (provided_signatures s);
  so_dom : dom (provided_signatures s) ⊆ sigs ∪ available;
  so_available : ∀ c a k, address_sigs s = Some c → c.1 !! a = Some k → k ∈ available ∧ a ∈ key_addresses k;
  so_provided : ∀ c a k, address_sigs s = Some c → c.2 !! a = Some k → k ∈ sigs ∪ available ∧ a ∈ key_addresses k;
  so_trusted : trusted ⊆ approved_by s;
  so_approved : ∀ a, a ∈ approved_by s → app M a = true;
  so_used : ∀ k, provided_signatures s !! k = Some true → rel k }.

Hypothesis wf_active : ∀ a au, get_active a = Ok (Some au) → auth_wf au.
Hypothesis wf_owner : ∀ a au, get_owner a = Ok (Some au) → auth_wf au.

Lemma sign_ok_mono M M' s : (M ≤ M')%nat → sign_ok M s → sign_ok M' s.
Proof.
  intros HM [? ? ? ? ? Ha ?]. split; try done. intros a Hin.
  exact (approves_mono _ _ _ _ _ _ wf_active wf_owner _ _ _ HM (Ha a Hin)).
Qed.

Lemma sign_ok_use M k s : sign_ok M s → k ∈ sigs ∪ available → rel k → sign_ok M (use_key k s).
Proof.
  intros [? ? ? ? ? ? Hu] Hk Hr. split; simpl; try done.
  - rewrite dom_insert. set_solver.
  - rewrite dom_insert. set_solver.
  - intros j [[<- _]|[_ Hj]]%lookup_insert_Some; [done|eauto].
Qed.

Lemma sign_ok_approve M a s : sign_ok M s → app M a = true → sign_ok M (approve a s).
Proof.
  intros [? ? ? ? ? Ha ?] Hm. split; simpl; try done; [set_solver|].
  intros b [->%elem_of_singleton|Hb]%elem_of_union; eauto.
Qed.

(** One loop of a check: [p] holds of members that are accepted for sure, [q M] of those that
    may be accepted. *)
Lemma add_weights_exact signed p q th l M s t s' t' r :
  (∀ M M' a, (M ≤ M')%nat → q M a = true → q M' a = true) →
  (∀ a M s s' b, a ∈ l.*1 → sign_ok M s → signed a s = Ok (s', b) → ∃ M', (M ≤ M')%nat ∧ sign_ok M' s' ∧
     (b = true → q M' a = true) ∧ (p a = true → b = true)) →
  weights_ok l → sign_ok M s → 0 ≤ t → t + total l < 2 ^ 32 →
  add_weights signed th l s t = Ok (s', t', r) → ∃ M', (M ≤ M')%nat ∧ sign_ok M' s' ∧
    0 ≤ t' ≤ t + weight (q M') l ∧ (r = true → th ≤ t') ∧ (r = false → t + weight p l ≤ t').
Proof.
  intros Hq Hsig Hl. revert M s t. induction Hl as [|[a w] l Hw Hl IH]; intros M s t Hok Ht Htot Ha.
  - injection Ha as <- <- <-. exists M. split_and!; [done|done|simpl; lia..].
  - rewrite total_cons in Htot. cbn in Ha, Hw. apply bind_Ok in Ha as ([s1 b] & H1 & Ha).
    apply Hsig with (M := M) in H1 as (M1 & HM1 & Hok1 & Hb & Hp); [|set_solver|done].
    assert (∀ s t, sign_ok M1 s → 0 ≤ t → t + total l < 2 ^ 32 → add_weights signed th l s t = Ok (s', t', r) →
      ∃ M', (M1 ≤ M')%nat ∧ sign_ok M' s' ∧ 0 ≤ t' ≤ t + weight (q M') l ∧ (r = true → th ≤ t') ∧
      (r = false → t + weight p l ≤ t')) as IH1.
    { intros. eapply IH; eauto. intros. eapply Hsig; eauto. set_solver. }
    pose proof (weight_nonneg (λ _, true) _ Hl) as Hn. fold (total l) in Hn.
    destruct b.
    + rewrite Z.mod_small in Ha by lia. destruct (Z.leb_spec th (t + w)).
      * injection Ha as <- <- <-. exists M1. pose proof (weight_nonneg (q M1) _ Hl). simpl. rewrite Hb by done.
        split_and!; [lia|done|lia..].
      * apply IH1 in Ha as (M' & HM' & ? & ? & ? & Hf); [|done|lia|lia].
        exists M'. simpl. rewrite (Hq M1 M' a HM') by auto. split_and!; [lia|done|lia|lia|done|].
        intros E. specialize (Hf E). destruct (p a); lia.
    + apply IH1 in Ha as (M' & HM' & ? & ? & ? & Hf); [|done|lia|lia].
      exists M'. simpl. split_and!; [lia|done|lia| |done|].
      { destruct (q M' a); lia. }
      intros E. specialize (Hf E). destruct (p a); [by specialize (Hp eq_refl)|lia].
Qed.

Lemma signed_by_exact au a M s s' b : concerns get_active get_owner roots au → a ∈ (key_auths au).*1 →
  sign_ok M s → signed_by available a s = Ok (s', b) → sign_ok M s' ∧ b = signs a.
Proof.
  intros Hau Ha Hok Hs. unfold signed_by in Hs. unfold signs.
  assert (a ∈ sigs ∪ available → sign_ok M (use_key a s)) as Huse
    by (intros ?; apply sign_ok_use; [done|done|exists au; eauto]).
  destruct (provided_signatures s !! a) eqn:E.
  - injection Hs as <- <-. assert (a ∈ sigs ∪ available) as Hin
      by (apply (so_dom _ _ Hok); by apply elem_of_dom_2 in E).
    rewrite bool_decide_eq_true_2 by done. auto.
  - apply not_elem_of_dom in E. pose proof (so_sigs _ _ Hok) as Hsub.
    destruct (decide (a ∈ available)) as [Hv|Hv].
    + rewrite bool_decide_eq_true_2 in Hs by done. injection Hs as <- <-.
      rewrite bool_decide_eq_true_2 by set_solver. split; [apply Huse; set_solver|done].
    + rewrite bool_decide_eq_false_2 in Hs by done. injection Hs as <- <-.
      rewrite bool_decide_eq_false_2 by set_solver. done.
Qed.

Lemma signs_address_intro k a : k ∈ sigs ∪ available → a ∈ key_addresses k → signs_address a = true.
Proof.
  intros Hk Ha. apply existsb_exists. exists k. split; [by apply list_elem_of_In, elem_of_elements|].
  by apply bool_decide_eq_true_2.
Qed.

(** What the caches hold when they are used. *)
Lemma address_cache_ok M s : sign_ok M s →
  (∀ a k, (address_cache available s).1 !! a = Some k → k ∈ available ∧ a ∈ key_addresses k) ∧
  (∀ a k, (address_cache available s).2 !! a = Some k → k ∈ sigs ∪ available ∧ a ∈ key_addresses k).
Proof.
  intros Hok. unfold address_cache. destruct (address_sigs s) as [c|] eqn:E.
  - split; intros a k Hk; [by eapply (so_available _ _ Hok)|by eapply (so_provided _ _ Hok)].
  - assert (∀ (X : gset Z) k, k ∈ ascending X → k ∈ X) as Hasc.
    { intros X k. unfold ascending. rewrite merge_sort_Permutation. by rewrite elem_of_elements. }
    split; intros a k [Hk ?]%address_map_inv; apply Hasc in Hk; [done|].
    split; [by apply (so_dom _ _ Hok)|done].
Qed.

(** The check of an address returns only if it is the address of a key that signs. *)
Lemma signed_by_address_exact au a M s s' b :
  concerns get_active get_owner roots au → a ∈ (address_auths au).*1 →
  sign_ok M s → signed_by_address available a s = Ok (s', b) → sign_ok M s' ∧ b = true ∧ signs_address a = true.
Proof.
  intros Hau Ha Hok Hs. unfold signed_by_address in Hs.
  destruct (address_cache_ok _ _ Hok) as [Hav Hpr]. destruct (address_cache available s) as [av pr]. simpl in *.
  assert (sign_ok M (SignState (provided_signatures s) (approved_by s) (Some (av, pr)))) as Hok1.
  { destruct Hok as [? ? ? ? ? ? ?]. split; simpl; try done; intros c b' k E; injection E as <-; eauto. }
  assert (∀ k, k ∈ sigs ∪ available → a ∈ key_addresses k → rel k) as Hrel
    by (intros k _ Hk; exists au; split; [done|right; eauto]).
  destruct (pr !! a) as [k|] eqn:E.
  - destruct (Hpr _ _ E) as [? ?]. injection Hs as <- <-. split_and!; [|done|by eapply signs_address_intro].
    apply sign_ok_use; eauto.
  - destruct (av !! a) as [k|] eqn:E'; [|done]. destruct (Hav _ _ E') as [Hk ?].
    rewrite bool_decide_eq_true_2 in Hs by done. injection Hs as <- <-.
    split_and!; [|done|eapply signs_address_intro; [|done]; set_solver].
    apply sign_ok_use; [done|set_solver|apply Hrel; [set_solver|done]].
Qed.

(** The account loop's test. *)
Definition check_member (n : nat) (a : account_id_type) (s : sign_state) : result (sign_state * bool) :=
  if bool_decide (a ∈ approved_by s) then Ok (s, true)
  else match n with
       | O => Ok (s, false)
       | S n =>
         au ← get_active a;
         '(s, yes) ← check n au s;
         '(s, yes) ← (if (yes : bool) then Ok (s, true)
                      else if allow_non_immediate_owner then au ← get_owner a; check n au s
                      else Ok (s, false));
         Ok (if (yes : bool) then approve a s else s, yes)
       end.

Lemma check_eq n auth s : check n (Some auth) s =
  ('(s, t, reached) ← add_weights (signed_by available) (weight_threshold auth) (key_auths auth) s 0;
   if (reached : bool) then Ok (s, true) else
   '(s, t, reached) ← add_weights (signed_by_address available) (weight_threshold auth) (address_auths auth) s t;
   if (reached : bool) then Ok (s, true) else
   '(s, t, reached) ← add_weights (check_member n) (weight_threshold auth) (account_auths auth) s t;
   if (reached : bool) then Ok (s, true) else Ok (s, weight_threshold auth <=? t)).
Proof. by destruct n. Qed.

(** [check] with [n] levels accepts whatever is satisfied within [n] levels, and only what is
    satisfied at some depth (an account already approved is accepted below the limit too). *)
Definition exact_at (n : nat) : Prop := ∀ oau M s s' b,
  (∀ au, oau = Some au → concerns get_active get_owner roots au ∧ auth_wf au) →
  sign_ok M s → check n oau s = Ok (s', b) →
  ∃ M', (M ≤ M')%nat ∧ sign_ok M' s' ∧
    (b = true → sat_by M' (Ok oau) = true) ∧ (sat_by n (Ok oau) = true → b = true).

Lemma sat_by_app M a :
  sat_by M (get_active a) = true ∨ (allow_non_immediate_owner = true ∧ sat_by M (get_owner a) = true) →
  app (S M) a = true.
Proof. unfold approves. rewrite !orb_true_iff, andb_true_iff. tauto. Qed.

Lemma check_member_exact n au a M s s' b :
  (∀ m, n = S m → exact_at m) → concerns get_active get_owner roots au → a ∈ (account_auths au).*1 →
  sign_ok M s → check_member n a s = Ok (s', b) →
  ∃ M', (M ≤ M')%nat ∧ sign_ok M' s' ∧ (b = true → app M' a = true) ∧ (app n a = true → b = true).
Proof.
  intros IH Hau Ha Hok Hc. unfold check_member in Hc.
  destruct (decide (a ∈ approved_by s)) as [Hin|Hnin].
  { rewrite bool_decide_eq_true_2 in Hc by done. injection Hc as <- <-.
    exists M. split_and!; [done|done| |done]. intros _. by apply (so_approved _ _ Hok). }
  rewrite bool_decide_eq_false_2 in Hc by done.
  assert (a ∉ trusted) as Ht by (pose proof (so_trusted _ _ Hok); set_solver).
  destruct n as [|n].
  { injection Hc as <- <-. exists M. split_and!; [done..|]. unfold approves.
    by rewrite bool_decide_eq_false_2. }
  specialize (IH n eq_refl). unfold exact_at in IH. apply bind_Ok in Hc as (oau & Eact & Hc).
  apply bind_Ok in Hc as ([s1 b1] & H1 & Hc).
  apply IH with (M := M) in H1 as (M1 & HM1 & Hok1 & Hb1 & Hc1); [|intros x ->; eauto using concerns_active|done].
  rewrite <- Eact in Hb1, Hc1. destruct b1; simpl in Hc.
  { injection Hc as <- <-. assert (app (S M1) a = true) as Happ by (apply sat_by_app; auto).
    exists (S M1). split_and!; [lia| |done|done]. apply sign_ok_approve; [|done].
    apply (sign_ok_mono M1); [lia|done]. }
  apply bind_Ok in Hc as ([s2 b2] & H2 & Hc). injection Hc as <- <-.
  assert (∃ M2, (M1 ≤ M2)%nat ∧ sign_ok M2 s2 ∧
    (b2 = true → allow_non_immediate_owner = true ∧ sat_by M2 (get_owner a) = true) ∧
    (allow_non_immediate_owner && sat_by n (get_owner a) = true → b2 = true)) as (M2 & HM2 & Hok2 & Hb2 & Hc2).
  { destruct allow_non_immediate_owner.
    - apply bind_Ok in H2 as (oow & Eown & H2).
      apply IH with (M := M1) in H2 as (M2 & HM2 & Hok2 & Hb2 & Hc2); [|intros x ->; eauto using concerns_owner|done].
      rewrite <- Eown in Hb2, Hc2. exists M2. split_and!; auto.
    - injection H2 as <- <-. exists M1. done. }
  exists (S M2). assert (b2 = true → app (S M2) a = true) as Happ by (intros; apply sat_by_app; auto).
  split_and!; [lia| |done|].
  - assert (sign_ok (S M2) s2) by (apply (sign_ok_mono M2); [lia|done]).
    destruct b2; [apply sign_ok_approve; auto|done].
  - intros Hap. unfold approves in Hap. rewrite bool_decide_eq_false_2 in Hap by done. simpl in Hap.
    apply orb_true_iff in Hap as [Hap|Hap]; [by apply Hc1 in Hap|by apply Hc2].
Qed.

Lemma check_agrees n : exact_at n.
Proof.
  induction n as [n IHn] using lt_wf_ind. intros [au|] M s s' b Hau Hok Hc;
    [|destruct n; simpl in Hc; injection Hc as <- <-; exists M; done].
  destruct (Hau au eq_refl) as [Hcon [Wa Wk Wd Wt]]. rewrite check_eq in Hc. cbn [satisfied_by].
  pose proof (weight_nonneg (λ _, true) _ Wa) as Ta. pose proof (weight_nonneg (λ _, true) _ Wk) as Tk.
  pose proof (weight_nonneg (λ _, true) _ Wd) as Td. fold (total (account_auths au)) in Ta.
  fold (total (key_auths au)) in Tk. fold (total (address_auths au)) in Td.
  apply bind_Ok in Hc as ([[s1 t1] r1] & H1 & Hc).
  apply (add_weights_exact _ signs (λ _, signs)) with (M := M) in H1
    as (M1 & HM1 & Hok1 & Hu1 & Hr1 & Hl1); [|done| |done|done|lia|lia].
  2:{ intros a M0 s0 s0' b0 Ha Hok0 Hs. apply (signed_by_exact au _ M0) in Hs as [? ->]; [|done..].
      exists M0. done. }
  pose proof (weight_total signs _ Wk) as B1.
  pose proof (weight_nonneg signs_address _ Wd) as N2.
  assert (∀ m, 0 ≤ weight (app m) (account_auths au)) as N3 by (intros; by apply weight_nonneg).
  destruct r1.
  { injection Hc as <- <-. exists M1. split_and!; [done|done| |done]. intros _. rewrite satisfied_eq, Z.leb_le.
    specialize (N3 M1). specialize (Hr1 eq_refl). lia. }
  apply bind_Ok in Hc as ([[s2 t2] r2] & H2 & Hc).
  apply (add_weights_exact _ signs_address (λ _, signs_address)) with (M := M1) in H2
    as (M2 & HM2 & Hok2 & Hu2 & Hr2 & Hl2); [|done| |done|done|lia|lia].
  2:{ intros a M0 s0 s0' b0 Ha Hok0 Hs. apply (signed_by_address_exact au _ M0) in Hs as (? & -> & ?); [|done..].
      exists M0. done. }
  pose proof (weight_total signs_address _ Wd) as B2.
  destruct r2.
  { injection Hc as <- <-. exists M2. split_and!; [lia|done| |done]. intros _. rewrite satisfied_eq, Z.leb_le.
    specialize (N3 M2). specialize (Hr2 eq_refl). lia. }
  apply bind_Ok in Hc as ([[s3 t3] r3] & H3 & Hc).
  apply (add_weights_exact _ (app n) app) with (M := M2) in H3
    as (M3 & HM3 & Hok3 & Hu3 & Hr3 & Hl3); [| | |done|done|lia|lia].
  2:{ intros m m' a Hm. by apply approves_mono. }
  2:{ intros a M0 s0 s0' b0 Ha Hok0 Hs. eapply check_member_exact; [|done..].
      intros m ->. apply IHn. lia. }
  specialize (Hl1 eq_refl). specialize (Hl2 eq_refl).
  destruct r3; injection Hc as <- <-; exists M3; (split_and!; [lia|done| |]); rewrite !satisfied_eq, ?Z.leb_le.
  - specialize (Hr3 eq_refl). lia.
  - done.
  - lia.
  - specialize (Hl3 eq_refl). lia.
Qed.

(** The state a check starts from. *)
Lemma new_sign_ok approved : trusted = {[ GRAPHENE_TEMP_ACCOUNT ]} ∪ approved →
  sign_ok 0 (new_sign_state sigs approved).
Proof.
  intros Et. split; simpl; try done.
  - by rewrite dom_gset_to_gmap.
  - rewrite dom_gset_to_gmap. set_solver.
  - by rewrite Et.
  - intros a Ha. unfold approves. by rewrite bool_decide_eq_true_2 by (by rewrite Et).
  - intros k [_ ?]%lookup_gset_to_gmap_Some. done.
Qed.

(** The code's answer for an account that must approve by itself. *)
Lemma check_account_exact n id M s s' b :
  (∀ au, get_active id = Ok (Some au) ∨ get_owner id = Ok (Some au) → concerns get_active get_owner roots au) →
  sign_ok M s → check_account get_active get_owner allow_non_immediate_owner available n id s = Ok (s', b) →
  ∃ M', (M ≤ M')%nat ∧ sign_ok M' s' ∧ (b = true → app M' id = true) ∧
    (id ∈ trusted ∨ sat_by n (get_active id) = true → b = true).
Proof.
  intros Hcon Hok Hc. unfold check_account in Hc. destruct (decide (id ∈ approved_by s)) as [Hin|Hnin].
  { rewrite bool_decide_eq_true_2 in Hc by done. injection Hc as <- <-.
    exists M. split_and!; [done|done| |done]. intros _. by apply (so_approved _ _ Hok). }
  rewrite bool_decide_eq_false_2 in Hc by done.
  assert (id ∉ trusted) as Ht by (pose proof (so_trusted _ _ Hok); set_solver).
  apply bind_Ok in Hc as (oau & Eact & Hc). apply bind_Ok in Hc as ([s1 b1] & H1 & Hc).
  apply (check_agrees n oau M) in H1 as (M1 & HM1 & Hok1 & Hb1 & Hc1); [|intros x ->; eauto|done].
  rewrite <- Eact in Hb1, Hc1. destruct b1.
  { injection Hc as <- <-. exists (S M1). split_and!; [lia|by apply (sign_ok_mono M1); [lia|]| |done].
    intros _. apply sat_by_app. auto. }
  assert ((allow_non_immediate_owner = true ∧ ∃ oow, get_owner id = Ok oow ∧ check n oow s1 = Ok (s', b)) ∨
          (s1 = s' ∧ false = b)) as [(Eal & oow & Eown & H2)|[<- <-]].
  { destruct allow_non_immediate_owner; [left; apply bind_Ok in Hc as (oow & ? & ?); eauto|right].
    by injection Hc. }
  - apply (check_agrees n oow M1) in H2 as (M2 & HM2 & Hok2 & Hb2 & _); [|intros x ->; eauto|done].
    rewrite <- Eown in Hb2. exists (S M2). split_and!; [lia|by apply (sign_ok_mono M2); [lia|]| |].
    + intros E. apply sat_by_app. auto.
    + intros [?|Hs]; [done|by apply Hc1 in Hs].
  - exists M1. split_and!; [done|done|done|]. intros [?|Hs]; [done|by apply Hc1 in Hs].
Qed.
End exact.

(** ** A check of a known authority returns *)

Lemma add_weights_returns signed th l s t : (∀ a s, a ∈ l.*1 → ∃ s' b, signed a s = Ok (s', b)) →
  ∃ s' t' r, add_weights signed th l s t = Ok (s', t', r).
Proof.
  revert s t. induction l as [|[a w] l IH]; intros s t Hs; simpl; [eauto|].
  destruct (Hs a s) as (s1 & b & ->); [set_solver|]. simpl.
  assert (∀ s t, ∃ s' t' r, add_weights signed th l s t = Ok (s', t', r)) as IH'
    by (intros; apply IH; intros; apply Hs; set_solver).
  destruct b; [|apply IH']. destruct (_ <=? _); [eauto|apply IH'].
Qed.

Section returns.
Context `{KeyAddresses}.
Variable get_active get_owner : account_id_type → result (option authority).
Variable allow_non_immediate_owner : bool.
Variable available : gset public_key_type.
Variable roots : authority → Prop.

(** No authority in question names addresses or unknown accounts: what the evaluators of
    account operations make sure of. *)
Definition known : Prop := ∀ au, concerns get_active get_owner roots au →
  address_auths au = [] ∧ ∀ a, a ∈ (account_auths au).*1 → (∃ x, get_active a = Ok x) ∧ (∃ x, get_owner a = Ok x).

Lemma signed_by_returns a s : ∃ s' b, signed_by available a s = Ok (s', b).
Proof. unfold signed_by. destruct (_ !! _); [eauto|]. destruct (bool_decide _); eauto. Qed.

Lemma check_returns n oau s : known →
  (∀ au, oau = Some au → concerns get_active get_owner roots au) →
  ∃ s' b, check_authority get_active get_owner allow_non_immediate_owner available n oau s = Ok (s', b).
Proof.
  intros Hk. revert oau s. induction n as [n IH] using lt_wf_ind. intros [au|] s Hau; [|destruct n; simpl; eauto].
  specialize (Hau au eq_refl). destruct (Hk au Hau) as [Hnil Hacc]. rewrite check_eq, Hnil.
  destruct (add_weights_returns (signed_by available) (weight_threshold au) (key_auths au) s 0)
    as (s1 & t1 & r1 & ->); [intros; apply signed_by_returns|]. simpl. destruct r1; [eauto|].
  match goal with |- context [add_weights ?f ?th ?l ?s ?t] =>
    destruct (add_weights_returns f th l s t) as (s2 & t2 & r2 & ->) end; [|simpl; destruct r2; eauto].
  clear s s1 t1. intros a s Ha. unfold check_member. destruct (bool_decide _); [eauto|].
  destruct n as [|n]; [eauto|]. destruct (Hacc a Ha) as [[x Ex] [y Ey]]. rewrite Ex. simpl.
  destruct (IH n ltac:(lia) x s) as (s1 & b1 & ->); [intros ? ->; by eapply concerns_active|]. simpl.
  destruct b1; simpl; [eauto|]. rewrite Ey. simpl. destruct allow_non_immediate_owner eqn:Eal; simpl; [|eauto].
  destruct (IH n ltac:(lia) y s1) as (s2 & b2 & ->); [intros ? ->; by eapply concerns_owner|]. simpl. eauto.
Qed.
End returns.


(** ** What an accepted transaction has been authorized by *)

Lemma elem_of_ascending (X : gset Z) x : x ∈ ascending X ↔ x ∈ X.
Proof. unfold ascending. by rewrite merge_sort_Permutation, elem_of_elements. Qed.

Section verified.
Context `{KeyAddresses} {Op : Type}.
Variable op_required : Op → gset account_id_type * gset account_id_type * list authority.
Variable get_active get_owner : account_id_type → result (option authority).
Variable get_custom : account_id_type → Op → list authority.
Variable allow_non_immediate_owner : bool.
Variable max_recursion : nat.
Variable ops : list Op.
Variable sigs : gset public_key_type.
Variable approvals : gset account_id_type.

Notation trusted := ({[ GRAPHENE_TEMP_ACCOUNT ]} ∪ approvals).
Notation sat := (satisfied get_active get_owner allow_non_immediate_owner (signs ∅ sigs) (signs_address ∅ sigs) trusted).

(** Satisfied by the signatures and approvals, at some depth. *)
Definition authorized (au : authority) : Prop := ∃ m, sat m au = true.
Definition authorized_by (au : result (option authority)) : Prop := ∃ x, au = Ok (Some x) ∧ authorized x.

(** The authorities that can be required. *)
Definition required_root (au : authority) : Prop :=
  (∃ op, op ∈ ops ∧ au ∈ (op_required op).2) ∨
  (∃ op id, op ∈ ops ∧ (id ∈ (op_required op).1.1 ∨ id ∈ (op_required op).1.2) ∧
     (get_active id = Ok (Some au) ∨ get_owner id = Ok (Some au) ∨ au ∈ get_custom id op)).

Notation ok := (sign_ok get_active get_owner allow_non_immediate_owner ∅ sigs trusted required_root).

Hypothesis wf_active : ∀ a au, get_active a = Ok (Some au) → auth_wf au.
Hypothesis wf_owner : ∀ a au, get_owner a = Ok (Some au) → auth_wf au.
Hypothesis wf_custom : ∀ a op au, au ∈ get_custom a op → auth_wf au.
Hypothesis wf_other : ∀ op au, op ∈ ops → au ∈ (op_required op).2 → auth_wf au.

(** A check that answers yes only if [P] holds, in states that keep the invariant. *)
Definition sound {A} (check : A → sign_state → result (sign_state * bool)) (P : A → Prop) (x : A) : Prop :=
  ∀ M s s' b, ok M s → check x s = Ok (s', b) → (∃ M', ok M' s') ∧ (b = true → P x).

Lemma root_sound au : required_root au → auth_wf au →
  sound (λ au, check_authority get_active get_owner allow_non_immediate_owner ∅ max_recursion (Some au)) authorized au.
Proof.
  intros Hr Hw M s s' b Hok Hc.
  eapply check_agrees in Hc as (M' & _ & Hok' & Hb & _); [|exact wf_active|exact wf_owner| |exact Hok].
  - split; [eauto|]. intros E. exists M'. by apply Hb.
  - intros x [= <-]. split; [by constructor|done].
Qed.

Lemma opt_root_sound r oau s s' b M : r = Ok oau → (∀ au, r = Ok (Some au) → required_root au ∧ auth_wf au) →
  ok M s → check_authority get_active get_owner allow_non_immediate_owner ∅ max_recursion oau s = Ok (s', b) →
  (∃ M', ok M' s') ∧ (b = true → authorized_by r).
Proof.
  intros -> Hr Hok Hc. destruct oau as [au|].
  - destruct (Hr au eq_refl) as [? ?]. destruct (root_sound au) with M s s' b as [? Hb]; [done..|].
    split; [done|]. intros E. exists au. auto.
  - destruct max_recursion; simpl in Hc; injection Hc as <- <-; (split; [eauto|done]).
Qed.

Lemma any_custom_sound l M s s' b : (∀ au, au ∈ l → required_root au ∧ auth_wf au) → ok M s →
  any_custom get_active get_owner allow_non_immediate_owner max_recursion l s = Ok (s', b) →
  (∃ M', ok M' s') ∧ (b = true → ∃ au, au ∈ l ∧ authorized au).
Proof.
  revert M s. induction l as [|au l IH]; intros M s Hl Hok Hc; simpl in Hc;
    [injection Hc as <- <-; split; [eauto|done]|].
  apply bind_Ok in Hc as ([s1 b1] & H1 & Hc). destruct (Hl au) as [? ?]; [by constructor|].
  destruct (root_sound au) with M s s1 b1 as [[M1 Hok1] Hb]; [done..|]. destruct b1.
  - injection Hc as <- <-. split; [eauto|]. intros _. exists au. split; [by constructor|auto].
  - apply IH with (M := M1) in Hc as [? Hc]; [|intros; apply Hl; by constructor|done].
    split; [done|]. intros E. destruct (Hc E) as (x & ? & ?). exists x. split; [by constructor|done].
Qed.

(** An account on whose behalf one of its custom authorities allows the operation. *)
Definition custom_authorized (op : Op) (id : account_id_type) : Prop :=
  ∃ au, au ∈ get_custom id op ∧ authorized au.

Lemma without_custom_sound op l M s s' rest : op ∈ ops → (∀ id, id ∈ l → id ∈ (op_required op).1.1) → ok M s →
  without_custom get_active get_owner get_custom allow_non_immediate_owner max_recursion op l s = Ok (s', rest) →
  (∃ M', ok M' s') ∧ (∀ id, id ∈ rest → id ∈ l) ∧ (∀ id, id ∈ l → id ∈ rest ∨ custom_authorized op id).
Proof.
  intros Hop. revert M s rest. induction l as [|id l IH]; intros M s rest Hl Hok Hc; simpl in Hc.
  { injection Hc as <- <-. split_and!; [eauto|done|]. intros ? ?%not_elem_of_nil. done. }
  apply bind_Ok in Hc as ([s1 b] & H1 & Hc). apply bind_Ok in Hc as ([s2 rest'] & H2 & Hc).
  apply any_custom_sound with (M := M) in H1 as [[M1 Hok1] Hb]; [| |done].
  2:{ intros au Hau. split; [|eauto]. right. exists op, id. split_and!; [done| |auto]. left. apply Hl. by constructor. }
  injection Hc as <- <-.
  apply IH with (M := M1) in H2 as (Hok2 & Hsub & Hin); [|intros; apply Hl; by constructor|done].
  split_and!; [done| |].
  - intros j Hj. destruct b; [constructor; auto|]. apply elem_of_cons in Hj as [->|?]; [by constructor|constructor; auto].
  - intros j [->|Hj]%elem_of_cons.
    + destruct b; [|left; by constructor]. right. by apply Hb.
    + destruct (Hin j Hj); [left; destruct b; [done|by constructor]|by right].
Qed.

(** Only what the operations require is collected, ... *)
Record collected (r : requirements) : Prop := Collected {
  col_active : ∀ id, id ∈ required_active r → ∃ op, op ∈ ops ∧ id ∈ (op_required op).1.1;
  col_owner : ∀ id, id ∈ required_owner r → ∃ op, op ∈ ops ∧ id ∈ (op_required op).1.2;
  col_other : ∀ au, au ∈ required_other r → ∃ op, op ∈ ops ∧ au ∈ (op_required op).2 }.

(** ... and all that an operation requires, but for what custom authorities approve. *)
Record covers (r : requirements) (op : Op) : Prop := Covers {
  cov_active : ∀ id, id ∈ (op_required op).1.1 → id ∈ required_active r ∨ custom_authorized op id;
  cov_owner : ∀ id, id ∈ (op_required op).1.2 → id ∈ required_owner r;
  cov_other : ∀ au, au ∈ (op_required op).2 → au ∈ required_other r }.

Lemma collect_required_sound l r M s s' r' : (∀ op, op ∈ l → op ∈ ops) → collected r → ok M s →
  collect_required op_required get_active get_owner get_custom allow_non_immediate_owner max_recursion l r s
    = Ok (s', r') →
  (∃ M', ok M' s') ∧ collected r' ∧ (∀ op, covers r op → covers r' op) ∧ (∀ op, op ∈ l → covers r' op).
Proof.
  revert r M s. induction l as [|op l IH]; intros r M s Hl Hr Hok Hc; simpl in Hc.
  { injection Hc as <- <-. split_and!; [eauto|done|done|]. intros ? ?%not_elem_of_nil. done. }
  destruct (op_required op) as [[active owner] other] eqn:E. apply bind_Ok in Hc as ([s1 rest] & H1 & Hc).
  assert (op ∈ ops) as Hop by (apply Hl; by constructor).
  apply without_custom_sound with (M := M) in H1 as ([M1 Hok1] & Hsub & Hin);
    [|done|by intros id ?%elem_of_ascending; rewrite E|done].
  apply IH with (M := M1) in Hc as (Hok' & Hr' & Hmono & Hcov); [|intros; apply Hl; by constructor| |done].
  - split_and!; [done|done| |].
    + intros o [Ca Co Ct]. apply Hmono. split; simpl.
      * intros id [?|?]%Ca; [left; set_solver|by right].
      * intros id ?%Co. set_solver.
      * intros au ?%Ct. set_solver.
    + intros o [->|Ho]%elem_of_cons; [|by apply Hcov]. apply Hmono. split; simpl; rewrite E; simpl.
      * intros id Hid. destruct (Hin id) as [?|?]; [by apply elem_of_ascending| |by right].
        left. apply elem_of_union_r. by apply elem_of_list_to_set.
      * set_solver.
      * set_solver.
  - destruct Hr as [Ra Ro Rt]. split; simpl.
    + intros id [?|Hid%elem_of_list_to_set]%elem_of_union; [eauto|]. exists op. split; [done|]. rewrite E.
      by apply elem_of_ascending, Hsub.
    + intros id [?|Hid]%elem_of_union; [eauto|]. exists op. by rewrite E.
    + intros au [?|Hau]%elem_of_app; [eauto|]. exists op. by rewrite E.
Qed.

Lemma assert_all_sound {A} check P name (l : list A) M s s' : (∀ x, x ∈ l → sound check P x) → ok M s →
  assert_all check name l s = Ok s' → (∃ M', ok M' s') ∧ ∀ x, x ∈ l → P x.
Proof.
  unfold assert_all. revert M s. induction l as [|x l IH]; intros M s Hl Hok Hc; simpl in Hc.
  { injection Hc as <-. split; [eauto|]. intros ? ?%not_elem_of_nil. done. }
  apply bind_Ok in Hc as (s2 & H1 & Hc). apply bind_Ok in H1 as ([s1 b] & H1 & H2). inv_ok.
  destruct (Hl x) with M s s2 b as [[M1 Hok1] HP]; [by constructor|done|done|].
  apply IH with (M := M1) in Hc as [? HPl]; [|intros; apply Hl; by constructor|done].
  split; [done|]. intros y [->|Hy]%elem_of_cons; auto.
Qed.

Lemma used_relevant M s k : ok M s → (remove_unused_signatures s).2 = false → k ∈ sigs →
  relevant get_active get_owner required_root k.
Proof.
  intros Hok Hrm Hk. simpl in Hrm. apply negb_false_iff, bool_decide_eq_true_1 in Hrm.
  apply (so_sigs _ _ _ _ _ _ _ _ _ Hok), elem_of_dom in Hk as [b Hb].
  rewrite <- Hrm in Hb. apply map_lookup_filter_Some in Hb as [Hb E]. simpl in E. subst b.
  by apply (so_used _ _ _ _ _ _ _ _ _ Hok).
Qed.

(** An account that approves by itself: it is trusted, or its active or owner authority is
    satisfied. *)
Definition account_authorized (id : account_id_type) : Prop :=
  id ∈ trusted ∨ authorized_by (get_active id) ∨ authorized_by (get_owner id).

Lemma sat_by_authorized M r :
  satisfied_by get_active get_owner allow_non_immediate_owner (signs ∅ sigs) (signs_address ∅ sigs) trusted M r = true →
  authorized_by r.
Proof. destruct r as [[x|]|]; simpl; [|done..]. intros Hs. exists x. split; [done|by exists M]. Qed.

Lemma approves_authorized M id :
  approves get_active get_owner allow_non_immediate_owner (signs ∅ sigs) (signs_address ∅ sigs) trusted M id = true →
  account_authorized id.
Proof.
  unfold approves. rewrite orb_true_iff. intros [?%bool_decide_eq_true_1|Hs]; [by left|right].
  destruct M as [|M]; [done|]. apply orb_true_iff in Hs as [Hs|[_ Hs]%andb_true_iff];
    apply sat_by_authorized in Hs; auto.
Qed.

Lemma required_account_root op id au : op ∈ ops → id ∈ (op_required op).1.1 ∨ id ∈ (op_required op).1.2 →
  get_active id = Ok (Some au) ∨ get_owner id = Ok (Some au) → required_root au ∧ auth_wf au.
Proof. intros Hop Hid Hau. split; [right; exists op, id; naive_solver|naive_solver]. Qed.

Lemma or_owner_sound op id first : op ∈ ops → id ∈ (op_required op).1.1 ∨ id ∈ (op_required op).1.2 →
  sound (λ id s, or_owner get_active get_owner allow_non_immediate_owner ∅ max_recursion id (first id) s)
    (λ id, first id = true ∨ authorized_by (get_owner id)) id.
Proof.
  intros Hop Hid M s s' b Hok Hc. unfold or_owner in Hc. destruct (first id).
  { injection Hc as <- <-. eauto. }
  apply bind_Ok in Hc as (oau & E & Hc).
  eapply opt_root_sound in Hc as [? Hb]; [|done| |done].
  - split; [done|]. intros Eb. right. by apply Hb.
  - intros au Hau. eapply required_account_root; eauto.
Qed.

Lemma required_active_sound op id : op ∈ ops → id ∈ (op_required op).1.1 →
  sound (check_required_active get_active get_owner allow_non_immediate_owner ∅ max_recursion) account_authorized id.
Proof.
  intros Hop Hid M s s' b Hok Hc. unfold check_required_active in Hc. apply bind_Ok in Hc as ([s1 b1] & H1 & Hc).
  eapply check_account_exact in H1 as (M1 & _ & Hok1 & Hb1 & _); [|exact wf_active|exact wf_owner| |exact Hok].
  - destruct (or_owner_sound op id (λ _, b1)) with M1 s1 s' b as [? Hb]; [done|by left|done|done|].
    split; [done|]. intros E. destruct (Hb E) as [E1|?]; [|right; by right].
    eapply approves_authorized. by apply Hb1.
  - intros au Hau. apply concerns_root. by eapply required_account_root; [|left|].
Qed.
Lemma verify_sound allow_committee active_approvals owner_approvals :
  approvals = active_approvals ∪ owner_approvals →
  verify_authority op_required get_active get_owner get_custom allow_non_immediate_owner max_recursion ops sigs
    allow_committee active_approvals owner_approvals = Ok () →
  (∀ op, op ∈ ops →
    (∀ id, id ∈ (op_required op).1.1 →
       custom_authorized op id ∨
       (account_authorized id ∧ (allow_committee = false → id ≠ GRAPHENE_COMMITTEE_ACCOUNT))) ∧
    (∀ id, id ∈ (op_required op).1.2 → id ∈ owner_approvals ∨ authorized_by (get_owner id)) ∧
    (∀ au, au ∈ (op_required op).2 → authorized au)) ∧
  (∀ k, k ∈ sigs → relevant get_active get_owner required_root k).
Proof.
  intros Eap Hv. unfold verify_authority in Hv. rewrite <- Eap in Hv. apply bind_Ok in Hv as ([s1 r] & H1 & Hv).
  apply bind_Ok in Hv as (u & Hcom & Hv). apply bind_Ok in Hv as (s2 & H2 & Hv).
  apply bind_Ok in Hv as (s3 & H3 & Hv). apply bind_Ok in Hv as (s4 & H4 & Hv).
  eapply collect_required_sound in H1 as ([M1 Hok1] & [Ca Co Ct] & _ & Hcov);
    [|done|split; set_solver|by apply new_sign_ok].
  apply (assert_all_sound _ authorized) with (M := M1) in H2 as [[M2 Hok2] Hother]; [| |done].
  2:{ intros au (op & ? & ?)%Ct. apply root_sound; [left; eauto|eauto]. }
  apply (assert_all_sound _ (λ id, bool_decide (id ∈ owner_approvals) = true ∨ authorized_by (get_owner id)))
    with (M := M2) in H3 as [[M3 Hok3] Howner]; [| |done].
  2:{ intros id (op & ? & ?)%elem_of_ascending%Co. apply (or_owner_sound op id (λ id, bool_decide (id ∈ owner_approvals))); eauto. }
  apply (assert_all_sound _ account_authorized) with (M := M3) in H4 as [[M4 Hok4] Hactive]; [| |done].
  2:{ intros id (op & ? & ?)%elem_of_ascending%Ca. eapply required_active_sound; eauto. }
  split.
  - intros op Hop. destruct (Hcov op Hop) as [Va Vo Vt]. split_and!.
    + intros id [Hid|?]%Va; [right|by left]. split; [by apply Hactive, elem_of_ascending|].
      intros -> ->. apply GRAPHENE_ASSERT_Ok, bool_decide_eq_true_1 in Hcom. done.
    + intros id Hid%Vo. destruct (Howner id) as [Hb|?]; [by apply elem_of_ascending| |by right].
      left. by apply bool_decide_eq_true_1 in Hb.
    + intros au Hau. by apply Hother, Vt.
  - intros k Hk. apply GRAPHENE_ASSERT_Ok, negb_true_iff in Hv. exact (used_relevant M4 _ k Hok4 Hv Hk).
Qed.
End verified.

(** ** The signatures asked for are enough *)

(** Signatures that have been used stay used. *)
Definition grows (s s' : sign_state) : Prop :=
  ∀ k, provided_signatures s !! k = Some true → provided_signatures s' !! k = Some true.

#[global] Instance grows_preorder : PreOrder grows.
Proof. split; [by intros s k|]. intros s s' s'' H1 H2 k Hk. auto. Qed.

Lemma grows_use k s : grows s (use_key k s).
Proof. intros j Hj. simpl. destruct (decide (k = j)) as [->|]; [by rewrite lookup_insert_eq|by rewrite lookup_insert_ne]. Qed.

Lemma add_weights_grows signed th l s t s' t' r :
  (∀ a s s' b, signed a s = Ok (s', b) → grows s s') →
  add_weights signed th l s t = Ok (s', t', r) → grows s s'.
Proof.
  intros Hs. revert s t. induction l as [|[a w] l IH]; intros s t Ha; simpl in Ha; [by injection Ha as <- _ _|].
  apply bind_Ok in Ha as ([s1 b] & H1 & Ha). apply Hs in H1. transitivity s1; [done|].
  destruct b; [|by eapply IH]. destruct (_ <=? _); [by injection Ha as <- _ _|by eapply IH].
Qed.

Section grows.
Context `{KeyAddresses}.
Variable get_active get_owner : account_id_type → result (option authority).
Variable allow_non_immediate_owner : bool.
Variable available : gset public_key_type.
Notation check := (check_authority get_active get_owner allow_non_immediate_owner available).

Lemma signed_by_grows a s s' b : signed_by available a s = Ok (s', b) → grows s s'.
Proof.
  unfold signed_by. intros Hs. destruct (_ !! _); [|destruct (bool_decide _)];
    injection Hs as <- _; try apply grows_use; done.
Qed.

Lemma signed_by_address_grows a s s' b : signed_by_address available a s = Ok (s', b) → grows s s'.
Proof.
  unfold signed_by_address. destruct (address_cache available s) as [av pr]. intros Hs.
  destruct (pr !! a); [|destruct (av !! a); [|done]; destruct (bool_decide _)];
    injection Hs as <- _; try (intros k Hk; by apply grows_use); by intros k Hk.
Qed.

Lemma check_grows n oau s s' b : check n oau s = Ok (s', b) → grows s s'.
Proof.
  revert oau s s' b. induction n as [n IH] using lt_wf_ind. intros [au|] s s' b Hc;
    [|by destruct n; injection Hc as <- _].
  rewrite check_eq in Hc.
  apply bind_Ok in Hc as ([[s1 t1] r1] & H1 & Hc). apply add_weights_grows in H1; [|exact signed_by_grows].
  transitivity s1; [done|]. destruct r1; [by injection Hc as <- _|].
  apply bind_Ok in Hc as ([[s2 t2] r2] & H2 & Hc). apply add_weights_grows in H2; [|exact signed_by_address_grows].
  transitivity s2; [done|]. destruct r2; [by injection Hc as <- _|].
  apply bind_Ok in Hc as ([[s3 t3] r3] & H3 & Hc). enough (grows s2 s3) by (destruct r3; by injection Hc as <- _).
  eapply add_weights_grows; [|done]. clear -IH. intros a s s' b Hc. unfold check_member in Hc.
  destruct (bool_decide _); [by injection Hc as <- _|]. destruct n as [|n]; [by injection Hc as <- _|].
  apply bind_Ok in Hc as (oau & _ & Hc). apply bind_Ok in Hc as ([s1 b1] & H1 & Hc).
  apply IH in H1; [|lia]. transitivity s1; [done|]. apply bind_Ok in Hc as ([s2 b2] & H2 & Hc).
  assert (grows s1 s2) as H3.
  { destruct b1; [by injection H2 as <- _|]. destruct allow_non_immediate_owner; [|by injection H2 as <- _].
    apply bind_Ok in H2 as (oow & _ & H2). by apply IH in H2; [|lia]. }
  transitivity s2; [done|]. injection Hc as <- _. destruct b2; intros k Hk; exact Hk.
Qed.

Lemma check_member_grows n a s s' b :
  check_member get_active get_owner allow_non_immediate_owner available n a s = Ok (s', b) → grows s s'.
Proof.
  intros Hm. apply (check_grows n (Some (Authority 1 [(a, 1)] [] [])) _ _ b).
  rewrite check_eq. simpl. rewrite Hm. by destruct b.
Qed.

(** The owner authority as the second choice. *)
Lemma second_choice_grows n a (yes : bool) s s' b :
  (if yes then Ok (s, true) else if allow_non_immediate_owner then au ← get_owner a; check n au s else Ok (s, false))
    = Ok (s', b) → grows s s'.
Proof.
  intros Hc. destruct yes; [by injection Hc as <- _|].
  destruct allow_non_immediate_owner eqn:E; [|by injection Hc as <- _].
  apply bind_Ok in Hc as (oow & _ & Hc). rewrite <- E in Hc. by apply check_grows in Hc.
Qed.
End grows.

(** Run A has the keys [available] at its disposal and no signatures, run B has the signatures
    [K]: as long as A uses no key outside [K], B gives the same answers. *)
Section replay.
Context `{KeyAddresses}.
Variable get_active get_owner : account_id_type → result (option authority).
Variable allow_non_immediate_owner : bool.
Variable available K : gset public_key_type.
Hypothesis K_available : K ⊆ available.
Hypothesis plain_active : ∀ a au, get_active a = Ok (Some au) → address_auths au = [].
Hypothesis plain_owner : ∀ a au, get_owner a = Ok (Some au) → address_auths au = [].

Notation checkA := (check_authority get_active get_owner allow_non_immediate_owner available).
Notation checkB := (check_authority get_active get_owner allow_non_immediate_owner ∅).

Definition within (s : sign_state) : Prop := ∀ k, provided_signatures s !! k = Some true → k ∈ K.

Lemma within_grows s s' : grows s s' → within s' → within s.
Proof. intros Hg Hw k Hk. auto. Qed.

Record alike (sA sB : sign_state) : Prop := Alike {
  al_approved : approved_by sA = approved_by sB;
  al_domB : dom (provided_signatures sB) = K;
  al_used : ∀ k, provided_signatures sA !! k = Some true ↔ provided_signatures sB !! k = Some true }.

Definition replays {X} (cA cB : X → sign_state → result (sign_state * bool)) (x : X) : Prop :=
  ∀ sA sB sA' b, alike sA sB → cA x sA = Ok (sA', b) → within sA' → ∃ sB', cB x sB = Ok (sB', b) ∧ alike sA' sB'.

Lemma alike_use k sA sB : k ∈ K → alike sA sB → alike (use_key k sA) (use_key k sB).
Proof.
  intros Hk [? ? Hu]. split; simpl; [done|rewrite dom_insert_L; set_solver|].
  intros j. destruct (decide (k = j)) as [->|]; [by rewrite !lookup_insert_eq|by rewrite !lookup_insert_ne].
Qed.

Lemma signed_by_replays k : replays (signed_by available) (signed_by ∅) k.
Proof.
  intros sA sB sA' b Hal Hc Hw. unfold signed_by in *.
  destruct (provided_signatures sB !! k) as [v|] eqn:EB.
  - assert (k ∈ K) as Hk by (rewrite <- (al_domB _ _ Hal); by apply elem_of_dom_2 in EB).
    exists (use_key k sB). enough (sA' = use_key k sA ∧ b = true) as [-> ->] by (split; [done|by apply alike_use]).
    rewrite bool_decide_eq_true_2 in Hc by set_solver. destruct (provided_signatures sA !! k); by injection Hc as <- <-.
  - assert (k ∉ K) as Hk by (rewrite <- (al_domB _ _ Hal); by apply not_elem_of_dom).
    rewrite bool_decide_eq_false_2 by set_solver. exists sB.
    enough (sA' = sA ∧ b = false) as [-> ->] by done.
    assert (use_key k sA ≠ sA') as Hne.
    { intros <-. apply Hk, Hw. simpl. by rewrite lookup_insert_eq. }
    destruct (provided_signatures sA !! k); [by injection Hc|]. destruct (bool_decide _); by injection Hc as <- <-.
Qed.

Lemma add_weights_replays cA cB th l sA sB t sA' t' r :
  (∀ a, a ∈ l.*1 → replays cA cB a) → (∀ a s s' b, cA a s = Ok (s', b) → grows s s') →
  alike sA sB → add_weights cA th l sA t = Ok (sA', t', r) → within sA' →
  ∃ sB', add_weights cB th l sB t = Ok (sB', t', r) ∧ alike sA' sB'.
Proof.
  intros Hrep Hgr. revert sA sB t. induction l as [|[a w] l IH]; intros sA sB t Hal Ha Hw; simpl in *.
  { injection Ha as <- <- <-. eauto. }
  apply bind_Ok in Ha as ([s1 b] & H1 & Ha).
  assert (grows s1 sA') as Hg1.
  { destruct b; [destruct (_ <=? _)|]; [by injection Ha as <- _ _|by eapply add_weights_grows..]. }
  destruct (Hrep a ltac:(by constructor) sA sB s1 b) as (sB1 & -> & Hal1); [done|done|by eapply within_grows|]. simpl.
  assert (∀ t, add_weights cA th l s1 t = Ok (sA', t', r) →
    ∃ sB', add_weights cB th l sB1 t = Ok (sB', t', r) ∧ alike sA' sB') as IH1.
  { intros t0 Ht0. apply (IH ltac:(intros; apply Hrep; by constructor) s1); done. }
  destruct b; [|by apply IH1]. destruct (_ <=? _); [|by apply IH1]. injection Ha as <- <- <-. eauto.
Qed.

Lemma alike_approve a sA sB : alike sA sB → alike (approve a sA) (approve a sB).
Proof. intros [E ? ?]. split; simpl; [by rewrite E|done..]. Qed.

(** The owner authority as the second choice. *)
Lemma second_choice_replays n a yes : (∀ oau, get_owner a = Ok oau → replays (checkA n) (checkB n) oau) →
  replays (λ a s, if (yes : bool) then Ok (s, true)
                  else if allow_non_immediate_owner then au ← get_owner a; checkA n au s else Ok (s, false))
          (λ a s, if (yes : bool) then Ok (s, true)
                  else if allow_non_immediate_owner then au ← get_owner a; checkB n au s else Ok (s, false)) a.
Proof.
  intros Hr sA sB sA' b Hal Hc Hw. destruct yes; [injection Hc as <- <-; eauto|].
  destruct allow_non_immediate_owner; [|injection Hc as <- <-; eauto].
  apply bind_Ok in Hc as (oau & E & Hc). rewrite E. simpl. by apply (Hr oau E sA).
Qed.

Lemma check_member_replays n a : (∀ m, n = S m → ∀ oau, (∀ au, oau = Some au → address_auths au = []) →
    replays (checkA m) (checkB m) oau) →
  replays (check_member get_active get_owner allow_non_immediate_owner available n)
          (check_member get_active get_owner allow_non_immediate_owner ∅ n) a.
Proof.
  intros IH sA sB sA' b Hal Hc Hw. unfold check_member in *. rewrite <- (al_approved _ _ Hal).
  destruct (bool_decide _); [injection Hc as <- <-; eauto|].
  destruct n as [|n]; [injection Hc as <- <-; eauto|]. specialize (IH n eq_refl).
  apply bind_Ok in Hc as (oau & Eact & Hc). rewrite Eact. simpl.
  apply bind_Ok in Hc as ([s1 b1] & H1 & Hc). apply bind_Ok in Hc as ([s2 b2] & H2 & Hc). injection Hc as <- <-.
  assert (within s2) as Hw2 by (destruct b2; exact Hw). pose proof (second_choice_grows _ _ _ _ _ _ _ _ _ _ H2) as Hg.
  destruct (IH oau) with sA sB s1 b1 as (sB1 & -> & Hal1); [intros au ->; eauto|done|done|by eapply within_grows|].
  simpl. destruct (second_choice_replays n a b1) with s1 sB1 s2 b2 as (sB2 & -> & Hal2); [|done|done|done|].
  { intros oow Eown. apply IH. intros au ->. eauto. }
  simpl. eexists. split; [done|]. destruct b2; [by apply alike_approve|done].
Qed.

Lemma check_replays n oau : (∀ au, oau = Some au → address_auths au = []) → replays (checkA n) (checkB n) oau.
Proof.
  revert oau. induction n as [n IH] using lt_wf_ind. intros [au|] Hnil sA sB sA' b Hal Hc Hw;
    [|destruct n; injection Hc as <- <-; exists sB; done].
  rewrite check_eq in *. rewrite (Hnil au eq_refl) in *.
  apply bind_Ok in Hc as ([[s1 t1] r1] & H1 & Hc). simpl in Hc.
  assert (grows s1 sA') as Hg1.
  { destruct r1; [by injection Hc as <- _|]. apply bind_Ok in Hc as ([[s3 t3] r3] & H3 & Hc).
    apply add_weights_grows in H3; [|intros *; apply check_member_grows]. destruct r3; by injection Hc as <- _. }
  eapply (add_weights_replays _ (signed_by ∅)) in H1 as (sB1 & -> & Hal1);
    [|intros; apply signed_by_replays|intros *; apply signed_by_grows|exact Hal|by eapply within_grows].
  simpl. destruct r1; [injection Hc as <- <-; eauto|].
  apply bind_Ok in Hc as ([[s3 t3] r3] & H3 & Hc).
  assert (sA' = s3) as -> by (destruct r3; by injection Hc as <- _).
  eapply (add_weights_replays _ (check_member get_active get_owner allow_non_immediate_owner ∅ n))
    in H3 as (sB3 & -> & Hal3); [| |intros *; apply check_member_grows|exact Hal1|done].
  { simpl. destruct r3; injection Hc as <-; eauto. }
  intros a _. apply check_member_replays. intros m ->. apply IH. lia.
Qed.

(** The checks of required accounts. *)
Lemma check_account_replays n id :
  replays (check_account get_active get_owner allow_non_immediate_owner available n)
          (check_account get_active get_owner allow_non_immediate_owner ∅ n) id.
Proof.
  intros sA sB sA' b Hal Hc Hw. unfold check_account in *. rewrite <- (al_approved _ _ Hal).
  destruct (bool_decide _); [injection Hc as <- <-; eauto|].
  apply bind_Ok in Hc as (oau & Eact & Hc). rewrite Eact. simpl. apply bind_Ok in Hc as ([s1 b1] & H1 & Hc).
  pose proof (second_choice_grows _ _ _ _ _ _ _ _ _ _ Hc) as Hg.
  destruct (check_replays n oau) with sA sB s1 b1 as (sB1 & -> & Hal1); [intros au ->; eauto|done|done|by eapply within_grows|].
  simpl. apply (second_choice_replays n id b1) with s1; [|done..].
  intros oow Eown. apply check_replays. intros au ->. eauto.
Qed.

Lemma or_owner_replays n id first :
  replays (λ id, or_owner get_active get_owner allow_non_immediate_owner available n id first)
          (λ id, or_owner get_active get_owner allow_non_immediate_owner ∅ n id first) id.
Proof.
  intros sA sB sA' b Hal Hc Hw. unfold or_owner in *. destruct first; [injection Hc as <- <-; eauto|].
  apply bind_Ok in Hc as (oau & E & Hc). rewrite E. simpl. apply (check_replays n oau) with sA; [|done..].
  intros au ->. eauto.
Qed.

Lemma or_owner_grows n id first s s' b :
  or_owner get_active get_owner allow_non_immediate_owner available n id first s = Ok (s', b) → grows s s'.
Proof.
  unfold or_owner. destruct first; intros Hc; [by injection Hc as <- _|].
  apply bind_Ok in Hc as (oau & _ & Hc). by apply check_grows in Hc.
Qed.

Lemma check_account_grows n id s s' b :
  check_account get_active get_owner allow_non_immediate_owner available n id s = Ok (s', b) → grows s s'.
Proof.
  unfold check_account. intros Hc. destruct (bool_decide _); [by injection Hc as <- _|].
  apply bind_Ok in Hc as (oau & _ & Hc). apply bind_Ok in Hc as ([s1 b1] & H1 & Hc).
  apply check_grows in H1. transitivity s1; [done|]. by apply second_choice_grows in Hc.
Qed.

Lemma required_active_replays n id :
  replays (check_required_active get_active get_owner allow_non_immediate_owner available n)
          (check_required_active get_active get_owner allow_non_immediate_owner ∅ n) id.
Proof.
  intros sA sB sA' b Hal Hc Hw. unfold check_required_active in *. apply bind_Ok in Hc as ([s1 b1] & H1 & Hc).
  pose proof (or_owner_grows _ _ _ _ _ _ Hc) as Hg.
  destruct (check_account_replays n id) with sA sB s1 b1 as (sB1 & -> & Hal1); [done|done|by eapply within_grows|].
  simpl. by apply (or_owner_replays n id b1) with s1.
Qed.
End replay.

Section suffice.
Context `{KeyAddresses} {Op : Type}.
Variable op_required : Op → gset account_id_type * gset account_id_type * list authority.
Variable get_active get_owner : account_id_type → result (option authority).
Variable allow_non_immediate_owner : bool.
Variable n : nat.
Variable available : gset public_key_type.
Hypothesis wf_active : ∀ a au, get_active a = Ok (Some au) → auth_wf au ∧ address_auths au = [].
Hypothesis wf_owner : ∀ a au, get_owner a = Ok (Some au) → auth_wf au ∧ address_auths au = [].

Notation trusted := ({[ GRAPHENE_TEMP_ACCOUNT ]} ∪ ∅ : gset Z).
Notation sat_by := (satisfied_by get_active get_owner allow_non_immediate_owner
  (signs available ∅) (signs_address available ∅) trusted n).
Notation ok := (sign_ok get_active get_owner allow_non_immediate_owner available ∅ trusted (λ _, True)).

Lemma try_all_grows {X} cA (l : list X) s s' :
  (∀ x s s' b, cA x s = Ok (s', b) → grows s s') → try_all cA l s = Ok s' → grows s s'.
Proof.
  intros Hg. unfold try_all. revert s. induction l as [|x l IH]; intros s Hc; simpl in Hc; [by injection Hc as <-|].
  apply bind_Ok in Hc as (s2 & H1 & Hc). apply bind_Ok in H1 as ([s1 b] & H1 & E). injection E as <-.
  apply Hg in H1. transitivity s1; [done|by apply IH].
Qed.

(** A loop of run A, whose checks all succeed, and the same loop of run B. *)
Lemma try_assert {X} K cA cB name (l : list X) M sA sB sA' :
  (∀ x, x ∈ l → replays K cA cB x) → (∀ x s s' b, cA x s = Ok (s', b) → grows s s') →
  (∀ x M s s' b, x ∈ l → ok M s → cA x s = Ok (s', b) → (∃ M', ok M' s') ∧ b = true) →
  ok M sA → try_all cA l sA = Ok sA' → (∃ M', ok M' sA') ∧
  (alike K sA sB → within K sA' → ∃ sB', assert_all cB name l sB = Ok sB' ∧ alike K sA' sB').
Proof.
  intros Hrep Hg Hyes. unfold try_all, assert_all. revert M sA sB.
  induction l as [|x l IH]; intros M sA sB Hok Hc; simpl in *.
  { injection Hc as <-. split; [eauto|]. intros Hal _. eauto. }
  apply bind_Ok in Hc as (s2 & H1 & Hc). apply bind_Ok in H1 as ([s1 b] & H1 & E). injection E as <-.
  destruct (Hyes x M sA s1 b) as [[M1 Hok1] ->]; [by constructor|done|done|].
  assert (∀ sB, (∃ M', ok M' sA') ∧ (alike K s1 sB → within K sA' → ∃ sB', assert_all cB name l sB = Ok sB' ∧ alike K sA' sB'))
    as IH1 by (intros sB1; apply (IH ltac:(intros; apply Hrep; by constructor)
                 ltac:(intros; eapply Hyes; eauto; by constructor) M1); done).
  split; [by apply (IH1 sB)|]. intros Hal Hw.
  destruct (Hrep x) with sA sB s1 true as (sB1 & -> & Hal1); [by constructor|done|done| |].
  { eapply within_grows; [|done]. by eapply try_all_grows. }
  simpl. by apply IH1.
Qed.

(** Without custom authorities everything required is collected, as the state is. *)
Lemma collect_plain ops r s :
  collect_required op_required get_active get_owner (λ _ _, []) allow_non_immediate_owner n ops r s =
  Ok (s, foldl (λ r op, let '(active, owner, other) := op_required op in
    Requirements (required_active r ∪ active) (required_owner r ∪ owner) (required_other r ++ other)) r ops).
Proof.
  revert r. induction ops as [|op ops IH]; intros r; simpl; [done|].
  destruct (op_required op) as [[active owner] other].
  assert (∀ l, without_custom get_active get_owner (λ _ _, []) allow_non_immediate_owner n op l s = Ok (s, l)) as ->.
  { induction l as [|id l IHl]; simpl; [done|]. by rewrite IHl. }
  simpl. rewrite IH. do 3 f_equal. f_equal. f_equal. apply set_eq. intros x. by rewrite elem_of_list_to_set, elem_of_ascending.
Qed.

Lemma active_yes M id s s' b : ok M s →
  check_required_active get_active get_owner allow_non_immediate_owner available n id s = Ok (s', b) →
  id ∈ trusted ∨ sat_by (get_active id) = true ∨ sat_by (get_owner id) = true →
  (∃ M', ok M' s') ∧ b = true.
Proof.
  intros Hok Hc Hs. unfold check_required_active in Hc. apply bind_Ok in Hc as ([s1 b1] & H1 & Hc).
  eapply (check_account_exact _ _ _ _ _ _ (λ _, True)) in H1 as (M1 & _ & Hok1 & _ & Hb1);
    [|by intros a au [? _]%wf_active|by intros a au [? _]%wf_owner|intros; by apply concerns_root|done].
  unfold or_owner in Hc. destruct b1; [injection Hc as <- <-; eauto|].
  apply bind_Ok in Hc as (oau & E & Hc).
  eapply (check_agrees _ _ _ _ _ _ (λ _, True)) in Hc as (M2 & _ & Hok2 & _ & Hb2);
    [|by intros a au [? _]%wf_active|by intros a au [? _]%wf_owner| |done].
  - split; [eauto|]. destruct Hs as [Hs|[Hs|Hs]]; [by specialize (Hb1 (or_introl Hs))|by specialize (Hb1 (or_intror Hs))|].
    apply Hb2. by rewrite <- E.
  - intros au ->. split; [by apply concerns_root|by apply wf_owner in E as [? _]].
Qed.

Lemma owner_yes M r oau s s' b : ok M s → r = Ok oau → (∀ au, r = Ok (Some au) → auth_wf au) →
  check_authority get_active get_owner allow_non_immediate_owner available n oau s = Ok (s', b) →
  sat_by r = true → (∃ M', ok M' s') ∧ b = true.
Proof.
  intros Hok -> Hwf Hc Hs. eapply (check_agrees _ _ _ _ _ _ (λ _, True)) in Hc as (M2 & _ & Hok2 & _ & Hb2);
    [|by intros a au [? _]%wf_active|by intros a au [? _]%wf_owner| |done].
  - split; [eauto|by apply Hb2].
  - intros au ->. split; [by apply concerns_root|by apply Hwf].
Qed.

(** The available keys satisfy what is required. *)
Record can_sign (r : requirements) : Prop := CanSign {
  can_other : ∀ au, au ∈ required_other r → auth_wf au ∧ address_auths au = [] ∧ sat_by (Ok (Some au)) = true;
  can_owner : ∀ id, id ∈ required_owner r → sat_by (get_owner id) = true;
  can_active : ∀ id, id ∈ required_active r →
    id = GRAPHENE_TEMP_ACCOUNT ∨ sat_by (get_active id) = true ∨ sat_by (get_owner id) = true }.

Lemma collected_elem ops r0 :
  let r := foldl (λ r op, let '(active, owner, other) := op_required op in
    Requirements (required_active r ∪ active) (required_owner r ∪ owner) (required_other r ++ other)) r0 ops in
  (∀ id, id ∈ required_active r → id ∈ required_active r0 ∨ ∃ op, op ∈ ops ∧ id ∈ (op_required op).1.1) ∧
  (∀ id, id ∈ required_owner r → id ∈ required_owner r0 ∨ ∃ op, op ∈ ops ∧ id ∈ (op_required op).1.2).
Proof.
  revert r0. induction ops as [|op ops IH]; intros r0; simpl; [auto|].
  destruct (op_required op) as [[active owner] other] eqn:E.
  destruct (IH (Requirements (required_active r0 ∪ active) (required_owner r0 ∪ owner) (required_other r0 ++ other)))
    as [Ha Ho]. split.
  - intros id [Hid|(o & ? & ?)]%Ha; [|right; exists o; split; [by constructor|done]].
    simpl in Hid. apply elem_of_union in Hid as [?|?]; [by left|right]. exists op. split; [by constructor|by rewrite E].
  - intros id [Hid|(o & ? & ?)]%Ho; [|right; exists o; split; [by constructor|done]].
    simpl in Hid. apply elem_of_union in Hid as [?|?]; [by left|right]. exists op. split; [by constructor|by rewrite E].
Qed.

Lemma new_alike K : alike K (new_sign_state ∅ ∅) (new_sign_state K ∅).
Proof.
  split; simpl; [done|by rewrite dom_gset_to_gmap|]. intros k. rewrite !lookup_gset_to_gmap_Some. naive_solver.
Qed.

Lemma all_used K sA sB : alike K sA sB → (∀ k, k ∈ K → provided_signatures sA !! k = Some true) →
  (remove_unused_signatures sB).2 = false.
Proof.
  intros Hal HK. simpl. apply negb_false_iff, bool_decide_eq_true_2, map_filter_id.
  intros k v Hk. assert (k ∈ K) as Hin%HK by (rewrite <- (al_domB _ _ _ Hal); by apply elem_of_dom_2 in Hk).
  apply (al_used _ _ _ Hal) in Hin. simplify_eq. done.
Qed.

Lemma required_active_grows id s s' b :
  check_required_active get_active get_owner allow_non_immediate_owner available n id s = Ok (s', b) → grows s s'.
Proof.
  unfold check_required_active. intros Hc. apply bind_Ok in Hc as ([s1 b1] & H1 & Hc).
  apply check_account_grows in H1. apply or_owner_grows in Hc. by transitivity s1.
Qed.

(** The loops of run A over what is required, and what run B makes of them. *)
Section loops.
Variable K : gset public_key_type.
Hypothesis K_available : K ⊆ available.
Variable r : requirements.
Hypothesis Hr : can_sign r.

Lemma plain_active' a au : get_active a = Ok (Some au) → address_auths au = [].
Proof. by intros [_ ?]%wf_active. Qed.
Lemma plain_owner' a au : get_owner a = Ok (Some au) → address_auths au = [].
Proof. by intros [_ ?]%wf_owner. Qed.

Lemma other_loop M sA sB sA' : ok M sA →
  try_all (λ au, check_authority get_active get_owner allow_non_immediate_owner available n (Some au))
    (required_other r) sA = Ok sA' → (∃ M', ok M' sA') ∧
  (alike K sA sB → within K sA' → ∃ sB', assert_all (λ au, check_authority get_active get_owner
     allow_non_immediate_owner ∅ n (Some au)) "tx_missing_other_auth" (required_other r) sB = Ok sB' ∧ alike K sA' sB').
Proof.
  apply try_assert.
  - intros au (_ & Hnil & _)%(can_other _ Hr) s1 s2 s3 b. simpl.
    apply (check_replays _ _ _ _ K K_available plain_active' plain_owner'). by intros x [= <-].
  - intros *. apply check_grows.
  - intros au M0 s s' b (Hwf & _ & Hs)%(can_other _ Hr) Hok Hc.
    eapply (owner_yes _ (Ok (Some au))); [exact Hok|done| |exact Hc|exact Hs]. by intros x [= <-].
Qed.

Lemma owner_loop (approvals : gset account_id_type) M sA sB sA' : approvals = ∅ → ok M sA →
  try_all (λ id s, au ← get_owner id; check_authority get_active get_owner allow_non_immediate_owner available n au s)
    (ascending (required_owner r)) sA = Ok sA' → (∃ M', ok M' sA') ∧
  (alike K sA sB → within K sA' → ∃ sB', assert_all (λ id s, or_owner get_active get_owner
     allow_non_immediate_owner ∅ n id (bool_decide (id ∈ approvals)) s)
     "tx_missing_owner_auth" (ascending (required_owner r)) sB = Ok sB' ∧ alike K sA' sB').
Proof.
  intros ->. apply try_assert.
  - intros id _ s1 s2 s3 b. rewrite bool_decide_eq_false_2 by set_solver.
    exact (or_owner_replays get_active get_owner allow_non_immediate_owner available K K_available
      plain_active' plain_owner' n id false s1 s2 s3 b).
  - intros id. exact (or_owner_grows get_active get_owner allow_non_immediate_owner available n id false).
  - intros id M0 s s' b Hid%elem_of_ascending%(can_owner _ Hr) Hok Hc. apply bind_Ok in Hc as (oau & E & Hc).
    eapply owner_yes; [exact Hok|exact E| |exact Hc|exact Hid]. by intros x [? _]%wf_owner.
Qed.

Lemma active_loop M sA sB sA' : ok M sA →
  try_all (check_required_active get_active get_owner allow_non_immediate_owner available n)
    (ascending (required_active r)) sA = Ok sA' → (∃ M', ok M' sA') ∧
  (alike K sA sB → within K sA' → ∃ sB', assert_all (check_required_active get_active get_owner
     allow_non_immediate_owner ∅ n) "tx_missing_active_auth" (ascending (required_active r)) sB = Ok sB' ∧ alike K sA' sB').
Proof.
  apply try_assert.
  - intros id _. by apply (required_active_replays _ _ _ _ K K_available plain_active' plain_owner').
  - exact required_active_grows.
  - intros id M0 s s' b Hid%elem_of_ascending%(can_active _ Hr) Hok Hc.
    eapply active_yes; [exact Hok|exact Hc|set_solver].
Qed.
End loops.

Lemma signatures_suffice ops R :
  (∀ op op', op ∈ ops → op' ∈ ops → (op_required op).1.1 ## (op_required op').1.2) →
  (∀ op, op ∈ ops → GRAPHENE_COMMITTEE_ACCOUNT ∉ (op_required op).1.1) →
  can_sign (get_required_authorities op_required ops) →
  get_required_signatures op_required get_active get_owner allow_non_immediate_owner n ops ∅ available = Ok R →
  R ⊆ available ∧
  verify_authority op_required get_active get_owner (λ _ _, []) allow_non_immediate_owner n ops R false ∅ ∅ = Ok ().
Proof.
  intros Hdis Hcom Hcan HR. unfold get_required_signatures in HR. unfold verify_authority.
  rewrite collect_plain, (union_idemp_L ∅).
  destruct (collected_elem ops (Requirements ∅ ∅ [])) as [Ea Eo].
  unfold get_required_authorities in *. set (r := foldl _ _ ops) in *. cbn [required_active required_owner required_other] in *.
  assert (required_active r ∖ required_owner r = required_active r) as Ediff.
  { apply set_eq. intros id. rewrite elem_of_difference. split; [naive_solver|]. intros Hid. split; [done|].
    intros [?|(op' & ? & ?)]%Eo; [set_solver|]. apply Ea in Hid as [?|(op & ? & ?)]; [set_solver|].
    by eapply (Hdis op op'). }
  rewrite Ediff in Hcan, HR. destruct r as [ra ro rt]. cbn [required_active required_owner required_other] in *.
  apply bind_Ok in HR as (s1 & H1 & HR). apply bind_Ok in HR as (s2 & H2 & HR). apply bind_Ok in HR as (s3 & H3 & HR).
  injection HR as <-. set (K := (dom _ ∩ available) ∖ ∅).
  assert (K ⊆ available) as HK by set_solver. split; [done|].
  assert (∀ name, GRAPHENE_ASSERT (bool_decide (GRAPHENE_COMMITTEE_ACCOUNT ∉ ra)) name = Ok ()) as Hassert.
  { intros name. apply GRAPHENE_ASSERT_Ok, bool_decide_eq_true_2. intros [?|(op & ? & ?)]%Ea; [set_solver|by eapply Hcom]. }
  simpl. rewrite Hassert. clear Hassert. simpl.
  assert (ok 0%nat (new_sign_state ∅ ∅)) as Hok0
    by (apply new_sign_ok; [by intros a au [? _]%wf_active|by intros a au [? _]%wf_owner|done]).
  destruct (other_loop K HK _ Hcan 0%nat _ (new_sign_state K ∅) _ Hok0 H1) as [[M1 Hok1] L1].
  destruct (owner_loop K HK _ Hcan ∅ M1 _ s1 _ eq_refl Hok1 H2) as [[M2 Hok2] _].
  destruct (active_loop K HK _ Hcan M2 _ s2 _ Hok2 H3) as [[M3 Hok3] _].
  assert (∀ k, k ∈ K ↔ provided_signatures s3 !! k = Some true) as EK.
  { intros k. unfold K. rewrite elem_of_difference, elem_of_intersection, elem_of_dom. split.
    - intros [[[v [Hv E]%map_lookup_filter_Some] _] _]. simpl in E. by subst v.
    - intros Hk. split; [|set_solver]. split; [exists true; by apply map_lookup_filter_Some|].
      pose proof (so_dom _ _ _ _ _ _ _ _ _ Hok3 k). apply elem_of_dom_2 in Hk. set_solver. }
  assert (within K s3) as W3 by (intros k Hk; by apply EK).
  assert (within K s2) as W2 by (eapply within_grows; [|exact W3]; by eapply try_all_grows; [exact required_active_grows|]).
  assert (within K s1) as W1.
  { eapply within_grows; [|exact W2]. eapply try_all_grows; [|exact H2]. intros id s s' b Hc.
    apply bind_Ok in Hc as (oau & _ & Hc). by apply check_grows in Hc. }
  destruct (L1 (new_alike K) W1) as (b1 & EB1 & A1). cbn [required_active required_owner required_other] in EB1. rewrite EB1. cbn [mbind result_bind].
  destruct (proj2 (owner_loop K HK _ Hcan ∅ M1 _ b1 _ eq_refl Hok1 H2) A1 W2) as (b2 & EB2 & A2). cbn [required_active required_owner required_other] in EB2. rewrite EB2. cbn [mbind result_bind].
  destruct (proj2 (active_loop K HK _ Hcan M2 _ b2 _ Hok2 H3) A2 W3) as (b3 & EB3 & A3). cbn [required_active required_owner required_other] in EB3. rewrite EB3. cbn [mbind result_bind].
  pose proof (all_used K s3 b3 A3 (λ k Hk, proj1 (EK k) Hk)) as Eu. simpl in Eu. by rewrite Eu.
Qed.
End suffice.

(** ** The keys to sign with are found *)

Lemma try_all_returns {A} (check : A → sign_state → result (sign_state * bool)) l s :
  (∀ x s, x ∈ l → ∃ s' b, check x s = Ok (s', b)) → ∃ s', try_all check l s = Ok s'.
Proof.
  unfold try_all. revert s. induction l as [|x l IH]; intros s Hx; simpl; [eauto|].
  destruct (Hx x s) as (s1 & b & ->); [set_solver|]. simpl. apply IH. intros y ? ?. apply Hx. set_solver.
Qed.

Section known_required.
Context `{KeyAddresses} {Op : Type}.
Variable op_required : Op → gset account_id_type * gset account_id_type * list authority.
Variable get_active get_owner : account_id_type → result (option authority).
Variable allow_non_immediate_owner : bool.
Variable r : requirements.

(** The authorities in question: those required, and the two of each account required. *)
Definition asked (au : authority) : Prop := au ∈ required_other r ∨
  ∃ id, id ∈ required_active r ∪ required_owner r ∧ (get_active id = Ok (Some au) ∨ get_owner id = Ok (Some au)).

Record known_requirements : Prop := KnownRequirements {
  kr_members : known get_active get_owner asked;
  kr_accounts : ∀ id, id ∈ required_active r ∪ required_owner r →
    (∃ x, get_active id = Ok x) ∧ (∃ x, get_owner id = Ok x) }.

Hypothesis Hr : known_requirements.

Lemma asked_check_returns available n au oau s : au = Ok oau → (∀ x, au = Ok (Some x) → asked x) →
  ∃ s' b, check_authority get_active get_owner allow_non_immediate_owner available n oau s = Ok (s', b).
Proof.
  intros -> Hx. apply (check_returns _ _ _ _ asked); [by apply kr_members|]. intros x ->. constructor. by apply Hx.
Qed.

Lemma check_account_returns available n id s : id ∈ required_active r →
  ∃ s' b, check_required_active get_active get_owner allow_non_immediate_owner available n id s = Ok (s', b).
Proof.
  intros Hid. destruct (kr_accounts Hr id) as [[x Ex] [y Ey]]; [set_solver|].
  assert (∀ oau s, get_active id = Ok oau ∨ get_owner id = Ok oau → ∃ s' b,
    check_authority get_active get_owner allow_non_immediate_owner available n oau s = Ok (s', b)) as Hc.
  { intros oau s0 [E|E]; eapply asked_check_returns; [exact E| |exact E|]; intros a Ha; right; exists id;
      (split; [set_solver|auto]). }
  unfold check_required_active, check_account, or_owner.
  assert (∀ s, ∃ s' b, (au ← get_owner id;
    check_authority get_active get_owner allow_non_immediate_owner available n au s) = Ok (s', b)) as Ho
    by (intros s0; rewrite Ey; simpl; eauto).
  destruct (bool_decide _); simpl; [eauto|]. rewrite Ex. simpl.
  destruct (Hc x s) as (s1 & [|] & ->); [auto|simpl; eauto|]. simpl.
  destruct allow_non_immediate_owner; simpl; [|auto].
  destruct (Ho s1) as (s2 & [|] & ->); simpl; eauto.
Qed.
End known_required.

Lemma required_signatures_return `{KeyAddresses} {Op} (op_required : Op → _) get_active get_owner allow n ops
    signature_keys available :
  known_requirements get_active get_owner (get_required_authorities op_required ops) →
  ∃ R, get_required_signatures op_required get_active get_owner allow n ops signature_keys available = Ok R.
Proof.
  intros Hr. unfold get_required_signatures. cbv zeta. revert Hr. generalize (get_required_authorities op_required ops) as r. intros r Hr.
  match goal with |- context [try_all ?c (required_other r) ?s] =>
    destruct (try_all_returns c (required_other r) s) as [s1 ->] end; [|simpl].
  { intros au s Hau. eapply (asked_check_returns _ _ _ r Hr _ _ (Ok (Some au))); [done|]. intros x [= <-]. by left. }
  match goal with |- context [try_all ?c (ascending (required_owner r)) ?s] =>
    destruct (try_all_returns c (ascending (required_owner r)) s) as [s2 ->] end; [|simpl].
  { intros id s Hid%elem_of_ascending. destruct (kr_accounts _ _ _ Hr id) as [_ [y Ey]]; [set_solver|]. rewrite Ey. simpl.
    eapply (asked_check_returns _ _ _ r Hr); [exact Ey|]. intros x Hx. right. exists id. split; [set_solver|auto]. }
  match goal with |- context [try_all ?c (ascending (required_active r)) ?s] =>
    destruct (try_all_returns c (ascending (required_active r)) s) as [s3 ->] end; [|simpl; eauto].
  intros id s Hid%elem_of_ascending. by apply (check_account_returns _ _ _ r Hr).
Qed.

(** A wallet is told the right keys.  For an unsigned transaction whose required authorities
    the available keys can satisfy within the recursion limit, computing the keys to sign with
    returns some of the available keys, and the transaction signed with exactly those passes the
    check of the chain: nothing is missing and nothing is superfluous. *)
Theorem required_signatures_suffice `{KeyAddresses} {Op} (op_required : Op → _) get_active get_owner allow n
    available ops :
  (∀ a au, get_active a = Ok (Some au) → auth_wf au ∧ address_auths au = []) →
  (∀ a au, get_owner a = Ok (Some au) → auth_wf au ∧ address_auths au = []) →
  (∀ op op', op ∈ ops → op' ∈ ops → (op_required op).1.1 ## (op_required op').1.2) →
  (∀ op, op ∈ ops → GRAPHENE_COMMITTEE_ACCOUNT ∉ (op_required op).1.1) →
  known_requirements get_active get_owner (get_required_authorities op_required ops) →
  can_sign get_active get_owner allow n available (get_required_authorities op_required ops) →
  ∃ R, get_required_signatures op_required get_active get_owner allow n ops ∅ available = Ok R ∧ R ⊆ available ∧
    verify_authority op_required get_active get_owner (λ _ _, []) allow n ops R false ∅ ∅ = Ok ().
Proof.
  intros Wa Wo Hdis Hcom Hk Hcan.
  destruct (required_signatures_return op_required get_active get_owner allow n ops ∅ available Hk) as [R HR].
  exists R. split; [done|]. by apply (signatures_suffice op_required get_active get_owner allow n available Wa Wo).
Qed.

(** An address nobody signs for.  When an authority names an address that belongs to no key
    that has signed or can sign, before its threshold is reached, the check has no defined
    outcome: the code dereferences the end iterator of its map of addresses. *)
Theorem address_check_undefined `{KeyAddresses} get_active get_owner allow available sigs approved levels au a w rest :
  key_auths au = [] → address_auths au = (a, w) :: rest →
  (∀ k, k ∈ sigs ∪ available → a ∉ key_addresses k) →
  check_authority get_active get_owner allow available levels (Some au) (new_sign_state sigs approved)
    = Err (fc_throw "undefined behaviour: dereference of end()").
Proof.
  intros Hk Ha Hno. rewrite check_eq, Hk, Ha. simpl. unfold signed_by_address, address_cache. simpl.
  assert (∀ X : gset Z, X ⊆ sigs ∪ available → address_map (ascending X) !! a = None) as Hnone.
  { intros X HX. destruct (address_map (ascending X) !! a) as [k|] eqn:E; [|done].
    apply address_map_inv in E as [Hin Hkey]. apply elem_of_ascending in Hin. destruct (Hno k); [set_solver|done]. }
  rewrite (Hnone (dom (gset_to_gmap false sigs))); [|rewrite dom_gset_to_gmap; set_solver].
  by rewrite (Hnone available) by set_solver.
Qed.

(** ** Examples *)

#[export] Instance sample_addresses : KeyAddresses := {|
  address_of k := 10 * k;
  pts_address k compressed version := 10 * k + (if compressed then 1 else 2) + (if version =? 0 then 0 else 2) |}.

(** Account 10 needs key 5 and account 11, whose key is 7; their owner keys are 15 and 17. *)
Definition sample_get_active (a : account_id_type) : result (option authority) :=
  if a =? 10 then Ok (Some (Authority 2 [(11, 1)] [(5, 1)] []))
  else if a =? 11 then Ok (Some (Authority 1 [] [(7, 1)] []))
  else Err (fc_throw "Unable to find Object").
Definition sample_get_owner (a : account_id_type) : result (option authority) :=
  if a =? 10 then Ok (Some (Authority 1 [] [(15, 1)] []))
  else if a =? 11 then Ok (Some (Authority 1 [] [(17, 1)] []))
  else Err (fc_throw "Unable to find Object").

Lemma sample_active_ok a au : sample_get_active a = Ok (Some au) → auth_wf au ∧ address_auths au = [].
Proof.
  unfold sample_get_active. intros E. repeat case_match; simplify_eq; (split; [|done]); split; repeat constructor; simpl; lia.
Qed.
Lemma sample_owner_ok a au : sample_get_owner a = Ok (Some au) → auth_wf au ∧ address_auths au = [].
Proof.
  unfold sample_get_owner. intros E. repeat case_match; simplify_eq; (split; [|done]); split; repeat constructor; simpl; lia.
Qed.

(** The authorities reachable from that of account 10. *)
Lemma sample_known roots : (∀ au, roots au → ∃ a, sample_get_active a = Ok (Some au) ∨ sample_get_owner a = Ok (Some au)) →
  known sample_get_active sample_get_owner roots.
Proof.
  intros Hroots au Hau.
  assert (∃ a, sample_get_active a = Ok (Some au) ∨ sample_get_owner a = Ok (Some au)) as [a Ha]
    by (induction Hau; eauto).
  split; [by destruct Ha as [[_ ?]%sample_active_ok|[_ ?]%sample_owner_ok]|]. intros b Hb.
  assert (b = 11) as ->; [|split; eexists; reflexivity].
  unfold sample_get_active, sample_get_owner in Ha. destruct Ha; repeat case_match; simplify_eq; set_solver.
Qed.


Lemma required_signatures_suffice_witness : ∃ R,
  get_required_signatures (λ id : Z, ({[ id ]}, ∅, [])) sample_get_active sample_get_owner false 2
    [10; 11] ∅ {[ 5; 7; 9; 17 ]} = Ok R ∧ R ⊆ {[ 5; 7; 9; 17 ]} ∧
  verify_authority (λ id : Z, ({[ id ]}, ∅, [])) sample_get_active sample_get_owner (λ _ _, [])
    false 2 [10; 11] R false ∅ ∅ = Ok ().
Proof.
  apply (required_signatures_suffice (λ id : Z, ({[ id ]}, ∅, []))).
  - exact sample_active_ok.
  - exact sample_owner_ok.
  - set_solver.
  - intros op Hop. simpl. unfold GRAPHENE_COMMITTEE_ACCOUNT. set_solver.
  - assert (∀ id, id ∈ ({[10; 11]} : gset Z) → (∃ x, sample_get_active id = Ok x) ∧ (∃ x, sample_get_owner id = Ok x)) as Hid.
    { intros id [->%elem_of_singleton| ->%elem_of_singleton]%elem_of_union; split; eexists; reflexivity. }
    split; [|intros id ?; apply Hid; set_solver]. apply sample_known.
    intros au [Hau|(id & _ & Hid')]; [set_solver|eauto].
  - split; [set_solver|set_solver|]. intros id Hid. right. left.
    assert (id = 10 ∨ id = 11) as [-> | ->] by set_solver; vm_compute; reflexivity.
Defined.

Lemma address_check_undefined_witness :
  check_authority sample_get_active sample_get_owner false ∅ 2
    (Some (Authority 1 [] [] [(42, 1)])) (new_sign_state {[ 5; 7 ]} ∅)
  = Err (fc_throw "undefined behaviour: dereference of end()").
Proof.
  apply (address_check_undefined _ _ _ _ _ _ _ _ 42 1 []); [done|done|].
  intros k Hk. assert (k = 5 ∨ k = 7) as [-> | ->] by set_solver; simpl; unfold key_addresses; simpl; set_solver by lia.
Defined.
