(* ===== verification/Voting.v ===== *)
(** * Voting

    The vote tally of [database::perform_chain_maintenance], the choice of witnesses and committee
    members and of the next maintenance time, from libraries/chain/db_maint.cpp, and [vote_counter] of
    libraries/chain/include/graphene/chain/vote_count.hpp.  Votes are 64-bit numbers that wrap around. *)
From stdpp Require Import sorting.
From S2P Require Import Prelude MachineInt Hardfork Asset Authority.

Definition GRAPHENE_PROXY_TO_SELF_ACCOUNT : account_id_type := 5.

(** ** Voting power that decays *)

Record vote_recalc_options := VoteRecalcOptions { full_power_seconds : Z; recalc_steps : Z; seconds_per_step : Z }.

Definition total_recalc_seconds (o : vote_recalc_options) : Z := (recalc_steps o - 1) * seconds_per_step o.

Definition power_percents_to_subtract (o : vote_recalc_options) : list Z :=
  map (λ i, GRAPHENE_100_PERCENT * Z.of_nat i / recalc_steps o) (seq 1 (Z.to_nat (recalc_steps o - 1))).

(** [witness()], [committee()], [worker()] and [delegator()] have the same values. *)
Definition standard_recalc_options : vote_recalc_options := VoteRecalcOptions (360 * 86400) 8 (45 * 86400).

Record vote_recalc_times := VoteRecalcTimes { full_power_time : Z; zero_power_time : Z }.

(** The difference of a time and seconds is kept in 32 bits. *)
Definition time_sub (t s : Z) : Z := (t - s) mod 2 ^ 32.

Definition get_vote_recalc_times (o : vote_recalc_options) (now : Z) : vote_recalc_times :=
  VoteRecalcTimes (time_sub now (full_power_seconds o)) (time_sub (time_sub now (full_power_seconds o)) (total_recalc_seconds o)).

Definition get_recalced_voting_stake (o : vote_recalc_options) (stake last_vote_time : Z) (t : vote_recalc_times) : result Z :=
  if full_power_time t <? last_vote_time then Ok stake
  else if last_vote_time <=? zero_power_time t then Ok 0
  else
    let diff := full_power_time t - last_vote_time in
    let steps_to_subtract_minus_1 := diff / seconds_per_step o in
    match power_percents_to_subtract o !! Z.to_nat steps_to_subtract_minus_1 with
    | Some percent => Ok (to_uint64 (stake - to_uint64 (u128_div (u128_mul (u128 stake) percent) GRAPHENE_100_PERCENT)))
    | None => Err (fc_throw "undefined: index out of range")
    end.

(** ** The stake of an account *)

(** The members of [account_object] and [account_statistics_object] that the tally reads and writes. *)
Record voter := Voter {
  membership_expiration : Z;
  voting_account : account_id_type;
  votes : list Z;                       (** the [content]s of the vote ids *)
  num_witness : Z;
  num_committee : Z;
  num_committee_voted : Z;
  v_cashback_balance : option share_type;
  v_total_core_in_orders : share_type;
  v_total_core_inactive : share_type;
  v_total_core_pob : share_type;
  v_total_core_pol : share_type;
  v_total_pob_value : share_type;
  v_total_pol_value : share_type;
  core_in_balance : share_type;
  is_voting : bool;
  last_vote_time : Z;
  vp_all : Z; vp_active : Z; vp_committee : Z; vp_witness : Z; vp_worker : Z;
  vote_tally_time : Z }.
Implicit Types (v : voter).

Definition has_some_core_voting v : bool :=
  is_voting v && ((0 <? v_total_core_in_orders v) || (0 <? core_in_balance v) || bool_decide (is_Some (v_cashback_balance v))
                  || (0 <? v_total_core_pol v)).

(** The stake before decay: funds in orders, balances and cashback, and the value of tickets. *)
Definition base_stake (pob_activated hf2262_passed : bool) v : Z :=
  let s := if pob_activated then 0 else to_uint64 (v_total_core_in_orders v) in
  let s := to_uint64 (s + match v_cashback_balance v with
                          | Some b => if hf2262_passed then 0 else to_uint64 b
                          | None => 0
                          end) in
  to_uint64 (s + if hf2262_passed then 0 else to_uint64 (core_in_balance v)).

Definition ticket_stake v (stake : Z) : Z :=
  let pol_amount := to_uint64 (v_total_core_pol v) in
  let pol_value := to_uint64 (v_total_pol_value v) in
  let pob_amount := to_uint64 (v_total_core_pob v) in
  let pob_value := to_uint64 (v_total_pob_value v) in
  if pob_amount =? 0 then to_uint64 (stake + pol_value)
  else if pol_amount =? 0 then
    if pob_amount <=? stake then to_uint64 (stake + to_uint64 (pob_value - pob_amount))
    else to_uint64 (u128_div (u128_mul stake pob_value) pob_amount)
  else if pob_amount <=? pol_amount then
    let base_value := u128_div (u128_mul pob_value pol_value) pol_amount in
    let diff_value := u128_div (u128_mul pob_amount pol_value) pol_amount in
    let base_value := u128_add base_value (u128_sub pol_value diff_value) in
    to_uint64 (stake + to_uint64 base_value)
  else
    let base_value := u128_div (u128_mul pol_value pob_value) pob_amount in
    let diff_amount := pob_amount - pol_amount in
    if diff_amount <=? stake then
      let diff_value := u128_div (u128_mul pol_amount pob_value) pob_amount in
      let base_value := u128_add base_value (u128_sub pob_value diff_value) in
      to_uint64 (stake + to_uint64 (u128_sub base_value diff_amount))
    else to_uint64 (u128_add base_value (u128_div (u128_mul stake pob_value) pob_amount)).

(** ** The tally *)

Record tally := Tally {
  vote_tally_buffer : list Z;
  witness_count_histogram : list Z;
  committee_count_histogram : list Z;
  total_committee_stake : Z;
  total_witness_stake : Z }.

(** What the tally reads of the global properties. *)
Record tally_parameters := TallyParameters {
  tp_now : Z;
  maximum_witness_count : Z;
  maximum_committee_count : Z;
  count_non_member_votes : bool;
  tp_next_available_vote_id : Z;
  tp_total_pob : share_type;
  tp_total_inactive : share_type }.

(** The constructor of [vote_tally_helper]; the buffers were cleared by the previous maintenance. *)
Definition empty_tally (p : tally_parameters) : tally :=
  Tally (replicate (Z.to_nat (tp_next_available_vote_id p)) 0)
    (replicate (Z.to_nat (maximum_witness_count p / 2 + 1)) 0)
    (replicate (Z.to_nat (maximum_committee_count p / 2 + 1)) 0) 0 0.

(** [buffer[ i ] += x] on a [vector<uint64_t>]. *)
Definition add_at (i : Z) (x : Z) (buffer : list Z) : list Z := alter (λ y, to_uint64 (y + x)) (Z.to_nat i) buffer.

(** The stakes an account votes with: for the committee, witnesses and workers, and for the number of committee members. *)
Record stakes := Stakes { st_committee : Z; st_witness : Z; st_worker : Z; st_num_committee : Z; st_active : Z }.

Definition recalc_stakes (p : tally_parameters) (stake : Z) (directly_voting : bool) (v opinion : voter) : result stakes :=
  if negb (HARDFORK_CORE_2103_PASSED (tp_now p)) then Ok (Stakes stake stake stake stake stake)
  else
    let o := standard_recalc_options in
    let times := get_vote_recalc_times o (tp_now p) in
    stake ← (if directly_voting then Ok stake else get_recalced_voting_stake o stake (last_vote_time v) times);
    witness ← get_recalced_voting_stake o stake (last_vote_time opinion) times;
    committee ← get_recalced_voting_stake o stake (last_vote_time opinion) times;
    worker ← get_recalced_voting_stake o stake (last_vote_time opinion) times;
    let per_member := if 1 <? num_committee_voted opinion then committee / num_committee_voted opinion else committee in
    Ok (Stakes per_member witness worker committee stake).

Definition set_voting_power v (now all active committee witness worker : Z) : voter :=
  let fresh := negb (vote_tally_time v =? now) in
  let put old x := if fresh then x else to_uint64 (old + x) in
  Voter (membership_expiration v) (voting_account v) (votes v) (num_witness v) (num_committee v) (num_committee_voted v)
    (v_cashback_balance v) (v_total_core_in_orders v) (v_total_core_inactive v) (v_total_core_pob v) (v_total_core_pol v)
    (v_total_pob_value v) (v_total_pol_value v) (core_in_balance v) (is_voting v) (last_vote_time v)
    (put (vp_all v) all) (put (vp_active v) active) (put (vp_committee v) committee) (put (vp_witness v) witness)
    (put (vp_worker v) worker) now.

(** One vote: the lower 8 bits of a vote id are its type, the others its instance. *)
Definition add_vote (s : stakes) (id : Z) (buffer : list Z) : list Z :=
  let offset := Z.shiftr id 8 in
  let type := Z.min (Z.land id 255) 2 in
  let stake := if type =? 0 then st_committee s else if type =? 1 then st_witness s else st_worker s in
  if offset <? Z.of_nat (length buffer) then add_at offset stake buffer else buffer.

Definition add_votes (p : tally_parameters) (s : stakes) (opinion : voter) (t : tally) : tally :=
  Tally (foldl (λ b id, add_vote s id b) (vote_tally_buffer t) (votes opinion))
    (if (0 <? st_witness s) && (num_witness opinion <=? maximum_witness_count p)
     then add_at (num_witness opinion / 2) (st_witness s) (witness_count_histogram t) else witness_count_histogram t)
    (if (0 <? st_num_committee s) && (num_committee opinion <=? maximum_committee_count p)
     then add_at (num_committee opinion / 2) (st_num_committee s) (committee_count_histogram t) else committee_count_histogram t)
    (to_uint64 (total_committee_stake t + st_num_committee s)) (to_uint64 (total_witness_stake t + st_witness s)).

(** [vote_tally_helper::operator()]; the voting power is recorded with the account whose opinion counts. *)
Definition tally_account (p : tally_parameters) (id : account_id_type) (st : gmap Z voter * tally) : result (gmap Z voter * tally) :=
  let '(voters, t) := st in
  match voters !! id with
  | None => Err (assert_exception "Unable to find Object")
  | Some v =>
    let pob_activated := (0 <? tp_total_pob p) || (0 <? tp_total_inactive p) in
    if pob_activated && (v_total_core_pob v =? 0) && (v_total_core_inactive v =? 0) then Ok st
    else if negb (count_non_member_votes p || (tp_now p <=? membership_expiration v)) then Ok st
    else
      let directly_voting := voting_account v =? GRAPHENE_PROXY_TO_SELF_ACCOUNT in
      let opinion_id := if directly_voting then id else voting_account v in
      match voters !! opinion_id with
      | None => Err (assert_exception "Unable to find Object")
      | Some opinion =>
        let stake := ticket_stake v (base_stake pob_activated (HARDFORK_CORE_2262_PASSED (tp_now p)) v) in
        if stake =? 0 then Ok st
        else
          s ← recalc_stakes p stake directly_voting v opinion;
          let opinion := set_voting_power opinion (tp_now p) stake (st_active s) (st_num_committee s) (st_witness s) (st_worker s) in
          Ok (<[opinion_id := opinion]> voters, add_votes p s opinion t)
      end
  end.

(** The loop of [perform_account_maintenance] over the accounts, for those that vote; it pays out pending fees too, see Fees.v. *)
Definition tally_votes (p : tally_parameters) (order : list account_id_type) (voters : gmap Z voter) : result (gmap Z voter * tally) :=
  res_fold (λ id st, match st.1 !! id with
                     | Some v => if has_some_core_voting v then tally_account p id st else Ok st
                     | None => Err (assert_exception "Unable to find Object")
                     end) order (voters, empty_tally p).

(** ** Counting votes into an authority *)

(** [map[ k ] = w] on a flat map, which is sorted by its keys. *)
Fixpoint flat_put (k w : Z) (l : list (Z * Z)) : list (Z * Z) :=
  match l with
  | [] => [(k, w)]
  | (k', w') :: l' => if k <? k' then (k, w) :: l else if k =? k' then (k, w) :: l' else (k', w') :: flat_put k w l'
  end.

Record vote_counter := VoteCounter { vc_total_votes : Z; bitshift : Z; vc_auth : list (account_id_type * Z) }.

Definition new_vote_counter : vote_counter := VoteCounter 0 (-1) [].

(** [find_msb( votes )] is [log2]. *)
Definition vc_add (vc : vote_counter) (who : account_id_type) (votes : Z) : vote_counter :=
  if votes =? 0 then vc
  else
    let shift := if bitshift vc =? -1 then Z.max (Z.log2 votes - 15) 0 else bitshift vc in
    let scaled_votes := Z.max (Z.shiftr votes shift) 1 in
    VoteCounter (to_uint64 (vc_total_votes vc + scaled_votes)) shift (flat_put who (scaled_votes mod 2 ^ 16) (vc_auth vc)).

Definition vc_finish (vc : vote_counter) (out_auth : authority) : authority :=
  if vc_total_votes vc =? 0 then out_auth
  else Authority (Z.shiftr (vc_total_votes vc mod 2 ^ 32) 1 + 1) (vc_auth vc) [] [].

(** ** Witnesses and committee members *)

(** The members of [witness_object] and [committee_member_object] that voting uses. *)
Record candidate := Candidate { cand_account : account_id_type; cand_vote_id : Z; cand_total_votes : Z }.

Record election := Election {
  head_time : Z;
  track_standby_votes : bool;
  min_witness_count : Z;
  min_committee_member_count : Z;
  witness_candidates : gmap Z candidate;
  committee_candidates : gmap Z candidate;
  active_authorities : gmap account_id_type authority;
  elected_witnesses : list Z;
  elected_committee : list Z }.
Implicit Types (e : election).

(** [_vote_tally_buffer[ id ]]: a vote id converts to its instance. *)
Definition votes_of (t : tally) (c : candidate) : Z := default 0 (vote_tally_buffer t !! Z.to_nat (Z.shiftr (cand_vote_id c) 8)).

(** More votes come first, then the lower vote id. *)
Definition preferred (t : tally) (x y : Z * candidate) : Prop :=
  votes_of t y.2 < votes_of t x.2 ∨
  (votes_of t x.2 = votes_of t y.2 ∧ Z.shiftr (cand_vote_id x.2) 8 ≤ Z.shiftr (cand_vote_id y.2) 8).
#[global] Instance preferred_dec t x y : Decision (preferred t x y).
Proof. unfold preferred. apply _. Defined.

(** Each comparison of [std::partial_sort] converts the votes of both objects to [share_type], which may overflow; if there
    is more than one object and any is wanted, every object is compared at least once. *)
Definition comparable (t : tally) (count : Z) (l : list (Z * candidate)) : result unit :=
  if (0 <? count) && Nat.ltb 1 (length l) then res_fold (λ x _, share_check (votes_of t x.2);; Ok ()) l ()
  else Ok ().

(** [sort_votable_objects]: the [count] first ones; of no objects it reads the front of an empty vector. *)
Definition sort_votable_objects (t : tally) (count : Z) (objects : gmap Z candidate) : result (list (Z * candidate)) :=
  match map_to_list objects with
  | [] => Err (fc_throw "undefined: front of an empty vector")
  | l => comparable t count l;; Ok (take (Z.to_nat count) (merge_sort (preferred t) l))
  end.

(** The loop over the histogram: [size] is what is left of it after [count]. *)
Fixpoint count_loop (histogram : list Z) (target tally count : Z) : result Z :=
  match histogram with
  | [] => Ok count
  | h :: rest =>
    if tally <=? target then tally' ← (x ← share_check h; share_add tally x); count_loop rest target tally' (count + 1)
    else Ok count
  end.

(** The number of seats: the weighted median of the numbers voted for, but at least [min_count]. *)
Definition seat_count (histogram : list Z) (total_stake min_count : Z) : result Z :=
  match histogram with
  | [] => Err (fc_throw "undefined: empty histogram")
  | h0 :: rest =>
    stake_target ← share_check (to_uint64 (total_stake - h0) / 2);
    count ← (if 0 <? stake_target then count_loop rest stake_target 0 0 else Ok 0);
    Ok (Z.max (count * 2 + 1) min_count)
  end.

Definition set_total_votes (t : tally) (c : candidate) : candidate := Candidate (cand_account c) (cand_vote_id c) (votes_of t c).

Definition update_total_votes (t : tally) (track_all : bool) (chosen : list (Z * candidate)) (cs : gmap Z candidate) : gmap Z candidate :=
  if track_all then set_total_votes t <$> cs else foldr (λ x cs, <[x.1 := set_total_votes t x.2]> cs) cs chosen.

(** The authority before hard fork 533, with the weights cut to 16 bits. *)
Definition authority_before_533 (t : tally) (chosen : list (Z * candidate)) : result authority :=
  let total_votes := foldl (λ s x, to_uint64 (s + votes_of t x.2)) 0 chosen in
  if total_votes =? 0 then Err (fc_throw "undefined: find_msb of zero")
  else
    let votes_msb := Z.log2 total_votes in
    let bits_to_drop := if 15 <? votes_msb then votes_msb - 15 else 0 in
    let weights := foldl (λ l x, if existsb (λ y, y.1 =? cand_account x.2) l then l
                                 else flat_put (cand_account x.2) (votes_of t x.2) l) [] chosen in
    let cut w := Z.max (Z.shiftr w bits_to_drop mod 2 ^ 16) 1 in
    let auths := map (λ x, (x.1, cut x.2)) weights in
    let threshold := foldl (λ s x, (s + x.2) mod 2 ^ 32) 0 auths in
    Ok (Authority (threshold / 2 + 1) auths [] []).

Definition authority_of (t : tally) (chosen : list (Z * candidate)) (old : authority) : authority :=
  vc_finish (foldl (λ vc x, vc_add vc (cand_account x.2) (votes_of t x.2)) new_vote_counter chosen) old.

Definition new_authority (now : Z) (t : tally) (chosen : list (Z * candidate)) (old : authority) : result authority :=
  if now <? HARDFORK_533_TIME then authority_before_533 t chosen else Ok (authority_of t chosen old).

Definition get_authority e (a : account_id_type) : result authority :=
  match active_authorities e !! a with Some x => Ok x | None => Err (assert_exception "Unable to find Object") end.

Definition update_active_witnesses (t : tally) e : result election :=
  count ← seat_count (witness_count_histogram t) (total_witness_stake t) (min_witness_count e);
  wits ← sort_votable_objects t count (witness_candidates e);
  old ← get_authority e GRAPHENE_WITNESS_ACCOUNT;
  auth ← new_authority (head_time e) t wits old;
  Ok (Election (head_time e) (track_standby_votes e) (min_witness_count e) (min_committee_member_count e)
        (update_total_votes t (track_standby_votes e) wits (witness_candidates e)) (committee_candidates e)
        (<[GRAPHENE_WITNESS_ACCOUNT := auth]> (active_authorities e)) (merge_sort Z.le (map fst wits)) (elected_committee e)).

Definition update_active_committee_members (t : tally) e : result election :=
  count ← seat_count (committee_count_histogram t) (total_committee_stake t) (min_committee_member_count e);
  members ← sort_votable_objects t count (committee_candidates e);
  old ← get_authority e GRAPHENE_COMMITTEE_ACCOUNT;
  auth ← new_authority (head_time e) t members old;
  _ ← get_authority e GRAPHENE_RELAXED_COMMITTEE_ACCOUNT;
  Ok (Election (head_time e) (track_standby_votes e) (min_witness_count e) (min_committee_member_count e)
        (witness_candidates e) (update_total_votes t (track_standby_votes e) members (committee_candidates e))
        (<[GRAPHENE_RELAXED_COMMITTEE_ACCOUNT := auth]> (<[GRAPHENE_COMMITTEE_ACCOUNT := auth]> (active_authorities e)))
        (elected_witnesses e) (map fst members)).

(** ** The next maintenance time *)

Definition advance_maintenance_time (next_maintenance_time maintenance_interval timestamp block_num head_block_time : Z) : Z :=
  if next_maintenance_time <=? timestamp then
    if 1 =? block_num then ((timestamp / maintenance_interval + 1) * maintenance_interval) mod 2 ^ 32
    else
      let y := Z.quot (head_block_time - next_maintenance_time) maintenance_interval in
      time_add next_maintenance_time ((y + 1) * maintenance_interval)
  else next_maintenance_time.
