(* ===== verification/VotingTheorems.v ===== *)
(** * Properties of voting

    Voting power decays by one eighth per step, the number of seats is the weighted median of the
    numbers voted for, the candidates elected are the ones with the most votes, and the
    authority they form is controlled by a majority of it. *)
From stdpp Require Import sorting.
From S2P Require Import Prelude MachineInt Hardfork Asset Authority Voting.

(** ** Decay *)

Definition day : Z := 86400.

(** The eighths of its power a vote has lost at an age: the first after 360 days, one more every 45 days. *)
Definition eighths_lost (age : Z) : Z := Z.max 0 (Z.min 8 ((age - 360 * day) / (45 * day) + 1)).
Definition decayed (stake age : Z) : Z := stake - stake * eighths_lost age / 8.

Lemma percents_lookup i : 0 ≤ i < 7 →
  power_percents_to_subtract standard_recalc_options !! Z.to_nat i = Some (1250 * (i + 1)).
Proof.
  intros Hi. assert (i = 0 ∨ i = 1 ∨ i = 2 ∨ i = 3 ∨ i = 4 ∨ i = 5 ∨ i = 6) as H by lia.
  repeat destruct H as [->|H]; try subst; done.
Qed.

Lemma decayed_bounds stake age : 0 ≤ stake → 0 ≤ decayed stake age ≤ stake.
Proof.
  intros Hs. unfold decayed. assert (0 ≤ eighths_lost age ≤ 8) by (unfold eighths_lost; lia).
  pose proof (div_down_spec (stake * eighths_lost age) 8 ltac:(lia)). nia.
Qed.

(** An older vote never has more power. *)
Lemma decayed_mono stake age age' : 0 ≤ stake → age ≤ age' → decayed stake age' ≤ decayed stake age.
Proof.
  intros Hs Ha. unfold decayed. assert (eighths_lost age ≤ eighths_lost age').
  { unfold eighths_lost. assert ((age - 360 * day) / (45 * day) ≤ (age' - 360 * day) / (45 * day)) by (apply Z.div_le_mono; unfold day; lia). lia. }
  assert (stake * eighths_lost age / 8 ≤ stake * eighths_lost age' / 8) by (apply Z.div_le_mono; nia). lia.
Qed.

(** The power of a vote decays in steps: for every 64-bit stake and at every time after the first two years of
    the clock, [get_recalced_voting_stake] returns (its table is never read out of range) the stake less
    one eighth for each step of 45 days after 360 days, rounded in the voter's favour: all of it before that, and
    nothing after 675 days. *)
Theorem vote_power_decays now stake last :
  675 * day ≤ now < 2 ^ 32 → 0 ≤ stake < 2 ^ 64 → 0 ≤ last ≤ now →
  get_recalced_voting_stake standard_recalc_options stake last (get_vote_recalc_times standard_recalc_options now)
  = Ok (decayed stake (now - last)).
Proof.
  unfold day. intros Hnow Hs Hl. unfold get_recalced_voting_stake, get_vote_recalc_times, time_sub. cbn [full_power_time zero_power_time].
  change (total_recalc_seconds standard_recalc_options) with (315 * 86400). change (full_power_seconds standard_recalc_options) with (360 * 86400).
  change (seconds_per_step standard_recalc_options) with (45 * 86400).
  rewrite (Z.mod_small (now - _)) by lia. rewrite Z.mod_small by lia. unfold decayed, eighths_lost, day.
  destruct (Z.ltb_spec (now - 360 * 86400) last).
  { assert ((now - last - 360 * 86400) / (45 * 86400) < 0) by (apply Z.div_lt_upper_bound; lia).
    rewrite Z.max_l by lia. rewrite Z.mul_0_r. f_equal. change (0 / 8) with 0. lia. }
  destruct (Z.leb_spec last (now - 360 * 86400 - 315 * 86400)).
  { assert (7 ≤ (now - last - 360 * 86400) / (45 * 86400)) by (apply Z.div_le_lower_bound; lia).
    rewrite Z.min_l, Z.max_r by lia. rewrite Z.div_mul by lia. f_equal. lia. }
  replace (now - 360 * 86400 - last) with (now - last - 360 * 86400) by lia. set (k := _ / _).
  assert (0 ≤ k < 7) as Hk by (split; [apply Z.div_pos; lia|apply Z.div_lt_upper_bound; lia]). clearbody k.
  rewrite percents_lookup by done. rewrite Z.min_r, Z.max_r by lia.
  assert (stake * (1250 * (k + 1)) < UINT128_MOD) by (unfold UINT128_MOD; nia).
  assert (2 ^ 64 < UINT128_MOD) by done. unfold u128_mul, u128_div. rewrite (u128_small stake), u128_small by nia.
  replace (stake * (1250 * (k + 1))) with (1250 * (stake * (k + 1))) by lia.
  change GRAPHENE_100_PERCENT with (1250 * 8). rewrite Z.div_mul_cancel_l by lia.
  pose proof (div_down_spec (stake * (k + 1)) 8 ltac:(lia)). set (q := stake * (k + 1) / 8) in *.
  assert (0 ≤ q ≤ stake) by nia. rewrite (to_uint64_small q), to_uint64_small by lia. done.
Qed.

Lemma vote_power_decays_witness :
  get_recalced_voting_stake standard_recalc_options 1001 (1700000000 - 410 * day) (get_vote_recalc_times standard_recalc_options 1700000000)
  = Ok (decayed 1001 (410 * day)).
Proof. apply (vote_power_decays 1700000000 1001 (1700000000 - 410 * day)); unfold day; lia. Defined.

(** ** The number of seats *)

Definition sum_z (l : list Z) : Z := foldr Z.add 0 l.

Lemma sum_z_nonneg l : Forall (Z.le 0) l → 0 ≤ sum_z l.
Proof. induction 1; simpl; lia. Qed.

Lemma count_loop_returns rest target tally count :
  Forall (Z.le 0) rest → 0 ≤ tally → tally + sum_z rest ≤ INT64_MAX →
  ∃ n, count_loop rest target tally count = Ok (count + Z.of_nat n) ∧ (n ≤ length rest)%nat ∧
    (∀ m, (m < n)%nat → tally + sum_z (take m rest) ≤ target) ∧ (n = length rest ∨ target < tally + sum_z (take n rest)).
Proof.
  revert tally count. induction rest as [|h rest IH]; intros tally count Hall Ht Hmax; simpl.
  { exists 0%nat. split_and!; [f_equal; lia|lia|lia|by left]. }
  apply Forall_cons in Hall as [Hh Hall]. pose proof (sum_z_nonneg rest Hall). simpl in Hmax.
  destruct (Z.leb_spec tally target) as [Hle|Hgt].
  2: { exists 0%nat. split_and!; [f_equal; lia|lia|lia|right; simpl; lia]. }
  assert (∀ x, 0 ≤ x ≤ INT64_MAX → is_share x) as Hshare by (unfold is_share, INT64_MIN; lia).
  rewrite share_check_ok by (apply Hshare; lia). cbn [mbind result_bind]. rewrite share_add_ok by (apply Hshare; lia). cbn [mbind result_bind].
  destruct (IH (tally + h) (count + 1)) as (n & -> & Hn & Hbefore & Hafter); [done|lia|lia|].
  exists (S n). split_and!; [f_equal; lia|lia| |].
  - intros [|m] Hm; simpl; [lia|]. specialize (Hbefore m ltac:(lia)). lia.
  - destruct Hafter as [->|Hafter]; [by left|right]. simpl. lia.
Qed.

(** The number of seats is the weighted median of the numbers voted for: with the stake of a voter of [2 i] or
    [2 i + 1] seats at place [i] of the histogram, at least as much of it as the total says, [seat_count] returns [2 n + 1]
    (or the minimum), where [n] is the least number such that those who vote for at most [n] have more than
    half of the stake that has an opinion, or the last place. *)
Theorem seats_are_weighted_median h0 rest total min_count :
  Forall (Z.le 0) (h0 :: rest) → h0 + sum_z rest ≤ total ≤ INT64_MAX → 1 < total - h0 →
  ∃ n, seat_count (h0 :: rest) total min_count = Ok (Z.max (Z.of_nat n * 2 + 1) min_count) ∧ (n ≤ length rest)%nat ∧
    (∀ m, (m < n)%nat → 2 * sum_z (take m rest) ≤ total - h0) ∧ (n = length rest ∨ total - h0 < 2 * sum_z (take n rest)).
Proof.
  intros [H0 Hall]%Forall_cons Ht Hop. pose proof (sum_z_nonneg rest Hall). unfold seat_count, INT64_MAX in *.
  rewrite to_uint64_small by lia. pose proof (div_down_spec (total - h0) 2 ltac:(lia)) as Hd. set (target := (total - h0) / 2) in *.
  rewrite share_check_ok by (unfold is_share, INT64_MIN, INT64_MAX; lia). cbn [mbind result_bind].
  rewrite (proj2 (Z.ltb_lt _ _)) by lia.
  destruct (count_loop_returns rest target 0 0) as (n & -> & Hn & Hbefore & Hafter); [done|lia|unfold INT64_MAX; lia|].
  exists n. split_and!; [done|done| |].
  - intros m Hm. specialize (Hbefore m Hm). lia.
  - destruct Hafter as [|Hafter]; [by left|right; lia].
Qed.

Lemma seats_are_weighted_median_witness :
  ∃ n, seat_count [5; 10; 40; 60; 0; 0] 120 3 = Ok (Z.max (Z.of_nat n * 2 + 1) 3) ∧ (n ≤ 5)%nat ∧
    (∀ m, (m < n)%nat → 2 * sum_z (take m [10; 40; 60; 0; 0]) ≤ 115) ∧ (n = 5%nat ∨ 115 < 2 * sum_z (take n [10; 40; 60; 0; 0])).
Proof.
  apply (seats_are_weighted_median 5 [10; 40; 60; 0; 0] 120 3); [repeat constructor; lia|vm_compute; split; discriminate|lia].
Defined.

(** ** Who is elected *)

Lemma preferred_total t x y : preferred t x y ∨ preferred t y x.
Proof. unfold preferred. lia. Qed.
#[global] Instance preferred_trans t : Transitive (preferred t).
Proof. intros x y z. unfold preferred. lia. Qed.
#[global] Instance preferred_Total t : Total (preferred t).
Proof. intros x y. apply preferred_total. Qed.

Lemma sort_votable_objects_spec t count objects chosen :
  sort_votable_objects t count objects = Ok chosen →
  NoDup (map fst chosen) ∧ length chosen = Nat.min (Z.to_nat count) (size objects) ∧
  StronglySorted (preferred t) chosen ∧ (∀ id c, (id, c) ∈ chosen → objects !! id = Some c) ∧
  ∀ id c id' c', (id, c) ∈ chosen → objects !! id' = Some c' → id' ∉ map fst chosen → preferred t (id, c) (id', c').
Proof.
  unfold sort_votable_objects. intros E.
  assert (chosen = take (Z.to_nat count) (merge_sort (preferred t) (map_to_list objects))) as ->.
  { destruct (map_to_list objects) eqn:El; [done|]. apply bind_Ok in E as ([] & _ & E). injection E as <-. done. }
  clear E. set (l := merge_sort (preferred t) (map_to_list objects)).
  assert (l ≡ₚ map_to_list objects) as Hp by apply merge_sort_Permutation.
  assert (StronglySorted (preferred t) l) as Hs by (apply StronglySorted_merge_sort; apply _).
  assert (NoDup (map fst l)) as Hnd.
  { assert (map fst l ≡ₚ (map_to_list objects).*1) as -> by (by apply Permutation_map). apply NoDup_fst_map_to_list. }
  set (n := Z.to_nat count). rewrite <- (take_drop n l) in Hs, Hnd. apply StronglySorted_app in Hs as (Hcross & Hs & _).
  rewrite map_app in Hnd. apply NoDup_app in Hnd as (Hnd & _ & _). split_and!; [done| |done| |].
  - rewrite length_take, Hp. by rewrite length_map_to_list.
  - intros id c Hin. apply elem_of_map_to_list. rewrite <- Hp. apply (list_elem_of_lookup_1) in Hin as [i Hi].
    apply lookup_take_Some in Hi as [Hi _]. by eapply list_elem_of_lookup_2.
  - intros id c id' c' Hin Ho Hnot. apply Hcross; [done|]. apply elem_of_map_to_list in Ho. rewrite <- Hp, <- (take_drop n l) in Ho.
    apply elem_of_app in Ho as [Ho|Ho]; [|done]. destruct Hnot. apply list_elem_of_fmap. by exists (id', c').
Qed.

(** C34: the witnesses elected are the ones with the most votes: [update_active_witnesses] makes active as many candidates as
    there are seats, or all if there are fewer, each of them once, and every one has more votes than every
    candidate left out, or as many and a lower vote id. *)
Theorem witnesses_elected_by_votes t e e' :
  update_active_witnesses t e = Ok e' →
  NoDup (elected_witnesses e') ∧
  (∃ count, seat_count (witness_count_histogram t) (total_witness_stake t) (min_witness_count e) = Ok count ∧
     length (elected_witnesses e') = Nat.min (Z.to_nat count) (size (witness_candidates e))) ∧
  (∀ id, id ∈ elected_witnesses e' → is_Some (witness_candidates e !! id)) ∧
  ∀ id c id' c', id ∈ elected_witnesses e' → witness_candidates e !! id = Some c →
    witness_candidates e !! id' = Some c' → id' ∉ elected_witnesses e' → preferred t (id, c) (id', c').
Proof.
  unfold update_active_witnesses. intros E. apply bind_Ok in E as (count & Hc & E). apply bind_Ok in E as (wits & Hw & E).
  apply bind_Ok in E as (old & _ & E). apply bind_Ok in E as (auth & _ & [= <-]). cbn [elected_witnesses].
  apply sort_votable_objects_spec in Hw as (Hnd & Hlen & _ & Hin & Hpref).
  assert (merge_sort Z.le (map fst wits) ≡ₚ map fst wits) as Hp by apply merge_sort_Permutation.
  split_and!; [by rewrite Hp| | |].
  - exists count. split; [done|]. by rewrite Hp, length_map.
  - intros id. rewrite Hp. intros ([i c] & -> & Hi)%list_elem_of_fmap. exists c. by apply Hin.
  - intros id c id' c'. rewrite Hp. intros ([i c0] & -> & Hi)%list_elem_of_fmap Hc0 Hc' Hnot. simpl in *.
    apply Hin in Hi as Hi'. rewrite Hc0 in Hi'. injection Hi' as <-. by eapply Hpref.
Qed.

(** ** The authority of the elected *)

Definition weight_sum (l : list (Z * Z)) : Z := sum_z (map snd l).
Definition weight_ok (x : Z * Z) : Prop := 1 ≤ x.2 < 2 ^ 16.

Lemma flat_put_perm k w l : k ∉ map fst l → flat_put k w l ≡ₚ (k, w) :: l.
Proof.
  induction l as [|[k' w'] l IH]; [done|]. simpl. intros Hk. rewrite not_elem_of_cons in Hk. destruct Hk as [Hne Hk].
  destruct (Z.ltb_spec k k'); [done|]. destruct (Z.eqb_spec k k'); [done|]. rewrite IH by done. apply Permutation_swap.
Qed.

Lemma sum_z_perm l l' : l ≡ₚ l' → sum_z l = sum_z l'.
Proof. induction 1; simpl; lia. Qed.

Lemma weight_sum_put k w l : k ∉ map fst l → weight_sum (flat_put k w l) = w + weight_sum l.
Proof. intros Hk. unfold weight_sum. by rewrite (sum_z_perm _ _ (Permutation_map snd (flat_put_perm k w l Hk))). Qed.

Lemma weight_sum_bound l : Forall weight_ok l → Z.of_nat (length l) ≤ weight_sum l ≤ 65535 * Z.of_nat (length l).
Proof. unfold weight_sum. induction 1 as [|[k w] l [? ?] _ IH]; simpl in *; lia. Qed.

(** The counter after counting [done], in descending order of votes down to [low]. *)
Record counted (vc : vote_counter) (counted_votes : list (account_id_type * Z)) (low : Z) : Prop := {
  ct_total : vc_total_votes vc = weight_sum (vc_auth vc);
  ct_weights : Forall weight_ok (vc_auth vc);
  ct_length : (length (vc_auth vc) ≤ length counted_votes)%nat;
  ct_members : ∀ a w, (a, w) ∈ vc_auth vc → ∃ n, (a, n) ∈ counted_votes ∧ 0 < n;
  ct_shift : (bitshift vc = -1 ∧ vc_auth vc = [] ∧ ∀ x, x ∈ counted_votes → x.2 = 0) ∨
             (0 ≤ bitshift vc ∧ low < 2 ^ 16 * 2 ^ bitshift vc ∧ vc_auth vc ≠ []) }.

Lemma log2_shift v : 0 < v → let s := Z.max (Z.log2 v - 15) 0 in 0 ≤ s ∧ v < 2 ^ 16 * 2 ^ s.
Proof.
  intros Hv s. split; [lia|]. pose proof (Z.log2_spec v Hv) as [_ Hl]. rewrite <- Z.pow_add_r by lia.
  eapply Z.lt_le_trans; [exact Hl|]. apply Z.pow_le_mono_r; lia.
Qed.

Lemma vc_add_counted vc l low who votes :
  counted vc l low → 0 ≤ votes ≤ low → who ∉ map fst l → Z.of_nat (length l) < 2 ^ 16 →
  counted (vc_add vc who votes) (l ++ [(who, votes)]) votes.
Proof.
  intros [Ht Hw Hl Hm Hs] Hv Hwho Hlen. unfold vc_add. destruct (Z.eqb_spec votes 0) as [->|Hne].
  { split; [done|done|rewrite length_app; simpl; lia| |].
    - intros a w Hin. destruct (Hm a w Hin) as (n & ? & ?). exists n. split; [set_solver|done].
    - destruct Hs as [(? & ? & Hz)|(? & ? & ?)]; [left|right].
      + split_and!; [done..|]. intros x [Hx|Hx]%elem_of_app; [by apply Hz|]. apply list_elem_of_singleton in Hx. by subst.
      + split_and!; [done| |done]. assert (0 < 2 ^ bitshift vc) by (apply Z.pow_pos_nonneg; lia). lia. }
  set (s := if bitshift vc =? -1 then _ else _).
  assert (0 ≤ s ∧ votes < 2 ^ 16 * 2 ^ s) as [Hs0 Hsv].
  { unfold s. destruct (Z.eqb_spec (bitshift vc) (-1)); [apply log2_shift; lia|].
    destruct Hs as [(? & _)|(? & ? & _)]; [done|]. split; [done|]. lia. }
  assert (0 < 2 ^ s) by (apply Z.pow_pos_nonneg; lia). rewrite Z.shiftr_div_pow2 by done. set (w := Z.max _ 1).
  assert (1 ≤ w < 2 ^ 16) as Hwb.
  { unfold w. assert (votes / 2 ^ s < 2 ^ 16) by (apply Z.div_lt_upper_bound; lia). lia. }
  assert (who ∉ map fst (vc_auth vc)) as Hnew.
  { intros ([a x] & -> & Hin)%list_elem_of_fmap. destruct (Hm a x Hin) as (n & Hn & _). apply Hwho, list_elem_of_fmap. by exists (a, n). }
  pose proof (flat_put_perm who (w mod 2 ^ 16) _ Hnew) as Hp. rewrite Z.mod_small in * by lia.
  pose proof (weight_sum_bound _ Hw) as Hb.
  split; cbn [vc_total_votes vc_auth bitshift].
  - rewrite weight_sum_put, Ht, to_uint64_small by (done || lia). lia.
  - rewrite Hp. by constructor.
  - rewrite Hp, length_app. simpl. lia.
  - intros a x. rewrite Hp, elem_of_cons. intros [[= -> ->]|Hin]; [exists votes; split; [set_solver|lia]|].
    destruct (Hm a x Hin) as (n & ? & ?). exists n. split; [set_solver|done].
  - right. split_and!; [done..|]. intros E. rewrite E in Hp. by apply Permutation_nil_l in Hp.
Qed.

Lemma count_all vs vc l low :
  counted vc l low → StronglySorted (λ x y, y.2 ≤ x.2) vs → Forall (λ x, 0 ≤ x.2 ≤ low) vs →
  NoDup (map fst (l ++ vs)) → Z.of_nat (length (l ++ vs)) ≤ 2 ^ 16 →
  ∃ low', counted (foldl (λ vc x, vc_add vc x.1 x.2) vc vs) (l ++ vs) low'.
Proof.
  revert vc l low. induction vs as [|[a n] vs IH]; intros vc l low Hc Hs Hlow Hnd Hlen.
  { exists low. by rewrite app_nil_r. }
  apply StronglySorted_cons in Hs as [Hn Hs]. apply Forall_cons in Hlow as [Ha Hlow].
  assert (l ++ (a, n) :: vs = (l ++ [(a, n)]) ++ vs) as E by (by rewrite <- app_assoc). rewrite E in *.
  apply (IH _ _ n); [|done| |done|done].
  - rewrite <- E in Hnd. rewrite map_app in Hnd. apply NoDup_app in Hnd as (_ & Hd & _). rewrite !length_app in Hlen. simpl in Hlen.
    eapply vc_add_counted; [done|done| |lia]. intros Hin. apply (Hd a Hin). by left.
  - rewrite Forall_forall in *. intros x Hx. specialize (Hn x Hx). specialize (Hlow x Hx). simpl in *. lia.
Qed.

Lemma new_counter_counted : counted new_vote_counter [] (2 ^ 64).
Proof. split; try done; [set_solver|]. left. split_and!; [done..|]. set_solver. Qed.

(** The votes of the chosen candidates. *)
Definition ballots (t : tally) (chosen : list (Z * candidate)) : list (account_id_type * Z) :=
  map (λ x, (cand_account x.2, votes_of t x.2)) chosen.

Lemma authority_of_ballots t chosen old :
  authority_of t chosen old = vc_finish (foldl (λ vc x, vc_add vc x.1 x.2) new_vote_counter (ballots t chosen)) old.
Proof. unfold authority_of, ballots. generalize new_vote_counter. induction chosen as [|x l IH]; intros vc; [done|]. simpl. apply IH. Qed.

(** An authority of accounts with 16-bit weights: the threshold is more than half of the weights and can be reached. *)
Definition majority_authority (a : authority) : Prop :=
  Forall weight_ok (account_auths a) ∧ key_auths a = [] ∧ address_auths a = [] ∧
  weight_sum (account_auths a) < 2 * weight_threshold a ∧ weight_threshold a ≤ weight_sum (account_auths a).

Lemma authority_of_majority t chosen old :
  StronglySorted (preferred t) chosen → NoDup (map (λ x, cand_account x.2) chosen) → Z.of_nat (length chosen) ≤ 2 ^ 16 →
  Forall (λ x, 0 ≤ x < 2 ^ 64) (vote_tally_buffer t) →
  let a := authority_of t chosen old in
  (a = old ∧ ∀ x, x ∈ chosen → votes_of t x.2 = 0) ∨
  (majority_authority a ∧ ∀ acc w, (acc, w) ∈ account_auths a → ∃ x, x ∈ chosen ∧ cand_account x.2 = acc ∧ 0 < votes_of t x.2).
Proof.
  intros Hs Hnd Hlen Hbuf a. unfold a. rewrite authority_of_ballots.
  assert (∀ c, 0 ≤ votes_of t c < 2 ^ 64) as Hvotes.
  { intros c. unfold votes_of. destruct (vote_tally_buffer t !! _) as [v|] eqn:E; simpl; [|lia].
    rewrite Forall_lookup in Hbuf. by eapply Hbuf. }
  destruct (count_all (ballots t chosen) new_vote_counter [] (2 ^ 64)) as [low Hc].
  - apply new_counter_counted.
  - unfold ballots. clear Hnd Hlen. induction Hs as [|x l Hs IH Hx]; simpl; constructor; [done|].
    rewrite Forall_forall in Hx. apply Forall_forall. intros y (z & -> & Hz)%list_elem_of_fmap. specialize (Hx z Hz). unfold preferred in Hx. simpl. lia.
  - apply Forall_forall. intros y (z & -> & Hz)%list_elem_of_fmap. specialize (Hvotes z.2). simpl. lia.
  - simpl. unfold ballots. by rewrite map_map.
  - simpl. unfold ballots. by rewrite length_map.
  - simpl in Hc. set (vc := foldl _ _ _) in *. clearbody vc. destruct Hc as [Ht Hw Hl Hm Hsh]. unfold vc_finish.
    pose proof (weight_sum_bound _ Hw) as Hb. unfold ballots in Hl. rewrite length_map in Hl.
    destruct Hsh as [(_ & Eauth & Hz)|(_ & _ & Hne)].
    + left. rewrite Ht, Eauth. split; [done|]. intros x Hx. apply (Hz (cand_account x.2, votes_of t x.2)).
      unfold ballots. apply list_elem_of_fmap. by exists x.
    + right. assert (0 < Z.of_nat (length (vc_auth vc))) by (destruct (vc_auth vc); [done|simpl; lia]).
      rewrite (proj2 (Z.eqb_neq _ _)) by lia. rewrite Z.mod_small by lia. rewrite Z.shiftr_div_pow2, Ht by lia. change (2 ^ 1) with 2.
      pose proof (div_down_spec (weight_sum (vc_auth vc)) 2 ltac:(lia)). split.
      * unfold majority_authority; cbn [weight_threshold account_auths key_auths address_auths]. split_and!; [done..|lia|lia].
      * intros acc w Hin. destruct (Hm acc w Hin) as (n & Hn & ?). unfold ballots in Hn.
        apply list_elem_of_fmap in Hn as (x & [= -> ->] & Hx). by exists x.
Qed.

(** After hard fork 533, with candidates of different accounts, at most 2^16 of them, electing witnesses sets the active authority of the witness
    account so that no group with half of the weight or less controls it and all together do: each member has a
    16-bit weight that is not zero and is the account of an elected witness with votes. If nobody elected has votes, the
    authority stays as it was. *)
Theorem witness_authority_is_majority t e e' :
  update_active_witnesses t e = Ok e' → HARDFORK_533_TIME ≤ head_time e →
  (∀ i j c c', witness_candidates e !! i = Some c → witness_candidates e !! j = Some c' → cand_account c = cand_account c' → i = j) →
  Z.of_nat (size (witness_candidates e)) ≤ 2 ^ 16 → Forall (λ x, 0 ≤ x < 2 ^ 64) (vote_tally_buffer t) →
  ∃ old a, active_authorities e !! GRAPHENE_WITNESS_ACCOUNT = Some old ∧ active_authorities e' !! GRAPHENE_WITNESS_ACCOUNT = Some a ∧
    ((a = old ∧ ∀ id c, id ∈ elected_witnesses e' → witness_candidates e !! id = Some c → votes_of t c = 0) ∨
     (majority_authority a ∧ ∀ acc w, (acc, w) ∈ account_auths a →
        ∃ id c, id ∈ elected_witnesses e' ∧ witness_candidates e !! id = Some c ∧ cand_account c = acc ∧ 0 < votes_of t c)).
Proof.
  unfold update_active_witnesses. intros E Hhf Hacc Hsize Hbuf. apply bind_Ok in E as (count & _ & E).
  apply bind_Ok in E as (wits & Hw & E). apply bind_Ok in E as (old & Hold & E). apply bind_Ok in E as (auth & Ha & [= <-]).
  cbn [elected_witnesses active_authorities witness_candidates]. unfold get_authority in Hold.
  destruct (active_authorities e !! GRAPHENE_WITNESS_ACCOUNT) as [old'|]; [injection Hold as ->|done].
  unfold new_authority in Ha. rewrite (proj2 (Z.ltb_ge _ _)) in Ha by done. injection Ha as <-.
  apply sort_votable_objects_spec in Hw as (Hnd & Hlen & Hs & Hin & _).
  assert (merge_sort Z.le (map fst wits) ≡ₚ map fst wits) as Hp by apply merge_sort_Permutation.
  exists old. eexists. split; [done|]. split; [apply lookup_insert_eq|].
  destruct (authority_of_majority t wits old Hs) as [[Eo Hz]|[Hmaj Hmem]]; [| |done| |].
  - clear - Hnd Hin Hacc. induction wits as [|[i c] l IH]; [constructor|]. simpl in *. apply NoDup_cons in Hnd as [Hi Hnd].
    constructor; [|apply IH; [done|]; intros; apply Hin; by right].
    intros ([j c'] & Ec & Hj)%list_elem_of_fmap. simpl in Ec. apply Hi, list_elem_of_fmap. exists (j, c'). split; [|done]. simpl.
    eapply Hacc; [apply Hin; by left|apply Hin; by right|done].
  - rewrite Hlen. lia.
  - left. split; [done|]. intros id c. rewrite Hp. intros ([i c'] & -> & Hi)%list_elem_of_fmap Hc. apply Hin in Hi as Hi'. simpl in *.
    rewrite Hc in Hi'. injection Hi' as <-. exact (Hz _ Hi).
  - right. split; [done|]. intros acc w (x & Hx & Ea & Hv)%Hmem. exists x.1, x.2. destruct x as [i c]. simpl in *.
    split_and!; [rewrite Hp; apply list_elem_of_fmap; by exists (i, c)|by apply Hin|done|done].
Qed.

(** ** The next maintenance time *)

(** The next maintenance time is the first one on the grid of maintenance intervals after the block. *)
Theorem next_maintenance_is_least next interval ts num :
  num ≠ 1 → 0 < interval → 0 ≤ next ≤ ts → ts + interval < 2 ^ 32 →
  let r := advance_maintenance_time next interval ts num ts in
  ts < r ∧ (∃ k, r = next + k * interval) ∧ ∀ k, ts < next + k * interval → r ≤ next + k * interval.
Proof.
  intros Hnum Hi Hn Ht. unfold advance_maintenance_time. rewrite (proj2 (Z.leb_le _ _)) by lia.
  rewrite (proj2 (Z.eqb_neq 1 num)) by congruence. rewrite Z.quot_div_nonneg by lia.
  pose proof (div_down_spec (ts - next) interval Hi) as Hd. set (y := (ts - next) / interval) in *.
  unfold time_add. cbv zeta. rewrite Z.mod_small by nia. split_and!; [nia|by exists (y + 1)|].
  intros k Hk. assert (y < k); [|nia]. nia.
Qed.

(** ** A sample election *)

(** Five witness candidates, one of them without votes. *)
Definition sample_candidates : gmap Z candidate :=
  {[ 11 := Candidate 101 257 0; 12 := Candidate 102 513 0; 13 := Candidate 103 769 0;
     14 := Candidate 104 1025 0; 15 := Candidate 105 1281 0 ]}.

Definition sample_tally : tally := Tally [0; 500000; 900000; 0; 900000; 20] [0; 600; 300; 100] [0; 0] 0 1000.

Definition sample_election : election :=
  Election 1700000000 false 3 1 sample_candidates ∅
    {[ GRAPHENE_WITNESS_ACCOUNT := Authority 1 [] [] [] ]} [] [].

Lemma witnesses_elected_by_votes_witness :
  ∃ e', update_active_witnesses sample_tally sample_election = Ok e' ∧ elected_witnesses e' = [11; 12; 14] ∧ NoDup (elected_witnesses e').
Proof.
  eexists. split; [vm_compute; reflexivity|]. split; [reflexivity|].
  refine (proj1 (witnesses_elected_by_votes sample_tally sample_election _ _)). vm_compute. reflexivity.
Defined.

Lemma witness_authority_is_majority_witness :
  ∃ e' old a, update_active_witnesses sample_tally sample_election = Ok e' ∧
    active_authorities e' !! GRAPHENE_WITNESS_ACCOUNT = Some a ∧
    (a = old ∨ majority_authority a) ∧ active_authorities sample_election !! GRAPHENE_WITNESS_ACCOUNT = Some old.
Proof.
  eexists.
  destruct (witness_authority_is_majority sample_tally sample_election _ ltac:(vm_compute; reflexivity)) as (old & a & Ho & Ha & Hm).
  - done.
  - assert (map_Forall (λ i c, map_Forall (λ j c', cand_account c = cand_account c' → i = j) sample_candidates) sample_candidates) as H
      by (refine (bool_decide_unpack _ _); vm_compute; exact I).
    intros i j c c' Hi Hj. exact (H i c Hi j c' Hj).
  - done.
  - repeat constructor; discriminate.
  - exists old, a. split; [vm_compute; reflexivity|]. split; [exact Ha|]. split; [|exact Ho].
    destruct Hm as [[-> _]|[Hm _]]; [by left|by right].
Defined.
