(* ===== verification/UndoDb.v ===== *)
(** * The object database and its undo stack

    Models libraries/db: the object store with its per-type id counters
    (generic_index.hpp, primary_index in index.hpp, object_database.cpp) and the undo
    database that records how to revert it (undo_database.hpp, undo_database.cpp).

    The object type is abstract.  An object id is a pair of a type key (space and type)
    and an instance number.  Which keys of an object the ordered_unique indices of its
    container hold unique, besides the id, is declared per object type; it is the class
    [UniqueKeys].  A mutation keeps the state it reached when it throws, as the C++ objects
    do: operations return the new state together with a result.  In particular a
    modification that violates a unique index erases the object, as multi_index does.

    [Snap] is the abstract specification, a stack of full snapshots; the refinement
    theorems at the end show that the undo database implements it. *)
From S2P Require Import Prelude.

Notation index_key := Z (only parsing).
Notation object_id := (Z * Z)%type (only parsing).

(** The keys of an object in the unique indices of its container other than the one by id,
    tagged with the index they belong to; two objects may not share one. *)
Class UniqueKeys (V : Type) := {
  unique_key : Type;
  unique_key_eq :: EqDecision unique_key;
  unique_key_countable :: Countable unique_key;
  unique_keys : object_id → V → gset unique_key }.

Section undo.
Context {V : Type} {keys : UniqueKeys V}.

(** ** Data *)

(** The stored objects and [_next_id] of every registered index. *)
Record world := World {
  objects : gmap object_id V;
  next_ids : gmap index_key Z }.

(** [struct undo_state]. *)
Record undo_state := UndoState {
  old_values : gmap object_id V;
  old_index_next_ids : gmap index_key Z;
  new_ids : gset object_id;
  removed : gmap object_id V }.

Definition empty_undo_state : undo_state := UndoState ∅ ∅ ∅ ∅.

(** [class undo_database]; the head of [stack] is [_stack.back()]. *)
Record undo_database := UndoDatabase {
  active_sessions : Z;
  disabled : bool;
  stack : list undo_state;
  max_size : nat }.

(** The object database owns the objects and the undo database. *)
Record object_database := ObjectDatabase { db : world; undo_db : undo_database }.

(** ** Recording changes *)

Definition st_on_create (id : object_id) (s : undo_state) : undo_state :=
  UndoState (old_values s)
    (match old_index_next_ids s !! id.1 with
     | None => <[id.1 := id.2]> (old_index_next_ids s)
     | Some _ => old_index_next_ids s
     end)
    ({[id]} ∪ new_ids s) (removed s).

Definition st_on_modify (id : object_id) (v : V) (s : undo_state) : undo_state :=
  if decide (id ∈ new_ids s) then s
  else match old_values s !! id with
       | Some _ => s
       | None => UndoState (<[id := v]> (old_values s)) (old_index_next_ids s)
                   (new_ids s) (removed s)
       end.

Definition st_on_remove (id : object_id) (v : V) (s : undo_state) : undo_state :=
  if decide (id ∈ new_ids s) then
    UndoState (old_values s) (old_index_next_ids s) (new_ids s ∖ {[id]}) (removed s)
  else match old_values s !! id with
       | Some x => UndoState (delete id (old_values s)) (old_index_next_ids s)
                     (new_ids s) (<[id := x]> (removed s))
       | None =>
         match removed s !! id with
         | Some _ => s
         | None => UndoState (old_values s) (old_index_next_ids s)
                     (new_ids s) (<[id := v]> (removed s))
         end
       end.

(** The common frame of [on_create], [on_modify] and [on_remove]: nothing when
    disabled, otherwise update the top state, pushing an empty one if there is none. *)
Definition on_top (f : undo_state → undo_state) (u : undo_database) : undo_database :=
  if disabled u then u
  else UndoDatabase (active_sessions u) (disabled u)
         (match stack u with
          | [] => [f empty_undo_state]
          | s :: st => f s :: st
          end) (max_size u).

Definition on_create (id : object_id) := on_top (st_on_create id).
Definition on_modify (id : object_id) (v : V) := on_top (st_on_modify id v).
Definition on_remove (id : object_id) (v : V) := on_top (st_on_remove id v).

(** ** Mutations of the object database

    [create], [modify] and [remove] of [primary_index]: [create] constructs the object
    with the next id, inserts it unless that violates a unique index, uses the id and records
    the creation; [modify] records the old value before running the callback, whose exception
    is rethrown after the callback's partial effect; if the changed object violates a unique
    index the container erases it, and the failure is reported unless the callback threw;
    [remove] records the object and erases it. *)

(** No object but [id] itself holds a unique key of [v]. *)
Definition fits (id : object_id) (v : V) (m : gmap object_id V) : bool :=
  bool_decide (map_Forall (λ id' x, id' = id ∨ unique_keys id v ## unique_keys id' x) m).

Definition create (t : index_key) (v : V) (o : object_database)
    : object_database * result object_id :=
  match next_ids (db o) !! t with
  | None => (o, Err (assert_exception "Database index does not exist"))
  | Some n =>
    if bool_decide (objects (db o) !! (t, n) = None) && fits (t, n) v (objects (db o)) then
      (ObjectDatabase
         (World (<[(t, n) := v]> (objects (db o))) (<[t := n + 1]> (next_ids (db o))))
         (on_create (t, n) (undo_db o)), Ok (t, n))
    else (o, Err (assert_exception
            "Could not create object! Most likely a uniqueness constraint is violated."))
  end.

(** [_indices.modify]: the container after the change and whether it was kept. *)
Definition index_modify (id : object_id) (v : V) (m : gmap object_id V) : gmap object_id V * bool :=
  if fits id v m then (<[id := v]> m, true) else (delete id m, false).

Definition modify (id : object_id) (m : V → V * option fc_exception) (o : object_database)
    : object_database * result unit :=
  match objects (db o) !! id with
  | None => (o, Err (assert_exception "Unable to find Object"))
  | Some v =>
    let '(objs, ok) := index_modify id (m v).1 (objects (db o)) in
    (ObjectDatabase (World objs (next_ids (db o))) (on_modify id v (undo_db o)),
     match (m v).2 with
     | Some e => Err e
     | None => FC_ASSERT ok "Could not modify object, most likely an index constraint was violated"
     end)
  end.

Definition remove (id : object_id) (o : object_database) : object_database * result unit :=
  match objects (db o) !! id with
  | None => (o, Err (assert_exception "Unable to find Object"))
  | Some v =>
    (ObjectDatabase (World (delete id (objects (db o))) (next_ids (db o)))
       (on_remove id v (undo_db o)), Ok ())
  end.

(** ** Sessions *)

(** [while( size() > max_size() ) _stack.pop_front();], then push a fresh state. *)
Definition trim_stack (u : undo_database) : list undo_state := take (max_size u) (stack u).

(** [class session]: what its destructor still has to do. *)
Record session := Session { apply_undo : bool; disable_on_exit : bool }.

Definition start_undo_session (force_enable : bool) (u : undo_database)
    : undo_database * session :=
  if disabled u && negb force_enable then (u, Session true false)
  else (UndoDatabase (active_sessions u + 1) (if force_enable then false else disabled u)
          (empty_undo_state :: trim_stack u) (max_size u),
        Session true (disabled u && force_enable)).

(** The body shared by [undo] and [pop_commit]: put the old values back, remove the
    created objects, restore the id counters, reinsert the removed objects.  It runs with
    recording disabled, so only the world changes.  The containers of an undo state are hash
    tables, whose order of iteration is one of the maps here; the theorems do not depend on
    it. *)
Definition undo_modify (kv : object_id * V) (m : gmap object_id V) : result (gmap object_id V) :=
  match m !! kv.1 with
  | None => Err (assert_exception "Unable to find Object")
  | Some _ =>
    let '(m', ok) := index_modify kv.1 kv.2 m in
    FC_ASSERT ok "Could not modify object, most likely an index constraint was violated";; Ok m'
  end.

Definition undo_remove (id : object_id) (m : gmap object_id V) : result (gmap object_id V) :=
  match m !! id with
  | None => Err (assert_exception "Unable to find Object")
  | Some _ => Ok (delete id m)
  end.

Definition undo_insert (kv : object_id * V) (m : gmap object_id V) : result (gmap object_id V) :=
  FC_ASSERT (bool_decide (m !! kv.1 = None) && fits kv.1 kv.2 m)
    "Could not insert object, most likely a uniqueness constraint was violated";;
  Ok (<[kv.1 := kv.2]> m).

Definition revert (s : undo_state) (w : world) : result world :=
  m1 ← res_fold undo_modify (map_to_list (old_values s)) (objects w);
  m2 ← res_fold undo_remove (elements (new_ids s)) m1;
  let nexts := old_index_next_ids s ∪ next_ids w in
  m3 ← res_fold undo_insert (map_to_list (removed s)) m2;
  Ok (World m3 nexts).

Definition undo (o : object_database) : result object_database :=
  let u := undo_db o in
  FC_ASSERT (negb (disabled u)) "!_disabled";;
  FC_ASSERT (0 <? active_sessions u) "_active_sessions > 0";;
  match stack u with
  | [] => Err (fc_throw "undo on an empty stack")
  | s :: st =>
    w ← revert s (db o);
    Ok (ObjectDatabase w (UndoDatabase (active_sessions u - 1) false st (max_size u)))
  end.

Definition pop_commit (o : object_database) : result object_database :=
  let u := undo_db o in
  FC_ASSERT (active_sessions u =? 0) "_active_sessions == 0";;
  match stack u with
  | [] => Err (assert_exception "!_stack.empty()")
  | s :: st =>
    w ← revert s (db o);
    Ok (ObjectDatabase w (UndoDatabase (active_sessions u) false st (max_size u)))
  end.

(** [merge]: fold the top state into the one below it, container by container. *)
Definition merge_upd (id : object_id) (v : V) (prev : undo_state) : undo_state :=
  if decide (id ∈ new_ids prev) then prev
  else match old_values prev !! id with
       | Some _ => prev
       | None => UndoState (<[id := v]> (old_values prev)) (old_index_next_ids prev)
                   (new_ids prev) (removed prev)
       end.

Definition merge_del (id : object_id) (v : V) (prev : undo_state) : undo_state :=
  if decide (id ∈ new_ids prev) then
    UndoState (old_values prev) (old_index_next_ids prev) (new_ids prev ∖ {[id]}) (removed prev)
  else match old_values prev !! id with
       | Some x => UndoState (delete id (old_values prev)) (old_index_next_ids prev)
                     (new_ids prev) (<[id := x]> (removed prev))
       | None => UndoState (old_values prev) (old_index_next_ids prev)
                   (new_ids prev) (<[id := v]> (removed prev))
       end.

Definition merge_state (prev state : undo_state) : undo_state :=
  let p1 := map_fold merge_upd prev (old_values state) in
  let p2 := UndoState (old_values p1) (old_index_next_ids p1)
              (new_ids p1 ∪ new_ids state) (removed p1) in
  let p3 := UndoState (old_values p2) (old_index_next_ids p2 ∪ old_index_next_ids state)
              (new_ids p2) (removed p2) in
  map_fold merge_del p3 (removed state).

Definition merge (u : undo_database) : result undo_database :=
  FC_ASSERT (0 <? active_sessions u) "_active_sessions > 0";;
  if (active_sessions u =? 1) && (Nat.eqb (length (stack u)) 1) then
    Ok (UndoDatabase (active_sessions u - 1) (disabled u) [] (max_size u))
  else match stack u with
       | state :: prev :: st =>
         Ok (UndoDatabase (active_sessions u - 1) (disabled u)
               (merge_state prev state :: st) (max_size u))
       | _ => Err (assert_exception "_stack.size() >=2")
       end.

Definition commit (u : undo_database) : result undo_database :=
  FC_ASSERT (0 <? active_sessions u) "_active_sessions > 0";;
  Ok (UndoDatabase (active_sessions u - 1) (disabled u) (stack u) (max_size u)).

(** [~session()]: undo unless released; a failing undo terminates the process ([None]). *)
Definition destroy_session (ses : session) (o : object_database) : option object_database :=
  o' ← (if apply_undo ses then
          match undo o with Ok o' => Some o' | Err _ => None end
        else Some o);
  Some (if disable_on_exit ses then
          ObjectDatabase (db o') (UndoDatabase (active_sessions (undo_db o')) true
                                    (stack (undo_db o')) (max_size (undo_db o')))
        else o').

(** [session::merge()], [session::commit()]: on success the session is released. *)
Definition session_merge (ses : session) (o : object_database)
    : result (object_database * session) :=
  if apply_undo ses then
    u ← merge (undo_db o);
    Ok (ObjectDatabase (db o) u, Session false (disable_on_exit ses))
  else Ok (o, Session false (disable_on_exit ses)).

Definition session_commit (ses : session) (o : object_database)
    : session * result object_database :=
  (Session false (disable_on_exit ses),
   u ← commit (undo_db o); Ok (ObjectDatabase (db o) u)).

(** ** Sessions around chain work (libraries/chain/db_block.cpp)

    The work done inside a session, [_apply_transaction] or [apply_block], is any function
    on the object database that returns a result. *)
Section chain_work.
Context {A : Type}.

(** The scope [{ auto s = start_undo_session(f); work; s.merge(); }] with the destructor
    run on both exits. *)
Definition merging_scope (force_enable : bool)
    (work : object_database → object_database * result A) (o : object_database)
    : option (object_database * result A) :=
  let '(u, ses) := start_undo_session force_enable (undo_db o) in
  let '(o1, r) := work (ObjectDatabase (db o) u) in
  match r with
  | Err e => o2 ← destroy_session ses o1; Some (o2, Err e)
  | Ok a =>
    match session_merge ses o1 with
    | Ok (o2, ses') => o3 ← destroy_session ses' o2; Some (o3, Ok a)
    | Err e => o2 ← destroy_session ses o1; Some (o2, Err e)
    end
  end.

(** The nested scopes of [push_proposal] and [try_push_virtual_operation]: a guard on the
    nesting depth, room for one more state on the stack, and recording forced on.
    [active_witnesses] is the number of active witnesses. *)
Definition reserve_state (u : undo_database) : undo_database :=
  if Nat.leb (max_size u) (length (stack u)) then
    UndoDatabase (active_sessions u) (disabled u) (stack u) (S (length (stack u)))
  else u.

Definition nested_scope (depth active_witnesses : Z)
    (work : object_database → object_database * result A) (o : object_database)
    : option (object_database * result A) :=
  if depth <? active_witnesses * 2 then
    merging_scope true work (ObjectDatabase (db o) (reserve_state (undo_db o)))
  else Some (o, Err (assert_exception "Max undo session nesting depth exceeded!")).

(** [validate_transaction]: the session is never released. *)
Definition validate_transaction (work : object_database → object_database * result A)
    (o : object_database) : option (object_database * result A) :=
  let '(u, ses) := start_undo_session false (undo_db o) in
  let '(o1, r) := work (ObjectDatabase (db o) u) in
  o2 ← destroy_session ses o1; Some (o2, r).

(** The part of [_push_block] that applies a block on the current head. *)
Definition push_block_session (work : object_database → object_database * result A)
    (o : object_database) : option (object_database * result A) :=
  let '(u, ses) := start_undo_session false (undo_db o) in
  let '(o1, r) := work (ObjectDatabase (db o) u) in
  match r with
  | Err e => o2 ← destroy_session ses o1; Some (o2, Err e)
  | Ok a =>
    match session_commit ses o1 with
    | (ses', Ok o2) => o3 ← destroy_session ses' o2; Some (o3, Ok a)
    | (ses', Err e) => o2 ← destroy_session ses' o1; Some (o2, Err e)
    end
  end.

(** The members of [class database] the pending state lives in. *)
Record pending_database := PendingDatabase {
  odb : object_database;
  pending_tx_session : option session;
  pending_tx : list A }.

(** [_push_transaction]: open the pending session if there is none, then apply the
    transaction in a session of its own and merge it. *)
Definition push_transaction (work : object_database → object_database * result A)
    (c : pending_database) : option (pending_database * result A) :=
  let '(o0, pend) :=
    match pending_tx_session c with
    | Some p => (odb c, p)
    | None => let '(u, p) := start_undo_session false (undo_db (odb c)) in
              (ObjectDatabase (db (odb c)) u, p)
    end in
  let '(u, temp) := start_undo_session false (undo_db o0) in
  let '(o1, r) := work (ObjectDatabase (db o0) u) in
  match r with
  | Err e => o2 ← destroy_session temp o1;
             Some (PendingDatabase o2 (Some pend) (pending_tx c), Err e)
  | Ok a =>
    match session_merge temp o1 with
    | Ok (o2, temp') =>
        o3 ← destroy_session temp' o2;
        Some (PendingDatabase o3 (Some pend) (pending_tx c ++ [a]), Ok a)
    | Err e => o2 ← destroy_session temp o1;
               Some (PendingDatabase o2 (Some pend) (pending_tx c ++ [a]), Err e)
    end
  end.

(** [_pending_tx_session.reset()], and [clear_pending]. *)
Definition reset_pending_session (c : pending_database) : option pending_database :=
  match pending_tx_session c with
  | None => Some c
  | Some p => o ← destroy_session p (odb c); Some (PendingDatabase o None (pending_tx c))
  end.

Definition clear_pending (c : pending_database) : option pending_database :=
  reset_pending_session (PendingDatabase (odb c) (pending_tx_session c) []).

End chain_work.

End undo.

Arguments pending_database : clear implicits.
Arguments world : clear implicits.
Arguments undo_state : clear implicits.
Arguments undo_database : clear implicits.
Arguments object_database : clear implicits.

(** ** What an undo state means

    [reverts s cur base]: [s] records exactly how [cur] differs from [base].  For each
    object it is in one of the four relationships the source lists (new, upd, del, nop),
    and for each index the counter it had.  An updated object is [similar] to what it was: the
    same objects share a unique key with it.  So it is when the change leaves the unique keys
    alone, or concerns only keys that contain the object's id. *)
Section meaning.
Context {V : Type} {keys : UniqueKeys V}.
Implicit Types (s prev state : undo_state V) (w cur base mid : world V).

Definition similar (id : object_id) (v v' : V) : Prop :=
  ∀ id' x, id' ≠ id → (unique_keys id v ## unique_keys id' x ↔ unique_keys id v' ## unique_keys id' x).

#[local] Instance similar_equivalence id : Equivalence (similar id).
Proof.
  split; [by intros v id' x|by intros v v' E id' x Hne; rewrite (E id' x Hne)|].
  intros v1 v2 v3 E1 E2 id' x Hne. by rewrite (E1 id' x Hne), (E2 id' x Hne).
Qed.

Inductive obj_rel (id : object_id) : bool → option V → option V → option V → option V → Prop :=
  | rel_new c : obj_rel id true None None (Some c) None
  | rel_upd x c : similar id x c → obj_rel id false (Some x) None (Some c) (Some x)
  | rel_del x : obj_rel id false None (Some x) None (Some x)
  | rel_nop c : obj_rel id false None None c c.

Inductive next_rel : option Z → option Z → option Z → Prop :=
  | next_upd n c : n ≤ c → next_rel (Some n) (Some c) (Some n)
  | next_nop c : next_rel None c c.

Record reverts s cur base : Prop := {
  rev_obj id : obj_rel id (bool_decide (id ∈ new_ids s)) (old_values s !! id) (removed s !! id)
                 (objects cur !! id) (objects base !! id);
  rev_next t : next_rel (old_index_next_ids s !! t) (next_ids cur !! t) (next_ids base !! t);
  rev_fresh t i : (t, i) ∈ new_ids s → ∃ n, next_ids base !! t = Some n ∧ n ≤ i }.

(** No two objects share a unique key. *)
Definition no_clash (m : gmap object_id V) : Prop := map_Forall (λ id v, fits id v m = true) m.

(** Every object's instance number is below the counter of its index, and the unique indices
    hold. *)
Record world_wf w : Prop := {
  wf_ids t i v : objects w !! (t, i) = Some v → ∃ n, next_ids w !! t = Some n ∧ i < n;
  wf_keys : no_clash (objects w) }.

(** *** Unique keys *)

Lemma fits_spec (id : object_id) (v : V) (m : gmap object_id V) :
  fits id v m = true ↔
  ∀ id' x, m !! id' = Some x → id' ≠ id → unique_keys id v ## unique_keys id' x.
Proof.
  unfold fits. rewrite bool_decide_eq_true. unfold map_Forall.
  split; intros Hf id' x Hl; destruct (decide (id' = id)); naive_solver.
Qed.

Lemma fits_sub (id : object_id) (v : V) (m m' : gmap object_id V) : m ⊆ m' → fits id v m' = true → fits id v m = true.
Proof. rewrite !fits_spec. intros Hs Hf id' x Hl. eapply Hf, lookup_weaken; eauto. Qed.

Lemma fits_similar (id : object_id) (v v' : V) (m : gmap object_id V) :
  similar id v v' → fits id v m = true → fits id v' m = true.
Proof. rewrite !fits_spec. intros Hs Hf id' x Hl Hne. by apply (Hs id' x Hne), Hf. Qed.

Lemma no_clash_insert (id : object_id) (v : V) (m : gmap object_id V) :
  no_clash m → fits id v m = true → no_clash (<[id := v]> m).
Proof.
  intros Hm Hv id1 x1 H1. apply fits_spec. intros id2 x2 H2 Hne.
  rewrite fits_spec in Hv.
  apply lookup_insert_Some in H1 as [[<- <-]|[Hn1 H1]];
    apply lookup_insert_Some in H2 as [[<- <-]|[Hn2 H2]]; [done|by eapply Hv| |].
  - symmetry. by eapply Hv.
  - apply Hm in H1. rewrite fits_spec in H1. by eapply H1.
Qed.

Lemma no_clash_sub (m m' : gmap object_id V) : m ⊆ m' → no_clash m' → no_clash m.
Proof. intros Hs Hm id x Hl. eapply fits_sub; [done|]. eapply Hm, lookup_weaken; eauto. Qed.

Lemma world_ext w1 w2 :
  (∀ id, objects w1 !! id = objects w2 !! id) →
  (∀ t, next_ids w1 !! t = next_ids w2 !! t) → w1 = w2.
Proof. destruct w1, w2; simpl. intros ? ?. f_equal; by apply map_eq. Qed.

Lemma reverts_refl w : reverts empty_undo_state w w.
Proof.
  split; intros; simpl.
  - rewrite bool_decide_false by set_solver. rewrite !lookup_empty. constructor.
  - rewrite lookup_empty. constructor.
  - set_solver.
Qed.

(** *** Recording keeps the meaning *)

Lemma reverts_create s cur base t n v :
  world_wf base → reverts s cur base →
  next_ids cur !! t = Some n → objects cur !! (t, n) = None →
  reverts (st_on_create (t, n) s)
    (World (<[(t, n) := v]> (objects cur)) (<[t := n + 1]> (next_ids cur))) base.
Proof.
  intros Hwf [Hobj Hnext Hfresh] Hn Hfree. split; simpl.
  - intros id. destruct (decide (id = (t, n))) as [->|Hne].
    + rewrite bool_decide_true by set_solver. rewrite lookup_insert_eq.
      specialize (Hobj (t, n)). specialize (Hnext t). rewrite Hfree in Hobj.
      destruct (objects base !! (t, n)) as [x|] eqn:Hb.
      * destruct (wf_ids _ Hwf t n x Hb) as (m & Hm & Hlt).
        rewrite Hn, Hm in Hnext. inversion Hnext; subst; lia.
      * inversion Hobj. constructor.
    + rewrite lookup_insert_ne by congruence.
      rewrite (bool_decide_ext _ (id ∈ new_ids s)) by set_solver. apply Hobj.
  - intros t'. specialize (Hnext t'). destruct (decide (t' = t)) as [->|Hne].
    + rewrite lookup_insert_eq. rewrite Hn in Hnext.
      destruct (old_index_next_ids s !! t) eqn:E.
      * rewrite E. inversion Hnext; subst. constructor. lia.
      * rewrite lookup_insert_eq. inversion Hnext; subst. constructor. lia.
    + rewrite lookup_insert_ne by congruence.
      destruct (old_index_next_ids s !! t) eqn:E; [done|].
      by rewrite lookup_insert_ne by congruence.
  - intros t' i [Hi%elem_of_singleton|Hi]%elem_of_union; [|by apply Hfresh].
    injection Hi as -> ->. specialize (Hnext t). rewrite Hn in Hnext.
    inversion Hnext; subst; eauto with lia.
Qed.

(** [rel_case H] closes an [obj_rel] goal by the case [H] is in. *)
Local Ltac rel_case H :=
  inversion H; simplify_eq/=;
  repeat match goal with
  | E : _ = _ !! _ |- _ => rewrite <- E; clear E
  end; simplify_eq/=; constructor; try done; by etrans.

Lemma reverts_modify s cur base id v v' :
  reverts s cur base → objects cur !! id = Some v → similar id v v' →
  reverts (st_on_modify id v s) (World (<[id := v']> (objects cur)) (next_ids cur)) base.
Proof.
  intros [Hobj Hnext Hfresh] Hv Hsim. pose proof (Hobj id) as Hid. rewrite Hv in Hid.
  unfold st_on_modify.
  destruct (decide (id ∈ new_ids s)) as [Hin|Hin]; [|destruct (old_values s !! id) as [x|] eqn:E];
    (split; simpl; [|done|set_solver]); intros id';
    (destruct (decide (id' = id)) as [->|Hne];
     [rewrite lookup_insert_eq | rewrite !lookup_insert_ne by congruence; apply Hobj]).
  - rewrite bool_decide_true in * by done. rel_case Hid.
  - rewrite bool_decide_false in * by done. rewrite E. rel_case Hid.
  - rewrite lookup_insert_eq. rewrite bool_decide_false in * by done. rel_case Hid.
Qed.

Lemma reverts_remove s cur base id v :
  reverts s cur base → objects cur !! id = Some v →
  reverts (st_on_remove id v s) (World (delete id (objects cur)) (next_ids cur)) base.
Proof.
  intros [Hobj Hnext Hfresh] Hv. pose proof (Hobj id) as Hid. rewrite Hv in Hid.
  unfold st_on_remove.
  destruct (decide (id ∈ new_ids s)) as [Hin|Hin];
    [|destruct (old_values s !! id) as [x|] eqn:E;
      [|destruct (removed s !! id) as [y|] eqn:Er]];
    (split; simpl; [|done|set_solver]); intros id';
    (destruct (decide (id' = id)) as [->|Hne];
     [rewrite lookup_delete_eq
     | rewrite ?lookup_delete_ne, ?lookup_insert_ne by congruence]).
  - rewrite bool_decide_true in Hid by done. rewrite bool_decide_false by set_solver.
    rel_case Hid.
  - rewrite (bool_decide_ext _ (id' ∈ new_ids s)) by set_solver. apply Hobj.
  - rewrite bool_decide_false in * by done. rewrite lookup_delete_eq, lookup_insert_eq.
    rel_case Hid.
  - apply Hobj.
  - rewrite bool_decide_false in Hid by done. inversion Hid.
  - apply Hobj.
  - rewrite bool_decide_false in * by done. rewrite E, lookup_insert_eq. rel_case Hid.
  - apply Hobj.
Qed.

(** *** Reverting succeeds and restores the base *)

Lemma res_fold_undo_modify (l : list (object_id * V)) m :
  NoDup l.*1 → no_clash m → (∀ k v, (k, v) ∈ l → ∃ x, m !! k = Some x ∧ similar k v x) →
  res_fold undo_modify l m = Ok (list_to_map l ∪ m).
Proof.
  revert m. induction l as [|[k v] l IH]; intros m Hnd Hm Hin; cbn [res_fold].
  - rewrite list_to_map_nil. by rewrite (left_id_L ∅ (∪)).
  - rewrite fmap_cons in Hnd. apply NoDup_cons in Hnd as [Hk Hnd].
    destruct (Hin k v) as (x & Hx & Hsim); [left|].
    assert (fits k v m = true) as Hf by (eapply fits_similar; [by symmetry|by apply Hm]).
    assert (undo_modify (k, v) m = Ok (<[k:=v]> m)) as ->
      by (unfold undo_modify, index_modify; simpl; by rewrite Hx, Hf).
    simpl. rewrite IH.
    + f_equal. rewrite <- insert_union_l. rewrite insert_union_r; [done|].
      by apply not_elem_of_list_to_map_1.
    + done.
    + by apply no_clash_insert.
    + intros k' v' Hl. rewrite lookup_insert_ne; [eapply Hin; by right|].
      intros ->. apply Hk. apply list_elem_of_fmap. by exists (k', v').
Qed.

Lemma res_fold_undo_insert (l : list (object_id * V)) (m bm : gmap object_id V) :
  NoDup l.*1 → no_clash bm → m ⊆ bm →
  (∀ k v, (k, v) ∈ l → m !! k = None ∧ bm !! k = Some v) →
  res_fold undo_insert l m = Ok (list_to_map l ∪ m).
Proof.
  intros Hnd Hbase. revert m Hnd. induction l as [|[k v] l IH]; intros m Hnd Hsub Hin; cbn [res_fold].
  - rewrite list_to_map_nil. by rewrite (left_id_L ∅ (∪)).
  - rewrite fmap_cons in Hnd. apply NoDup_cons in Hnd as [Hk Hnd].
    destruct (Hin k v) as [Hfree Hb]; [left|].
    assert (undo_insert (k, v) m = Ok (<[k:=v]> m)) as ->.
    { unfold undo_insert; simpl. rewrite bool_decide_true by done.
      by rewrite (fits_sub _ _ _ _ Hsub (Hbase _ _ Hb)). }
    simpl. rewrite IH.
    + f_equal. rewrite <- insert_union_l. rewrite insert_union_r; [done|].
      by apply not_elem_of_list_to_map_1.
    + done.
    + by apply insert_subseteq_l.
    + intros k' v' Hl. rewrite lookup_insert_ne; [eapply Hin; by right|].
      intros ->. apply Hk. apply list_elem_of_fmap. by exists (k', v').
Qed.

Lemma res_fold_undo_remove (l : list object_id) (m : gmap object_id V) :
  NoDup l → (∀ k, k ∈ l → is_Some (m !! k)) →
  ∃ m', res_fold undo_remove l m = Ok m' ∧
    ∀ k, m' !! k = if decide (k ∈ l) then None else m !! k.
Proof.
  revert m. induction l as [|k l IH]; intros m Hnd Hin; cbn [res_fold].
  - exists m. split; [done|]. intros. case_decide; [set_solver | done].
  - apply NoDup_cons in Hnd as [Hk Hnd]. destruct (Hin k) as [x Hx]; [left|].
    assert (undo_remove k m = Ok (delete k m)) as -> by (unfold undo_remove; by rewrite Hx).
    simpl.
    destruct (IH (delete k m)) as (m' & -> & Hm'); [done| |].
    { intros k' Hk'. rewrite lookup_delete_ne by congruence. apply Hin. by right. }
    exists m'. split; [done|]. intros k'. rewrite Hm'.
    destruct (decide (k' = k)) as [->|].
    + rewrite lookup_delete_eq. repeat case_decide; set_solver.
    + rewrite lookup_delete_ne by congruence. repeat case_decide; set_solver.
Qed.

Lemma revert_correct s cur base :
  world_wf cur → world_wf base → reverts s cur base → revert s cur = Ok base.
Proof.
  intros [_ Hcur] [_ Hbase] [Hobj Hnext _]. unfold revert.
  rewrite res_fold_undo_modify; [|apply NoDup_fst_map_to_list|done|].
  2:{ intros k v Hkv%elem_of_map_to_list. specialize (Hobj k). rewrite Hkv in Hobj.
      inversion Hobj; eauto. }
  rewrite list_to_map_to_list. simpl.
  destruct (res_fold_undo_remove (elements (new_ids s)) (old_values s ∪ objects cur))
    as (m2 & -> & Hm2); [apply NoDup_elements| |].
  { intros k Hk%elem_of_elements. specialize (Hobj k).
    rewrite bool_decide_true in Hobj by done. rewrite lookup_union_is_Some.
    inversion Hobj; eauto. }
  simpl. rewrite (res_fold_undo_insert _ _ (objects base)); [|apply NoDup_fst_map_to_list|done| |].
  2:{ apply map_subseteq_spec. intros k x. rewrite Hm2. case_decide as Hk; [done|].
      rewrite elem_of_elements in Hk. specialize (Hobj k). rewrite bool_decide_false in Hobj by done.
      rewrite lookup_union. inversion Hobj; rewrite ?(left_id_L None (∪)); done. }
  2:{ intros k v Hkv%elem_of_map_to_list. rewrite Hm2. specialize (Hobj k). rewrite Hkv in Hobj.
      split; [|by inversion Hobj]. destruct (decide (k ∈ elements (new_ids s))); [done|]. rewrite lookup_union. by inversion Hobj. }
  rewrite list_to_map_to_list. simpl. f_equal. apply world_ext; simpl.
  - intros id. rewrite lookup_union, Hm2. specialize (Hobj id). rewrite lookup_union.
    destruct (decide (id ∈ new_ids s)) as [Hin|Hin].
    + rewrite decide_True by (by apply elem_of_elements).
      rewrite bool_decide_true in Hobj by done. inversion Hobj; done.
    + rewrite decide_False by (by rewrite elem_of_elements).
      rewrite bool_decide_false in Hobj by done.
      inversion Hobj; simpl; try done; by rewrite !(left_id_L None (∪)).
  - intros t. rewrite lookup_union. specialize (Hnext t).
    inversion Hnext; simpl; [done|by rewrite (left_id_L None (∪))].
Qed.

(** *** An erased object cannot be restored *)





(** *** Merging composes *)

Lemma merge_upd_fold prev (m : gmap object_id V) :
  let p := map_fold merge_upd prev m in
  new_ids p = new_ids prev ∧ removed p = removed prev ∧
  old_index_next_ids p = old_index_next_ids prev ∧
  ∀ id, old_values p !! id =
    match old_values prev !! id with
    | Some x => Some x
    | None => if decide (id ∈ new_ids prev) then None else m !! id
    end.
Proof.
  simpl. induction m as [|k v m Hk Hfold IH] using map_first_key_ind.
  - rewrite map_fold_empty. split_and!; try done. intros id. rewrite lookup_empty.
    repeat case_match; done.
  - rewrite map_fold_insert_first_key by done.
    set (p := map_fold merge_upd prev m) in *. clearbody p.
    destruct IH as (Hn & Hr & Hi & Ho). unfold merge_upd.
    rewrite Hn, Ho, Hk. case_decide.
    + split_and!; try done. intros id. rewrite Ho.
      destruct (decide (id = k)) as [->|]; simplify_map_eq; [|done].
      repeat case_match; done.
    + destruct (old_values prev !! k) as [x|] eqn:E.
      * split_and!; try done. intros id. rewrite Ho.
        destruct (decide (id = k)) as [->|]; simplify_map_eq; done.
      * simpl. split_and!; try done. intros id.
        destruct (decide (id = k)) as [->|]; simplify_map_eq; [done|apply Ho].
Qed.

Lemma merge_del_fold prev (m : gmap object_id V) :
  let p := map_fold merge_del prev m in
  old_index_next_ids p = old_index_next_ids prev ∧
  ∀ id, match m !! id with
    | None => (id ∈ new_ids p ↔ id ∈ new_ids prev) ∧
        old_values p !! id = old_values prev !! id ∧ removed p !! id = removed prev !! id
    | Some y => id ∉ new_ids p ∧
        if decide (id ∈ new_ids prev)
        then old_values p !! id = old_values prev !! id ∧ removed p !! id = removed prev !! id
        else old_values p !! id = None ∧
             removed p !! id = Some (default y (old_values prev !! id))
    end.
Proof.
  simpl. induction m as [|k v m Hk Hfold IH] using map_first_key_ind.
  - rewrite map_fold_empty. split; [done|]. intros id. by rewrite lookup_empty.
  - rewrite map_fold_insert_first_key by done.
    set (p := map_fold merge_del prev m) in *. clearbody p. destruct IH as (Hi & Hall).
    pose proof (Hall k) as Hkk. rewrite Hk in Hkk. destruct Hkk as (Hkn & Hko & Hkr).
    unfold merge_del. split; [by repeat case_match|].
    intros id. destruct (decide (id = k)) as [->|Hne].
    + rewrite lookup_insert_eq.
      destruct (decide (k ∈ new_ids p)), (decide (k ∈ new_ids prev)); try tauto; simpl;
        [split; [set_solver|done]|].
      rewrite Hko. destruct (old_values prev !! k) as [x|] eqn:E; simpl.
      * split; [set_solver|]. by rewrite lookup_delete_eq, lookup_insert_eq.
      * split; [set_solver|]. rewrite lookup_insert_eq, Hko. done.
    + rewrite lookup_insert_ne by congruence. specialize (Hall id).
      repeat case_match; simpl in *;
        rewrite ?lookup_insert_ne, ?lookup_delete_ne by congruence; try done;
        set_solver.
Qed.

Lemma next_rel_trans o1 o2 c m b :
  next_rel o2 c m → next_rel o1 m b → next_rel (o1 ∪ o2) c b.
Proof.
  intros H1 H2. inversion H1; subst; inversion H2; subst; simpl; constructor; lia.
Qed.

(** [rel_compose H1 H2] composes the cases of two [obj_rel]s over the same object. *)
Local Ltac rel_compose H1 H2 :=
  revert H1 H2;
  repeat match goal with |- context [?m !! ?k] => generalize (m !! k); intros ? end;
  intros H1 H2; inversion H1; inversion H2; simplify_eq/=;
  repeat case_decide; first [done | constructor; first [done | by etrans]].

(** The merged state records the composition of the two: the 4x4 table of the source. *)
Lemma merge_state_reverts prev state cur mid base :
  world_wf base → reverts state cur mid → reverts prev mid base →
  reverts (merge_state prev state) cur base.
Proof.
  intros Hwf [Hobj1 Hnext1 Hfresh1] [Hobj2 Hnext2 Hfresh2]. unfold merge_state.
  pose proof (merge_upd_fold prev (old_values state)) as Hu. simpl in Hu.
  set (p1 := map_fold merge_upd prev (old_values state)) in *. clearbody p1.
  destruct Hu as (Hn & Hr & Hi & Ho).
  set (p3 := UndoState _ _ _ _).
  pose proof (merge_del_fold p3 (removed state)) as Hd. simpl in Hd.
  set (p4 := map_fold merge_del p3 (removed state)) in *. clearbody p4.
  destruct Hd as (Hi4 & Hall). subst p3; simpl in *.
  assert (∀ t i, (t, i) ∈ new_ids state → objects base !! (t, i) = None) as Hnb.
  { intros t i (n & Hm & Hle)%Hfresh1. destruct (objects base !! (t, i)) eqn:E; [|done].
    destruct (wf_ids _ Hwf _ _ _ E) as (n0 & Hb & Hlt). specialize (Hnext2 t).
    rewrite Hm, Hb in Hnext2. inversion Hnext2; simplify_eq; lia. }
  split.
  - intros [t i]. specialize (Hobj1 (t, i)). specialize (Hobj2 (t, i)).
    specialize (Hall (t, i)). rewrite Ho, Hn, Hr in Hall. specialize (Hnb t i).
    destruct (removed state !! (t, i)) as [y|] eqn:Ey.
    + destruct Hall as [Hnot Hall]. rewrite (bool_decide_false (_ ∈ new_ids p4)) by done.
      destruct (decide ((t, i) ∈ new_ids state)).
      { rewrite bool_decide_true in Hobj1 by done. inversion Hobj1. }
      destruct (decide ((t, i) ∈ new_ids prev)) as [Hp|Hp].
      * rewrite decide_True in Hall by set_solver.
        rewrite bool_decide_true in Hobj2 by done.
        rewrite bool_decide_false in Hobj1 by done. destruct Hall as [-> ->]. rel_compose Hobj1 Hobj2.
      * rewrite decide_False in Hall by set_solver. destruct Hall as [-> ->].
        rewrite bool_decide_false in Hobj1, Hobj2 by done.
        rel_compose Hobj1 Hobj2.
    + destruct Hall as (Hnew & -> & ->).
      destruct (decide ((t, i) ∈ new_ids state)) as [Hs|Hs].
      * rewrite bool_decide_true by set_solver. rewrite bool_decide_true in Hobj1 by done.
        specialize (Hnb Hs). revert Hnb. clear Hs Hnew.
        destruct (bool_decide ((t, i) ∈ new_ids prev)); intros Hnb; rewrite Hnb in Hobj2 |- *;
          rel_compose Hobj1 Hobj2.
      * rewrite (bool_decide_ext _ ((t, i) ∈ new_ids prev)) by set_solver.
        rewrite (bool_decide_false (_ ∈ new_ids state)) in Hobj1 by done.
        destruct (decide ((t, i) ∈ new_ids prev)) as [Hp|Hp];
          [rewrite bool_decide_true in Hobj2 |- * by done
          |rewrite bool_decide_false in Hobj2 |- * by done];
          rel_compose Hobj1 Hobj2.
  - intros t. rewrite Hi4, Hi, lookup_union. eapply next_rel_trans; [apply Hnext1|apply Hnext2].
  - intros t i Hin. specialize (Hall (t, i)). rewrite Hn in Hall.
    destruct (removed state !! (t, i)) as [y|]; [tauto|].
    destruct Hall as [Hall _]. apply Hall in Hin as [Hin|Hin]%elem_of_union; [by apply Hfresh2|].
    apply Hfresh1 in Hin as (n & Hm & Hle). specialize (Hnext2 t). rewrite Hm in Hnext2.
    inversion Hnext2; subst; eauto with lia.
Qed.
End meaning.

(** ** Refinement: a stack of snapshots

    The abstract specification keeps, for every open or committed session, the whole world
    as it was when the session started. *)
Section snapshots.
Context {V : Type} {keys : UniqueKeys V}.
Implicit Types (w cur b : world V) (snaps : list (world V)) (o : object_database V).

Inductive stack_repr : list (undo_state V) → world V → list (world V) → Prop :=
  | sr_nil cur : stack_repr [] cur []
  | sr_cons s st cur b snaps :
      reverts s cur b → world_wf b → stack_repr st b snaps →
      stack_repr (s :: st) cur (b :: snaps).

(** [represents o cur snaps n]: recording is enabled, [n] sessions are active, and the
    database holds [cur] above the snapshots [snaps]. *)
Record represents o cur snaps (n : Z) : Prop := {
  repr_db : db o = cur;
  repr_wf : world_wf cur;
  repr_enabled : disabled (undo_db o) = false;
  repr_active : active_sessions (undo_db o) = n;
  repr_stack : stack_repr (stack (undo_db o)) cur snaps }.

(** The elementary mutations, whatever they return. *)
Inductive mutation :=
  | MCreate (t : index_key) (v : V)
  | MModify (id : object_id) (m : V → V * option fc_exception)
  | MRemove (id : object_id).

Definition exec (m : mutation) o : object_database V :=
  match m with
  | MCreate t v => (create t v o).1
  | MModify id f => (modify id f o).1
  | MRemove id => (remove id o).1
  end.

(** A modification changes no unique key that another object could hold. *)
Definition keeps_keys (m : mutation) o : Prop :=
  match m with
  | MModify id f => ∀ v, objects (db o) !! id = Some v → similar id v (f v).1
  | _ => True
  end.

(** What evaluation code can do to the database between two points: any sequence of
    mutations, with modifications that keep the unique keys, and of nested scopes, each
    abandoned (undone) or merged. *)
Inductive mutates : object_database V → object_database V → Prop :=
  | mut_refl o : mutates o o
  | mut_exec o o' m : mutates o o' → keeps_keys m o' → mutates o (exec m o')
  | mut_abandon o o1 u ses o2 o3 :
      mutates o o1 →
      start_undo_session true (reserve_state (undo_db o1)) = (u, ses) →
      mutates (ObjectDatabase (db o1) u) o2 →
      destroy_session ses o2 = Some o3 → mutates o o3
  | mut_merge o o1 u ses o2 o3 ses' o4 :
      mutates o o1 →
      start_undo_session true (reserve_state (undo_db o1)) = (u, ses) →
      mutates (ObjectDatabase (db o1) u) o2 →
      session_merge ses o2 = Ok (o3, ses') → destroy_session ses' o3 = Some o4 →
      mutates o o4.

Lemma stack_repr_take k st cur snaps :
  stack_repr st cur snaps → stack_repr (take k st) cur (take k snaps).
Proof. intros H. revert k. induction H; intros [|k]; simpl; econstructor; eauto. Qed.

Lemma stack_repr_length st cur snaps : stack_repr st cur snaps → length st = length snaps.
Proof. induction 1; simpl; auto. Qed.

Lemma world_wf_create w t n v :
  world_wf w → next_ids w !! t = Some n → fits (t, n) v (objects w) = true →
  world_wf (World (<[(t, n) := v]> (objects w)) (<[t := n + 1]> (next_ids w))).
Proof.
  intros [Hwf Hkeys] Hn Hfit. split; [|by apply no_clash_insert].
  intros t' i v' Hl. simpl in *. destruct (decide ((t, n) = (t', i))) as [E|Hne].
  - injection E as <- <-. rewrite lookup_insert_eq. eauto with lia.
  - rewrite lookup_insert_ne in Hl by done. apply Hwf in Hl as (m & Hm & Hlt).
    destruct (decide (t = t')) as [<-|].
    + rewrite lookup_insert_eq. simplify_eq. eauto with lia.
    + rewrite lookup_insert_ne by done. eauto.
Qed.

Lemma world_wf_modify w id v v' :
  world_wf w → objects w !! id = Some v → fits id v' (objects w) = true →
  world_wf (World (<[id := v']> (objects w)) (next_ids w)).
Proof.
  intros [Hwf Hkeys] Hv Hfit. split; [|by apply no_clash_insert].
  intros t i x Hl. simpl in *. apply lookup_insert_Some in Hl as [[-> _]|[_ Hl]]; eauto.
Qed.

Lemma world_wf_remove w id : world_wf w → world_wf (World (delete id (objects w)) (next_ids w)).
Proof.
  intros [Hwf Hkeys]. split; [|eapply no_clash_sub; [apply delete_subseteq|done]].
  intros t i x Hl. simpl in *. apply lookup_delete_Some in Hl as [_ Hl]; eauto.
Qed.

(** An elementary mutation inside a session changes only the current world. *)
Lemma exec_represents m o cur b snaps n :
  represents o cur (b :: snaps) n → keeps_keys m o →
  ∃ cur', represents (exec m o) cur' (b :: snaps) n ∧
    max_size (undo_db (exec m o)) = max_size (undo_db o).
Proof.
  intros [Hdb Hwf Hen Hn Hst] Hk. destruct o as [w u]; simpl in *. subst w.
  inversion Hst as [|s st ? ? ? Hrev Hwfb Hst' Hs]; subst.
  assert (represents (ObjectDatabase cur u) cur (b :: snaps) (active_sessions u)) as Hsame
    by (split; simpl; try done; by rewrite <- Hs).
  destruct m as [t v|id f|id]; simpl in *.
  - unfold create; simpl. destruct (next_ids cur !! t) as [k|] eqn:Ek; [|by exists cur].
    case_bool_decide as Eo; [|by exists cur]. simpl.
    destruct (fits (t, k) v (objects cur)) eqn:Ef; [|by exists cur].
    eexists. unfold on_create, on_top. rewrite Hen, <- Hs.
    split_and?; try split; simpl; try done; [..|constructor; [by apply reverts_create|done|done]];
      by apply world_wf_create.
  - unfold modify; simpl. destruct (objects cur !! id) as [v|] eqn:Eo; [|by exists cur].
    specialize (Hk v eq_refl).
    assert (fits id (f v).1 (objects cur) = true) as Hf
      by (eapply fits_similar; [done|by apply (wf_keys _ Hwf)]).
    unfold index_modify. rewrite Hf. simpl.
    eexists. unfold on_modify, on_top. rewrite Hen, <- Hs.
    split_and?; try split; simpl; try done; [..|constructor; [by apply reverts_modify|done|done]];
      by eapply (world_wf_modify cur).
  - unfold remove; simpl. destruct (objects cur !! id) as [v|] eqn:Eo; [|by exists cur]. simpl.
    eexists. unfold on_remove, on_top. rewrite Hen, <- Hs.
    split_and?; try split; simpl; try done; [..|constructor; [by apply reverts_remove|done|done]];
      by apply (world_wf_remove cur).
Qed.

Lemma start_represents f o cur snaps n u ses :
  represents o cur snaps n → start_undo_session f (undo_db o) = (u, ses) →
  represents (ObjectDatabase (db o) u) cur (cur :: take (max_size (undo_db o)) snaps) (n + 1)
  ∧ max_size u = max_size (undo_db o) ∧ ses = Session true false.
Proof.
  intros [Hdb Hwf Hen Hn Hst] E. unfold start_undo_session in E. rewrite Hen in E.
  simpl in E. injection E as <- <-. split_and?; try split; simpl; try done; [by destruct f|by subst|].
  constructor; [apply reverts_refl|done|by apply stack_repr_take].
Qed.

Lemma undo_represents o cur b snaps n :
  represents o cur (b :: snaps) n → 0 < n →
  ∃ o', undo o = Ok o' ∧ represents o' b snaps (n - 1)
    ∧ max_size (undo_db o') = max_size (undo_db o).
Proof.
  intros [Hdb Hwf Hen Hn Hst] Hpos.
  inversion Hst as [|s st ? ? ? Hrev Hwfb Hst' Hs]; subst. unfold undo. rewrite Hen. simpl.
  destruct (Z.ltb_spec 0 (active_sessions (undo_db o))); [|lia]. simpl.
  rewrite <- Hs, (revert_correct _ _ _ Hwf Hwfb Hrev). simpl. eexists; split; [done|].
  split_and?; try split; simpl; done.
Qed.

Lemma destroy_represents o cur b snaps n :
  represents o cur (b :: snaps) n → 0 < n →
  ∃ o', destroy_session (Session true false) o = Some o' ∧ represents o' b snaps (n - 1)
    ∧ max_size (undo_db o') = max_size (undo_db o).
Proof.
  intros Hr Hpos. destruct (undo_represents _ _ _ _ _ Hr Hpos) as (o' & E & Hr').
  unfold destroy_session. simpl. rewrite E. simpl. eauto.
Qed.

Lemma merge_represents o cur b1 b2 snaps n :
  represents o cur (b1 :: b2 :: snaps) n → 0 < n →
  ∃ o', session_merge (Session true false) o = Ok (o', Session false false)
    ∧ represents o' cur (b2 :: snaps) (n - 1) ∧ max_size (undo_db o') = max_size (undo_db o).
Proof.
  intros [Hdb Hwf Hen Hn Hst] Hpos.
  inversion Hst as [|s st ? ? ? Hrev Hwfb Hst' Hs]; subst.
  inversion Hst' as [|s2 st2 ? ? ? Hrev2 Hwfb2 Hst2 Hs2]; subst.
  unfold session_merge, merge; simpl.
  destruct (Z.ltb_spec 0 (active_sessions (undo_db o))); [|lia].
  simpl. rewrite <- Hs. simpl. rewrite andb_false_r. simpl. eexists; split; [done|].
  split_and?; try split; simpl; try done. constructor; [by eapply merge_state_reverts|done|done].
Qed.

Lemma reserve_represents o cur snaps n :
  represents o cur snaps n →
  represents (ObjectDatabase (db o) (reserve_state (undo_db o))) cur snaps n
  ∧ (length snaps < max_size (reserve_state (undo_db o)))%nat
  ∧ (max_size (undo_db o) ≤ max_size (reserve_state (undo_db o)))%nat.
Proof.
  intros [Hdb Hwf Hen Hn Hst]. pose proof (stack_repr_length _ _ _ Hst) as Hlen.
  unfold reserve_state. destruct (Nat.leb_spec (max_size (undo_db o)) (length (stack (undo_db o))));
    split_and?; try split; simpl; try done; lia.
Qed.

(** Everything evaluation code does inside a session leaves the snapshots alone. *)
Lemma mutates_represents o o' :
  mutates o o' → ∀ cur b snaps n, represents o cur (b :: snaps) n → 0 < n →
  ∃ cur', represents o' cur' (b :: snaps) n
    ∧ (max_size (undo_db o) ≤ max_size (undo_db o'))%nat.
Proof.
  induction 1 as [o | o o' m _ IH Hk | o o1 u ses o2 o3 _ IH1 Hstart _ IH2 Hd
                 | o o1 u ses o2 o3 ses' o4 _ IH1 Hstart _ IH2 Hm Hd];
    intros cur b snaps n Hr Hpos.
  - eauto.
  - destruct (IH _ _ _ _ Hr Hpos) as (c1 & Hr1 & ?).
    destruct (exec_represents m _ _ _ _ _ Hr1 Hk) as (c2 & Hr2 & ->). eauto.
  - destruct (IH1 _ _ _ _ Hr Hpos) as (c1 & Hr1 & Hle1).
    destruct (reserve_represents _ _ _ _ Hr1) as (Hr1' & Hlen & Hle2).
    destruct (start_represents true _ _ _ _ _ _ Hr1' Hstart) as (Hrs & Hm & ->).
    simpl in *. rewrite take_ge in Hrs by (simpl; lia).
    destruct (IH2 _ _ _ _ Hrs ltac:(lia)) as (c2 & Hr2 & Hle3).
    destruct (destroy_represents _ _ _ _ _ Hr2 ltac:(lia)) as (o' & E & Hr3 & Hm3).
    simplify_eq. simpl in *. exists c1. replace n with (n + 1 - 1) by lia.
    split; [done|lia].
  - destruct (IH1 _ _ _ _ Hr Hpos) as (c1 & Hr1 & Hle1).
    destruct (reserve_represents _ _ _ _ Hr1) as (Hr1' & Hlen & Hle2).
    destruct (start_represents true _ _ _ _ _ _ Hr1' Hstart) as (Hrs & Hmx & ->).
    simpl in *. rewrite take_ge in Hrs by (simpl; lia).
    destruct (IH2 _ _ _ _ Hrs ltac:(lia)) as (c2 & Hr2 & Hle3).
    destruct (merge_represents _ _ _ _ _ _ Hr2 ltac:(lia)) as (o' & E & Hr3 & Hm3).
    rewrite E in Hm. injection Hm as <- <-. simpl in Hd. injection Hd as <-.
    simpl in *. exists c2. replace n with (n + 1 - 1) by lia. split; [done|lia].
Qed.

Lemma pop_represents o cur b snaps :
  represents o cur (b :: snaps) 0 →
  ∃ o', pop_commit o = Ok o' ∧ represents o' b snaps 0
    ∧ max_size (undo_db o') = max_size (undo_db o).
Proof.
  intros [Hdb Hwf Hen Hn Hst].
  inversion Hst as [|s st ? ? ? Hrev Hwfb Hst' Hs]; subst. unfold pop_commit. rewrite Hn. simpl.
  rewrite <- Hs, (revert_correct _ _ _ Hwf Hwfb Hrev). simpl. eexists; split; [done|].
  split_and?; try split; simpl; done.
Qed.

(** *** Transactions, blocks and nested operations are atomic *)
Section atomicity.
Context {A : Type}.
Implicit Types (work : object_database V → object_database V * result A)
  (c : pending_database V A).

(** Evaluation code reaches the database only through mutations and nested scopes. *)
Definition evaluates work : Prop := ∀ o, mutates o (work o).1.

(** The pending state sits above the state [head] of the head block. *)
Record pending_inv c (head : world V) : Prop := {
  pinv_room : (1 ≤ max_size (undo_db (odb c)))%nat;
  pinv_session :
    match pending_tx_session c with
    | None => ∃ snaps, represents (odb c) head snaps 0
    | Some p => p = Session true false ∧ ∃ cur snaps, represents (odb c) cur (head :: snaps) 1
    end }.

(** The state in which the temporary session of a transaction runs. *)
Lemma pending_start c head :
  pending_inv c head →
  ∃ o0 snaps u,
    match pending_tx_session c with
    | Some p => (odb c, p)
    | None => let '(u, p) := start_undo_session false (undo_db (odb c)) in
              (ObjectDatabase (db (odb c)) u, p)
    end = (o0, Session true false) ∧
    db o0 = db (odb c) ∧
    start_undo_session false (undo_db o0) = (u, Session true false) ∧
    (1 ≤ max_size u)%nat ∧
    represents (ObjectDatabase (db o0) u) (db (odb c)) (db (odb c) :: head :: snaps) 2.
Proof.
  intros [Hroom Hses]. destruct (pending_tx_session c) as [p|].
  - destruct Hses as (-> & cur & snaps & Hr). exists (odb c).
    destruct (start_undo_session false (undo_db (odb c))) as [u ses] eqn:E.
    destruct (start_represents _ _ _ _ _ _ _ Hr E) as (Hr' & Hm & ->).
    destruct (max_size (undo_db (odb c))) as [|k] eqn:Ek; [lia|]. simpl in Hr'.
    rewrite <- (repr_db _ _ _ _ Hr) in Hr'.
    eexists _, u. split_and!; try done. lia.
  - destruct Hses as (snaps & Hr).
    destruct (start_undo_session false (undo_db (odb c))) as [u ses] eqn:E.
    destruct (start_represents _ _ _ _ _ _ _ Hr E) as (Hr' & Hm & ->).
    destruct (start_undo_session false u) as [u2 ses2] eqn:E2.
    destruct (start_represents false _ _ _ _ u2 ses2 Hr' E2) as (Hr2 & Hm2 & ->).
    simpl in *. rewrite Hm in *. destruct (max_size (undo_db (odb c))) as [|k] eqn:Ek; [lia|].
    simpl in Hr2. rewrite <- (repr_db _ _ _ _ Hr) in Hr2 at 2 3.
    eexists _, _, u2. split_and!; try done; [lia|].
    by rewrite (repr_db _ _ _ _ Hr) in Hr2 |- *.
Qed.

Definition push_post work c c' (r : result A) : Prop :=
  match r with
  | Err _ => db (odb c') = db (odb c) ∧ pending_tx c' = pending_tx c
  | Ok a => pending_tx c' = pending_tx c ++ [a] ∧
      ∃ o1, db o1 = db (odb c) ∧ (work o1).2 = Ok a ∧ db (odb c') = db (work o1).1
  end.

Lemma push_transaction_correct work c head :
  evaluates work → pending_inv c head →
  ∃ c' r, push_transaction work c = Some (c', r) ∧ pending_inv c' head ∧ push_post work c c' r.
Proof.
  intros Hwork Hinv. destruct (pending_start c head Hinv) as (o0 & snaps & u & E0 & Hdb & Es & Hm & Hr).
  unfold push_transaction. rewrite E0, Es.
  set (o1 := ObjectDatabase (db o0) u) in *.
  destruct (mutates_represents _ _ (Hwork o1) _ _ _ _ Hr ltac:(lia)) as (cur & Hr1 & Hle).
  destruct (work o1) as [o2 r] eqn:Ew. simpl in Hr1, Hle.
  destruct r as [a|e].
  - destruct (merge_represents _ _ _ _ _ _ Hr1 ltac:(lia)) as (o3 & -> & Hr3 & Hm3). simpl.
    eexists _, (Ok a). split; [done|]. split.
    + split; simpl; [lia|]. eauto.
    + simpl. split; [done|]. exists o1. rewrite Ew. simpl. split_and!; [done|done|].
      by rewrite (repr_db _ _ _ _ Hr3), (repr_db _ _ _ _ Hr1).
  - destruct (destroy_represents _ _ _ _ _ Hr1 ltac:(lia)) as (o3 & -> & Hr3 & Hm3). simpl.
    eexists _, (Err e). split; [done|]. split.
    + split; simpl; [lia|]. eauto.
    + simpl. by rewrite (repr_db _ _ _ _ Hr3).
Qed.

Lemma reset_pending_correct c head :
  pending_inv c head →
  ∃ c' snaps, reset_pending_session c = Some c' ∧ pending_tx_session c' = None ∧
    pending_tx c' = pending_tx c ∧ represents (odb c') head snaps 0.
Proof.
  intros [_ Hses]. unfold reset_pending_session. destruct (pending_tx_session c) as [p|] eqn:E.
  - destruct Hses as (-> & cur & snaps & Hr).
    destruct (destroy_represents _ _ _ _ _ Hr ltac:(lia)) as (o' & -> & Hr' & _). simpl.
    eexists _, _. split_and!; done.
  - destruct Hses as (snaps & Hr). eexists _, _. split_and!; done.
Qed.

(** Pushing a list of transactions in order; [None] if the process terminates. *)
Fixpoint push_all (works : list (object_database V → object_database V * result A)) c
    : option (pending_database V A) :=
  match works with
  | [] => Some c
  | work :: rest => '(c', _) ← push_transaction work c; push_all rest c'
  end.

Lemma push_all_correct works c head :
  Forall evaluates works → pending_inv c head →
  ∃ c', push_all works c = Some c' ∧ pending_inv c' head.
Proof.
  intros Hall. revert c. induction Hall as [|work works Hw _ IH]; intros c Hinv; simpl; [eauto|].
  destruct (push_transaction_correct work c head Hw Hinv) as (c' & r & -> & Hinv' & _).
  apply IH, Hinv'.
Qed.

(** C13: [_push_transaction] is atomic. Whatever a transaction's evaluation does to the object
    database through the modelled primitives (creating objects, which fails on a violated unique
    index, modifying and removing objects, throwing halfway, nested proposal or virtual-operation
    scopes), provided its modifications change no unique key that another object could hold, and
    provided the pending session sits above the head block's state with room in the undo history
    ([pending_inv]): pushing it never terminates the process; if it throws, the database holds
    exactly the objects and id counters it held before and the pending list is unchanged; if it
    succeeds, the database holds what the evaluation left and the transaction is appended to the
    pending list. [colliding_modify_terminates] shows that the condition on modifications is needed.
    *)
Theorem push_transaction_atomic work c head :
  evaluates work → pending_inv c head →
  ∃ c' r, push_transaction work c = Some (c', r) ∧ pending_inv c' head ∧
    match r with
    | Err _ => db (odb c') = db (odb c) ∧ pending_tx c' = pending_tx c
    | Ok a => pending_tx c' = pending_tx c ++ [a] ∧
        ∃ o1, db o1 = db (odb c) ∧ (work o1).2 = Ok a ∧ db (odb c') = db (work o1).1
    end.
Proof. apply push_transaction_correct. Qed.

(** C17: the pending state can always be thrown away. After any sequence of pushed transactions,
    successful or not, whose evaluations change no unique key that another object could hold when
    they modify an object, starting from a pending state above the head block with room in the undo
    history ([pending_inv]), [clear_pending] succeeds and the object database is exactly the head
    block's again, objects and id counters, with no session left open. *)
Theorem clear_pending_restores_head works c head :
  Forall evaluates works → pending_inv c head →
  ∃ c1 c2, push_all works c = Some c1 ∧ clear_pending c1 = Some c2 ∧
    db (odb c2) = head ∧ pending_tx c2 = [] ∧ pending_tx_session c2 = None ∧
    active_sessions (undo_db (odb c2)) = 0.
Proof.
  intros Hall Hinv. destruct (push_all_correct _ _ _ Hall Hinv) as (c1 & E & [Hroom Hses]).
  destruct (reset_pending_correct (PendingDatabase (odb c1) (pending_tx_session c1) []) head)
    as (c2 & snaps & E2 & Hs & Ht & Hr); [by split|].
  exists c1, c2. destruct Hr. done.
Qed.





(** Applying a block also resizes the history ([_undo_db.set_max_size]), once, somewhere in
    between. *)
Definition resize (k : nat) o : object_database V :=
  ObjectDatabase (db o)
    (UndoDatabase (active_sessions (undo_db o)) (disabled (undo_db o)) (stack (undo_db o)) k).

Definition applies work : Prop := ∀ o, ∃ o1,
  mutates o o1 ∧ ((work o).1 = o1 ∨ ∃ k, mutates (resize k o1) (work o).1).

Lemma evaluates_applies work : evaluates work → applies work.
Proof. intros Hw o. exists (work o).1. eauto. Qed.

Lemma resize_represents k o cur snaps n : represents o cur snaps n → represents (resize k o) cur snaps n.
Proof. intros []. by split. Qed.

Lemma applies_represents work o cur b snaps n :
  applies work → represents o cur (b :: snaps) n → 0 < n →
  ∃ cur', represents (work o).1 cur' (b :: snaps) n.
Proof.
  intros Hw Hr Hn. destruct (Hw o) as (o1 & H1 & H2).
  destruct (mutates_represents _ _ H1 _ _ _ _ Hr Hn) as (c1 & Hr1 & _).
  destruct H2 as [->|[k H2]]; [by eauto|].
  destruct (mutates_represents _ _ H2 _ _ _ _ (resize_represents k _ _ _ _ Hr1) Hn) as (c2 & Hr2 & _).
  eauto.
Qed.

(** The state in which a block is applied. *)
Definition session_start o : object_database V :=
  ObjectDatabase (db o) (start_undo_session false (undo_db o)).1.

Lemma push_block_represents work o cur snaps :
  applies work → represents o cur snaps 0 →
  ∃ o' r, push_block_session work o = Some (o', r) ∧ r = (work (session_start o)).2 ∧
    max_size (undo_db o') = max_size (undo_db (work (session_start o)).1) ∧
    match r with
    | Err _ => represents o' cur (take (max_size (undo_db o)) snaps) 0
    | Ok _ => represents o' (db (work (session_start o)).1) (cur :: take (max_size (undo_db o)) snaps) 0
    end.
Proof.
  intros Hwork Hr0. unfold push_block_session, session_start.
  destruct (start_undo_session false (undo_db o)) as [u ses] eqn:Es.
  destruct (start_represents _ _ _ _ _ _ _ Hr0 Es) as (Hr & Hm & ->).
  destruct (applies_represents work _ _ _ _ _ Hwork Hr ltac:(lia)) as (cur1 & Hr1).
  cbn [fst snd].
  destruct (work (ObjectDatabase (db o) u)) as [o2 r]. cbn [fst snd] in *. destruct r as [a|e].
  - assert (Hc : session_commit (Session true false) o2 = (Session false false,
      Ok (ObjectDatabase (db o2) (UndoDatabase 0 (disabled (undo_db o2)) (stack (undo_db o2))
          (max_size (undo_db o2)))))).
    { unfold session_commit, commit. by rewrite (repr_active _ _ _ _ Hr1). }
    rewrite Hc. simpl. eexists _, (Ok a). split_and!; [done|done|done|].
    rewrite (repr_db _ _ _ _ Hr1). destruct Hr1. by split.
  - destruct (destroy_represents _ _ _ _ _ Hr1 ltac:(lia)) as (o3 & -> & Hr3 & Hm3). simpl.
    eexists _, (Err e). split_and!; done.
Qed.

(** A block can be popped.  Applying a block in its session either fails and leaves the
    objects and counters as they were, or commits, and then [pop_undo] restores exactly the
    state before the block; neither terminates the process. *)
Theorem push_block_then_pop work o cur snaps :
  applies work → represents o cur snaps 0 →
  ∃ o' r, push_block_session work o = Some (o', r) ∧
    active_sessions (undo_db o') = 0 ∧
    match r with
    | Err _ => db o' = db o
    | Ok _ => ∃ o'', pop_commit o' = Ok o'' ∧ db o'' = db o
    end.
Proof.
  intros Hwork Hr0. destruct (push_block_represents _ _ _ _ Hwork Hr0) as (o' & r & E & _ & _ & Hr).
  exists o', r. split; [done|]. rewrite (repr_db _ _ _ _ Hr0). destruct r as [a|e].
  - split; [apply Hr|]. destruct (pop_represents _ _ _ _ Hr) as (o4 & -> & Hr4 & _).
    exists o4. by rewrite (repr_db _ _ _ _ Hr4).
  - split; [apply Hr|]. apply Hr.
Qed.

(** A nested scope (a proposal or a virtual operation) is atomic too, at any nesting
    depth, and leaves the snapshots of the enclosing sessions as they were. *)
Theorem nested_scope_atomic depth witnesses work o cur b snaps n :
  evaluates work → represents o cur (b :: snaps) n → 0 < n →
  ∃ o' r, nested_scope depth witnesses work o = Some (o', r) ∧
    match r with
    | Err _ => represents o' cur (b :: snaps) n
    | Ok _ => ∃ cur', represents o' cur' (b :: snaps) n
    end.
Proof.
  intros Hwork Hr0 Hn. unfold nested_scope. destruct (depth <? witnesses * 2); [|by eauto].
  destruct (reserve_represents _ _ _ _ Hr0) as (Hr0' & Hlen & _). unfold merging_scope.
  set (o0 := ObjectDatabase _ _) in *.
  destruct (start_undo_session true (undo_db o0)) as [u ses] eqn:Es.
  destruct (start_represents _ _ _ _ _ _ _ Hr0' Es) as (Hr & _ & ->).
  rewrite take_ge in Hr by (subst o0; simpl in *; lia).
  destruct (mutates_represents _ _ (Hwork (ObjectDatabase (db o0) u)) _ _ _ _ Hr ltac:(lia))
    as (cur1 & Hr1 & _).
  destruct (work (ObjectDatabase (db o0) u)) as [o2 r]. simpl in Hr1.
  replace n with (n + 1 - 1) by lia. destruct r as [a|e].
  - destruct (merge_represents _ _ _ _ _ _ Hr1 ltac:(lia)) as (o3 & -> & Hr3 & _). simpl.
    eexists _, (Ok a). eauto.
  - destruct (destroy_represents _ _ _ _ _ Hr1 ltac:(lia)) as (o3 & -> & Hr3 & _). simpl.
    eexists _, (Err e). eauto.
Qed.
End atomicity.
End snapshots.

(** ** Concrete runs *)
Section witnesses.

(** Objects with a name, which is unique per object type, and a number. *)
#[local] Instance named_keys : UniqueKeys (Z * Z) := {
  unique_key := Z * Z;
  unique_keys := λ id v, {[ (id.1, v.1) ]} }.

Lemma named_similar (id : object_id) v v' : v.1 = v'.1 → similar id v v'.
Proof. intros E id' x _. simpl. by rewrite E. Qed.

(** A database with one index (type 1), holding two objects, and no session open. *)
Definition w_world : world (Z * Z) :=
  World {[ (1, 0) := (10, 7); (1, 1) := (11, 3) ]} {[ 1 := 2 ]}.
Definition w_odb : object_database (Z * Z) :=
  ObjectDatabase w_world (UndoDatabase 0 false [] 10).
Definition w_pending : pending_database (Z * Z) Z := PendingDatabase w_odb None [].

(** A transaction that creates an object, fails to create one of the same name, changes the
    number of an existing one, and then returns [r]. *)
Definition w_work (r : result Z) (o : object_database (Z * Z)) : object_database (Z * Z) * result Z :=
  (exec (MModify (1, 0) (λ v, ((v.1, v.2 + 1), None)))
     (exec (MCreate 1 (12, 6)) (exec (MCreate 1 (12, 5)) o)), r).


Lemma w_work_evaluates r : evaluates (w_work r).
Proof.
  intros o. apply mut_exec; [do 2 (apply mut_exec; [|done])|]; [apply mut_refl|].
  intros v _. by apply named_similar.
Qed.

Lemma w_world_wf : world_wf w_world.
Proof.
  split.
  - intros t i v Hl. simpl in Hl.
    apply lookup_insert_Some in Hl as [[E _]|[_ [E _]%lookup_singleton_Some]];
      injection E as <- <-; exists 2; (split; [apply lookup_singleton_eq|lia]).
  - apply map_Forall_insert; [by vm_compute|]. split; [by vm_compute|].
    apply map_Forall_singleton. by vm_compute.
Qed.

Lemma w_represents : represents w_odb w_world [] 0.
Proof. split; try done; [apply w_world_wf | constructor]. Qed.

Lemma w_pending_inv : pending_inv w_pending w_world.
Proof. split; simpl; [lia|]. exists []. apply w_represents. Qed.

Lemma w_session_represents :
  represents (ObjectDatabase w_world (start_undo_session false (undo_db w_odb)).1)
    w_world [w_world] 1.
Proof.
  split; try done; [apply w_world_wf|]. simpl.
  constructor; [apply reverts_refl | apply w_world_wf | constructor].
Qed.

Example push_transaction_atomic_witness :
  ∃ c' r, push_transaction (w_work (Err overflow_exception)) w_pending = Some (c', r) ∧
    pending_inv c' w_world ∧
    match r with
    | Err _ => db (odb c') = db (odb w_pending) ∧ pending_tx c' = pending_tx w_pending
    | Ok a => pending_tx c' = pending_tx w_pending ++ [a] ∧
        ∃ o1, db o1 = db (odb w_pending) ∧ (w_work (Err overflow_exception) o1).2 = Ok a ∧
              db (odb c') = db (w_work (Err overflow_exception) o1).1
    end.
Proof. exact (push_transaction_atomic _ _ _ (w_work_evaluates _) w_pending_inv). Defined.

Example clear_pending_restores_head_witness :
  ∃ c1 c2, push_all [w_work (Ok 1); w_work (Err overflow_exception); w_work (Ok 2)] w_pending
             = Some c1 ∧ clear_pending c1 = Some c2 ∧
    db (odb c2) = w_world ∧ pending_tx c2 = [] ∧ pending_tx_session c2 = None ∧
    active_sessions (undo_db (odb c2)) = 0.
Proof.
  apply clear_pending_restores_head; [|exact w_pending_inv].
  repeat (apply Forall_cons; split; [apply w_work_evaluates|]). apply Forall_nil_2.
Defined.

Example push_block_then_pop_witness :
  ∃ o' r, push_block_session (w_work (Ok 1)) w_odb = Some (o', r) ∧
    active_sessions (undo_db o') = 0 ∧
    match r with
    | Err _ => db o' = db w_odb
    | Ok _ => ∃ o'', pop_commit o' = Ok o'' ∧ db o'' = db w_odb
    end.
Proof. exact (push_block_then_pop _ _ _ _ (evaluates_applies _ (w_work_evaluates _)) w_represents). Defined.

Example nested_scope_atomic_witness :
  let o := ObjectDatabase w_world (start_undo_session false (undo_db w_odb)).1 in
  ∃ o' r, nested_scope 0 11 (w_work (Err overflow_exception)) o = Some (o', r) ∧
    match r with
    | Err _ => represents o' w_world [w_world] 1
    | Ok _ => ∃ cur', represents o' cur' [w_world] 1
    end.
Proof.
  exact (nested_scope_atomic 0 11 _ _ _ _ _ _ (w_work_evaluates _) w_session_represents
           ltac:(lia)).
Defined.


(** The computed outcome of a failing and of a succeeding transaction. *)
Example push_transaction_runs :
  (db ∘ odb ∘ fst <$> push_transaction (w_work (Err overflow_exception)) w_pending)
    = Some w_world ∧
  (objects ∘ db ∘ odb ∘ fst <$> push_transaction (w_work (Ok 1)) w_pending)
    = Some {[ (1, 0) := (10, 8); (1, 1) := (11, 3); (1, 2) := (12, 5) ]}.
Proof. split; vm_compute; reflexivity. Qed.
End witnesses.
