(* ===== verification/ForkDb.v ===== *)
(** * The fork database

    libraries/chain/fork_database.cpp: the recent blocks of all forks as a tree, and the head of
    the longest fork.  Blocks and their ids are those of libraries/protocol/block.cpp.

    Items are shared: the index and [_head] own them, an item refers to its predecessor by a
    [weak_ptr].  Items live at addresses ([items]); [alive] says whether a strong pointer to an
    address is left - in the index, in [_head], or among the pointers [held] by local variables
    of the caller -, and [lock] is [weak_ptr::lock()]. *)
From S2P Require Import Prelude.

(** A block id: the block number, stored in the first word in reversed byte order, and the rest
    of the hash. *)
Record block_id_type := BlockId { num_from_id : Z; id_hash : Z }.

#[global] Instance block_id_eq_dec : EqDecision block_id_type.
Proof. solve_decision. Defined.
#[global] Instance block_id_countable : Countable block_id_type :=
  inj_countable' (λ i, (num_from_id i, id_hash i)) (λ p, BlockId p.1 p.2) (λ '(BlockId _ _), eq_refl).

(** [block_id_type()]. *)
Definition null_id : block_id_type := BlockId 0 0.

Record signed_block (Tx : Type) := SignedBlock {
  previous : block_id_type;
  timestamp : Z;
  witness : Z;
  transactions : list Tx }.
Arguments SignedBlock {Tx}.
Arguments previous {Tx}.
Arguments timestamp {Tx}.
Arguments witness {Tx}.
Arguments transactions {Tx}.

(** The hash of a block that its id is made of. *)
Class BlockHash (Tx : Type) := block_hash : signed_block Tx → Z.

Section fork_database.
Context {Tx : Type} `{BlockHash Tx}.
Implicit Types b : signed_block Tx.

Definition block_num b : Z := (num_from_id (previous b) + 1) mod 2 ^ 32.

Definition block_id b : block_id_type := BlockId (block_num b) (block_hash b).

(** ** Data *)

(** The members written by [update_witnesses] are the witnesses and keys scheduled after the
    block, and the slot and time of the next block. *)
Record fork_item := ForkItem {
  fi_prev : option Z;
  fi_num : Z;
  fi_id : block_id_type;
  fi_data : signed_block Tx;
  fi_scheduled_witnesses : option (list (Z * Z));
  fi_next_block_aslot : Z;
  fi_next_block_time : Z }.

Definition make_item (prev : option Z) b : fork_item :=
  ForkItem prev (block_num b) (block_id b) b None 0 0.

Record fork_database := ForkDatabase {
  items : gmap Z fork_item;
  next_address : Z;
  fork_index : gmap block_id_type Z;
  fork_head : option Z;
  fork_max_size : Z }.
Implicit Types f : fork_database.

Definition with_head f h := ForkDatabase (items f) (next_address f) (fork_index f) h (fork_max_size f).
Definition with_index f i := ForkDatabase (items f) (next_address f) i (fork_head f) (fork_max_size f).

Definition empty_fork_db : fork_database := ForkDatabase ∅ 0 ∅ None 1024.

(** Following a pointer that is not null. *)
Definition deref f (p : Z) : result fork_item :=
  match items f !! p with
  | Some it => Ok it
  | None => Err (fc_throw "dangling pointer")
  end.

Definition alive (held : list Z) f (p : Z) : bool :=
  bool_decide (p ∈ held) || bool_decide (fork_head f = Some p) ||
  match items f !! p with
  | Some it => bool_decide (fork_index f !! fi_id it = Some p)
  | None => false
  end.

Definition lock (held : list Z) f (w : option Z) : option Z :=
  p ← w; if alive held f p then Some p else None.

(** ** Operations *)

Definition reset f : fork_database :=
  ForkDatabase (items f) (next_address f) ∅ None (fork_max_size f).

Definition fork_pop_block (held : list Z) f : result fork_database :=
  match fork_head f with
  | None => Err (assert_exception "no block to pop")
  | Some h =>
    it ← deref f h;
    match lock held f (fi_prev it) with
    | None => Err (assert_exception "popping block would leave head block null")
    | Some p => Ok (with_head f (Some p))
    end
  end.

(** [make_shared<fork_item>], and [_index.insert], which does nothing if the id is there. *)
Definition new_item (prev : option Z) b f : fork_database * Z :=
  let p := next_address f in
  (ForkDatabase (<[p := make_item prev b]> (items f)) (p + 1) (fork_index f) (fork_head f)
     (fork_max_size f), p).

Definition index_insert (i : block_id_type) (p : Z) (idx : gmap block_id_type Z) : gmap block_id_type Z :=
  match idx !! i with
  | Some _ => idx
  | None => <[i := p]> idx
  end.

Definition start_block b f : fork_database :=
  let '(f, p) := new_item None b f in
  with_head (with_index f (index_insert (block_id b) p (fork_index f))) (Some p).

Definition item_num f (p : Z) : Z :=
  match items f !! p with Some it => fi_num it | None => 0 end.

(** The loops that erase the first entries of the index by number. *)
Definition erase_below (min_num : Z) f : fork_database :=
  with_index f (filter (λ kp, min_num ≤ item_num f kp.2) (fork_index f)).

Definition push_block b f : result (fork_database * Z) :=
  let num := block_num b in
  match fork_head f with
  | None =>
    let '(f, p) := new_item None b f in
    Ok (with_head (with_index f (index_insert (block_id b) p (fork_index f))) (Some p), p)
  | Some h =>
    head ← deref f h;
    FC_ASSERT (Z.max 0 (fi_num head - fork_max_size f) <? num)
      "attempting to push a block that is too old";;
    prev ← (if bool_decide (previous b = null_id) then Ok None
            else match fork_index f !! previous b with
                 | None => Err (graphene_exception "unlinkable_block_exception")
                 | Some q => Ok (Some q)
                 end);
    let '(f, p) := new_item prev b f in
    let f := with_index f (index_insert (block_id b) p (fork_index f)) in
    if fi_num head <? num then
      Ok (erase_below (num - Z.min (fork_max_size f) num) (with_head f (Some p)), p)
    else Ok (f, h)
  end.

Definition set_max_size (s : Z) f : fork_database :=
  let f := ForkDatabase (items f) (next_address f) (fork_index f) (fork_head f) s in
  match fork_head f with
  | None => f
  | Some h => erase_below (Z.max 0 (item_num f h - s)) f
  end.

Definition is_known_block f (i : block_id_type) : bool := bool_decide (is_Some (fork_index f !! i)).

Definition fetch_block f (i : block_id_type) : option Z := fork_index f !! i.

Definition fetch_block_by_number f (num : Z) : list Z :=
  (filter (λ kp, item_num f kp.2 = num) (map_to_list (fork_index f))).*2.

(** One step back on a branch. *)
Definition step_back f (p : Z) : result Z :=
  it ← deref f p;
  match lock [] f (fi_prev it) with
  | Some q => Ok q
  | None => Err (assert_exception "branch ends")
  end.

Definition out_of_fuel {A} : result A := Err (fc_throw "out of fuel").

(** The loops that take the longer branch down to number [n]. *)
Fixpoint level_branch (fuel : nat) f (p n : Z) : result (list Z * Z) :=
  match fuel with
  | O => out_of_fuel
  | S fuel =>
    it ← deref f p;
    if n <? block_num (fi_data it) then
      q ← step_back f p;
      '(l, r) ← level_branch fuel f q n;
      Ok (p :: l, r)
    else Ok ([], p)
  end.

(** The loop that takes both branches down to the same previous block, and the final push. *)
Fixpoint join_branches (fuel : nat) f (p q : Z) : result (list Z * list Z) :=
  match fuel with
  | O => out_of_fuel
  | S fuel =>
    a ← deref f p;
    b ← deref f q;
    if bool_decide (previous (fi_data a) = previous (fi_data b)) then Ok ([p], [q])
    else
      p' ← step_back f p;
      q' ← step_back f q;
      '(l, m) ← join_branches fuel f p' q';
      Ok (p :: l, q :: m)
  end.

(** [data.block_num()]. *)
Definition data_num f (p : Z) : Z :=
  match items f !! p with Some it => block_num (fi_data it) | None => 0 end.

(** Numbers decrease along a branch, so the number of its first block bounds each loop. *)
Definition branch_fuel f (p : Z) : nat := S (Z.to_nat (data_num f p)).

Definition fetch_branch_from f (first second : block_id_type) : result (list Z * list Z) :=
  match fork_index f !! first, fork_index f !! second with
  | Some p, Some q =>
    '(l1, p) ← level_branch (branch_fuel f p) f p (data_num f q);
    '(l2, q) ← level_branch (branch_fuel f q) f q (data_num f p);
    '(m1, m2) ← join_branches (branch_fuel f p) f p q;
    Ok (l1 ++ m1, l2 ++ m2)
  | _, _ => Err (assert_exception "branch_itr != _index.get<block_id>().end()")
  end.

Definition set_head (h : Z) f : fork_database := with_head f (Some h).

Definition fork_remove (held : list Z) (i : block_id_type) f : fork_database :=
  let f := with_index f (delete i (fork_index f)) in
  match fork_head f with
  | Some h =>
    match items f !! h with
    | Some it =>
      if bool_decide (fi_id it = i) then
        match fork_pop_block held f with
        | Ok f => f
        | Err _ => with_head f None
        end
      else f
    | None => f
    end
  | None => f
  end.

(** ** Well-formedness *)

(** Ids and numbers are those of the blocks, and a predecessor is the block named by
    [previous], one number below. *)
Record fork_ok f : Prop := {
  fo_item p it : items f !! p = Some it →
    fi_num it = block_num (fi_data it) ∧ fi_id it = block_id (fi_data it) ∧ p < next_address f;
  fo_prev p it q : items f !! p = Some it → fi_prev it = Some q →
    ∃ it', items f !! q = Some it' ∧ fi_id it' = previous (fi_data it) ∧ fi_num it = fi_num it' + 1;
  fo_index i p : fork_index f !! i = Some p → ∃ it, items f !! p = Some it ∧ fi_id it = i;
  fo_head h : fork_head f = Some h → is_Some (items f !! h) }.

(** No block of the index is higher than the head. *)
Definition highest f : Prop :=
  ∀ i p, fork_index f !! i = Some p → ∃ h, fork_head f = Some h ∧ item_num f p ≤ item_num f h.

Lemma block_num_bounds b : 0 ≤ block_num b < 2 ^ 32.
Proof. unfold block_num. apply Z.mod_pos_bound. lia. Qed.

Lemma item_num_Some f p it : items f !! p = Some it → item_num f p = fi_num it.
Proof. unfold item_num. by intros ->. Qed.

Lemma data_num_item f p : fork_ok f → data_num f p = item_num f p.
Proof.
  intros Hok. unfold data_num, item_num. destruct (items f !! p) eqn:E; [|done].
  by destruct (fo_item _ Hok _ _ E) as [-> _].
Qed.

Lemma item_num_bounds f p : fork_ok f → 0 ≤ item_num f p < 2 ^ 32.
Proof.
  intros Hok. rewrite <- data_num_item by done. unfold data_num.
  destruct (items f !! p); [apply block_num_bounds|lia].
Qed.

Lemma fork_ok_head f h : fork_ok f → is_Some (items f !! h) → fork_ok (with_head f (Some h)).
Proof. intros [H1 H2 H3 H4] Hh. split; [done|done|done|]. by intros h' [= <-]. Qed.

(** The index only refers to items; erasing entries keeps that. *)
Lemma fork_ok_subindex f idx : fork_ok f → idx ⊆ fork_index f → fork_ok (with_index f idx).
Proof.
  intros [H1 H2 H3 H4] Hsub. split; [done|done| |done].
  intros i p Hi. by apply H3, (lookup_weaken _ _ _ _ Hi).
Qed.

Lemma fork_ok_erase min f : fork_ok f → fork_ok (erase_below min f).
Proof. intros Hok. apply fork_ok_subindex; [done|apply map_filter_subseteq]. Qed.

Lemma fork_ok_max_size s f : fork_ok f → fork_ok (set_max_size s f).
Proof.
  intros Hok. unfold set_max_size. simpl.
  assert (fork_ok (ForkDatabase (items f) (next_address f) (fork_index f) (fork_head f) s)) as Hok'
    by (destruct Hok; by split).
  destruct (fork_head f); [by apply fork_ok_erase|done].
Qed.

Lemma lock_Some held f w q : lock held f w = Some q → w = Some q ∧ alive held f q = true.
Proof. unfold lock. destruct w as [p|]; [|done]. simpl. destruct (alive held f p) eqn:E; [|done]. by intros [= <-]. Qed.

Lemma fork_ok_pop held f f' : fork_ok f → fork_pop_block held f = Ok f' → fork_ok f'.
Proof.
  intros Hok Hp. unfold fork_pop_block in Hp. destruct (fork_head f) as [h|]; [|done].
  unfold deref in Hp. destruct (items f !! h) as [it|] eqn:Eh; [|done]. simpl in Hp.
  destruct (lock held f (fi_prev it)) as [p|] eqn:El; [|done]. injection Hp as <-.
  apply fork_ok_head; [done|]. apply lock_Some in El as [El _].
  destruct (fo_prev _ Hok _ _ _ Eh El) as (it' & E & _). eauto.
Qed.

Lemma fork_ok_remove held i f : fork_ok f → fork_ok (fork_remove held i f).
Proof.
  intros Hok. unfold fork_remove.
  assert (fork_ok (with_index f (delete i (fork_index f)))) as Hok'
    by (apply fork_ok_subindex; [done|apply delete_subseteq]).
  destruct (fork_head (with_index f _)) as [h|]; [|done].
  destruct (items (with_index f _) !! h) as [it|]; [|done]. case_bool_decide; [|done].
  destruct (fork_pop_block held _) as [f'|] eqn:E; [by eapply fork_ok_pop|].
  destruct Hok'. split; try done.
Qed.

(** A new item whose predecessor is the block it names. *)
Lemma fork_ok_new prev b f :
  fork_ok f →
  (∀ q, prev = Some q → ∃ it, items f !! q = Some it ∧ fi_id it = previous b ∧ block_num b = fi_num it + 1) →
  let '(f', p) := new_item prev b f in
  fork_ok (with_index f' (index_insert (block_id b) p (fork_index f'))) ∧
  items f' !! p = Some (make_item prev b) ∧ items f ⊆ items f' ∧ items f !! p = None.
Proof.
  intros Hok Hprev. unfold new_item.
  assert (items f !! next_address f = None) as Hnone.
  { destruct (items f !! next_address f) eqn:E; [|done]. apply (fo_item _ Hok) in E. lia. }
  assert (items f ⊆ <[next_address f := make_item prev b]> (items f)) as Hsub by (by apply insert_subseteq).
  split_and!; simpl; [|by rewrite lookup_insert_eq|done|done]. split; simpl.
  - intros p it [[<- <-]|[_ E]]%lookup_insert_Some; [by split_and!; [| |lia]|].
    destruct (fo_item _ Hok _ _ E) as (? & ? & ?). split_and!; [done|done|lia].
  - intros p it q E Eq. apply lookup_insert_Some in E as [[<- <-]|[_ E]].
    + destruct (Hprev q Eq) as (it' & E' & Ei & En). exists it'. split_and!; [|done|done].
      by apply (lookup_weaken _ _ _ _ E').
    + destruct (fo_prev _ Hok _ _ _ E Eq) as (it' & E' & ? & ?). exists it'.
      split_and!; [|done|done]. by apply (lookup_weaken _ _ _ _ E').
  - intros i p. unfold index_insert. destruct (fork_index f !! block_id b) eqn:Eb; intros E.
    + destruct (fo_index _ Hok _ _ E) as (it & E' & ?). exists it. split; [|done].
      by apply (lookup_weaken _ _ _ _ E').
    + apply lookup_insert_Some in E as [[<- <-]|[_ E]].
      * eexists. by rewrite lookup_insert_eq.
      * destruct (fo_index _ Hok _ _ E) as (it & E' & ?). exists it. split; [|done].
        by apply (lookup_weaken _ _ _ _ E').
  - intros h Eh. destruct (fo_head _ Hok _ Eh) as [it E]. exists it. by apply (lookup_weaken _ _ _ _ E).
Qed.

(** ** Pushing *)

Lemma push_link f b q h hd :
  fork_ok f → items f !! h = Some hd →
  Z.max 0 (fi_num hd - fork_max_size f) < block_num b → fork_index f !! previous b = Some q →
  ∃ it, items f !! q = Some it ∧ fi_id it = previous b ∧ block_num b = fi_num it + 1.
Proof.
  intros Hok _ Hnum Hq. destruct (fo_index _ Hok _ _ Hq) as (it & E & Ei). exists it.
  split_and!; [done|done|]. destruct (fo_item _ Hok _ _ E) as (En & Ei' & _).
  assert (num_from_id (previous b) = fi_num it) as Ep by (by rewrite <- Ei, Ei', En).
  pose proof (block_num_bounds (fi_data it)) as Hb. rewrite <- En in Hb.
  unfold block_num in Hnum |- *. rewrite Ep in *.
  destruct (decide (fi_num it + 1 = 2 ^ 32)) as [E2|].
  - rewrite E2, Z.mod_same in Hnum by lia. lia.
  - rewrite Z.mod_small by lia. done.
Qed.

Lemma index_insert_known i p idx : is_Some (index_insert i p idx !! i).
Proof. unfold index_insert. destruct (idx !! i) eqn:E; [by rewrite E|by rewrite lookup_insert_eq]. Qed.

Lemma index_insert_inv i p idx j q :
  index_insert i p idx !! j = Some q → idx !! j = Some q ∨ (j = i ∧ q = p).
Proof.
  unfold index_insert. destruct (idx !! i) eqn:E; [by left|].
  intros [[<- <-]|[_ ?]]%lookup_insert_Some; [by right|by left].
Qed.

Lemma index_insert_weaken i p idx j q : idx !! j = Some q → index_insert i p idx !! j = Some q.
Proof.
  unfold index_insert. destruct (idx !! i) eqn:E; [done|]. intros Hj.
  rewrite lookup_insert_ne; [done|congruence].
Qed.

Lemma item_num_weaken f f' p : items f ⊆ items f' → is_Some (items f !! p) → item_num f' p = item_num f p.
Proof. intros Hs [it E]. unfold item_num. by rewrite E, (lookup_weaken _ _ _ _ E Hs). Qed.

(** What pushing a block does: the block is known from then on unless it is below the window,
    the head is the new block exactly if that is higher, and the index loses only what is below
    the new window. *)
Record pushed f b f' h : Prop := {
  pu_ok : fork_ok f';
  pu_head : fork_head f' = Some h;
  pu_items : items f ⊆ items f';
  pu_known : is_known_block f' (block_id b) = true;
  pu_new i p : fork_index f' !! i = Some p → fork_index f !! i = Some p ∨ i = block_id b;
  pu_kept i p : fork_index f !! i = Some p → item_num f' h - fork_max_size f ≤ item_num f p →
    fork_index f' !! i = Some p;
  pu_higher : if match fork_head f with Some h0 => item_num f h0 <? block_num b | None => true end
    then items f !! h = None ∧ ∃ it, items f' !! h = Some it ∧ fi_data it = b
    else fork_head f = Some h }.

Lemma push_block_pushed b f f' h :
  fork_ok f → 0 ≤ fork_max_size f → push_block b f = Ok (f', h) → pushed f b f' h.
Proof.
  intros Hok Hmax Hp. unfold push_block in Hp. destruct (fork_head f) as [h0|] eqn:Eh.
  - unfold deref in Hp. destruct (items f !! h0) as [hd|] eqn:Ehd; [|done]. simpl in Hp.
    apply bind_Ok in Hp as ([] & Hnum%FC_ASSERT_Ok%Z.ltb_lt & Hp).
    apply bind_Ok in Hp as (prev & Hprev & Hp).
    assert (∀ q, prev = Some q → ∃ it, items f !! q = Some it ∧ fi_id it = previous b ∧
      block_num b = fi_num it + 1) as Hlink.
    { intros q ->. case_bool_decide; [done|]. destruct (fork_index f !! previous b) as [q'|] eqn:Eq; [|done].
      injection Hprev as ->. by eapply push_link. }
    pose proof (fork_ok_new prev b f Hok Hlink) as Hnew.
    destruct (new_item prev b f) as [f1 p] eqn:En. destruct Hnew as (Hok1 & Hp1 & Hsub & Hfresh).
    unfold new_item in En. injection En as <- <-. simpl in *.
    destruct (Z.ltb_spec (fi_num hd) (block_num b)) as [Hlt|Hge]; injection Hp as <- <-.
    + assert (item_num f h0 = fi_num hd) as Ehn by (unfold item_num; by rewrite Ehd).
      set (g := with_head _ _).
      assert (fork_ok g) as Hg by (apply fork_ok_head; [done|simpl; by rewrite Hp1]).
      assert (item_num g (next_address f) = block_num b) as Egn by (unfold item_num; simpl; by rewrite Hp1).
      split; simpl; [by apply fork_ok_erase|done|done| | | |].
      * unfold is_known_block. apply bool_decide_eq_true_2. simpl.
        destruct (index_insert_known (block_id b) (next_address f) (fork_index f)) as [p' Ep'].
        exists p'. apply map_lookup_filter_Some. split; [done|]. simpl.
        destruct (fo_index _ Hg _ _ Ep') as (it & E & Ei). rewrite (item_num_Some _ _ _ E).
        destruct (fo_item _ Hg _ _ E) as (-> & Ei' & _).
        assert (block_num (fi_data it) = block_num b) as ->
          by (rewrite Ei in Ei'; by injection Ei').
        pose proof (block_num_bounds b). lia.
      * intros i p [[E|[-> _]]%index_insert_inv _]%map_lookup_filter_Some; [by left|by right].
      * intros i p E Hle. apply map_lookup_filter_Some. split; [by apply index_insert_weaken|]. simpl.
        destruct (fo_index _ Hok _ _ E) as (it & E' & _).
        rewrite (item_num_weaken f g p Hsub) by eauto.
        replace (item_num (erase_below _ g) (next_address f)) with (block_num b) in Hle by done.
        pose proof (item_num_bounds f p Hok). lia.
      * rewrite Eh, Ehn. destruct (Z.ltb_spec (fi_num hd) (block_num b)); [|lia].
        split; [done|]. eexists. by rewrite Hp1.
    + split; simpl; [done|done|done| | | |].
      * unfold is_known_block. apply bool_decide_eq_true_2. apply index_insert_known.
      * intros i p [E|[-> _]]%index_insert_inv; [by left|by right].
      * intros i p E _. by apply index_insert_weaken.
      * rewrite Eh. unfold item_num. rewrite Ehd. destruct (Z.ltb_spec (fi_num hd) (block_num b)); [lia|done].
  - pose proof (fork_ok_new None b f Hok ltac:(done)) as Hnew.
    destruct (new_item None b f) as [f1 p] eqn:En. destruct Hnew as (Hok1 & Hp1 & Hsub & Hfresh).
    unfold new_item in En. injection En as <- <-. simpl in *. injection Hp as <- <-.
    split; simpl; [apply fork_ok_head; [done|simpl; by rewrite Hp1]|done|done| | | |].
    + unfold is_known_block. apply bool_decide_eq_true_2. apply index_insert_known.
    + intros i p [E|[-> _]]%index_insert_inv; [by left|by right].
    + intros i p E _. by apply index_insert_weaken.
    + rewrite Eh. split; [done|]. eexists. by rewrite Hp1.
Qed.

(** ** Branches *)

(** [q] is the predecessor of [p] and still there. *)
Definition parent f (p q : Z) : Prop :=
  ∃ it, items f !! p = Some it ∧ fi_prev it = Some q ∧ alive [] f q = true.

(** [path f p l r]: the predecessors from [p] on are [l] and then [r]. *)
Inductive path f : Z → list Z → Z → Prop :=
  | path_nil p : path f p [] p
  | path_cons p q l r : parent f p q → path f q l r → path f p (p :: l) r.

(** The block a block names as its previous. *)
Definition prev_id f (p : Z) : block_id_type :=
  match items f !! p with Some it => previous (fi_data it) | None => null_id end.

Lemma step_back_Ok f p q : step_back f p = Ok q ↔ parent f p q.
Proof.
  unfold step_back, parent, deref. destruct (items f !! p) as [it|]; simpl; [|naive_solver].
  split.
  - destruct (lock [] f (fi_prev it)) as [q'|] eqn:El; [|done]. intros [= ->].
    apply lock_Some in El as [E1 E2]. eauto.
  - intros (? & [= <-] & E1 & E2). unfold lock. rewrite E1. simpl. by rewrite E2.
Qed.

Lemma parent_num f p q : fork_ok f → parent f p q → item_num f p = item_num f q + 1.
Proof.
  intros Hok (it & E & Eq & _). destruct (fo_prev _ Hok _ _ _ E Eq) as (it' & E' & _ & En).
  by rewrite (item_num_Some _ _ _ E), (item_num_Some _ _ _ E').
Qed.

Lemma parent_prev f p q : fork_ok f → parent f p q →
  ∃ it, items f !! q = Some it ∧ fi_id it = prev_id f p.
Proof.
  intros Hok (it & E & Eq & _). destruct (fo_prev _ Hok _ _ _ E Eq) as (it' & E' & Ei & _).
  exists it'. split; [done|]. unfold prev_id. by rewrite E.
Qed.

Lemma parent_unique f p q q' : parent f p q → parent f p q' → q = q'.
Proof. intros (it & E & Eq & _) (it' & E' & Eq' & _). congruence. Qed.

Lemma path_num f p l r : fork_ok f → path f p l r → item_num f p = item_num f r + Z.of_nat (length l).
Proof.
  intros Hok. induction 1 as [|p q l r Hpq _ IH]; simpl; [lia|].
  rewrite (parent_num _ _ _ Hok Hpq). lia.
Qed.

Lemma path_lookup f p l r i u :
  fork_ok f → path f p l r → l !! i = Some u → item_num f u = item_num f p - Z.of_nat i.
Proof.
  intros Hok Hp. revert i. induction Hp as [|p q l r Hpq _ IH]; intros [|i] Hi; simpl in Hi; try done.
  - injection Hi as <-. lia.
  - rewrite (IH _ Hi), (parent_num _ _ _ Hok Hpq). lia.
Qed.

Lemma path_app f p l q m r : path f p l q → path f q m r → path f p (l ++ m) r.
Proof. induction 1; simpl; [done|]. intros. econstructor; eauto. Qed.

Lemma path_inv f p l r : path f p l r → p = r ∨ ∃ q l', parent f p q ∧ l = p :: l' ∧ path f q l' r.
Proof. inversion 1; subst; eauto 10. Qed.

(** A block that a path leads to exists. *)
Definition present f p : Prop := is_Some (items f !! p).

Lemma parent_present f p q : fork_ok f → parent f p q → present f q.
Proof. intros Hok Hpq. destruct (parent_prev _ _ _ Hok Hpq) as (it & E & _). by exists it. Qed.

(** Taking a branch that leads to [r] down to number [n], at or above [r]. *)
Lemma level_branch_ok fuel f p n l r :
  fork_ok f → present f p → path f p l r → item_num f r ≤ n ≤ item_num f p →
  (Z.to_nat (item_num f p) < fuel)%nat →
  ∃ l1 l2 q, level_branch fuel f p n = Ok (l1, q) ∧ path f p l1 q ∧ path f q l2 r ∧
    item_num f q = n ∧ present f q.
Proof.
  intros Hok. revert p l. induction fuel as [|fuel IH]; intros p l [it E] Hp Hn Hfuel; [lia|]. simpl.
  unfold deref at 1. rewrite E. simpl. pose proof (data_num_item f p Hok) as Ed. unfold data_num in Ed.
  rewrite E in Ed. rewrite Ed.
  destruct (Z.ltb_spec n (item_num f p)) as [Hlt|Hge].
  - destruct (path_inv _ _ _ _ Hp) as [->|(q & l' & Hpq & -> & Hq)]; [lia|].
    rewrite (proj2 (step_back_Ok f p q) Hpq). simpl. pose proof (parent_num _ _ _ Hok Hpq) as Hnum.
    pose proof (item_num_bounds f q Hok).
    destruct (IH q l') as (l1 & l2 & z & -> & P1 & P2 & En & Hz); [by eapply parent_present|done|lia|lia|].
    simpl. exists (p :: l1), l2, z. split_and!; try done. by econstructor.
  - exists [], l, p. split_and!; try done; [constructor|lia|by exists it].
Qed.

(** Taking two branches of the same height that lead to [r] down to the same previous block. *)
Lemma join_branches_ok fuel f p q l m r :
  fork_ok f → present f p → present f q → path f p l r → path f q m r →
  item_num f p = item_num f q → (Z.to_nat (item_num f p) < fuel)%nat →
  ∃ l1 m1 x y, join_branches fuel f p q = Ok (l1 ++ [x], m1 ++ [y]) ∧
    path f p l1 x ∧ path f q m1 y ∧ prev_id f x = prev_id f y ∧ present f x ∧ present f y ∧
    length l1 = length m1 ∧
    ∀ i u v, l1 !! i = Some u → m1 !! i = Some v → prev_id f u ≠ prev_id f v.
Proof.
  intros Hok. revert p q l m. induction fuel as [|fuel IH]; intros p q l m [a Ea] [b Eb] Hp Hq Hnum Hfuel; [lia|].
  simpl. unfold deref at 1 2. rewrite Ea. simpl. rewrite Eb. simpl.
  assert (prev_id f p = previous (fi_data a)) as Epa by (unfold prev_id; by rewrite Ea).
  assert (prev_id f q = previous (fi_data b)) as Epb by (unfold prev_id; by rewrite Eb).
  case_bool_decide as Hsame.
  - exists [], [], p, q. split_and!; try done; [constructor|constructor|congruence|by exists a|by exists b].
  - assert (p ≠ q) as Hne by (intros ->; congruence).
    destruct (path_inv _ _ _ _ Hp) as [->|(p' & l' & Hpp & -> & Hp')].
    { pose proof (path_num _ _ _ _ Hok Hq). destruct (path_inv _ _ _ _ Hq) as [->|(? & ? & ? & -> & ?)]; [done|].
      simpl in *. lia. }
    destruct (path_inv _ _ _ _ Hq) as [->|(q' & m' & Hqq & -> & Hq')].
    { pose proof (path_num _ _ _ _ Hok Hp). simpl in *. lia. }
    rewrite (proj2 (step_back_Ok f p p') Hpp). simpl. rewrite (proj2 (step_back_Ok f q q') Hqq). simpl.
    pose proof (parent_num _ _ _ Hok Hpp). pose proof (parent_num _ _ _ Hok Hqq).
    pose proof (item_num_bounds f p' Hok).
    destruct (IH p' q' l' m') as (l1 & m1 & x & y & -> & P1 & P2 & Es & Px & Py & Hlen & Hd);
      [by eapply parent_present|by eapply parent_present|done|done|lia|lia|].
    simpl. exists (p :: l1), (q :: m1), x, y. split_and!; try done; [by econstructor|by econstructor|simpl; lia|].
    intros [|i] u v Hu Hv; simpl in *; [congruence|by eapply Hd].
Qed.

(** The longer branch is taken down first; the other one is as long already. *)
Lemma level_branch_low fuel f p n :
  fork_ok f → present f p → item_num f p ≤ n → level_branch (S fuel) f p n = Ok ([], p).
Proof.
  intros Hok [it E] Hle. simpl. unfold deref. rewrite E. simpl.
  pose proof (data_num_item f p Hok) as Ed. unfold data_num in Ed. rewrite E in Ed. rewrite Ed.
  destruct (Z.ltb_spec n (item_num f p)); [lia|done].
Qed.

Lemma level_both f p q l m r :
  fork_ok f → present f p → present f q → path f p l r → path f q m r →
  ∃ l1 l2 p1 q1 l' m',
    level_branch (branch_fuel f p) f p (data_num f q) = Ok (l1, p1) ∧
    level_branch (branch_fuel f q) f q (data_num f p1) = Ok (l2, q1) ∧
    path f p l1 p1 ∧ path f q l2 q1 ∧ path f p1 l' r ∧ path f q1 m' r ∧
    present f p1 ∧ present f q1 ∧ item_num f p1 = item_num f q1 ∧
    item_num f p1 = Z.min (item_num f p) (item_num f q).
Proof.
  intros Hok Pp Pq Hp Hq. pose proof (path_num _ _ _ _ Hok Hp) as Np.
  pose proof (path_num _ _ _ _ Hok Hq) as Nq. unfold branch_fuel. rewrite !(data_num_item f) by done.
  destruct (Z.le_ge_cases (item_num f p) (item_num f q)) as [Hle|Hge].
  - rewrite level_branch_low by done.
    destruct (level_branch_ok (S (Z.to_nat (item_num f q))) f q (item_num f p) m r)
      as (l2 & m' & q1 & E & P1 & P2 & En & Pq1); [done|done|done|lia|lia|].
    exists [], l2, p, q1, l, m'. rewrite data_num_item by done.
    split_and!; try done; [constructor|lia].
  - destruct (level_branch_ok (S (Z.to_nat (item_num f p))) f p (item_num f q) l r)
      as (l1 & l' & p1 & E & P1 & P2 & En & Pp1); [done|done|done|lia|lia|].
    exists l1, [], p1, q, l', m. rewrite E, data_num_item, level_branch_low by (done || lia).
    split_and!; try done; [constructor|lia].
Qed.

Lemma fetch_branch_paths f first second p q l m r :
  fork_ok f → fork_index f !! first = Some p → fork_index f !! second = Some q →
  path f p l r → path f q m r →
  ∃ l1 l2 x y, fetch_branch_from f first second = Ok (l1 ++ [x], l2 ++ [y]) ∧
    path f p l1 x ∧ path f q l2 y ∧ prev_id f x = prev_id f y ∧
    item_num f x = item_num f y ∧
    ∀ u v, u ∈ l1 → v ∈ l2 → item_num f u = item_num f v → prev_id f u ≠ prev_id f v.
Proof.
  intros Hok Hf Hs Hp Hq. unfold fetch_branch_from. rewrite Hf, Hs.
  destruct (fo_index _ Hok _ _ Hf) as (itp & Ep & _). destruct (fo_index _ Hok _ _ Hs) as (itq & Eq & _).
  destruct (level_both f p q l m r) as (a & b & p1 & q1 & l' & m' & -> & E2 & P1 & P2 & P3 & P4 & Hp1 & Hq1 & En & Emin);
    [done|by eexists|by eexists|done|done|].
  cbn [mbind result_bind]. rewrite E2. cbn [mbind result_bind].
  destruct (join_branches_ok (branch_fuel f p1) f p1 q1 l' m' r)
    as (l1 & m1 & x & y & -> & J1 & J2 & Js & _ & _ & Hlen & Hd); try done.
  { unfold branch_fuel. rewrite data_num_item by done. lia. }
  simpl. exists (a ++ l1), (b ++ m1), x, y. rewrite <- !app_assoc.
  assert (path f p (a ++ l1) x) as Q1 by (by eapply path_app).
  assert (path f q (b ++ m1) y) as Q2 by (by eapply path_app).
  pose proof (path_num _ _ _ _ Hok J1). pose proof (path_num _ _ _ _ Hok J2).
  split_and!; try done; [lia|]. intros u v Hu Hv Huv.
  apply list_elem_of_lookup in Hu as [i Hi]. apply list_elem_of_lookup in Hv as [j Hj].
  pose proof (path_lookup _ _ _ _ _ _ Hok Q1 Hi). pose proof (path_lookup _ _ _ _ _ _ Hok Q2 Hj).
  pose proof (path_num _ _ _ _ Hok P1). pose proof (path_num _ _ _ _ Hok P2).
  apply lookup_lt_Some in Hi as Li. apply lookup_lt_Some in Hj as Lj.
  rewrite length_app in Li, Lj.
  assert (length a ≤ i ∧ length b ≤ j ∧ i - length a = j - length b)%nat as (Hia & Hjb & Hij) by lia.
  rewrite lookup_app_r in Hi by done. rewrite lookup_app_r in Hj by done. rewrite Hij in Hi. by eapply Hd.
Qed.

(** C19: the two branches of [fetch_branch_from].  If two known blocks descend, over blocks that
    are still there, from a common one, [fetch_branch_from] returns: each branch leads from its
    block back over predecessors, both end with blocks that name the same previous block, and
    that is the most recent one - at no earlier pair of the same height do the branches have
    the same previous block. *)
Theorem fetch_branch_correct f first second p q l m r :
  fork_ok f → fork_index f !! first = Some p → fork_index f !! second = Some q →
  path f p l r → path f q m r →
  ∃ l1 l2 x y, fetch_branch_from f first second = Ok (l1 ++ [x], l2 ++ [y]) ∧
    path f p l1 x ∧ path f q l2 y ∧ prev_id f x = prev_id f y ∧
    ∀ u v, u ∈ l1 → v ∈ l2 → item_num f u = item_num f v → prev_id f u ≠ prev_id f v.
Proof.
  intros Hok Hf Hs Hp Hq.
  destruct (fetch_branch_paths f first second p q l m r Hok Hf Hs Hp Hq)
    as (l1 & l2 & x & y & E & P1 & P2 & Es & _ & Hd). exists l1, l2, x, y. done.
Qed.

(** *** The blocks of a branch *)

Definition indexed f (u : Z) : Prop :=
  ∃ it, items f !! u = Some it ∧ fork_index f !! fi_id it = Some u.

Lemma indexed_inj f u v it it' :
  indexed f u → indexed f v → items f !! u = Some it → items f !! v = Some it' →
  fi_id it = fi_id it' → u = v.
Proof. intros (a & Ea & Ia) (b & Eb & Ib) Eu Ev Eid. congruence. Qed.

(** The blocks of a branch from [p] to [x] that starts in the index, below the head. *)
Lemma branch_indexed f h p l x :
  fork_ok f → fork_head f = Some h → item_num f p ≤ item_num f h → indexed f p → path f p l x →
  ∀ u, u ∈ l ++ [x] → indexed f u.
Proof.
  intros Hok Hh Hle Hp Hpath. induction Hpath as [p|p q l x Hpq Hpath IH]; intros u Hu; simpl in Hu.
  - by apply list_elem_of_singleton in Hu as ->.
  - pose proof (parent_num _ _ _ Hok Hpq) as Hnum. apply elem_of_cons in Hu as [->|Hu]; [done|].
    apply IH; [lia| |done]. destruct (parent_present _ _ _ Hok Hpq) as [it E].
    destruct Hpq as (_ & _ & _ & Ha). unfold alive in Ha. rewrite E in Ha.
    apply orb_true_iff in Ha as [[Ha|Ha]%orb_true_iff|Ha]; apply bool_decide_eq_true in Ha.
    + set_solver.
    + rewrite Hh in Ha. injection Ha as ->. lia.
    + by exists it.
Qed.

Lemma branch_lookup f p l x i u :
  fork_ok f → path f p l x → (l ++ [x]) !! i = Some u → item_num f u = item_num f p - Z.of_nat i.
Proof.
  intros Hok Hp [Hi|[Hi Hx]]%lookup_app_Some; [by eapply path_lookup|].
  apply list_lookup_singleton_Some in Hx as [Hx <-]. rewrite (path_num _ _ _ _ Hok Hp). lia.
Qed.

Lemma branch_num f p l x u :
  fork_ok f → path f p l x → u ∈ l ++ [x] →
  item_num f x ≤ item_num f u ≤ item_num f p ∧ item_num f u ≤ item_num f x + Z.of_nat (length l).
Proof.
  intros Hok Hp Hu. pose proof (path_num _ _ _ _ Hok Hp). apply list_elem_of_lookup in Hu as [i Hi].
  pose proof (branch_lookup _ _ _ _ _ _ Hok Hp Hi). apply lookup_lt_Some in Hi.
  rewrite length_app in Hi. simpl in Hi. lia.
Qed.

Lemma branch_nodup f p l x : fork_ok f → path f p l x → NoDup (l ++ [x]).
Proof.
  intros Hok Hp. apply NoDup_alt. intros i j u Hi Hj.
  pose proof (branch_lookup _ _ _ _ _ _ Hok Hp Hi). pose proof (branch_lookup _ _ _ _ _ _ Hok Hp Hj). lia.
Qed.

Lemma branch_num_inj f p l x u v :
  fork_ok f → path f p l x → u ∈ l ++ [x] → v ∈ l ++ [x] → item_num f u = item_num f v → u = v.
Proof.
  intros Hok Hp Hu Hv E. apply list_elem_of_lookup in Hu as [i Hi]. apply list_elem_of_lookup in Hv as [j Hj].
  pose proof (branch_lookup _ _ _ _ _ _ Hok Hp Hi). pose proof (branch_lookup _ _ _ _ _ _ Hok Hp Hj).
  assert (i = j) as -> by lia. congruence.
Qed.

(** Branches that end in different blocks of the same height have none in common. *)
Lemma branches_disjoint f p q l1 l2 x y :
  fork_ok f → path f p l1 x → path f q l2 y → item_num f x = item_num f y → x ≠ y →
  (∀ u v, u ∈ l1 → v ∈ l2 → item_num f u = item_num f v → prev_id f u ≠ prev_id f v) →
  ∀ u, u ∈ l1 ++ [x] → u ∈ l2 ++ [y] → False.
Proof.
  intros Hok Hp Hq En Hne Hd u Hu Hv.
  assert (x ∈ l1 ++ [x]) as Hx by set_solver. assert (y ∈ l2 ++ [y]) as Hy by set_solver.
  destruct (decide (item_num f u = item_num f x)) as [Eu|Hlt].
  - apply Hne. rewrite <- (branch_num_inj f p l1 x u x) by done.
    apply (branch_num_inj f q l2 y); [done|done|done|done|lia].
  - apply (Hd u u); try done; [apply elem_of_app in Hu|apply elem_of_app in Hv]; set_solver.
Qed.

(** The fork database follows the longest fork.  Pushing a block onto a well-formed fork
    database whose head is its highest block keeps it so; the block is known afterwards and no
    higher than the head that is returned; the head changes only to the pushed block, if that is
    higher; and no block within the window below the head is lost. *)
Theorem push_block_longest b f f' h :
  fork_ok f → highest f → 0 ≤ fork_max_size f → push_block b f = Ok (f', h) →
  fork_ok f' ∧ highest f' ∧ fork_head f' = Some h ∧ is_known_block f' (block_id b) = true ∧
  block_num b ≤ item_num f' h ∧
  (fork_head f = Some h ∨ ∃ it, items f' !! h = Some it ∧ fi_data it = b) ∧
  ∀ i p, fork_index f !! i = Some p → item_num f' h - fork_max_size f ≤ item_num f p →
    fork_index f' !! i = Some p.
Proof.
  intros Hok Hh Hmax Hpush. destruct (push_block_pushed _ _ _ _ Hok Hmax Hpush) as [P1 P2 P3 P4 P5 P6 P7].
  assert (∀ p, is_Some (items f !! p) → item_num f' p = item_num f p) as Hw
    by (intros p; by apply item_num_weaken).
  assert (block_num b ≤ item_num f' h ∧
    (∀ h0, fork_head f = Some h0 → item_num f h0 ≤ item_num f' h) ∧
    (fork_head f = Some h ∨ ∃ it, items f' !! h = Some it ∧ fi_data it = b)) as (Hb & Hold & Hor).
  { destruct (fork_head f) as [h0|] eqn:Eh.
    - destruct (Z.ltb_spec (item_num f h0) (block_num b)) as [Hlt|Hge].
      + destruct P7 as (_ & it & E & Ed). pose proof (fo_item _ P1 _ _ E) as (En & _).
        rewrite (item_num_Some _ _ _ E), En, Ed. split_and!; [lia| |eauto]. intros ? [= <-]. lia.
      + injection P7 as <-. rewrite Hw by (by apply (fo_head _ Hok)).
        split_and!; [lia| |by left]. intros ? [= <-]. lia.
    - destruct P7 as (_ & it & E & Ed). pose proof (fo_item _ P1 _ _ E) as (En & _).
      rewrite (item_num_Some _ _ _ E), En, Ed. split_and!; [lia|done|eauto]. }
  split_and!; try done. intros i p Ei. exists h. split; [done|].
  destruct (P5 _ _ Ei) as [Ei'| ->].
  - destruct (fo_index _ Hok _ _ Ei') as (it & E & _). rewrite Hw by (by exists it).
    destruct (Hh i p Ei') as (h0 & Eh & Hle). etrans; [exact Hle|by apply Hold].
  - destruct (fo_index _ P1 _ _ Ei) as (it & E & Eid). pose proof (fo_item _ P1 _ _ E) as (En & Ei' & _).
    rewrite (item_num_Some _ _ _ E), En. rewrite Ei' in Eid. injection Eid as Eid _. lia.
Qed.

End fork_database.

Arguments fork_item : clear implicits.
Arguments fork_database : clear implicits.

(** ** Concrete runs *)

(** Blocks whose hash is a digest of their members. *)
#[local] Instance sample_hash : BlockHash Z := λ b,
  1000 * timestamp b + 10 * witness b + Z.of_nat (length (transactions b)).

(** A root, two blocks on it and a competing block. *)
Definition sample_b1 : signed_block Z := SignedBlock null_id 3 1 [].
Definition sample_b2 : signed_block Z := SignedBlock (block_id sample_b1) 6 2 [5].
Definition sample_b3 : signed_block Z := SignedBlock (block_id sample_b2) 9 3 [].
Definition sample_c2 : signed_block Z := SignedBlock (block_id sample_b1) 12 4 [].

Definition sample_push (b : signed_block Z) (f : fork_database Z) : fork_database Z :=
  match push_block b f with Ok (f, _) => f | Err _ => f end.

Definition sample_fork : fork_database Z :=
  sample_push sample_c2 (sample_push sample_b2 (start_block sample_b1 empty_fork_db)).

Lemma fork_ok_empty `{BlockHash Tx} : fork_ok (Tx := Tx) empty_fork_db.
Proof. by split; intros *; rewrite ?lookup_empty. Qed.

Lemma fork_ok_start `{BlockHash Tx} b (f : fork_database Tx) : fork_ok f → fork_ok (start_block b f).
Proof.
  intros Hok. pose proof (fork_ok_new None b f Hok ltac:(done)) as Hn. unfold start_block.
  destruct (new_item None b f) as [f1 p]. destruct Hn as (H1 & H2 & _). apply fork_ok_head; [done|by eexists].
Qed.

Lemma sample_fork_ok : fork_ok sample_fork.
Proof.
  assert (∀ b f, fork_ok f → 0 ≤ fork_max_size f → fork_ok (sample_push b f)) as Hpush.
  { intros b f Hok Hm. unfold sample_push. destruct (push_block b f) as [[f' h]|] eqn:E; [|done].
    by destruct (push_block_pushed _ _ _ _ Hok Hm E). }
  unfold sample_fork. repeat (apply Hpush; [|by vm_compute]). apply fork_ok_start, fork_ok_empty.
Qed.

Lemma sample_highest : highest sample_fork.
Proof.
  assert (map_Forall (λ _ p, item_num sample_fork p ≤ item_num sample_fork 1) (fork_index sample_fork)) as Hm
    by (apply map_Forall_to_list; vm_compute; repeat constructor; discriminate).
  intros i p Hi. exists 1. split; [by vm_compute|exact (Hm _ _ Hi)].
Qed.

Lemma fetch_branch_correct_witness :
  fetch_branch_from sample_fork (block_id sample_b2) (block_id sample_c2) = Ok ([1], [2]) ∧
  prev_id sample_fork 1 = block_id sample_b1.
Proof.
  assert (parent sample_fork 1 0) as P1 by (eexists; by vm_compute).
  assert (parent sample_fork 2 0) as P2 by (eexists; by vm_compute).
  destruct (fetch_branch_correct sample_fork (block_id sample_b2) (block_id sample_c2) 1 2 [1] [2] 0)
    as (l1 & l2 & x & y & E & _ & _ & Hs & _);
    [exact sample_fork_ok | by vm_compute | by vm_compute
    | econstructor; [exact P1|constructor] | econstructor; [exact P2|constructor] |].
  split; [|by vm_compute]. rewrite E. vm_compute in E. symmetry. exact E.
Defined.

Lemma push_block_longest_witness : ∃ f' h,
  push_block sample_b3 sample_fork = Ok (f', h) ∧ highest f' ∧ item_num f' h = 3.
Proof.
  eexists _, _. split; [vm_compute; reflexivity|].
  edestruct (push_block_longest sample_b3 sample_fork) as (_ & Hh & _);
    [exact sample_fork_ok | exact sample_highest | by vm_compute | vm_compute; reflexivity |].
  split; [exact Hh|by vm_compute].
Defined.
