(* ===== verification/ForkSwitch.v ===== *)
(** * Pushing a block

    [database::_push_block] and [database::pop_block] of libraries/chain/db_block.cpp: adding a
    block to the fork database (ForkDb) and applying it in an undo session (UndoDb), or switching
    to a longer fork and back if a block of it is invalid.

    What applying a block does to the objects is behind the interface [BlockApplication], split
    where [update_global_dynamic_data] sets the sizes of the two histories, so the theorems hold
    for any block application with its laws.  Pending transactions are put aside before
    [_push_block] runs ([without_pending_transactions]), so no pending session is open. *)
From S2P Require Import Prelude ForkDb UndoDb.

(** [apply_before] is what [apply_block] does up to the point where
    [update_global_dynamic_data] has made the block the head and checked the undo history, and
    [apply_after] what it does after setting the sizes of the histories; each gives the object
    database afterwards, also when it throws, and the result. *)
Class BlockApplication (V Tx : Type) := {
  apply_before : signed_block Tx → object_database V → object_database V * result unit;
  apply_after : signed_block Tx → object_database V → object_database V * result unit;
  head_block_id : world V → block_id_type;
  last_irreversible_block_num : world V → Z;
  block_interval : world V → Z;
  upcoming : world V → Z * Z * list (Z * Z);
  signed_by : signed_block Tx → Z → bool }.

Section node.
Context {V Tx : Type} {keys : UniqueKeys V} `{BlockHash Tx} `{BlockApplication V Tx}.
Implicit Types (b : signed_block Tx) (o : object_database V) (w : world V).

(** The members of [class database] involved: the fork database, the objects, the block log by
    number ([_block_id_to_block]) and [_popped_tx]. *)
Record node := Node {
  nd_fork : fork_database Tx;
  nd_odb : object_database V;
  nd_log : gmap Z (block_id_type * signed_block Tx);
  nd_popped : list Tx }.
Implicit Types n : node.

Definition with_fork n f := Node f (nd_odb n) (nd_log n) (nd_popped n).

Definition node_head_id n : block_id_type := head_block_id (db (nd_odb n)).

(** [head_block_num()]; the number and the id of the head block are set together. *)
Definition node_head_num n : Z := num_from_id (node_head_id n).

Definition item_data n (p : Z) : result (signed_block Tx) :=
  it ← deref (nd_fork n) p; Ok (fi_data it).

(** ** Applying one block in a session *)

(** [_dgp.head_block_number - _dgp.last_irreversible_block_num + 1], in 32 bits; the head is the
    block being applied. *)
Definition history_size b w : Z :=
  (block_num b - last_irreversible_block_num w + 1) mod 2 ^ 32.

(** [apply_block b o]: the object database afterwards, the size passed to
    [_fork_db.set_max_size] if it came that far, and the result. *)
Definition apply_block b o : object_database V * option Z * result unit :=
  match apply_before b o with
  | (o, Err e) => (o, None, Err e)
  | (o, Ok _) =>
    let s := history_size b (db o) in
    let '(o, r) := apply_after b (resize (Z.to_nat s) o) in (o, Some s, r)
  end.

Definition block_work b o : object_database V * result unit :=
  let '(o, _, r) := apply_block b o in (o, r).

Definition fork_size b o : option Z := (apply_block b (session_start o)).1.2.

Definition resized (s : option Z) (f : fork_database Tx) : fork_database Tx :=
  match s with Some s => set_max_size s f | None => f end.

(** [{ auto session = _undo_db.start_undo_session(); apply_block(b); ...; session.commit(); }]. *)
Definition run_block b n : option (node * result unit) :=
  '(o, r) ← push_block_session (block_work b) (nd_odb n);
  Some (Node (resized (fork_size b (nd_odb n)) (nd_fork n)) o (nd_log n) (nd_popped n), r).

Definition store b n : node :=
  Node (nd_fork n) (nd_odb n) (<[num_from_id (block_id b) := (block_id b, b)]> (nd_log n)) (nd_popped n).

Definition update_witnesses (p : Z) n : node :=
  match items (nd_fork n) !! p with
  | None => n
  | Some it =>
    if bool_decide (is_Some (fi_scheduled_witnesses it)) then n
    else
      let '(aslot, time, wits) := upcoming (db (nd_odb n)) in
      let f := nd_fork n in
      with_fork n (ForkDatabase
        (<[p := ForkItem (fi_prev it) (fi_num it) (fi_id it) (fi_data it) (Some wits) (aslot + 1) time]>
           (items f)) (next_address f) (fork_index f) (fork_head f) (fork_max_size f))
  end.

Definition verify_signing_witness b (it : fork_item Tx) w : result unit :=
  FC_ASSERT (fi_next_block_time it <=? timestamp b) "new_block.timestamp >= fork_entry.next_block_time";;
  let slot_num := (timestamp b - fi_next_block_time it) / block_interval w in
  let wits := default [] (fi_scheduled_witnesses it) in
  match wits !! Z.to_nat ((fi_next_block_aslot it + slot_num) mod Z.of_nat (length wits)) with
  | None => Err (fc_throw "undefined behaviour")
  | Some (wit, key) =>
    FC_ASSERT (witness b =? wit) "Witness produced block at wrong time";;
    FC_ASSERT (signed_by b key) "new_block.validate_signee( scheduled_witness.second )"
  end.

(** ** Popping *)

Definition pop_block (held : list Z) n : node * result unit :=
  match fork_head (nd_fork n) with
  | None => (n, Err (assert_exception "Trying to pop() from empty fork database!?"))
  | Some h =>
    let popped :=
      it ← deref (nd_fork n) h;
      if bool_decide (fi_id it = node_head_id n) then
        f ← fork_pop_block held (nd_fork n); Ok (f, it)
      else match fetch_block (nd_fork n) (node_head_id n) with
           | None => Err (assert_exception "Trying to pop() block that's not in fork database!?")
           | Some p => it ← deref (nd_fork n) p; Ok (nd_fork n, it)
           end in
    match popped with
    | Err e => (n, Err e)
    | Ok (f, it) =>
      match pop_commit (nd_odb n) with
      | Err e => (with_fork n f, Err e)
      | Ok o => (Node f o (nd_log n) (transactions (fi_data it) ++ nd_popped n), Ok ())
      end
    end
  end.

(** [while( head_block_id() != target ) pop_block();]; every pop takes a state off the undo
    stack, and fails when there is none. *)
Fixpoint pop_until (fuel : nat) (held : list Z) (target : block_id_type) n : node * result unit :=
  if bool_decide (node_head_id n = target) then (n, Ok ())
  else match fuel with
       | O => (n, out_of_fuel)
       | S fuel =>
         match pop_block held n with
         | (n, Ok _) => pop_until fuel held target n
         | (n, Err e) => (n, Err e)
         end
       end.

Definition pop_fuel n : nat := S (length (stack (undo_db (nd_odb n)))).

(** ** Switching forks *)

(** Pushes the blocks of a branch, oldest first; on an exception the rest of the branch,
    starting with the block that failed. *)
Fixpoint push_branch (l : list Z) n : option (node * result unit * list Z) :=
  match l with
  | [] => Some (n, Ok (), [])
  | p :: rest =>
    match item_data n p with
    | Err e => Some (n, Err e, p :: rest)
    | Ok b =>
      '(n, r) ← run_block b n;
      match r with
      | Ok _ => push_branch rest (store b (update_witnesses p n))
      | Err e => Some (n, Err e, p :: rest)
      end
    end
  end.

Fixpoint remove_all (held l : list Z) n : node :=
  match l with
  | [] => n
  | p :: rest =>
    remove_all held rest
      match items (nd_fork n) !! p with
      | Some it => with_fork n (fork_remove held (fi_id it) (nd_fork n))
      | None => n
      end
  end.

(** Restores the blocks of the good fork, oldest first. *)
Fixpoint restore_branch (l : list Z) n : option (node * result unit) :=
  match l with
  | [] => Some (n, Ok ())
  | p :: rest =>
    match item_data n p with
    | Err e => Some (n, Err e)
    | Ok b =>
      '(n, r) ← run_block b n;
      match r with
      | Ok _ => restore_branch rest (store b n)
      | Err e => Some (n, Err e)
      end
    end
  end.

(** The block both branches end above: [branches.second.back()->data.previous]. *)
Definition branch_base (l : list Z) n : result block_id_type :=
  match last l with
  | Some y => b ← item_data n y; Ok (previous b)
  | None => Err (fc_throw "undefined behaviour")
  end.

(** After an exception: the invalid blocks leave the fork database, the rest of the bad fork is
    popped and the good one restored. *)
Definition switch_back (held : list Z) (bad : list Z) (second : list Z) (base : block_id_type)
    (e : fc_exception) n : option (node * result bool) :=
  let n := remove_all held bad n in
  match second with
  | [] => Some (n, Err (fc_throw "undefined behaviour"))
  | q :: _ =>
    let n := with_fork n (set_head q (nd_fork n)) in
    match pop_until (pop_fuel n) held base n with
    | (n, Err e') => Some (n, Err e')
    | (n, Ok _) =>
      '(n, r) ← restore_branch (reverse second) n;
      match r with
      | Err e' => Some (n, Err e')
      | Ok _ => Some (n, Err e)
      end
    end
  end.

Definition switch_fork (first second : list Z) n : option (node * result bool) :=
  let held := first ++ second in
  match branch_base second n with
  | Err e => Some (n, Err e)
  | Ok base =>
    match pop_until (pop_fuel n) held base n with
    | (n, Err e) => Some (n, Err e)
    | (n, Ok _) =>
      '(n, r, bad) ← push_branch (reverse first) n;
      match r with
      | Ok _ => Some (n, Ok true)
      | Err e => switch_back held bad second base e n
      end
    end
  end.

(** The check of the signer of a recent block; [now] is the wall clock in seconds. *)
Definition check_signer (skip_verify : bool) (now : Z) b n : result unit :=
  if bool_decide (is_Some (fork_head (nd_fork n))) && ((now - 86400) mod 2 ^ 32 <? timestamp b) then
    match fetch_block (nd_fork n) (previous b) with
    | None => Err (graphene_exception "unlinkable_block_exception")
    | Some p =>
      it ← deref (nd_fork n) p;
      if bool_decide (is_Some (fi_scheduled_witnesses it)) && negb skip_verify
      then verify_signing_witness b it (db (nd_odb n)) else Ok ()
    end
  else Ok ().

Definition _push_block (skip_verify : bool) (now : Z) b n : option (node * result bool) :=
  match check_signer skip_verify now b n with
  | Err e => Some (n, Err e)
  | Ok _ =>
    match ForkDb.push_block b (nd_fork n) with
    | Err e => Some (n, Err e)
    | Ok (f, new_head) =>
      let n := with_fork n f in
      match items f !! new_head with
      | None => Some (n, Err (fc_throw "dangling pointer"))
      | Some it =>
        if negb (bool_decide (previous (fi_data it) = node_head_id n)) then
          if node_head_num n <? block_num (fi_data it) then
            match fetch_branch_from f (block_id (fi_data it)) (node_head_id n) with
            | Err e => Some (n, Err e)
            | Ok (first, second) => switch_fork first second n
            end
          else Some (n, Ok false)
        else
          '(n, r) ← run_block b n;
          match r with
          | Ok _ =>
            let n := if (now - 86400) mod 2 ^ 32 <? timestamp b then update_witnesses new_head n else n in
            Some (store b n, Ok false)
          | Err e => Some (with_fork n (fork_remove [new_head] (block_id b) (nd_fork n)), Err e)
          end
      end
    end
  end.

End node.

Arguments node : clear implicits.

(** What is promised of applying a block: it reaches the objects only through recorded changes
    and nested scopes; its outcome depends only on the objects; it succeeds only on top of the
    block it names, becoming the head; and the last irreversible block is updated after the sizes
    of the histories. *)
Class BlockApplicationLaws (V Tx : Type) `{UniqueKeys V} `{BlockHash Tx} `{BlockApplication V Tx} := {
  before_evaluates (b : signed_block Tx) : evaluates (apply_before (V := V) b);
  after_evaluates (b : signed_block Tx) : evaluates (apply_after (V := V) b);
  before_reads (b : signed_block Tx) (o1 o2 : object_database V) :
    db o1 = db o2 → (apply_before b o1).2 = (apply_before b o2).2 ∧
      db (apply_before b o1).1 = db (apply_before b o2).1;
  after_reads (b : signed_block Tx) (o1 o2 : object_database V) :
    db o1 = db o2 → (apply_after b o1).2 = (apply_after b o2).2 ∧
      db (apply_after b o1).1 = db (apply_after b o2).1;
  apply_head (b : signed_block Tx) (o o' : object_database V) : block_work b o = (o', Ok ()) →
    head_block_id (db o) = previous b ∧ head_block_id (db o') = block_id b;
  before_irreversible (b : signed_block Tx) (o o' : object_database V) :
    apply_before b o = (o', Ok ()) →
    last_irreversible_block_num (db o') = last_irreversible_block_num (db o) }.

Section switching.
Context {V Tx : Type} {keys : UniqueKeys V} `{!BlockHash Tx} `{!BlockApplication V Tx}
  `{!BlockApplicationLaws V Tx}.
Implicit Types (b : signed_block Tx) (bs : list (signed_block Tx)) (o : object_database V)
  (w cur : world V) (snaps : list (world V)) (n : node V Tx) (f g : fork_database Tx).

(** The two ways in which applying a block can go. *)
Lemma block_cases b o :
  (∃ o1 e, apply_before b o = (o1, Err e) ∧ block_work b o = (o1, Err e) ∧
    (apply_block b o).1.2 = None) ∨
  (∃ o1, apply_before b o = (o1, Ok ()) ∧
    block_work b o = apply_after b (resize (Z.to_nat (history_size b (db o))) o1) ∧
    (apply_block b o).1.2 = Some (history_size b (db o))).
Proof.
  unfold block_work, apply_block. destruct (apply_before b o) as [o1 [[]|e]] eqn:E; [right|left; eauto 6].
  exists o1. unfold history_size. rewrite (before_irreversible _ _ _ E).
  destruct (apply_after b _); done.
Qed.

Lemma apply_applies b : applies (block_work (V := V) b).
Proof.
  intros o. destruct (block_cases b o) as [(o1 & e & E & -> & _)|(o1 & E & -> & _)]; exists o1;
    (split; [pose proof (before_evaluates b o) as Hb; by rewrite E in Hb|]); [by left|].
  right. eexists. apply after_evaluates.
Qed.

Lemma apply_reads b o1 o2 :
  db o1 = db o2 → (block_work b o1).2 = (block_work b o2).2 ∧
    db (block_work b o1).1 = db (block_work b o2).1.
Proof.
  intros Edb. destruct (before_reads b o1 o2 Edb) as [E1 E2].
  destruct (block_cases b o1) as [(o1' & e1 & F1 & -> & _)|(o1' & F1 & -> & _)];
    destruct (block_cases b o2) as [(o2' & e2 & F2 & -> & _)|(o2' & F2 & -> & _)];
    rewrite F1, F2 in E1, E2; simpl in *; simplify_eq; [done|].
  apply after_reads. simpl. done.
Qed.

(** Applying a block that leaves room for [k] states of history. *)
Lemma block_work_room k b o cur c snaps m :
  represents o cur (c :: snaps) m → 0 < m → (k ≤ max_size (undo_db o))%nat →
  Z.of_nat k ≤ history_size b cur → (k ≤ max_size (undo_db (block_work b o).1))%nat.
Proof.
  intros Hr Hm Hk Hs.
  destruct (mutates_represents _ _ (before_evaluates b o) _ _ _ _ Hr Hm) as (c1 & Hr1 & Hle).
  destruct (block_cases b o) as [(o1 & e & E & -> & _)|(o1 & E & -> & _)]; rewrite E in Hr1, Hle; simpl in *; [lia|].
  destruct (mutates_represents _ _ (after_evaluates b _) _ _ _ _
    (resize_represents (Z.to_nat (history_size b (db o))) _ _ _ _ Hr1) Hm) as (c2 & _ & Hle2).
  simpl in Hle2. rewrite (repr_db _ _ _ _ Hr) in *. lia.
Qed.

(** [b] takes the objects from [w] to [w']. *)
Definition applied b w w' : Prop :=
  ∃ o o', db o = w ∧ db o' = w' ∧ block_work b o = (o', Ok ()).

Lemma applied_run b w w' o :
  applied b w w' → db o = w → (block_work b o).2 = Ok () ∧ db (block_work b o).1 = w'.
Proof.
  intros (o1 & o1' & E1 & E2 & Ew) Eo. destruct (apply_reads b o o1) as [-> ->]; [congruence|].
  by rewrite Ew.
Qed.

(** [built bs cur snaps w0 s0]: the blocks [bs], latest first, were applied above the state [w0]
    with history [s0], giving [cur] and [snaps]. *)
Inductive built : list (signed_block Tx) → world V → list (world V) → world V → list (world V) → Prop :=
  | built_nil w s : built [] w s w s
  | built_cons b bs w w1 s w0 s0 :
      applied b w1 w → built bs w1 s w0 s0 → built (b :: bs) w (w1 :: s) w0 s0.

Lemma built_take k bs w s w0 s0 :
  built bs w s w0 s0 → (length bs ≤ k)%nat → built bs w (take k s) w0 (take (k - length bs) s0).
Proof.
  intros Hb. revert k. induction Hb as [w s|b bs w w1 s w0 s0 Ha Hb IH]; intros k Hk; simpl in *.
  - rewrite Nat.sub_0_r. constructor.
  - destruct k as [|k]; [lia|]. simpl. constructor; [done|]. apply IH. lia.
Qed.

Lemma built_length bs w s w0 s0 : built bs w s w0 s0 → (length bs ≤ length s)%nat.
Proof. induction 1; simpl; lia. Qed.

(** *** One block *)

Section window.
(** The number of states the histories have to keep. *)
Variable W : nat.

(** Applying [b] above [w] keeps the histories that deep. *)
Definition roomy b w : Prop := Z.of_nat W ≤ history_size b w.

Lemma run_block_ok b n cur snaps :
  represents (nd_odb n) cur snaps 0 → (W ≤ max_size (undo_db (nd_odb n)))%nat → roomy b cur →
  ∃ o r, run_block b n =
      Some (Node (resized (fork_size b (nd_odb n)) (nd_fork n)) o (nd_log n) (nd_popped n), r) ∧
    (W ≤ max_size (undo_db o))%nat ∧
    match r with
    | Err _ => represents o cur (take (max_size (undo_db (nd_odb n))) snaps) 0
    | Ok _ => ∃ cur', applied b cur cur' ∧
        represents o cur' (cur :: take (max_size (undo_db (nd_odb n))) snaps) 0
    end ∧
    ∀ cur', applied b cur cur' → r = Ok () ∧ db o = cur'.
Proof.
  intros Hr Hroom Hwide. destruct (push_block_represents (block_work b) _ _ _ (apply_applies b) Hr)
    as (o & r & E & Er & Em & Hrep).
  exists o, r. unfold run_block. rewrite E. simpl. rewrite Em.
  assert (db (session_start (nd_odb n)) = cur) as Ecur by (apply (repr_db _ _ _ _ Hr)).
  split_and!; [done| | |].
  { unfold session_start. destruct (start_undo_session false _) as [u ses] eqn:Es. simpl.
    destruct (start_represents _ _ _ _ _ _ _ Hr Es) as (Hrs & Hm & _).
    eapply block_work_room; [exact Hrs|lia|simpl; lia|done]. }
  - destruct r as [[]|e]; [|done]. eexists. split; [|exact Hrep].
    exists (session_start (nd_odb n)), (block_work b (session_start (nd_odb n))).1.
    split_and!; [done|done|]. rewrite Er. apply surjective_pairing.
  - intros cur' Ha. destruct (applied_run _ _ _ _ Ha Ecur) as [E1 E2].
    rewrite E1 in Er. subst r. split; [done|]. rewrite <- E2. apply Hrep.
Qed.

(** *** The fork database while blocks are applied *)

(** [g] holds the same blocks as [f], and its index at least those from number [T] on. *)
Definition core (it : fork_item Tx) := (fi_prev it, fi_num it, fi_id it, fi_data it).

Record pruned (T : Z) f g : Prop := {
  pr_items p : core <$> items g !! p = core <$> items f !! p;
  pr_head : fork_head g = fork_head f;
  pr_sub : fork_index g ⊆ fork_index f;
  pr_keep i p : fork_index f !! i = Some p → T ≤ item_num f p → fork_index g !! i = Some p }.

Lemma core_num f g p : core <$> items g !! p = core <$> items f !! p → item_num g p = item_num f p.
Proof.
  unfold item_num. destruct (items g !! p), (items f !! p); simpl; try done.
  unfold core. by intros [= _ -> _ _].
Qed.

#[export] Instance pruned_preorder T : PreOrder (pruned T).
Proof.
  split; [intros f; split; done|].
  intros f g k [A1 A2 A3 A4] [B1 B2 B3 B4]. split.
  - intros p. by rewrite B1.
  - congruence.
  - by etrans.
  - intros i p Hi Hp. apply B4; [by apply A4|]. by rewrite (core_num f g).
Qed.

Lemma fork_size_Some b o s : fork_size b o = Some s → s = history_size b (db o).
Proof.
  unfold fork_size. destruct (block_cases b (session_start o)) as [(o1 & e & _ & _ & ->)|(o1 & _ & _ & ->)];
    [done|]. by intros [= <-].
Qed.

Lemma resized_pruned T b o f h :
  fork_head f = Some h → Z.max 0 (item_num f h - Z.of_nat W) ≤ T → roomy b (db o) →
  pruned T f (resized (fork_size b o) f).
Proof.
  intros Hh HT Hwide. unfold resized. destruct (fork_size b o) as [s|] eqn:Es; [|reflexivity].
  apply fork_size_Some in Es as ->. unfold roomy in Hwide. unfold set_max_size. simpl. rewrite Hh. split; simpl; try done.
  - apply map_filter_subseteq.
  - intros i p Hi Hp. apply map_lookup_filter_Some. split; [done|]. simpl.
    unfold item_num in *. simpl. lia.
Qed.

(** Resizing only takes blocks out of the index. *)
Lemma resized_frame sz f :
  items (resized sz f) = items f ∧ fork_head (resized sz f) = fork_head f ∧
  fork_index (resized sz f) ⊆ fork_index f.
Proof.
  unfold resized. destruct sz as [s|]; [|done]. unfold set_max_size. simpl.
  destruct (fork_head f); simpl; split_and!; try done. apply map_filter_subseteq.
Qed.

Lemma update_witnesses_pruned T p n :
  pruned T (nd_fork n) (nd_fork (update_witnesses p n)).
Proof.
  unfold update_witnesses. destruct (items (nd_fork n) !! p) as [it|] eqn:E; [|reflexivity].
  case_bool_decide; [reflexivity|]. destruct (upcoming _) as [[aslot time] wits]. split; simpl; try done.
  intros q. destruct (decide (q = p)) as [->|].
  - by rewrite lookup_insert_eq, E.
  - by rewrite lookup_insert_ne.
Qed.

Lemma update_witnesses_odb p n : nd_odb (update_witnesses p n) = nd_odb n.
Proof.
  unfold update_witnesses. destruct (items (nd_fork n) !! p); [|done].
  case_bool_decide; [done|]. by destruct (upcoming _) as [[? ?] ?].
Qed.

(** The blocks at addresses [l]. *)
Definition blocks_at f (l : list Z) bs : Prop :=
  Forall2 (λ p b, ∃ it, items f !! p = Some it ∧ fi_data it = b) l bs.

Lemma core_data f g p b :
  core <$> items g !! p = core <$> items f !! p →
  (∃ it, items f !! p = Some it ∧ fi_data it = b) → ∃ it, items g !! p = Some it ∧ fi_data it = b.
Proof.
  intros E (it & Ei & Ed). rewrite Ei in E. destruct (items g !! p) as [it'|]; [|done].
  exists it'. split; [done|]. injection E as _ _ _ ->. done.
Qed.

Lemma blocks_at_core f g l bs :
  (∀ p, core <$> items g !! p = core <$> items f !! p) → blocks_at f l bs → blocks_at g l bs.
Proof. intros E Hf. eapply Forall2_impl; [exact Hf|]. intros p b. by apply core_data. Qed.

Lemma item_data_Ok n p b :
  (∃ it, items (nd_fork n) !! p = Some it ∧ fi_data it = b) → item_data n p = Ok b.
Proof. intros (it & E & <-). unfold item_data, deref. by rewrite E. Qed.

(** *** Pushing a branch *)

(** However far the blocks [news] have been applied on top of [bs], the next one is [roomy]. *)
Definition steady w0 bs news : Prop := ∀ pre b post cur snaps s0,
  news = pre ++ b :: post → built (reverse pre ++ bs) cur snaps w0 s0 → roomy b cur.

Lemma steady_cons w0 bs b news cur snaps s0 :
  steady w0 bs (b :: news) → built bs cur snaps w0 s0 → roomy b cur ∧ steady w0 (b :: bs) news.
Proof.
  intros Hs Hb. split; [by apply (Hs [] b news cur snaps s0)|].
  intros pre c post cur' snaps' s' -> Hb'. apply (Hs (b :: pre) c post cur' snaps' s'); [done|].
  rewrite reverse_cons, <- app_assoc. exact Hb'.
Qed.

Lemma push_branch_ok T h l news n bs cur snaps w0 s0 :
  blocks_at (nd_fork n) l news → fork_head (nd_fork n) = Some h →
  Z.max 0 (item_num (nd_fork n) h - Z.of_nat W) ≤ T →
  represents (nd_odb n) cur snaps 0 → built bs cur snaps w0 s0 → steady w0 bs news →
  (length bs + length l ≤ W)%nat → (W ≤ max_size (undo_db (nd_odb n)))%nat →
  ∃ n' r bad done cur' snaps' s0', push_branch l n = Some (n', r, bad) ∧
    pruned T (nd_fork n) (nd_fork n') ∧ (W ≤ max_size (undo_db (nd_odb n')))%nat ∧
    represents (nd_odb n') cur' snaps' 0 ∧ built (done ++ bs) cur' snaps' w0 s0' ∧
    match r with
    | Ok _ => done = reverse news
    | Err _ => ∃ good b rest, l = good ++ bad ∧ news = reverse done ++ b :: rest ∧
        blocks_at (nd_fork n) good (reverse done) ∧ blocks_at (nd_fork n) bad (b :: rest)
    end.
Proof.
  intros Hl. remember (nd_fork n) as f eqn:Ef. assert (pruned T f (nd_fork n)) as Hpr by (rewrite Ef; reflexivity).
  clear Ef. revert n bs cur snaps s0 Hpr.
  induction Hl as [|p b l news Hp Hl IH]; intros n bs cur snaps s0 Hpr Hh HT Hr Hb Hst Hlen Hm; simpl.
  { eexists _, _, _, [], _, _, _. split_and!; [done|done|done|exact Hr|exact Hb|done]. }
  rewrite (item_data_Ok n p b) by (by eapply core_data; [apply (pr_items _ _ _ Hpr)|]).
  destruct (steady_cons _ _ _ _ _ _ _ Hst Hb) as [Hwide Hst'].
  destruct (run_block_ok b n cur snaps Hr Hm Hwide) as (o & r & -> & Hm' & Hrep & _). simpl.
  set (n1 := Node (resized _ _) o (nd_log n) (nd_popped n)).
  assert (pruned T f (nd_fork n1)) as Hpr1.
  { etrans; [exact Hpr|]. simpl. apply (resized_pruned T b (nd_odb n) (nd_fork n) h).
    - by rewrite (pr_head _ _ _ Hpr).
    - by rewrite (core_num f) by apply (pr_items _ _ _ Hpr).
    - by rewrite (repr_db _ _ _ _ Hr). }
  simpl in Hlen. destruct r as [[]|e].
  - destruct Hrep as (cur' & Ha & Hrep).
    destruct (IH (store b (update_witnesses p n1)) (b :: bs) cur' (cur :: take (max_size (undo_db (nd_odb n))) snaps)
      (take (max_size (undo_db (nd_odb n)) - length bs) s0))
      as (n' & r & bad & done & cur2 & snaps2 & s2 & E & Hpr2 & Hm2 & Hr2 & Hb2 & Hres).
    { etrans; [exact Hpr1|apply update_witnesses_pruned]. }
    { done. }
    { done. }
    { simpl. rewrite update_witnesses_odb. exact Hrep. }
    { constructor; [exact Ha|]. apply (built_take _ _ _ _ _ _ Hb). lia. }
    { exact Hst'. }
    { simpl. lia. }
    { simpl. by rewrite update_witnesses_odb. }
    exists n', r, bad, (done ++ [b]), cur2, snaps2, s2. rewrite <- app_assoc. simpl.
    split_and!; try done. destruct r as [[]|e].
    + by rewrite reverse_cons, Hres.
    + destruct Hres as (good & b' & rest & -> & -> & Hg & Hbad).
      exists (p :: good), b', rest. rewrite reverse_app. simpl. split_and!; try done. by constructor.
  - eexists n1, _, _, [], cur, _, _. split_and!; [done|done|done|exact Hrep|simpl|].
    + apply (built_take _ _ _ _ _ _ Hb). lia.
    + exists [], b, news. split_and!; try done; by constructor.
Qed.

(** *** Popping blocks *)

Lemma pop_until_ok fuel held n bs cur snaps w0 s0 :
  represents (nd_odb n) cur snaps 0 → built bs cur snaps w0 s0 → (length bs < fuel)%nat →
  (∃ h it, fork_head (nd_fork n) = Some h ∧ items (nd_fork n) !! h = Some it ∧
     Forall (λ b, fi_id it ≠ block_id b) bs) →
  Forall (λ b, ∃ p it, fork_index (nd_fork n) !! block_id b = Some p ∧ items (nd_fork n) !! p = Some it) bs →
  Forall (λ b, block_id b ≠ head_block_id w0) bs →
  ∃ o popped, pop_until fuel held (head_block_id w0) n = (Node (nd_fork n) o (nd_log n) popped, Ok ()) ∧
    represents o w0 s0 0 ∧ max_size (undo_db o) = max_size (undo_db (nd_odb n)).
Proof.
  intros Hr Hb Hfuel (h & it & Hh & Hit & Hne) Hk Ht. revert fuel n Hr Hh Hit Hfuel Hk.
  induction Hb as [w s|b bs w w1 s w0 s0 Ha Hb IH]; intros fuel n Hr Hh Hit Hfuel Hk.
  - exists (nd_odb n), (nd_popped n). destruct fuel; [lia|]. simpl. unfold node_head_id.
    rewrite (repr_db _ _ _ _ Hr), bool_decide_eq_true_2 by done. destruct n; done.
  - destruct fuel as [|fuel]; [simpl in Hfuel; lia|]. cbn [pop_until].
    assert (node_head_id n = block_id b) as Ehead.
    { unfold node_head_id. rewrite (repr_db _ _ _ _ Hr). destruct Ha as (o1 & o2 & _ & <- & Ew).
      by destruct (apply_head _ _ _ Ew). }
    apply Forall_cons in Hne as [Hne Hnes]. apply Forall_cons in Ht as [Ht Hts].
    apply Forall_cons in Hk as [(p & itp & Hp & Hitp) Hks].
    rewrite bool_decide_eq_false_2 by congruence.
    destruct (pop_represents _ _ _ _ Hr) as (o' & Ep & Hr' & Hm').
    assert (pop_block held n =
      (Node (nd_fork n) o' (nd_log n) (transactions (fi_data itp) ++ nd_popped n), Ok ())) as ->.
    { unfold pop_block, deref, fetch_block. rewrite Hh, Hit. simpl.
      rewrite bool_decide_eq_false_2 by congruence. rewrite Ehead, Hp. simpl. by rewrite Hitp, Ep. }
    destruct (IH Hnes Hts fuel (Node (nd_fork n) o' (nd_log n) (transactions (fi_data itp) ++ nd_popped n)))
      as (o & popped & E & Hro & Hmo); try done; [simpl in *; lia|].
    exists o, popped. split_and!; [done|done|]. simpl in *. congruence.
Qed.

(** *** Restoring a branch *)

(** Blocks, oldest first, that lead from [w] to [w']. *)
Fixpoint leads bs w w' : Prop :=
  match bs with
  | [] => w = w'
  | b :: bs => ∃ w1, applied b w w1 ∧ leads bs w1 w'
  end.

Lemma leads_snoc bs b w w1 w' : leads bs w w1 → applied b w1 w' → leads (bs ++ [b]) w w'.
Proof.
  revert w. induction bs as [|b' bs IH]; intros w Hl Ha; simpl in *.
  - subst. by exists w'.
  - destruct Hl as (w2 & Ha' & Hl). exists w2. split; [done|by apply IH].
Qed.

Lemma built_leads bs cur snaps w0 s0 : built bs cur snaps w0 s0 → leads (reverse bs) w0 cur.
Proof.
  induction 1 as [w s|b bs w w1 s w0 s0 Ha Hb IH]; [done|]. rewrite reverse_cons.
  by eapply leads_snoc.
Qed.

Lemma restore_branch_ok l bs n done cur w' snaps w0 s0 :
  blocks_at (nd_fork n) l bs → leads bs cur w' →
  represents (nd_odb n) cur snaps 0 → built done cur snaps w0 s0 → steady w0 done bs →
  (length done + length l ≤ W)%nat → (W ≤ max_size (undo_db (nd_odb n)))%nat →
  ∃ n' snaps' s0', restore_branch l n = Some (n', Ok ()) ∧ represents (nd_odb n') w' snaps' 0 ∧
    built (reverse bs ++ done) w' snaps' w0 s0' ∧ fork_head (nd_fork n') = fork_head (nd_fork n) ∧
    fork_index (nd_fork n') ⊆ fork_index (nd_fork n).
Proof.
  intros Hl. remember (nd_fork n) as f eqn:Ef.
  assert ((∀ p, core <$> items (nd_fork n) !! p = core <$> items f !! p) ∧
    fork_head (nd_fork n) = fork_head f ∧ fork_index (nd_fork n) ⊆ fork_index f) as Hs by (subst; by split_and!).
  clear Ef. revert n done cur snaps s0 Hs.
  induction Hl as [|p b l bs Hp Hl IH]; intros n done cur snaps s0 (Hi & Hh & Hx) Hlead Hr Hb Hst Hlen Hm; simpl in *.
  { subst w'. eexists _, _, _. split_and!; [done|exact Hr|exact Hb|done|done]. }
  rewrite (item_data_Ok n p b) by (apply (core_data f (nd_fork n)); [apply Hi|exact Hp]).
  destruct Hlead as (w1 & Ha & Hlead).
  destruct (steady_cons _ _ _ _ _ _ _ Hst Hb) as [Hwide Hst'].
  destruct (run_block_ok b n cur snaps Hr Hm Hwide) as (o & r & -> & Hm' & Hrep & Hdet). simpl.
  destruct (Hdet _ Ha) as [-> Eo]. destruct Hrep as (cur' & Ha' & Hrep).
  assert (cur' = w1) as -> by (rewrite <- Eo; symmetry; apply Hrep).
  destruct (IH (store b (Node (resized (fork_size b (nd_odb n)) (nd_fork n)) o (nd_log n) (nd_popped n)))
    (b :: done) w1 (cur :: take (max_size (undo_db (nd_odb n))) snaps) (take (max_size (undo_db (nd_odb n)) - length done) s0))
    as (n' & snaps' & s0' & E & Hr' & Hb' & Hh' & Hx').
  { destruct (resized_frame (fork_size b (nd_odb n)) (nd_fork n)) as (F1 & F2 & F3). simpl.
    rewrite F1, F2. split_and!; [done|done|by etrans]. }
  { done. }
  { exact Hrep. }
  { constructor; [done|]. apply (built_take _ _ _ _ _ _ Hb). lia. }
  { exact Hst'. }
  { simpl. lia. }
  { done. }
  exists n', snaps', s0'. rewrite reverse_cons, <- app_assoc. done.
Qed.

(** *** Removing invalid blocks *)

Lemma fork_remove_frame held i f :
  items (fork_remove held i f) = items f ∧
  (∀ j p, j ≠ i → fork_index f !! j = Some p → fork_index (fork_remove held i f) !! j = Some p) ∧
  fork_index (fork_remove held i f) ⊆ delete i (fork_index f).
Proof.
  assert (fork_index (fork_remove held i f) = delete i (fork_index f) ∧ items (fork_remove held i f) = items f)
    as [E1 E2].
  { unfold fork_remove. simpl. destruct (fork_head f) as [h|] eqn:Eh; [|done].
    destruct (items f !! h); [|done]. case_bool_decide; [|done].
    destruct (fork_pop_block held _) as [g|] eqn:Ep; [|done].
    unfold fork_pop_block in Ep. simpl in Ep. rewrite Eh in Ep. apply bind_Ok in Ep as (it & _ & Ep).
    destruct (lock held _ _); [|done]. by injection Ep as <-. }
  rewrite E1, E2. split_and!; [done| |done]. intros j p Hj Hp. by rewrite lookup_delete_ne.
Qed.

Lemma remove_all_frame held l n :
  let n' := remove_all held l n in
  nd_odb n' = nd_odb n ∧ items (nd_fork n') = items (nd_fork n) ∧
  (∀ j p, (∀ q it, q ∈ l → items (nd_fork n) !! q = Some it → j ≠ fi_id it) →
     fork_index (nd_fork n) !! j = Some p → fork_index (nd_fork n') !! j = Some p) ∧
  (∀ q it, q ∈ l → items (nd_fork n) !! q = Some it → fork_index (nd_fork n') !! fi_id it = None) ∧
  fork_index (nd_fork n') ⊆ fork_index (nd_fork n).
Proof.
  simpl. revert n. induction l as [|p l IH]; intros n; simpl.
  { split_and!; [done|done|done|set_solver|done]. }
  set (n1 := match items (nd_fork n) !! p with Some it => _ | None => n end).
  assert (nd_odb n1 = nd_odb n ∧ items (nd_fork n1) = items (nd_fork n) ∧
    (∀ j q, (∀ it, items (nd_fork n) !! p = Some it → j ≠ fi_id it) →
      fork_index (nd_fork n) !! j = Some q → fork_index (nd_fork n1) !! j = Some q) ∧
    (∀ it, items (nd_fork n) !! p = Some it → fork_index (nd_fork n1) !! fi_id it = None) ∧
    fork_index (nd_fork n1) ⊆ fork_index (nd_fork n)) as (A1 & A2 & A3 & A4 & A5).
  { unfold n1. destruct (items (nd_fork n) !! p) as [it|] eqn:E; [|done]. simpl.
    destruct (fork_remove_frame held (fi_id it) (nd_fork n)) as (B1 & B2 & B3). split_and!; [done|done| | |].
    - intros j q Hj. apply B2. by apply Hj.
    - intros it' [= <-]. apply eq_None_not_Some. intros [q Hq].
      apply (lookup_weaken _ _ _ _ Hq) in B3. by rewrite lookup_delete_eq in B3.
    - etrans; [exact B3|apply delete_subseteq]. }
  destruct (IH n1) as (C1 & C2 & C3 & C4 & C5). rewrite A2 in C2, C3, C4. split_and!.
  - congruence.
  - congruence.
  - intros j q Hj Hq. apply C3; [intros; apply (Hj q0); [by right|done]|].
    apply A3; [intros; apply (Hj p); [by left|done]|done].
  - intros q it [->|Hq]%elem_of_cons E; [|by apply (C4 q)].
    apply eq_None_not_Some. intros [r Hr]. apply (lookup_weaken _ _ _ _ Hr) in C5.
    rewrite (A4 _ E) in C5. done.
  - by etrans.
Qed.

(** *** Switching *)

Lemma blocks_at_elem f l bs b :
  blocks_at f l bs → b ∈ bs → ∃ p it, p ∈ l ∧ items f !! p = Some it ∧ fi_data it = b.
Proof.
  intros Hl [i Hi]%list_elem_of_lookup. destruct (Forall2_lookup_r _ _ _ _ _ Hl Hi) as (p & Hp & it & E & Ed).
  exists p, it. split_and!; [by eapply list_elem_of_lookup_2|done|done].
Qed.

Lemma built_base bs b cur snaps w0 s0 : built (bs ++ [b]) cur snaps w0 s0 → head_block_id w0 = previous b.
Proof.
  revert cur snaps. induction bs as [|c bs IH]; intros cur snaps Hb; simpl in Hb.
  - inversion Hb as [|? ? ? ? ? ? ? Ha Hb']; subst. inversion Hb'; subst.
    destruct Ha as (o & o' & <- & _ & Ew). by destruct (apply_head _ _ _ Ew).
  - inversion Hb; subst. eauto.
Qed.

(** The situation of a switch: the head [h] of the fork database is as high as [p]; the branches
    from [p] and [q] end in different blocks [x] and [y] that name the same previous block; the
    blocks of the second branch are applied above the state [w0]. *)
Record forked n h p q l1 l2 x y bs1 bs2 cur snaps w0 s0 : Prop := {
  fk_ok : fork_ok (nd_fork n);
  fk_head : fork_head (nd_fork n) = Some h;
  fk_high : item_num (nd_fork n) h = item_num (nd_fork n) p;
  fk_lower : item_num (nd_fork n) q < item_num (nd_fork n) p;
  fk_in1 : indexed (nd_fork n) p;
  fk_in2 : indexed (nd_fork n) q;
  fk_path1 : path (nd_fork n) p l1 x;
  fk_path2 : path (nd_fork n) q l2 y;
  fk_prev : prev_id (nd_fork n) x = prev_id (nd_fork n) y;
  fk_num : item_num (nd_fork n) x = item_num (nd_fork n) y;
  fk_disjoint u : u ∈ l1 ++ [x] → u ∈ l2 ++ [y] → False;
  fk_blocks1 : blocks_at (nd_fork n) (l1 ++ [x]) bs1;
  fk_blocks2 : blocks_at (nd_fork n) (l2 ++ [y]) bs2;
  fk_repr : represents (nd_odb n) cur snaps 0;
  fk_built : built bs2 cur snaps w0 s0;
  fk_len1 : Z.of_nat (length (l1 ++ [x])) < 2 ^ 32;
  fk_len2 : Z.of_nat (length (l2 ++ [y])) < 2 ^ 32 }.

Section forked.
Context n h p q l1 l2 x y bs1 bs2 cur snaps w0 s0
  (FK : forked n h p q l1 l2 x y bs1 bs2 cur snaps w0 s0).
Let f := nd_fork n.

Lemma forked_base : branch_base (l2 ++ [y]) n = Ok (head_block_id w0).
Proof.
  pose proof (fk_blocks2 _ _ _ _ _ _ _ _ _ _ _ _ _ _ FK) as Hb.
  pose proof (fk_built _ _ _ _ _ _ _ _ _ _ _ _ _ _ FK) as Hbu.
  unfold branch_base. rewrite last_snoc.
  apply Forall2_app_inv_l in Hb as (bs & ys & _ & Hy & ->). apply Forall2_cons_inv_l in Hy as (b & ? & Hy & Hnil & ->).
  apply Forall2_nil_inv_l in Hnil as ->. rewrite (item_data_Ok _ _ _ Hy). simpl.
  by rewrite (built_base _ _ _ _ _ _ Hbu).
Qed.

Lemma forked_prev : prev_id f y = head_block_id w0.
Proof.
  pose proof forked_base as E. unfold branch_base in E. rewrite last_snoc in E.
  unfold item_data, deref in E. unfold prev_id, f. destruct (items (nd_fork n) !! y); [|done].
  by injection E.
Qed.

Lemma blocks_at_present g l bs z : blocks_at g l bs → z ∈ l → present g z.
Proof.
  intros Hl [i Hi]%list_elem_of_lookup. destruct (Forall2_lookup_l _ _ _ _ _ Hl Hi) as (b & _ & it & E & _).
  by exists it.
Qed.

Lemma forked_present2 : present f y.
Proof.
  apply (blocks_at_present _ _ _ _ (fk_blocks2 _ _ _ _ _ _ _ _ _ _ _ _ _ _ FK)).
  apply elem_of_app. right. by apply list_elem_of_singleton.
Qed.

Lemma forked_present1 : present f x.
Proof.
  apply (blocks_at_present _ _ _ _ (fk_blocks1 _ _ _ _ _ _ _ _ _ _ _ _ _ _ FK)).
  apply elem_of_app. right. by apply list_elem_of_singleton.
Qed.

(** The block below the branches is none of theirs. *)
Lemma forked_above r l z u it :
  path f r l z → present f z → prev_id f z = head_block_id w0 → Z.of_nat (length l) + 1 < 2 ^ 32 → u ∈ l ++ [z] →
  items f !! u = Some it → block_id (fi_data it) ≠ head_block_id w0.
Proof.
  intros Hp [itz Eiz] Hz Hl Hu E Eid. pose proof (fk_ok _ _ _ _ _ _ _ _ _ _ _ _ _ _ FK) as Hok.
  destruct (branch_num _ _ _ _ _ Hok Hp Hu) as [[Hn1 Hn2] Hn3]. fold f in Hn1, Hn2, Hn3.
  pose proof (item_num_bounds f u Hok) as Hbu.
  pose proof (fo_item _ Hok _ _ E) as (En & _). fold f in En.
  assert (item_num f u = num_from_id (head_block_id w0)) as Eu
    by (rewrite <- Eid; simpl; by rewrite (item_num_Some _ _ _ E)).
  assert (item_num f z = (item_num f u + 1) mod 2 ^ 32) as Ez.
  { rewrite Eu, <- Hz. unfold prev_id.
    pose proof (data_num_item f z Hok) as Ed. unfold data_num in Ed.
    rewrite Eiz in Ed |- *. by rewrite <- Ed. }
  destruct (decide (item_num f u + 1 = 2 ^ 32)) as [Ew|Hw].
  - rewrite Ew, Z.mod_same in Ez by lia. lia.
  - rewrite Z.mod_small in Ez by lia. lia.
Qed.

(** Popping the current branch. *)
Lemma forked_pop held : ∃ o popped,
  pop_until (pop_fuel n) held (head_block_id w0) n = (Node f o (nd_log n) popped, Ok ()) ∧
  represents o w0 s0 0 ∧ max_size (undo_db o) = max_size (undo_db (nd_odb n)).
Proof.
  destruct FK as [Hok Hh Hhigh Hlow Hin1 Hin2 P1 P2 Hprev Hnum Hdis B1 B2 Hr Hb L1 L2].
  apply (pop_until_ok _ _ _ bs2 cur snaps); [done|done| | | |].
  - unfold pop_fuel. apply built_length in Hb.
    rewrite (stack_repr_length _ _ _ (repr_stack _ _ _ _ Hr)). lia.
  - destruct (fo_head _ Hok _ Hh) as [it E]. exists h, it. split_and!; [done|done|].
    apply Forall_forall. intros b Hbin Eid. destruct (blocks_at_elem _ _ _ _ B2 Hbin) as (v & itv & Hv & Ev & <-).
    destruct (branch_num _ _ _ _ _ Hok P2 Hv) as [[_ Hn] _].
    pose proof (fo_item _ Hok _ _ E) as (En & Ei & _). pose proof (fo_item _ Hok _ _ Ev) as (En' & _).
    rewrite (item_num_Some _ _ _ Ev), En' in Hn. rewrite (item_num_Some _ _ _ E), En in Hhigh.
    rewrite Ei in Eid. injection Eid as Eid _. lia.
  - apply Forall_forall. intros b Hbin. destruct (blocks_at_elem _ _ _ _ B2 Hbin) as (v & itv & Hv & Ev & <-).
    destruct (branch_indexed (nd_fork n) h q l2 y Hok Hh ltac:(lia) Hin2 P2 v Hv) as (it & E & Ei).
    exists v, it. rewrite Ev in E. injection E as <-. split; [|done].
    by destruct (fo_item _ Hok _ _ Ev) as (_ & <- & _).
  - apply Forall_forall. intros b Hbin. destruct (blocks_at_elem _ _ _ _ B2 Hbin) as (v & itv & Hv & Ev & <-).
    eapply (forked_above q l2 y); [done|by apply forked_present2|apply forked_prev
      |rewrite length_app in L2; simpl in L2; lia|done|done].
Qed.
(** What a switch may end in: the new branch is applied, or the old one is back, with an
    exception and the invalid block forgotten. *)
Definition switched n' (r : result bool) : Prop :=
  (r = Ok true ∧ ∃ cur' snaps' s', represents (nd_odb n') cur' snaps' 0 ∧ built bs1 cur' snaps' w0 s') ∨
  (∃ e, r = Err e ∧ (∃ snaps' s', represents (nd_odb n') cur snaps' 0 ∧ built bs2 cur snaps' w0 s') ∧
     fork_head (nd_fork n') = head (l2 ++ [y]) ∧
     ∃ b, b ∈ bs1 ∧ is_known_block (nd_fork n') (block_id b) = false).

(** Popping what was applied of the bad branch. *)
Lemma forked_pop_bad held n1 cur1 snaps1 s1 good done bad b rest :
  pruned (item_num f x) f (nd_fork n1) → represents (nd_odb n1) cur1 snaps1 0 →
  built done cur1 snaps1 w0 s1 → reverse (l1 ++ [x]) = good ++ bad →
  blocks_at f good (reverse done) → blocks_at f bad (b :: rest) →
  let n2 := remove_all held bad n1 in
  let n3 := with_fork n2 (set_head q (nd_fork n2)) in
  ∃ o popped, pop_until (pop_fuel n3) held (head_block_id w0) n3 = (Node (nd_fork n3) o (nd_log n3) popped, Ok ()) ∧
    represents o w0 s1 0 ∧ max_size (undo_db o) = max_size (undo_db (nd_odb n1)) ∧
    (∀ u, core <$> items (nd_fork n3) !! u = core <$> items f !! u) ∧
    fork_index (nd_fork n3) !! block_id b = None.
Proof.
  intros Hpr Hr Hb Hsplit Hgood Hbad n2 n3. pose proof FK as FK'.
  destruct FK' as [Hok Hh Hhigh Hlow Hin1 Hin2 P1 P2 Hprev Hnum Hdis B1 B2 _ _ L1 L2].
  fold f in Hok, Hh, Hhigh, Hlow, Hin1, Hin2, P1, P2, Hprev, Hnum, B1, B2.
  destruct (remove_all_frame held bad n1) as (R1 & R2 & R3 & R4 & _). fold n2 in R1, R2, R3, R4.
  assert (∀ u, core <$> items (nd_fork n3) !! u = core <$> items f !! u) as Hcore
    by (intros u; simpl; rewrite R2; apply Hpr).
  assert (∀ u, u ∈ l1 ++ [x] → indexed f u) as Hidx1
    by (apply (branch_indexed f h p l1 x); [done|done|lia|done|done]).
  assert (∀ u, u ∈ good ++ bad → u ∈ l1 ++ [x]) as Hmem
    by (intros u Hu; by rewrite <- Hsplit, elem_of_reverse in Hu).
  assert (NoDup (good ++ bad)) as Hnd
    by (rewrite <- Hsplit, reverse_Permutation; by eapply branch_nodup).
  (* the pointer, item and index entry of an applied block *)
  assert (∀ c, c ∈ done → ∃ u it, u ∈ l1 ++ [x] ∧ u ∉ bad ∧ items f !! u = Some it ∧ fi_data it = c ∧
    fork_index f !! block_id c = Some u) as Hdone.
  { intros c Hc. destruct (blocks_at_elem _ _ _ c Hgood) as (u & it & Hu & Eu & <-); [by rewrite elem_of_reverse|].
    assert (u ∈ l1 ++ [x]) as Hu1 by (apply Hmem, elem_of_app; by left).
    exists u, it. split_and!; try done.
    - intros Hu'. apply NoDup_app in Hnd as (_ & Hnd & _). by apply (Hnd u).
    - destruct (Hidx1 u Hu1) as (it' & E' & Ei). rewrite Eu in E'. injection E' as <-.
      by destruct (fo_item _ Hok _ _ Eu) as (_ & <- & _). }
  assert (∀ u it, items (nd_fork n1) !! u = Some it → ∃ it0, items f !! u = Some it0 ∧ fi_id it0 = fi_id it ∧ fi_data it0 = fi_data it) as Hback.
  { intros u it E. pose proof (pr_items _ _ _ Hpr u) as Ec. rewrite E in Ec.
    destruct (items f !! u) as [it0|]; [|done]. exists it0. injection Ec as _ _ -> ->. done. }
  destruct (pop_until_ok (pop_fuel n3) held n3 done cur1 snaps1 w0 s1) as (o & popped & E & Hro & Hmo).
  - simpl. by rewrite R1.
  - done.
  - unfold pop_fuel. simpl. rewrite R1. apply built_length in Hb.
    rewrite (stack_repr_length _ _ _ (repr_stack _ _ _ _ Hr)). lia.
  - pose proof Hin2 as (itq & Eq & Eiq). pose proof (Hcore q) as Ecq. rewrite Eq in Ecq.
    destruct (items (nd_fork n3) !! q) as [itq'|] eqn:Eq'; [|done].
    exists q, itq'. split_and!; [done|done|]. apply Forall_forall. intros c Hc Eid.
    destruct (Hdone c Hc) as (u & it & Hu & _ & Eu & Ed & Ei).
    injection Ecq as _ _ Eidq _. rewrite Eidq in Eid. rewrite Eid in Eiq. rewrite Ei in Eiq.
    injection Eiq as ->. apply (Hdis q); [done|]. destruct P2; [|]; set_solver.
  - apply Forall_forall. intros c Hc. destruct (Hdone c Hc) as (u & it & Hu & Hnb & Eu & Ed & Ei).
    pose proof (Hcore u) as Ecu. rewrite Eu in Ecu.
    destruct (items (nd_fork n3) !! u) as [itu|] eqn:Eu'; [|done]. exists u, itu. split; [|done]. simpl.
    apply R3.
    + intros v itv Hv Ev Eidv. destruct (Hback _ _ Ev) as (itv0 & Ev0 & Eidv0 & _).
      apply Hnb. rewrite (indexed_inj f u v it itv0); [done| | |done|done|].
      * by apply Hidx1.
      * apply Hidx1, Hmem, elem_of_app. by right.
      * destruct (fo_item _ Hok _ _ Eu) as (_ & -> & _). rewrite Ed. congruence.
    + apply (pr_keep _ _ _ Hpr); [done|]. by destruct (branch_num _ _ _ _ _ Hok P1 Hu) as [[? _] _].
  - apply Forall_forall. intros c Hc. destruct (Hdone c Hc) as (u & it & Hu & _ & Eu & <- & _).
    eapply (forked_above p l1 x); [done|by apply forked_present1| |rewrite length_app in L1; simpl in L1; lia|done|done].
    fold f. rewrite Hprev. apply forked_prev.
  - exists o, popped. split_and!; [done|done| |done|].
    + rewrite Hmo. simpl. by rewrite R1.
    + simpl. destruct bad as [|u bad]; [by inversion Hbad|]. inversion Hbad as [|? ? ? ? (it & Eu & <-) _]; subst.
      pose proof (pr_items _ _ _ Hpr u) as Ecu. rewrite Eu in Ecu.
      destruct (items (nd_fork n1) !! u) as [it1|] eqn:Eu1; [|done]. injection Ecu as _ _ Eid _.
      destruct (fo_item _ Hok _ _ Eu) as (_ & <- & _). rewrite <- Eid. apply (R4 u); [by left|done].
Qed.
Lemma switch_fork_ok :
  steady w0 [] (reverse bs1) → steady w0 [] (reverse bs2) →
  (length (l1 ++ [x]) ≤ W)%nat → (length (l2 ++ [y]) ≤ W)%nat →
  (W ≤ max_size (undo_db (nd_odb n)))%nat →
  ∃ n' r, switch_fork (l1 ++ [x]) (l2 ++ [y]) n = Some (n', r) ∧ switched n' r.
Proof.
  intros St1 St2 W1 W2 Hroom. unfold switch_fork. rewrite forked_base. set (held := (l1 ++ [x]) ++ l2 ++ [y]).
  destruct (forked_pop held) as (o1 & popped1 & -> & Hr1 & Hm1).
  pose proof FK as [Hok Hh Hhigh Hlow Hin1 Hin2 P1 P2 Hprev Hnum Hdis B1 B2 Hr Hb L1 L2].
  fold f in Hok, Hh, Hhigh, Hlow, Hin1, Hin2, P1, P2, Hprev, Hnum, B1, B2.
  pose proof (path_num _ _ _ _ Hok P1) as Hn1.
  destruct (push_branch_ok (item_num f x) h (reverse (l1 ++ [x])) (reverse bs1)
    (Node f o1 (nd_log n) popped1) [] w0 s0 w0 s0)
    as (n2 & r & bad & done & cur' & snaps' & s' & E & Hpr & Hm2 & Hr2 & Hb2 & Hres).
  { by apply Forall2_reverse. }
  { done. }
  { simpl. rewrite length_app in W1. simpl in W1. pose proof (item_num_bounds f x Hok). lia. }
  { done. }
  { constructor. }
  { done. }
  { simpl. by rewrite length_reverse. }
  { simpl. by rewrite Hm1. }
  simpl in *. rewrite app_nil_r in Hb2. rewrite E. simpl. destruct r as [[]|e].
  - eexists n2, _. split; [done|]. left. split; [done|]. rewrite reverse_involutive in Hres. subst done. eauto.
  - destruct Hres as (good & b & rest & Hsplit & Hnews & Hgood & Hbad). unfold switch_back.
    destruct (forked_pop_bad held n2 cur' snaps' s' good done bad b rest)
      as (o3 & popped3 & E3 & Hr3 & Hm3 & Hcore3 & Hgone); try done. simpl in *.
    assert (∃ q', l2 ++ [y] = q :: q') as [l2' El2] by (inversion P2; subst; eauto).
    rewrite El2. rewrite E3. set (n3 := Node _ o3 _ popped3).
    destruct (restore_branch_ok (reverse (q :: l2')) (reverse bs2) n3 [] w0 cur s' w0 s')
      as (n4 & snaps4 & s4 & E4 & Hr4 & Hb4 & Hh4 & Hx4).
    { apply Forall2_reverse. rewrite <- El2. eapply blocks_at_core; [exact Hcore3|done]. }
    { by eapply built_leads. }
    { done. }
    { constructor. }
    { done. }
    { simpl. rewrite length_reverse. by rewrite <- El2. }
    { simpl. by rewrite Hm3. }
    rewrite E4. simpl. exists n4, (Err e). split; [done|]. right. exists e.
    rewrite app_nil_r, reverse_involutive in Hb4. split_and!; [done|by eauto| |].
    + rewrite Hh4, El2. done.
    + exists b. split.
      * rewrite <- (reverse_involutive bs1), elem_of_reverse, Hnews. set_solver.
      * unfold is_known_block. apply bool_decide_eq_false_2. intros [u Hu].
        apply (lookup_weaken _ _ _ _ Hu) in Hx4. simpl in Hx4. congruence.
Qed.
End forked.
End window.

Lemma blocks_at_exist f l : (∀ u, u ∈ l → present f u) → ∃ bs, blocks_at f l bs.
Proof.
  induction l as [|u l IH]; intros Hl; [exists []; constructor|].
  destruct (Hl u) as [it E]; [by left|]. destruct IH as [bs Hbs]; [intros v Hv; apply Hl; by right|].
  exists (fi_data it :: bs). constructor; [by exists it|done].
Qed.

Lemma path_present f p l r u : fork_ok f → present f p → path f p l r → u ∈ l ++ [r] → present f u.
Proof.
  intros Hok Hp Hpath. revert Hp. induction Hpath as [p|p q l r Hpq _ IH]; intros Hp Hu; simpl in Hu.
  - by apply list_elem_of_singleton in Hu as ->.
  - apply elem_of_cons in Hu as [->|Hu]; [done|]. apply IH; [|done]. by eapply parent_present.
Qed.

(** Blocks of a branch are at least as high as its end, and at most as high as its start. *)
Lemma branch_block_num f u l z bs c :
  fork_ok f → path f u l z → blocks_at f (l ++ [z]) bs → c ∈ bs →
  item_num f z ≤ block_num c ≤ item_num f u.
Proof.
  intros Hok Hp Hbs Hc. destruct (blocks_at_elem _ _ _ _ Hbs Hc) as (v & itv & Hv & Ev & <-).
  destruct (branch_num _ _ _ _ _ Hok Hp Hv) as [Hn _]. rewrite (item_num_Some _ _ _ Ev) in Hn.
  by destruct (fo_item _ Hok _ _ Ev) as (<- & _).
Qed.

(** While the last irreversible block stays at most [L], the histories stay deep enough. *)
Lemma branch_steady f w0 L u l z bs :
  fork_ok f → path f u l z → blocks_at f (l ++ [z]) bs → item_num f u < 2 ^ 32 - 1 →
  (∀ bs' w s s', bs' `suffix_of` bs → built bs' w s w0 s' → 0 ≤ last_irreversible_block_num w ≤ L) →
  0 ≤ item_num f z - L + 1 → steady (Z.to_nat (item_num f z - L + 1)) w0 [] (reverse bs).
Proof.
  intros Hok Hp Hbs Htop Hslow HW pre c post w s s' Erev Hb.
  assert (bs = reverse post ++ [c] ++ reverse pre) as Ebs.
  { rewrite <- (reverse_involutive bs), Erev, reverse_app, reverse_cons, <- app_assoc. done. }
  destruct (branch_block_num f u l z bs c) as [Hlo Hhi]; [done|done|done|rewrite Ebs; set_solver|].
  rewrite app_nil_r in Hb. destruct (Hslow (reverse pre) w s s') as [H0 HL]; [|done|].
  { rewrite Ebs, app_assoc. by eexists. }
  unfold roomy, history_size. rewrite Z2Nat.id by done. rewrite Z.mod_small; lia.
Qed.
(** A pushed block [b] that makes [_push_block] switch forks: it passes the check of its signer
    and becomes linked, giving the fork database [f] whose head [it] is higher than the head
    block and on another branch; the branches from [it], at [p], and from the head block, at [q],
    meet in [r] and end in [x] and [y] above a common previous block; the current state [cur] was
    reached by the current branch's blocks [bs2] from the state [w0]. *)
Record switches skip now b n f it p q l1 x l2 y bs1 bs2 cur snaps w0 s0 : Prop := {
  sw_ok : fork_ok (nd_fork n);
  sw_size : 0 ≤ fork_max_size (nd_fork n);
  sw_signer : check_signer skip now b n = Ok ();
  sw_push : ∃ h, ForkDb.push_block b (nd_fork n) = Ok (f, h) ∧ items f !! h = Some it;
  sw_prev : previous (fi_data it) ≠ node_head_id n;
  sw_high : node_head_num n < block_num (fi_data it) < 2 ^ 32 - 1;
  sw_new : fork_index f !! block_id (fi_data it) = Some p;
  sw_old : fork_index f !! node_head_id n = Some q;
  sw_meet : ∃ l m r, path f p l r ∧ path f q m r;
  sw_fetch : fetch_branch_from f (block_id (fi_data it)) (node_head_id n) = Ok (l1 ++ [x], l2 ++ [y]);
  sw_differ : x ≠ y;
  sw_blocks1 : blocks_at f (l1 ++ [x]) bs1;
  sw_blocks2 : blocks_at f (l2 ++ [y]) bs2;
  sw_repr : represents (nd_odb n) cur snaps 0;
  sw_built : built bs2 cur snaps w0 s0 }.

Section switches.
Context skip now b n f it p q l1 x l2 y bs1 bs2 cur snaps w0 s0
  (SW : switches skip now b n f it p q l1 x l2 y bs1 bs2 cur snaps w0 s0).

(** The call becomes a switch of forks in the situation [forked]. *)
Lemma switches_forked : ∃ h,
  forked (with_fork n f) h p q l1 l2 x y bs1 bs2 cur snaps w0 s0 ∧
  _push_block skip now b n = switch_fork (l1 ++ [x]) (l2 ++ [y]) (with_fork n f) ∧
  item_num f p = block_num (fi_data it).
Proof.
  destruct SW as [Hok0 Hmax Hsig (h & Hpush & Hit) Hprev [Hnum Htop] Hp Hq (l & m & r & Hpl & Hqm) Hfetch Hne B1 B2 Hr Hb].
  destruct (push_block_pushed _ _ _ _ Hok0 Hmax Hpush) as [Hok Hh _ _ _ _ _].
  destruct (fetch_branch_paths f _ _ p q l m r Hok Hp Hq Hpl Hqm)
    as (l1' & l2' & x' & y' & E & P1 & P2 & Es & En & Hd).
  rewrite Hfetch in E. injection E as E1 E2. apply app_inj_tail in E1 as [<- <-]. apply app_inj_tail in E2 as [<- <-].
  destruct (fo_index _ Hok _ _ Hp) as (itp & Ep & Eip). destruct (fo_index _ Hok _ _ Hq) as (itq & Eq & Eiq).
  assert (item_num f h = block_num (fi_data it)) as Ehn
    by (rewrite (item_num_Some _ _ _ Hit); by destruct (fo_item _ Hok _ _ Hit) as (-> & _)).
  assert (item_num f p = block_num (fi_data it)) as Epn.
  { rewrite (item_num_Some _ _ _ Ep). destruct (fo_item _ Hok _ _ Ep) as (-> & Ei & _).
    rewrite Ei in Eip. by injection Eip. }
  assert (item_num f q = node_head_num n) as Eqn.
  { rewrite (item_num_Some _ _ _ Eq). destruct (fo_item _ Hok _ _ Eq) as (-> & Ei & _).
    unfold node_head_num. by rewrite <- Eiq, Ei. }
  pose proof (path_num _ _ _ _ Hok P1). pose proof (path_num _ _ _ _ Hok P2).
  pose proof (item_num_bounds f x Hok). pose proof (item_num_bounds f y Hok).
  exists h. split_and!; [| |done].
  - split; simpl; try done; try congruence; try lia; try (rewrite length_app; simpl; lia);
      [by exists itp; rewrite Eip|by exists itq; rewrite Eiq|by apply (branches_disjoint f p q)].
  - unfold _push_block. rewrite Hsig, Hpush, Hit.
    change (node_head_id (with_fork n f)) with (node_head_id n).
    change (node_head_num (with_fork n f)) with (node_head_num n).
    rewrite bool_decide_eq_false_2 by done. simpl. by rewrite (proj2 (Z.ltb_lt _ _) Hnum), Hfetch.
Qed.

End switches.

(** C18: switching forks is all or nothing, within the histories that are kept. Suppose a pushed
    block makes [_push_block] switch from the current branch to a longer one ([switches]: both
    branches are in the fork database and meet, and the current state was built by the current
    branch's blocks from the common ancestor's state [w0], with the undo states that entails); that
    in all states met on the two branches above the common ancestor the last irreversible block is
    at most block number [L]; that the new branch has at most two blocks more than there are from
    [L] up to the common ancestor, and that the undo history is that long. The application of a
    block is a parameter that modifies objects only as in [push_transaction_atomic], depends only on
    the objects, extends the head block, and sets the sizes of both histories to the distance from
    the head to the last irreversible block plus one, as the code does. Then [_push_block] never
    terminates the process; it either returns true, with the new branch's blocks applied above [w0],
    or throws, with all objects exactly as before the call, the current branch's head again the fork
    database's head and a block of the new branch forgotten. *)
Theorem push_block_switch_atomic skip now b n f it p q l1 x l2 y bs1 bs2 cur snaps w0 s0 L :
  switches skip now b n f it p q l1 x l2 y bs1 bs2 cur snaps w0 s0 →
  (∀ bs w s s', bs `suffix_of` bs1 ∨ bs `suffix_of` bs2 → built bs w s w0 s' →
     0 ≤ last_irreversible_block_num w ≤ L) →
  Z.of_nat (length (l1 ++ [x])) ≤ item_num f x - L + 1 ≤ Z.of_nat (max_size (undo_db (nd_odb n))) →
  ∃ n' res, _push_block skip now b n = Some (n', res) ∧
    match res with
    | Ok switched => switched = true ∧
        ∃ cur' snaps' s', represents (nd_odb n') cur' snaps' 0 ∧ built bs1 cur' snaps' w0 s'
    | Err _ => db (nd_odb n') = db (nd_odb n) ∧ fork_head (nd_fork n') = Some q ∧
        (∃ snaps' s', represents (nd_odb n') cur snaps' 0 ∧ built bs2 cur snaps' w0 s') ∧
        ∃ c, c ∈ bs1 ∧ is_known_block (nd_fork n') (block_id c) = false
    end.
Proof.
  intros SW Hslow [HL Hroom].
  destruct (switches_forked _ _ _ _ _ _ _ _ _ _ _ _ _ _ _ _ _ _ SW) as (h & FK & -> & Ep).
  pose proof (sw_high _ _ _ _ _ _ _ _ _ _ _ _ _ _ _ _ _ _ SW) as [_ Htop].
  pose proof FK as [Hok Hh Hhigh Hlow Hin1 Hin2 P1 P2 Hprev Hnum Hdis B1 B2 Hr Hb L1 L2]. simpl in *.
  pose proof (path_num _ _ _ _ Hok P1) as N1. pose proof (path_num _ _ _ _ Hok P2) as N2.
  rewrite length_app in HL. simpl in HL.
  destruct (switch_fork_ok (Z.to_nat (item_num f x - L + 1)) _ _ _ _ _ _ _ _ _ _ _ _ _ _ FK)
    as (n' & res & -> & Hsw).
  - eapply branch_steady; [done|exact P1|exact B1|lia| |lia]. eauto.
  - rewrite Hnum. eapply branch_steady; [done|exact P2|exact B2|lia| |lia]. eauto.
  - rewrite length_app. simpl. lia.
  - rewrite length_app. simpl. lia.
  - simpl. lia.
  - exists n', res. split; [done|].
    destruct Hsw as [[-> (cur' & snaps' & s' & Hr' & Hb')]|(e & -> & Hold & Hhd & Hgone)]; [eauto 6|].
    destruct Hold as (snaps' & s' & Hr' & Hb'). split_and!; [|rewrite Hhd; by inversion P2; subst|eauto|done].
    by rewrite (repr_db _ _ _ _ Hr'), (repr_db _ _ _ _ Hr).
Qed.

(** Applying a block drops from the fork database what is far below its head. *)
Lemma applied_drops b w w' o f h u itu :
  applied b w w' → db o = w → fork_head f = Some h → items f !! u = Some itu →
  fork_index f !! fi_id itu = Some u → 0 ≤ item_num f u →
  item_num f u + history_size b w < item_num f h →
  fork_index (resized (fork_size b o) f) !! fi_id itu = None.
Proof.
  intros Ha Eo Hh Eu Ei H0 Hlow.
  assert (fork_size b o = Some (history_size b w)) as ->.
  { unfold fork_size. destruct (applied_run _ _ _ (session_start o) Ha Eo) as [Eok _].
    destruct (block_cases b (session_start o)) as [(o1 & e & _ & Ew & _)|(o1 & _ & _ & ->)].
    - rewrite Ew in Eok. done.
    - simpl. by rewrite Eo. }
  unfold resized, set_max_size. simpl. rewrite Hh. simpl. apply map_lookup_filter_None. right.
  intros v Hv. assert (v = u) as -> by congruence. simpl. unfold item_num in *. simpl. lia.
Qed.

Lemma roomy_0 b w : roomy 0 b w.
Proof. apply Z.mod_pos_bound. lia. Qed.

(** A branch whose second block is invalid. *)
Lemma push_branch_stops p1 p2 l n w0 s0 b1 b2 w1 e :
  represents (nd_odb n) w0 s0 0 → blocks_at (nd_fork n) [p1; p2] [b1; b2] → applied b1 w0 w1 →
  (∀ o, db o = w1 → (block_work b2 o).2 = Err e) →
  ∃ n' e', push_branch (p1 :: p2 :: l) n = Some (n', Err e', p2 :: l) ∧ db (nd_odb n') = w1 ∧
    (∀ u, core <$> items (nd_fork n') !! u = core <$> items (nd_fork n) !! u) ∧
    fork_index (nd_fork n') ⊆ fork_index (resized (fork_size b1 (nd_odb n)) (nd_fork n)).
Proof.
  intros Hr1 [B1 B2]%Forall2_cons Ha Hbad. apply Forall2_cons in B2 as [B2 _].
  cbn [push_branch]. rewrite (item_data_Ok _ p1 b1) by done.
  destruct (run_block_ok 0 b1 n w0 s0 Hr1) as (o2 & r & -> & _ & Hrep & Hdet); [lia|apply roomy_0|].
  destruct (Hdet _ Ha) as [-> Ew1]. destruct Hrep as (w1' & _ & Hr2).
  assert (w1' = w1) as -> by (rewrite <- Ew1; symmetry; apply Hr2).
  simpl. set (n1 := Node (resized _ (nd_fork n)) o2 _ _).
  destruct (resized_frame (fork_size b1 (nd_odb n)) (nd_fork n)) as (F1 & _ & _).
  destruct (update_witnesses_pruned 0 p1 n1) as [U1 _ U3 _].
  set (n2 := store b1 (update_witnesses p1 n1)).
  assert (∀ u, core <$> items (nd_fork n2) !! u = core <$> items (nd_fork n) !! u) as Hcore
    by (intros u; simpl; rewrite U1; simpl; by rewrite F1).
  rewrite (item_data_Ok n2 p2 b2) by (by apply (core_data (nd_fork n))).
  assert (nd_odb n2 = o2) as Eo2 by (apply update_witnesses_odb).
  destruct (run_block_ok 0 b2 n2 w1 (w0 :: take (max_size (undo_db (nd_odb n))) s0))
    as (o3 & r3 & -> & _ & Hrep3 & _); [by rewrite Eo2|lia|apply roomy_0|].
  destruct r3 as [[]|e3].
  { exfalso. destruct Hrep3 as (w2 & Ha2 & _).
    destruct (applied_run _ _ _ o2 Ha2 Ew1) as [Eok _]. rewrite (Hbad o2 Ew1) in Eok. done. }
  destruct (resized_frame (fork_size b2 (nd_odb n2)) (nd_fork n2)) as (G1 & _ & G3).
  eexists _, e3. split_and!; [done|apply (repr_db _ _ _ _ Hrep3)| |].
  - intros u. by rewrite <- Hcore, <- G1.
  - etrans; [exact G3|exact U3].
Qed.

(** Popping a head block that the fork database has dropped. *)
Lemma switch_back_stuck held bad q l base e n b1 itq :
  node_head_id n = block_id b1 → block_id b1 ≠ base →
  fork_index (nd_fork n) !! block_id b1 = None →
  items (nd_fork n) !! q = Some itq → fi_id itq ≠ block_id b1 →
  ∃ n', switch_back held bad (q :: l) base e n =
      Some (n', Err (assert_exception "Trying to pop() block that's not in fork database!?")) ∧
    db (nd_odb n') = db (nd_odb n) ∧ fork_head (nd_fork n') = Some q ∧
    fork_index (nd_fork n') !! block_id b1 = None.
Proof.
  intros Ehead Hne Hnone Eq Hq. unfold switch_back.
  destruct (remove_all_frame held bad n) as (M1 & M2 & _ & _ & M5).
  set (n4 := remove_all held bad n) in *. set (n5 := with_fork n4 (set_head q (nd_fork n4))).
  assert (node_head_id n5 = block_id b1) as Ehead5 by (unfold node_head_id; simpl; by rewrite M1).
  assert (fork_index (nd_fork n5) !! block_id b1 = None) as Hnone5 by (by eapply lookup_weaken_None).
  assert (items (nd_fork n5) !! q = Some itq) as Eq5 by (simpl; by rewrite M2).
  exists n5. split_and!; [|simpl; by rewrite M1|done|done].
  unfold pop_fuel. cbn [pop_until]. rewrite bool_decide_eq_false_2 by congruence.
  unfold pop_block, deref, fetch_block. rewrite Ehead5, Hnone5.
  assert (fork_head (nd_fork n5) = Some q) as -> by done. rewrite Eq5. simpl.
  by rewrite bool_decide_eq_false_2 by done.
Qed.

(** C37: an aborted switch is not always unwound.  The size of the fork database follows the
    distance between the block being applied and the last irreversible block, but is counted from
    the head of the new fork.  Suppose the new branch reaches so far beyond its first block [b1]
    that applying [b1] drops it from the fork database, and the second block [b2] is invalid.
    Then [_push_block] throws when it tries to pop [b1], whatever else: the chain stays on the
    state of [b1], with [b1] as head block, while the fork database has the old head [q] and does
    not know [b1]. *)
Theorem aborted_switch_not_unwound skip now b n f it p q l1 x l2 y bs1 bs2 cur snaps w0 s0
    b1 b2 rest w1 e :
  switches skip now b n f it p q l1 x l2 y bs1 bs2 cur snaps w0 s0 →
  reverse bs1 = b1 :: b2 :: rest → applied b1 w0 w1 →
  (∀ o, db o = w1 → (block_work b2 o).2 = Err e) →
  item_num f x + history_size b1 w0 < item_num f p →
  ∃ n', _push_block skip now b n =
      Some (n', Err (assert_exception "Trying to pop() block that's not in fork database!?")) ∧
    db (nd_odb n') = w1 ∧ node_head_id n' = block_id b1 ∧ fork_head (nd_fork n') = Some q ∧
    is_known_block (nd_fork n') (block_id b1) = false.
Proof.
  intros SW Hrev Ha Hbad Hlow.
  destruct (switches_forked _ _ _ _ _ _ _ _ _ _ _ _ _ _ _ _ _ _ SW) as (h & FK & -> & _).
  unfold switch_fork. rewrite (forked_base _ _ _ _ _ _ _ _ _ _ _ _ _ _ FK).
  set (held := (l1 ++ [x]) ++ l2 ++ [y]).
  destruct (forked_pop _ _ _ _ _ _ _ _ _ _ _ _ _ _ FK held) as (o1 & popped1 & -> & Hr1 & _).
  pose proof (forked_prev _ _ _ _ _ _ _ _ _ _ _ _ _ _ FK) as Hy.
  pose proof (forked_above _ _ _ _ _ _ _ _ _ _ _ _ _ _ FK) as Habove.
  destruct FK as [Hok Hh Hhigh Hlw Hin1 Hin2 P1 P2 Hprev Hnum Hdis B1 B2 _ _ L1 L2]. simpl in *.
  assert (indexed f x) as (itx & Ex & Eix)
    by (apply (branch_indexed f h p l1 x Hok Hh); [lia|done|done|set_solver]).
  pose proof (Forall2_reverse _ _ _ B1) as B1'. rewrite Hrev, reverse_snoc in B1'.
  apply Forall2_cons in B1' as [Bx B1']. pose proof Bx as (itx' & Ex' & Edx).
  assert (itx' = itx) as -> by congruence.
  destruct (reverse l1) as [|p2 rl] eqn:El1; [by apply Forall2_nil_inv_l in B1'|].
  apply Forall2_cons in B1' as [Bp2 _].
  assert (block_id b1 = fi_id itx) as Eid1
    by (destruct (fo_item _ Hok _ _ Ex) as (_ & -> & _); by rewrite Edx).
  rewrite reverse_snoc, El1.
  destruct (push_branch_stops x p2 rl (Node f o1 (nd_log n) popped1) w0 s0 b1 b2 w1 e)
    as (n3 & e3 & -> & Edb & Hcore & Hidx); [done|by repeat constructor|done|done|]. simpl in Hcore, Hidx |- *.
  assert (∃ l2', l2 ++ [y] = q :: l2') as [l2' ->] by (inversion P2; subst; eauto).
  assert (∃ itq, items (nd_fork n3) !! q = Some itq ∧ fi_id itq ≠ block_id b1) as (itq & Eq & Hq).
  { destruct Hin2 as (itq & Eq & Eiq). pose proof (Hcore q) as Ec. rewrite Eq in Ec.
    destruct (items (nd_fork n3) !! q) as [itq'|]; [|done].
    exists itq'. split; [done|]. injection Ec as _ _ -> _. intros E. rewrite E, Eid1, Eix in Eiq.
    injection Eiq as ->. apply (Hdis q); [set_solver|]. inversion P2; subst; set_solver. }
  destruct (switch_back_stuck held (p2 :: rl) q l2' (head_block_id w0) e3 n3 b1 itq)
    as (n5 & -> & Edb5 & Hh5 & Hnone).
  - unfold node_head_id. rewrite Edb. destruct Ha as (? & ? & _ & <- & Ew). by destruct (apply_head _ _ _ Ew).
  - rewrite <- Edx. eapply (Habove p l1 x x itx); [done|by exists itx|by rewrite Hprev| |set_solver|done].
    rewrite length_app in L1. simpl in L1. lia.
  - rewrite Eid1. eapply lookup_weaken_None; [|exact Hidx].
    eapply (applied_drops b1 w0 w1 o1 f h x itx); [done|apply (repr_db _ _ _ _ Hr1)|done|done|done|by apply item_num_bounds|lia].
  - done.
  - done.
  - exists n5. rewrite Edb in Edb5. split_and!; [done|done| |done|].
    + unfold node_head_id. rewrite Edb5. destruct Ha as (? & ? & _ & <- & Ew). by destruct (apply_head _ _ _ Ew).
    + unfold is_known_block. rewrite Hnone. apply bool_decide_eq_false_2. by intros [? ?].
Qed.
End switching.

(** ** Concrete runs

    A chain whose only object holds the id of the head block.  A block of witness 99 is invalid,
    and block 1 is the last irreversible one. *)
Section sample.
#[local] Instance sample_hash : BlockHash Z := λ b, 1000 * timestamp b + witness b.
#[local] Instance sample_keys : UniqueKeys block_id_type := {
  unique_key := Z;
  unique_keys := λ _ _, ∅ }.

Definition sample_head (w : world block_id_type) : block_id_type := default null_id (objects w !! (1, 0)).

Definition sample_before (b : signed_block Z) (o : object_database block_id_type)
    : object_database block_id_type * result unit :=
  if bool_decide (objects (db o) !! (1, 0) = Some (previous b)) then
    (exec (MModify (1, 0) (λ _, (block_id b, None))) o, Ok ())
  else (o, Err (assert_exception "head_block_id() == next_block.previous")).

Definition sample_after (b : signed_block Z) (o : object_database block_id_type)
    : object_database block_id_type * result unit :=
  (o, if witness b =? 99 then Err (assert_exception "invalid block") else Ok ()).

#[local] Instance sample_application : BlockApplication block_id_type Z := {
  apply_before := sample_before;
  apply_after := sample_after;
  head_block_id := sample_head;
  last_irreversible_block_num := λ _, 1;
  block_interval := λ _, 3;
  upcoming := λ _, (0, 0, []);
  signed_by := λ _ _, true }.

Lemma sample_fits (id : object_id) (i : block_id_type) m : fits id i m = true.
Proof. apply fits_spec. intros id' x _ _. simpl. set_solver. Qed.

Lemma sample_modify (f : block_id_type → block_id_type * option fc_exception) o i :
  objects (db o) !! (1, 0) = Some i →
  db (exec (MModify (1, 0) f) o) = World (<[(1, 0) := (f i).1]> (objects (db o))) (next_ids (db o)).
Proof. intros E. unfold exec, modify, index_modify. by rewrite E, sample_fits. Qed.

#[local] Instance sample_laws : BlockApplicationLaws block_id_type Z.
Proof.
  split.
  - intros b o. simpl. unfold sample_before. case_bool_decide; [|apply mut_refl].
    apply mut_exec; [apply mut_refl|]. intros v _ id' x _. simpl. set_solver.
  - intros b o. apply mut_refl.
  - intros b o1 o2 E. simpl. unfold sample_before. rewrite E.
    case_bool_decide as Ei; [|done]. cbn [fst snd]. split; [done|].
    erewrite !sample_modify by (rewrite ?E; exact Ei). by rewrite E.
  - intros b o1 o2 E. done.
  - intros b o o'. unfold block_work, apply_block. simpl. unfold sample_before, sample_after.
    case_bool_decide as Ei; [|done]. simpl. destruct (witness b =? 99); [done|]. intros [= <-].
    unfold sample_head. rewrite Ei. split; [done|].
    change (default null_id (objects (db (exec (MModify (1, 0) (λ _, (block_id b, None))) o)) !! (1, 0)) = block_id b).
    rewrite (sample_modify _ _ _ Ei). cbn [objects]. by rewrite lookup_insert_eq.
  - done.
Qed.

(** Blocks on a common root: the current fork [a] and a longer fork [c]. *)
Definition sample_root : signed_block Z := SignedBlock null_id 3 1 [].
Definition sample_block (wit time : Z) (p : signed_block Z) : signed_block Z :=
  SignedBlock (block_id p) time wit [time].
Definition sample_a2 := sample_block 2 6 sample_root.
Definition sample_a3 := sample_block 3 9 sample_a2.
Definition sample_a4 := sample_block 4 12 sample_a3.
Definition sample_c2 := sample_block 5 15 sample_root.
Definition sample_c3 := sample_block 99 18 sample_c2.
Definition sample_c4 := sample_block 7 21 sample_c3.
Definition sample_c5 := sample_block 8 24 sample_c4.

Definition sample_start : node block_id_type Z :=
  Node (start_block sample_root empty_fork_db)
    (ObjectDatabase (World {[ (1, 0) := block_id sample_root ]} {[ 1 := 1 ]}) (UndoDatabase 0 false [] 10))
    ∅ [].

Definition sample_push (n : node block_id_type Z) (b : signed_block Z) : node block_id_type Z :=
  match _push_block true 0 b n with Some (n, _) => n | None => n end.

(** [a2] is applied and [c2] received; then the current fork up to [a4] and the other to [c4]. *)
Definition sample_two : node block_id_type Z := foldl sample_push sample_start [sample_a2; sample_c2].
Definition sample_four : node block_id_type Z :=
  foldl sample_push sample_start [sample_a2; sample_a3; sample_a4; sample_c2; sample_c3; sample_c4].

(** What happens to the fork database meanwhile: blocks are pushed, the size is set. *)
Definition grow (f : fork_database Z) (step : signed_block Z + Z) : fork_database Z :=
  match step with
  | inl b => if 0 <=? fork_max_size f then
               match ForkDb.push_block b f with Ok (f, _) => f | Err _ => f end
             else f
  | inr s => set_max_size s f
  end.

Lemma grow_ok f steps : fork_ok f → fork_ok (foldl grow f steps).
Proof.
  revert f. induction steps as [|[b|s] steps IH]; intros f Hok; simpl; [done| |].
  - apply IH. destruct (Z.leb_spec 0 (fork_max_size f)) as [Hm|]; [|done].
    destruct (ForkDb.push_block b f) as [[f' h]|] eqn:E; [|done].
    by destruct (push_block_pushed _ _ _ _ Hok Hm E).
  - apply IH. by apply fork_ok_max_size.
Qed.

Lemma sample_two_fork : fork_ok (nd_fork sample_two).
Proof.
  assert (nd_fork sample_two = foldl grow (start_block sample_root empty_fork_db)
    [inl sample_a2; inr 2; inl sample_c2]) as -> by (by vm_compute).
  apply grow_ok, fork_ok_start, fork_ok_empty.
Qed.

Lemma sample_four_fork : fork_ok (nd_fork sample_four).
Proof.
  assert (nd_fork sample_four = foldl grow (start_block sample_root empty_fork_db)
    [inl sample_a2; inr 2; inl sample_a3; inr 3; inl sample_a4; inr 4;
     inl sample_c2; inl sample_c3; inl sample_c4]) as -> by (by vm_compute).
  apply grow_ok, fork_ok_start, fork_ok_empty.
Qed.

(** The objects once [b] is the head block. *)
Definition sample_world (b : signed_block Z) : world block_id_type :=
  World {[ (1, 0) := block_id b ]} {[ 1 := 1 ]}.

Lemma sample_start_represents : represents (nd_odb sample_start) (sample_world sample_root) [] 0.
Proof.
  split; try done; [|constructor]. split.
  - intros t i v. simpl. intros [E _]%lookup_singleton_Some. injection E as <- <-. exists 1. by vm_compute.
  - intros id v _. apply sample_fits.
Qed.

Lemma sample_session b o o' w w' snaps :
  represents o w snaps 0 → push_block_session (block_work b) o = Some (o', Ok ()) → db o' = w' →
  (length snaps ≤ max_size (undo_db o))%nat → represents o' w' (w :: snaps) 0.
Proof.
  intros Hr E Edb Hlen.
  destruct (push_block_represents (block_work b) _ _ _ (apply_applies b) Hr) as (o1 & r & E1 & _ & _ & Hr1).
  rewrite E in E1. injection E1 as <- <-. rewrite take_ge in Hr1 by done.
  pose proof (repr_db _ _ _ _ Hr1) as Edb1. by rewrite <- Edb1, Edb in Hr1.
Qed.

Lemma sample_two_represents :
  represents (nd_odb sample_two) (sample_world sample_a2) [sample_world sample_root] 0.
Proof.
  eapply (sample_session sample_a2); [apply sample_start_represents|by vm_compute|by vm_compute|simpl; lia].
Qed.

Lemma sample_four_represents :
  represents (nd_odb sample_four) (sample_world sample_a4)
    [sample_world sample_a3; sample_world sample_a2; sample_world sample_root] 0.
Proof.
  eapply (sample_session sample_a4);
    [|instantiate (1 := nd_odb (foldl sample_push sample_start [sample_a2; sample_a3])); by vm_compute
     |by vm_compute|apply Nat.leb_le; by vm_compute].
  eapply (sample_session sample_a3);
    [|instantiate (1 := nd_odb (foldl sample_push sample_start [sample_a2])); by vm_compute
     |by vm_compute|apply Nat.leb_le; by vm_compute].
  eapply (sample_session sample_a2); [apply sample_start_represents|by vm_compute|by vm_compute|simpl; lia].
Qed.

Lemma sample_applied b p :
  previous b = block_id p → witness b ≠ 99 → applied b (sample_world p) (sample_world b).
Proof.
  intros Ep Hw. set (o := ObjectDatabase (sample_world p) (UndoDatabase 0 false [] 10)).
  exists o, (block_work b o).1.
  assert (objects (db o) !! (1, 0) = Some (previous b)) as Eo by (rewrite Ep; apply lookup_singleton_eq).
  unfold block_work, apply_block. simpl. unfold sample_before, sample_after.
  rewrite bool_decide_eq_true_2 by done. apply Z.eqb_neq in Hw. rewrite Hw.
  split_and!; [done| |done].
  change (db (exec (MModify (1, 0) (λ _, (block_id b, None))) o) = sample_world b).
  by rewrite (sample_modify _ _ _ Eo).
Qed.

Definition sample_f (b : signed_block Z) (n : node block_id_type Z) : fork_database Z :=
  match ForkDb.push_block b (nd_fork n) with Ok (f, _) => f | Err _ => nd_fork n end.

(** [c3], which is invalid, makes its fork the longest after [a2]. *)
Lemma sample_two_switches :
  switches true 0 sample_c3 sample_two (sample_f sample_c3 sample_two) (make_item (Some 2) sample_c3)
    3 1 [3] 2 [] 1 [sample_c3; sample_c2] [sample_a2]
    (sample_world sample_a2) [sample_world sample_root] (sample_world sample_root) [].
Proof.
  split; [apply sample_two_fork|by vm_compute|by vm_compute|exists 3; by vm_compute|by vm_compute
    |split; by vm_compute|by vm_compute|by vm_compute| |by vm_compute|done| | |apply sample_two_represents|].
  - exists [3; 2], [1], 0. split; repeat (eapply path_cons; [by eexists; vm_compute|]); constructor.
  - repeat (apply Forall2_cons; split; [eexists; by vm_compute|]). constructor.
  - repeat (apply Forall2_cons; split; [eexists; by vm_compute|]). constructor.
  - constructor; [by apply sample_applied|constructor].
Qed.

(** [c5] makes the fork of the invalid [c3] the longest after [a4]. *)
Lemma sample_four_switches :
  switches true 0 sample_c5 sample_four (sample_f sample_c5 sample_four) (make_item (Some 6) sample_c5)
    7 3 [7; 6; 5] 4 [3; 2] 1 [sample_c5; sample_c4; sample_c3; sample_c2] [sample_a4; sample_a3; sample_a2]
    (sample_world sample_a4) [sample_world sample_a3; sample_world sample_a2; sample_world sample_root]
    (sample_world sample_root) [].
Proof.
  split; [apply sample_four_fork|by vm_compute|by vm_compute|exists 7; by vm_compute|by vm_compute
    |split; by vm_compute|by vm_compute|by vm_compute| |by vm_compute|done| | |apply sample_four_represents|].
  - exists [7; 6; 5; 4], [3; 2; 1], 0. split; repeat (eapply path_cons; [by eexists; vm_compute|]); constructor.
  - repeat (apply Forall2_cons; split; [eexists; by vm_compute|]). constructor.
  - repeat (apply Forall2_cons; split; [eexists; by vm_compute|]). constructor.
  - do 3 (constructor; [by apply sample_applied|]). constructor.
Qed.

Lemma push_block_switch_atomic_witness : ∃ n' e,
  _push_block true 0 sample_c3 sample_two = Some (n', Err e) ∧
  db (nd_odb n') = db (nd_odb sample_two) ∧ fork_head (nd_fork n') = fork_head (nd_fork sample_two).
Proof.
  destruct (push_block_switch_atomic _ _ _ _ _ _ _ _ _ _ _ _ _ _ _ _ _ _ 1 sample_two_switches)
    as (n' & res & E & Hres).
  - intros. simpl. lia.
  - split; apply Z.leb_le; by vm_compute.
  - destruct res as [sw|e].
    + vm_compute in E. discriminate E.
    + exists n', e. split; [exact E|]. destruct Hres as (E1 & E2 & _). split; [exact E1|].
      rewrite E2. by vm_compute.
Defined.

Lemma aborted_switch_not_unwound_witness : ∃ n',
  _push_block true 0 sample_c5 sample_four =
    Some (n', Err (assert_exception "Trying to pop() block that's not in fork database!?")) ∧
  node_head_id sample_four = block_id sample_a4 ∧ node_head_id n' = block_id sample_c2 ∧
  fork_head (nd_fork n') = fork_head (nd_fork sample_four).
Proof.
  destruct (aborted_switch_not_unwound _ _ _ _ _ _ _ _ _ _ _ _ _ _ _ _ _ _ sample_c2 sample_c3
    [sample_c4; sample_c5] (sample_world sample_c2) (assert_exception "invalid block") sample_four_switches)
    as (n' & E & _ & Eh & Ef & _).
  - done.
  - by apply sample_applied.
  - intros o Eo. unfold block_work, apply_block. simpl. unfold sample_before.
    rewrite bool_decide_eq_true_2; [done|]. rewrite Eo. by vm_compute.
  - by vm_compute.
  - exists n'. split_and!; [exact E|by vm_compute|exact Eh|]. rewrite Ef. by vm_compute.
Defined.
End sample.
