(* ===== verification/Vesting.v ===== *)
(** * Vesting balances

    The vesting policies and the vesting balance object, from
    libraries/chain/vesting_balance_object.cpp and its header.  [VestingPolicy] is the
    interface the visitors of [vesting_balance_object] call on whichever policy the static
    variant holds; [VestingPolicyLaws] states what a policy promises, and each policy and the
    variant itself discharge it.  C [assert]s are no-ops of a release build; the laws show the
    asserted conditions hold as long as nothing is deposited into a linear balance, which the
    class comment forbids and no code does. *)
From S2P Require Import Prelude MachineInt Hardfork Asset.

(** ** Interface *)

Record vesting_policy_context := VestingPolicyContext {
  ctx_balance : asset;
  ctx_now : Z;
  ctx_amount : asset }.

Class VestingPolicy (P : Type) := {
  get_allowed_withdraw : P → vesting_policy_context → result asset;
  is_deposit_allowed : P → vesting_policy_context → result bool;
  is_deposit_vested_allowed : P → vesting_policy_context → result bool;
  is_withdraw_allowed : P → vesting_policy_context → result bool;
  on_deposit : P → vesting_policy_context → result P;
  on_deposit_vested : P → vesting_policy_context → result P;
  on_withdraw : P → vesting_policy_context → result P }.

Definition sum_below_max_shares (a b : asset) : result bool :=
  if (amount a <=? GRAPHENE_MAX_SHARE_SUPPLY) && (amount b <=? GRAPHENE_MAX_SHARE_SUPPLY) then
    s ← share_add (amount a) (amount b); Ok (s <=? GRAPHENE_MAX_SHARE_SUPPLY)
  else Ok false.

(** [( ctx.amount.asset_id == ctx.balance.asset_id ) && rest]. *)
Definition same_asset_and (ctx : vesting_policy_context) (rest : result bool) : result bool :=
  if asset_id (ctx_amount ctx) =? asset_id (ctx_balance ctx) then rest else Ok false.

Definition deposit_allowed_by_sum (ctx : vesting_policy_context) : result bool :=
  same_asset_and ctx (sum_below_max_shares (ctx_amount ctx) (ctx_balance ctx)).

(** ** Linear vesting *)
Module Linear.

Record linear_vesting_policy := LinearVestingPolicy {
  begin_timestamp : Z;
  vesting_cliff_seconds : Z;
  vesting_duration_seconds : Z;
  begin_balance : share_type }.

Definition allowed (p : linear_vesting_policy) (ctx : vesting_policy_context) : result asset :=
  if begin_timestamp p <? ctx_now ctx then
    let elapsed_seconds := ctx_now ctx - begin_timestamp p in
    if vesting_cliff_seconds p <=? elapsed_seconds then
      total_vested ← (if elapsed_seconds <? vesting_duration_seconds p then
                        share_check (to_uint64 (u128_div
                          (u128_mul (u128 (begin_balance p)) elapsed_seconds)
                          (vesting_duration_seconds p)))
                      else Ok (begin_balance p));
      withdrawn_already ← share_sub (begin_balance p) (amount (ctx_balance ctx));
      allowed_withdraw ← share_sub total_vested withdrawn_already;
      Ok (Asset allowed_withdraw (asset_id (ctx_balance ctx)))
    else Ok (Asset 0 (asset_id (ctx_balance ctx)))
  else Ok (Asset 0 (asset_id (ctx_balance ctx))).

#[global] Instance policy : VestingPolicy linear_vesting_policy := {
  get_allowed_withdraw := allowed;
  is_deposit_allowed := λ _ ctx, deposit_allowed_by_sum ctx;
  is_deposit_vested_allowed := λ _ _, Ok false;
  is_withdraw_allowed := λ p ctx,
    same_asset_and ctx (a ← allowed p ctx; asset_le (ctx_amount ctx) a);
  on_deposit := λ p _, Ok p;
  on_deposit_vested := λ _ _,
    Err (fc_throw "May not deposit vested into a linear vesting balance.");
  on_withdraw := λ p _, Ok p }.
End Linear.

(** ** Coin-days-destroyed vesting *)
Module Cdd.

Record cdd_vesting_policy := CddVestingPolicy {
  vesting_seconds : Z;
  coin_seconds_earned : Z;
  start_claim : Z;
  coin_seconds_earned_last_update : Z }.

Definition compute_coin_seconds_earned (p : cdd_vesting_policy)
    (ctx : vesting_policy_context) : Z :=
  let delta_seconds := ctx_now ctx - coin_seconds_earned_last_update p in
  let delta_coin_seconds :=
    u128_mul (u128 (amount (ctx_balance ctx))) (u128 delta_seconds) in
  let coin_seconds_earned_cap :=
    u128_mul (u128 (amount (ctx_balance ctx))) (Z.max (vesting_seconds p) 1) in
  Z.min (u128_add (coin_seconds_earned p) delta_coin_seconds) coin_seconds_earned_cap.

Definition update_coin_seconds_earned (p : cdd_vesting_policy)
    (ctx : vesting_policy_context) : cdd_vesting_policy :=
  CddVestingPolicy (vesting_seconds p) (compute_coin_seconds_earned p ctx) (start_claim p)
    (ctx_now ctx).

Definition set_earned (p : cdd_vesting_policy) (e : Z) : cdd_vesting_policy :=
  CddVestingPolicy (vesting_seconds p) e (start_claim p) (coin_seconds_earned_last_update p).

Definition allowed (p : cdd_vesting_policy) (ctx : vesting_policy_context) : result asset :=
  if ctx_now ctx <=? start_claim p then Ok (Asset 0 (asset_id (ctx_balance ctx)))
  else
    let cs_earned := compute_coin_seconds_earned p ctx in
    let withdraw_available := u128_div cs_earned (Z.max (vesting_seconds p) 1) in
    w ← share_check (to_uint64 withdraw_available);
    Ok (Asset w (asset_id (ctx_balance ctx))).

(** The product [ctx.amount.amount.value * std::max(vesting_seconds, 1u)] is an [int64_t]
    product; it is added to a 128-bit counter. *)
Definition deposit_vested (p : cdd_vesting_policy) (ctx : vesting_policy_context)
    : cdd_vesting_policy :=
  let p' := update_coin_seconds_earned p ctx in
  set_earned p' (u128_add (coin_seconds_earned p')
    (u128 (to_int64 (amount (ctx_amount ctx) * Z.max (vesting_seconds p') 1)))).

Definition withdraw (p : cdd_vesting_policy) (ctx : vesting_policy_context)
    : cdd_vesting_policy :=
  let p' := update_coin_seconds_earned p ctx in
  let coin_seconds_needed :=
    u128_mul (u128 (amount (ctx_amount ctx))) (Z.max (vesting_seconds p') 1) in
  set_earned p' (u128_sub (coin_seconds_earned p') coin_seconds_needed).

#[global] Instance policy : VestingPolicy cdd_vesting_policy := {
  get_allowed_withdraw := allowed;
  is_deposit_allowed := λ _ ctx, deposit_allowed_by_sum ctx;
  is_deposit_vested_allowed := λ _ ctx, deposit_allowed_by_sum ctx;
  is_withdraw_allowed := λ p ctx, a ← allowed p ctx; asset_le (ctx_amount ctx) a;
  on_deposit := λ p ctx, Ok (update_coin_seconds_earned p ctx);
  on_deposit_vested := λ p ctx, Ok (deposit_vested p ctx);
  on_withdraw := λ p ctx, Ok (withdraw p ctx) }.
End Cdd.

(** ** Instant vesting *)
Module Instant.

Inductive instant_vesting_policy := InstantVestingPolicy.

#[global] Instance policy : VestingPolicy instant_vesting_policy := {
  get_allowed_withdraw := λ _ ctx, Ok (ctx_balance ctx);
  is_deposit_allowed := λ _ ctx, deposit_allowed_by_sum ctx;
  is_deposit_vested_allowed := λ _ _, Ok false;
  is_withdraw_allowed := λ _ ctx,
    same_asset_and ctx (asset_le (ctx_amount ctx) (ctx_balance ctx));
  on_deposit := λ p _, Ok p;
  on_deposit_vested := λ p _, Ok p;
  on_withdraw := λ p _, Ok p }.
End Instant.

(** ** The variant and the balance object *)

Inductive vesting_policy :=
  | LinearPolicy (p : Linear.linear_vesting_policy)
  | CddPolicy (p : Cdd.cdd_vesting_policy)
  | InstantPolicy (p : Instant.instant_vesting_policy).

(** [policy.visit( NAME##_visitor )]: dispatch to the policy held. *)
#[global] Instance variant_policy : VestingPolicy vesting_policy := {
  get_allowed_withdraw := λ v ctx,
    match v with
    | LinearPolicy p => get_allowed_withdraw p ctx
    | CddPolicy p => get_allowed_withdraw p ctx
    | InstantPolicy p => get_allowed_withdraw p ctx
    end;
  is_deposit_allowed := λ v ctx,
    match v with
    | LinearPolicy p => is_deposit_allowed p ctx
    | CddPolicy p => is_deposit_allowed p ctx
    | InstantPolicy p => is_deposit_allowed p ctx
    end;
  is_deposit_vested_allowed := λ v ctx,
    match v with
    | LinearPolicy p => is_deposit_vested_allowed p ctx
    | CddPolicy p => is_deposit_vested_allowed p ctx
    | InstantPolicy p => is_deposit_vested_allowed p ctx
    end;
  is_withdraw_allowed := λ v ctx,
    match v with
    | LinearPolicy p => is_withdraw_allowed p ctx
    | CddPolicy p => is_withdraw_allowed p ctx
    | InstantPolicy p => is_withdraw_allowed p ctx
    end;
  on_deposit := λ v ctx,
    match v with
    | LinearPolicy p => p' ← on_deposit p ctx; Ok (LinearPolicy p')
    | CddPolicy p => p' ← on_deposit p ctx; Ok (CddPolicy p')
    | InstantPolicy p => p' ← on_deposit p ctx; Ok (InstantPolicy p')
    end;
  on_deposit_vested := λ v ctx,
    match v with
    | LinearPolicy p => p' ← on_deposit_vested p ctx; Ok (LinearPolicy p')
    | CddPolicy p => p' ← on_deposit_vested p ctx; Ok (CddPolicy p')
    | InstantPolicy p => p' ← on_deposit_vested p ctx; Ok (InstantPolicy p')
    end;
  on_withdraw := λ v ctx,
    match v with
    | LinearPolicy p => p' ← on_withdraw p ctx; Ok (LinearPolicy p')
    | CddPolicy p => p' ← on_withdraw p ctx; Ok (CddPolicy p')
    | InstantPolicy p => p' ← on_withdraw p ctx; Ok (InstantPolicy p')
    end }.

Inductive vesting_balance_type :=
  | vbt_unspecified | vbt_cashback | vbt_worker | vbt_witness | vbt_market_fee_sharing.

#[global] Instance vesting_balance_type_eq_dec : EqDecision vesting_balance_type.
Proof. solve_decision. Defined.

Record vesting_balance_object := VestingBalanceObject {
  vb_owner : account_id_type;
  vb_balance : asset;
  vb_policy : vesting_policy;
  vb_type : vesting_balance_type }.

Definition vb_set (o : vesting_balance_object) (b : asset) (p : vesting_policy) :=
  VestingBalanceObject (vb_owner o) b p (vb_type o).

Definition vb_is_deposit_allowed (o : vesting_balance_object) (now : Z) (amt : asset) :=
  is_deposit_allowed (vb_policy o) (VestingPolicyContext (vb_balance o) now amt).

Definition vb_is_deposit_vested_allowed (o : vesting_balance_object) (now : Z) (amt : asset) :=
  is_deposit_vested_allowed (vb_policy o) (VestingPolicyContext (vb_balance o) now amt).

Definition vb_is_withdraw_allowed (o : vesting_balance_object) (now : Z) (amt : asset) :=
  is_withdraw_allowed (vb_policy o) (VestingPolicyContext (vb_balance o) now amt).

Definition vb_deposit (now : Z) (amt : asset) (o : vesting_balance_object)
    : result vesting_balance_object :=
  p ← on_deposit (vb_policy o) (VestingPolicyContext (vb_balance o) now amt);
  b ← asset_add (vb_balance o) amt;
  Ok (vb_set o b p).

Definition vb_deposit_vested (now : Z) (amt : asset) (o : vesting_balance_object)
    : result vesting_balance_object :=
  p ← on_deposit_vested (vb_policy o) (VestingPolicyContext (vb_balance o) now amt);
  b ← asset_add (vb_balance o) amt;
  Ok (vb_set o b p).

Definition vb_withdraw (now : Z) (amt : asset) (o : vesting_balance_object)
    : result vesting_balance_object :=
  p ← on_withdraw (vb_policy o) (VestingPolicyContext (vb_balance o) now amt);
  b ← asset_sub (vb_balance o) amt;
  Ok (vb_set o b p).

Definition vb_get_allowed_withdraw (o : vesting_balance_object) (now : Z) : result asset :=
  get_allowed_withdraw (vb_policy o)
    (VestingPolicyContext (vb_balance o) now (Asset 0 core_asset_id)).

(** ** What a policy promises

    [policy_inv p b t]: [p] governs the balance [b], and was last used at time [t].  Between
    uses time only moves forward.  [takes_deposits p]: funds may be added; the code adds funds,
    vesting or vested, to coin-days balances (cashback, witness and worker pay) and to instant
    ones (market fees) only. *)
Class VestingPolicyLaws (P : Type) `{VestingPolicy P} := {
  policy_inv : P → asset → Z → Prop;
  takes_deposits : P → bool;
  policy_inv_later p b t t' : policy_inv p b t → t ≤ t' → is_time t' → policy_inv p b t';
  allowed_within_balance p b t amt :
    policy_inv p b t → asset_wf b →
    ∃ a, get_allowed_withdraw p (VestingPolicyContext b t amt) = Ok a ∧
      asset_id a = asset_id b ∧ 0 ≤ amount a ≤ amount b;
  withdraw_within_allowed p b t amt :
    policy_inv p b t → asset_wf b →
    is_withdraw_allowed p (VestingPolicyContext b t amt) = Ok true →
    asset_id amt = asset_id b ∧
    ∃ a, get_allowed_withdraw p (VestingPolicyContext b t amt) = Ok a ∧ amount amt ≤ amount a;
  policy_inv_deposit p b t amt p' :
    takes_deposits p = true → policy_inv p b t → asset_wf b → 0 ≤ amount amt →
    on_deposit p (VestingPolicyContext b t amt) = Ok p' →
    takes_deposits p' = true ∧ policy_inv p' (Asset (amount b + amount amt) (asset_id b)) t;
  policy_inv_deposit_vested p b t amt p' :
    takes_deposits p = true → policy_inv p b t → asset_wf b → 0 ≤ amount amt →
    on_deposit_vested p (VestingPolicyContext b t amt) = Ok p' →
    takes_deposits p' = true ∧ policy_inv p' (Asset (amount b + amount amt) (asset_id b)) t;
  policy_inv_withdraw p b t amt p' a :
    policy_inv p b t → asset_wf b → 0 ≤ amount amt →
    get_allowed_withdraw p (VestingPolicyContext b t amt) = Ok a → amount amt ≤ amount a →
    on_withdraw p (VestingPolicyContext b t amt) = Ok p' →
    policy_inv p' (Asset (amount b - amount amt) (asset_id b)) t }.

Lemma same_asset_and_true ctx r :
  same_asset_and ctx r = Ok true →
  asset_id (ctx_amount ctx) = asset_id (ctx_balance ctx) ∧ r = Ok true.
Proof. unfold same_asset_and. intros. inv_ok; propify; done. Qed.

Lemma le_allowed_true amt (r : result asset) :
  (a ← r; asset_le amt a) = Ok true →
  ∃ a, r = Ok a ∧ asset_id amt = asset_id a ∧ amount amt ≤ amount a.
Proof.
  intros H. inv_ok. apply asset_le_Ok in H as [? Hle]. symmetry in Hle. propify. eauto.
Qed.

Section linear_laws.
Import Linear.
Implicit Types (p : linear_vesting_policy).

(** The amount the schedule has released by time [t]. *)
Definition vested p (t : Z) : Z :=
  if decide (begin_timestamp p < t ∧ vesting_cliff_seconds p ≤ t - begin_timestamp p) then
    if decide (t - begin_timestamp p < vesting_duration_seconds p)
    then begin_balance p * (t - begin_timestamp p) / vesting_duration_seconds p
    else begin_balance p
  else 0.

Record linear_inv p (b : asset) (t : Z) : Prop := {
  lin_begin : is_share (begin_balance p) ∧ 0 ≤ begin_balance p;
  lin_duration : vesting_duration_seconds p < 2 ^ 32;
  lin_withdrawn : 0 ≤ begin_balance p - amount b ≤ vested p t;
  lin_time : is_time t }.

Lemma vested_bounds p t : 0 ≤ begin_balance p → 0 ≤ vested p t ≤ begin_balance p.
Proof.
  intros Hb. unfold vested. repeat case_decide; try lia.
  pose proof (div_down_spec (begin_balance p * (t - begin_timestamp p))
    (vesting_duration_seconds p) ltac:(lia)).
  split; [apply Z.div_pos; nia|nia].
Qed.

Lemma vested_mono p t t' : 0 ≤ begin_balance p → t ≤ t' → vested p t ≤ vested p t'.
Proof.
  intros Hb Ht. pose proof (vested_bounds p t Hb). pose proof (vested_bounds p t' Hb).
  unfold vested in *. repeat case_decide; try lia.
  apply Z.div_le_mono; [lia|nia].
Qed.

Lemma linear_allowed p b t amt :
  linear_inv p b t → asset_wf b →
  allowed p (VestingPolicyContext b t amt) =
    Ok (Asset (if decide (begin_timestamp p < t ∧ vesting_cliff_seconds p ≤ t - begin_timestamp p)
               then vested p t - (begin_balance p - amount b) else 0) (asset_id b)).
Proof.
  intros [[Hs Hb] Hd Hw Ht] [Hsb Hbb]. pose proof (vested_bounds p t Hb) as Hv.
  unfold allowed; simpl.
  destruct (Z.ltb_spec (begin_timestamp p) t),
    (Z.leb_spec (vesting_cliff_seconds p) (t - begin_timestamp p));
    (case_decide as Hcliff; [|try lia; done]); try lia.
  assert (Hsub : share_sub (begin_balance p) (amount b) = Ok (begin_balance p - amount b)).
  { apply share_sub_ok; [done|done|]. unfold is_share, INT64_MIN, INT64_MAX in *. lia. }
  assert (Hfin : ∀ v, v = vested p t →
    share_sub v (begin_balance p - amount b) = Ok (vested p t - (begin_balance p - amount b))).
  { intros v ->. unfold is_share, INT64_MIN, INT64_MAX in Hs, Hsb.
    apply share_sub_ok; unfold is_share, INT64_MIN, INT64_MAX; lia. }
  unfold vested in *. rewrite decide_True in * by done.
  destruct (Z.ltb_spec (t - begin_timestamp p) (vesting_duration_seconds p)).
  - rewrite decide_True in * by done. rewrite u128_share by done. unfold u128_mul, u128_div.
    rewrite u128_small by (unfold is_share, INT64_MAX, UINT128_MOD in *; nia).
    unfold is_share, INT64_MIN, INT64_MAX in Hs, Hsb. rewrite to_uint64_small by lia.
    rewrite share_check_ok by (unfold is_share, INT64_MIN, INT64_MAX; lia).
    simpl. rewrite Hsub. simpl. by rewrite Hfin.
  - rewrite decide_False in * by lia. simpl. rewrite Hsub. simpl. by rewrite Hfin.
Qed.

#[global] Instance linear_laws : VestingPolicyLaws linear_vesting_policy.
Proof.
  refine {| policy_inv := linear_inv; takes_deposits := λ _, false |}.
  - intros p b t t' [Hb Hd Hw Ht] Hle Ht'. split; try done.
    pose proof (vested_mono p t t'). lia.
  - intros p b t amt Hinv Hwf. simpl. rewrite (linear_allowed p b t amt Hinv Hwf).
    eexists; split; [done|]. simpl. destruct Hinv as [[Hs Hb] Hd Hw Ht], Hwf.
    pose proof (vested_bounds p t Hb). case_decide; lia.
  - intros p b t amt Hinv Hwf H. simpl in H. apply same_asset_and_true in H as [? H]. simpl in *.
    apply le_allowed_true in H as (a & E & _ & ?). eauto.
  - done.
  - done.
  - intros p b t amt p' a Hinv Hwf Ha E Hle E'. simpl in E, E'. injection E' as <-.
    rewrite (linear_allowed p b t amt Hinv Hwf) in E. injection E as <-. simpl in Hle.
    destruct Hinv as [Hb Hd Hw Ht]. split; simpl; try done.
    pose proof (vested_bounds p t). case_decide; lia.
Defined.
End linear_laws.

Section cdd_laws.
Import Cdd.
Implicit Types (p : cdd_vesting_policy).

(** [std::max(vesting_seconds, 1u)]. *)
Notation period p := (Z.max (vesting_seconds p) 1).

Record cdd_inv p (b : asset) (t : Z) : Prop := {
  cdd_seconds : 0 ≤ vesting_seconds p < 2 ^ 32;
  cdd_earned : 0 ≤ coin_seconds_earned p < UINT128_MOD;
  cdd_update : 0 ≤ coin_seconds_earned_last_update p ≤ t;
  cdd_time : is_time t }.

(** Where no more has been earned than the balance can, no step of the computation wraps: it is
    the capped sum over the integers. *)
Lemma compute_coin_seconds_exact p b t amt :
  cdd_inv p b t → coin_seconds_earned p ≤ amount b * period p → asset_wf b →
  compute_coin_seconds_earned p (VestingPolicyContext b t amt) =
    Z.min (coin_seconds_earned p + amount b * (t - coin_seconds_earned_last_update p))
          (amount b * period p).
Proof.
  intros [Hv He Hu Ht] Hcap [Hs Hb]. unfold compute_coin_seconds_earned; simpl.
  unfold is_time, time_point_sec_maximum in Ht. unfold is_share, INT64_MIN, INT64_MAX in Hs.
  rewrite !(u128_small (amount b)) by (unfold UINT128_MOD; lia).
  rewrite (u128_small (t - _)) by (unfold UINT128_MOD; lia).
  assert (0 ≤ amount b * (t - coin_seconds_earned_last_update p) ≤ 2 ^ 63 * 2 ^ 32) by nia.
  assert (0 ≤ amount b * period p ≤ 2 ^ 63 * 2 ^ 32) by nia.
  unfold u128_mul, u128_add.
  rewrite (u128_small (amount b * (t - _))) by (unfold UINT128_MOD; lia).
  rewrite (u128_small (amount b * period p)) by (unfold UINT128_MOD; lia).
  rewrite u128_small by (unfold UINT128_MOD; lia). done.
Qed.

Lemma compute_coin_seconds_bounds p b t amt :
  cdd_inv p b t → asset_wf b →
  0 ≤ compute_coin_seconds_earned p (VestingPolicyContext b t amt) ≤ amount b * period p.
Proof.
  intros [Hv He Hu Ht] [Hs Hb]. unfold compute_coin_seconds_earned, u128_add; simpl.
  pose proof (u128_range (coin_seconds_earned p +
    u128_mul (u128 (amount b)) (u128 (t - coin_seconds_earned_last_update p)))).
  assert (u128_mul (u128 (amount b)) (period p) = amount b * period p) as ->; [|lia].
  rewrite u128_share by done. apply u128_small.
  unfold is_share, INT64_MIN, INT64_MAX, UINT128_MOD in *. nia.
Qed.

Lemma compute_coin_seconds_range p b t amt :
  cdd_inv p b t → asset_wf b →
  0 ≤ compute_coin_seconds_earned p (VestingPolicyContext b t amt) < UINT128_MOD.
Proof.
  intros Hi Hw. pose proof (compute_coin_seconds_bounds p b t amt Hi Hw).
  destruct Hi as [Hv _ _ _], Hw as [Hs Hb]. unfold is_share, INT64_MIN, INT64_MAX, UINT128_MOD in *. nia.
Qed.

Lemma cdd_allowed p b t amt :
  cdd_inv p b t → asset_wf b →
  allowed p (VestingPolicyContext b t amt) =
    Ok (Asset (if decide (t ≤ start_claim p) then 0
               else compute_coin_seconds_earned p (VestingPolicyContext b t amt) / period p)
          (asset_id b)) ∧
  0 ≤ compute_coin_seconds_earned p (VestingPolicyContext b t amt) / period p ≤ amount b.
Proof.
  intros Hi Hw. pose proof (compute_coin_seconds_bounds p b t amt Hi Hw) as Hc.
  unfold allowed. destruct Hi as [Hv He Hu Ht], Hw as [Hs Hb].
  set (c := compute_coin_seconds_earned _ _) in *. clearbody c. simpl.
  assert (0 ≤ c / period p ≤ amount b) as Hq
    by (split; [apply Z.div_pos | apply Z.div_le_upper_bound]; lia).
  split; [|done]. destruct (Z.leb_spec t (start_claim p)); case_decide; try lia; [done|].
  unfold u128_div. unfold is_share, INT64_MIN, INT64_MAX in Hs.
  rewrite to_uint64_small by lia.
  by rewrite share_check_ok by (unfold is_share, INT64_MIN, INT64_MAX; lia).
Qed.

#[global] Instance cdd_laws : VestingPolicyLaws cdd_vesting_policy.
Proof.
  refine {| policy_inv := cdd_inv; takes_deposits := λ _, true |}.
  - intros p b t t' [Hv He Hu Ht] Hle Ht'. split; try done. lia.
  - intros p b t amt Hi Hw. destruct (cdd_allowed p b t amt Hi Hw) as [E Hq].
    eexists; split; [exact E|]. simpl. destruct Hw. case_decide; lia.
  - intros p b t amt Hi Hw H. simpl in H. apply le_allowed_true in H as (a & E & Hid & Hle).
    split; [|by eauto]. destruct (cdd_allowed p b t amt Hi Hw) as [E' _].
    rewrite E in E'. by injection E' as ->.
  - intros p b t amt p' _ [Hv He Hu Ht] Hw Ha E. simpl in E. injection E as <-.
    split; [done|]. split; simpl; try done; [|unfold is_time in Ht; lia].
    by apply compute_coin_seconds_range.
  - intros p b t amt p' _ [Hv He Hu Ht] Hw Ha E. simpl in E. injection E as <-.
    split; [done|]. split; simpl; try done; [apply u128_range|unfold is_time in Ht; lia].
  - intros p b t amt p' a Hi Hw Ha E Hle E'. simpl in E, E'. injection E' as <-.
    destruct (cdd_allowed p b t amt Hi Hw) as [E' Hq]. rewrite E in E'. injection E' as ->.
    simpl in Hle. pose proof (compute_coin_seconds_bounds p b t amt Hi Hw) as Hc.
    destruct Hi as [Hv He Hu Ht], Hw as [Hs Hb]. unfold withdraw; simpl.
    set (c := compute_coin_seconds_earned _ _) in *. clearbody c.
    assert (amount amt * period p ≤ c).
    { pose proof (div_down_spec c (period p) ltac:(lia)). case_decide; nia. }
    unfold is_share, INT64_MIN, INT64_MAX in Hs.
    rewrite (u128_small (amount amt)) by (unfold UINT128_MOD; case_decide; lia).
    assert (amount b * period p ≤ 2 ^ 63 * 2 ^ 32) by nia.
    unfold u128_mul, u128_sub.
    rewrite (u128_small (amount amt * _)) by (unfold UINT128_MOD; lia).
    rewrite u128_small by (unfold UINT128_MOD; lia).
    unfold is_time in Ht. split; simpl; try done; unfold UINT128_MOD; nia.
Defined.
End cdd_laws.

Section instant_laws.
Import Instant.

#[global] Instance instant_laws : VestingPolicyLaws instant_vesting_policy.
Proof.
  refine {| policy_inv := λ _ _ t, is_time t; takes_deposits := λ _, true |}; try done.
  - intros p b t amt Ht [_ Hb]. exists b. simpl. split_and!; done || lia.
  - intros p b t amt Ht Hw H. simpl in H. apply same_asset_and_true in H as [? H]. simpl in *.
    split; [done|]. exists b. split; [done|]. apply asset_le_Ok in H as [_ H].
    symmetry in H. by propify.
Defined.
End instant_laws.

(** The variant keeps the promise of whichever policy it holds. *)
Definition variant_takes (v : vesting_policy) : bool :=
  match v with
  | LinearPolicy p => takes_deposits p
  | CddPolicy p => takes_deposits p
  | InstantPolicy p => takes_deposits p
  end.

Definition variant_inv (v : vesting_policy) (b : asset) (t : Z) : Prop :=
  match v with
  | LinearPolicy p => policy_inv p b t
  | CddPolicy p => policy_inv p b t
  | InstantPolicy p => policy_inv p b t
  end.

#[global] Instance variant_laws : VestingPolicyLaws vesting_policy.
Proof.
  refine {| policy_inv := variant_inv; takes_deposits := variant_takes |}.
  - intros [p|p|p] b t t'; apply (policy_inv_later p).
  - intros [p|p|p] b t amt; apply (allowed_within_balance p).
  - intros [p|p|p] b t amt; apply (withdraw_within_allowed p).
  - intros [p|p|p] b t amt p' Hd Hi Hw Ha E; [done| |]; cbn in E; injection E as <-;
      exact (policy_inv_deposit p b t amt _ Hd Hi Hw Ha eq_refl).
  - intros [p|p|p] b t amt p' Hd Hi Hw Ha E; [done| |]; cbn in E; injection E as <-;
      exact (policy_inv_deposit_vested p b t amt _ Hd Hi Hw Ha eq_refl).
  - intros [p|p|p] b t amt p' a Hi Hw Ha Ea Hle E; cbn in E; injection E as <-;
      exact (policy_inv_withdraw p b t amt _ a Hi Hw Ha Ea Hle eq_refl).
Defined.

(** ** The balance object over its life *)

Record vb_wf (o : vesting_balance_object) (t : Z) : Prop := {
  vbw_balance : asset_wf (vb_balance o);
  vbw_policy : policy_inv (vb_policy o) (vb_balance o) t }.

(** The operations a vesting balance goes through: deposits of funds that vest and of vested
    funds into balances that take them, and withdrawals guarded by their predicate as the callers
    do. *)
Inductive vb_step : vesting_balance_object → Z → Z → vesting_balance_object → Prop :=
  | vb_step_deposit o o' now amt :
      0 ≤ amount amt → takes_deposits (vb_policy o) = true →
      vb_deposit now amt o = Ok o' → vb_step o now (amount amt) o'
  | vb_step_deposit_vested o o' now amt :
      0 ≤ amount amt → takes_deposits (vb_policy o) = true →
      vb_deposit_vested now amt o = Ok o' → vb_step o now (amount amt) o'
  | vb_step_withdraw o o' now amt :
      0 ≤ amount amt → vb_is_withdraw_allowed o now amt = Ok true →
      vb_withdraw now amt o = Ok o' → vb_step o now (- amount amt) o'.

Lemma vb_step_wf o t now d o' :
  vb_wf o t → t ≤ now → is_time now → vb_step o now d o' →
  vb_wf o' now ∧ asset_id (vb_balance o') = asset_id (vb_balance o) ∧
  amount (vb_balance o') = amount (vb_balance o) + d.
Proof.
  intros [Hb Hp] Hle Ht Hstep. pose proof (policy_inv_later _ _ _ _ Hp Hle Ht) as Hp'.
  destruct Hstep as [o o' now amt Ha Hd E | o o' now amt Ha Hd E | o o' now amt Ha Hal E].
  - unfold vb_deposit in E. apply bind_Ok in E as (p & Ep & E). inv_ok. inv_asset.
    split; [|done]. split; simpl.
    + destruct Hb. by split; [|simpl; lia].
    + exact (proj2 (policy_inv_deposit (vb_policy o) _ now amt p Hd Hp' Hb Ha Ep)).
  - unfold vb_deposit_vested in E. apply bind_Ok in E as (p & Ep & E). inv_ok. inv_asset.
    split; [|done]. split; simpl.
    + destruct Hb. by split; [|simpl; lia].
    + exact (proj2 (policy_inv_deposit_vested (vb_policy o) _ now amt p Hd Hp' Hb Ha Ep)).
  - unfold vb_is_withdraw_allowed in Hal.
    destruct (withdraw_within_allowed _ _ _ _ Hp' Hb Hal) as (Hid & a & Ea & Hle').
    destruct (allowed_within_balance _ _ _ amt Hp' Hb) as (a' & Ea' & _ & Hbd).
    assert (a' = a) as -> by congruence.
    unfold vb_withdraw in E. apply bind_Ok in E as (p & Ep & E). inv_ok. inv_asset.
    split; [|split; [done|lia]]. split; simpl.
    + split; [done|simpl; lia].
    + exact (policy_inv_withdraw (vb_policy o) _ now amt p a Hp' Hb Ha Ea Hle' Ep).
Qed.

(** A history: steps at nondecreasing times, [ds] the changes of the balance. *)
Inductive vb_run : vesting_balance_object → Z → list Z → vesting_balance_object → Z → Prop :=
  | vb_run_nil o t : vb_run o t [] o t
  | vb_run_cons o t now d o1 ds o2 t2 :
      t ≤ now → is_time now → vb_step o now d o1 → vb_run o1 now ds o2 t2 →
      vb_run o t (d :: ds) o2 t2.

Definition Zsum (l : list Z) : Z := foldr Z.add 0 l.

(** C28: a vesting balance never pays out more than it holds. Take a well-formed vesting balance,
    linear, coin-days or instant, and any sequence, at nondecreasing times, of allowed withdrawals
    and, unless the balance is linear, of allowed deposits (vesting or already vested); a linear
    balance holds at most its begin_balance and gets no deposits, as its documentation demands. Then
    the balance is the initial one plus deposits minus withdrawals, it is not negative, and at any
    later time [get_allowed_withdraw] returns an amount between zero and the balance - also after a
    vested deposit whose 64-bit product has wrapped. *)
Theorem vesting_never_overpays o t ds o' t' now :
  vb_wf o t → vb_run o t ds o' t' → t' ≤ now → is_time now →
  amount (vb_balance o') = amount (vb_balance o) + Zsum ds ∧ 0 ≤ amount (vb_balance o') ∧
  ∃ a, vb_get_allowed_withdraw o' now = Ok a ∧
    asset_id a = asset_id (vb_balance o') ∧ 0 ≤ amount a ≤ amount (vb_balance o').
Proof.
  intros Hwf Hrun Hle Ht. induction Hrun as [o t | o t n d o1 ds o2 t2 Htn Hn Hstep Hrun IH].
  - destruct Hwf as [Hb Hp]. split_and!; [simpl; lia|by destruct Hb|].
    eapply allowed_within_balance; [|done]. by eapply policy_inv_later.
  - destruct (vb_step_wf _ _ _ _ _ Hwf Htn Hn Hstep) as (Hwf1 & _ & Hsum).
    destruct (IH Hwf1 Hle) as (Hsum2 & Hrest). split; [simpl; lia|done].
Qed.

(** The linear schedule.  After the cliff the allowed withdrawal is the vested part of the
    initial balance less what has been withdrawn, before it nothing; and once the duration has
    passed the whole balance may be withdrawn. *)
Theorem linear_vesting_schedule p b t amt :
  linear_inv p b t → asset_wf b →
  ∃ a, get_allowed_withdraw p (VestingPolicyContext b t amt) = Ok a ∧
    asset_id a = asset_id b ∧
    (t < Linear.begin_timestamp p + Linear.vesting_cliff_seconds p → amount a = 0) ∧
    (Linear.begin_timestamp p < t →
     Linear.begin_timestamp p + Linear.vesting_cliff_seconds p ≤ t →
     amount a = vested p t - (Linear.begin_balance p - amount b)) ∧
    (Linear.begin_timestamp p < t →
     Linear.begin_timestamp p
       + Z.max (Linear.vesting_cliff_seconds p) (Linear.vesting_duration_seconds p) ≤ t →
     amount a = amount b).
Proof.
  intros Hi Hw. eexists. split; [exact (linear_allowed p b t amt Hi Hw)|]. simpl.
  split_and!; [done|intros; case_decide; lia..|].
  intros. rewrite decide_True by lia. unfold vested. rewrite decide_True, decide_False by lia. lia.
Qed.

(** Coin-days vesting releases everything held for the vesting period, and a deposit of
    vested funds is available at once, as long as its coin-seconds fit the 64-bit product the
    code computes. *)
Theorem cdd_vesting_available p b t amt :
  cdd_inv p b t → Cdd.coin_seconds_earned p ≤ amount b * Z.max (Cdd.vesting_seconds p) 1 →
  asset_wf b → Cdd.start_claim p < t →
  (Cdd.coin_seconds_earned_last_update p + Z.max (Cdd.vesting_seconds p) 1 ≤ t →
   get_allowed_withdraw p (VestingPolicyContext b t amt) = Ok b) ∧
  (0 ≤ amount amt → amount amt * Z.max (Cdd.vesting_seconds p) 1 ≤ INT64_MAX →
   is_share (amount b + amount amt) →
   ∃ p' a, on_deposit_vested p (VestingPolicyContext b t amt) = Ok p' ∧
     get_allowed_withdraw p (VestingPolicyContext b t amt) = Ok a ∧
     get_allowed_withdraw p' (VestingPolicyContext
       (Asset (amount b + amount amt) (asset_id b)) t amt)
       = Ok (Asset (amount a + amount amt) (asset_id b))).
Proof.
  intros Hi Hcap Hw Hclaim. destruct (cdd_allowed p b t amt Hi Hw) as [E Hq].
  rewrite decide_False in E by lia. split.
  - intros Hlong. simpl. rewrite E. destruct b as [b i]; simpl in *. do 2 f_equal.
    rewrite compute_coin_seconds_exact by done. destruct Hi as [Hv He Hu Ht], Hw; simpl in *.
    rewrite Z.min_r by nia. apply Z.div_mul. lia.
  - intros Ha Hfit Hs. eexists _, _. split; [done|]. split; [exact E|]. simpl.
    pose proof (compute_coin_seconds_bounds p b t amt Hi Hw) as Hc. unfold Cdd.deposit_vested; simpl.
    set (c := Cdd.compute_coin_seconds_earned _ _) in *. clearbody c.
    destruct Hi as [Hv He Hu Ht], Hw as [Hsb Hb].
    assert (Hd : u128_add c (u128 (to_int64 (amount amt * Z.max (Cdd.vesting_seconds p) 1)))
      = c + amount amt * Z.max (Cdd.vesting_seconds p) 1).
    { unfold is_share, INT64_MIN, INT64_MAX in *.
      rewrite to_int64_small by (unfold is_share, INT64_MIN, INT64_MAX; nia).
      assert (amount b * Z.max (Cdd.vesting_seconds p) 1 ≤ 2 ^ 63 * 2 ^ 32) by nia.
      unfold u128_add. rewrite (u128_small (amount amt * _)) by (unfold UINT128_MOD; nia).
      apply u128_small. unfold UINT128_MOD. nia. }
    rewrite Hd. set (p' := Cdd.set_earned _ _).
    assert (cdd_inv p' (Asset (amount b + amount amt) (asset_id b)) t) as Hi'.
    { unfold is_time in Ht. unfold is_share, INT64_MIN, INT64_MAX in *.
      split; simpl; try done; unfold UINT128_MOD; nia. }
    destruct (cdd_allowed p' (Asset (amount b + amount amt) (asset_id b)) t amt Hi') as [E' _];
      [split; simpl; [done|lia]|].
    rewrite E'. rewrite decide_False by (simpl; lia). simpl. do 2 f_equal.
    rewrite compute_coin_seconds_exact; [|done|simpl; nia|split; simpl; [done|lia]]. simpl.
    rewrite Z.sub_diag, Z.mul_0_r, Z.add_0_r, Z.min_l by nia. apply Z.div_add. lia.
Qed.

(** The bound matters: with a vesting period of one year, a vested deposit of
    600,000,000,000 satoshis into an empty balance makes only a fortieth of it available. *)
Example cdd_deposit_vested_overflow :
  let p := Cdd.CddVestingPolicy 31536000 0 0 1000 in
  let amt := Asset 600000000000 0 in
  ∃ p', on_deposit_vested p (VestingPolicyContext (Asset 0 0) 2000 amt) = Ok p' ∧
    get_allowed_withdraw p' (VestingPolicyContext amt 2000 amt) = Ok (Asset 15057582644 0).
Proof. eexists. split; [reflexivity|]. vm_compute. reflexivity. Qed.

(** *** Concrete runs *)
Definition w_linear : Linear.linear_vesting_policy := Linear.LinearVestingPolicy 100 10 1000 5000.
Definition w_vbo : vesting_balance_object :=
  VestingBalanceObject 7 (Asset 5000 0) (LinearPolicy w_linear) vbt_unspecified.

Lemma w_linear_inv t b :
  is_time t → 0 ≤ 5000 - amount b ≤ vested w_linear t → linear_inv w_linear b t.
Proof. intros. by split. Qed.

Lemma w_vbo_wf : vb_wf w_vbo 100.
Proof. split; [by split|]. by apply w_linear_inv. Qed.

(** A coin-days balance: a vested deposit, a deposit that vests, then a withdrawal. *)
Definition w_cdd_vbo : vesting_balance_object :=
  VestingBalanceObject 7 (Asset 100 0) (CddPolicy (Cdd.CddVestingPolicy 100 0 0 1000)) vbt_cashback.
Definition w_cdd_end : vesting_balance_object :=
  VestingBalanceObject 7 (Asset 145 0) (CddPolicy (Cdd.CddVestingPolicy 100 9200 0 1050)) vbt_cashback.

Example vesting_never_overpays_witness :
  vb_run w_cdd_vbo 1000 [60; 45; -60] w_cdd_end 1050 ∧
  ∃ a, vb_get_allowed_withdraw w_cdd_end 1060 = Ok a ∧ asset_id a = 0 ∧ 0 ≤ amount a ≤ 145.
Proof.
  assert (Hrun : vb_run w_cdd_vbo 1000 [60; 45; -60] w_cdd_end 1050).
  { eapply (vb_run_cons _ _ 1010); [lia|done| |].
    { by apply (vb_step_deposit_vested _
        (VestingBalanceObject 7 (Asset 160 0) (CddPolicy (Cdd.CddVestingPolicy 100 7000 0 1010)) vbt_cashback)
        _ (Asset 60 0)). }
    eapply (vb_run_cons _ _ 1010); [lia|done| |].
    { by apply (vb_step_deposit _
        (VestingBalanceObject 7 (Asset 205 0) (CddPolicy (Cdd.CddVestingPolicy 100 7000 0 1010)) vbt_cashback)
        _ (Asset 45 0)). }
    eapply (vb_run_cons _ _ 1050); [lia|done| |apply vb_run_nil].
    by apply (vb_step_withdraw _ _ _ (Asset 60 0)). }
  split; [exact Hrun|].
  destruct (vesting_never_overpays w_cdd_vbo 1000 [60; 45; -60] w_cdd_end 1050 1060)
    as (_ & _ & H); [by repeat split|exact Hrun|lia|done|exact H].
Defined.

Example linear_vesting_schedule_witness :
  ∃ a, get_allowed_withdraw w_linear (VestingPolicyContext (Asset 4000 0) 600 (Asset 0 0)) = Ok a ∧
    amount a = 1500.
Proof.
  destruct (linear_vesting_schedule w_linear (Asset 4000 0) 600 (Asset 0 0)) as (a & E & _ & _ & Ha & _);
    [by apply w_linear_inv|by split|].
  exists a. split; [exact E|]. rewrite Ha by (simpl; lia). reflexivity.
Defined.

Example cdd_vesting_available_witness :
  get_allowed_withdraw (Cdd.CddVestingPolicy 100 0 0 1000)
    (VestingPolicyContext (Asset 77 0) 1100 (Asset 5 0)) = Ok (Asset 77 0).
Proof.
  apply (cdd_vesting_available (Cdd.CddVestingPolicy 100 0 0 1000) (Asset 77 0) 1100 (Asset 5 0));
    [by split|done|by split|done|done].
Defined.
