(* ===== verification/ChainState.v ===== *)
(** * The chain state

    The objects the modelled operations read and write, with the members they use, from the
    object headers of libraries/chain/include/graphene/chain and libraries/protocol, and the
    part of [class database] that stores them.

    - An object id is its instance number.  A [table] is a [generic_index] together with its
      next id; [Indexed] states which pairs of objects violate a unique secondary key.
    - An asset's dynamic data and an account's statistics are objects of their own in the
      code, created once per asset or account and found through an id stored there; they are
      keyed by that asset or account here.
    - Account balances are keyed by owner and asset type, as [balances_by_account_index]
      does. *)
From Stdlib Require Import Strings.Byte.
From S2P Require Import Prelude MachineInt Hardfork Asset Authority Vesting.

(** ** Tables *)

Record table (A : Type) := Table { next_id : Z; rows : gmap Z A }.
Arguments Table {A}.
Arguments next_id {A}.
Arguments rows {A}.

Class Indexed (A : Type) := conflicts : A → A → bool.

Section tables.
Context {A : Type} `{Indexed A}.
Implicit Types (t : table A) (v : A).

(** Does [v] clash with an object of [t] other than [id]? *)
Definition clashes (id : Z) v t : bool :=
  bool_decide (map_Exists (λ k u, k ≠ id ∧ conflicts v u = true) (rows t)).

Definition tbl_get t (id : Z) : result A :=
  match rows t !! id with
  | Some v => Ok v
  | None => Err (assert_exception "Unable to find Object")
  end.

Definition tbl_create v t : result (Z * table A) :=
  match rows t !! next_id t with
  | Some _ => Err (assert_exception
      "Could not create object! Most likely a uniqueness constraint is violated.")
  | None =>
    FC_ASSERT (negb (clashes (next_id t) v t))
      "Could not create object! Most likely a uniqueness constraint is violated.";;
    Ok (next_id t, Table (next_id t + 1) (<[next_id t := v]> (rows t)))
  end.

Definition tbl_modify (id : Z) (m : A → result A) t : result (table A) :=
  v ← tbl_get t id;
  v' ← m v;
  FC_ASSERT (negb (clashes id v' t))
    "Could not modify object, most likely an index constraint was violated";;
  Ok (Table (next_id t) (<[id := v']> (rows t))).

Definition tbl_remove (id : Z) t : result (table A) :=
  tbl_get t id;; Ok (Table (next_id t) (delete id (rows t))).

(** The first object of an index ordered by [key] and then by id. *)
Definition before (key : A → Z) (x y : Z * A) : bool :=
  (key x.2 <? key y.2) || ((key x.2 =? key y.2) && (x.1 <? y.1)).

Definition first_by (key : A → Z) t : option (Z * A) :=
  foldr (λ x acc, match acc with
                  | None => Some x
                  | Some y => if before key x y then Some x else Some y
                  end) None (map_to_list (rows t)).

(** The object a search by a unique key finds. *)
Definition find_row (p : A → bool) t : option (Z * A) :=
  foldr (λ x acc, if p x.2 then Some x else acc) None (map_to_list (rows t)).
End tables.

(** ** Objects *)

Record additional_asset_options := AdditionalAssetOptions {
  reward_percent : option Z;
  whitelist_market_fee_sharing : option (gset account_id_type);
  taker_fee_percent : option Z }.

Record asset_options := AssetOptions {
  max_supply : share_type;
  market_fee_percent : Z;
  max_market_fee : share_type;
  issuer_permissions : Z;
  flags : Z;
  core_exchange_rate : price;
  whitelist_authorities : gset account_id_type;
  blacklist_authorities : gset account_id_type;
  whitelist_markets : gset asset_id_type;
  blacklist_markets : gset asset_id_type;
  extensions : additional_asset_options }.

Record asset_object := AssetObject {
  ao_issuer : account_id_type;
  ao_options : asset_options;
  ao_bitasset_data_id : option Z;
  ao_for_liquidity_pool : option Z }.

(** [enum asset_issuer_permission_flags], the flags the operations test. *)
Definition flag_charge_market_fee : Z := 0x01.
Definition flag_white_list : Z := 0x02.
Definition flag_override_authority : Z := 0x04.
Definition flag_transfer_restricted : Z := 0x08.
Definition flag_witness_fed_asset : Z := 0x80.
Definition flag_committee_fed_asset : Z := 0x100.
Definition flag_disable_new_supply : Z := 0x400.

Definition has_flag (a : asset_object) (f : Z) : bool :=
  negb (Z.land (flags (ao_options a)) f =? 0).

Definition is_market_issued (a : asset_object) : bool := bool_decide (is_Some (ao_bitasset_data_id a)).
Definition is_liquidity_pool_share_asset (a : asset_object) : bool :=
  bool_decide (is_Some (ao_for_liquidity_pool a)).
Definition charges_market_fees (a : asset_object) : bool := has_flag a flag_charge_market_fee.
Definition is_transfer_restricted (a : asset_object) : bool := has_flag a flag_transfer_restricted.
Definition can_override (a : asset_object) : bool := has_flag a flag_override_authority.
Definition can_create_new_supply (a : asset_object) : bool :=
  negb (has_flag a flag_disable_new_supply).

Record asset_dynamic_data_object := AssetDynamicDataObject {
  current_supply : share_type;
  confidential_supply : share_type;
  accumulated_fees : share_type;
  accumulated_collateral_fees : share_type;
  fee_pool : share_type }.

Record account_object := AccountObject {
  membership_expiration_date : Z;
  registrar : account_id_type;
  referrer : account_id_type;
  lifetime_referrer : account_id_type;
  network_fee_percentage : Z;
  lifetime_referrer_fee_percentage : Z;
  referrer_rewards_percentage : Z;
  whitelisting_accounts : gset account_id_type;
  blacklisting_accounts : gset account_id_type;
  cashback_vb : option Z;
  allowed_assets : option (gset asset_id_type);
  acc_owner : authority;
  acc_active : authority }.

Definition is_basic_account (a : account_object) (now : Z) : bool :=
  membership_expiration_date a <? now.

Record account_statistics_object := AccountStatisticsObject {
  total_core_in_orders : share_type;
  total_core_inactive : share_type;
  total_core_pob : share_type;
  total_core_pol : share_type;
  total_pob_value : share_type;
  total_pol_value : share_type;
  has_cashback_vb : bool;
  lifetime_fees_paid : share_type;
  pending_fees : share_type;
  pending_vested_fees : share_type }.

Record account_balance_object := AccountBalanceObject {
  ab_balance : share_type;
  ab_maintenance_flag : bool }.

(** Two market-fee-sharing balances of one owner and asset violate [by_vesting_type]. *)
#[global] Instance vesting_balance_indexed : Indexed vesting_balance_object := λ x y,
  bool_decide (vb_type x = vbt_market_fee_sharing) && bool_decide (vb_type y = vbt_market_fee_sharing)
  && (vb_owner x =? vb_owner y) && (asset_id (vb_balance x) =? asset_id (vb_balance y)).

Record liquidity_pool_object := LiquidityPoolObject {
  lp_asset_a : asset_id_type;
  lp_asset_b : asset_id_type;
  lp_balance_a : share_type;
  lp_balance_b : share_type;
  lp_share_asset : asset_id_type;
  lp_taker_fee_percent : Z;
  lp_withdrawal_fee_percent : Z;
  lp_virtual_value : Z }.

#[global] Instance liquidity_pool_indexed : Indexed liquidity_pool_object := λ x y,
  lp_share_asset x =? lp_share_asset y.

Record samet_fund_object := SametFundObject {
  sf_owner_account : account_id_type;
  sf_asset_type : asset_id_type;
  sf_balance : share_type;
  sf_fee_rate : Z;
  sf_unpaid_amount : share_type }.

#[global] Instance samet_fund_indexed : Indexed samet_fund_object := λ _ _, false.

Record credit_offer_object := CreditOfferObject {
  co_owner_account : account_id_type;
  co_asset_type : asset_id_type;
  co_total_balance : share_type;
  co_current_balance : share_type;
  co_fee_rate : Z;
  co_max_duration_seconds : Z;
  co_min_deal_amount : share_type;
  co_enabled : bool;
  co_auto_disable_time : Z;
  co_acceptable_collateral : gmap asset_id_type price;
  co_acceptable_borrowers : gmap account_id_type share_type }.

#[global] Instance credit_offer_indexed : Indexed credit_offer_object := λ _ _, false.

Record credit_deal_object := CreditDealObject {
  cd_borrower : account_id_type;
  cd_offer_id : Z;
  cd_offer_owner : account_id_type;
  cd_debt_asset : asset_id_type;
  cd_debt_amount : share_type;
  cd_collateral_asset : asset_id_type;
  cd_collateral_amount : share_type;
  cd_fee_rate : Z;
  cd_latest_repay_time : Z;
  cd_auto_repay : Z }.

#[global] Instance credit_deal_indexed : Indexed credit_deal_object := λ _ _, false.

Record credit_deal_summary_object := CreditDealSummaryObject {
  cs_borrower : account_id_type;
  cs_offer_id : Z;
  cs_offer_owner : account_id_type;
  cs_debt_asset : asset_id_type;
  cs_total_debt_amount : share_type }.

#[global] Instance credit_deal_summary_indexed : Indexed credit_deal_summary_object := λ x y,
  (cs_offer_id x =? cs_offer_id y) && (cs_borrower x =? cs_borrower y).

(** [htlc_hash] is a static variant of four hash types; [hash_value] is the digest. *)
Inductive htlc_hash_kind := algo_ripemd160 | algo_sha1 | algo_sha256 | algo_hash160.

#[global] Instance htlc_hash_kind_eq_dec : EqDecision htlc_hash_kind.
Proof. solve_decision. Defined.

#[global] Instance byte_eq_decision : EqDecision Byte.byte := Byte.byte_eq_dec.

Record htlc_hash := HtlcHash { hash_kind : htlc_hash_kind; hash_value : list Byte.byte }.

#[global] Instance htlc_hash_eq_dec : EqDecision htlc_hash.
Proof. solve_decision. Defined.

Record htlc_object := HtlcObject {
  ht_from : account_id_type;
  ht_to : account_id_type;
  ht_amount : share_type;
  ht_asset_id : asset_id_type;
  ht_preimage_hash : htlc_hash;
  ht_preimage_size : Z;
  ht_expiration : Z }.

#[global] Instance htlc_indexed : Indexed htlc_object := λ _ _, false.

Inductive ticket_type :=
  | liquid | lock_180_days | lock_360_days | lock_720_days | lock_forever.

#[global] Instance ticket_type_eq_dec : EqDecision ticket_type.
Proof. solve_decision. Defined.

Inductive ticket_status := charging | stable | withdrawing.

#[global] Instance ticket_status_eq_dec : EqDecision ticket_status.
Proof. solve_decision. Defined.

Record ticket_object := TicketObject {
  tk_account : account_id_type;
  tk_target_type : ticket_type;
  tk_amount : asset;
  tk_current_type : ticket_type;
  tk_status : ticket_status;
  tk_value : share_type;
  tk_next_auto_update_time : Z;
  tk_next_type_downgrade_time : Z }.

#[global] Instance ticket_indexed : Indexed ticket_object := λ _ _, false.

Record withdraw_permission_object := WithdrawPermissionObject {
  wp_withdraw_from_account : account_id_type;
  wp_authorized_account : account_id_type;
  wp_withdrawal_limit : asset;
  wp_withdrawal_period_sec : Z;
  wp_period_start_time : Z;
  wp_expiration : Z;
  wp_claimed_this_period : share_type }.

#[global] Instance withdraw_permission_indexed : Indexed withdraw_permission_object := λ _ _, false.

(** The only alternative of [limit_order_auto_action]. *)
Record create_take_profit_order_action := CreateTakeProfitOrderAction {
  tp_fee_asset_id : asset_id_type;
  tp_spread_percent : Z;
  tp_size_percent : Z;
  tp_expiration_seconds : Z;
  tp_repeat : bool }.

Record limit_order_object := LimitOrderObject {
  lo_expiration : Z;
  lo_seller : account_id_type;
  lo_for_sale : share_type;
  lo_sell_price : price;
  lo_filled_amount : Z;
  lo_deferred_fee : share_type;
  lo_deferred_paid_fee : asset;
  lo_on_fill : list create_take_profit_order_action;
  lo_take_profit_order_id : option Z }.

#[global] Instance limit_order_indexed : Indexed limit_order_object := λ _ _, false.

Record htlc_options := HtlcOptions { max_timeout_secs : Z; max_preimage_size : Z }.

(** The members of [chain_parameters] and its extensions the operations read. *)
Record chain_parameters := ChainParameters {
  block_interval : Z;
  cashback_vesting_period_seconds : Z;
  cashback_vesting_threshold : share_type;
  witness_pay_vesting_seconds : Z;
  updatable_htlc_options : option htlc_options;
  market_fee_network_percent : option Z;
  maker_fee_discount_percent : option Z;
  max_authority_depth : Z;
  maximum_proposal_lifetime : Z;
  committee_proposal_review_period : Z;
  maximum_asset_feed_publishers : Z }.

Definition get_market_fee_network_percent (p : chain_parameters) : Z :=
  default 0 (market_fee_network_percent p).
Definition get_maker_fee_discount_percent (p : chain_parameters) : Z :=
  default 0 (maker_fee_discount_percent p).

(** ** The database *)

Record database := Database {
  head_block_time : Z;
  next_maintenance_time : Z;
  parameters : chain_parameters;
  balances : gmap (account_id_type * asset_id_type) account_balance_object;
  accounts : gmap account_id_type account_object;
  statistics : gmap account_id_type account_statistics_object;
  assets : gmap asset_id_type asset_object;
  dynamic_data : gmap asset_id_type asset_dynamic_data_object;
  vesting_balances : table vesting_balance_object;
  liquidity_pools : table liquidity_pool_object;
  samet_funds : table samet_fund_object;
  credit_offers : table credit_offer_object;
  credit_deals : table credit_deal_object;
  credit_deal_summaries : table credit_deal_summary_object;
  htlcs : table htlc_object;
  tickets : table ticket_object;
  withdraw_permissions : table withdraw_permission_object;
  limit_orders : table limit_order_object;
  total_pob : share_type;
  total_inactive : share_type;
  active_witnesses_size : Z }.

(** Functional updates of one member. *)
Definition set_balances (v : gmap (account_id_type * asset_id_type) account_balance_object) (d : database) : database :=
  Database (head_block_time d) (next_maintenance_time d) (parameters d) v (accounts d)
    (statistics d) (assets d) (dynamic_data d) (vesting_balances d) (liquidity_pools d)
    (samet_funds d) (credit_offers d) (credit_deals d) (credit_deal_summaries d) (htlcs
    d) (tickets d) (withdraw_permissions d) (limit_orders d) (total_pob d)
    (total_inactive d) (active_witnesses_size d).
Definition set_accounts (v : gmap account_id_type account_object) (d : database) : database :=
  Database (head_block_time d) (next_maintenance_time d) (parameters d) (balances d) v
    (statistics d) (assets d) (dynamic_data d) (vesting_balances d) (liquidity_pools d)
    (samet_funds d) (credit_offers d) (credit_deals d) (credit_deal_summaries d) (htlcs
    d) (tickets d) (withdraw_permissions d) (limit_orders d) (total_pob d)
    (total_inactive d) (active_witnesses_size d).
Definition set_statistics (v : gmap account_id_type account_statistics_object) (d : database) : database :=
  Database (head_block_time d) (next_maintenance_time d) (parameters d) (balances d)
    (accounts d) v (assets d) (dynamic_data d) (vesting_balances d) (liquidity_pools d)
    (samet_funds d) (credit_offers d) (credit_deals d) (credit_deal_summaries d) (htlcs
    d) (tickets d) (withdraw_permissions d) (limit_orders d) (total_pob d)
    (total_inactive d) (active_witnesses_size d).
Definition set_assets (v : gmap asset_id_type asset_object) (d : database) : database :=
  Database (head_block_time d) (next_maintenance_time d) (parameters d) (balances d)
    (accounts d) (statistics d) v (dynamic_data d) (vesting_balances d) (liquidity_pools
    d) (samet_funds d) (credit_offers d) (credit_deals d) (credit_deal_summaries d)
    (htlcs d) (tickets d) (withdraw_permissions d) (limit_orders d) (total_pob d)
    (total_inactive d) (active_witnesses_size d).
Definition set_dynamic_data (v : gmap asset_id_type asset_dynamic_data_object) (d : database) : database :=
  Database (head_block_time d) (next_maintenance_time d) (parameters d) (balances d)
    (accounts d) (statistics d) (assets d) v (vesting_balances d) (liquidity_pools d)
    (samet_funds d) (credit_offers d) (credit_deals d) (credit_deal_summaries d) (htlcs
    d) (tickets d) (withdraw_permissions d) (limit_orders d) (total_pob d)
    (total_inactive d) (active_witnesses_size d).
Definition set_vesting_balances (v : table vesting_balance_object) (d : database) : database :=
  Database (head_block_time d) (next_maintenance_time d) (parameters d) (balances d)
    (accounts d) (statistics d) (assets d) (dynamic_data d) v (liquidity_pools d)
    (samet_funds d) (credit_offers d) (credit_deals d) (credit_deal_summaries d) (htlcs
    d) (tickets d) (withdraw_permissions d) (limit_orders d) (total_pob d)
    (total_inactive d) (active_witnesses_size d).
Definition set_liquidity_pools (v : table liquidity_pool_object) (d : database) : database :=
  Database (head_block_time d) (next_maintenance_time d) (parameters d) (balances d)
    (accounts d) (statistics d) (assets d) (dynamic_data d) (vesting_balances d) v
    (samet_funds d) (credit_offers d) (credit_deals d) (credit_deal_summaries d) (htlcs
    d) (tickets d) (withdraw_permissions d) (limit_orders d) (total_pob d)
    (total_inactive d) (active_witnesses_size d).
Definition set_samet_funds (v : table samet_fund_object) (d : database) : database :=
  Database (head_block_time d) (next_maintenance_time d) (parameters d) (balances d)
    (accounts d) (statistics d) (assets d) (dynamic_data d) (vesting_balances d)
    (liquidity_pools d) v (credit_offers d) (credit_deals d) (credit_deal_summaries d)
    (htlcs d) (tickets d) (withdraw_permissions d) (limit_orders d) (total_pob d)
    (total_inactive d) (active_witnesses_size d).
Definition set_credit_offers (v : table credit_offer_object) (d : database) : database :=
  Database (head_block_time d) (next_maintenance_time d) (parameters d) (balances d)
    (accounts d) (statistics d) (assets d) (dynamic_data d) (vesting_balances d)
    (liquidity_pools d) (samet_funds d) v (credit_deals d) (credit_deal_summaries d)
    (htlcs d) (tickets d) (withdraw_permissions d) (limit_orders d) (total_pob d)
    (total_inactive d) (active_witnesses_size d).
Definition set_credit_deals (v : table credit_deal_object) (d : database) : database :=
  Database (head_block_time d) (next_maintenance_time d) (parameters d) (balances d)
    (accounts d) (statistics d) (assets d) (dynamic_data d) (vesting_balances d)
    (liquidity_pools d) (samet_funds d) (credit_offers d) v (credit_deal_summaries d)
    (htlcs d) (tickets d) (withdraw_permissions d) (limit_orders d) (total_pob d)
    (total_inactive d) (active_witnesses_size d).
Definition set_credit_deal_summaries (v : table credit_deal_summary_object) (d : database) : database :=
  Database (head_block_time d) (next_maintenance_time d) (parameters d) (balances d)
    (accounts d) (statistics d) (assets d) (dynamic_data d) (vesting_balances d)
    (liquidity_pools d) (samet_funds d) (credit_offers d) (credit_deals d) v (htlcs d)
    (tickets d) (withdraw_permissions d) (limit_orders d) (total_pob d) (total_inactive
    d) (active_witnesses_size d).
Definition set_htlcs (v : table htlc_object) (d : database) : database :=
  Database (head_block_time d) (next_maintenance_time d) (parameters d) (balances d)
    (accounts d) (statistics d) (assets d) (dynamic_data d) (vesting_balances d)
    (liquidity_pools d) (samet_funds d) (credit_offers d) (credit_deals d)
    (credit_deal_summaries d) v (tickets d) (withdraw_permissions d) (limit_orders d)
    (total_pob d) (total_inactive d) (active_witnesses_size d).
Definition set_tickets (v : table ticket_object) (d : database) : database :=
  Database (head_block_time d) (next_maintenance_time d) (parameters d) (balances d)
    (accounts d) (statistics d) (assets d) (dynamic_data d) (vesting_balances d)
    (liquidity_pools d) (samet_funds d) (credit_offers d) (credit_deals d)
    (credit_deal_summaries d) (htlcs d) v (withdraw_permissions d) (limit_orders d)
    (total_pob d) (total_inactive d) (active_witnesses_size d).
Definition set_withdraw_permissions (v : table withdraw_permission_object) (d : database) : database :=
  Database (head_block_time d) (next_maintenance_time d) (parameters d) (balances d)
    (accounts d) (statistics d) (assets d) (dynamic_data d) (vesting_balances d)
    (liquidity_pools d) (samet_funds d) (credit_offers d) (credit_deals d)
    (credit_deal_summaries d) (htlcs d) (tickets d) v (limit_orders d) (total_pob d)
    (total_inactive d) (active_witnesses_size d).
Definition set_limit_orders (v : table limit_order_object) (d : database) : database :=
  Database (head_block_time d) (next_maintenance_time d) (parameters d) (balances d)
    (accounts d) (statistics d) (assets d) (dynamic_data d) (vesting_balances d)
    (liquidity_pools d) (samet_funds d) (credit_offers d) (credit_deals d)
    (credit_deal_summaries d) (htlcs d) (tickets d) (withdraw_permissions d) v
    (total_pob d) (total_inactive d) (active_witnesses_size d).
Definition set_total_pob (v : share_type) (d : database) : database :=
  Database (head_block_time d) (next_maintenance_time d) (parameters d) (balances d)
    (accounts d) (statistics d) (assets d) (dynamic_data d) (vesting_balances d)
    (liquidity_pools d) (samet_funds d) (credit_offers d) (credit_deals d)
    (credit_deal_summaries d) (htlcs d) (tickets d) (withdraw_permissions d)
    (limit_orders d) v (total_inactive d) (active_witnesses_size d).
Definition set_total_inactive (v : share_type) (d : database) : database :=
  Database (head_block_time d) (next_maintenance_time d) (parameters d) (balances d)
    (accounts d) (statistics d) (assets d) (dynamic_data d) (vesting_balances d)
    (liquidity_pools d) (samet_funds d) (credit_offers d) (credit_deals d)
    (credit_deal_summaries d) (htlcs d) (tickets d) (withdraw_permissions d)
    (limit_orders d) (total_pob d) v (active_witnesses_size d).

Definition find_object {A} (m : gmap Z A) (id : Z) : result A :=
  match m !! id with
  | Some v => Ok v
  | None => Err (assert_exception "Unable to find Object")
  end.

Definition get_account (d : database) (id : account_id_type) := find_object (accounts d) id.
Definition get_statistics (d : database) (id : account_id_type) := find_object (statistics d) id.
Definition get_asset (d : database) (id : asset_id_type) := find_object (assets d) id.
Definition get_dynamic_data (d : database) (id : asset_id_type) := find_object (dynamic_data d) id.

(** [modify( obj, m )] for the objects keyed by their owner; [m] may throw. *)
Definition modify_statistics (id : account_id_type)
    (m : account_statistics_object → result account_statistics_object) (d : database)
    : result database :=
  s ← get_statistics d id; s' ← m s; Ok (set_statistics (<[id := s']> (statistics d)) d).

Definition modify_dynamic_data (id : asset_id_type)
    (m : asset_dynamic_data_object → result asset_dynamic_data_object) (d : database)
    : result database :=
  s ← get_dynamic_data d id; s' ← m s; Ok (set_dynamic_data (<[id := s']> (dynamic_data d)) d).

Definition modify_account (id : account_id_type)
    (m : account_object → result account_object) (d : database) : result database :=
  s ← get_account d id; s' ← m s; Ok (set_accounts (<[id := s']> (accounts d)) d).

Definition modify_asset (id : asset_id_type)
    (m : asset_object → result asset_object) (d : database) : result database :=
  s ← get_asset d id; s' ← m s; Ok (set_assets (<[id := s']> (assets d)) d).

(** Updates of single members of the dynamic data. *)
Definition dd_with_supply (s : asset_dynamic_data_object) v :=
  AssetDynamicDataObject v (confidential_supply s) (accumulated_fees s)
    (accumulated_collateral_fees s) (fee_pool s).
Definition dd_with_fees (s : asset_dynamic_data_object) v :=
  AssetDynamicDataObject (current_supply s) (confidential_supply s) v
    (accumulated_collateral_fees s) (fee_pool s).
Definition dd_with_collateral_fees (s : asset_dynamic_data_object) v :=
  AssetDynamicDataObject (current_supply s) (confidential_supply s) (accumulated_fees s)
    v (fee_pool s).
Definition dd_with_fee_pool (s : asset_dynamic_data_object) v :=
  AssetDynamicDataObject (current_supply s) (confidential_supply s) (accumulated_fees s)
    (accumulated_collateral_fees s) v.

(** ** Lemmas on tables *)
Section table_lemmas.
Context {A : Type} `{Indexed A}.
Implicit Types (t : table A) (v : A).

Lemma tbl_get_Ok t id v : tbl_get t id = Ok v ↔ rows t !! id = Some v.
Proof. unfold tbl_get. destruct (rows t !! id); naive_solver. Qed.

Lemma tbl_create_Ok v t id t' :
  tbl_create v t = Ok (id, t') →
  id = next_id t ∧ rows t !! id = None ∧ t' = Table (id + 1) (<[id := v]> (rows t)).
Proof. unfold tbl_create. destruct (rows t !! next_id t) eqn:E; intros; inv_ok; naive_solver. Qed.

Lemma tbl_modify_Ok id m t t' :
  tbl_modify id m t = Ok t' →
  ∃ v v', rows t !! id = Some v ∧ m v = Ok v' ∧ t' = Table (next_id t) (<[id := v']> (rows t)).
Proof.
  unfold tbl_modify. intros. inv_ok. rewrite tbl_get_Ok in *. naive_solver.
Qed.

Lemma tbl_remove_Ok id t t' :
  tbl_remove id t = Ok t' →
  ∃ v, rows t !! id = Some v ∧ t' = Table (next_id t) (delete id (rows t)).
Proof. unfold tbl_remove. intros. inv_ok. rewrite tbl_get_Ok in *. naive_solver. Qed.

Lemma find_row_Some p t x :
  find_row p t = Some x → rows t !! x.1 = Some x.2 ∧ p x.2 = true.
Proof.
  unfold find_row. assert (∀ y, y ∈ map_to_list (rows t) → rows t !! y.1 = Some y.2) as Hin
    by (intros [k v]; apply elem_of_map_to_list).
  induction (map_to_list (rows t)) as [|y l IH]; simpl; [done|].
  intros Hf. destruct (p y.2) eqn:E.
  - injection Hf as <-. split; [apply Hin; left|done].
  - apply IH; [|done]. intros z Hz. apply Hin. by right.
Qed.

Lemma find_row_None p t id v : find_row p t = None → rows t !! id = Some v → p v = false.
Proof.
  unfold find_row. rewrite <- elem_of_map_to_list.
  induction (map_to_list (rows t)) as [|y l IH]; simpl; [by intros _ ?%elem_of_nil|].
  intros Hf Hin. destruct (p y.2) eqn:E; [done|].
  apply elem_of_cons in Hin as [<-|Hin]; [done|by apply IH].
Qed.

Lemma first_by_None key t : first_by key t = None ↔ rows t = ∅.
Proof.
  unfold first_by. rewrite <- map_to_list_empty_iff.
  destruct (map_to_list (rows t)) as [|x l]; simpl; [done|].
  split; [|done]. case_match; [case_match|]; done.
Qed.

(** The object returned is stored, and no stored object has a smaller key. *)
Lemma first_by_Some key t x :
  first_by key t = Some x →
  rows t !! x.1 = Some x.2 ∧ ∀ id v, rows t !! id = Some v → key x.2 ≤ key v.
Proof.
  unfold first_by. intros Hf.
  assert (x ∈ map_to_list (rows t) ∧ ∀ y, y ∈ map_to_list (rows t) → key x.2 ≤ key y.2)
    as [Hin Hmin].
  { revert x Hf. induction (map_to_list (rows t)) as [|y l IH]; simpl; [done|].
    intros x Hf. destruct (foldr _ None l) as [z|] eqn:E.
    - destruct (IH z eq_refl) as [Hz Hmin]. destruct (before key y z) eqn:Eb;
        injection Hf as <-; unfold before in Eb; propify.
      + split; [by left|]. intros w [->|Hw]%elem_of_cons; [lia|].
        apply Hmin in Hw. destruct Eb; propify; lia.
      + split; [by right|]. intros w [->|Hw]%elem_of_cons; [|by apply Hmin].
        lia.
    - injection Hf as <-. split; [by left|]. intros w [->|Hw]%elem_of_cons; [lia|].
      destruct l as [|w' l]; [by apply elem_of_nil in Hw|]. simpl in E.
      by destruct (foldr _ None l); [case_match|]. }
  split; [by apply elem_of_map_to_list; destruct x|].
  intros id v Hv. apply (Hmin (id, v)). by apply elem_of_map_to_list.
Qed.
End table_lemmas.

Lemma find_object_Ok {A} (m : gmap Z A) id v : find_object m id = Ok v ↔ m !! id = Some v.
Proof. unfold find_object. destruct (m !! id); naive_solver. Qed.

Lemma modify_statistics_Ok id m d d' :
  modify_statistics id m d = Ok d' →
  ∃ s s', statistics d !! id = Some s ∧ m s = Ok s' ∧
    d' = set_statistics (<[id := s']> (statistics d)) d.
Proof.
  unfold modify_statistics, get_statistics. intros. inv_ok. rewrite find_object_Ok in *. eauto 10.
Qed.
Lemma modify_dynamic_data_Ok id m d d' :
  modify_dynamic_data id m d = Ok d' →
  ∃ s s', dynamic_data d !! id = Some s ∧ m s = Ok s' ∧
    d' = set_dynamic_data (<[id := s']> (dynamic_data d)) d.
Proof.
  unfold modify_dynamic_data, get_dynamic_data. intros. inv_ok. rewrite find_object_Ok in *. eauto 10.
Qed.
Lemma modify_account_Ok id m d d' :
  modify_account id m d = Ok d' →
  ∃ s s', accounts d !! id = Some s ∧ m s = Ok s' ∧
    d' = set_accounts (<[id := s']> (accounts d)) d.
Proof.
  unfold modify_account, get_account. intros. inv_ok. rewrite find_object_Ok in *. eauto 10.
Qed.
Lemma modify_asset_Ok id m d d' :
  modify_asset id m d = Ok d' →
  ∃ s s', assets d !! id = Some s ∧ m s = Ok s' ∧
    d' = set_assets (<[id := s']> (assets d)) d.
Proof.
  unfold modify_asset, get_asset. intros. inv_ok. rewrite find_object_Ok in *. eauto 10.
Qed.
