(* ===== verification/Frames.v ===== *)
(** * Frames: what a computation leaves alone

    [yields view v r] states that if the computation [r] returns, the state it returns has the view [v]; [view] may be any
    function of the database.  The tactic [keeps] proves it by walking through a definition, with the lemmas of the
    functions it calls in the hint database [settings]. *)
From S2P Require Import Prelude ChainState.

(** The results that contain a state. *)
Class HasDb (X : Type) := the_db : X → database.
#[global] Instance has_db : HasDb database := id.
#[global] Instance has_db_pair {A B} `{HasDb A} : HasDb (A * B) := λ x, the_db x.1.

Definition yields {X V} `{HasDb X} (view : database → V) (v : V) (r : result X) : Prop :=
  ∀ x, r = Ok x → view (the_db x) = v.

Section rules.
Context {X Y V : Type} `{HasDb X} (view : database → V).
Implicit Types (v : V).

Lemma keeps_ok v (x : X) : view (the_db x) = v → yields view v (Ok x).
Proof. by intros ? y [= <-]. Qed.

Lemma keeps_err v e : yields view v (Err e : result X).
Proof. by intros x. Qed.

Lemma keeps_bind v `{HasDb Y} (r : result Y) (f : Y → result X) :
  yields view v r → (∀ y, view (the_db y) = v → yields view v (f y)) → yields view v (r ≫= f).
Proof. intros Hr Hf x (y & Hy & Hx)%bind_Ok. exact (Hf y (Hr y Hy) x Hx). Qed.

Lemma keeps_bind_other v (r : result Y) (f : Y → result X) :
  (∀ y, yields view v (f y)) → yields view v (r ≫= f).
Proof. intros Hf x (y & _ & Hx)%bind_Ok. exact (Hf y x Hx). Qed.
End rules.

Create HintDb settings.

Ltac keeps_split :=
  repeat match goal with y : (_ * _)%type |- _ => destruct y end;
  cbn [the_db has_db has_db_pair id fst snd] in *.
Ltac keeps_call := solve [eauto 4 with settings].
Ltac keeps_step :=
  lazymatch goal with
  | |- yields _ _ (Err _) => apply keeps_err
  | |- yields _ _ (Ok ?x) => apply keeps_ok; cbn in *; first [done|congruence]
  | |- yields _ _ (mret _) => apply keeps_ok; cbn in *; first [done|congruence]
  | |- yields ?w ?s (@mbind _ _ ?Y _ ?f ?r) =>
    first [let i := constr:(_ : HasDb Y) in
           refine (@keeps_bind _ Y _ _ w s i r f _ _); [|intros ? ?; keeps_split]
          |apply keeps_bind_other; intros ?; keeps_split]
  | |- yields _ _ (if ?b then _ else _) => destruct b
  | |- yields _ _ (match ?x with _ => _ end) => destruct x eqn:?
  | |- yields _ _ (let _ := _ in _) => cbv zeta
  | |- yields _ _ _ => keeps_call
  end.
Ltac keeps := intros; repeat keeps_step.

(** [keeps_def f] for a function that is not recursive. *)
Tactic Notation "keeps_def" reference(f) := intros; unfold f; keeps.
