(* ===== verification/Ledger.v ===== *)
(** * The ledger's books

    What the chain state holds of each asset, and the effect of a state change on it.  This is
    the accounting that [database_fixture_base::verify_asset_supplies]
    (tests/common/database_fixture.cpp) checks after every unit test, restricted to the
    objects that are modelled: for every asset, everything held in balances, pending fees, fee
    pools, accumulated fees, vesting balances, liquidity pools, SameT funds, credit offers,
    collateral of credit deals, HTLCs and tickets adds up to the current supply.

    [moves d d' f] is the effect logic the operations are verified with: going from [d] to
    [d'] adds [f a] of asset [a] to the difference between holdings and supply, and no
    account balance becomes negative. *)
From S2P Require Import Prelude MachineInt Hardfork Asset Vesting ChainState.

(** [amt i x a]: an amount [x] of asset [i], seen as a quantity of asset [a]. *)
Definition amt (i : asset_id_type) (x : Z) (a : asset_id_type) : Z :=
  if decide (i = a) then x else 0.

Ltac amt_solve := unfold amt; repeat case_decide; simplify_eq; try lia.

(** ** Holdings *)

Class Holding (A : Type) := held : A → asset_id_type → Z.

#[global] Instance vesting_balance_holding : Holding vesting_balance_object := λ v,
  amt (asset_id (vb_balance v)) (amount (vb_balance v)).
#[global] Instance liquidity_pool_holding : Holding liquidity_pool_object := λ v a,
  amt (lp_asset_a v) (lp_balance_a v) a + amt (lp_asset_b v) (lp_balance_b v) a.
#[global] Instance samet_fund_holding : Holding samet_fund_object := λ v,
  amt (sf_asset_type v) (sf_balance v - sf_unpaid_amount v).
#[global] Instance credit_offer_holding : Holding credit_offer_object := λ v,
  amt (co_asset_type v) (co_current_balance v).
#[global] Instance credit_deal_holding : Holding credit_deal_object := λ v,
  amt (cd_collateral_asset v) (cd_collateral_amount v).
#[global] Instance htlc_holding : Holding htlc_object := λ v, amt (ht_asset_id v) (ht_amount v).
#[global] Instance ticket_holding : Holding ticket_object := λ v,
  amt (asset_id (tk_amount v)) (amount (tk_amount v)).

(** A limit order holds what it has for sale, the deferred fee in the core asset, and the fee
    as it was paid if that was in another asset. *)
#[global] Instance limit_order_holding : Holding limit_order_object := λ v a,
  amt (asset_id (base (lo_sell_price v))) (lo_for_sale v) a
  + amt core_asset_id (lo_deferred_fee v) a
  + amt (asset_id (lo_deferred_paid_fee v)) (amount (lo_deferred_paid_fee v)) a.

Definition tbl_held `{Holding A} (t : table A) (a : asset_id_type) : Z :=
  msum (λ _ v, held v a) (rows t).

Definition balances_held (m : gmap (account_id_type * asset_id_type) account_balance_object) a :=
  msum (λ k b, amt k.2 (ab_balance b) a) m.
Definition statistics_held (m : gmap account_id_type account_statistics_object) a :=
  msum (λ _ s, amt core_asset_id (pending_fees s + pending_vested_fees s) a) m.
Definition dd_held (i : asset_id_type) (s : asset_dynamic_data_object) a : Z :=
  amt i (accumulated_fees s + confidential_supply s) a + amt core_asset_id (fee_pool s) a.
Definition dynamic_data_held (m : gmap asset_id_type asset_dynamic_data_object) a :=
  msum (λ i s, dd_held i s a) m.

(** Everything the modelled objects hold of asset [a]. *)
Definition holdings (d : database) (a : asset_id_type) : Z :=
  balances_held (balances d) a + statistics_held (statistics d) a
  + dynamic_data_held (dynamic_data d) a + tbl_held (vesting_balances d) a
  + tbl_held (liquidity_pools d) a + tbl_held (samet_funds d) a
  + tbl_held (credit_offers d) a + tbl_held (credit_deals d) a
  + tbl_held (htlcs d) a + tbl_held (tickets d) a + tbl_held (limit_orders d) a.

(** The current supply of asset [a]. *)
Definition supply (d : database) (a : asset_id_type) : Z :=
  msum (λ i s, amt i (current_supply s) a) (dynamic_data d).

Lemma msum_amt_lookup {A} (f : A → Z) (m : gmap Z A) a :
  msum (λ i s, amt i (f s) a) m = match m !! a with Some s => f s | None => 0 end.
Proof.
  induction m as [|k v m Hk IH] using map_ind; [by rewrite msum_empty, lookup_empty|].
  rewrite msum_insert_new by done. rewrite IH. unfold amt. case_decide.
  - subst. rewrite lookup_insert_eq, Hk. lia.
  - by rewrite lookup_insert_ne.
Qed.

Lemma supply_lookup d a s : dynamic_data d !! a = Some s → supply d a = current_supply s.
Proof. intros E. unfold supply. by rewrite msum_amt_lookup, E. Qed.

(** Account balances never go negative. *)
Definition balances_nonneg (d : database) : Prop :=
  ∀ k b, balances d !! k = Some b → 0 ≤ ab_balance b.

(** *** Well-formed objects *)

(** The balances of a liquidity pool are values of [share_type], none is negative, they are
    zero together, and the cached product is their product. *)
Record pool_ok (p : liquidity_pool_object) : Prop := {
  po_share_a : is_share (lp_balance_a p);
  po_share_b : is_share (lp_balance_b p);
  po_nonneg : 0 ≤ lp_balance_a p ∧ 0 ≤ lp_balance_b p;
  po_zero : lp_balance_a p = 0 ↔ lp_balance_b p = 0;
  po_value : lp_virtual_value p = lp_balance_a p * lp_balance_b p }.

(** A SameT fund is not empty and never lends more than it has. *)
Definition fund_ok (f : samet_fund_object) : Prop :=
  0 < sf_balance f ∧ 0 ≤ sf_unpaid_amount f ≤ sf_balance f.

(** A credit offer's available balance is between zero and its total. *)
Definition offer_ok (o : credit_offer_object) : Prop :=
  0 ≤ co_current_balance o ≤ co_total_balance o.

(** A limit order offers something at a valid price, its deferred fees are not negative, a fee
    paid in another asset has a core value, and the order carries no take-profit action. *)
Record order_ok (o : limit_order_object) : Prop := {
  oo_price : price_wf (lo_sell_price o);
  oo_for_sale : 0 < lo_for_sale o ≤ INT64_MAX;
  oo_deferred : 0 ≤ lo_deferred_fee o;
  oo_paid : 0 ≤ amount (lo_deferred_paid_fee o);
  oo_backed : 0 < amount (lo_deferred_paid_fee o) → 0 < lo_deferred_fee o;
  oo_plain : lo_on_fill o = [];
  oo_unlinked : lo_take_profit_order_id o = None }.

(** The cap on market fees is not negative, as [asset_options::validate] requires. *)
Definition options_ok (o : asset_object) : Prop := 0 ≤ max_market_fee (ao_options o).

(** Every object of a table satisfies [P]. *)
Definition rows_ok {A} (P : A → Prop) (t : table A) : Prop :=
  ∀ id v, rows t !! id = Some v → P v.

(** What every operation maintains besides the sums. *)
Record books_ok (d : database) : Prop := {
  ok_balances : balances_nonneg d;
  ok_assets i o : assets d !! i = Some o → options_ok o;
  ok_pools : rows_ok pool_ok (liquidity_pools d);
  ok_funds : rows_ok fund_ok (samet_funds d);
  ok_offers : rows_ok offer_ok (credit_offers d);
  ok_orders : rows_ok order_ok (limit_orders d) }.

(** ** Effects *)
Record moves (d d' : database) (f : asset_id_type → Z) : Prop := {
  mv_backing a : holdings d' a - supply d' a = holdings d a - supply d a + f a;
  mv_ok : books_ok d → books_ok d' }.

(** A change that neither creates nor destroys unbacked units of any asset. *)
Definition conserves (d d' : database) : Prop := moves d d' (λ _, 0).

Lemma moves_refl d : moves d d (λ _, 0).
Proof. split; [intros; lia|done]. Qed.

Lemma moves_trans d1 d2 d3 f g :
  moves d1 d2 f → moves d2 d3 g → moves d1 d3 (λ a, f a + g a).
Proof. intros [H1 N1] [H2 N2]. split; [intros a; rewrite H2, H1; lia|auto]. Qed.

Lemma moves_ext d d' f g : moves d d' f → (∀ a, f a = g a) → moves d d' g.
Proof. intros [H N] E. split; [intros a; rewrite H, E; lia|done]. Qed.

#[global] Instance conserves_preorder : PreOrder conserves.
Proof.
  split; [intros d; apply moves_refl|].
  intros d1 d2 d3 H1 H2. eapply moves_ext; [eapply moves_trans; [apply H1|apply H2]|done].
Qed.

#[global] Instance moves_proper d d' : Proper (pointwise_relation _ eq ==> iff) (moves d d').
Proof. intros f g E. split; intros H; eapply moves_ext; eauto. Qed.

(** *** Elementary changes *)

Section table_effects.
Context `{Holding A} `{Indexed A}.
Implicit Types (t : table A).

Lemma tbl_held_create v t id t' a :
  tbl_create v t = Ok (id, t') → tbl_held t' a = tbl_held t a + held v a.
Proof.
  intros (-> & Hn & ->)%tbl_create_Ok. unfold tbl_held; simpl.
  rewrite msum_insert_new by done. lia.
Qed.

Lemma tbl_held_update t id v v' a :
  rows t !! id = Some v →
  tbl_held (Table (next_id t) (<[id := v']> (rows t))) a = tbl_held t a - held v a + held v' a.
Proof. intros Hv. unfold tbl_held; simpl. by rewrite (msum_insert_old _ _ _ v). Qed.

Lemma tbl_held_modify id m t t' :
  tbl_modify id m t = Ok t' →
  ∃ v v', rows t !! id = Some v ∧ m v = Ok v' ∧ rows t' !! id = Some v' ∧
    ∀ a, tbl_held t' a = tbl_held t a + (held v' a - held v a).
Proof.
  intros (v & v' & Hv & Hm & ->)%tbl_modify_Ok. exists v, v'.
  split_and!; [done|done|simpl; apply lookup_insert_eq|].
  intros a. rewrite (tbl_held_update _ _ v v') by done. lia.
Qed.

Lemma tbl_held_remove id t t' v a :
  rows t !! id = Some v → tbl_remove id t = Ok t' → tbl_held t' a = tbl_held t a - held v a.
Proof.
  intros Hv (v' & Hv' & ->)%tbl_remove_Ok. unfold tbl_held; simpl.
  rewrite (msum_delete _ _ _ v) by done. lia.
Qed.
End table_effects.

(** Invariants of a table's objects. *)
Section table_rows.
Context {A : Type} `{Indexed A} (P : A → Prop).
Implicit Types (t : table A).

Lemma rows_ok_create v t id t' :
  tbl_create v t = Ok (id, t') → P v → rows_ok P t → rows_ok P t'.
Proof.
  intros (-> & _ & ->)%tbl_create_Ok Hv Ht i w. simpl.
  rewrite lookup_insert_Some. naive_solver.
Qed.

Lemma rows_ok_modify id m t t' :
  tbl_modify id m t = Ok t' →
  (∀ v v', rows t !! id = Some v → m v = Ok v' → P v → P v') → rows_ok P t → rows_ok P t'.
Proof.
  intros (v & v' & Hv & Hm & ->)%tbl_modify_Ok HP Ht i w. simpl.
  rewrite lookup_insert_Some. naive_solver.
Qed.

Lemma rows_ok_remove id t t' : tbl_remove id t = Ok t' → rows_ok P t → rows_ok P t'.
Proof.
  intros (v & _ & ->)%tbl_remove_Ok Ht i w. simpl. rewrite lookup_delete_Some. naive_solver.
Qed.
End table_rows.

(** Replacing one table changes the books by the difference of what it holds. *)
Section set_effects.
Context (d : database).

Lemma moves_vesting_balances t f :
  (∀ a, tbl_held t a = tbl_held (vesting_balances d) a + f a) →
  moves d (set_vesting_balances t d) f.
Proof. intros E. split; [intros a; unfold holdings, supply; simpl; rewrite E; lia|by intros []]. Qed.

Lemma moves_liquidity_pools t f :
  (∀ a, tbl_held t a = tbl_held (liquidity_pools d) a + f a) → (books_ok d → rows_ok pool_ok t) →
  moves d (set_liquidity_pools t d) f.
Proof.
  intros E Ht. split; [intros a; unfold holdings, supply; simpl; rewrite E; lia|].
  intros Hok. specialize (Ht Hok). by destruct Hok.
Qed.

Lemma moves_samet_funds t f :
  (∀ a, tbl_held t a = tbl_held (samet_funds d) a + f a) → (books_ok d → rows_ok fund_ok t) →
  moves d (set_samet_funds t d) f.
Proof.
  intros E Ht. split; [intros a; unfold holdings, supply; simpl; rewrite E; lia|].
  intros Hok. specialize (Ht Hok). by destruct Hok.
Qed.

Lemma moves_credit_offers t f :
  (∀ a, tbl_held t a = tbl_held (credit_offers d) a + f a) → (books_ok d → rows_ok offer_ok t) →
  moves d (set_credit_offers t d) f.
Proof.
  intros E Ht. split; [intros a; unfold holdings, supply; simpl; rewrite E; lia|].
  intros Hok. specialize (Ht Hok). by destruct Hok.
Qed.

Lemma moves_credit_deals t f :
  (∀ a, tbl_held t a = tbl_held (credit_deals d) a + f a) → moves d (set_credit_deals t d) f.
Proof. intros E. split; [intros a; unfold holdings, supply; simpl; rewrite E; lia|by intros []]. Qed.

Lemma moves_htlcs t f :
  (∀ a, tbl_held t a = tbl_held (htlcs d) a + f a) → moves d (set_htlcs t d) f.
Proof. intros E. split; [intros a; unfold holdings, supply; simpl; rewrite E; lia|by intros []]. Qed.

Lemma moves_tickets t f :
  (∀ a, tbl_held t a = tbl_held (tickets d) a + f a) → moves d (set_tickets t d) f.
Proof. intros E. split; [intros a; unfold holdings, supply; simpl; rewrite E; lia|by intros []]. Qed.

Lemma moves_limit_orders t f :
  (∀ a, tbl_held t a = tbl_held (limit_orders d) a + f a) → (books_ok d → rows_ok order_ok t) →
  moves d (set_limit_orders t d) f.
Proof.
  intros E Ht. split; [intros a; unfold holdings, supply; simpl; rewrite E; lia|].
  intros Hok. specialize (Ht Hok). by destruct Hok.
Qed.

(** Members that hold no funds. *)
Lemma moves_credit_deal_summaries t : conserves d (set_credit_deal_summaries t d).
Proof. split; [intros a; unfold holdings, supply; simpl; lia|by intros []]. Qed.
Lemma moves_withdraw_permissions t : conserves d (set_withdraw_permissions t d).
Proof. split; [intros a; unfold holdings, supply; simpl; lia|by intros []]. Qed.
Lemma moves_accounts m : conserves d (set_accounts m d).
Proof. split; [intros a; unfold holdings, supply; simpl; lia|by intros []]. Qed.
Lemma moves_assets m :
  (∀ i o, m !! i = Some o → assets d !! i = Some o ∨ (books_ok d → options_ok o)) →
  conserves d (set_assets m d).
Proof.
  intros Hm. split; [intros a; unfold holdings, supply; simpl; lia|].
  intros Hok. pose proof Hok as [Hb Ha Hp Hf Ho Hl]. split; try done.
  intros i o [Hi|Hi]%Hm; eauto.
Qed.
Lemma moves_total_pob v : conserves d (set_total_pob v d).
Proof. split; [intros a; unfold holdings, supply; simpl; lia|by intros []]. Qed.
Lemma moves_total_inactive v : conserves d (set_total_inactive v d).
Proof. split; [intros a; unfold holdings, supply; simpl; lia|by intros []]. Qed.
End set_effects.

(** What a change of dynamic data or statistics adds. *)
Definition dd_delta (i : asset_id_type) (s s' : asset_dynamic_data_object) (a : asset_id_type) :=
  dd_held i s' a - dd_held i s a - (amt i (current_supply s' - current_supply s) a).

Lemma modify_dynamic_data_moves i m d d' :
  modify_dynamic_data i m d = Ok d' →
  ∃ s s', dynamic_data d !! i = Some s ∧ m s = Ok s' ∧ moves d d' (dd_delta i s s').
Proof.
  intros (s & s' & Hs & Hm & ->)%modify_dynamic_data_Ok. exists s, s'. split_and!; [done..|].
  split; [|by intros []]. intros a. unfold holdings, supply, dynamic_data_held, dd_delta; simpl.
  rewrite !(msum_insert_old _ _ _ s) by done. amt_solve.
Qed.

Lemma modify_statistics_moves i m d d' :
  modify_statistics i m d = Ok d' →
  ∃ s s', statistics d !! i = Some s ∧ m s = Ok s' ∧
    moves d d' (amt core_asset_id
      (pending_fees s' + pending_vested_fees s' - pending_fees s - pending_vested_fees s)).
Proof.
  intros (s & s' & Hs & Hm & ->)%modify_statistics_Ok. exists s, s'. split_and!; [done..|].
  split; [|by intros []]. intros a. unfold holdings, supply, statistics_held; simpl.
  rewrite !(msum_insert_old _ _ _ s) by done. amt_solve.
Qed.

Lemma modify_account_moves i m d d' : modify_account i m d = Ok d' → conserves d d'.
Proof. intros (s & s' & Hs & Hm & ->)%modify_account_Ok. apply moves_accounts. Qed.

Lemma modify_asset_moves i m d d' :
  (∀ s s', m s = Ok s' → ao_options s' = ao_options s) →
  modify_asset i m d = Ok d' → conserves d d'.
Proof.
  intros Hopt (s & s' & Hs & Hm & ->)%modify_asset_Ok. apply moves_assets.
  intros j o [[<- <-]|[_ Hl]]%lookup_insert_Some; [right|by left].
  intros Hok. unfold options_ok. rewrite (Hopt _ _ Hm). by eapply (ok_assets _ Hok).
Qed.

Lemma balances_moves d m k b :
  (balances_nonneg d → 0 ≤ b) →
  m = <[k := AccountBalanceObject b false]> (balances d) ∨
  m = <[k := AccountBalanceObject b true]> (balances d) →
  moves d (set_balances m d)
    (amt k.2 (b - match balances d !! k with Some x => ab_balance x | None => 0 end)).
Proof.
  intros Hb Hm. split.
  - intros a. unfold holdings, supply, balances_held; simpl.
    destruct (balances d !! k) as [x|] eqn:E; destruct Hm as [-> | ->];
      rewrite ?(msum_insert_old _ _ _ x), ?msum_insert_new by done; simpl; amt_solve.
  - intros [Hn Ha Hp Hf Ho Hl]. split; try done. intros k' x Hx. simpl in Hx.
    destruct Hm as [-> | ->]; apply lookup_insert_Some in Hx as [[_ <-]|[_ Hx]];
      simpl; eauto.
Qed.
