(* ===== verification/Sample.v ===== *)
(** * A sample state

    A small concrete database on which the other files run the operations: four accounts,
    the core asset and three user-issued assets, some balances, after every hard fork. *)
From S2P Require Import Prelude MachineInt Hardfork Asset Authority Vesting ChainState Ledger.

Definition sample_time : Z := 1700200000.

Definition sample_options : asset_options :=
  AssetOptions GRAPHENE_MAX_SHARE_SUPPLY 0 GRAPHENE_MAX_SHARE_SUPPLY 0 0
    (Price (Asset 1 0) (Asset 1 1)) ∅ ∅ ∅ ∅ (AdditionalAssetOptions None None None).

(** Asset 1 charges a market fee of 1%. *)
Definition sample_fee_options : asset_options :=
  AssetOptions GRAPHENE_MAX_SHARE_SUPPLY 100 GRAPHENE_MAX_SHARE_SUPPLY 0 flag_charge_market_fee
    (Price (Asset 1 0) (Asset 1 1)) ∅ ∅ ∅ ∅ (AdditionalAssetOptions None None None).

(** Every sample account [a] is controlled by its own key; the owner key is [1000 + a]. *)
Definition sample_account_of (a : account_id_type) : account_object :=
  AccountObject time_point_sec_maximum 100 100 100 2000 3000 5000 ∅ ∅ None None
    (Authority 1 [] [(1000 + a, 1)] []) (Authority 1 [] [(a, 1)] []).

Definition sample_stats : account_statistics_object := AccountStatisticsObject 0 0 0 0 0 0 false 0 0 0.

Definition sample_parameters : chain_parameters :=
  ChainParameters 5 31536000 10000000 86400 (Some (HtlcOptions 2592000 1024)) None None 2 2419200 1209600 10.

Definition sample_bal (x : Z) := AccountBalanceObject x true.

Definition empty_table {A} : table A := Table 0 ∅.

Definition sample_db : database :=
  Database sample_time (sample_time + 3600) sample_parameters
    {[ (100, 0) := sample_bal 1000000; (100, 1) := sample_bal 500000; (100, 2) := sample_bal 400000;
       (101, 0) := sample_bal 2000; (101, 1) := sample_bal 3000 ]}
    {[ 100 := sample_account_of 100; 101 := sample_account_of 101; 102 := sample_account_of 102;
       0 := sample_account_of 0 ]}
    {[ 100 := sample_stats; 101 := sample_stats; 102 := sample_stats ]}
    {[ 0 := AssetObject 3 sample_options None None; 1 := AssetObject 100 sample_fee_options None None;
       2 := AssetObject 100 sample_options None None; 3 := AssetObject 100 sample_options None None ]}
    {[ 0 := AssetDynamicDataObject 1002000 0 0 0 0; 1 := AssetDynamicDataObject 503000 0 0 0 0;
       2 := AssetDynamicDataObject 400000 0 0 0 0; 3 := AssetDynamicDataObject 0 0 0 0 0 ]}
    empty_table empty_table empty_table empty_table empty_table empty_table empty_table
    empty_table empty_table empty_table 0 0 11.

Lemma sample_nonneg : balances_nonneg sample_db.
Proof.
  assert (map_Forall (λ _ b, 0 ≤ ab_balance b) (balances sample_db)) as H
    by (apply map_Forall_to_list; vm_compute; repeat constructor; discriminate).
  exact H.
Qed.

Lemma rows_ok_empty {A} (P : A → Prop) : rows_ok P empty_table.
Proof. intros i v. simpl. by rewrite lookup_empty. Qed.

Lemma sample_books_ok : books_ok sample_db.
Proof.
  assert (map_Forall (λ _ o, options_ok o) (assets sample_db)) as H
    by (apply map_Forall_to_list; vm_compute; repeat constructor; discriminate).
  split; [exact sample_nonneg|exact H|apply rows_ok_empty..].
Qed.
