(* ===== verification/CreditBooks.v ===== *)
(** * The books of the credit offers

    Three tables describe the outstanding loans: offers, deals, and the summaries of what each
    borrower owes an offer.  [credit_books] is the invariant that ties them together: what an
    offer has lent out is what its deals owe, and the summaries agree with the deals.  The
    lemmas say how lending and settling keep it; CreditOffer.v derives from them that the
    operations and the block processing do. *)
From S2P Require Import Prelude MachineInt Hardfork Asset Vesting ChainState.

Notation offers_t := (gmap Z credit_offer_object) (only parsing).
Notation deals_t := (gmap Z credit_deal_object) (only parsing).
Notation summaries_t := (gmap Z credit_deal_summary_object) (only parsing).

(** The debt of the deals that satisfy [p]. *)
Definition owed (p : credit_deal_object → bool) (deals : deals_t) : Z :=
  msum (λ _ c, if p c then cd_debt_amount c else 0) deals.

Definition of_offer (oid : Z) (c : credit_deal_object) : bool := cd_offer_id c =? oid.
Definition of_borrower (oid : Z) (b : account_id_type) (c : credit_deal_object) : bool :=
  (cd_offer_id c =? oid) && (cd_borrower c =? b).

(** A deal refers to an existing offer that it agrees with. *)
Definition deal_of (c : credit_deal_object) (o : credit_offer_object) : Prop :=
  co_asset_type o = cd_debt_asset c ∧ co_owner_account o = cd_offer_owner c.

Definition summary_of (c : credit_deal_object) (s : credit_deal_summary_object) : Prop :=
  cs_offer_id s = cd_offer_id c ∧ cs_borrower s = cd_borrower c.

(** What an offer has lent out is what its deals owe. *)
Record offer_books (offers : offers_t) (deals : deals_t) : Prop := {
  ob_deal id c : deals !! id = Some c →
    ∃ o, offers !! cd_offer_id c = Some o ∧ deal_of c o;
  ob_offer id o : offers !! id = Some o →
    co_total_balance o - co_current_balance o = owed (of_offer id) deals }.

(** The summaries, unique per offer and borrower, are the sums of the borrower's deals. *)
Record summary_books (deals : deals_t) (summaries : summaries_t) : Prop := {
  sb_deal id c : deals !! id = Some c → ∃ sid s, summaries !! sid = Some s ∧ summary_of c s;
  sb_summary sid s : summaries !! sid = Some s →
    cs_total_debt_amount s = owed (of_borrower (cs_offer_id s) (cs_borrower s)) deals;
  sb_unique i j s t : summaries !! i = Some s → summaries !! j = Some t →
    cs_offer_id s = cs_offer_id t → cs_borrower s = cs_borrower t → i = j }.

Definition deals_positive (deals : deals_t) : Prop :=
  ∀ id c, deals !! id = Some c → 0 < cd_debt_amount c ∧ 0 < cd_collateral_amount c.

Record credit_books (offers : offers_t) (deals : deals_t) (summaries : summaries_t) : Prop := {
  cb_deals : deals_positive deals;
  cb_offers : offer_books offers deals;
  cb_summaries : summary_books deals summaries }.

Definition credit_ok (d : database) : Prop :=
  credit_books (rows (credit_offers d)) (rows (credit_deals d)) (rows (credit_deal_summaries d)).

(** ** Sums of debts *)
Section owed.
Implicit Types (p : credit_deal_object → bool) (deals : deals_t).

Lemma owed_new p deals id c :
  deals !! id = None → owed p (<[id := c]> deals) = owed p deals + if p c then cd_debt_amount c else 0.
Proof. intros H. unfold owed. rewrite msum_insert_new by done. lia. Qed.

Lemma owed_update p deals id c c' :
  deals !! id = Some c → p c' = p c →
  owed p (<[id := c']> deals)
    = owed p deals + if p c then cd_debt_amount c' - cd_debt_amount c else 0.
Proof. intros H E. unfold owed. rewrite (msum_insert_old _ _ _ c), E by done. case_match; lia. Qed.

Lemma owed_delete p deals id c :
  deals !! id = Some c → owed p (delete id deals) = owed p deals - if p c then cd_debt_amount c else 0.
Proof. intros H. unfold owed. by rewrite (msum_delete _ _ _ c). Qed.

Lemma owed_none p deals : (∀ id c, deals !! id = Some c → p c = false) → owed p deals = 0.
Proof.
  intros H. unfold owed. rewrite (msum_ext _ (λ _ _, 0)).
  - clear H. induction deals as [|k c m Hk IH] using map_ind; [apply msum_empty|].
    rewrite msum_insert_new by done. lia.
  - intros id c Hc. by rewrite (H id c Hc).
Qed.

(** A deal's debt is part of every sum it belongs to. *)
Lemma owed_ge p deals id c :
  deals_positive deals → deals !! id = Some c → p c = true → cd_debt_amount c ≤ owed p deals.
Proof.
  intros Hpos Hc Hp. unfold owed.
  pose proof (msum_ge_entry (λ _ c, if p c then cd_debt_amount c else 0) deals id c) as H.
  simpl in H. rewrite Hp in H. apply H; [|done].
  intros k a Ha. apply Hpos in Ha as [? _]. case_match; lia.
Qed.
End owed.

(** ** Offers *)
Section offer_transitions.
Context (offers : offers_t) (deals : deals_t) (B : offer_books offers deals).

(** A new offer has lent nothing. *)
Lemma offer_books_new id o :
  offers !! id = None → co_total_balance o = co_current_balance o →
  offer_books (<[id := o]> offers) deals.
Proof.
  intros Hid Ho. pose proof B as [Hdo Hof]. split.
  - intros i c Hc. destruct (Hdo i c Hc) as (o' & Ho' & E). exists o'. split; [|done].
    rewrite lookup_insert_ne; [done|congruence].
  - intros i o' [[<- <-]|[_ Hl]]%lookup_insert_Some; [|by apply Hof].
    rewrite owed_none; [lia|]. intros j c Hc. apply Z.eqb_neq. intros E.
    destruct (Hdo j c Hc) as (? & H & _). congruence.
Qed.

(** An offer that has lent nothing out is not referred to by any deal. *)
Lemma offer_books_delete id o :
  deals_positive deals → offers !! id = Some o → co_total_balance o = co_current_balance o →
  offer_books (delete id offers) deals.
Proof.
  intros Hpos Hid Ho. pose proof B as [Hdo Hof]. split.
  - intros i c Hc. destruct (Hdo i c Hc) as (o' & Ho' & E). exists o'. split; [|done].
    rewrite lookup_delete_ne; [done|]. intros ->.
    pose proof (owed_ge (of_offer (cd_offer_id c)) deals i c Hpos Hc (Z.eqb_refl _)) as Hge.
    rewrite <- (Hof _ _ Hid) in Hge. destruct (Hpos i c Hc). lia.
  - intros i o' [_ Hl]%lookup_delete_Some. by apply Hof.
Qed.

(** Replacing an offer and the deals, such that the two sides change alike. *)
Lemma offer_books_update id o o' deals' :
  offers !! id = Some o →
  co_asset_type o' = co_asset_type o → co_owner_account o' = co_owner_account o →
  (∀ i c, deals' !! i = Some c → (∃ j c0, deals !! j = Some c0 ∧ cd_offer_id c0 = cd_offer_id c ∧
     cd_debt_asset c0 = cd_debt_asset c ∧ cd_offer_owner c0 = cd_offer_owner c) ∨
     (cd_offer_id c = id ∧ deal_of c o)) →
  (∀ i, owed (of_offer i) deals' - owed (of_offer i) deals =
     if i =? id then co_total_balance o' - co_current_balance o'
                     - (co_total_balance o - co_current_balance o) else 0) →
  offer_books (<[id := o']> offers) deals'.
Proof.
  intros Hid Ha Ho Hd Hsum. pose proof B as [Hdo Hof].
  assert (∀ c x, offers !! cd_offer_id c = Some x → deal_of c x →
    ∃ y, <[id := o']> offers !! cd_offer_id c = Some y ∧ deal_of c y) as Hk.
  { intros c x Hx [E1 E2]. destruct (decide (cd_offer_id c = id)) as [E|].
    - rewrite E in *. simplify_eq. exists o'. rewrite lookup_insert_eq. split; [done|].
      split; congruence.
    - exists x. by rewrite lookup_insert_ne. }
  split.
  - intros i c Hc. apply Hd in Hc as [(j & c0 & Hj & E1 & E2 & E3)|[E1 E2]].
    + destruct (Hdo j c0 Hj) as (x & Hx & F1 & F2). apply (Hk c x); [congruence|].
      split; congruence.
    + apply (Hk c o); [congruence|done].
  - intros i x Hx. specialize (Hsum i). apply lookup_insert_Some in Hx as [[<- <-]|[Hn Hl]].
    + rewrite Z.eqb_refl in Hsum. pose proof (Hof _ _ Hid). lia.
    + rewrite (proj2 (Z.eqb_neq _ _)) in Hsum by done. pose proof (Hof _ _ Hl). lia.
Qed.
End offer_transitions.

(** ** Summaries *)
Section summary_transitions.
Context (deals : deals_t) (summaries : summaries_t) (B : summary_books deals summaries).

(** Changing the total of one summary as its deals change. *)
Lemma summary_books_update deals' sid s s' :
  summaries !! sid = Some s → cs_offer_id s' = cs_offer_id s → cs_borrower s' = cs_borrower s →
  (∀ i c, deals' !! i = Some c → (∃ j c0, deals !! j = Some c0 ∧ cd_offer_id c0 = cd_offer_id c ∧
     cd_borrower c0 = cd_borrower c) ∨ summary_of c s) →
  (∀ o b, owed (of_borrower o b) deals' - owed (of_borrower o b) deals =
     if (cs_offer_id s =? o) && (cs_borrower s =? b)
     then cs_total_debt_amount s' - cs_total_debt_amount s else 0) →
  summary_books deals' (<[sid := s']> summaries).
Proof.
  intros Hsid E1 E2 Hd Hsum. pose proof B as [Hds Hs Hu]. split.
  - intros i c Hc. assert (∃ j t, summaries !! j = Some t ∧ summary_of c t) as (j & t & Hj & [F1 F2]).
    { apply Hd in Hc as [(j & c0 & Hj & F1 & F2)|Hc]; [|by exists sid, s].
      destruct (Hds j c0 Hj) as (k & t & Hk & G1 & G2). exists k, t. split; [done|].
      split; congruence. }
    destruct (decide (j = sid)) as [->|].
    + simplify_eq. exists sid, s'. rewrite lookup_insert_eq. split; [done|]. split; congruence.
    + exists j, t. by rewrite lookup_insert_ne.
  - intros j t [[<- <-]|[Hj Hl]]%lookup_insert_Some.
    + specialize (Hsum (cs_offer_id s) (cs_borrower s)). rewrite !Z.eqb_refl in Hsum. simpl in Hsum.
      pose proof (Hs _ _ Hsid). rewrite E1, E2. lia.
    + specialize (Hsum (cs_offer_id t) (cs_borrower t)). pose proof (Hs _ _ Hl).
      destruct (Z.eqb_spec (cs_offer_id s) (cs_offer_id t)) as [F1|],
        (Z.eqb_spec (cs_borrower s) (cs_borrower t)) as [F2|]; simpl in Hsum; try lia.
      by destruct (Hu sid j s t).
  - intros i j u v Hi Hj F1 F2. apply lookup_insert_Some in Hi, Hj.
    destruct Hi as [[<- <-]|[? Hi]], Hj as [[<- <-]|[? Hj]]; try done; try (by eapply Hu).
    + eapply Hu; [exact Hsid|exact Hj|congruence..].
    + symmetry. eapply Hu; [exact Hsid|exact Hi|congruence..].
Qed.

(** A first loan to a borrower makes a summary. *)
Lemma summary_books_new id c sid s :
  deals !! id = None → summaries !! sid = None → summary_of c s →
  cs_total_debt_amount s = cd_debt_amount c →
  (∀ j t, summaries !! j = Some t → ¬ summary_of c t) →
  summary_books (<[id := c]> deals) (<[sid := s]> summaries).
Proof.
  intros Hid Hsid [Q1 Q2] Hv Hno. pose proof B as [Hds Hs Hu]. split.
  - intros i x [[<- <-]|[_ Hl]]%lookup_insert_Some; [exists sid, s; by rewrite lookup_insert_eq|].
    destruct (Hds i x Hl) as (j & t & Hj & Ht). exists j, t. rewrite lookup_insert_ne; [done|congruence].
  - intros j t [[<- <-]|[Hj Hl]]%lookup_insert_Some; rewrite owed_new by done; unfold of_borrower at 2.
    + rewrite Q1, Q2, !Z.eqb_refl. simpl.
      rewrite owed_none; [lia|]. intros k y Hy. unfold of_borrower. apply andb_false_iff.
      destruct (Hds k y Hy) as (u & v & Hu' & [V1 V2]). specialize (Hno u v Hu').
      destruct (Z.eqb_spec (cd_offer_id y) (cd_offer_id c)); [|by left].
      right. apply Z.eqb_neq. intros ?. apply Hno. split; congruence.
    + rewrite <- (Hs _ _ Hl). destruct (Z.eqb_spec (cd_offer_id c) (cs_offer_id t)),
        (Z.eqb_spec (cd_borrower c) (cs_borrower t)); simpl; try lia. by destruct (Hno j t Hl).
  - intros i j u v Hi Hj F1 F2. apply lookup_insert_Some in Hi, Hj.
    destruct Hi as [[<- <-]|[? Hi]], Hj as [[<- <-]|[? Hj]]; try done; try (by eapply Hu).
    + destruct (Hno j v Hj). split; congruence.
    + destruct (Hno i u Hi). split; congruence.
Qed.

(** When the last debt of a borrower is settled the summary goes. *)
Lemma summary_books_delete id c sid s :
  deals_positive deals → deals !! id = Some c → summaries !! sid = Some s → summary_of c s →
  cs_total_debt_amount s = cd_debt_amount c →
  summary_books (delete id deals) (delete sid summaries).
Proof.
  intros Hpos Hid Hsid [Q1 Q2] Hv. pose proof B as [Hds Hs Hu].
  assert (∀ i x, i ≠ id → deals !! i = Some x → ¬ summary_of x s) as Hno.
  { intros i x Hn Hx [F1 F2].
    assert (of_borrower (cs_offer_id s) (cs_borrower s) x = true) as E1
      by (unfold of_borrower; by rewrite F1, F2, !Z.eqb_refl).
    assert (of_borrower (cs_offer_id s) (cs_borrower s) c = true) as E2
      by (unfold of_borrower; by rewrite Q1, Q2, !Z.eqb_refl).
    assert (delete id deals !! i = Some x) as Hx' by (by rewrite lookup_delete_ne).
    eapply owed_ge in Hx'; [|by intros ? ? [_ ?]%lookup_delete_Some; eapply Hpos|exact E1].
    rewrite (owed_delete _ _ _ c), E2, <- (Hs _ _ Hsid) in Hx' by done.
    destruct (Hpos i x Hx). lia. }
  split.
  - intros i x [Hn Hl]%lookup_delete_Some. destruct (Hds i x Hl) as (j & t & Hj & Ht).
    exists j, t. split; [|done]. rewrite lookup_delete_ne; [done|]. intros ->. simplify_eq.
    by eapply Hno.
  - intros j t [Hn Hl]%lookup_delete_Some. rewrite (owed_delete _ _ _ c) by done.
    rewrite <- (Hs _ _ Hl). unfold of_borrower.
    destruct (Z.eqb_spec (cd_offer_id c) (cs_offer_id t)),
      (Z.eqb_spec (cd_borrower c) (cs_borrower t)); simpl; try lia.
    destruct Hn. eapply Hu; [exact Hsid|exact Hl|congruence..].
  - intros i j u v [_ Hi]%lookup_delete_Some [_ Hj]%lookup_delete_Some. by eapply Hu.
Qed.
End summary_transitions.

(** ** Lending and settling *)

(** The deals after [x] of deal [id] was settled: it is gone if that was all of it. *)
Definition settled (id : Z) (c : credit_deal_object) (x : Z) (deals deals' : deals_t) : Prop :=
  (cd_debt_amount c = x ∧ deals' = delete id deals) ∨
  (cd_debt_amount c ≠ x ∧ ∃ c', deals' = <[id := c']> deals ∧
     cd_debt_amount c' = cd_debt_amount c - x ∧ 0 < cd_collateral_amount c' ∧
     cd_offer_id c' = cd_offer_id c ∧ cd_borrower c' = cd_borrower c ∧
     cd_debt_asset c' = cd_debt_asset c ∧ cd_offer_owner c' = cd_offer_owner c).

Lemma owed_settled p id c x deals deals' :
  deals !! id = Some c → settled id c x deals deals' →
  (∀ c', cd_offer_id c' = cd_offer_id c → cd_borrower c' = cd_borrower c → p c' = p c) →
  owed p deals' = owed p deals - if p c then x else 0.
Proof.
  intros Hid [[<- ->]|(_ & c' & -> & E & _ & E1 & E2 & _)] Hp; [by apply owed_delete|].
  rewrite (owed_update _ _ _ c), E by auto. case_match; lia.
Qed.

(** Every deal left comes from one that was there. *)
Lemma settled_deal id c x deals deals' i y :
  deals !! id = Some c → settled id c x deals deals' → deals' !! i = Some y →
  ∃ y0, deals !! i = Some y0 ∧ cd_offer_id y0 = cd_offer_id y ∧ cd_borrower y0 = cd_borrower y ∧
    cd_debt_asset y0 = cd_debt_asset y ∧ cd_offer_owner y0 = cd_offer_owner y ∧
    (y = y0 ∨ i = id ∧ cd_debt_amount c ≠ x ∧ cd_debt_amount y = cd_debt_amount c - x ∧
              0 < cd_collateral_amount y).
Proof.
  intros Hid [[_ ->]|(Hx & c' & -> & E & Ec & E1 & E2 & E3 & E4)] Hy.
  - apply lookup_delete_Some in Hy as [_ Hy]. exists y. split_and!; auto.
  - apply lookup_insert_Some in Hy as [[<- <-]|[_ Hy]]; [|exists y; split_and!; by auto].
    exists c. split_and!; auto.
Qed.

Section credit_transitions.
Context (offers : offers_t) (deals : deals_t) (summaries : summaries_t).
Context (B : credit_books offers deals summaries).

Lemma credit_books_lend id c o o' summaries' :
  deals !! id = None → 0 < cd_debt_amount c → 0 < cd_collateral_amount c →
  offers !! cd_offer_id c = Some o → deal_of c o →
  co_asset_type o' = co_asset_type o → co_owner_account o' = co_owner_account o →
  co_total_balance o' - co_current_balance o'
    = co_total_balance o - co_current_balance o + cd_debt_amount c →
  (∃ sid s s', summaries !! sid = Some s ∧ summary_of c s ∧ summary_of c s' ∧
     cs_total_debt_amount s' = cs_total_debt_amount s + cd_debt_amount c ∧
     summaries' = <[sid := s']> summaries) ∨
  (∃ sid s, summaries !! sid = None ∧ summary_of c s ∧ cs_total_debt_amount s = cd_debt_amount c ∧
     (∀ j t, summaries !! j = Some t → ¬ summary_of c t) ∧ summaries' = <[sid := s]> summaries) →
  credit_books (<[cd_offer_id c := o']> offers) (<[id := c]> deals) summaries'.
Proof.
  intros Hid Hpos Hcol Hoff Hdeal Ea Eo Hb Hsum. destruct B as [Hp Ho Hs]. split.
  - intros i x [[<- <-]|[_ Hl]]%lookup_insert_Some; [done|by eapply Hp].
  - eapply offer_books_update; try done.
    + intros i x [[<- <-]|[_ Hl]]%lookup_insert_Some; [by right|left; eauto 10].
    + intros i. rewrite owed_new by done. unfold of_offer at 2. rewrite Z.eqb_sym.
      case_match; lia.
  - destruct Hsum as [(sid & s & s' & Hsid & Q & [Q3 Q4] & Hv & ->)|(sid & s & ? & ? & ? & ? & ->)];
      [|by apply summary_books_new].
    pose proof Q as [Q1 Q2]. eapply summary_books_update; [done|exact Hsid|congruence..| |].
    + intros i x [[<- <-]|[_ Hl]]%lookup_insert_Some; [by right|left; eauto 10].
    + intros u b. rewrite owed_new by done. unfold of_borrower at 2. rewrite Q1, Q2.
      case_match; lia.
Qed.

Lemma credit_books_settle id c x o o' deals' sid s summaries' :
  deals !! id = Some c → 0 < x ≤ cd_debt_amount c → settled id c x deals deals' →
  offers !! cd_offer_id c = Some o →
  co_asset_type o' = co_asset_type o → co_owner_account o' = co_owner_account o →
  co_total_balance o' - co_current_balance o' = co_total_balance o - co_current_balance o - x →
  summaries !! sid = Some s → summary_of c s →
  (cs_total_debt_amount s = x ∧ summaries' = delete sid summaries) ∨
  (∃ s', summaries' = <[sid := s']> summaries ∧ cs_offer_id s' = cs_offer_id s ∧
     cs_borrower s' = cs_borrower s ∧ cs_total_debt_amount s' = cs_total_debt_amount s - x) →
  credit_books (<[cd_offer_id c := o']> offers) deals' summaries'.
Proof.
  intros Hid Hx Hset Hoff Ea Eo Hb Hsid Hsum Hred. pose proof B as [Hp Ho Hs]. split.
  - intros i y Hy. destruct (settled_deal _ _ _ _ _ _ _ Hid Hset Hy)
      as (y0 & Hy0 & _ & _ & _ & _ & [->|(-> & ? & ? & ?)]); [by eapply Hp|]. lia.
  - eapply offer_books_update; [exact Ho|exact Hoff|done|done| |].
    + intros i y Hy. destruct (settled_deal _ _ _ _ _ _ _ Hid Hset Hy)
        as (y0 & Hy0 & ? & _ & ? & ? & _). left. by exists i, y0.
    + intros i. rewrite (owed_settled _ _ _ _ _ _ Hid Hset) by (by unfold of_offer; intros ? ->).
      unfold of_offer at 2. rewrite Z.eqb_sym. case_match; lia.
  - pose proof Hsum as [Q1 Q2]. destruct Hred as [[Hv ->]|(s' & -> & E1 & E2 & Hv)].
    + assert (of_borrower (cs_offer_id s) (cs_borrower s) c = true) as Hof
        by (unfold of_borrower; by rewrite Q1, Q2, !Z.eqb_refl).
      pose proof (owed_ge _ _ _ _ Hp Hid Hof) as Hge. rewrite <- (sb_summary _ _ Hs _ _ Hsid) in Hge.
      destruct Hset as [[E ->]|[E _]]; [|lia]. eapply summary_books_delete; try done. lia.
    + eapply summary_books_update; [exact Hs|exact Hsid|done|done| |].
      * intros i y Hy. destruct (settled_deal _ _ _ _ _ _ _ Hid Hset Hy)
          as (y0 & Hy0 & ? & ? & _). left. by exists i, y0.
      * intros u b. rewrite (owed_settled _ _ _ _ _ _ Hid Hset)
          by (by unfold of_borrower; intros ? -> ->).
        unfold of_borrower at 2. rewrite Q1, Q2. case_match; lia.
Qed.
End credit_transitions.
