(* ===== verification/Balance.v ===== *)
(** * Balances

    Account balances, authorization of an account to hold an asset, and deposits into vesting
    balances: libraries/chain/db_balance.cpp, is_authorized_asset.hpp/.cpp and
    [account_balance_object::adjust_balance] of account_object.cpp. *)
From S2P Require Import Prelude MachineInt Hardfork Asset Vesting ChainState Ledger.

(** ** Account balances *)

Definition get_balance (d : database) (owner : account_id_type) (a : asset_id_type) : asset :=
  match balances d !! (owner, a) with
  | None => Asset 0 a
  | Some abo => Asset (ab_balance abo) a
  end.

(** [account_balance_object::adjust_balance]. *)
Definition abo_adjust_balance (a : asset_id_type) (delta : share_type)
    (b : account_balance_object) : result account_balance_object :=
  v ← share_add (ab_balance b) delta;
  Ok (AccountBalanceObject v (if a =? core_asset_id then true else ab_maintenance_flag b)).

Definition adjust_balance (account : account_id_type) (delta : asset) (d : database)
    : result database :=
  if amount delta =? 0 then Ok d
  else
    let k := (account, asset_id delta) in
    match balances d !! k with
    | None =>
      FC_ASSERT (0 <? amount delta) "Insufficient Balance";;
      Ok (set_balances (<[k := AccountBalanceObject (amount delta)
                               (asset_id delta =? core_asset_id)]> (balances d)) d)
    | Some abo =>
      (if amount delta <? 0 then
         neg ← asset_neg delta;
         ok ← asset_ge (Asset (ab_balance abo) (asset_id delta)) neg;
         FC_ASSERT ok "Insufficient Balance"
       else Ok ());;
      abo' ← abo_adjust_balance (asset_id delta) (amount delta) abo;
      Ok (set_balances (<[k := abo']> (balances d)) d)
    end.

(** ** Authorization *)

Definition _is_authorized_asset (d : database) (id : account_id_type) (acct : account_object)
    (asset_id : asset_id_type) (asset_obj : asset_object) : bool :=
  if HARDFORK_BSIP_86_PASSED (head_block_time d) && (id =? GRAPHENE_COMMITTEE_ACCOUNT) then true
  else if match allowed_assets acct with
          | Some s => bool_decide (asset_id ∉ s)
          | None => false
          end then false
  else if bool_decide (¬ blacklisting_accounts acct ## blacklist_authorities (ao_options asset_obj))
       then false
  else if bool_decide (whitelist_authorities (ao_options asset_obj) = ∅) then true
  else bool_decide (¬ whitelisting_accounts acct ## whitelist_authorities (ao_options asset_obj)).

Definition is_authorized_asset (d : database) (id : account_id_type) (acct : account_object)
    (asset_id : asset_id_type) (asset_obj : asset_object) : bool :=
  if negb (has_flag asset_obj flag_white_list) && bool_decide (allowed_assets acct = None) then true
  else _is_authorized_asset d id acct asset_id asset_obj.

(** [is_authorized_asset( d, *fee_paying_account, asset )] of the account that pays. *)
Definition payer_authorized (d : database) (payer : account_id_type) (i : asset_id_type)
    (msg : string) : result unit :=
  acct ← get_account d payer;
  obj ← get_asset d i;
  FC_ASSERT (is_authorized_asset d payer acct i obj) msg.

(** ** Deposits into vesting balances *)

(** [vbo_mfs_key]: the market-fee-sharing balance of an account in an asset. *)
Definition vbo_mfs_key (account : account_id_type) (a : asset_id_type)
    (v : vesting_balance_object) : bool :=
  bool_decide (vb_type v = vbt_market_fee_sharing) && (a =? asset_id (vb_balance v))
  && (account =? vb_owner v).

Definition get_market_fee_vesting_balance (d : database) (account : account_id_type)
    (a : asset_id_type) : asset :=
  match find_row (vbo_mfs_key account a) (vesting_balances d) with
  | None => Asset 0 a
  | Some (_, v) => vb_balance v
  end.

Definition deposit_market_fee_vesting_balance (account : account_id_type) (delta : asset)
    (d : database) : result database :=
  FC_ASSERT (0 <=? amount delta) "Invalid negative value for balance";;
  if amount delta =? 0 then Ok d
  else
    match find_row (vbo_mfs_key account (asset_id delta)) (vesting_balances d) with
    | None =>
      '(_, t) ← tbl_create (VestingBalanceObject account delta
                              (InstantPolicy Instant.InstantVestingPolicy)
                              vbt_market_fee_sharing) (vesting_balances d);
      Ok (set_vesting_balances t d)
    | Some (id, _) =>
      t ← tbl_modify id (vb_deposit_vested (head_block_time d) delta) (vesting_balances d);
      Ok (set_vesting_balances t d)
    end.

(** Whether an existing balance can take the deposit: same owner, coin-days policy, same
    vesting period. *)
Definition lazy_vesting_matches (req_owner : account_id_type) (req_vesting_seconds : Z)
    (v : vesting_balance_object) : bool :=
  (vb_owner v =? req_owner) &&
  match vb_policy v with
  | CddPolicy p => Cdd.vesting_seconds p =? req_vesting_seconds
  | _ => false
  end.

(** The result is the id of the new balance, if one was created. *)
Definition deposit_lazy_vesting (ovbid : option Z) (amt : share_type) (req_vesting_seconds : Z)
    (balance_type : vesting_balance_type) (req_owner : account_id_type) (require_vesting : bool)
    (d : database) : result (database * option Z) :=
  if amt =? 0 then Ok (d, None)
  else
    let now := head_block_time d in
    let create_new :=
      let policy := Cdd.CddVestingPolicy req_vesting_seconds
                      (if require_vesting then 0
                       else u128 (to_int64 (amt * req_vesting_seconds))) 0 now in
      '(id, t) ← tbl_create (VestingBalanceObject req_owner (Asset amt core_asset_id)
                               (CddPolicy policy) balance_type) (vesting_balances d);
      Ok (set_vesting_balances t d, Some id) in
    match ovbid with
    | None => create_new
    | Some vbid =>
      v ← tbl_get (vesting_balances d) vbid;
      if lazy_vesting_matches req_owner req_vesting_seconds v then
        t ← tbl_modify vbid (λ v, if require_vesting then vb_deposit now (Asset amt core_asset_id) v
                                  else vb_deposit_vested now (Asset amt core_asset_id) v)
              (vesting_balances d);
        Ok (set_vesting_balances t d, None)
      else create_new
    end.

Definition acc_with_cashback_vb (a : account_object) (vb : Z) : account_object :=
  AccountObject (membership_expiration_date a) (registrar a) (referrer a) (lifetime_referrer a)
    (network_fee_percentage a) (lifetime_referrer_fee_percentage a)
    (referrer_rewards_percentage a) (whitelisting_accounts a) (blacklisting_accounts a)
    (Some vb) (allowed_assets a) (acc_owner a) (acc_active a).

Definition stats_with_cashback (s : account_statistics_object) : account_statistics_object :=
  AccountStatisticsObject (total_core_in_orders s) (total_core_inactive s) (total_core_pob s) (total_core_pol s)
    (total_pob_value s) (total_pol_value s) true (lifetime_fees_paid s) (pending_fees s)
    (pending_vested_fees s).

Definition is_reserved_account (acct_id : account_id_type) : bool :=
  (acct_id =? GRAPHENE_COMMITTEE_ACCOUNT) || (acct_id =? GRAPHENE_WITNESS_ACCOUNT)
  || (acct_id =? GRAPHENE_RELAXED_COMMITTEE_ACCOUNT) || (acct_id =? GRAPHENE_NULL_ACCOUNT)
  || (acct_id =? GRAPHENE_TEMP_ACCOUNT).

Definition deposit_cashback (acct_id : account_id_type) (amt : share_type)
    (require_vesting : bool) (d : database) : result database :=
  if amt =? 0 then Ok d
  else if is_reserved_account acct_id then
    modify_dynamic_data core_asset_id (λ s,
      v ← share_sub (current_supply s) amt; Ok (dd_with_supply s v)) d
  else
    acct ← get_account d acct_id;
    '(d, new_vbid) ← deposit_lazy_vesting (cashback_vb acct) amt
      (cashback_vesting_period_seconds (parameters d)) vbt_cashback acct_id require_vesting d;
    match new_vbid with
    | None => Ok d
    | Some vb =>
      d ← modify_account acct_id (λ a, Ok (acc_with_cashback_vb a vb)) d;
      modify_statistics acct_id (λ s, Ok (stats_with_cashback s)) d
    end.

(** The members of [witness_object] that [deposit_witness_pay] uses. *)
Record witness_object := WitnessObject { witness_account : account_id_type; pay_vb : option Z }.

Definition deposit_witness_pay (wit : witness_object) (amt : share_type) (d : database)
    : result (database * witness_object) :=
  if amt =? 0 then Ok (d, wit)
  else
    '(d, new_vbid) ← deposit_lazy_vesting (pay_vb wit) amt
      (witness_pay_vesting_seconds (parameters d)) vbt_witness (witness_account wit) true d;
    Ok (d, match new_vbid with
           | None => wit
           | Some vb => WitnessObject (witness_account wit) (Some vb)
           end).

(** ** Effects on the books *)

(** [adjust_balance] touches nothing but the balance it names. *)
Lemma adjust_balance_Ok account delta d d' :
  adjust_balance account delta d = Ok d' →
  (amount delta = 0 ∧ d' = d) ∨
  (∃ abo, d' = set_balances (<[(account, asset_id delta) := abo]> (balances d)) d ∧
     ab_balance abo = amount (get_balance d account (asset_id delta)) + amount delta ∧
     (balances_nonneg d → 0 ≤ ab_balance abo)).
Proof.
  unfold adjust_balance, get_balance. intros H. destruct (Z.eqb_spec (amount delta) 0).
  { injection H as ->. by left. }
  right. destruct (balances d !! (account, asset_id delta)) as [abo|] eqn:E.
  - unfold abo_adjust_balance in H. inv_ok; inv_share; subst;
      (eexists; split; [done|]); simpl; (split; [done|]); intros Hn; apply Hn in E as Hbal;
      inv_asset; propify; lia.
  - inv_ok. propify. eexists; split; [done|]. simpl. split; [lia|]. intros. lia.
Qed.

Lemma adjust_balance_moves account delta d d' :
  adjust_balance account delta d = Ok d' → moves d d' (amt (asset_id delta) (amount delta)).
Proof.
  intros [[Hz ->]|([b f] & -> & Hb & Hn)]%adjust_balance_Ok.
  - eapply moves_ext; [apply moves_refl|]. intros a. rewrite Hz. amt_solve.
  - simpl in *. eapply moves_ext; [eapply (balances_moves d _ (account, asset_id delta) b Hn);
      destruct f; [by right|by left]|].
    intros a. simpl. f_equal. unfold get_balance in Hb. repeat case_match; simpl in *; lia.
Qed.

(** A deposit adds its amount to the balance object, in the same asset. *)
Lemma vb_deposit_held now x v v' a :
  vb_deposit now x v = Ok v' → held v' a = held v a + amt (asset_id x) (amount x) a.
Proof.
  unfold vb_deposit. intros H. apply bind_Ok in H as (p & _ & H). inv_ok. inv_asset.
  unfold held, vesting_balance_holding; simpl. amt_solve; congruence.
Qed.

Lemma vb_deposit_vested_held now x v v' a :
  vb_deposit_vested now x v = Ok v' → held v' a = held v a + amt (asset_id x) (amount x) a.
Proof.
  unfold vb_deposit_vested. intros H. apply bind_Ok in H as (p & _ & H). inv_ok. inv_asset.
  unfold held, vesting_balance_holding; simpl. amt_solve; congruence.
Qed.

(** Modifying or creating a vesting balance. *)
Lemma vesting_modify_moves d id m t f :
  tbl_modify id m (vesting_balances d) = Ok t →
  (∀ v v' a, m v = Ok v' → held v' a = held v a + f a) →
  moves d (set_vesting_balances t d) f.
Proof.
  intros (v & v' & Hv & Hm & ->)%tbl_modify_Ok Hf. apply moves_vesting_balances.
  intros a. rewrite (tbl_held_update _ _ v v') by done. rewrite (Hf v v' a Hm). lia.
Qed.

Lemma vesting_create_moves d v id t :
  tbl_create v (vesting_balances d) = Ok (id, t) → moves d (set_vesting_balances t d) (held v).
Proof. intros E. apply moves_vesting_balances. intros a. by apply (tbl_held_create _ _ _ _ a) in E. Qed.

Lemma deposit_market_fee_vesting_balance_moves account delta d d' :
  deposit_market_fee_vesting_balance account delta d = Ok d' →
  moves d d' (amt (asset_id delta) (amount delta)) ∧ 0 ≤ amount delta ∧
  ∃ t, d' = set_vesting_balances t d.
Proof.
  unfold deposit_market_fee_vesting_balance. intros H. inv_ok; propify.
  - split; [|split; [lia|by exists (vesting_balances d'); destruct d']].
    eapply moves_ext; [apply moves_refl|]. intros a. amt_solve.
  - split_and!; [|lia|by eexists].
    eapply vesting_modify_moves; [done|]. intros ? ? ?. apply vb_deposit_vested_held.
  - split_and!; [|lia|by eexists]. eapply moves_ext; [by eapply vesting_create_moves|done].
Qed.

Lemma deposit_lazy_vesting_moves ovbid x secs ty owner req d d' o :
  deposit_lazy_vesting ovbid x secs ty owner req d = Ok (d', o) →
  moves d d' (amt core_asset_id x).
Proof.
  unfold deposit_lazy_vesting. intros H. destruct (Z.eqb_spec x 0) as [->|].
  { injection H as <- <-. eapply moves_ext; [apply moves_refl|]. intros. amt_solve. }
  assert (Hnew : ∀ p, ('(id, t) ← tbl_create (VestingBalanceObject owner (Asset x core_asset_id)
      (CddPolicy p) ty) (vesting_balances d); Ok (set_vesting_balances t d, Some id)) = Ok (d', o) →
      moves d d' (amt core_asset_id x)).
  { clear H. intros p Hp. inv_ok. eapply moves_ext; [by eapply vesting_create_moves|done]. }
  destruct ovbid as [vbid|]; [|by eapply Hnew].
  apply bind_Ok in H as (v & _ & H). destruct (lazy_vesting_matches owner secs v); [|by eapply Hnew].
  inv_ok. eapply vesting_modify_moves; [done|]. intros u u' a Hu.
  destruct req; [exact (vb_deposit_held _ _ _ _ a Hu)|exact (vb_deposit_vested_held _ _ _ _ a Hu)].
Qed.

(** Cashback either reaches a vesting balance or, for the blockchain's own accounts, leaves
    the supply: either way what was pending is accounted for. *)
Lemma deposit_cashback_moves acct x req d d' :
  deposit_cashback acct x req d = Ok d' → moves d d' (amt core_asset_id x).
Proof.
  unfold deposit_cashback. intros H. destruct (Z.eqb_spec x 0) as [->|].
  { injection H as ->. eapply moves_ext; [apply moves_refl|]. intros. amt_solve. }
  destruct (is_reserved_account acct).
  - apply modify_dynamic_data_moves in H as (s & s' & _ & Hs & Hm). inv_ok. inv_share. subst.
    eapply moves_ext; [done|]. intros a. unfold dd_delta, dd_held; simpl. amt_solve.
  - apply bind_Ok in H as (u & _ & H). apply bind_Ok in H as ([d1 o] & H1 & H).
    apply deposit_lazy_vesting_moves in H1. destruct o as [vb|]; [|by injection H as <-].
    apply bind_Ok in H as (d2 & H2 & H). apply modify_account_moves in H2.
    apply modify_statistics_moves in H as (s & s' & _ & Hs & H3). injection Hs as <-.
    eapply moves_ext; [eapply moves_trans; [eapply moves_trans; [done|done]|done]|].
    intros a. simpl. amt_solve.
Qed.

(** Only the balances change. *)
Lemma adjust_balance_frame account delta d d' :
  adjust_balance account delta d = Ok d' → ∃ m, d' = set_balances m d.
Proof.
  intros [[_ ->]|(abo & -> & _)]%adjust_balance_Ok; [|by eexists].
  exists (balances d). by destruct d.
Qed.

Lemma get_balance_set d b k abo owner a :
  get_balance (set_balances (<[k := abo]> b) d) owner a =
    if decide ((owner, a) = k) then Asset (ab_balance abo) a
    else get_balance (set_balances b d) owner a.
Proof.
  unfold get_balance; simpl. case_decide; subst.
  - by rewrite lookup_insert_eq.
  - by rewrite lookup_insert_ne.
Qed.

(** The balance of every account and asset after an adjustment. *)
Lemma adjust_balance_get account delta d d' owner a :
  adjust_balance account delta d = Ok d' →
  amount (get_balance d' owner a) =
    amount (get_balance d owner a)
    + (if decide (owner = account ∧ a = asset_id delta) then amount delta else 0).
Proof.
  intros [[Hz ->]|(abo & -> & Hb & _)]%adjust_balance_Ok; [case_decide; lia|].
  rewrite get_balance_set.
  change (get_balance (set_balances (balances d) d) owner a) with (get_balance d owner a).
  destruct (decide ((owner, a) = _)) as [E|E].
  - injection E as -> ->. by rewrite decide_True.
  - rewrite decide_False by (intros [-> ->]; done). lia.
Qed.

(** Conversely a transfer the evaluator accepted cannot fail for lack of funds. *)
Lemma adjust_balance_total account delta d :
  is_share (amount delta) → is_share (- amount delta) →
  is_share (amount (get_balance d account (asset_id delta)) + amount delta) →
  is_share (amount (get_balance d account (asset_id delta))) →
  0 ≤ amount (get_balance d account (asset_id delta)) + amount delta →
  ∃ d', adjust_balance account delta d = Ok d'.
Proof.
  unfold adjust_balance, get_balance. intros Hs Hn Hsum Hb Hpos.
  destruct (Z.eqb_spec (amount delta) 0); [eauto|].
  destruct (balances d !! (account, asset_id delta)) as [abo|]; simpl in *.
  - unfold abo_adjust_balance. rewrite share_add_ok by done. simpl.
    destruct (Z.ltb_spec (amount delta) 0); simpl; [|eauto].
    unfold asset_neg. rewrite share_neg_ok by done. simpl.
    unfold asset_ge, asset_lt; simpl. rewrite Z.eqb_refl. simpl.
    destruct (Z.ltb_spec (ab_balance abo) (- amount delta)); simpl; [lia|]. eauto.
  - destruct (Z.ltb_spec 0 (amount delta)); simpl; [eauto|lia].
Qed.
