(* ===== verification/WitnessSchedule.v ===== *)
(** * Block production: slots, witnesses and irreversibility

    libraries/chain/db_witness_schedule.cpp, the updates of the global properties in
    libraries/chain/db_update.cpp and [database::validate_block_header] of
    libraries/chain/db_block.cpp.

    [production] gathers the members of the global properties, of the witness schedule and of the
    witnesses these functions use.  Integers keep the width of the code: 32 bits for times, block
    and slot numbers, 64 bits for absolute slots, 128 bits for [recent_slots_filled]. *)
From stdpp Require Import sorting.
From S2P Require Import Prelude MachineInt Hardfork Asset Vesting ChainState Ledger Sample CreditBooks Balance ForkDb.

Definition u32 (v : Z) : Z := v mod 2 ^ 32.
Definition u64 (v : Z) : Z := v mod 2 ^ 64.

Definition undefined_behaviour {A} : result A := Err (fc_throw "undefined behaviour").

Record witness_state := WitnessState {
  wit_object : witness_object;
  signing_key : Z;
  last_aslot : Z;
  total_missed : Z;
  last_confirmed_block_num : Z }.

Record production := Production {
  (* dynamic_global_property_object *)
  head_block_number : Z;
  dgp_head_block_id : block_id_type;
  dgp_time : Z;
  current_witness : Z;
  witness_budget : share_type;
  recently_missed_count : Z;
  current_aslot : Z;
  recent_slots_filled : Z;
  dynamic_flags : Z;
  last_irreversible_block_num : Z;
  (* global_property_object *)
  block_interval_seconds : Z;
  maintenance_skip_slots : Z;
  witness_pay_per_block : share_type;
  active_witnesses : list Z;
  (* witness_schedule_object and the witnesses *)
  current_shuffled_witnesses : list Z;
  witnesses : gmap Z witness_state }.
Implicit Types s : production.

Definition maintenance_flag : Z := 1.
Definition in_maintenance s : bool := negb (Z.land (dynamic_flags s) maintenance_flag =? 0).

(** ** Slots *)

Definition get_slot_time s (slot_num : Z) : Z :=
  let interval := block_interval_seconds s in
  if slot_num =? 0 then 0
  else if head_block_number s =? 0 then time_add (dgp_time s) (slot_num * interval)
  else
    let head_block_abs_slot := dgp_time s / interval in
    let head_slot_time := u32 (head_block_abs_slot * interval) in
    let slot_num := if in_maintenance s then u32 (slot_num + maintenance_skip_slots s) else slot_num in
    time_add head_slot_time (slot_num * interval).

Definition get_slot_at_time s (t : Z) : Z :=
  let first_slot_time := get_slot_time s 1 in
  if t <? first_slot_time then 0
  else u32 ((t - first_slot_time) / block_interval_seconds s + 1).

Definition get_scheduled_witness s (slot_num : Z) : result Z :=
  let aslot := u64 (current_aslot s + slot_num) in
  let n := Z.of_nat (length (current_shuffled_witnesses s)) in
  match current_shuffled_witnesses s !! Z.to_nat (aslot mod n) with
  | Some w => if n =? 0 then undefined_behaviour else Ok w
  | None => undefined_behaviour
  end.

Definition set_witnesses s w : production :=
  Production (head_block_number s) (dgp_head_block_id s) (dgp_time s) (current_witness s)
    (witness_budget s) (recently_missed_count s) (current_aslot s) (recent_slots_filled s)
    (dynamic_flags s) (last_irreversible_block_num s) (block_interval_seconds s)
    (maintenance_skip_slots s) (witness_pay_per_block s) (active_witnesses s)
    (current_shuffled_witnesses s) w.

Definition get_witness s (w : Z) : result witness_state := find_object (witnesses s) w.

Definition modify_witness (w : Z) (f : witness_state → witness_state) s : result production :=
  v ← get_witness s w; Ok (set_witnesses s (<[w := f v]> (witnesses s))).

Definition ws_missed (v : witness_state) : witness_state :=
  WitnessState (wit_object v) (signing_key v) (last_aslot v) (total_missed v + 1)
    (last_confirmed_block_num v).

(** Slots [i+1], ... up to [missed] were missed. *)
Fixpoint count_missed (missed : nat) (i : Z) s : result production :=
  match missed with
  | O => Ok s
  | S missed =>
    w ← get_scheduled_witness s (i + 1);
    s ← modify_witness w ws_missed s;
    count_missed missed (i + 1) s
  end.

Definition update_witness_missed_blocks {Tx} (b : signed_block Tx) s : result (production * Z) :=
  let slot := get_slot_at_time s (timestamp b) in
  FC_ASSERT (negb (slot =? 0)) "Trying to push double-produced block onto current block?!";;
  let missed := slot - 1 in
  s ← (if missed <? Z.of_nat (length (current_shuffled_witnesses s))
       then count_missed (Z.to_nat missed) 0 s else Ok s);
  Ok (s, missed).

(** [fc::popcount] of the low 128 bits. *)
Definition popcount (v : Z) : Z :=
  foldr Z.add 0 ((λ i, if Z.testbit v (Z.of_nat i) then 1 else 0) <$> seq 0 128).

Definition GRAPHENE_100_PERCENT : Z := 10000.

Definition witness_participation_rate s : Z :=
  GRAPHENE_100_PERCENT * popcount (recent_slots_filled s) / 128.

(** ** The schedule *)

Definition multiplier : Z := 2685821657736338717.

(** The pseudo-random number for position [i]. *)
Definition shuffle_number (now_hi i : Z) : Z :=
  let k := u64 (now_hi + u64 (i * multiplier)) in
  let k := Z.lxor k (Z.shiftr k 12) in
  let k := Z.lxor k (u64 (Z.shiftl k 25)) in
  let k := Z.lxor k (Z.shiftr k 27) in
  u64 (k * multiplier).

(** [std::swap( v[i], v[j] )]; in the loop below both indices are in range, out of it the code
    would be undefined. *)
Definition swap (i j : nat) (l : list Z) : list Z :=
  match l !! i, l !! j with
  | Some x, Some y => <[i := y]> (<[j := x]> l)
  | _, _ => l
  end.

Fixpoint shuffle (fuel : nat) (now_hi : Z) (i : nat) (l : list Z) : list Z :=
  match fuel with
  | O => l
  | S fuel =>
    if Nat.ltb i (length l) then
      let jmax := Z.of_nat (length l) - Z.of_nat i in
      let j := (i + Z.to_nat (shuffle_number now_hi (Z.of_nat i) mod jmax))%nat in
      shuffle fuel now_hi (S i) (swap i j l)
    else l
  end.

Definition set_schedule s l : production :=
  Production (head_block_number s) (dgp_head_block_id s) (dgp_time s) (current_witness s)
    (witness_budget s) (recently_missed_count s) (current_aslot s) (recent_slots_filled s)
    (dynamic_flags s) (last_irreversible_block_num s) (block_interval_seconds s)
    (maintenance_skip_slots s) (witness_pay_per_block s) (active_witnesses s) l (witnesses s).

Definition update_witness_schedule s : result production :=
  let n := Z.of_nat (length (active_witnesses s)) in
  if n =? 0 then undefined_behaviour
  else if head_block_number s mod n =? 0 then
    let now_hi := u64 (Z.shiftl (dgp_time s) 32) in
    Ok (set_schedule s (shuffle (length (active_witnesses s)) now_hi 0 (active_witnesses s)))
  else Ok s.

(** ** Global properties *)

Definition GRAPHENE_RECENTLY_MISSED_COUNT_INCREMENT : Z := 4.
Definition GRAPHENE_RECENTLY_MISSED_COUNT_DECREMENT : Z := 3.
Definition GRAPHENE_MAX_UNDO_HISTORY : Z := 10000.

Definition next_missed_count (last_checkpoint : option Z) (block_num missed count : Z) : Z :=
  if block_num =? 1 then 0
  else if match last_checkpoint with Some c => block_num <=? c | None => false end then 0
  else if negb (missed =? 0) then u32 (count + u32 (GRAPHENE_RECENTLY_MISSED_COUNT_INCREMENT * missed))
  else if GRAPHENE_RECENTLY_MISSED_COUNT_INCREMENT <? count
  then count - GRAPHENE_RECENTLY_MISSED_COUNT_DECREMENT
  else if 0 <? count then count - 1
  else count.

Section production.
Context {Tx : Type} `{BlockHash Tx}.
Implicit Types b : signed_block Tx.

(** [last_checkpoint] is the number of the last checkpoint.  The result includes the size given
    to [_undo_db.set_max_size] and [_fork_db.set_max_size].  (A shift of 128 bits by 128 or more
    is undefined in C++; here it gives zero.) *)
Definition update_global_dynamic_data (skip_undo_history_check : bool) (last_checkpoint : option Z)
    b (missed_blocks : Z) s : result (production * Z) :=
  let num := block_num b in
  let s := Production num (block_id b) (timestamp b) (witness b) (witness_budget s)
    (next_missed_count last_checkpoint num missed_blocks (recently_missed_count s))
    (u64 (current_aslot s + (missed_blocks + 1)))
    (u128 (Z.shiftl (u128 (2 * recent_slots_filled s + 1)) missed_blocks))
    (dynamic_flags s) (last_irreversible_block_num s) (block_interval_seconds s)
    (maintenance_skip_slots s) (witness_pay_per_block s) (active_witnesses s)
    (current_shuffled_witnesses s) (witnesses s) in
  (if skip_undo_history_check then Ok ()
   else GRAPHENE_ASSERT (u32 (head_block_number s - last_irreversible_block_num s) <? GRAPHENE_MAX_UNDO_HISTORY)
          "undo_database_exception");;
  Ok (s, u32 (head_block_number s - last_irreversible_block_num s + 1)).

Definition set_witness_budget s v : production :=
  Production (head_block_number s) (dgp_head_block_id s) (dgp_time s) (current_witness s)
    v (recently_missed_count s) (current_aslot s) (recent_slots_filled s)
    (dynamic_flags s) (last_irreversible_block_num s) (block_interval_seconds s)
    (maintenance_skip_slots s) (witness_pay_per_block s) (active_witnesses s)
    (current_shuffled_witnesses s) (witnesses s).

(** Pays the witness from the budget of the interval. *)
Definition update_signing_witness (w : Z) b (s : production) (d : database)
    : result (production * database) :=
  let new_block_aslot := u64 (current_aslot s + get_slot_at_time s (timestamp b)) in
  let witness_pay := Z.min (witness_pay_per_block s) (witness_budget s) in
  budget ← share_sub (witness_budget s) witness_pay;
  let s := set_witness_budget s budget in
  v ← get_witness s w;
  '(d, o) ← deposit_witness_pay (wit_object v) witness_pay d;
  s ← modify_witness w (λ v, WitnessState o (signing_key v) new_block_aslot (total_missed v) (block_num b)) s;
  Ok (s, d).

(** ** Irreversible blocks *)

Definition GRAPHENE_IRREVERSIBLE_THRESHOLD : Z := 70 * 100.

Definition set_last_irreversible s v : production :=
  Production (head_block_number s) (dgp_head_block_id s) (dgp_time s) (current_witness s)
    (witness_budget s) (recently_missed_count s) (current_aslot s) (recent_slots_filled s)
    (dynamic_flags s) v (block_interval_seconds s)
    (maintenance_skip_slots s) (witness_pay_per_block s) (active_witnesses s)
    (current_shuffled_witnesses s) (witnesses s).

(** The last confirmed blocks of witnesses, in the order of [l]. *)
Fixpoint confirmed s (l : list Z) : result (list Z) :=
  match l with
  | [] => Ok []
  | w :: l => v ← get_witness s w; r ← confirmed s l; Ok (last_confirmed_block_num v :: r)
  end.

Definition irreversible_offset (n : Z) : Z :=
  (GRAPHENE_100_PERCENT - GRAPHENE_IRREVERSIBLE_THRESHOLD) * n / GRAPHENE_100_PERCENT.

(** The element [std::nth_element] puts at position [i]: the one sorting would put there. *)
Definition nth_element (i : nat) (l : list Z) : option Z := merge_sort Z.le l !! i.

Definition update_last_irreversible_block s : result production :=
  l ← confirmed s (active_witnesses s);
  match nth_element (Z.to_nat (irreversible_offset (Z.of_nat (length l)))) l with
  | None => undefined_behaviour
  | Some v => Ok (if last_irreversible_block_num s <? v then set_last_irreversible s v else s)
  end.

Definition update_maintenance_flag (new_maintenance_flag : bool) s : production :=
  Production (head_block_number s) (dgp_head_block_id s) (dgp_time s) (current_witness s)
    (witness_budget s) (recently_missed_count s) (current_aslot s) (recent_slots_filled s)
    (Z.lor (Z.land (dynamic_flags s) (u32 (Z.lnot maintenance_flag)))
       (if new_maintenance_flag then maintenance_flag else 0))
    (last_irreversible_block_num s) (block_interval_seconds s)
    (maintenance_skip_slots s) (witness_pay_per_block s) (active_witnesses s)
    (current_shuffled_witnesses s) (witnesses s).

(** ** Headers *)

(** [signed_by] is the signature check. *)
Definition validate_block_header (signed_by : signed_block Tx → Z → bool)
    (skip_witness_signature skip_witness_schedule_check : bool) b s : result Z :=
  FC_ASSERT (bool_decide (dgp_head_block_id s = previous b)) "head_block_id() == next_block.previous";;
  FC_ASSERT (dgp_time s <? timestamp b) "head_block_time() < next_block.timestamp";;
  v ← get_witness s (witness b);
  (if skip_witness_signature then Ok ()
   else FC_ASSERT (signed_by b (signing_key v)) "next_block.validate_signee( witness.signing_key )");;
  (if skip_witness_schedule_check then Ok ()
   else
     let slot_num := get_slot_at_time s (timestamp b) in
     FC_ASSERT (0 <? slot_num) "slot_num > 0";;
     scheduled ← get_scheduled_witness s slot_num;
     FC_ASSERT (witness b =? scheduled) "Witness produced block at wrong time");;
  Ok (witness b).
End production.

(** ** The shuffle is a permutation *)

Lemma swap_perm i j l : swap i j l ≡ₚ l.
Proof.
  unfold swap. destruct (l !! i) as [x|] eqn:Ei; [|done]. destruct (l !! j) as [y|] eqn:Ej; [|done].
  apply Permutation_inj. split; [by rewrite !length_insert|].
  exists (λ k, if decide (k = i) then j else if decide (k = j) then i else k). split.
  - intros a b. repeat case_decide; congruence.
  - apply lookup_lt_Some in Ei as Li. apply lookup_lt_Some in Ej as Lj.
    intros k. destruct (decide (k = i)) as [->|].
    + rewrite list_lookup_insert_eq; [done|by rewrite length_insert].
    + rewrite list_lookup_insert_ne by done. destruct (decide (k = j)) as [->|].
      * by rewrite list_lookup_insert_eq.
      * by rewrite list_lookup_insert_ne.
Qed.

Lemma shuffle_perm fuel now_hi i l : shuffle fuel now_hi i l ≡ₚ l.
Proof.
  revert i l. induction fuel as [|fuel IH]; intros i l; simpl; [done|].
  destruct (Nat.ltb i (length l)); [|done]. by rewrite IH, swap_perm.
Qed.

(** Reading a list from position [r] on, around its end. *)
Lemma rotate_lookup (l : list Z) (r i : nat) :
  (r < length l)%nat → (i < length l)%nat →
  (drop r l ++ take r l) !! i = l !! Nat.modulo (r + i) (length l).
Proof.
  intros Hr Hi. destruct (decide (i < length l - r)%nat) as [Hlt|Hge].
  - rewrite lookup_app_l by (rewrite length_drop; lia). rewrite lookup_drop, Nat.mod_small by lia. done.
  - rewrite lookup_app_r by (rewrite length_drop; lia). rewrite length_drop.
    rewrite lookup_take_lt by lia. f_equal.
    replace (r + i)%nat with (i - (length l - r) + 1 * length l)%nat by lia.
    rewrite Nat.Div0.mod_add, Nat.mod_small by lia. done.
Qed.

Lemma scheduled_lookup s slot :
  0 ≤ current_aslot s + slot < 2 ^ 64 → current_shuffled_witnesses s ≠ [] →
  ∃ w, get_scheduled_witness s slot = Ok w ∧
    current_shuffled_witnesses s !! Z.to_nat ((current_aslot s + slot) mod Z.of_nat (length (current_shuffled_witnesses s)))
      = Some w.
Proof.
  intros Hb Hne. unfold get_scheduled_witness, u64. rewrite (Z.mod_small (_ + _)) by done.
  set (l := current_shuffled_witnesses s) in *. assert (0 < Z.of_nat (length l)) as Hl by (destruct l; simpl; [done|lia]).
  pose proof (Z.mod_pos_bound (current_aslot s + slot) _ Hl) as Hm.
  destruct (lookup_lt_is_Some_2 l (Z.to_nat ((current_aslot s + slot) mod Z.of_nat (length l)))) as [w Hw]; [lia|].
  exists w. rewrite Hw. destruct (Z.eqb_spec (Z.of_nat (length l)) 0); [lia|done].
Qed.

(** The witnesses of a round of slots starting after slot [k]. *)
Lemma round_scheduled s k :
  let l := current_shuffled_witnesses s in
  l ≠ [] → 0 ≤ current_aslot s + k → current_aslot s + k + Z.of_nat (length l) < 2 ^ 64 →
  ∃ ws, ws ≡ₚ l ∧
    Forall2 (λ i w, get_scheduled_witness s (k + Z.of_nat i) = Ok w) (seq 1 (length l)) ws.
Proof.
  intros l Hne Hlo Hhi. assert (0 < Z.of_nat (length l)) as Hl by (destruct l; simpl; [done|lia]).
  set (start := (current_aslot s + k + 1) mod Z.of_nat (length l)).
  pose proof (Z.mod_pos_bound (current_aslot s + k + 1) _ Hl) as Hr. fold start in Hr.
  exists (drop (Z.to_nat start) l ++ take (Z.to_nat start) l). split.
  { rewrite Permutation_app_comm. by rewrite take_drop. }
  apply Forall2_same_length_lookup_2; [rewrite length_seq, length_app, length_drop, length_take; lia|].
  intros i j w [-> Hi]%lookup_seq Hw.
  destruct (scheduled_lookup s (k + Z.of_nat (1 + i))) as (w' & -> & Hw'); [lia|done|]. fold l in Hw'.
  f_equal. rewrite rotate_lookup in Hw by lia.
  assert (Z.to_nat ((current_aslot s + (k + Z.of_nat (1 + i))) mod Z.of_nat (length l)) =
    Nat.modulo (Z.to_nat start + i) (length l)) as E.
  { apply Nat2Z.inj. rewrite Z2Nat.id by (apply Z.mod_pos_bound; lia).
    rewrite Nat2Z.inj_mod, (Nat2Z.inj_add (Z.to_nat start)), Z2Nat.id by lia.
    unfold start. rewrite Z.add_mod_idemp_l by lia. f_equal. lia. }
  rewrite E in Hw'. congruence.
Qed.

(** C25: the schedule is fair.  When the schedule is updated at the start of a round, it is a
    permutation of the active witnesses, whatever the block time; and in every round of
    consecutive slots each active witness is scheduled exactly once. *)
Theorem schedule_fair s s' k :
  update_witness_schedule s = Ok s' →
  head_block_number s mod Z.of_nat (length (active_witnesses s)) = 0 →
  0 ≤ current_aslot s + k →
  current_aslot s + k + Z.of_nat (length (active_witnesses s)) < 2 ^ 64 →
  current_shuffled_witnesses s' ≡ₚ active_witnesses s ∧
  ∃ ws, ws ≡ₚ active_witnesses s ∧
    Forall2 (λ i w, get_scheduled_witness s' (k + Z.of_nat i) = Ok w)
      (seq 1 (length (active_witnesses s))) ws.
Proof.
  intros Hu Hmod Hlo Hhi. unfold update_witness_schedule in Hu.
  destruct (Z.eqb_spec (Z.of_nat (length (active_witnesses s))) 0) as [|Hn]; [done|].
  rewrite Hmod in Hu. simpl in Hu. injection Hu as <-.
  set (l := shuffle _ _ _ _). assert (l ≡ₚ active_witnesses s) as Hp by apply shuffle_perm.
  assert (length l = length (active_witnesses s)) as El by (by rewrite Hp).
  split; [exact Hp|]. destruct (round_scheduled (set_schedule s l) k) as (ws & Hws & Hall); simpl.
  - intros E. rewrite E in El. simpl in El. lia.
  - done.
  - by rewrite El.
  - simpl in *. rewrite El in Hall. exists ws. split; [by rewrite Hws|exact Hall].
Qed.

(** ** Slots and times *)

(** The time of slot 0 as the code counts: the slots skipped for maintenance come first. *)
Definition slot_base s : Z :=
  if head_block_number s =? 0 then dgp_time s
  else (dgp_time s / block_interval_seconds s
        + (if in_maintenance s then maintenance_skip_slots s else 0)) * block_interval_seconds s.

Record slots_ok s : Prop := {
  so_interval : 0 < block_interval_seconds s;
  so_time : 0 ≤ dgp_time s;
  so_skip : 0 ≤ maintenance_skip_slots s }.

Lemma slot_base_nonneg s : slots_ok s → 0 ≤ slot_base s.
Proof.
  intros [Hi Ht Hs]. unfold slot_base. destruct (head_block_number s =? 0); [done|].
  pose proof (Z.div_pos _ _ Ht Hi). destruct (in_maintenance s); nia.
Qed.

Lemma slot_time_linear s k :
  slots_ok s → 1 ≤ k → slot_base s + k * block_interval_seconds s < 2 ^ 32 →
  get_slot_time s k = slot_base s + k * block_interval_seconds s.
Proof.
  intros Hok Hk Hmax. pose proof (slot_base_nonneg s Hok) as Hb. pose proof Hok as [Hi Ht Hs].
  unfold get_slot_time, slot_base in *. destruct (Z.eqb_spec k 0); [lia|].
  destruct (head_block_number s =? 0).
  - apply time_add_small. split; [lia|unfold time_point_sec_maximum; lia].
  - pose proof (Z.div_pos _ _ Ht Hi) as Hd. unfold u32, time_add.
    destruct (in_maintenance s).
    + assert (k + maintenance_skip_slots s < 2 ^ 32) by nia.
      rewrite (Z.mod_small (k + _)) by lia. rewrite (Z.mod_small (_ * _)) by nia.
      rewrite Z.mod_small by nia. lia.
    + rewrite (Z.mod_small (_ * _)) by nia. rewrite Z.mod_small by nia. lia.
Qed.

(** Slots and times correspond.  As long as times stay within 32 bits, slots start one
    interval apart and after the head block; the slot at a slot's start time is that slot; and
    any time from the first slot on lies in the interval of its slot. *)
Theorem slot_time_roundtrip s k t :
  slots_ok s → 1 ≤ k → slot_base s + k * block_interval_seconds s < 2 ^ 32 →
  get_slot_time s 1 ≤ t → t < 2 ^ 32 →
  dgp_time s < get_slot_time s k ∧
  get_slot_at_time s (get_slot_time s k) = k ∧
  get_slot_time s (get_slot_at_time s t) ≤ t < get_slot_time s (get_slot_at_time s t) + block_interval_seconds s.
Proof.
  intros Hok Hk Hmax Hfirst Ht. pose proof (slot_base_nonneg s Hok) as Hb. pose proof Hok as [Hi Hh Hs].
  assert (get_slot_time s 1 = slot_base s + 1 * block_interval_seconds s) as E1
    by (apply slot_time_linear; [done|lia|nia]).
  rewrite (slot_time_linear s k) by done. unfold get_slot_at_time. rewrite E1 in *. split; [|split].
  - unfold slot_base. destruct (head_block_number s =? 0); [nia|].
    pose proof (Z.mod_pos_bound (dgp_time s) _ Hi). pose proof (Z.div_mod (dgp_time s) (block_interval_seconds s)).
    destruct (in_maintenance s); nia.
  - destruct (Z.ltb_spec (slot_base s + k * block_interval_seconds s) (slot_base s + 1 * block_interval_seconds s)); [nia|].
    replace (slot_base s + k * block_interval_seconds s - (slot_base s + 1 * block_interval_seconds s))
      with ((k - 1) * block_interval_seconds s) by lia.
    rewrite Z.div_mul by lia. unfold u32. rewrite Z.mod_small by nia. lia.
  - destruct (Z.ltb_spec t (slot_base s + 1 * block_interval_seconds s)); [lia|].
    set (x := t - (slot_base s + 1 * block_interval_seconds s)).
    pose proof (Z.mod_pos_bound x _ Hi). pose proof (Z.div_mod x (block_interval_seconds s) ltac:(lia)).
    assert (0 ≤ x / block_interval_seconds s) by (apply Z.div_pos; lia).
    unfold u32. rewrite Z.mod_small by nia. rewrite slot_time_linear by (done || nia). nia.
Qed.

(** ** Irreversibility *)

(** Sorted lists: everything from position [i] on is at least the element there. *)
Lemma sorted_tail (l : list Z) i v :
  StronglySorted Z.le l → l !! i = Some v → Forall (λ x, v ≤ x) (drop i l).
Proof.
  intros Hs. revert i. induction Hs as [|x l Hs IH Hx]; intros [|i] Hi; simpl in *; try done.
  - injection Hi as ->. constructor; [lia|done].
  - by apply IH.
Qed.

Lemma filter_all (P : Z → Prop) `{∀ x, Decision (P x)} l : Forall P l → filter P l = l.
Proof. induction 1; [done|]. rewrite filter_cons_True by done. by f_equal. Qed.

Lemma nth_element_count i l v :
  nth_element i l = Some v → (length l ≤ i + length (filter (λ x, (v ≤ x)%Z) l))%nat.
Proof.
  unfold nth_element. intros Hv.
  pose proof (sorted_tail _ _ _ (StronglySorted_merge_sort _ l) Hv) as Ht.
  assert (length (filter (λ x, (v ≤ x)%Z) l) = length (filter (λ x, (v ≤ x)%Z) (merge_sort Z.le l))) as ->
    by (by rewrite merge_sort_Permutation).
  rewrite <- (merge_sort_Permutation Z.le l) at 1. rewrite <- (take_drop i (merge_sort Z.le l)) at 2.
  rewrite filter_app, (filter_all _ (drop i _)), length_app, length_drop by done. lia.
Qed.

Lemma confirmed_length s l r : confirmed s l = Ok r → length r = length l.
Proof.
  revert r. induction l as [|w l IH]; intros r E; simpl in E; [by injection E as <-|].
  apply bind_Ok in E as (v & _ & E). apply bind_Ok in E as (r' & E' & [= <-]). simpl. by rewrite (IH r').
Qed.

(** C26: a block becomes irreversible only when 70% of the active witnesses have confirmed it or a
    later one, and never becomes reversible again. *)
Theorem irreversible_confirmed s s' :
  update_last_irreversible_block s = Ok s' →
  last_irreversible_block_num s ≤ last_irreversible_block_num s' ∧
  (last_irreversible_block_num s' ≠ last_irreversible_block_num s →
   ∃ l, confirmed s (active_witnesses s) = Ok l ∧
     7 * Z.of_nat (length (active_witnesses s)) ≤
       10 * Z.of_nat (length (filter (λ x, last_irreversible_block_num s' ≤ x) l))).
Proof.
  intros Hu. unfold update_last_irreversible_block in Hu. apply bind_Ok in Hu as (l & Hl & Hu).
  destruct (nth_element _ l) as [v|] eqn:Ev; [|done]. injection Hu as <-.
  destruct (Z.ltb_spec (last_irreversible_block_num s) v) as [Hlt|]; simpl; [|split; [lia|done]].
  split; [lia|]. intros _. exists l. split; [done|].
  apply nth_element_count in Ev. rewrite <- (confirmed_length _ _ _ Hl).
  unfold irreversible_offset, GRAPHENE_100_PERCENT, GRAPHENE_IRREVERSIBLE_THRESHOLD in Ev.
  pose proof (Z.div_mod ((10000 - 70 * 100) * Z.of_nat (length l)) 10000 ltac:(lia)).
  pose proof (Z.mod_pos_bound ((10000 - 70 * 100) * Z.of_nat (length l)) 10000 ltac:(lia)).
  assert (0 ≤ (10000 - 70 * 100) * Z.of_nat (length l) / 10000) by (apply Z.div_pos; lia). lia.
Qed.

(** ** Blocks and the schedule *)

Section blocks.
Context {Tx : Type} `{BlockHash Tx}.
Implicit Types b : signed_block Tx.

(** The members the slots and the schedule depend on. *)
Definition same_schedule s s' : Prop :=
  current_shuffled_witnesses s' = current_shuffled_witnesses s ∧ current_aslot s' = current_aslot s ∧
  dgp_time s' = dgp_time s ∧ head_block_number s' = head_block_number s ∧
  dynamic_flags s' = dynamic_flags s ∧ block_interval_seconds s' = block_interval_seconds s ∧
  maintenance_skip_slots s' = maintenance_skip_slots s.

Lemma modify_witness_frame w f s s' : modify_witness w f s = Ok s' → same_schedule s s'.
Proof. unfold modify_witness. intros E. apply bind_Ok in E as (v & _ & [= <-]). by split_and!. Qed.

Lemma count_missed_frame n i s s' : count_missed n i s = Ok s' → same_schedule s s'.
Proof.
  revert i s. induction n as [|n IH]; intros i s E; simpl in E; [by injection E as <-|].
  apply bind_Ok in E as (w & _ & E). apply bind_Ok in E as (s1 & (? & ? & ? & ? & ? & ? & ?)%modify_witness_frame & E).
  apply IH in E as (? & ? & ? & ? & ? & ? & ?). split_and!; congruence.
Qed.

(** C27: missed slots do not disturb the schedule.  A block whose header is accepted was produced
    by the witness scheduled for its slot, after the head block's time; after the block's slot
    has been counted, the head's absolute slot is the block's, and the witness of every later
    slot is the one that was scheduled for it before, however many slots were missed. *)
Theorem block_keeps_schedule signed_by skip_sig skip_undo cp b s w s1 missed s2 window :
  validate_block_header signed_by skip_sig false b s = Ok w →
  update_witness_missed_blocks b s = Ok (s1, missed) →
  update_global_dynamic_data skip_undo cp b missed s1 = Ok (s2, window) →
  0 ≤ current_aslot s → current_aslot s + get_slot_at_time s (timestamp b) < 2 ^ 64 →
  w = witness b ∧ dgp_time s < dgp_time s2 ∧ missed = get_slot_at_time s (timestamp b) - 1 ∧
  get_scheduled_witness s (missed + 1) = Ok w ∧
  current_aslot s2 = current_aslot s + missed + 1 ∧
  ∀ k, get_scheduled_witness s2 k = get_scheduled_witness s (missed + 1 + k).
Proof.
  intros Hv Hm Hg Hlo Hhi. unfold validate_block_header in Hv.
  apply bind_Ok in Hv as ([] & _ & Hv). apply bind_Ok in Hv as ([] & Ht%FC_ASSERT_Ok%Z.ltb_lt & Hv).
  apply bind_Ok in Hv as (v & _ & Hv). apply bind_Ok in Hv as ([] & _ & Hv).
  apply bind_Ok in Hv as ([] & Hs & [= <-]). apply bind_Ok in Hs as ([] & Hslot%FC_ASSERT_Ok%Z.ltb_lt & Hs).
  apply bind_Ok in Hs as (sw & Hsw & Heq%FC_ASSERT_Ok%Z.eqb_eq).
  unfold update_witness_missed_blocks in Hm. apply bind_Ok in Hm as ([] & _ & Hm).
  apply bind_Ok in Hm as (s' & Hc & [= <- <-]).
  assert (same_schedule s s') as (E1 & E2 & _).
  { destruct (_ <? _); [by eapply count_missed_frame|]. injection Hc as <-. by split_and!. }
  unfold update_global_dynamic_data in Hg. apply bind_Ok in Hg as ([] & _ & [= <- _]). simpl.
  set (slot := get_slot_at_time s (timestamp b)) in *.
  assert (u64 (current_aslot s' + (slot - 1 + 1)) = current_aslot s + slot) as Ea
    by (unfold u64; rewrite E2, Z.mod_small; lia).
  split_and!; [done|done|done| |rewrite Ea; lia|].
  - replace (slot - 1 + 1) with slot by lia. rewrite Hsw. congruence.
  - intros k. unfold get_scheduled_witness. simpl. rewrite Ea, E1.
    replace (current_aslot s + (slot - 1 + 1 + k)) with (current_aslot s + slot + k) by lia. done.
Qed.

(** ** Witness pay *)

(** Paying a witness moves the pay from the budget into the witness's vesting balance, never more
    than the budget. *)
Lemma update_signing_witness_pays w b s d s' d' :
  update_signing_witness w b s d = Ok (s', d') → 0 ≤ witness_budget s → 0 ≤ witness_pay_per_block s →
  0 ≤ witness_budget s' ≤ witness_budget s ∧
  witness_budget s - witness_budget s' ≤ witness_pay_per_block s ∧
  moves d d' (amt core_asset_id (witness_budget s - witness_budget s')).
Proof.
  intros E Hb Hp. unfold update_signing_witness in E. apply bind_Ok in E as (budget & Hbud & E).
  apply bind_Ok in E as (v & _ & E). apply bind_Ok in E as ([d1 o] & Hd & E).
  apply bind_Ok in E as (s1 & Hm & [= <- <-]). inv_share. subst.
  unfold modify_witness in Hm. apply bind_Ok in Hm as (v' & _ & [= <-]). simpl.
  set (pay := Z.min _ _) in *. split; [lia|]. split; [lia|].
  replace (witness_budget s - (witness_budget s - pay)) with pay by lia.
  unfold deposit_witness_pay in Hd. destruct (Z.eqb_spec pay 0) as [->|].
  - injection Hd as <- _. eapply moves_ext; [apply moves_refl|]. intros a. amt_solve.
  - apply bind_Ok in Hd as ([d2 nv] & Hl%deposit_lazy_vesting_moves & [= <- _]). exact Hl.
Qed.
End blocks.

(** ** Concrete runs *)

Definition sample_witness (n confirmed_num : Z) : witness_state :=
  WitnessState (WitnessObject n None) (n + 1000) 0 0 confirmed_num.

(** Five witnesses at block 100, a maintenance block. *)
Definition sample_production : production :=
  Production 100 (BlockId 100 7) 1700200002 11 500 0 123 1 1 96 5 3 100
    [11; 12; 13; 14; 15] [11; 12; 13; 14; 15]
    {[ 11 := sample_witness 11 100; 12 := sample_witness 12 97; 13 := sample_witness 13 98;
       14 := sample_witness 14 99; 15 := sample_witness 15 90 ]}.

Definition sample_scheduled : production :=
  match update_witness_schedule sample_production with Ok s => s | Err _ => sample_production end.

Lemma schedule_fair_witness :
  current_shuffled_witnesses sample_scheduled ≡ₚ [11; 12; 13; 14; 15] ∧
  current_shuffled_witnesses sample_scheduled ≠ [11; 12; 13; 14; 15].
Proof.
  split; [|by vm_compute].
  edestruct (schedule_fair sample_production sample_scheduled 2) as [Hp _];
    [by vm_compute | by vm_compute | by vm_compute | by vm_compute | exact Hp].
Defined.

Lemma slot_time_roundtrip_witness :
  get_slot_time sample_production 2 = 1700200025 ∧ get_slot_at_time sample_production 1700200025 = 2.
Proof.
  split; [by vm_compute|].
  destruct (slot_time_roundtrip sample_production 2 1700200030) as (_ & E & _);
    [by split; vm_compute | lia | by vm_compute | by vm_compute | by vm_compute | exact E].
Defined.

Lemma irreversible_confirmed_witness : ∃ s',
  update_last_irreversible_block sample_production = Ok s' ∧
  last_irreversible_block_num s' = 97 ∧
  7 * 5 ≤ 10 * Z.of_nat (length (filter (λ x, 97 ≤ x) [100; 97; 98; 99; 90])).
Proof.
  eexists. split; [vm_compute; reflexivity|]. split; [done|].
  edestruct (irreversible_confirmed sample_production) as [_ H]; [vm_compute; reflexivity|].
  destruct H as (l & Hl & Hc); [by vm_compute|]. vm_compute in Hl. injection Hl as <-. exact Hc.
Defined.

#[local] Instance production_hash : BlockHash Z := λ b, timestamp b.

(** A block two slots later than the first slot. *)
Definition sample_next_block : signed_block Z := SignedBlock (BlockId 100 7) 1700200030 12 [].

Lemma block_keeps_schedule_witness : ∃ s1 missed s2 window,
  update_witness_missed_blocks sample_next_block sample_production = Ok (s1, missed) ∧
  update_global_dynamic_data false None sample_next_block missed s1 = Ok (s2, window) ∧
  missed = 2 ∧ current_aslot s2 = 126 ∧ get_scheduled_witness s2 1 = Ok 13.
Proof.
  eexists _, _, _, _. split; [vm_compute; reflexivity|]. split; [vm_compute; reflexivity|].
  edestruct (block_keeps_schedule (λ _ _, true) false false None sample_next_block sample_production)
    as (_ & _ & Em & _ & Ea & Hk);
    [vm_compute; reflexivity | vm_compute; reflexivity | vm_compute; reflexivity
    | by vm_compute | by vm_compute |].
  split; [exact Em|]. split; [exact Ea|]. rewrite (Hk 1). by vm_compute.
Defined.
