(* ===== verification/Budget.v ===== *)
(** * Workers and the budget

    The worker objects and [worker_create_evaluator] of libraries/chain/worker_evaluator.cpp, and the
    functions of libraries/chain/db_maint.cpp that a maintenance block pays workers and witnesses with:
    [update_worker_votes], [pay_workers], [initialize_budget_record] and [process_budget].  Funds are
    created from the reserve, the difference between the maximum and the current supply of the core
    asset, at a limited rate. *)
From stdpp Require Import sorting.
From S2P Require Import Prelude MachineInt Hardfork Asset Vesting ChainState Ledger Sample Balance WitnessSchedule.

Definition GRAPHENE_CORE_ASSET_CYCLE_RATE : Z := 17.
Definition GRAPHENE_CORE_ASSET_CYCLE_RATE_BITS : Z := 32.
Definition GRAPHENE_MAX_WORKER_NAME_LENGTH : nat := 63.
Definition GRAPHENE_MAX_URL_LENGTH : nat := 127.

(** ** Workers *)

Inductive worker_type :=
  | refund_worker_type (total_burned : share_type)
  | vesting_balance_worker_type (balance : Z)
  | burn_worker_type (total_burned : share_type).

Record worker_object := WorkerObject {
  worker_account : account_id_type;
  work_begin_date : Z;
  work_end_date : Z;
  daily_pay : share_type;
  worker : worker_type;
  worker_name : string;
  worker_url : string;
  vote_for : Z;
  vote_against : Z;
  total_votes_for : Z;
  total_votes_against : Z }.

Definition is_active (w : worker_object) (now : Z) : bool := (work_begin_date w <=? now) && (now <=? work_end_date w).

Definition approving_stake (w : worker_object) : share_type := to_int64 (total_votes_for w) - to_int64 (total_votes_against w).

Definition set_worker (w : worker_object) (t : worker_type) : worker_object :=
  WorkerObject (worker_account w) (work_begin_date w) (work_end_date w) (daily_pay w) t (worker_name w) (worker_url w)
    (vote_for w) (vote_against w) (total_votes_for w) (total_votes_against w).

Definition set_votes (w : worker_object) (votes_for votes_against : Z) : worker_object :=
  WorkerObject (worker_account w) (work_begin_date w) (work_end_date w) (daily_pay w) (worker w) (worker_name w) (worker_url w)
    (vote_for w) (vote_against w) votes_for votes_against.

(** [pay_worker] of the three worker types. *)
Definition pay_worker (t : worker_type) (pay : share_type) (d : database) : result (worker_type * database) :=
  match t with
  | refund_worker_type total_burned =>
    total_burned ← share_add total_burned pay;
    d ← modify_dynamic_data core_asset_id (λ s, v ← share_sub (current_supply s) pay; Ok (dd_with_supply s v)) d;
    Ok (refund_worker_type total_burned, d)
  | vesting_balance_worker_type balance =>
    t' ← tbl_modify balance (vb_deposit (head_block_time d) (Asset pay core_asset_id)) (vesting_balances d);
    Ok (vesting_balance_worker_type balance, set_vesting_balances t' d)
  | burn_worker_type total_burned =>
    total_burned ← share_add total_burned pay;
    d ← adjust_balance GRAPHENE_NULL_ACCOUNT (Asset pay core_asset_id) d;
    Ok (burn_worker_type total_burned, d)
  end.

(** ** The state of maintenance *)

Record budget_record := BudgetRecord {
  time_since_last_budget : Z;
  from_initial_reserve : share_type;
  from_accumulated_fees : share_type;
  from_unused_witness_budget : share_type;
  requested_witness_budget : share_type;
  total_budget : share_type;
  rec_witness_budget : share_type;
  rec_worker_budget : share_type;
  leftover_worker_funds : share_type;
  supply_delta : share_type;
  rec_max_supply : share_type;
  rec_current_supply : share_type }.

(** The database, the block production state with the witness budget, and the workers; [worker_budget_per_day] is a
    chain parameter, [next_available_vote_id] a member of the global properties. *)
Record maintenance := Maintenance {
  mt_db : database;
  mt_production : production;
  last_budget_time : Z;
  worker_budget_per_day : share_type;
  next_available_vote_id : Z;
  next_worker_id : Z;
  workers : gmap Z worker_object;
  budget_records : list (Z * budget_record) }.
Implicit Types (st : maintenance).

Definition set_db_workers st d ws : maintenance :=
  Maintenance d (mt_production st) (last_budget_time st) (worker_budget_per_day st) (next_available_vote_id st)
    (next_worker_id st) ws (budget_records st).

(** ** Creating workers *)

Inductive worker_initializer :=
  | refund_worker_initializer
  | vesting_balance_worker_initializer (pay_vesting_period_days : Z)
  | burn_worker_initializer.

Record worker_create_operation := WorkerCreateOperation {
  wc_fee : asset;
  wc_owner : account_id_type;
  wc_work_begin_date : Z;
  wc_work_end_date : Z;
  wc_daily_pay : share_type;
  wc_name : string;
  wc_url : string;
  wc_initializer : worker_initializer }.

Definition worker_create_validate (o : worker_create_operation) : result unit :=
  FC_ASSERT (0 <=? amount (wc_fee o)) "fee.amount >= 0";;
  FC_ASSERT (wc_work_begin_date o <? wc_work_end_date o) "work_end_date > work_begin_date";;
  FC_ASSERT (0 <? wc_daily_pay o) "daily_pay > 0";;
  FC_ASSERT (wc_daily_pay o <? GRAPHENE_MAX_SHARE_SUPPLY) "daily_pay < GRAPHENE_MAX_SHARE_SUPPLY";;
  FC_ASSERT (bool_decide (String.length (wc_name o) < GRAPHENE_MAX_WORKER_NAME_LENGTH)%nat) "name.size()";;
  FC_ASSERT (bool_decide (String.length (wc_url o) < GRAPHENE_MAX_URL_LENGTH)%nat) "url.size()".

Definition worker_create_evaluate (o : worker_create_operation) (d : database) : result unit :=
  owner ← get_account d (wc_owner o);
  FC_ASSERT (membership_expiration_date owner =? time_point_sec_maximum) "is_lifetime_member()";;
  FC_ASSERT (head_block_time d <=? wc_work_begin_date o) "work_begin_date >= head_block_time()".

(** [worker_init_visitor]; [fc::days( n ).to_seconds()] is kept in 32 bits. *)
Definition worker_init (i : worker_initializer) (owner : account_id_type) (d : database) : result (worker_type * database) :=
  match i with
  | refund_worker_initializer => Ok (refund_worker_type 0, d)
  | burn_worker_initializer => Ok (burn_worker_type 0, d)
  | vesting_balance_worker_initializer days =>
    let policy := CddPolicy (Cdd.CddVestingPolicy (u32 (days * 86400)) 0 0 (head_block_time d)) in
    '(id, t) ← tbl_create (VestingBalanceObject owner (Asset 0 core_asset_id) policy vbt_worker) (vesting_balances d);
    Ok (vesting_balance_worker_type id, set_vesting_balances t d)
  end.

Definition worker_create_apply (o : worker_create_operation) st : result (Z * maintenance) :=
  let for_id := next_available_vote_id st in
  let against_id := next_available_vote_id st + 1 in
  '(t, d) ← worker_init (wc_initializer o) (wc_owner o) (mt_db st);
  let w := WorkerObject (wc_owner o) (wc_work_begin_date o) (wc_work_end_date o) (wc_daily_pay o) t (wc_name o) (wc_url o)
             for_id against_id 0 0 in
  let id := next_worker_id st in
  Ok (id, Maintenance d (mt_production st) (last_budget_time st) (worker_budget_per_day st) (next_available_vote_id st + 2)
            (id + 1) (<[id := w]> (workers st)) (budget_records st)).

(** ** Votes and pay *)

(** [_vote_tally_buffer] gives the votes for a vote id. *)
Definition update_worker_votes (vote_tally_buffer : Z → Z) st : maintenance :=
  let allow_negative_votes := head_block_time (mt_db st) <? HARDFORK_607_TIME in
  set_db_workers st (mt_db st)
    ((λ w, set_votes w (vote_tally_buffer (vote_for w))
             (if allow_negative_votes then vote_tally_buffer (vote_against w) else 0)) <$> workers st).

(** More votes are preferred, then the lower id. *)
Definition ranked_before (x y : Z * worker_object) : Prop :=
  approving_stake y.2 < approving_stake x.2 ∨ (approving_stake x.2 = approving_stake y.2 ∧ x.1 ≤ y.1).
#[global] Instance ranked_before_dec x y : Decision (ranked_before x y).
Proof. unfold ranked_before. apply _. Defined.

Definition active_workers st : list (Z * worker_object) :=
  let now := head_block_time (mt_db st) in
  merge_sort ranked_before
    (filter (λ x, is_active x.2 now = true ∧ 0 < approving_stake x.2) (map_to_list (workers st))).

Definition microseconds_per_day : Z := 86400 * 1000000.

(** The daily pay for the time that passed. *)
Definition requested_pay (w : worker_object) (passed_time_count : Z) : result share_type :=
  share_check (to_uint64 (u128_div (u128_mul (u128 (daily_pay w)) (u128 passed_time_count)) microseconds_per_day)).

Fixpoint pay_active (passed_time_count : Z) (active : list Z) (budget : share_type) (d : database)
    (ws : gmap Z worker_object) : result (share_type * database * gmap Z worker_object) :=
  match active with
  | [] => Ok (budget, d, ws)
  | id :: active =>
    if 0 <? budget then
      w ← find_object ws id;
      requested ← requested_pay w passed_time_count;
      let actual_pay := Z.min budget requested in
      '(t, d) ← pay_worker (worker w) actual_pay d;
      budget ← share_sub budget actual_pay;
      pay_active passed_time_count active budget d (<[id := set_worker w t]> ws)
    else Ok (budget, d, ws)
  end.

Definition pay_workers (budget : share_type) st : result (share_type * maintenance) :=
  let passed_time_count := (head_block_time (mt_db st) - last_budget_time st) * 1000000 in
  '(budget, d, ws) ← pay_active passed_time_count (map fst (active_workers st)) budget (mt_db st) (workers st);
  Ok (budget, set_db_workers st d ws).

(** ** The budget *)

Definition initialize_budget_record (now : Z) st : result budget_record :=
  core ← get_asset (mt_db st) core_asset_id;
  core_dd ← get_dynamic_data (mt_db st) core_asset_id;
  let max := max_supply (ao_options core) in
  let witness_budget := witness_budget (mt_production st) in
  initial_reserve ← share_sub max (current_supply core_dd);
  let rec dt total := BudgetRecord dt initial_reserve (accumulated_fees core_dd) witness_budget 0 total 0 0 0 0 max 0 in
  if (last_budget_time st =? 0) || (now <=? last_budget_time st) then Ok (rec 0 0)
  else
    let dt := now - last_budget_time st in
    reserve ← share_add initial_reserve (accumulated_fees core_dd);
    reserve ← share_add reserve witness_budget;
    let budget := u128_mul (u128_mul (u128 reserve) (to_uint64 dt)) GRAPHENE_CORE_ASSET_CYCLE_RATE in
    let budget := Z.shiftr (u128_add budget (2 ^ GRAPHENE_CORE_ASSET_CYCLE_RATE_BITS - 1)) GRAPHENE_CORE_ASSET_CYCLE_RATE_BITS in
    total ← (if budget <? u128 reserve then share_check (to_uint64 budget) else Ok reserve);
    Ok (rec (to_uint64 dt) total).

(** What the maintenance interval costs: the pay of its blocks, and its share of the daily worker budget. *)
Definition requested_witness_pay st (time_to_maint : Z) : result share_type :=
  let interval := block_interval_seconds (mt_production st) in
  if interval =? 0 then undefined_behaviour
  else
    let blocks_to_maint := to_uint64 (to_uint64 (to_uint64 time_to_maint + interval) - 1) / interval in
    share_check (to_uint64 (witness_pay_per_block (mt_production st) * blocks_to_maint)).

Definition worker_budget_for st (time_to_maint : Z) (available_funds : share_type) : result share_type :=
  let worker_budget := u128_div (u128_mul (u128 (worker_budget_per_day st)) (to_uint64 time_to_maint)) 86400 in
  if u128 available_funds <=? worker_budget then Ok available_funds else share_check (to_uint64 worker_budget).

Definition process_budget st : result maintenance :=
  let d := mt_db st in
  let now := head_block_time d in
  let time_to_maint := next_maintenance_time d - now in
  rec ← initialize_budget_record now st;
  requested ← requested_witness_pay st time_to_maint;
  let available_funds := total_budget rec in
  let witness_pay := Z.min requested available_funds in
  available_funds ← share_sub available_funds witness_pay;
  worker_budget ← worker_budget_for st time_to_maint available_funds;
  available_funds ← share_sub available_funds worker_budget;
  '(leftover, st) ← pay_workers worker_budget st;
  available_funds ← share_add available_funds leftover;
  delta ← share_add witness_pay worker_budget;
  delta ← share_sub delta leftover;
  delta ← share_sub delta (from_accumulated_fees rec);
  delta ← share_sub delta (from_unused_witness_budget rec);
  d ← modify_dynamic_data core_asset_id
        (λ s, v ← share_add (current_supply s) delta; Ok (dd_with_fees (dd_with_supply s v) 0)) (mt_db st);
  core_dd ← get_dynamic_data d core_asset_id;
  let rec := BudgetRecord (time_since_last_budget rec) (from_initial_reserve rec) (from_accumulated_fees rec)
               (from_unused_witness_budget rec) requested (total_budget rec) witness_pay worker_budget leftover delta
               (rec_max_supply rec) (current_supply core_dd) in
  Ok (Maintenance d (set_witness_budget (mt_production st) witness_pay) now (worker_budget_per_day st)
        (next_available_vote_id st) (next_worker_id st) (workers st) (budget_records st ++ [(now, rec)])).

(** ** The books *)

(** Paying a worker brings its pay into the books: it is held by a vesting balance or the null account, or taken out of
    the supply.  The accumulated fees of the core asset are left alone, and the supply does not grow. *)
Definition supply_shrinks (d d' : database) : Prop :=
  ∀ s, dynamic_data d !! core_asset_id = Some s → ∃ s', dynamic_data d' !! core_asset_id = Some s' ∧
    accumulated_fees s' = accumulated_fees s ∧ current_supply s' ≤ current_supply s.

#[global] Instance supply_shrinks_preorder : PreOrder supply_shrinks.
Proof.
  split; [intros d s Hs; eauto with lia|]. intros d1 d2 d3 H12 H23 s Hs.
  destruct (H12 s Hs) as (s2 & Hs2 & ? & ?). destruct (H23 s2 Hs2) as (s3 & ? & ? & ?). exists s3. split_and!; [done|congruence|lia].
Qed.

Lemma pay_worker_pays t pay d t' d' :
  pay_worker t pay d = Ok (t', d') → 0 ≤ pay → moves d d' (amt core_asset_id pay) ∧ supply_shrinks d d' ∧
    assets d' = assets d ∧ head_block_time d' = head_block_time d.
Proof.
  intros E Hpay. destruct t as [tb|vb|tb]; simpl in E.
  - apply bind_Ok in E as (tb' & _ & E). apply bind_Ok in E as (d1 & Hd & [= <- <-]).
    pose proof Hd as (s & s' & Hs & Hm & Hmv)%modify_dynamic_data_moves.
    apply modify_dynamic_data_Ok in Hd as (s2 & s2' & Hs2 & Hm2 & ->). rewrite Hs in Hs2. injection Hs2 as <-.
    rewrite Hm in Hm2. injection Hm2 as <-. apply bind_Ok in Hm as (v & Hv & [= <-]). inv_share. subst v.
    split_and!; [|intros s0 Hs0|done|done].
    + eapply moves_ext; [done|]. intros a. unfold dd_delta, dd_held. simpl. amt_solve.
    + rewrite Hs in Hs0. injection Hs0 as <-. eexists. split; [apply lookup_insert_eq|]. simpl. lia.
  - apply bind_Ok in E as (tt & Ht & [= <- <-]). split_and!; [|by intros s Hs; exists s|done|done].
    eapply vesting_modify_moves; [done|]. intros v v' a. apply vb_deposit_held.
  - apply bind_Ok in E as (tb' & _ & E). apply bind_Ok in E as (d1 & Hd & [= <- <-]).
    pose proof Hd as [m ->]%adjust_balance_frame. apply adjust_balance_moves in Hd.
    split_and!; [done|by intros s Hs; exists s|done|done].
Qed.

Lemma pay_active_pays passed active budget d ws budget' d' ws' :
  pay_active passed active budget d ws = Ok (budget', d', ws') → 0 ≤ budget →
  0 ≤ budget' ≤ budget ∧ moves d d' (amt core_asset_id (budget - budget')) ∧ supply_shrinks d d' ∧ assets d' = assets d.
Proof.
  revert budget d ws. induction active as [|id active IH]; intros budget d ws E Hb; simpl in E.
  { injection E as <- <- <-. split_and!; [lia|lia| |done|done]. eapply moves_ext; [apply moves_refl|]. intros a. amt_solve. }
  destruct (Z.ltb_spec 0 budget).
  2: { injection E as <- <- <-. split_and!; [lia|lia| |done|done]. eapply moves_ext; [apply moves_refl|]. intros a. amt_solve. }
  apply bind_Ok in E as (w & _ & E). apply bind_Ok in E as (req & Hreq & E). apply bind_Ok in E as ([t d1] & Hp & E).
  apply bind_Ok in E as (b1 & Hb1 & E). inv_share. subst b1.
  assert (0 ≤ req) as Hr.
  { unfold requested_pay in Hreq. apply Safe.check_Ok in Hreq as [-> _]. apply Z.mod_pos_bound. lia. }
  apply pay_worker_pays in Hp as (Hm1 & Hs1 & Ha1 & _); [|lia].
  apply IH in E as (Hb' & Hm2 & Hs2 & Ha2); [|lia]. split_and!; [lia|lia| | |congruence].
  - eapply moves_ext; [exact (moves_trans _ _ _ _ _ Hm1 Hm2)|]. intros a. amt_solve.
  - by etrans.
Qed.

(** ** The rate of spending *)

(** The reserve in the sense of the budget: what may still be issued, the fees collected and the witness pay not spent. *)
Definition budget_reserve st (core : asset_object) (dd : asset_dynamic_data_object) : Z :=
  max_supply (ao_options core) - current_supply dd + accumulated_fees dd + witness_budget (mt_production st).

(** What is released is [17 / 2^32] of the reserve per second, rounded up, and never more than the reserve. *)
Definition released (reserve dt : Z) : Z :=
  Z.min reserve (div_up (reserve * dt * GRAPHENE_CORE_ASSET_CYCLE_RATE) (2 ^ GRAPHENE_CORE_ASSET_CYCLE_RATE_BITS)).

Lemma released_code reserve dt :
  0 ≤ reserve ≤ INT64_MAX → 0 ≤ dt < 2 ^ 32 →
  let budget := u128_mul (u128_mul (u128 reserve) (to_uint64 dt)) GRAPHENE_CORE_ASSET_CYCLE_RATE in
  let budget := Z.shiftr (u128_add budget (2 ^ GRAPHENE_CORE_ASSET_CYCLE_RATE_BITS - 1)) GRAPHENE_CORE_ASSET_CYCLE_RATE_BITS in
  (if budget <? u128 reserve then share_check (to_uint64 budget) else Ok reserve) = Ok (released reserve dt).
Proof.
  unfold INT64_MAX, GRAPHENE_CORE_ASSET_CYCLE_RATE, GRAPHENE_CORE_ASSET_CYCLE_RATE_BITS. intros Hr Hdt.
  assert (0 ≤ reserve * dt ≤ (2 ^ 63 - 1) * (2 ^ 32 - 1)) as Hp by nia. set (x := reserve * dt) in *.
  unfold u128_mul, u128_add. rewrite to_uint64_small by lia.
  rewrite (u128_small reserve) by (unfold UINT128_MOD; lia). fold x. rewrite (u128_small x) by (unfold UINT128_MOD; lia).
  rewrite (u128_small (x * 17)) by (unfold UINT128_MOD; lia). rewrite u128_small by (unfold UINT128_MOD; lia).
  rewrite Z.shiftr_div_pow2 by lia. unfold released, GRAPHENE_CORE_ASSET_CYCLE_RATE, GRAPHENE_CORE_ASSET_CYCLE_RATE_BITS, div_up.
  fold x. replace (x * 17 + (2 ^ 32 - 1)) with (x * 17 + 2 ^ 32 - 1) by lia. set (b := (x * 17 + 2 ^ 32 - 1) / 2 ^ 32).
  assert (0 ≤ b) by (apply Z.div_pos; lia). cbv zeta. destruct (Z.ltb_spec b reserve).
  - rewrite Z.min_r by lia. rewrite to_uint64_small by lia. apply share_check_ok. unfold is_share, INT64_MIN, INT64_MAX. lia.
  - by rewrite Z.min_l by lia.
Qed.

Lemma released_bounds reserve dt : 0 ≤ reserve → 0 ≤ dt → 0 ≤ released reserve dt ≤ reserve.
Proof.
  intros. unfold released.
  assert (0 ≤ div_up (reserve * dt * GRAPHENE_CORE_ASSET_CYCLE_RATE) (2 ^ GRAPHENE_CORE_ASSET_CYCLE_RATE_BITS)); [|lia].
  apply div_up_nonneg; [done|]. unfold GRAPHENE_CORE_ASSET_CYCLE_RATE. nia.
Qed.

(** The seconds that count: none before the first budget. *)
Definition budget_seconds (now last : Z) : Z := if (last =? 0) || (now <=? last) then 0 else now - last.

Lemma initialize_budget_record_Ok now st rec core dd :
  assets (mt_db st) !! core_asset_id = Some core → dynamic_data (mt_db st) !! core_asset_id = Some dd →
  is_time now → is_time (last_budget_time st) →
  current_supply dd ≤ max_supply (ao_options core) → 0 ≤ accumulated_fees dd → 0 ≤ witness_budget (mt_production st) →
  initialize_budget_record now st = Ok rec →
  from_accumulated_fees rec = accumulated_fees dd ∧ from_unused_witness_budget rec = witness_budget (mt_production st) ∧
  total_budget rec = released (budget_reserve st core dd) (budget_seconds now (last_budget_time st)).
Proof.
  intros Hcore Hdd Hnow Hlast Hmax Hfees Hwb E. unfold initialize_budget_record, get_asset, get_dynamic_data, find_object in E.
  rewrite Hcore, Hdd in E. cbn [mbind result_bind] in E. apply bind_Ok in E as (ir & Hir & E). inv_share. subst ir.
  unfold budget_seconds. destruct ((last_budget_time st =? 0) || (now <=? last_budget_time st)) eqn:Ec.
  { injection E as <-. simpl. split_and!; [done..|]. unfold released, budget_reserve. rewrite Z.mul_0_r, Z.mul_0_l.
    change (div_up 0 _) with 0. lia. }
  propify. apply bind_Ok in E as (r1 & Hr1 & E). apply bind_Ok in E as (r2 & Hr2 & E). inv_share. subst r1 r2.
  unfold is_time, time_point_sec_maximum in *.
  assert (is_share (budget_reserve st core dd)) as [_ Hbr] by done. unfold budget_reserve in Hbr.
  rewrite released_code in E by lia. injection E as <-. done.
Qed.

Lemma initialize_budget_record_sources now st rec :
  initialize_budget_record now st = Ok rec →
  ∃ core dd, assets (mt_db st) !! core_asset_id = Some core ∧ dynamic_data (mt_db st) !! core_asset_id = Some dd ∧
    from_accumulated_fees rec = accumulated_fees dd ∧ from_unused_witness_budget rec = witness_budget (mt_production st).
Proof.
  unfold initialize_budget_record, get_asset, get_dynamic_data, find_object. intros E.
  destruct (assets (mt_db st) !! core_asset_id) as [core|]; [|done].
  destruct (dynamic_data (mt_db st) !! core_asset_id) as [dd|]; [|done]. exists core, dd.
  cbn [mbind result_bind] in E. apply bind_Ok in E as (ir & _ & E). destruct (_ || _); [by injection E as <-|].
  apply bind_Ok in E as (r1 & _ & E). apply bind_Ok in E as (r2 & _ & E). apply bind_Ok in E as (t & _ & E). by injection E as <-.
Qed.

Lemma worker_budget_bounds st time funds b : worker_budget_for st time funds = Ok b → 0 ≤ funds → is_share funds → 0 ≤ b ≤ funds.
Proof.
  unfold worker_budget_for. intros E Hf [_ Hs]. set (w := u128_div _ _) in *.
  unfold INT64_MAX in *. rewrite u128_small in E by (unfold UINT128_MOD; lia).
  destruct (Z.leb_spec funds w); [injection E as <-; lia|].
  assert (0 ≤ w) by (apply Z.div_pos; [apply Z.mod_pos_bound; done|lia]).
  rewrite to_uint64_small in E by lia. apply Safe.check_Ok in E as [-> _]. lia.
Qed.

Lemma pay_workers_pays budget st budget' st' :
  pay_workers budget st = Ok (budget', st') → 0 ≤ budget →
  0 ≤ budget' ≤ budget ∧ moves (mt_db st) (mt_db st') (amt core_asset_id (budget - budget')) ∧
  supply_shrinks (mt_db st) (mt_db st') ∧ assets (mt_db st') = assets (mt_db st) ∧ ∃ d ws, st' = set_db_workers st d ws.
Proof.
  unfold pay_workers. intros E Hb. apply bind_Ok in E as ([[b d] ws] & Hp & [= <- <-]).
  apply pay_active_pays in Hp as (? & ? & ? & ?); [|done]. split_and!; try done; [lia|lia|by eexists _, _].
Qed.

(** One run of [process_budget], in figures. *)
Lemma process_budget_Ok st st' : process_budget st = Ok st' →
  ∃ rec core dd dd1 worker_budget leftover d1,
    initialize_budget_record (head_block_time (mt_db st)) st = Ok rec ∧
    assets (mt_db st) !! core_asset_id = Some core ∧ dynamic_data (mt_db st) !! core_asset_id = Some dd ∧
    dynamic_data d1 !! core_asset_id = Some dd1 ∧ accumulated_fees dd1 = accumulated_fees dd ∧ current_supply dd1 ≤ current_supply dd ∧
    0 ≤ leftover ≤ worker_budget ∧ moves (mt_db st) d1 (amt core_asset_id (worker_budget - leftover)) ∧
    witness_budget (mt_production st') ≤ total_budget rec ∧ worker_budget ≤ total_budget rec - witness_budget (mt_production st') ∧
    let delta := witness_budget (mt_production st') + worker_budget - leftover - accumulated_fees dd - witness_budget (mt_production st) in
    mt_db st' = set_dynamic_data (<[core_asset_id := dd_with_fees (dd_with_supply dd1 (current_supply dd1 + delta)) 0]> (dynamic_data d1)) d1 ∧
    ∃ r, budget_records st' = budget_records st ++ [(head_block_time (mt_db st), r)] ∧ total_budget r = total_budget rec ∧
      rec_witness_budget r = witness_budget (mt_production st') ∧ rec_worker_budget r = worker_budget ∧
      leftover_worker_funds r = leftover ∧ supply_delta r = delta ∧ from_accumulated_fees r = accumulated_fees dd.
Proof.
  unfold process_budget. intros E. apply bind_Ok in E as (rec & Hrec & E).
  pose proof (initialize_budget_record_sources _ _ _ Hrec) as (core & dd & Hcore & Hdd & Ef & Eu).
  apply bind_Ok in E as (req & _ & E). apply bind_Ok in E as (f1 & Hf1 & E). apply bind_Ok in E as (wb & Hwb & E).
  apply bind_Ok in E as (f2 & Hf2 & E). apply bind_Ok in E as ([lo st1] & Hpay & E). apply bind_Ok in E as (f3 & _ & E).
  apply bind_Ok in E as (e1 & He1 & E). apply bind_Ok in E as (e2 & He2 & E). apply bind_Ok in E as (e3 & He3 & E).
  apply bind_Ok in E as (e4 & He4 & E). apply bind_Ok in E as (d2 & Hd2 & E). apply bind_Ok in E as (cdd & _ & E).
  injection E as <-. inv_share. subst. apply worker_budget_bounds in Hwb as [? ?]; [|lia|done].
  apply pay_workers_pays in Hpay as (Hlo & Hmv & Hsh & Has & d & ws & ->); [|done]. simpl in *.
  destruct (Hsh dd Hdd) as (dd1 & Hdd1 & Hfees & Hsup).
  apply modify_dynamic_data_Ok in Hd2 as (s & s' & Hs & Hm & ->). rewrite Hdd1 in Hs. injection Hs as <-.
  apply bind_Ok in Hm as (v & Hv & [= <-]). inv_share. subst.
  exists rec, core, dd, dd1, wb, lo, d. simpl. rewrite Ef, Eu. split_and!; try done; [lia..|].
  eexists. split_and!; try done.
Qed.

(** C32: the budget keeps the books: everything a maintenance block pays to workers and sets aside for witnesses, and the fees it
    takes back, is matched by the change of the core asset's supply.  What all objects hold of each asset,
    less its supply, changes only by the change of the witness budget, which is the part of the core supply kept outside of them. *)
Theorem budget_keeps_books st st' :
  process_budget st = Ok st' →
  moves (mt_db st) (mt_db st') (amt core_asset_id (witness_budget (mt_production st) - witness_budget (mt_production st'))).
Proof.
  intros (rec & core & dd & dd1 & wb & lo & d1 & _ & _ & _ & Hdd1 & Hf & _ & _ & Hmv & _ & _ & -> & _)%process_budget_Ok.
  set (s' := dd_with_fees _ _).
  assert (modify_dynamic_data core_asset_id (λ _, Ok s') d1 = Ok (set_dynamic_data (<[core_asset_id := s']> (dynamic_data d1)) d1)) as Hm.
  { unfold modify_dynamic_data, get_dynamic_data, find_object. by rewrite Hdd1. }
  apply modify_dynamic_data_moves in Hm as (s & s2 & Hs & [= <-] & Hmv2). rewrite Hdd1 in Hs. injection Hs as <-.
  eapply moves_ext; [exact (moves_trans _ _ _ _ _ Hmv Hmv2)|]. intros a. unfold dd_delta, dd_held, s'. simpl. rewrite Hf. amt_solve.
Qed.

(** C33: spending stays within the reserve: starting with a supply of the core asset within its maximum, the budget leaves it within
    its maximum, and the witness budget and the worker budget together are at most what the rate of 17/2^32 of the reserve per
    second, rounded up, releases for the time since the last budget. *)
Theorem budget_within_reserve st st' core dd :
  assets (mt_db st) !! core_asset_id = Some core → dynamic_data (mt_db st) !! core_asset_id = Some dd →
  is_time (head_block_time (mt_db st)) → is_time (last_budget_time st) →
  current_supply dd ≤ max_supply (ao_options core) → 0 ≤ accumulated_fees dd → 0 ≤ witness_budget (mt_production st) →
  process_budget st = Ok st' →
  ∃ r dd', budget_records st' = budget_records st ++ [(head_block_time (mt_db st), r)] ∧
    dynamic_data (mt_db st') !! core_asset_id = Some dd' ∧ current_supply dd' ≤ max_supply (ao_options core) ∧
    rec_witness_budget r + rec_worker_budget r ≤
      released (budget_reserve st core dd) (budget_seconds (head_block_time (mt_db st)) (last_budget_time st)) ∧
    witness_budget (mt_production st') = rec_witness_budget r ∧ 0 ≤ leftover_worker_funds r ≤ rec_worker_budget r.
Proof.
  intros Hcore Hdd Hnow Hlast Hmax Hfees Hwb
    (rec & core' & dd0 & dd1 & wb & lo & d1 & Hrec & Hcore' & Hdd' & Hdd1 & Hf & Hs & Hlo & _ & Hle1 & Hle2 & Edb & r & Er & Et & Ew & Ewb & El & _)%process_budget_Ok.
  rewrite Hcore in Hcore'. injection Hcore' as <-. rewrite Hdd in Hdd'. injection Hdd' as <-.
  destruct (initialize_budget_record_Ok _ _ _ _ _ Hcore Hdd Hnow Hlast Hmax Hfees Hwb Hrec) as (_ & _ & Ht).
  assert (0 ≤ budget_seconds (head_block_time (mt_db st)) (last_budget_time st)) as Hbs.
  { unfold budget_seconds. destruct (_ || _) eqn:E; propify; lia. }
  pose proof (released_bounds (budget_reserve st core dd) _ ltac:(unfold budget_reserve; lia) Hbs) as Hrel. rewrite <- Ht in *.
  exists r. eexists. rewrite Edb. split_and!; [done|apply lookup_insert_eq| |lia|lia|lia|lia].
  simpl. unfold budget_reserve in Hrel. lia.
Qed.

(** ** A concrete run *)

(** Three workers, created by the operation, with votes 30, 20 and 10, one day after the last budget. *)
Definition sample_worker (pay : Z) (i : worker_initializer) : worker_create_operation :=
  WorkerCreateOperation (Asset 0 0) 100 (sample_time - 10) (sample_time + 100) pay "worker" "url" i.

Definition sample_maintenance : result maintenance :=
  let st := Maintenance sample_db sample_production (sample_time - 86400) 10000000000 0 0 ∅ [] in
  '(_, st) ← worker_create_apply (sample_worker 500 refund_worker_initializer) st;
  '(_, st) ← worker_create_apply (sample_worker 700 (vesting_balance_worker_initializer 2)) st;
  '(_, st) ← worker_create_apply (sample_worker 200000000000000 burn_worker_initializer) st;
  Ok (update_worker_votes (λ v, 30 - 5 * v) st).

Definition sample_start : maintenance :=
  match sample_maintenance with Ok st => st | Err _ => Maintenance sample_db sample_production 0 0 0 0 ∅ [] end.

Lemma budget_keeps_books_witness :
  ∃ st', process_budget sample_start = Ok st' ∧
    moves (mt_db sample_start) (mt_db st')
      (amt core_asset_id (witness_budget (mt_production sample_start) - witness_budget (mt_production st'))).
Proof. eexists. split; [vm_compute; reflexivity|]. apply budget_keeps_books. vm_compute. reflexivity. Defined.

Lemma budget_within_reserve_witness :
  ∃ st' r dd', process_budget sample_start = Ok st' ∧
    budget_records st' = budget_records sample_start ++ [(head_block_time (mt_db sample_start), r)] ∧
    dynamic_data (mt_db st') !! core_asset_id = Some dd' ∧ current_supply dd' ≤ GRAPHENE_MAX_SHARE_SUPPLY.
Proof.
  eexists.
  destruct (budget_within_reserve sample_start _ (AssetObject 3 sample_options None None) (AssetDynamicDataObject 1002000 0 0 0 0)
    ltac:(vm_compute; reflexivity) ltac:(vm_compute; reflexivity) ltac:(done) ltac:(done) ltac:(done) ltac:(done) ltac:(done)
    ltac:(vm_compute; reflexivity)) as (r & dd' & H1 & H2 & H3 & _).
  exists r, dd'. split_and!; [vm_compute; reflexivity|exact H1|exact H2|exact H3].
Defined.

(** What the comments of [budget_record] say of its members does not hold: the two sinks need not add up to the
    total budget, and with a refund worker the supply does not change by [supply_delta]. *)
Theorem budget_record_figures :
  match process_budget sample_start with
  | Ok st' =>
    match budget_records st', dynamic_data (mt_db st') !! core_asset_id with
    | [(_, r)], Some dd' =>
      rec_witness_budget r + rec_worker_budget r < total_budget r ∧ current_supply dd' - 1002000 = supply_delta r - 500
    | _, _ => False
    end
  | Err _ => False
  end.
Proof. vm_compute. done. Qed.
