(* ===== verification/Fees.v ===== *)
(** * Fees

    How operation fees are split when they are paid out at maintenance
    ([account_statistics_object::process_fees], libraries/chain/account_object.cpp) and how
    market fees are computed and shared (libraries/chain/db_market.cpp). *)
From S2P Require Import Prelude MachineInt Hardfork Asset Vesting ChainState Ledger Sample Balance.

(** ** Operation fees *)

Definition cut_fee (a : share_type) (p : Z) : result share_type :=
  if (a =? 0) || (p =? 0) then Ok 0
  else if p =? GRAPHENE_100_PERCENT then Ok a
  else share_check (to_uint64 (u128_div (u128_mul (u128 a) p) GRAPHENE_100_PERCENT)).

Definition stats_with_pending (s : account_statistics_object) (lifetime pending vested : share_type) :=
  AccountStatisticsObject (total_core_in_orders s) (total_core_inactive s) (total_core_pob s) (total_core_pol s)
    (total_pob_value s) (total_pol_value s) (has_cashback_vb s) lifetime pending vested.

(** [account_statistics_object::pay_fee]. *)
Definition stats_pay_fee (core_fee threshold : share_type) (s : account_statistics_object)
    : result account_statistics_object :=
  if threshold <? core_fee then
    p ← share_add (pending_fees s) core_fee;
    Ok (stats_with_pending s (lifetime_fees_paid s) p (pending_vested_fees s))
  else
    p ← share_add (pending_vested_fees s) core_fee;
    Ok (stats_with_pending s (lifetime_fees_paid s) (pending_fees s) p).

Definition acc_with_referrer (a : account_object) (r : account_id_type) : account_object :=
  AccountObject (membership_expiration_date a) (registrar a) r (lifetime_referrer a)
    (network_fee_percentage a) (lifetime_referrer_fee_percentage a)
    (referrer_rewards_percentage a) (whitelisting_accounts a) (blacklisting_accounts a)
    (cashback_vb a) (allowed_assets a) (acc_owner a) (acc_active a).

(** How a fee is divided between network, lifetime referrer, referrer and registrar. *)
Record fee_split := FeeSplit {
  network_cut : share_type; lifetime_cut : share_type;
  referrer_cut : share_type; registrar_cut : share_type }.

Definition split_fee (account : account_object) (core_fee_total : share_type) : result fee_split :=
  network ← cut_fee core_fee_total (network_fee_percentage account);
  lifetime ← cut_fee core_fee_total (lifetime_referrer_fee_percentage account);
  rest ← share_sub core_fee_total network;
  referral ← share_sub rest lifetime;
  referrer ← cut_fee referral (referrer_rewards_percentage account);
  registrar ← share_sub referral referrer;
  Ok (FeeSplit network lifetime referrer registrar).

(** The lambda [pay_out_fees] of [process_fees]. *)
Definition pay_out_fees (id : account_id_type) (core_fee_total : share_type)
    (require_vesting : bool) (d : database) : result database :=
  account ← get_account d id;
  ref ← get_account d (referrer account);
  d ← (if is_basic_account ref (head_block_time d) then
         modify_account id (λ acc, Ok (acc_with_referrer acc (lifetime_referrer acc))) d
       else Ok d);
  account ← get_account d id;
  cut ← split_fee account core_fee_total;
  d ← modify_dynamic_data core_asset_id (λ s,
        v ← share_add (accumulated_fees s) (network_cut cut); Ok (dd_with_fees s v)) d;
  get_account d (lifetime_referrer account);;
  d ← deposit_cashback (lifetime_referrer account) (lifetime_cut cut) require_vesting d;
  get_account d (referrer account);;
  d ← deposit_cashback (referrer account) (referrer_cut cut) require_vesting d;
  get_account d (registrar account);;
  deposit_cashback (registrar account) (registrar_cut cut) require_vesting d.

Definition process_fees (id : account_id_type) (d : database) : result database :=
  s ← get_statistics d id;
  if (0 <? pending_fees s) || (0 <? pending_vested_fees s) then
    d ← pay_out_fees id (pending_fees s) true d;
    s ← get_statistics d id;
    d ← pay_out_fees id (pending_vested_fees s) false d;
    modify_statistics id (λ s,
      total ← share_add (pending_fees s) (pending_vested_fees s);
      paid ← share_add (lifetime_fees_paid s) total;
      Ok (stats_with_pending s paid 0 0)) d
  else Ok d.

(** ** Market fees *)

Definition calculate_percent (value : share_type) (percent : Z) : result share_type :=
  let a := u128_div (u128_mul (u128 value) percent) GRAPHENE_100_PERCENT in
  FC_ASSERT (a <=? GRAPHENE_MAX_SHARE_SUPPLY) "overflow when calculating percent";;
  Ok (to_int64 a).

Definition calculate_market_fee (trade_asset : asset_id_type) (obj : asset_object)
    (trade_amount : asset) (is_maker : bool) : result asset :=
  let opts := ao_options obj in
  let taker := taker_fee_percent (extensions opts) in
  if negb (charges_market_fees obj) then Ok (Asset 0 trade_asset)
  else if is_maker && (market_fee_percent opts =? 0) then Ok (Asset 0 trade_asset)
  else if negb is_maker && bool_decide (taker = Some 0) then Ok (Asset 0 trade_asset)
  else
    let fee_percent :=
      if is_maker then market_fee_percent opts
      else default (market_fee_percent opts) taker in
    value ← calculate_percent (amount trade_amount) fee_percent;
    Ok (Asset (if max_market_fee opts <? value then max_market_fee opts else value) trade_asset).

(** The share of the network: the committee's vesting balance. *)
Definition pay_network_share (recv_asset : asset_id_type) (issuer_fees : asset) (d : database)
    : result (database * asset) :=
  if 0 <? amount issuer_fees then
    let network_percent := get_market_fee_network_percent (parameters d) in
    if 0 <? network_percent then
      network_fees_amt ← calculate_percent (amount issuer_fees) network_percent;
      FC_ASSERT (network_fees_amt <=? amount issuer_fees)
        "Fee shared to the network shouldn't be greater than total market fee";;
      if 0 <? network_fees_amt then
        let network_fees := Asset network_fees_amt recv_asset in
        d ← deposit_market_fee_vesting_balance GRAPHENE_COMMITTEE_ACCOUNT network_fees d;
        issuer_fees ← asset_sub issuer_fees network_fees;
        Ok (d, issuer_fees)
      else Ok (d, issuer_fees)
    else Ok (d, issuer_fees)
  else Ok (d, issuer_fees).

Definition is_rewards_allowed (obj : asset_object) (seller : account_object) : bool :=
  match whitelist_market_fee_sharing (extensions (ao_options obj)) with
  | None => true
  | Some white_list => bool_decide (white_list = ∅) || bool_decide (registrar seller ∈ white_list)
  end.

(** The redirection of hard fork core-1800. *)
Definition reward_receiver (d : database) (id : account_id_type) : account_id_type :=
  if (HARDFORK_CORE_1800_TIME <=? head_block_time d) && (id =? GRAPHENE_TEMP_ACCOUNT)
  then GRAPHENE_COMMITTEE_ACCOUNT else id.

(** Pay a reward to the seller's referrer and registrar. *)
Definition pay_reward (recv_asset : asset_id_type) (obj : asset_object) (seller : account_object)
    (reward : asset) (d : database) : result database :=
  let reg := reward_receiver d (registrar seller) in
  let ref := reward_receiver d (referrer seller) in
  '(d, registrar_reward) ←
    (if negb (ref =? reg) then
       v ← calculate_percent (amount reward) (referrer_rewards_percentage seller);
       if 0 <? v then
         ref_obj ← get_account d ref;
         if is_authorized_asset d ref ref_obj recv_asset obj then
           FC_ASSERT (v <=? amount reward) "Referrer reward shouldn't be greater than total reward";;
           let referrer_reward := Asset v recv_asset in
           registrar_reward ← asset_sub reward referrer_reward;
           d ← deposit_market_fee_vesting_balance ref referrer_reward d;
           Ok (d, registrar_reward)
         else Ok (d, reward)
       else Ok (d, reward)
     else Ok (d, reward));
  if 0 <? amount registrar_reward then
    deposit_market_fee_vesting_balance reg registrar_reward d
  else Ok d.

(** The reward part of [pay_market_fees]: the amount shared, after paying it. *)
Definition pay_rewards (seller : option account_id_type) (recv_asset : asset_id_type)
    (obj : asset_object) (issuer_fees : asset) (d : database) : result (database * asset) :=
  let zero := Asset 0 recv_asset in
  match seller with
  | None => Ok (d, zero)
  | Some sid =>
    seller ← get_account d sid;
    if is_rewards_allowed obj seller then
      match reward_percent (extensions (ao_options obj)) with
      | Some percent =>
        if 0 <? percent then
          reward_value ← calculate_percent (amount issuer_fees) percent;
          if 0 <? reward_value then
            reg_obj ← get_account d (registrar seller);
            if is_authorized_asset d (registrar seller) reg_obj recv_asset obj then
              let reward := Asset reward_value recv_asset in
              (if head_block_time d <? HARDFORK_1774_TIME then
                 c ← asset_lt reward issuer_fees;
                 FC_ASSERT c "Market reward should be less than issuer fees"
               else
                 c ← asset_le reward issuer_fees;
                 FC_ASSERT c "Market reward should not be greater than issuer fees");;
              d ← pay_reward recv_asset obj seller reward d;
              Ok (d, reward)
            else Ok (d, zero)
          else Ok (d, zero)
        else Ok (d, zero)
      | None => Ok (d, zero)
      end
    else Ok (d, zero)
  end.

Definition pay_market_fees (seller : option account_id_type) (recv_asset : asset_id_type)
    (receives : asset) (is_maker : bool) (calculated_market_fees : option asset) (d : database)
    : result (database * asset) :=
  obj ← get_asset d recv_asset;
  market_fees ← match calculated_market_fees with
                | Some f => Ok f
                | None => calculate_market_fee recv_asset obj receives is_maker
                end;
  ok ← asset_le market_fees receives;
  FC_ASSERT ok "Market fee shouldn't be greater than receives";;
  '(d, issuer_fees) ← pay_network_share recv_asset market_fees d;
  d ← (if 0 <? amount issuer_fees then
         '(d, reward) ← pay_rewards seller recv_asset obj issuer_fees d;
         if amount reward <? amount issuer_fees then
           modify_dynamic_data recv_asset (λ s,
             rest ← share_sub (amount issuer_fees) (amount reward);
             v ← share_add (accumulated_fees s) rest; Ok (dd_with_fees s v)) d
         else Ok d
       else Ok d);
  Ok (d, market_fees).

(** [required_fee] of a SameT fund or a credit deal for repaying [x] at [fee_rate], rounded up
    in 128-bit arithmetic. *)
Definition fee_rate_charge (x : share_type) (fee_rate : Z) : Z :=
  u128_div (u128_sub (u128_add (u128_mul (u128 x) fee_rate) GRAPHENE_FEE_RATE_DENOM) 1)
    GRAPHENE_FEE_RATE_DENOM.

(** ** Effects on the books *)

Lemma split_fee_Ok account total cut :
  split_fee account total = Ok cut →
  network_cut cut + lifetime_cut cut + referrer_cut cut + registrar_cut cut = total.
Proof. unfold split_fee. intros. inv_ok. inv_share. subst. simpl. lia. Qed.

(** The pending fees recorded for an account. *)
Definition pending_of (d : database) (id : account_id_type) : option (share_type * share_type) :=
  (λ s, (pending_fees s, pending_vested_fees s)) <$> statistics d !! id.

Lemma deposit_lazy_vesting_frame ovbid x secs ty owner req d d' o :
  deposit_lazy_vesting ovbid x secs ty owner req d = Ok (d', o) →
  statistics d' = statistics d ∧ accounts d' = accounts d.
Proof. unfold deposit_lazy_vesting. intros. inv_ok; done. Qed.

Lemma deposit_cashback_pending acct x req d d' id :
  deposit_cashback acct x req d = Ok d' → pending_of d' id = pending_of d id.
Proof.
  unfold deposit_cashback. intros H. destruct (x =? 0); [by injection H as ->|].
  destruct (is_reserved_account acct).
  - by apply modify_dynamic_data_Ok in H as (s & s' & _ & _ & ->).
  - apply bind_Ok in H as (u & _ & H). apply bind_Ok in H as ([d1 o] & H1 & H).
    apply deposit_lazy_vesting_frame in H1 as [E _].
    destruct o as [vb|]; [|injection H as <-; unfold pending_of; by rewrite E].
    apply bind_Ok in H as (d2 & (? & ? & _ & _ & ->)%modify_account_Ok & H).
    apply modify_statistics_Ok in H as (s & s' & Hs & Hm & ->). injection Hm as <-.
    unfold pending_of; simpl in *. rewrite <- E.
    destruct (decide (acct = id)) as [->|]; simplify_map_eq; done.
Qed.

Lemma pay_out_fees_moves id total req d d' :
  pay_out_fees id total req d = Ok d' →
  moves d d' (amt core_asset_id total) ∧ ∀ i, pending_of d' i = pending_of d i.
Proof.
  unfold pay_out_fees. intros H.
  apply bind_Ok in H as (acc & _ & H). apply bind_Ok in H as (ref & _ & H).
  apply bind_Ok in H as (d1 & H1 & H). apply bind_Ok in H as (acc1 & _ & H).
  apply bind_Ok in H as (cut & Hcut%split_fee_Ok & H). apply bind_Ok in H as (d2 & H2 & H).
  apply bind_Ok in H as (? & _ & H). apply bind_Ok in H as (d3 & H3 & H).
  apply bind_Ok in H as (? & _ & H). apply bind_Ok in H as (d4 & H4 & H).
  apply bind_Ok in H as (? & _ & H5).
  assert (conserves d d1 ∧ ∀ i, pending_of d1 i = pending_of d i) as [M1 P1].
  { destruct (is_basic_account ref (head_block_time d)); [|by injection H1 as <-].
    split; [by eapply modify_account_moves|].
    by apply modify_account_Ok in H1 as (? & ? & _ & _ & ->). }
  assert (∀ i, pending_of d2 i = pending_of d1 i) as P2
    by (by apply modify_dynamic_data_Ok in H2 as (? & ? & _ & _ & ->)).
  clear H1. split.
  - apply modify_dynamic_data_moves in H2 as (s & s' & _ & Hs & M2). inv_ok. inv_share. subst.
    apply deposit_cashback_moves in H3, H4, H5.
    eapply moves_ext; [do 4 (eapply moves_trans; [|done]); exact M1|].
    intros a. unfold dd_delta, dd_held; simpl. amt_solve.
  - intros i. rewrite (deposit_cashback_pending _ _ _ _ _ _ H5),
      (deposit_cashback_pending _ _ _ _ _ _ H4), (deposit_cashback_pending _ _ _ _ _ _ H3),
      P2, P1. done.
Qed.

Lemma pending_of_Some d id s :
  statistics d !! id = Some s → pending_of d id = Some (pending_fees s, pending_vested_fees s).
Proof. intros E. unfold pending_of. by rewrite E. Qed.

(** Paying out the pending fees of an account neither creates nor destroys core.  What
    the network, the lifetime referrer, the referrer and the registrar receive (as accumulated
    fees or cashback, or burnt for the blockchain's own accounts) is exactly what was pending,
    the pending counters are reset, and no balance becomes negative. *)
Theorem process_fees_conserves id d d' :
  process_fees id d = Ok d' →
  conserves d d' ∧
  ∀ s, statistics d' !! id = Some s → pending_fees s ≤ 0 ∧ pending_vested_fees s ≤ 0.
Proof.
  unfold process_fees. intros H. apply bind_Ok in H as (s & Hs%find_object_Ok & H).
  destruct ((0 <? pending_fees s) || (0 <? pending_vested_fees s)) eqn:E; propify.
  2:{ injection H as <-. split; [reflexivity|]. intros s' Hs'. simplify_eq. lia. }
  apply bind_Ok in H as (d1 & [M1 P1]%pay_out_fees_moves & H).
  apply bind_Ok in H as (s1 & Hs1%find_object_Ok & H).
  apply bind_Ok in H as (d2 & [M2 P2]%pay_out_fees_moves & H).
  pose proof (P1 id) as Q1. rewrite (pending_of_Some _ _ _ Hs1), (pending_of_Some _ _ _ Hs) in Q1.
  pose proof (P2 id) as Q2. rewrite (pending_of_Some _ _ _ Hs1) in Q2.
  split.
  - apply modify_statistics_moves in H as (s2 & s2' & Hs2 & Hm & M3). inv_ok. inv_share. subst.
    rewrite (pending_of_Some _ _ _ Hs2) in Q2. simplify_eq/=.
    eapply moves_ext; [eapply moves_trans; [eapply moves_trans; [exact M1|exact M2]|exact M3]|].
    intros a. simpl. amt_solve.
  - apply modify_statistics_Ok in H as (s2 & s2' & _ & Hm & ->). inv_ok. simpl.
    intros s' Hs'. rewrite lookup_insert_eq in Hs'. simplify_eq/=. lia.
Qed.

(** *** Market fees *)

Lemma calculate_percent_Ok v p x :
  is_share v → 0 ≤ v → 0 ≤ p < 2 ^ 16 → calculate_percent v p = Ok x →
  x = v * p / GRAPHENE_100_PERCENT ∧ 0 ≤ x ≤ GRAPHENE_MAX_SHARE_SUPPLY.
Proof.
  unfold calculate_percent. intros Hs Hv Hp H. inv_ok. propify.
  rewrite u128_share in * by done. unfold u128_mul, u128_div in *.
  unfold is_share, INT64_MIN, INT64_MAX in Hs.
  rewrite u128_small in * by (unfold UINT128_MOD; nia).
  assert (0 ≤ v * p / GRAPHENE_100_PERCENT) by (apply Z.div_pos; [nia|done]).
  rewrite to_int64_small; [lia|]. apply max_supply_is_share. lia.
Qed.

(** A market fee is between zero and the traded amount, whenever the asset's fee
    percentages are at most 100% as the protocol requires. *)
Lemma calculate_market_fee_bounds i obj x maker fee :
  is_share (amount x) → 0 ≤ amount x →
  0 ≤ market_fee_percent (ao_options obj) ≤ GRAPHENE_100_PERCENT →
  (∀ p, taker_fee_percent (extensions (ao_options obj)) = Some p → 0 ≤ p ≤ GRAPHENE_100_PERCENT) →
  0 ≤ max_market_fee (ao_options obj) →
  calculate_market_fee i obj x maker = Ok fee →
  asset_id fee = i ∧ 0 ≤ amount fee ≤ amount x ∧ amount fee ≤ Z.max 0 (max_market_fee (ao_options obj)).
Proof.
  intros Hs Hx Hm Ht Hmax. unfold calculate_market_fee.
  set (percent := if maker then _ else _). intros H.
  assert (0 ≤ percent ≤ GRAPHENE_100_PERCENT) as Hp.
  { unfold percent. destruct maker; [done|].
    destruct (taker_fee_percent (extensions (ao_options obj))) as [p|] eqn:E; simpl; auto. }
  clearbody percent. unfold GRAPHENE_100_PERCENT in Hp. repeat case_match; inv_ok; simpl;
    try (split_and!; done || lia); simplify_eq;
    match goal with Hc : calculate_percent _ _ = Ok _ |- _ =>
      apply calculate_percent_Ok in Hc as [-> ?]; [|done|done|lia] end.
  assert (amount x * percent / GRAPHENE_100_PERCENT ≤ amount x)
    by (apply Z.div_le_upper_bound; unfold GRAPHENE_100_PERCENT; nia).
  split; [done|]. case_match; propify; lia.
Qed.

Lemma calculate_percent_nonneg v p x : calculate_percent v p = Ok x → 0 ≤ x.
Proof.
  unfold calculate_percent. intros H. inv_ok. propify.
  pose proof (u128_range (u128 v * p)).
  assert (0 ≤ u128_div (u128_mul (u128 v) p) GRAPHENE_100_PERCENT)
    by (apply Z.div_pos; [apply u128_range|done]).
  rewrite to_int64_small; [done|]. apply max_supply_is_share. lia.
Qed.

Lemma pay_network_share_moves i x d d' y :
  pay_network_share i x d = Ok (d', y) →
  moves d d' (amt i (amount x - amount y)) ∧ amount y ≤ amount x ∧ (0 ≤ amount x → 0 ≤ amount y) ∧
  ∃ t, d' = set_vesting_balances t d.
Proof.
  assert (Hid : ∀ e, moves e e (amt i (amount x - amount x)) ∧ amount x ≤ amount x ∧
    (0 ≤ amount x → 0 ≤ amount x) ∧ ∃ t, e = set_vesting_balances t e).
  { intros e. split_and!; [|lia|done|by exists (vesting_balances e); destruct e].
    eapply moves_ext; [apply moves_refl|]. intros a. amt_solve. }
  unfold pay_network_share. intros H. inv_ok; propify; try apply Hid.
  match goal with Hd : deposit_market_fee_vesting_balance _ _ _ = _ |- _ =>
    apply deposit_market_fee_vesting_balance_moves in Hd as (M & ? & ?) end.
  inv_asset. split_and!; [|lia|lia|done].
  eapply moves_ext; [exact M|]. intros a. simpl. amt_solve.
Qed.

Lemma pay_reward_moves i obj seller reward d d' :
  0 ≤ amount reward → pay_reward i obj seller reward d = Ok d' →
  asset_id reward = i →
  moves d d' (amt i (amount reward)) ∧ ∃ t, d' = set_vesting_balances t d.
Proof.
  intros Hpos H Hi. unfold pay_reward in H. apply bind_Ok in H as ([d1 rr] & H1 & H).
  assert (moves d d1 (amt i (amount reward - amount rr)) ∧ 0 ≤ amount rr ∧ asset_id rr = i ∧
          ∃ t, d1 = set_vesting_balances t d) as (M1 & Hrr & Hri & t & ->).
  { clear H. assert (Hid : moves d d (amt i (amount reward - amount reward)) ∧ 0 ≤ amount reward ∧
      asset_id reward = i ∧ ∃ t, d = set_vesting_balances t d).
    { split_and!; [|lia|done|by exists (vesting_balances d); destruct d].
      eapply moves_ext; [apply moves_refl|]. intros a. amt_solve. }
    inv_ok; try apply Hid. propify.
    match goal with Hd : deposit_market_fee_vesting_balance _ _ _ = _ |- _ =>
      apply deposit_market_fee_vesting_balance_moves in Hd as (M & ? & ?) end.
    inv_asset. split_and!; [|lia|done|done].
    eapply moves_ext; [exact M|]. intros a. simpl. amt_solve. }
  destruct (Z.ltb_spec 0 (amount rr)).
  - apply deposit_market_fee_vesting_balance_moves in H as (M & _ & t' & ->).
    split; [|by eexists]. eapply moves_ext; [eapply moves_trans; [exact M1|exact M]|].
    intros a. simpl. rewrite Hri. amt_solve.
  - injection H as <-. split; [|by eexists].
    eapply moves_ext; [exact M1|]. intros a. amt_solve.
Qed.

Lemma pay_rewards_moves seller i obj x d d' reward :
  pay_rewards seller i obj x d = Ok (d', reward) → 0 < amount x →
  moves d d' (amt i (amount reward)) ∧ 0 ≤ amount reward ≤ amount x ∧
  ∃ t, d' = set_vesting_balances t d.
Proof.
  intros H Hx. assert (Hid : moves d d (amt i 0) ∧ 0 ≤ 0 ≤ amount x ∧
    ∃ t, d = set_vesting_balances t d).
  { split_and!; [|lia|lia|by exists (vesting_balances d); destruct d].
    eapply moves_ext; [apply moves_refl|]. intros a. amt_solve. }
  unfold pay_rewards in H. inv_ok; try apply Hid; propify;
    (match goal with Hp : pay_reward _ _ _ _ _ = _ |- _ =>
      apply pay_reward_moves in Hp as [M Ht]; [|simpl; lia|done] end);
    inv_asset; propify; (split_and!; [exact M|lia|lia|exact Ht]).
Qed.

(** What is charged as a market fee is what the receivers get: the committee's share, the
    referral rewards and the issuer's accumulated fees. *)
Lemma pay_market_fees_moves seller i receives maker calc d d' fee :
  pay_market_fees seller i receives maker calc d = Ok (d', fee) → 0 ≤ amount fee →
  (∀ f, calc = Some f → fee = f) ∧
  asset_id fee = asset_id receives ∧ amount fee ≤ amount receives ∧
  moves d d' (amt i (amount fee)) ∧
  ∃ t m, d' = set_dynamic_data m (set_vesting_balances t d).
Proof.
  unfold pay_market_fees. intros H Hfee. apply bind_Ok in H as (obj & _ & H).
  apply bind_Ok in H as (mf & Hmf & H). apply bind_Ok in H as (ok & Hle & H).
  apply bind_Ok in H as ([] & Hok & H). apply bind_Ok in H as ([d1 y] & H1 & H).
  apply bind_Ok in H as (d2 & H2 & H). injection H as <- <-.
  apply FC_ASSERT_Ok in Hok. inv_asset. propify.
  apply pay_network_share_moves in H1 as (M1 & Hy & Hy0 & t1 & ->).
  split; [by intros f ->; injection Hmf as <-|]. clear Hmf. split_and!; [done|done|..].
  - destruct (Z.ltb_spec 0 (amount y)).
    + apply bind_Ok in H2 as ([d3 rw] & (M3 & Hrw & t3 & ->)%pay_rewards_moves & H2); [|done].
      destruct (Z.ltb_spec (amount rw) (amount y)).
      * apply modify_dynamic_data_moves in H2 as (s & s' & _ & Hs & M4). inv_ok. inv_share. subst.
        eapply moves_ext; [eapply moves_trans; [eapply moves_trans; [exact M1|exact M3]|exact M4]|].
        intros a. unfold dd_delta, dd_held; simpl. amt_solve.
      * injection H2 as <-. eapply moves_ext; [eapply moves_trans; [exact M1|exact M3]|].
        intros a. simpl. amt_solve.
    + injection H2 as <-. eapply moves_ext; [exact M1|]. intros a. amt_solve.
  - destruct (0 <? amount y) eqn:Ey; propify.
    + apply bind_Ok in H2 as ([d3 rw] & (_ & _ & t3 & ->)%pay_rewards_moves & H2); [|done].
      destruct (amount rw <? amount y).
      * apply modify_dynamic_data_Ok in H2 as (s & s' & _ & _ & ->). by eexists t3, _.
      * injection H2 as <-. by exists t3, (dynamic_data d); destruct d.
    + injection H2 as <-. by exists t1, (dynamic_data d); destruct d.
Qed.

(** Market fees are bounded and fully distributed.  With fee percentages of at most 100%,
    as the protocol requires, the fee charged on an amount received is between zero and the
    amount and at most the asset's [max_market_fee]; and what the committee's vesting balance,
    the referral rewards and the issuer's accumulated fees gain together is exactly the fee. *)
Theorem market_fees_distributed seller i receives maker d d' fee obj :
  assets d !! i = Some obj → is_share (amount receives) → 0 ≤ amount receives →
  0 ≤ market_fee_percent (ao_options obj) ≤ GRAPHENE_100_PERCENT →
  (∀ p, taker_fee_percent (extensions (ao_options obj)) = Some p → 0 ≤ p ≤ GRAPHENE_100_PERCENT) →
  0 ≤ max_market_fee (ao_options obj) →
  pay_market_fees seller i receives maker None d = Ok (d', fee) →
  asset_id fee = i ∧ 0 ≤ amount fee ≤ amount receives ∧
  amount fee ≤ max_market_fee (ao_options obj) ∧ moves d d' (amt i (amount fee)).
Proof.
  intros Ho Hs Hx Hm Ht Hmax H.
  assert (calculate_market_fee i obj receives maker = Ok fee) as Hc.
  { unfold pay_market_fees, get_asset, find_object in H. rewrite Ho in H. simpl in H. inv_ok; done. }
  apply calculate_market_fee_bounds in Hc as (Hi & Hb & Hb2); [|done..].
  apply pay_market_fees_moves in H as (_ & _ & _ & M & _); [|lia].
  split_and!; [done|lia|lia|lia|done].
Qed.

(** The code's 128-bit computation does not overflow: it is the exact fee rounded up. *)
Lemma fee_rate_charge_spec x rate :
  is_share x → 0 ≤ x → 0 ≤ rate < 2 ^ 32 →
  fee_rate_charge x rate = div_up (x * rate) GRAPHENE_FEE_RATE_DENOM.
Proof.
  unfold fee_rate_charge, GRAPHENE_FEE_RATE_DENOM, is_share, INT64_MAX. intros.
  rewrite (u128_share x) by (unfold is_share, INT64_MAX; lia || done).
  unfold u128_mul. rewrite u128_small by (unfold UINT128_MOD; nia).
  apply u128_div_up_small; unfold UINT128_MOD; nia.
Qed.

(** ** Concrete runs *)
Definition sample_pending_db : database :=
  set_statistics (<[101 := stats_with_pending sample_stats 0 1000 77]> (statistics sample_db)) sample_db.

Lemma process_fees_conserves_witness : ∃ d', process_fees 101 sample_pending_db = Ok d' ∧
  conserves sample_pending_db d' ∧ pending_of d' 101 = Some (0, 0).
Proof.
  eexists. split; [vm_compute; reflexivity|]. split; [|vm_compute; reflexivity].
  apply (process_fees_conserves 101 sample_pending_db). vm_compute. reflexivity.
Defined.

Lemma market_fees_distributed_witness : ∃ d',
  pay_market_fees (Some 101) 1 (Asset 2000 1) true None sample_db = Ok (d', Asset 20 1) ∧
  moves sample_db d' (amt 1 20).
Proof.
  eexists. split; [vm_compute; reflexivity|].
  edestruct (market_fees_distributed (Some 101) 1 (Asset 2000 1) true sample_db)
    as (_ & _ & _ & M); [vm_compute; reflexivity|by vm_compute|by vm_compute|by vm_compute
    |discriminate|by vm_compute|vm_compute; reflexivity|exact M].
Defined.
