(* ===== verification/Evaluator.v ===== *)
(** * Operation evaluation

    The evaluation scheme shared by all operations: libraries/chain/evaluator.cpp and
    include/graphene/chain/evaluator.hpp.  [Evaluator] is the interface a concrete evaluator
    (a subclass of [evaluator<DerivedEvaluator>]) implements together with its operation's
    [validate()]; [EvaluatorLaws] is what the scheme needs from it so that the whole
    evaluation, fees included, conserves every asset.

    Concrete evaluators keep what [do_evaluate] computed in data members that [do_apply]
    reads; here that is the [eval_ctx] passed from one to the other.  The fee schedule is a
    parameter: [required_fee] is the fee it asks for. *)
From S2P Require Import Prelude MachineInt Hardfork Asset Vesting ChainState Ledger CreditBooks Balance Fees.

(** ** Results *)

Inductive object_kind :=
  | kind_asset | kind_limit_order | kind_liquidity_pool | kind_samet_fund | kind_credit_offer | kind_credit_deal
  | kind_htlc | kind_proposal | kind_ticket | kind_vesting_balance | kind_withdraw_permission
  | kind_call_order | kind_force_settlement.

Notation object_ref := (object_kind * Z)%type (only parsing).

Record extendable_operation_result_dtl := ExtendableResult {
  er_impacted_accounts : option (list account_id_type);
  er_new_objects : option (list object_ref);
  er_updated_objects : option (list object_ref);
  er_removed_objects : option (list object_ref);
  er_paid : option (list asset);
  er_received : option (list asset);
  er_fees : option (list asset) }.

Inductive operation_result :=
  | void_result
  | object_id_result (id : object_ref)
  | asset_result (a : asset)
  | generic_operation_result (new_objects updated_objects removed_objects : list object_ref)
  | generic_exchange_operation_result (paid received fees : list asset)
  | extendable_operation_result (r : extendable_operation_result_dtl).

(** ** The interface of a concrete evaluator *)
Class Evaluator (Op : Type) := {
  eval_ctx : Type;
  op_fee : Op → asset;
  fee_payer : Op → account_id_type;
  validate : Op → result unit;
  do_evaluate : Op → database → result eval_ctx;
  do_apply : Op → eval_ctx → database → result (database * operation_result) }.

(** ** Fees *)

(** [generic_evaluator::prepare_fee]; the result is [core_fee_paid]. *)
Definition prepare_fee (account_id : account_id_type) (fee : asset) (d : database)
    : result share_type :=
  FC_ASSERT (0 <=? amount fee) "fee.amount >= 0";;
  fee_paying_account ← get_account d account_id;
  get_statistics d account_id;;
  fee_asset ← get_asset d (asset_id fee);
  fee_asset_dyn_data ← get_dynamic_data d (asset_id fee);
  FC_ASSERT (is_authorized_asset d account_id fee_paying_account (asset_id fee) fee_asset)
    "unauthorized due to whitelist / blacklist";;
  if asset_id fee =? core_asset_id then Ok (amount fee)
  else
    fee_from_pool ← asset_mul_price fee (core_exchange_rate (ao_options fee_asset));
    FC_ASSERT (asset_id fee_from_pool =? core_asset_id) "fee_from_pool.asset_id == asset_id_type()";;
    FC_ASSERT (amount fee_from_pool <=? fee_pool fee_asset_dyn_data) "Fee pool balance too low";;
    Ok (amount fee_from_pool).

Definition convert_fee (fee : asset) (core_fee_paid : share_type) (d : database)
    : result database :=
  if asset_id fee =? core_asset_id then Ok d
  else modify_dynamic_data (asset_id fee) (λ s,
    f ← share_add (accumulated_fees s) (amount fee);
    p ← share_sub (fee_pool s) core_fee_paid;
    Ok (dd_with_fee_pool (dd_with_fees s f) p)) d.

Definition pay_fee (payer : account_id_type) (core_fee_paid : share_type) (d : database)
    : result database :=
  modify_statistics payer
    (stats_pay_fee core_fee_paid (cashback_vesting_threshold (parameters d))) d.

(** ** Evaluation *)
Section evaluation.
Context `{Evaluator Op}.
Variable required_fee : Op → share_type.

Definition evaluate (skip_fee_schedule_check : bool) (op : Op) (d : database)
    : result (share_type * eval_ctx) :=
  core_fee_paid ← prepare_fee (fee_payer op) (op_fee op) d;
  (if skip_fee_schedule_check then Ok ()
   else GRAPHENE_ASSERT (required_fee op <=? core_fee_paid) "insufficient_fee");;
  ctx ← do_evaluate op d;
  Ok (core_fee_paid, ctx).

Definition apply (op : Op) (core_fee_paid : share_type) (ctx : eval_ctx) (d : database)
    : result (database * operation_result) :=
  d ← convert_fee (op_fee op) core_fee_paid d;
  d ← pay_fee (fee_payer op) core_fee_paid d;
  '(d, result) ← do_apply op ctx d;
  neg ← asset_neg (op_fee op);
  d ← adjust_balance (fee_payer op) neg d;
  Ok (d, result).

(** [generic_evaluator::start_evaluate] with [apply] set. *)
Definition start_evaluate (skip_fee_schedule_check : bool) (op : Op) (d : database)
    : result (database * operation_result) :=
  '(core_fee_paid, ctx) ← evaluate skip_fee_schedule_check op d;
  apply op core_fee_paid ctx d.
End evaluation.

(** ** What the scheme needs from an evaluator *)

(** [fee_frame d0 d]: [d] is [d0] after the fee was moved.  Only statistics and dynamic data
    differ, and of the latter not the supplies. *)
Definition fee_frame (d0 d : database) : Prop :=
  ∃ m s, d = set_statistics s (set_dynamic_data m d0) ∧
    ∀ i, current_supply <$> m !! i = current_supply <$> dynamic_data d0 !! i.

(** The invariant of the chain state. *)
Record chain_ok (d : database) : Prop := { ch_books : books_ok d; ch_credit : credit_ok d }.

Class EvaluatorLaws (Op : Type) `{Evaluator Op} := {
  do_apply_conserves op d0 ctx d d' r :
    chain_ok d0 → validate op = Ok () → do_evaluate op d0 = Ok ctx → fee_frame d0 d →
    do_apply op ctx d = Ok (d', r) → conserves d d';
  do_apply_credit op d0 ctx d d' r :
    chain_ok d0 → validate op = Ok () → do_evaluate op d0 = Ok ctx → fee_frame d0 d →
    do_apply op ctx d = Ok (d', r) → credit_ok d' }.

Lemma fee_frame_credit d0 d : fee_frame d0 d → chain_ok d0 → credit_ok d.
Proof. intros (m & s & -> & _) [_ H]. exact H. Qed.

(** [frame_step] replaces a state by what a primitive operation made of it. *)
Ltac frame_step :=
  match goal with
  | H : adjust_balance _ _ _ = Ok _ |- _ => apply adjust_balance_frame in H as [? ->]
  | H : modify_dynamic_data _ _ _ = Ok _ |- _ => apply modify_dynamic_data_Ok in H as (? & ? & _ & _ & ->)
  | H : modify_statistics _ _ _ = Ok _ |- _ => apply modify_statistics_Ok in H as (? & ? & _ & _ & ->)
  | H : modify_account _ _ _ = Ok _ |- _ => apply modify_account_Ok in H as (? & ? & _ & _ & ->)
  | H : modify_asset _ _ _ = Ok _ |- _ => apply modify_asset_Ok in H as (? & ? & _ & _ & ->)
  end.

(** [credit_same] proves [do_apply_credit] of an operation that leaves the credit tables
    alone. *)
Ltac unfold_head H := match type of H with ?t = _ => let h := head_of t in unfold h in H end
with head_of t := match t with ?f _ => head_of f | _ => t end.

Ltac credit_same_with more :=
  let H := fresh "H" in
  intros op d0 ctx d d' r Hch _ _ F H; pose proof (fee_frame_credit _ _ F Hch) as Hc;
  clear F Hch; cbn in H; unfold_head H; more H; inv_ok;
  repeat frame_step; exact Hc.
Ltac credit_same := credit_same_with ltac:(fun H => idtac).

(** ** The scheme conserves assets *)

Lemma stats_pay_fee_Ok fee threshold s s' :
  stats_pay_fee fee threshold s = Ok s' →
  pending_fees s' + pending_vested_fees s' = pending_fees s + pending_vested_fees s + fee.
Proof. unfold stats_pay_fee. intros. inv_ok; inv_share; subst; simpl; lia. Qed.

Lemma prepare_fee_Ok payer fee d core :
  prepare_fee payer fee d = Ok core →
  0 ≤ amount fee ∧ (asset_id fee = core_asset_id → core = amount fee).
Proof. unfold prepare_fee. intros. inv_ok; propify; split; try done; lia. Qed.

(** Moving the fee: the payer's statistics gain the core value, the fee asset's pool pays it
    and its issuer gets the fee. *)
Lemma fee_moves payer fee core d d1 d2 :
  (asset_id fee = core_asset_id → core = amount fee) →
  convert_fee fee core d = Ok d1 → pay_fee payer core d1 = Ok d2 →
  moves d d2 (amt (asset_id fee) (amount fee)) ∧ fee_frame d d2.
Proof.
  unfold convert_fee, pay_fee. intros Hcore H1 H2.
  pose proof H2 as (s2 & s2' & _ & Hs2%stats_pay_fee_Ok & M2)%modify_statistics_moves.
  apply modify_statistics_Ok in H2 as (s & s' & _ & _ & ->).
  destruct (Z.eqb_spec (asset_id fee) core_asset_id) as [E|E].
  - injection H1 as <-. split.
    + eapply moves_ext; [exact M2|]. intros a. specialize (Hcore E). rewrite E. amt_solve.
    + eexists (dynamic_data d), _. split; [by destruct d|done].
  - pose proof H1 as (s1 & s1' & _ & Hs1 & M1)%modify_dynamic_data_moves.
    apply modify_dynamic_data_Ok in H1 as (s3 & s3' & Hs3 & Hm3 & ->). inv_ok. inv_share. subst.
    split.
    + eapply moves_ext; [eapply moves_trans; [exact M1|exact M2]|].
      intros a. unfold dd_delta, dd_held; simpl. amt_solve.
    + eexists _, _. split; [done|]. intros i. destruct (decide (i = asset_id fee)) as [->|].
      * by rewrite lookup_insert_eq, Hs3.
      * by rewrite lookup_insert_ne.
Qed.

Section scheme.
Context `{EvaluatorLaws Op}.
Variable required_fee : Op → share_type.

Lemma start_evaluate_conserves skip op d d' r :
  chain_ok d → validate op = Ok () → start_evaluate required_fee skip op d = Ok (d', r) →
  conserves d d'.
Proof.
  unfold start_evaluate, evaluate, apply. intros Hok Hv H1.
  apply bind_Ok in H1 as ([core ctx] & He & H1).
  apply bind_Ok in He as (core' & [_ Hcore]%prepare_fee_Ok & He).
  apply bind_Ok in He as (? & _ & He). apply bind_Ok in He as (ctx' & Hctx & He).
  injection He as -> ->.
  apply bind_Ok in H1 as (d1 & H1 & H2). apply bind_Ok in H2 as (d2 & H2 & H3).
  destruct (fee_moves _ _ _ _ _ _ Hcore H1 H2) as [M12 F].
  apply bind_Ok in H3 as ([d3 r3] & H3 & H4). apply bind_Ok in H4 as (neg & Hneg & H4).
  apply bind_Ok in H4 as (d4 & H4 & E). injection E as <- <-.
  apply (do_apply_conserves _ _ _ _ _ _ Hok Hv Hctx F) in H3.
  apply adjust_balance_moves in H4. inv_asset.
  eapply moves_ext; [eapply moves_trans; [eapply moves_trans; [exact M12|exact H3]|exact H4]|].
  intros a. simpl. amt_solve.
Qed.
(** The shape of a successful evaluation: the operation's own steps, between moving the fee
    and charging it to the payer's balance. *)
Lemma start_evaluate_inv skip op d d' r :
  start_evaluate required_fee skip op d = Ok (d', r) →
  ∃ ctx d1 d2 m, do_evaluate op d = Ok ctx ∧ fee_frame d d1 ∧ do_apply op ctx d1 = Ok (d2, r) ∧
    d' = set_balances m d2.
Proof.
  unfold start_evaluate, evaluate, apply. intros H1.
  apply bind_Ok in H1 as ([core ctx] & He & H1).
  apply bind_Ok in He as (core' & [_ Hcore]%prepare_fee_Ok & He).
  apply bind_Ok in He as (? & _ & He). apply bind_Ok in He as (ctx' & Hctx & He).
  injection He as -> ->.
  apply bind_Ok in H1 as (d1 & H1 & H2). apply bind_Ok in H2 as (d2 & H2 & H3).
  destruct (fee_moves _ _ _ _ _ _ Hcore H1 H2) as [_ F].
  apply bind_Ok in H3 as ([d3 r3] & H3 & H4). apply bind_Ok in H4 as (neg & Hneg & H4).
  apply bind_Ok in H4 as (d4 & [m ->]%adjust_balance_frame & E). injection E as <- <-.
  by exists ctx, d2, d3, m.
Qed.

Lemma start_evaluate_chain_ok skip op d d' r :
  chain_ok d → validate op = Ok () → start_evaluate required_fee skip op d = Ok (d', r) →
  chain_ok d'.
Proof.
  intros Hok Hv H1. split; [by eapply start_evaluate_conserves, Hok|].
  apply start_evaluate_inv in H1 as (ctx & d1 & d2 & m & He & F & Ha & ->).
  exact (do_apply_credit _ _ _ _ _ _ Hok Hv He F Ha).
Qed.
End scheme.

(** Frames: what an evaluator looked up before the fee is still there. *)
Lemma fee_frame_pools d0 d : fee_frame d0 d → liquidity_pools d = liquidity_pools d0.
Proof. by intros (m & s & -> & _). Qed.
Lemma fee_frame_supply d0 d i :
  fee_frame d0 d → current_supply <$> dynamic_data d !! i = current_supply <$> dynamic_data d0 !! i.
Proof. intros (m & s & -> & Hs). apply Hs. Qed.

Lemma fee_frame_refl d : fee_frame d d.
Proof. exists (dynamic_data d), (statistics d). split; [by destruct d|done]. Qed.
