(* ===== verification/VestingEval.v ===== *)
(** * Creating vesting balances and withdrawing from them

    [vesting_balance_create_operation] and [vesting_balance_withdraw_operation]:
    libraries/protocol/include/graphene/protocol/vesting.hpp and
    libraries/chain/vesting_balance_evaluator.cpp. *)
From S2P Require Import Prelude MachineInt Hardfork Asset Vesting ChainState Ledger CreditBooks Balance Fees Evaluator Sample.

(** ** create *)
Inductive vesting_policy_initializer :=
  | linear_vesting_policy_initializer
      (begin_timestamp vesting_cliff_seconds vesting_duration_seconds : Z)
  | cdd_vesting_policy_initializer (start_claim vesting_seconds : Z)
  | instant_vesting_policy_initializer.

Record vesting_balance_create_operation := VestingBalanceCreateOperation {
  vc_fee : asset;
  vc_creator : account_id_type;
  vc_owner : account_id_type;
  vc_amount : asset;
  vc_policy : vesting_policy_initializer }.

Definition vesting_balance_create_validate (op : vesting_balance_create_operation) : result unit :=
  FC_ASSERT (0 <=? amount (vc_fee op)) "fee.amount >= 0";;
  FC_ASSERT (0 <? amount (vc_amount op)) "amount.amount > 0".

Definition vesting_balance_create_do_evaluate (op : vesting_balance_create_operation)
    (d : database) : result unit :=
  let i := asset_id (vc_amount op) in
  creator_account ← get_account d (vc_creator op);
  owner_account ← get_account d (vc_owner op);
  asset_obj ← get_asset d i;
  FC_ASSERT (negb (is_transfer_restricted asset_obj)) "Asset has transfer_restricted flag enabled";;
  if HARDFORK_CORE_973_PASSED (head_block_time d) then
    FC_ASSERT (is_authorized_asset d (vc_creator op) creator_account i asset_obj)
      "The creator account is not allowed to transact the asset";;
    FC_ASSERT (is_authorized_asset d (vc_owner op) owner_account i asset_obj)
      "The owner account is not allowed to transact the asset"
  else Ok ().

(** [init_policy_visitor]. *)
Definition init_policy (init_balance : share_type) (now : Z) (i : vesting_policy_initializer)
    : vesting_policy :=
  match i with
  | linear_vesting_policy_initializer b c s =>
      LinearPolicy (Linear.LinearVestingPolicy b c s init_balance)
  | cdd_vesting_policy_initializer start secs =>
      CddPolicy (Cdd.CddVestingPolicy secs 0 start now)
  | instant_vesting_policy_initializer => InstantPolicy Instant.InstantVestingPolicy
  end.

Definition vesting_balance_create_do_apply (op : vesting_balance_create_operation) (_ : unit)
    (d : database) : result (database * operation_result) :=
  let now := head_block_time d in
  neg ← asset_neg (vc_amount op);
  d ← adjust_balance (vc_creator op) neg d;
  '(id, t) ← tbl_create (VestingBalanceObject (vc_owner op) (vc_amount op)
    (init_policy (amount (vc_amount op)) now (vc_policy op)) vbt_unspecified) (vesting_balances d);
  Ok (set_vesting_balances t d, object_id_result (kind_vesting_balance, id)).

#[global] Instance vesting_balance_create_evaluator : Evaluator vesting_balance_create_operation := {
  eval_ctx := unit;
  op_fee := vc_fee;
  fee_payer := vc_creator;
  validate := vesting_balance_create_validate;
  do_evaluate := vesting_balance_create_do_evaluate;
  do_apply := vesting_balance_create_do_apply }.

(** ** withdraw *)
Record vesting_balance_withdraw_operation := VestingBalanceWithdrawOperation {
  vw_fee : asset;
  vw_vesting_balance : Z;
  vw_owner : account_id_type;
  vw_amount : asset }.

Definition vesting_balance_withdraw_validate (op : vesting_balance_withdraw_operation)
    : result unit :=
  FC_ASSERT (0 <=? amount (vw_fee op)) "fee.amount >= 0";;
  FC_ASSERT (0 <? amount (vw_amount op)) "amount.amount > 0";;
  FC_ASSERT (negb (vw_owner op =? GRAPHENE_TEMP_ACCOUNT)) "owner != GRAPHENE_TEMP_ACCOUNT".

(** The [assert] that the amount is within the balance is a no-op of a release build;
    [vesting_withdraw_exact] shows that it holds. *)
Definition vesting_balance_withdraw_do_evaluate (op : vesting_balance_withdraw_operation)
    (d : database) : result unit :=
  let now := head_block_time d in
  vbo ← tbl_get (vesting_balances d) (vw_vesting_balance op);
  FC_ASSERT (vw_owner op =? vb_owner vbo) "op.owner == vbo.owner";;
  ok ← vb_is_withdraw_allowed vbo now (vw_amount op);
  FC_ASSERT ok "vbo.is_withdraw_allowed( now, op.amount )".

Definition vesting_balance_withdraw_do_apply (op : vesting_balance_withdraw_operation) (_ : unit)
    (d : database) : result (database * operation_result) :=
  let now := head_block_time d in
  t ← tbl_modify (vw_vesting_balance op) (vb_withdraw now (vw_amount op)) (vesting_balances d);
  d ← adjust_balance (vw_owner op) (vw_amount op) (set_vesting_balances t d);
  Ok (d, void_result).

#[global] Instance vesting_balance_withdraw_evaluator : Evaluator vesting_balance_withdraw_operation := {
  eval_ctx := unit;
  op_fee := vw_fee;
  fee_payer := vw_owner;
  validate := vesting_balance_withdraw_validate;
  do_evaluate := vesting_balance_withdraw_do_evaluate;
  do_apply := vesting_balance_withdraw_do_apply }.

(** ** Properties *)

Lemma vb_withdraw_held now x v v' a :
  vb_withdraw now x v = Ok v' → held v' a = held v a + amt (asset_id x) (- amount x) a.
Proof.
  unfold vb_withdraw. intros H. apply bind_Ok in H as (p & _ & H). inv_ok. inv_asset.
  unfold held, vesting_balance_holding; simpl. amt_solve; congruence.
Qed.

#[global] Instance vesting_balance_create_laws : EvaluatorLaws vesting_balance_create_operation.
Proof.
  split; [|credit_same].
  intros op d0 ctx d d' r _ _ _ _ H. apply bind_Ok in H as (neg & Hneg & H).
  apply bind_Ok in H as (d1 & M1%adjust_balance_moves & H).
  apply bind_Ok in H as ([id t] & M2%vesting_create_moves & E). injection E as <- <-. inv_asset.
  eapply moves_ext; [eapply moves_trans; [exact M1|exact M2]|].
  intros a. unfold held, vesting_balance_holding; simpl. amt_solve.
Qed.

#[global] Instance vesting_balance_withdraw_laws : EvaluatorLaws vesting_balance_withdraw_operation.
Proof.
  split; [|credit_same].
  intros op d0 ctx d d' r _ _ _ _ H. apply bind_Ok in H as (t & Ht & H).
  apply bind_Ok in H as (d1 & M2%adjust_balance_moves & E). injection E as <- <-.
  eapply moves_ext; [eapply moves_trans; [eapply vesting_modify_moves; [exact Ht|];
    intros v v' a; apply vb_withdraw_held|exact M2]|].
  intros a. simpl. amt_solve.
Qed.

(** The members of a policy initializer are 32-bit unsigned integers. *)
Definition initializer_wf (i : vesting_policy_initializer) : Prop :=
  match i with
  | linear_vesting_policy_initializer b c s => is_time b ∧ is_time c ∧ is_time s
  | cdd_vesting_policy_initializer start secs => is_time start ∧ is_time secs
  | instant_vesting_policy_initializer => True
  end.

Lemma init_policy_inv x a now i :
  is_share x → 0 ≤ x → is_time now → initializer_wf i →
  policy_inv (init_policy x now i) (Asset x a) now.
Proof.
  intros Hs Hx Ht Hi.
  destruct i as [b c s|start secs|]; simpl in Hi; unfold is_time, time_point_sec_maximum in *;
    simpl; try done; split; simpl; try (done || lia).
  pose proof (vested_bounds (Linear.LinearVestingPolicy b c s x) now Hx). lia.
Qed.

(** A created vesting balance is well-formed: it holds exactly the amount taken from the
    creator, belongs to the named owner, is governed by the requested policy, and satisfies the
    invariant under which no withdrawal exceeds the balance; no other vesting balance changes
    and the creator's account balance drops by the amount. *)
Theorem vesting_create_wf op d d1 d' r :
  vesting_balance_create_validate op = Ok () → is_share (amount (vc_amount op)) →
  initializer_wf (vc_policy op) → is_time (head_block_time d) → fee_frame d d1 →
  vesting_balance_create_do_apply op () d1 = Ok (d', r) →
  ∃ id v, r = object_id_result (kind_vesting_balance, id) ∧
    rows (vesting_balances d) !! id = None ∧
    rows (vesting_balances d') = <[id := v]> (rows (vesting_balances d)) ∧
    vb_owner v = vc_owner op ∧ vb_balance v = vc_amount op ∧ vb_wf v (head_block_time d) ∧
    ∀ owner a, amount (get_balance d' owner a) = amount (get_balance d owner a)
      - (if decide (owner = vc_creator op ∧ a = asset_id (vc_amount op)) then amount (vc_amount op) else 0).
Proof.
  intros Hv Hs Hi Ht (m & s & -> & _) H. unfold vesting_balance_create_validate in Hv.
  unfold vesting_balance_create_do_apply in H. apply bind_Ok in H as (neg & Hneg & H).
  apply bind_Ok in H as (d2 & H2 & H). apply bind_Ok in H as ([id t] & Hc & E).
  injection E as <- <-. inv_ok. propify. inv_asset.
  pose proof (λ owner a, adjust_balance_get _ _ _ _ owner a H2) as Hbal.
  apply adjust_balance_frame in H2 as [m' ->]. apply tbl_create_Ok in Hc as (-> & Hnone & ->).
  eexists _, _. split_and!; [done|exact Hnone|done|done|done| |].
  - split; simpl; [split; [done|lia]|]. destruct (vc_amount op) as [x0 a0] eqn:Eamt; simpl in *.
    apply init_policy_inv; done || lia.
  - intros owner a. specialize (Hbal owner a). simpl in Hbal.
    etransitivity; [exact Hbal|]. repeat case_decide; simpl; unfold get_balance; simpl; lia.
Qed.

Lemma allowed_amount_irrelevant (p : vesting_policy) b t x y :
  get_allowed_withdraw p (VestingPolicyContext b t x) =
  get_allowed_withdraw p (VestingPolicyContext b t y).
Proof. by destruct p. Qed.

(** A withdrawal takes exactly what it asks for and never more than has vested.  A
    withdrawal the evaluator accepts on a well-formed balance is within the balance and within
    [get_allowed_withdraw] at that time; applying it moves exactly that amount from the vesting
    balance to its owner's account, leaves every other balance alone, and the vesting balance
    stays well-formed. *)
Theorem vesting_withdraw_exact op d d1 d' r v t :
  vesting_balance_withdraw_validate op = Ok () →
  rows (vesting_balances d) !! vw_vesting_balance op = Some v → vb_wf v t →
  t ≤ head_block_time d → is_time (head_block_time d) →
  vesting_balance_withdraw_do_evaluate op d = Ok () → fee_frame d d1 →
  vesting_balance_withdraw_do_apply op () d1 = Ok (d', r) →
  ∃ v' allowed, vw_owner op = vb_owner v ∧
    vb_get_allowed_withdraw v (head_block_time d) = Ok allowed ∧
    asset_id (vw_amount op) = asset_id (vb_balance v) ∧
    amount (vw_amount op) ≤ amount allowed ≤ amount (vb_balance v) ∧
    rows (vesting_balances d') = <[vw_vesting_balance op := v']> (rows (vesting_balances d)) ∧
    amount (vb_balance v') = amount (vb_balance v) - amount (vw_amount op) ∧
    vb_wf v' (head_block_time d) ∧
    ∀ owner a, amount (get_balance d' owner a) = amount (get_balance d owner a)
      + (if decide (owner = vb_owner v ∧ a = asset_id (vw_amount op)) then amount (vw_amount op) else 0).
Proof.
  intros Hv Hrow Hwf Hle Ht He (m & s & -> & _) H.
  unfold vesting_balance_withdraw_validate, vesting_balance_withdraw_do_evaluate in *.
  apply bind_Ok in He as (v0 & Hv0%tbl_get_Ok & He). rewrite Hrow in Hv0. injection Hv0 as <-.
  apply bind_Ok in He as ([] & Hown & He). apply bind_Ok in He as (ok & Hok & He).
  apply FC_ASSERT_Ok in He as ->. apply FC_ASSERT_Ok in Hown. propify.
  unfold vesting_balance_withdraw_do_apply in H. apply bind_Ok in H as (tb & Htb & H).
  apply bind_Ok in H as (d2 & H2 & E). injection E as <- <-.
  apply tbl_modify_Ok in Htb as (v1 & v' & Hv1 & Hw & ->). simpl in Hv1, Hw. rewrite Hrow in Hv1.
  injection Hv1 as <-. inv_ok. propify.
  destruct (vb_step_wf v t (head_block_time d) _ v' Hwf Hle Ht
    (vb_step_withdraw v v' _ (vw_amount op) ltac:(lia) Hok Hw)) as (Hwf' & Hid & Hamt).
  pose proof (λ owner a, adjust_balance_get _ _ _ _ owner a H2) as Hbal.
  apply adjust_balance_frame in H2 as [m' ->]. destruct Hwf as [Hb Hp].
  pose proof (policy_inv_later _ _ _ _ Hp Hle Ht) as Hp'.
  destruct (withdraw_within_allowed _ _ _ _ Hp' Hb Hok) as (Hsame & a & Ea & Hle').
  destruct (allowed_within_balance _ _ _ (Asset 0 core_asset_id) Hp' Hb) as (a' & Ea' & _ & Hbd).
  rewrite (allowed_amount_irrelevant _ _ _ _ (vw_amount op)), Ea in Ea'. injection Ea' as <-.
  exists v', a. split_and!; try done; [lia|].
  intros owner i. rewrite <- Hown. exact (Hbal owner i).
Qed.

(** ** Concrete runs *)
Definition sample_vesting_create : vesting_balance_create_operation :=
  VestingBalanceCreateOperation (Asset 0 0) 100 101 (Asset 5000 1)
    (linear_vesting_policy_initializer (sample_time - 600) 100 1000).

Definition sample_vesting_object : vesting_balance_object :=
  VestingBalanceObject 101 (Asset 5000 1)
    (LinearPolicy (Linear.LinearVestingPolicy (sample_time - 600) 100 1000 5000)) vbt_unspecified.

Definition sample_vesting_db : database :=
  set_vesting_balances (Table 1 {[ 0 := sample_vesting_object ]}) sample_db.

Definition sample_vesting_withdraw : vesting_balance_withdraw_operation :=
  VestingBalanceWithdrawOperation (Asset 0 0) 0 101 (Asset 3000 1).

Lemma vesting_create_wf_witness : ∃ d',
  vesting_balance_create_do_apply sample_vesting_create () sample_db
    = Ok (d', object_id_result (kind_vesting_balance, 0)) ∧
  amount (get_balance d' 100 1) = 495000 ∧
  ∃ v, rows (vesting_balances d') !! 0 = Some v ∧ vb_wf v sample_time.
Proof.
  eexists. split; [vm_compute; reflexivity|].
  edestruct (vesting_create_wf sample_vesting_create sample_db sample_db)
    as (id & v & E & _ & Hrows & _ & _ & Hwf & Hbal);
    [vm_compute; reflexivity | by vm_compute | by vm_compute | by vm_compute | apply fee_frame_refl
    | vm_compute; reflexivity |].
  injection E as <-. split; [exact (Hbal 100 1)|]. exists v. split; [|exact Hwf].
  exact (f_equal (λ m, m !! 0) Hrows).
Defined.

Lemma sample_vesting_wf : vb_wf sample_vesting_object (sample_time - 1).
Proof.
  split; [by split; vm_compute|].
  apply (init_policy_inv 5000 1 (sample_time - 1)
    (linear_vesting_policy_initializer (sample_time - 600) 100 1000)); by vm_compute.
Qed.

Lemma vesting_withdraw_exact_witness : ∃ d',
  vesting_balance_withdraw_do_apply sample_vesting_withdraw () sample_vesting_db
    = Ok (d', void_result) ∧ amount (get_balance d' 101 1) = 6000.
Proof.
  eexists. split; [vm_compute; reflexivity|].
  edestruct (vesting_withdraw_exact sample_vesting_withdraw sample_vesting_db sample_vesting_db)
    as (v' & a & _ & _ & _ & _ & _ & _ & _ & Hbal);
    [vm_compute; reflexivity | vm_compute; reflexivity | exact sample_vesting_wf | by vm_compute
    | by vm_compute | vm_compute; reflexivity | apply fee_frame_refl | vm_compute; reflexivity |].
  exact (Hbal 101 1).
Defined.
