(* ===== verification/Transfer.v ===== *)
(** * Transfers

    [transfer_operation] and [override_transfer_operation]:
    libraries/protocol/transfer.cpp and libraries/chain/transfer_evaluator.cpp. *)
From S2P Require Import Prelude MachineInt Hardfork Asset Vesting ChainState Ledger CreditBooks Balance Fees Evaluator Sample.

Record transfer_operation := TransferOperation {
  tr_fee : asset;
  tr_from : account_id_type;
  tr_to : account_id_type;
  tr_amount : asset }.

Definition transfer_validate (op : transfer_operation) : result unit :=
  FC_ASSERT (0 <=? amount (tr_fee op)) "fee.amount >= 0";;
  FC_ASSERT (negb (tr_from op =? tr_to op)) "from != to";;
  FC_ASSERT (0 <? amount (tr_amount op)) "amount.amount > 0".

Definition transfer_do_evaluate (op : transfer_operation) (d : database) : result unit :=
  from_account ← get_account d (tr_from op);
  to_account ← get_account d (tr_to op);
  asset_type ← get_asset d (asset_id (tr_amount op));
  GRAPHENE_ASSERT
    (is_authorized_asset d (tr_from op) from_account (asset_id (tr_amount op)) asset_type)
    "transfer_from_account_not_whitelisted";;
  GRAPHENE_ASSERT
    (is_authorized_asset d (tr_to op) to_account (asset_id (tr_amount op)) asset_type)
    "transfer_to_account_not_whitelisted";;
  (if is_transfer_restricted asset_type then
     GRAPHENE_ASSERT ((tr_from op =? ao_issuer asset_type) || (tr_to op =? ao_issuer asset_type))
       "transfer_restricted_transfer_asset"
   else Ok ());;
  FC_ASSERT (amount (tr_amount op) <=? amount (get_balance d (tr_from op) (asset_id (tr_amount op))))
    "Insufficient Balance".

(** Moving [amount] between two accounts, the body of both [do_apply]s. *)
Definition move_balance (from to : account_id_type) (amt : asset) (d : database)
    : result database :=
  neg ← asset_neg amt;
  d ← adjust_balance from neg d;
  adjust_balance to amt d.

Definition transfer_do_apply (op : transfer_operation) (_ : unit) (d : database)
    : result (database * operation_result) :=
  d ← move_balance (tr_from op) (tr_to op) (tr_amount op) d; Ok (d, void_result).

#[global] Instance transfer_evaluator : Evaluator transfer_operation := {
  eval_ctx := unit;
  op_fee := tr_fee;
  fee_payer := tr_from;
  validate := transfer_validate;
  do_evaluate := transfer_do_evaluate;
  do_apply := transfer_do_apply }.

Record override_transfer_operation := OverrideTransferOperation {
  ot_fee : asset;
  ot_issuer : account_id_type;
  ot_from : account_id_type;
  ot_to : account_id_type;
  ot_amount : asset }.

Definition override_transfer_validate (op : override_transfer_operation) : result unit :=
  FC_ASSERT (0 <=? amount (ot_fee op)) "fee.amount >= 0";;
  FC_ASSERT (negb (ot_from op =? ot_to op)) "from != to";;
  FC_ASSERT (0 <? amount (ot_amount op)) "amount.amount > 0";;
  FC_ASSERT (negb (ot_issuer op =? ot_from op)) "issuer != from".

Definition override_transfer_do_evaluate (op : override_transfer_operation) (d : database)
    : result unit :=
  asset_type ← get_asset d (asset_id (ot_amount op));
  GRAPHENE_ASSERT (can_override asset_type) "override_transfer_not_permitted";;
  FC_ASSERT (ao_issuer asset_type =? ot_issuer op) "asset_type.issuer == op.issuer";;
  from_account ← get_account d (ot_from op);
  to_account ← get_account d (ot_to op);
  FC_ASSERT (is_authorized_asset d (ot_to op) to_account (asset_id (ot_amount op)) asset_type)
    "The to_account is not allowed to transact the asset";;
  (if negb (HARDFORK_CORE_2295_PASSED (head_block_time d)) then
     FC_ASSERT (is_authorized_asset d (ot_from op) from_account (asset_id (ot_amount op)) asset_type)
       "The from_account is not allowed to transact the asset"
   else Ok ());;
  FC_ASSERT (amount (ot_amount op) <=? amount (get_balance d (ot_from op) (asset_id (ot_amount op))))
    "Insufficient Balance".

Definition override_transfer_do_apply (op : override_transfer_operation) (_ : unit)
    (d : database) : result (database * operation_result) :=
  d ← move_balance (ot_from op) (ot_to op) (ot_amount op) d; Ok (d, void_result).

#[global] Instance override_transfer_evaluator : Evaluator override_transfer_operation := {
  eval_ctx := unit;
  op_fee := ot_fee;
  fee_payer := ot_issuer;
  validate := override_transfer_validate;
  do_evaluate := override_transfer_do_evaluate;
  do_apply := override_transfer_do_apply }.

(** ** Properties *)

Lemma move_balance_conserves from to x d d' : move_balance from to x d = Ok d' → conserves d d'.
Proof.
  unfold move_balance. intros H. apply bind_Ok in H as (neg & Hneg & H).
  apply bind_Ok in H as (d1 & M1%adjust_balance_moves & M2%adjust_balance_moves). inv_asset.
  eapply moves_ext; [eapply moves_trans; [exact M1|exact M2]|]. intros a. simpl. amt_solve.
Qed.

#[global] Instance transfer_laws : EvaluatorLaws transfer_operation.
Proof.
  split; [|credit_same_with ltac:(fun H => unfold move_balance in H)].
  intros op d0 ctx d d' r _ _ _ _ H. apply bind_Ok in H as (d1 & H & E). injection E as <- <-.
  by eapply move_balance_conserves.
Qed.

#[global] Instance override_transfer_laws : EvaluatorLaws override_transfer_operation.
Proof.
  split; [|credit_same_with ltac:(fun H => unfold move_balance in H)].
  intros op d0 ctx d d' r _ _ _ _ H. apply bind_Ok in H as (d1 & H & E). injection E as <- <-.
  by eapply move_balance_conserves.
Qed.

(** A transfer that passes validation and evaluation is carried out exactly: applying it
    succeeds whenever the receiver's balance stays a 64-bit amount, the sender's balance of
    the asset drops by the amount, the receiver's rises by it, and every other balance of
    every account is unchanged. *)
Theorem transfer_exact op d :
  transfer_validate op = Ok () → transfer_do_evaluate op d = Ok () →
  balances_nonneg d →
  is_share (amount (get_balance d (tr_from op) (asset_id (tr_amount op)))) →
  is_share (amount (get_balance d (tr_to op) (asset_id (tr_amount op))) + amount (tr_amount op)) →
  ∃ d', transfer_do_apply op () d = Ok (d', void_result) ∧
    ∀ owner a, amount (get_balance d' owner a) = amount (get_balance d owner a)
      - (if decide (owner = tr_from op ∧ a = asset_id (tr_amount op)) then amount (tr_amount op) else 0)
      + (if decide (owner = tr_to op ∧ a = asset_id (tr_amount op)) then amount (tr_amount op) else 0).
Proof.
  intros Hv He Hnn Hsf Hst. unfold transfer_validate in Hv.
  apply bind_Ok in Hv as ([] & _ & Hv). apply bind_Ok in Hv as ([] & Hne & Hpos).
  apply FC_ASSERT_Ok in Hne, Hpos. propify.
  assert (amount (tr_amount op) ≤ amount (get_balance d (tr_from op) (asset_id (tr_amount op)))) as Hle.
  { unfold transfer_do_evaluate in He. inv_ok; propify; lia. }
  assert (0 ≤ amount (get_balance d (tr_to op) (asset_id (tr_amount op)))) as Hto.
  { unfold get_balance. case_match eqn:E; simpl; [by apply Hnn in E|lia]. }
  set (x := tr_amount op) in *. unfold is_share, INT64_MIN, INT64_MAX in Hsf, Hst.
  unfold transfer_do_apply, move_balance. fold x.
  unfold asset_neg. rewrite share_neg_ok by (unfold is_share, INT64_MIN, INT64_MAX; lia). simpl.
  destruct (adjust_balance_total (tr_from op) (Asset (- amount x) (asset_id x)) d) as (d1 & E1);
    simpl; [unfold is_share, INT64_MIN, INT64_MAX; lia..|lia|].
  pose proof (λ owner a, adjust_balance_get _ _ _ _ owner a E1) as G1. simpl in G1.
  destruct (adjust_balance_total (tr_to op) x d1) as (d2 & E2);
    [rewrite ?G1, ?decide_False by naive_solver; unfold is_share, INT64_MIN, INT64_MAX; lia..|].
  rewrite E1. simpl. rewrite E2. simpl. exists d2. split; [done|].
  intros owner a. rewrite (adjust_balance_get _ _ _ _ owner a E2), G1.
  repeat case_decide; lia.
Qed.

Definition w_transfer : transfer_operation :=
  TransferOperation (Asset 10 0) 100 101 (Asset 250 1).

Example transfer_exact_witness :
  ∃ d', transfer_do_apply w_transfer () sample_db = Ok (d', void_result) ∧
    amount (get_balance d' 100 1) = 499750 ∧ amount (get_balance d' 101 1) = 3250.
Proof.
  destruct (transfer_exact w_transfer sample_db) as (d' & E & H);
    [vm_compute; reflexivity | vm_compute; reflexivity | apply sample_nonneg
    | vm_compute; split; discriminate | vm_compute; split; discriminate|].
  exists d'. split; [exact E|]. rewrite !H. split; vm_compute; reflexivity.
Defined.
