(* ===== verification/AssetOps.v ===== *)
(** * Issuing and burning assets, and the fee pool

    [asset_issue_operation], [asset_reserve_operation], [asset_fund_fee_pool_operation] and
    [asset_claim_pool_operation]: libraries/protocol/asset_ops.cpp and
    libraries/chain/asset_evaluator.cpp. *)
From S2P Require Import Prelude MachineInt Hardfork Asset Vesting ChainState Ledger CreditBooks Balance Fees Evaluator Sample.

(** ** asset_issue *)
Record asset_issue_operation := AssetIssueOperation {
  ai_fee : asset;
  ai_issuer : account_id_type;
  ai_asset_to_issue : asset;
  ai_issue_to_account : account_id_type }.

Definition asset_issue_validate (op : asset_issue_operation) : result unit :=
  FC_ASSERT (0 <=? amount (ai_fee op)) "fee.amount >= 0";;
  FC_ASSERT (amount (ai_asset_to_issue op) <=? GRAPHENE_MAX_SHARE_SUPPLY) "asset_to_issue too large";;
  FC_ASSERT (0 <? amount (ai_asset_to_issue op)) "asset_to_issue.amount.value > 0";;
  FC_ASSERT (negb (asset_id (ai_asset_to_issue op) =? core_asset_id)) "asset_id != asset_id_type(0)".

Definition asset_issue_do_evaluate (op : asset_issue_operation) (d : database) : result unit :=
  let i := asset_id (ai_asset_to_issue op) in
  a ← get_asset d i;
  FC_ASSERT (ai_issuer op =? ao_issuer a) "o.issuer == a.issuer";;
  FC_ASSERT (negb (is_market_issued a)) "Cannot manually issue a market-issued asset.";;
  FC_ASSERT (negb (is_liquidity_pool_share_asset a))
    "Cannot manually issue a liquidity pool share asset.";;
  FC_ASSERT (can_create_new_supply a) "Can not create new supply";;
  to_account ← get_account d (ai_issue_to_account op);
  FC_ASSERT (is_authorized_asset d (ai_issue_to_account op) to_account i a) "is_authorized_asset";;
  dyn ← get_dynamic_data d i;
  new_supply ← share_add (current_supply dyn) (amount (ai_asset_to_issue op));
  FC_ASSERT (new_supply <=? max_supply (ao_options a)) "exceeds max_supply".

Definition asset_issue_do_apply (op : asset_issue_operation) (_ : unit) (d : database)
    : result (database * operation_result) :=
  d ← adjust_balance (ai_issue_to_account op) (ai_asset_to_issue op) d;
  d ← modify_dynamic_data (asset_id (ai_asset_to_issue op)) (λ s,
        v ← share_add (current_supply s) (amount (ai_asset_to_issue op));
        Ok (dd_with_supply s v)) d;
  Ok (d, void_result).

#[global] Instance asset_issue_evaluator : Evaluator asset_issue_operation := {
  eval_ctx := unit;
  op_fee := ai_fee;
  fee_payer := ai_issuer;
  validate := asset_issue_validate;
  do_evaluate := asset_issue_do_evaluate;
  do_apply := asset_issue_do_apply }.

(** ** asset_reserve *)
Record asset_reserve_operation := AssetReserveOperation {
  ar_fee : asset;
  ar_payer : account_id_type;
  ar_amount_to_reserve : asset }.

Definition asset_reserve_validate (op : asset_reserve_operation) : result unit :=
  FC_ASSERT (0 <=? amount (ar_fee op)) "fee.amount >= 0";;
  FC_ASSERT (amount (ar_amount_to_reserve op) <=? GRAPHENE_MAX_SHARE_SUPPLY) "amount too large";;
  FC_ASSERT (0 <? amount (ar_amount_to_reserve op)) "amount_to_reserve.amount.value > 0".

Definition asset_reserve_do_evaluate (op : asset_reserve_operation) (d : database) : result unit :=
  let i := asset_id (ar_amount_to_reserve op) in
  a ← get_asset d i;
  GRAPHENE_ASSERT (negb (is_market_issued a)) "asset_reserve_invalid_on_mia";;
  from_account ← get_account d (ar_payer op);
  FC_ASSERT (is_authorized_asset d (ar_payer op) from_account i a) "is_authorized_asset";;
  dyn ← get_dynamic_data d i;
  if negb (is_liquidity_pool_share_asset a) then
    FC_ASSERT (amount (ar_amount_to_reserve op) <=? current_supply dyn)
      "Can not reserve an amount that is more than the current supply"
  else
    FC_ASSERT (amount (ar_amount_to_reserve op) <? current_supply dyn)
      "The asset is a liquidity pool share asset thus can only reserve an amount that is less than the current supply".

Definition asset_reserve_do_apply (op : asset_reserve_operation) (_ : unit) (d : database)
    : result (database * operation_result) :=
  neg ← asset_neg (ar_amount_to_reserve op);
  d ← adjust_balance (ar_payer op) neg d;
  d ← modify_dynamic_data (asset_id (ar_amount_to_reserve op)) (λ s,
        v ← share_sub (current_supply s) (amount (ar_amount_to_reserve op));
        Ok (dd_with_supply s v)) d;
  Ok (d, void_result).

#[global] Instance asset_reserve_evaluator : Evaluator asset_reserve_operation := {
  eval_ctx := unit;
  op_fee := ar_fee;
  fee_payer := ar_payer;
  validate := asset_reserve_validate;
  do_evaluate := asset_reserve_do_evaluate;
  do_apply := asset_reserve_do_apply }.

(** ** asset_fund_fee_pool *)
Record asset_fund_fee_pool_operation := AssetFundFeePoolOperation {
  af_fee : asset;
  af_from_account : account_id_type;
  af_asset_id : asset_id_type;
  af_amount : share_type }.

Definition asset_fund_fee_pool_validate (op : asset_fund_fee_pool_operation) : result unit :=
  FC_ASSERT (0 <=? amount (af_fee op)) "fee.amount >= 0";;
  FC_ASSERT (asset_id (af_fee op) =? core_asset_id) "fee.asset_id == asset_id_type()";;
  FC_ASSERT (0 <? af_amount op) "amount > 0".

Definition asset_fund_fee_pool_do_evaluate (op : asset_fund_fee_pool_operation) (d : database)
    : result unit :=
  get_asset d (af_asset_id op);; get_dynamic_data d (af_asset_id op);; Ok ().

Definition asset_fund_fee_pool_do_apply (op : asset_fund_fee_pool_operation) (_ : unit)
    (d : database) : result (database * operation_result) :=
  neg ← share_neg (af_amount op);
  d ← adjust_balance (af_from_account op) (Asset neg core_asset_id) d;
  d ← modify_dynamic_data (af_asset_id op) (λ s,
        v ← share_add (fee_pool s) (af_amount op); Ok (dd_with_fee_pool s v)) d;
  Ok (d, void_result).

#[global] Instance asset_fund_fee_pool_evaluator : Evaluator asset_fund_fee_pool_operation := {
  eval_ctx := unit;
  op_fee := af_fee;
  fee_payer := af_from_account;
  validate := asset_fund_fee_pool_validate;
  do_evaluate := asset_fund_fee_pool_do_evaluate;
  do_apply := asset_fund_fee_pool_do_apply }.

(** ** asset_claim_pool *)
Record asset_claim_pool_operation := AssetClaimPoolOperation {
  ac_fee : asset;
  ac_issuer : account_id_type;
  ac_asset_id : asset_id_type;
  ac_amount_to_claim : asset }.

Definition asset_claim_pool_validate (op : asset_claim_pool_operation) : result unit :=
  FC_ASSERT (0 <=? amount (ac_fee op)) "fee.amount >= 0";;
  FC_ASSERT (negb (asset_id (ac_fee op) =? ac_asset_id op)) "fee.asset_id != asset_id";;
  FC_ASSERT (0 <? amount (ac_amount_to_claim op)) "amount_to_claim.amount > 0";;
  FC_ASSERT (asset_id (ac_amount_to_claim op) =? core_asset_id) "amount_to_claim.asset_id == asset_id_type()".

Definition asset_claim_pool_do_evaluate (op : asset_claim_pool_operation) (d : database)
    : result unit :=
  a ← get_asset d (ac_asset_id op);
  FC_ASSERT (ao_issuer a =? ac_issuer op) "Asset fee pool may only be claimed by the issuer".

Definition asset_claim_pool_do_apply (op : asset_claim_pool_operation) (_ : unit) (d : database)
    : result (database * operation_result) :=
  get_asset d (ac_asset_id op);;
  addo ← get_dynamic_data d (ac_asset_id op);
  FC_ASSERT (amount (ac_amount_to_claim op) <=? fee_pool addo)
    "Attempt to claim more fees than is available";;
  d ← modify_dynamic_data (ac_asset_id op) (λ s,
        v ← share_sub (fee_pool s) (amount (ac_amount_to_claim op)); Ok (dd_with_fee_pool s v)) d;
  d ← adjust_balance (ac_issuer op) (ac_amount_to_claim op) d;
  Ok (d, void_result).

#[global] Instance asset_claim_pool_evaluator : Evaluator asset_claim_pool_operation := {
  eval_ctx := unit;
  op_fee := ac_fee;
  fee_payer := ac_issuer;
  validate := asset_claim_pool_validate;
  do_evaluate := asset_claim_pool_do_evaluate;
  do_apply := asset_claim_pool_do_apply }.

(** ** Properties *)

#[global] Instance asset_issue_laws : EvaluatorLaws asset_issue_operation.
Proof.
  split; [|credit_same].
  intros op d0 ctx d d' r _ _ _ _ H. apply bind_Ok in H as (d1 & M1%adjust_balance_moves & H).
  apply bind_Ok in H as (d2 & (s & s' & _ & Hs & M2)%modify_dynamic_data_moves & E). inv_ok.
  inv_share. subst. eapply moves_ext; [eapply moves_trans; [exact M1|exact M2]|].
  intros a. unfold dd_delta, dd_held; simpl. amt_solve.
Qed.

#[global] Instance asset_reserve_laws : EvaluatorLaws asset_reserve_operation.
Proof.
  split; [|credit_same].
  intros op d0 ctx d d' r _ _ _ _ H. apply bind_Ok in H as (neg & Hneg & H).
  apply bind_Ok in H as (d1 & M1%adjust_balance_moves & H).
  apply bind_Ok in H as (d2 & (s & s' & _ & Hs & M2)%modify_dynamic_data_moves & E). inv_ok.
  inv_share. inv_asset. eapply moves_ext; [eapply moves_trans; [exact M1|exact M2]|].
  intros a. unfold dd_delta, dd_held; simpl. amt_solve.
Qed.

#[global] Instance asset_fund_fee_pool_laws : EvaluatorLaws asset_fund_fee_pool_operation.
Proof.
  split; [|credit_same].
  intros op d0 ctx d d' r _ _ _ _ H. apply bind_Ok in H as (neg & Hneg & H).
  apply bind_Ok in H as (d1 & M1%adjust_balance_moves & H).
  apply bind_Ok in H as (d2 & (s & s' & _ & Hs & M2)%modify_dynamic_data_moves & E). inv_ok.
  inv_share. subst. eapply moves_ext; [eapply moves_trans; [exact M1|exact M2]|].
  intros a. unfold dd_delta, dd_held; simpl. amt_solve.
Qed.

#[global] Instance asset_claim_pool_laws : EvaluatorLaws asset_claim_pool_operation.
Proof.
  split; [|credit_same].
  intros op d0 ctx d d' r _ Hv _ _ H. apply bind_Ok in H as (a & _ & H).
  apply bind_Ok in H as (addo & _ & H). apply bind_Ok in H as ([] & _ & H).
  apply bind_Ok in H as (d1 & (s & s' & _ & Hs & M1)%modify_dynamic_data_moves & H).
  apply bind_Ok in H as (d2 & M2%adjust_balance_moves & E).
  cbn in Hv. unfold asset_claim_pool_validate in Hv. inv_ok. propify.
  inv_share. subst. eapply moves_ext; [eapply moves_trans; [exact M1|exact M2]|].
  intros i. unfold dd_delta, dd_held; simpl. amt_solve; congruence.
Qed.

(** Issuing never exceeds the maximum supply.  After a successful issue the current
    supply is the old one plus the amount and is at most the asset's [max_supply]; the asset
    is neither market issued, nor a pool's share asset, nor locked against new supply, and
    the caller is its issuer. *)
Theorem asset_issue_bounded op d d1 d' r obj dyn :
  let i := asset_id (ai_asset_to_issue op) in
  asset_issue_do_evaluate op d = Ok () → fee_frame d d1 →
  assets d !! i = Some obj → dynamic_data d !! i = Some dyn →
  asset_issue_do_apply op () d1 = Ok (d', r) →
  supply d' i = current_supply dyn + amount (ai_asset_to_issue op) ∧
  supply d' i ≤ max_supply (ao_options obj) ∧
  ai_issuer op = ao_issuer obj ∧ is_market_issued obj = false ∧
  is_liquidity_pool_share_asset obj = false ∧ can_create_new_supply obj = true.
Proof.
  intros i He F Hobj Hdyn H. unfold asset_issue_do_evaluate, get_asset, get_dynamic_data, find_object in He.
  fold i in He. rewrite Hobj, Hdyn in He.
  unfold asset_issue_do_apply in H. fold i in H. apply bind_Ok in H as (d2 & H2 & H).
  assert (dynamic_data d2 = dynamic_data d1) as E2
    by (by apply adjust_balance_Ok in H2 as [[_ ->]|(? & -> & _)]).
  apply bind_Ok in H as (d3 & (s & s' & Hs & Hs' & ->)%modify_dynamic_data_Ok & E).
  rewrite E2 in Hs. pose proof (fee_frame_supply d d1 i F) as Hsup. rewrite Hs, Hdyn in Hsup.
  inv_ok. inv_share. propify. subst. simpl in Hsup. injection Hsup as Hsup.
  erewrite supply_lookup by apply lookup_insert_eq. simpl. rewrite Hsup. split_and!; done || lia.
Qed.

Definition w_issue : asset_issue_operation :=
  AssetIssueOperation (Asset 10 0) 100 (Asset 700 2) 101.

Example asset_issue_bounded_witness :
  ∃ d', asset_issue_do_apply w_issue () sample_db = Ok (d', void_result) ∧
    supply d' 2 = 400700 ∧ supply d' 2 ≤ GRAPHENE_MAX_SHARE_SUPPLY.
Proof.
  eexists. split; [vm_compute; reflexivity|].
  edestruct (asset_issue_bounded w_issue sample_db sample_db) as (E1 & E2 & _);
    [vm_compute; reflexivity | apply fee_frame_refl | vm_compute; reflexivity
    | vm_compute; reflexivity | vm_compute; reflexivity |].
  split; [exact E1 | exact E2].
Defined.
