(* ===== verification/LiquidityPool.v ===== *)
(** * Liquidity pools

    The six liquidity pool operations: libraries/protocol/liquidity_pool.cpp and
    libraries/chain/liquidity_pool_evaluator.cpp.  A pool holds two assets and issues a share
    asset; trades follow the constant-product rule with every division rounded in the pool's
    favour. *)
From S2P Require Import Prelude MachineInt Hardfork Asset Vesting ChainState Ledger CreditBooks Balance Fees Evaluator Sample.

(** [liquidity_pool_object::update_virtual_value], and the updates of balances. *)
Definition lp_with_balances (p : liquidity_pool_object) (a b : share_type) : liquidity_pool_object :=
  LiquidityPoolObject (lp_asset_a p) (lp_asset_b p) a b (lp_share_asset p) (lp_taker_fee_percent p)
    (lp_withdrawal_fee_percent p) (u128_mul (u128 a) (u128 b)).

Definition lp_with_fees (p : liquidity_pool_object) (taker withdrawal : Z) : liquidity_pool_object :=
  LiquidityPoolObject (lp_asset_a p) (lp_asset_b p) (lp_balance_a p) (lp_balance_b p)
    (lp_share_asset p) taker withdrawal (lp_virtual_value p).

Definition ao_with_pool (a : asset_object) (p : option Z) : asset_object :=
  AssetObject (ao_issuer a) (ao_options a) (ao_bitasset_data_id a) p.

Definition get_pool (d : database) (id : Z) := tbl_get (liquidity_pools d) id.

(** ** create *)
Record liquidity_pool_create_operation := LiquidityPoolCreateOperation {
  lpc_fee : asset;
  lpc_account : account_id_type;
  lpc_asset_a : asset_id_type;
  lpc_asset_b : asset_id_type;
  lpc_share_asset : asset_id_type;
  lpc_taker_fee_percent : Z;
  lpc_withdrawal_fee_percent : Z }.

Definition pool_create_validate (op : liquidity_pool_create_operation) : result unit :=
  FC_ASSERT (0 <=? amount (lpc_fee op)) "Fee should not be negative";;
  FC_ASSERT (lpc_asset_a op <? lpc_asset_b op)
    "ID of the first asset should be smaller than ID of the second asset";;
  FC_ASSERT (negb (lpc_asset_a op =? lpc_share_asset op) && negb (lpc_asset_b op =? lpc_share_asset op))
    "Share asset can not be the same as one of the assets in the pool";;
  FC_ASSERT (lpc_taker_fee_percent op <=? GRAPHENE_100_PERCENT)
    "Taker fee percent should not exceed 100%";;
  FC_ASSERT (lpc_withdrawal_fee_percent op <=? GRAPHENE_100_PERCENT)
    "Withdrawal fee percent should not exceed 100%".

Definition pool_create_do_evaluate (op : liquidity_pool_create_operation) (d : database)
    : result unit :=
  FC_ASSERT (HARDFORK_LIQUIDITY_POOL_PASSED (head_block_time d)) "Not allowed until the LP hardfork";;
  get_asset d (lpc_asset_a op);;
  get_asset d (lpc_asset_b op);;
  share_asset ← get_asset d (lpc_share_asset op);
  FC_ASSERT (ao_issuer share_asset =? lpc_account op)
    "Only the asset owner can set an asset as the share asset of a liquidity pool";;
  FC_ASSERT (negb (is_market_issued share_asset))
    "Can not specify a market-issued asset as the share asset of a liquidity pool";;
  FC_ASSERT (negb (is_liquidity_pool_share_asset share_asset))
    "The share asset is already bound to another liquidity pool";;
  dyn ← get_dynamic_data d (lpc_share_asset op);
  FC_ASSERT (current_supply dyn =? 0) "Current supply of the share asset needs to be zero".

Definition pool_create_do_apply (op : liquidity_pool_create_operation) (_ : unit) (d : database)
    : result (database * operation_result) :=
  '(id, t) ← tbl_create (LiquidityPoolObject (lpc_asset_a op) (lpc_asset_b op) 0 0
               (lpc_share_asset op) (lpc_taker_fee_percent op) (lpc_withdrawal_fee_percent op) 0)
               (liquidity_pools d);
  let d := set_liquidity_pools t d in
  d ← modify_asset (lpc_share_asset op) (λ ao, Ok (ao_with_pool ao (Some id))) d;
  Ok (d, generic_operation_result [(kind_liquidity_pool, id)]
           [(kind_asset, lpc_share_asset op)] []).

#[global] Instance pool_create_evaluator : Evaluator liquidity_pool_create_operation := {
  eval_ctx := unit;
  op_fee := lpc_fee;
  fee_payer := lpc_account;
  validate := pool_create_validate;
  do_evaluate := pool_create_do_evaluate;
  do_apply := pool_create_do_apply }.

(** ** delete *)
Record liquidity_pool_delete_operation := LiquidityPoolDeleteOperation {
  lpd_fee : asset;
  lpd_account : account_id_type;
  lpd_pool : Z }.

Definition pool_delete_validate (op : liquidity_pool_delete_operation) : result unit :=
  FC_ASSERT (0 <=? amount (lpd_fee op)) "Fee should not be negative".

Definition pool_delete_do_evaluate (op : liquidity_pool_delete_operation) (d : database)
    : result unit :=
  pool ← get_pool d (lpd_pool op);
  FC_ASSERT ((lp_balance_a pool =? 0) && (lp_balance_b pool =? 0)) "Can not delete a non-empty pool";;
  share_asset ← get_asset d (lp_share_asset pool);
  FC_ASSERT (ao_issuer share_asset =? lpd_account op) "The account is not the owner of the liquidity pool".

Definition pool_delete_do_apply (op : liquidity_pool_delete_operation) (_ : unit) (d : database)
    : result (database * operation_result) :=
  pool ← get_pool d (lpd_pool op);
  d ← modify_asset (lp_share_asset pool) (λ ao, Ok (ao_with_pool ao None)) d;
  t ← tbl_remove (lpd_pool op) (liquidity_pools d);
  Ok (set_liquidity_pools t d,
      generic_operation_result [] [(kind_asset, lp_share_asset pool)]
        [(kind_liquidity_pool, lpd_pool op)]).

#[global] Instance pool_delete_evaluator : Evaluator liquidity_pool_delete_operation := {
  eval_ctx := unit;
  op_fee := lpd_fee;
  fee_payer := lpd_account;
  validate := pool_delete_validate;
  do_evaluate := pool_delete_do_evaluate;
  do_apply := pool_delete_do_apply }.

(** ** update *)
Record liquidity_pool_update_operation := LiquidityPoolUpdateOperation {
  lpu_fee : asset;
  lpu_account : account_id_type;
  lpu_pool : Z;
  lpu_taker_fee_percent : option Z;
  lpu_withdrawal_fee_percent : option Z }.

Definition pool_update_validate (op : liquidity_pool_update_operation) : result unit :=
  FC_ASSERT (0 <=? amount (lpu_fee op)) "Fee should not be negative";;
  FC_ASSERT (bool_decide (is_Some (lpu_taker_fee_percent op))
             || bool_decide (is_Some (lpu_withdrawal_fee_percent op))) "Should update something";;
  match lpu_taker_fee_percent op with
  | Some p => FC_ASSERT (p <=? GRAPHENE_100_PERCENT) "Taker fee percent should not exceed 100%"
  | None => Ok ()
  end;;
  match lpu_withdrawal_fee_percent op with
  | Some p => FC_ASSERT (0 =? p) "Withdrawal fee percent can only be updated to zero"
  | None => Ok ()
  end.

Definition pool_update_do_evaluate (op : liquidity_pool_update_operation) (d : database)
    : result unit :=
  FC_ASSERT (HARDFORK_CORE_2604_PASSED (head_block_time d)) "Not allowed until the core-2604 hardfork";;
  pool ← get_pool d (lpu_pool op);
  share_asset ← get_asset d (lp_share_asset pool);
  FC_ASSERT (ao_issuer share_asset =? lpu_account op) "The account is not the owner of the liquidity pool";;
  match lpu_taker_fee_percent op with
  | Some _ =>
    FC_ASSERT ((0 =? lp_withdrawal_fee_percent pool)
               || bool_decide (lpu_withdrawal_fee_percent op = Some 0))
      "Taker fee percent can only be updated if withdrawal fee percent is zero or withdrawal fee percent is to be updated to zero at the same time"
  | None => Ok ()
  end.

Definition pool_update_do_apply (op : liquidity_pool_update_operation) (_ : unit) (d : database)
    : result (database * operation_result) :=
  t ← tbl_modify (lpu_pool op) (λ p, Ok (lp_with_fees p
        (default (lp_taker_fee_percent p) (lpu_taker_fee_percent op))
        (default (lp_withdrawal_fee_percent p) (lpu_withdrawal_fee_percent op))))
      (liquidity_pools d);
  Ok (set_liquidity_pools t d, void_result).

#[global] Instance pool_update_evaluator : Evaluator liquidity_pool_update_operation := {
  eval_ctx := unit;
  op_fee := lpu_fee;
  fee_payer := lpu_account;
  validate := pool_update_validate;
  do_evaluate := pool_update_do_evaluate;
  do_apply := pool_update_do_apply }.

(** ** deposit *)
Record liquidity_pool_deposit_operation := LiquidityPoolDepositOperation {
  lpp_fee : asset;
  lpp_account : account_id_type;
  lpp_pool : Z;
  lpp_amount_a : asset;
  lpp_amount_b : asset }.

Definition pool_deposit_validate (op : liquidity_pool_deposit_operation) : result unit :=
  FC_ASSERT (0 <=? amount (lpp_fee op)) "Fee should not be negative";;
  FC_ASSERT ((0 <? amount (lpp_amount_a op)) && (0 <? amount (lpp_amount_b op)))
    "Both amounts of the assets should be positive";;
  FC_ASSERT (asset_id (lpp_amount_a op) <? asset_id (lpp_amount_b op))
    "ID of the first asset should be smaller than ID of the second asset".

(** The members [_pool_receives_a], [_pool_receives_b] and [_account_receives]. *)
Record deposit_ctx := DepositCtx {
  dc_receives_a : asset; dc_receives_b : asset; dc_account_receives : asset }.

(** The amounts of a deposit into a pool that has shares outstanding. *)
Definition deposit_amounts (pool : liquidity_pool_object) (max_supply supply : share_type)
    (amount_a amount_b : share_type) : result deposit_ctx :=
  max_new_supply ← share_sub max_supply supply;
  let max128 := u128 max_new_supply in
  let supply128 := u128 supply in
  let new_supply_if_a := u128_div (u128_mul supply128 (u128 amount_a)) (lp_balance_a pool) in
  let new_supply_if_b := u128_div (u128_mul supply128 (u128 amount_b)) (lp_balance_b pool) in
  let new_supply := Z.min (Z.min new_supply_if_a new_supply_if_b) max128 in
  FC_ASSERT (0 <? new_supply) "Aborting due to zero outcome";;
  let a128 := u128_div (u128_sub (u128_add (u128_mul new_supply (u128 (lp_balance_a pool)))
                                           supply128) 1) supply128 in
  FC_ASSERT (a128 <=? u128 amount_a) "Internal error";;
  let b128 := u128_div (u128_sub (u128_add (u128_mul new_supply (u128 (lp_balance_b pool)))
                                           supply128) 1) supply128 in
  FC_ASSERT (b128 <=? u128 amount_b) "Internal error";;
  Ok (DepositCtx (Asset (to_int64 a128) (lp_asset_a pool)) (Asset (to_int64 b128) (lp_asset_b pool))
        (Asset (to_int64 new_supply) (lp_share_asset pool))).

Definition pool_deposit_do_evaluate (op : liquidity_pool_deposit_operation) (d : database)
    : result deposit_ctx :=
  pool ← get_pool d (lpp_pool op);
  FC_ASSERT (asset_id (lpp_amount_a op) =? lp_asset_a pool) "Asset type A mismatch";;
  FC_ASSERT (asset_id (lpp_amount_b op) =? lp_asset_b pool) "Asset type B mismatch";;
  FC_ASSERT (eqb (lp_balance_a pool =? 0) (lp_balance_b pool =? 0)) "Internal error";;
  share_asset ← get_asset d (lp_share_asset pool);
  FC_ASSERT (can_create_new_supply share_asset) "Can not create new supply for the share asset";;
  (if lp_balance_a pool =? 0 then
     FC_ASSERT (ao_issuer share_asset =? lpp_account op)
       "The initial deposit can only be done by the pool owner"
   else Ok ());;
  dyn ← get_dynamic_data d (lp_share_asset pool);
  FC_ASSERT (eqb (lp_balance_a pool =? 0) (current_supply dyn =? 0)) "Internal error";;
  FC_ASSERT (current_supply dyn <? max_supply (ao_options share_asset))
    "Can not create new supply for the share asset";;
  payer_authorized d (lpp_account op) (lp_share_asset pool) "The account is unauthorized by the share asset";;
  payer_authorized d (lpp_account op) (lp_asset_a pool) "The account is unauthorized by asset A";;
  payer_authorized d (lpp_account op) (lp_asset_b pool) "The account is unauthorized by asset B";;
  if lp_balance_a pool =? 0 then
    let share_amount := Z.max (amount (lpp_amount_a op)) (amount (lpp_amount_b op)) in
    FC_ASSERT (share_amount <=? max_supply (ao_options share_asset))
      "For initial deposit, each amount of the two assets in the pool should not be greater than the maximum supply of the share asset";;
    Ok (DepositCtx (lpp_amount_a op) (lpp_amount_b op) (Asset share_amount (lp_share_asset pool)))
  else
    deposit_amounts pool (max_supply (ao_options share_asset)) (current_supply dyn)
      (amount (lpp_amount_a op)) (amount (lpp_amount_b op)).

Definition pool_deposit_do_apply (op : liquidity_pool_deposit_operation) (ctx : deposit_ctx)
    (d : database) : result (database * operation_result) :=
  neg_a ← asset_neg (dc_receives_a ctx);
  d ← adjust_balance (lpp_account op) neg_a d;
  neg_b ← asset_neg (dc_receives_b ctx);
  d ← adjust_balance (lpp_account op) neg_b d;
  d ← adjust_balance (lpp_account op) (dc_account_receives ctx) d;
  t ← tbl_modify (lpp_pool op) (λ p,
        a ← share_add (lp_balance_a p) (amount (dc_receives_a ctx));
        b ← share_add (lp_balance_b p) (amount (dc_receives_b ctx));
        Ok (lp_with_balances p a b)) (liquidity_pools d);
  let d := set_liquidity_pools t d in
  pool ← get_pool d (lpp_pool op);
  d ← modify_dynamic_data (lp_share_asset pool) (λ s,
        v ← share_add (current_supply s) (amount (dc_account_receives ctx));
        Ok (dd_with_supply s v)) d;
  FC_ASSERT ((0 <? lp_balance_a pool) && (0 <? lp_balance_b pool)) "Internal error";;
  dyn ← get_dynamic_data d (lp_share_asset pool);
  FC_ASSERT (0 <? current_supply dyn) "Internal error";;
  Ok (d, generic_exchange_operation_result [dc_receives_a ctx; dc_receives_b ctx]
           [dc_account_receives ctx] []).

#[global] Instance pool_deposit_evaluator : Evaluator liquidity_pool_deposit_operation := {
  eval_ctx := deposit_ctx;
  op_fee := lpp_fee;
  fee_payer := lpp_account;
  validate := pool_deposit_validate;
  do_evaluate := pool_deposit_do_evaluate;
  do_apply := pool_deposit_do_apply }.

(** ** withdraw *)
Record liquidity_pool_withdraw_operation := LiquidityPoolWithdrawOperation {
  lpw_fee : asset;
  lpw_account : account_id_type;
  lpw_pool : Z;
  lpw_share_amount : asset }.

Definition pool_withdraw_validate (op : liquidity_pool_withdraw_operation) : result unit :=
  FC_ASSERT (0 <=? amount (lpw_fee op)) "Fee should not be negative";;
  FC_ASSERT (0 <? amount (lpw_share_amount op)) "Amount of the share asset should be positive".

(** [_pool_pays_a], [_pool_pays_b], [_fee_a], [_fee_b]. *)
Record withdraw_ctx := WithdrawCtx {
  wc_pays_a : asset; wc_pays_b : asset; wc_fee_a : asset; wc_fee_b : asset }.

(** One side of a partial withdrawal: what the pool pays and the fee it keeps. *)
Definition withdraw_side (share balance supply fee_percent : share_type) : result (Z * Z) :=
  let x128 := u128_div (u128_mul (u128 share) (u128 balance)) supply in
  FC_ASSERT (x128 <? u128 balance) "Internal error";;
  let fee := u128_div (u128_mul x128 fee_percent) GRAPHENE_100_PERCENT in
  FC_ASSERT (fee <=? x128) "Withdrawal fee percent of the pool is too high";;
  Ok (u128_sub x128 fee, fee).

Definition withdraw_amounts (pool : liquidity_pool_object) (supply share : share_type)
    : result withdraw_ctx :=
  if supply =? share then
    Ok (WithdrawCtx (Asset (lp_balance_a pool) (lp_asset_a pool))
          (Asset (lp_balance_b pool) (lp_asset_b pool))
          (Asset 0 (lp_asset_a pool)) (Asset 0 (lp_asset_b pool)))
  else
    '(a128, fee_a) ← withdraw_side share (lp_balance_a pool) supply (lp_withdrawal_fee_percent pool);
    '(b128, fee_b) ← withdraw_side share (lp_balance_b pool) supply (lp_withdrawal_fee_percent pool);
    FC_ASSERT ((0 <? a128) || (0 <? b128)) "Aborting due to zero outcome";;
    Ok (WithdrawCtx (Asset (to_int64 a128) (lp_asset_a pool)) (Asset (to_int64 b128) (lp_asset_b pool))
          (Asset (to_int64 fee_a) (lp_asset_a pool)) (Asset (to_int64 fee_b) (lp_asset_b pool))).

Definition pool_withdraw_do_evaluate (op : liquidity_pool_withdraw_operation) (d : database)
    : result withdraw_ctx :=
  pool ← get_pool d (lpw_pool op);
  FC_ASSERT (asset_id (lpw_share_amount op) =? lp_share_asset pool) "Share asset type mismatch";;
  FC_ASSERT ((0 <? lp_balance_a pool) && (0 <? lp_balance_b pool)) "The pool has not been initialized";;
  get_asset d (lp_share_asset pool);;
  payer_authorized d (lpw_account op) (lp_share_asset pool) "The account is unauthorized by the share asset";;
  payer_authorized d (lpw_account op) (lp_asset_a pool) "The account is unauthorized by asset A";;
  payer_authorized d (lpw_account op) (lp_asset_b pool) "The account is unauthorized by asset B";;
  dyn ← get_dynamic_data d (lp_share_asset pool);
  FC_ASSERT (amount (lpw_share_amount op) <=? current_supply dyn)
    "Can not withdraw an amount that is more than the current supply";;
  withdraw_amounts pool (current_supply dyn) (amount (lpw_share_amount op)).

Definition pool_withdraw_do_apply (op : liquidity_pool_withdraw_operation) (ctx : withdraw_ctx)
    (d : database) : result (database * operation_result) :=
  neg ← asset_neg (lpw_share_amount op);
  d ← adjust_balance (lpw_account op) neg d;
  d ← (if 0 <? amount (wc_pays_a ctx) then adjust_balance (lpw_account op) (wc_pays_a ctx) d else Ok d);
  d ← (if 0 <? amount (wc_pays_b ctx) then adjust_balance (lpw_account op) (wc_pays_b ctx) d else Ok d);
  pool ← get_pool d (lpw_pool op);
  d ← modify_dynamic_data (lp_share_asset pool) (λ s,
        v ← share_sub (current_supply s) (amount (lpw_share_amount op));
        Ok (dd_with_supply s v)) d;
  t ← tbl_modify (lpw_pool op) (λ p,
        a ← share_sub (lp_balance_a p) (amount (wc_pays_a ctx));
        b ← share_sub (lp_balance_b p) (amount (wc_pays_b ctx));
        Ok (lp_with_balances p a b)) (liquidity_pools d);
  let d := set_liquidity_pools t d in
  pool ← get_pool d (lpw_pool op);
  dyn ← get_dynamic_data d (lp_share_asset pool);
  FC_ASSERT (eqb (lp_balance_a pool =? 0) (lp_balance_b pool =? 0)) "Internal error";;
  FC_ASSERT (eqb (lp_balance_a pool =? 0) (current_supply dyn =? 0)) "Internal error";;
  Ok (d, generic_exchange_operation_result [lpw_share_amount op] [wc_pays_a ctx; wc_pays_b ctx]
           [wc_fee_a ctx; wc_fee_b ctx]).

#[global] Instance pool_withdraw_evaluator : Evaluator liquidity_pool_withdraw_operation := {
  eval_ctx := withdraw_ctx;
  op_fee := lpw_fee;
  fee_payer := lpw_account;
  validate := pool_withdraw_validate;
  do_evaluate := pool_withdraw_do_evaluate;
  do_apply := pool_withdraw_do_apply }.

(** ** exchange *)
Record liquidity_pool_exchange_operation := LiquidityPoolExchangeOperation {
  lpx_fee : asset;
  lpx_account : account_id_type;
  lpx_pool : Z;
  lpx_amount_to_sell : asset;
  lpx_min_to_receive : asset }.

Definition pool_exchange_validate (op : liquidity_pool_exchange_operation) : result unit :=
  FC_ASSERT (0 <=? amount (lpx_fee op)) "Fee should not be negative";;
  FC_ASSERT (0 <? amount (lpx_amount_to_sell op)) "Amount to sell should be positive";;
  FC_ASSERT (0 <? amount (lpx_min_to_receive op)) "Minimum amount to receive should be positive";;
  FC_ASSERT (negb (asset_id (lpx_amount_to_sell op) =? asset_id (lpx_min_to_receive op)))
    "ID of the two assets should not be the same".

(** The data members [do_apply] reads; the two assets by their ids. *)
Record exchange_ctx := ExchangeCtx {
  xc_receives_asset : asset_id_type;
  xc_pays_asset : asset_id_type;
  xc_maker_market_fee : asset;
  xc_taker_market_fee : asset;
  xc_pool_receives : asset;
  xc_pool_pays : asset;
  xc_account_receives : asset;
  xc_pool_taker_fee : asset }.

(** The market restrictions of asset [x] on trading against [y]. *)
Definition market_allowed (x : asset_object) (y : asset_id_type) : result unit :=
  (if bool_decide (whitelist_markets (ao_options x) = ∅) then Ok ()
   else FC_ASSERT (bool_decide (y ∈ whitelist_markets (ao_options x)))
          "The market has not been whitelisted");;
  (if bool_decide (blacklist_markets (ao_options x) = ∅) then Ok ()
   else FC_ASSERT (bool_decide (y ∉ blacklist_markets (ao_options x)))
          "The market has been blacklisted").

(** [delta]: what the other side of the pool gives up when this side grows by
    [pool_receives], the constant product rounded up. *)
Definition exchange_delta (virtual_value balance_in balance_out pool_receives : share_type)
    : result Z :=
  new_balance_in ← share_add balance_in pool_receives;
  let new_balance_out :=
    u128_div (u128_sub (u128_add virtual_value new_balance_in) 1) new_balance_in in
  FC_ASSERT (new_balance_out <=? balance_out) "Internal error";;
  Ok (u128_sub (u128 balance_out) new_balance_out).

Definition pool_exchange_do_evaluate (op : liquidity_pool_exchange_operation) (d : database)
    : result exchange_ctx :=
  let sell := lpx_amount_to_sell op in
  let min_id := asset_id (lpx_min_to_receive op) in
  pool ← get_pool d (lpx_pool op);
  FC_ASSERT ((0 <? lp_balance_a pool) && (0 <? lp_balance_b pool)) "The pool has not been initialized";;
  FC_ASSERT (((asset_id sell =? lp_asset_a pool) && (min_id =? lp_asset_b pool))
             || ((asset_id sell =? lp_asset_b pool) && (min_id =? lp_asset_a pool)))
    "Asset type mismatch";;
  asset_obj_a ← get_asset d (lp_asset_a pool);
  payer_authorized d (lpx_account op) (lp_asset_a pool) "The account is unauthorized by asset A";;
  asset_obj_b ← get_asset d (lp_asset_b pool);
  payer_authorized d (lpx_account op) (lp_asset_b pool) "The account is unauthorized by asset B";;
  (if HARDFORK_CORE_2350_PASSED (head_block_time d) then
     market_allowed asset_obj_a (lp_asset_b pool);; market_allowed asset_obj_b (lp_asset_a pool)
   else Ok ());;
  let sells_a := asset_id sell =? lp_asset_a pool in
  let receives_asset := if sells_a then lp_asset_a pool else lp_asset_b pool in
  let receives_obj := if sells_a then asset_obj_a else asset_obj_b in
  let pays_asset := if sells_a then lp_asset_b pool else lp_asset_a pool in
  let pays_obj := if sells_a then asset_obj_b else asset_obj_a in
  maker_market_fee ← calculate_market_fee receives_asset receives_obj sell true;
  lt ← asset_lt maker_market_fee sell;
  FC_ASSERT lt "Aborting since the maker market fee of the selling asset is too high";;
  pool_receives ← asset_sub sell maker_market_fee;
  delta ← (if sells_a then exchange_delta (lp_virtual_value pool) (lp_balance_a pool)
                             (lp_balance_b pool) (amount pool_receives)
           else exchange_delta (lp_virtual_value pool) (lp_balance_b pool)
                  (lp_balance_a pool) (amount pool_receives));
  let pool_taker_fee := u128_div (u128_mul delta (lp_taker_fee_percent pool)) GRAPHENE_100_PERCENT in
  FC_ASSERT (pool_taker_fee <=? delta) "Taker fee percent of the pool is too high";;
  let pool_pays := Asset (to_int64 (u128_sub delta pool_taker_fee)) min_id in
  taker_market_fee ← calculate_market_fee pays_asset pays_obj pool_pays false;
  le ← asset_le taker_market_fee pool_pays;
  FC_ASSERT le "Market fee should not be greater than the amount to receive";;
  account_receives ← asset_sub pool_pays taker_market_fee;
  GRAPHENE_ASSERT (amount (lpx_min_to_receive op) <=? amount account_receives)
    "liquidity_pool_exchange_unfillable_price";;
  Ok (ExchangeCtx receives_asset pays_asset maker_market_fee taker_market_fee pool_receives
        pool_pays account_receives (Asset (to_int64 pool_taker_fee) min_id)).

(** The balances after the trade. *)
Definition pool_trade (sells_a : bool) (receives pays : share_type) (p : liquidity_pool_object)
    : result liquidity_pool_object :=
  if sells_a then
    a ← share_add (lp_balance_a p) receives;
    b ← share_sub (lp_balance_b p) pays;
    Ok (lp_with_balances p a b)
  else
    b ← share_add (lp_balance_b p) receives;
    a ← share_sub (lp_balance_a p) pays;
    Ok (lp_with_balances p a b).

Definition pool_exchange_do_apply (op : liquidity_pool_exchange_operation) (ctx : exchange_ctx)
    (d : database) : result (database * operation_result) :=
  let sell := lpx_amount_to_sell op in
  neg ← asset_neg sell;
  d ← adjust_balance (lpx_account op) neg d;
  d ← adjust_balance (lpx_account op) (xc_account_receives ctx) d;
  pool ← get_pool d (lpx_pool op);
  share_asset ← get_asset d (lp_share_asset pool);
  get_account d (ao_issuer share_asset);;
  '(d, _) ← pay_market_fees (Some (ao_issuer share_asset)) (xc_receives_asset ctx) sell true
              (Some (xc_maker_market_fee ctx)) d;
  '(d, _) ← pay_market_fees (Some (lpx_account op)) (xc_pays_asset ctx) (xc_pool_pays ctx) false
              (Some (xc_taker_market_fee ctx)) d;
  let old_virtual_value := lp_virtual_value pool in
  t ← tbl_modify (lpx_pool op)
        (pool_trade (asset_id sell =? lp_asset_a pool) (amount (xc_pool_receives ctx))
           (amount (xc_pool_pays ctx))) (liquidity_pools d);
  let d := set_liquidity_pools t d in
  pool' ← get_pool d (lpx_pool op);
  FC_ASSERT ((0 <? lp_balance_a pool') && (0 <? lp_balance_b pool')) "Internal error";;
  FC_ASSERT (old_virtual_value <=? lp_virtual_value pool') "Internal error";;
  Ok (d, generic_exchange_operation_result [sell] [xc_account_receives ctx]
           [xc_maker_market_fee ctx; xc_taker_market_fee ctx; xc_pool_taker_fee ctx]).

#[global] Instance pool_exchange_evaluator : Evaluator liquidity_pool_exchange_operation := {
  eval_ctx := exchange_ctx;
  op_fee := lpx_fee;
  fee_payer := lpx_account;
  validate := pool_exchange_validate;
  do_evaluate := pool_exchange_do_evaluate;
  do_apply := pool_exchange_do_apply }.

(** ** Conservation *)

Lemma pools_modify_moves d id m t :
  tbl_modify id m (liquidity_pools d) = Ok t →
  ∃ p p', rows (liquidity_pools d) !! id = Some p ∧ m p = Ok p' ∧ rows t !! id = Some p' ∧
    ((pool_ok p → pool_ok p') →
     moves d (set_liquidity_pools t d) (λ a, held p' a - held p a)).
Proof.
  intros H. pose proof H as (p & p' & Hp & Hm & Hp' & E)%tbl_held_modify.
  exists p, p'. split_and!; [done..|]. intros HP. apply moves_liquidity_pools; [done|].
  intros Hok. eapply rows_ok_modify; [exact H| |apply Hok]. intros v v' Hv Hv'.
  rewrite Hp in Hv. injection Hv as <-. rewrite Hm in Hv'. by injection Hv' as <-.
Qed.

(** The books of a pool after its balances changed. *)
Lemma lp_with_balances_ok p a b :
  is_share a → is_share b → 0 ≤ a → 0 ≤ b → (a = 0 ↔ b = 0) → pool_ok (lp_with_balances p a b).
Proof.
  intros. split; simpl; try done. by rewrite !u128_share, u128_mul_share by done.
Qed.

#[global] Instance pool_create_laws : EvaluatorLaws liquidity_pool_create_operation.
Proof.
  split; [|credit_same].
  intros op d0 ctx d d' r _ _ _ _ H. apply bind_Ok in H as ([id t] & H1 & H).
  apply bind_Ok in H as (d1 & M2%modify_asset_moves & E); [|by intros ? ? [= <-]].
  injection E as <- <-.
  assert (conserves d (set_liquidity_pools t d)) as M1.
  { apply moves_liquidity_pools.
    - intros a. rewrite (tbl_held_create _ _ _ _ a H1).
      unfold held, liquidity_pool_holding; simpl. amt_solve.
    - intros Hok. eapply rows_ok_create; [exact H1| |apply Hok]. by split. }
  by etrans.
Qed.

#[global] Instance pool_delete_laws : EvaluatorLaws liquidity_pool_delete_operation.
Proof.
  split; [|credit_same].
  intros op d0 ctx d d' r _ _ He F H. cbn in He, H. unfold pool_delete_do_evaluate in He.
  apply bind_Ok in He as (p0 & Hp0%tbl_get_Ok & He). apply bind_Ok in He as ([] & Hz & _).
  apply bind_Ok in H as (p & Hp & H). apply bind_Ok in H as (d1 & H1 & H).
  pose proof H1 as M1%modify_asset_moves; [|by intros ? ? [= <-]]. apply modify_asset_Ok in H1 as (? & ? & _ & _ & ->).
  apply bind_Ok in H as (t & Ht & E). injection E as <- <-. simpl in Ht.
  rewrite (fee_frame_pools _ _ F) in Ht. inv_ok. propify.
  transitivity (set_assets (<[lp_share_asset p := x0]> (assets d)) d); [done|].
  apply moves_liquidity_pools; simpl; [rewrite (fee_frame_pools _ _ F)|].
  2:{ intros Hr%ok_pools. simpl in Hr. rewrite (fee_frame_pools _ _ F) in Hr.
      by eapply rows_ok_remove. }
  intros a. rewrite (tbl_held_remove _ _ _ _ a Hp0 Ht).
  unfold held, liquidity_pool_holding. simplify_eq/=.
  replace (lp_balance_a p0) with 0; replace (lp_balance_b p0) with 0. amt_solve.
Qed.

#[global] Instance pool_update_laws : EvaluatorLaws liquidity_pool_update_operation.
Proof.
  split; [|credit_same].
  intros op d0 ctx d d' r _ _ _ _ H. apply bind_Ok in H as (t & H & E). injection E as <- <-.
  apply pools_modify_moves in H as (p & p' & _ & E & _ & M). injection E as <-.
  eapply moves_ext; [apply M; intros []; by split|].
  intros a. unfold held, liquidity_pool_holding; simpl. lia.
Qed.

(** The fields of a pool a deposit, withdrawal or exchange leaves alone. *)
Lemma lp_with_balances_held p a b x :
  held (lp_with_balances p a b) x =
    held p x + (amt (lp_asset_a p) (a - lp_balance_a p) x + amt (lp_asset_b p) (b - lp_balance_b p) x).
Proof. unfold held, liquidity_pool_holding; simpl. amt_solve. Qed.

Lemma adjust_balance_pools account delta d d' :
  adjust_balance account delta d = Ok d' → liquidity_pools d' = liquidity_pools d.
Proof. by intros [m ->]%adjust_balance_frame. Qed.

Lemma deposit_amounts_ids pool m s a b ctx :
  deposit_amounts pool m s a b = Ok ctx →
  asset_id (dc_receives_a ctx) = lp_asset_a pool ∧ asset_id (dc_receives_b ctx) = lp_asset_b pool ∧
  asset_id (dc_account_receives ctx) = lp_share_asset pool.
Proof. unfold deposit_amounts. intros. by inv_ok. Qed.

Lemma pool_deposit_ids op d ctx :
  pool_deposit_do_evaluate op d = Ok ctx →
  ∃ pool, rows (liquidity_pools d) !! lpp_pool op = Some pool ∧
  asset_id (dc_receives_a ctx) = lp_asset_a pool ∧ asset_id (dc_receives_b ctx) = lp_asset_b pool ∧
  asset_id (dc_account_receives ctx) = lp_share_asset pool.
Proof.
  unfold pool_deposit_do_evaluate. intros H. apply bind_Ok in H as (pool & Hp%tbl_get_Ok & H).
  exists pool. split; [done|]. repeat (apply bind_Ok in H as (? & ? & H)).
  inv_ok; propify; try done; by eapply deposit_amounts_ids.
Qed.

#[global] Instance pool_deposit_laws : EvaluatorLaws liquidity_pool_deposit_operation.
Proof.
  split; [|credit_same].
  intros op d0 ctx d d' r _ _ He F H. cbn in He, H.
  apply pool_deposit_ids in He as (pool & Hpool & Ha & Hb & Hs).
  unfold pool_deposit_do_apply in H.
  apply bind_Ok in H as (na & Hna & H). apply bind_Ok in H as (d1 & H1 & H).
  apply bind_Ok in H as (nb & Hnb & H). apply bind_Ok in H as (d2 & H2 & H).
  apply bind_Ok in H as (d3 & H3 & H). apply bind_Ok in H as (t & Ht & H).
  apply bind_Ok in H as (pool' & Hpool' & H). apply bind_Ok in H as (d4 & H4 & H).
  apply bind_Ok in H as ([] & Hpos%FC_ASSERT_Ok & H). repeat (apply bind_Ok in H as (? & _ & H)). injection H as <- <-.
  apply pools_modify_moves in Ht as (p & p' & Hp & Hp' & Hl & M5).
  rewrite (adjust_balance_pools _ _ _ _ H3), (adjust_balance_pools _ _ _ _ H2),
    (adjust_balance_pools _ _ _ _ H1), (fee_frame_pools _ _ F) in Hp.
  apply tbl_get_Ok in Hpool'. apply adjust_balance_moves in H1, H2, H3. inv_asset.
  simplify_eq. inv_ok. inv_share. subst. simpl in Hpos. propify.
  apply modify_dynamic_data_moves in H4 as (s & s' & _ & Hs' & M4). inv_ok. inv_share. subst.
  eapply moves_ext; [do 4 (eapply moves_trans; [|eassumption || (apply M5; intros _; apply lp_with_balances_ok; (done || lia))]);
    eassumption|].
  intros i. unfold dd_delta, dd_held; simpl. rewrite lp_with_balances_held, Ha, Hb, Hs. amt_solve.
Qed.

(** A partial withdrawal pays at most the proportional part of a side, less the fee. *)
Lemma withdraw_side_Ok share balance supply percent x fee :
  0 < balance → is_share balance → withdraw_side share balance supply percent = Ok (x, fee) →
  0 ≤ x ∧ 0 ≤ fee ∧ x + fee < balance ∧
  x + fee = u128_div (u128_mul (u128 share) (u128 balance)) supply.
Proof.
  intros Hpos Hs H. unfold withdraw_side in H. inv_ok. propify.
  rewrite (u128_share balance) in * by (done || lia).
  set (q := u128_div (u128_mul (u128 share) balance) supply) in *.
  set (f := u128_div (u128_mul q percent) GRAPHENE_100_PERCENT) in *.
  assert (0 ≤ f) by (apply Z.div_pos; [apply u128_range|done]).
  unfold is_share, INT64_MAX in Hs. unfold u128_sub. rewrite u128_small; [lia|].
  unfold UINT128_MOD. lia.
Qed.

Lemma pool_withdraw_ctx op d ctx :
  books_ok d → pool_withdraw_do_evaluate op d = Ok ctx →
  ∃ pool, rows (liquidity_pools d) !! lpw_pool op = Some pool ∧
  asset_id (lpw_share_amount op) = lp_share_asset pool ∧
  asset_id (wc_pays_a ctx) = lp_asset_a pool ∧ asset_id (wc_pays_b ctx) = lp_asset_b pool ∧
  0 ≤ amount (wc_pays_a ctx) ≤ lp_balance_a pool ∧ 0 ≤ amount (wc_pays_b ctx) ≤ lp_balance_b pool.
Proof.
  unfold pool_withdraw_do_evaluate. intros Hok H. apply bind_Ok in H as (pool & Hp%tbl_get_Ok & H).
  exists pool. split; [done|]. destruct (ok_pools _ Hok _ _ Hp) as [Ta Tb _ _ _].
  repeat (apply bind_Ok in H as (? & ? & H)). unfold withdraw_amounts in H. inv_ok; propify.
  { split_and!; simpl; done || lia. }
  repeat match goal with Hw : withdraw_side _ _ _ _ = Ok _ |- _ =>
    apply withdraw_side_Ok in Hw as (? & ? & ? & _); [|done|done] end.
  unfold is_share, INT64_MIN, INT64_MAX in *.
  split_and!; simpl; rewrite ?to_int64_small by (unfold is_share, INT64_MIN, INT64_MAX; lia);
    done || lia.
Qed.

Lemma eqb_zero_iff x y : eqb (x =? 0) (y =? 0) = true → (x = 0 ↔ y = 0).
Proof. intros H%eqb_prop. destruct (Z.eqb_spec x 0), (Z.eqb_spec y 0); naive_solver. Qed.

#[global] Instance pool_withdraw_laws : EvaluatorLaws liquidity_pool_withdraw_operation.
Proof.
  split; [|credit_same].
  intros op d0 ctx d d' r Hok _ He F H. cbn in He, H.
  apply pool_withdraw_ctx in He as (pool & Hpool & Hs & Ha & Hb & Hpa & Hpb); [|apply Hok].
  unfold pool_withdraw_do_apply in H.
  apply bind_Ok in H as (neg & Hneg & H). apply bind_Ok in H as (d1 & H1 & H).
  apply bind_Ok in H as (d2 & H2 & H). apply bind_Ok in H as (d3 & H3 & H).
  apply bind_Ok in H as (q & Hq & H). apply bind_Ok in H as (d4 & H4 & H).
  apply bind_Ok in H as (t & Ht & H). apply bind_Ok in H as (q' & Hq' & H).
  apply bind_Ok in H as (? & _ & H). apply bind_Ok in H as ([] & Hz%FC_ASSERT_Ok & H).
  apply bind_Ok in H as (? & _ & H).
  injection H as <- <-.
  assert (∀ x e e', (if 0 <? amount x then adjust_balance (lpw_account op) x e else Ok e) = Ok e' →
    0 ≤ amount x → moves e e' (amt (asset_id x) (amount x)) ∧ liquidity_pools e' = liquidity_pools e)
    as Hpay.
  { intros x3 e e' He Hx. destruct (Z.ltb_spec 0 (amount x3)).
    - split; [by eapply adjust_balance_moves|by eapply adjust_balance_pools].
    - injection He as <-. split; [|done]. eapply moves_ext; [apply moves_refl|].
      intros i. replace (amount x3) with 0 by lia. amt_solve. }
  apply Hpay in H2 as [M2 E2]; [|lia]. apply Hpay in H3 as [M3 E3]; [|lia].
  pose proof H4 as (s & s' & _ & Hs' & M4)%modify_dynamic_data_moves.
  apply modify_dynamic_data_Ok in H4 as (? & ? & _ & _ & E4).
  apply pools_modify_moves in Ht as (p & p' & Hp & Hp' & Hl & M5).
  assert (liquidity_pools d4 = liquidity_pools d3) as E4' by (by rewrite E4).
  rewrite E4', E3, E2, (adjust_balance_pools _ _ _ _ H1), (fee_frame_pools _ _ F) in Hp.
  apply tbl_get_Ok in Hq. rewrite E3, E2, (adjust_balance_pools _ _ _ _ H1), (fee_frame_pools _ _ F) in Hq.
  clear E4. apply tbl_get_Ok in Hq'. simpl in Hq'. apply eqb_zero_iff in Hz.
  apply adjust_balance_moves in H1. inv_asset. simplify_eq. inv_ok. inv_share. subst.
  eapply moves_ext; [do 4 (eapply moves_trans; [|eassumption || (apply M5; intros _; apply lp_with_balances_ok; (done || lia))]);
    eassumption|].
  intros i. unfold dd_delta, dd_held; simpl. rewrite lp_with_balances_held, Ha, Hb, Hs. amt_solve.
Qed.

Lemma calculate_market_fee_nonneg i obj x maker fee :
  options_ok obj → calculate_market_fee i obj x maker = Ok fee → asset_id fee = i ∧ 0 ≤ amount fee.
Proof.
  unfold options_ok, calculate_market_fee. intros Hm H. repeat case_match; inv_ok; simpl;
    try (split; [done|lia]); split; try done;
    match goal with Hc : calculate_percent _ _ = Ok _ |- _ => apply calculate_percent_nonneg in Hc end;
    case_match; lia.
Qed.

(** What [do_evaluate] of an exchange establishes for [do_apply]. *)
Record exchange_ok (op : liquidity_pool_exchange_operation) (pool : liquidity_pool_object)
    (ctx : exchange_ctx) : Prop := {
  xo_sides : (asset_id (lpx_amount_to_sell op) = lp_asset_a pool ∧
                xc_receives_asset ctx = lp_asset_a pool ∧ xc_pays_asset ctx = lp_asset_b pool) ∨
             (asset_id (lpx_amount_to_sell op) = lp_asset_b pool ∧
                asset_id (lpx_amount_to_sell op) ≠ lp_asset_a pool ∧
                xc_receives_asset ctx = lp_asset_b pool ∧ xc_pays_asset ctx = lp_asset_a pool);
  xo_maker : 0 ≤ amount (xc_maker_market_fee ctx) ∧
             asset_id (lpx_amount_to_sell op) = xc_receives_asset ctx;
  xo_taker : 0 ≤ amount (xc_taker_market_fee ctx) ∧ asset_id (xc_pool_pays ctx) = xc_pays_asset ctx;
  xo_receives : xc_pool_receives ctx =
    Asset (amount (lpx_amount_to_sell op) - amount (xc_maker_market_fee ctx))
          (asset_id (lpx_amount_to_sell op));
  xo_account : xc_account_receives ctx =
    Asset (amount (xc_pool_pays ctx) - amount (xc_taker_market_fee ctx))
          (asset_id (xc_pool_pays ctx));
  xo_min : amount (lpx_min_to_receive op) ≤ amount (xc_account_receives ctx);
  xo_positive : 0 < amount (xc_pool_receives ctx);
  xo_delta : ∃ delta,
    (if asset_id (lpx_amount_to_sell op) =? lp_asset_a pool
     then exchange_delta (lp_virtual_value pool) (lp_balance_a pool) (lp_balance_b pool)
            (amount (xc_pool_receives ctx))
     else exchange_delta (lp_virtual_value pool) (lp_balance_b pool) (lp_balance_a pool)
            (amount (xc_pool_receives ctx))) = Ok delta ∧
    amount (xc_pool_pays ctx) = to_int64 (u128_sub delta
      (u128_div (u128_mul delta (lp_taker_fee_percent pool)) GRAPHENE_100_PERCENT)) }.

Lemma pool_exchange_ctx op d ctx :
  books_ok d → pool_exchange_do_evaluate op d = Ok ctx →
  ∃ pool, rows (liquidity_pools d) !! lpx_pool op = Some pool ∧ exchange_ok op pool ctx.
Proof.
  unfold pool_exchange_do_evaluate. intros Hok H. apply bind_Ok in H as (pool & Hp%tbl_get_Ok & H).
  exists pool. split; [done|]. apply bind_Ok in H as ([] & _ & H).
  apply bind_Ok in H as ([] & Hside & H). apply FC_ASSERT_Ok in Hside.
  apply bind_Ok in H as (oa & Hoa%find_object_Ok & H). apply bind_Ok in H as ([] & _ & H).
  apply bind_Ok in H as (ob & Hob%find_object_Ok & H). apply bind_Ok in H as ([] & _ & H).
  apply bind_Ok in H as ([] & _ & H).
  apply (ok_assets _ Hok) in Hoa, Hob.
  set (sells_a := asset_id (lpx_amount_to_sell op) =? lp_asset_a pool) in *.
  apply bind_Ok in H as (mf & Hmf & H). apply calculate_market_fee_nonneg in Hmf as [Em Hm];
    [|by destruct sells_a].
  apply bind_Ok in H as (lt & Hlt & H). apply bind_Ok in H as ([] & Hltb%FC_ASSERT_Ok & H).
  apply bind_Ok in H as (pr & Hpr & H). apply bind_Ok in H as (delta & Hdelta & H).
  apply bind_Ok in H as ([] & _ & H).
  apply bind_Ok in H as (tf & Htf & H). apply calculate_market_fee_nonneg in Htf as [Et Ht];
    [|by destruct sells_a].
  apply bind_Ok in H as (le & Hle & H). apply bind_Ok in H as ([] & _ & H).
  apply bind_Ok in H as (ar & Har & H). apply bind_Ok in H as ([] & Hmin%GRAPHENE_ASSERT_Ok & H).
  injection H as <-.
  inv_asset. propify. split; simpl; [..|by exists delta]; clear Hdelta; try done; try lia;
    unfold sells_a in *; destruct (Z.eqb_spec (asset_id (lpx_amount_to_sell op)) (lp_asset_a pool));
    propify; destruct Hside; propify; simpl in *; propify; auto; try congruence;
    split; congruence.
Qed.

Lemma pay_market_fees_given seller i x maker f d d' fee :
  pay_market_fees seller i x maker (Some f) d = Ok (d', fee) → 0 ≤ amount f →
  moves d d' (amt i (amount f)) ∧ ∃ t m, d' = set_dynamic_data m (set_vesting_balances t d).
Proof.
  intros H Hf. assert (fee = f) as ->.
  { unfold pay_market_fees in H. apply bind_Ok in H as (? & _ & H).
    apply bind_Ok in H as (mf & [= <-] & H). apply bind_Ok in H as (? & _ & H).
    apply bind_Ok in H as ([] & _ & H). apply bind_Ok in H as ([? ?] & _ & H).
    apply bind_Ok in H as (? & _ & H). by injection H. }
  apply pay_market_fees_moves in H as (_ & _ & _ & M & ?); by auto.
Qed.

(** A trade adds what the pool receives to the side sold and takes what it pays from the other. *)
Lemma pool_trade_Ok (sells_a : bool) receives pays p p' :
  pool_trade sells_a receives pays p = Ok p' →
  (0 < lp_balance_a p' → 0 < lp_balance_b p' → pool_ok p') ∧
  p' = if sells_a then lp_with_balances p (lp_balance_a p + receives) (lp_balance_b p - pays)
       else lp_with_balances p (lp_balance_a p - pays) (lp_balance_b p + receives).
Proof.
  unfold pool_trade. intros. case_match; inv_ok; inv_share; subst; (split; [|done]);
    intros; apply lp_with_balances_ok; simpl in *; (done || lia).
Qed.

Lemma pool_exchange_credit op d0 ctx d d' r :
  chain_ok d0 → pool_exchange_validate op = Ok () → pool_exchange_do_evaluate op d0 = Ok ctx →
  fee_frame d0 d → pool_exchange_do_apply op ctx d = Ok (d', r) → credit_ok d'.
Proof.
  intros Hok _ He F H. pose proof (fee_frame_credit _ _ F Hok) as Hc.
  apply pool_exchange_ctx in He as (pool & _ & X); [|apply Hok]. destruct X as [_ [Xm _] [Xt _] _ _ _ _ _].
  unfold pool_exchange_do_apply in H. inv_ok. repeat frame_step.
  match goal with H1 : pay_market_fees _ _ _ _ _ _ = Ok (?a, _), H2 : pay_market_fees _ _ _ _ _ ?a = _ |- _ =>
    apply pay_market_fees_given in H1 as (_ & ? & ? & ->), H2 as (_ & ? & ? & ->) end; [|done..].
  exact Hc.
Qed.

#[global] Instance pool_exchange_laws : EvaluatorLaws liquidity_pool_exchange_operation.
Proof.
  split; [|exact pool_exchange_credit].
  intros op d0 ctx d d' r Hok _ He F H. cbn in He, H.
  apply pool_exchange_ctx in He as (pool & Hpool & X); [|apply Hok]. unfold pool_exchange_do_apply in H.
  apply bind_Ok in H as (neg & Hneg & H). apply bind_Ok in H as (d1 & H1 & H).
  apply bind_Ok in H as (d2 & H2 & H). apply bind_Ok in H as (q & Hq%tbl_get_Ok & H).
  apply bind_Ok in H as (sa & _ & H). apply bind_Ok in H as (iss & _ & H).
  apply bind_Ok in H as ([d3 ?] & H3 & H). apply bind_Ok in H as ([d4 ?] & H4 & H).
  apply bind_Ok in H as (t & Ht & H). apply bind_Ok in H as (q' & Hq'%tbl_get_Ok & H).
  apply bind_Ok in H as ([] & Hpos%FC_ASSERT_Ok & H). apply bind_Ok in H as (? & _ & H).
  injection H as <- <-. destruct X as [Xs [Xm Xm'] [Xt Xt'] Xr Xa _ _ _].
  apply pools_modify_moves in Ht as (p & p' & Hp & Hp' & Hl & M5). simpl in Hq'.
  apply pay_market_fees_given in H3 as (M3 & ? & ? & ->), H4 as (M4 & ? & ? & ->); [|done..].
  simpl in Hp. rewrite (adjust_balance_pools _ _ _ _ H2),
    (adjust_balance_pools _ _ _ _ H1), (fee_frame_pools _ _ F) in Hp, Hq.
  apply adjust_balance_moves in H1, H2. inv_asset. simplify_eq. propify.
  apply pool_trade_Ok in Hp' as [Ty Hp']. rewrite Xr, Xa in *. simpl in *.
  eapply moves_ext; [do 4 (eapply moves_trans; [|eassumption || (apply M5; by auto)]); eassumption|].
  intros i. rewrite Hp'. destruct Xs as [(E & Er & Ep)|(E & En & Er & Ep)];
    [rewrite (proj2 (Z.eqb_eq _ _) E)|rewrite (proj2 (Z.eqb_neq _ _) En)];
    rewrite lp_with_balances_held, Xt', Er, Ep, E; amt_solve.
Qed.
