(* ===== verification/PoolTheorems.v ===== *)
(** * The economics of a liquidity pool

    The rounding rules of deposits, withdrawals and exchanges on a well-formed pool: the
    product of the balances never falls in a trade, share holders are never diluted, and the
    code's "Internal error" assertions cannot fire. *)
From S2P Require Import Prelude MachineInt Hardfork Asset Vesting ChainState Ledger CreditBooks Balance Fees Evaluator Sample LiquidityPool.

(** A pool that has been initialised: its books in order, both balances positive, the
    percentages those [validate] lets through. *)
Record pool_wf (p : liquidity_pool_object) : Prop := {
  wf_ok : pool_ok p;
  wf_a : 0 < lp_balance_a p;
  wf_b : 0 < lp_balance_b p;
  wf_taker : 0 ≤ lp_taker_fee_percent p ≤ GRAPHENE_100_PERCENT;
  wf_withdrawal : 0 ≤ lp_withdrawal_fee_percent p ≤ GRAPHENE_100_PERCENT }.

(** A percentage of an amount, as the code computes it in 128 bits, lies between zero and
    the amount. *)
Lemma u128_percent_bounds x percent :
  0 ≤ x ≤ INT64_MAX → 0 ≤ percent ≤ GRAPHENE_100_PERCENT →
  0 ≤ u128_div (u128_mul x percent) GRAPHENE_100_PERCENT ≤ x.
Proof.
  unfold GRAPHENE_100_PERCENT, INT64_MAX. intros Hx Hp. unfold u128_mul, u128_div.
  rewrite u128_small by (unfold UINT128_MOD; nia).
  split; [apply Z.div_pos; nia|]. apply Z.div_le_upper_bound; nia.
Qed.

(** The code's round-up idiom on a product of two nonnegative shares. *)
Lemma u128_mul_div_up n b s :
  is_share n → is_share b → is_share s → 0 ≤ n → 0 ≤ b → 0 < s →
  u128_div (u128_sub (u128_add (u128_mul n b) s) 1) s = div_up (n * b) s.
Proof.
  intros. rewrite u128_mul_share by done. apply u128_div_up_small; [lia|nia|].
  unfold is_share, INT64_MAX, UINT128_MOD in *. nia.
Qed.

(** ** Exchange *)

Lemma exchange_delta_spec a b r :
  is_share a → is_share b → is_share (a + r) → 0 < a → 0 < b → 0 ≤ r →
  ∃ delta, exchange_delta (a * b) a b r = Ok delta ∧ 0 ≤ delta < b ∧
    a * b ≤ (a + r) * (b - delta) < a * b + (a + r).
Proof.
  intros Ta Tb Tr Ha Hb Hr. exists (b - div_up (a * b) (a + r)).
  assert (0 < div_up (a * b) (a + r)) by (apply div_up_pos; nia).
  assert (div_up (a * b) (a + r) ≤ b) by (apply div_up_le; nia).
  pose proof (div_up_spec (a * b) (a + r) ltac:(lia)).
  split; [|split; [lia|nia]]. unfold exchange_delta.
  rewrite share_add_ok; [|done|unfold is_share, INT64_MIN, INT64_MAX in *; lia|done]. simpl.
  rewrite u128_div_up_small; [|lia|nia|unfold is_share, INT64_MAX, UINT128_MOD in *; nia].
  rewrite (proj2 (Z.leb_le _ _)) by done. simpl.
  rewrite (u128_share b) by (done || lia). unfold u128_sub. rewrite u128_small; [done|].
  unfold is_share, INT64_MAX, UINT128_MOD in *. lia.
Qed.

(** What the pool pays is the part of [delta] left after its taker fee. *)
Lemma pool_pays_bounds delta percent b :
  is_share b → 0 ≤ delta < b → 0 ≤ percent ≤ GRAPHENE_100_PERCENT →
  0 ≤ to_int64 (u128_sub delta (u128_div (u128_mul delta percent) GRAPHENE_100_PERCENT)) ≤ delta.
Proof.
  intros Tb Hd Hp. pose proof (u128_percent_bounds delta percent) as Hf.
  unfold is_share, INT64_MIN, INT64_MAX in *. unfold u128_sub.
  rewrite u128_small by (unfold UINT128_MOD; lia).
  rewrite to_int64_small by (unfold is_share, INT64_MIN, INT64_MAX; lia). lia.
Qed.

(** The balances a trade computes keep a pool well formed and never lower its product. *)
Lemma pool_trade_wf (sells_a : bool) p receives pays delta :
  pool_wf p → 0 ≤ receives → 0 ≤ pays ≤ delta →
  (if sells_a then exchange_delta (lp_virtual_value p) (lp_balance_a p) (lp_balance_b p) receives
   else exchange_delta (lp_virtual_value p) (lp_balance_b p) (lp_balance_a p) receives) = Ok delta →
  ∃ p', pool_trade sells_a receives pays p = Ok p' ∧ pool_wf p' ∧
        lp_virtual_value p ≤ lp_virtual_value p'.
Proof.
  intros [[Ta Tb _ _ Hv] Ha Hb Ht Hw] Hr Hp Hd.
  assert (Hsum : ∀ x y v, exchange_delta v x y receives = Ok delta → is_share (x + receives)).
  { intros x y v H. unfold exchange_delta in H. apply bind_Ok in H as (? & H & _).
    by inv_share; subst. }
  assert (Hmain : ∀ x y, is_share x → is_share y → 0 < x → 0 < y →
    exchange_delta (x * y) x y receives = Ok delta →
    is_share receives ∧ is_share pays ∧ is_share (x + receives) ∧ is_share (y - pays) ∧
    0 < y - pays ∧ x * y ≤ (x + receives) * (y - pays)).
  { intros x y Tx Ty Hx Hy Hxy. pose proof (Hsum _ _ _ Hxy) as Ts.
    destruct (exchange_delta_spec x y receives) as (delta' & E & Hd' & Hm); try done.
    rewrite E in Hxy. injection Hxy as ->. unfold is_share, INT64_MIN, INT64_MAX in *.
    split_and!; try lia; nia. }
  rewrite Hv in Hd. unfold pool_trade.
  destruct sells_a; [|rewrite (Z.mul_comm (lp_balance_a p)) in Hd];
    apply Hmain in Hd as (T1 & T2 & T3 & T4 & Hpos & Hprod); try done;
    rewrite share_add_ok by done; simpl; rewrite share_sub_ok by done; simpl;
    eexists; (split; [done|]); unfold lp_with_balances; simpl;
    rewrite !u128_share, u128_mul_share by (done || lia);
    (split; [split; simpl; [split; simpl|..]; (done || lia)|]); rewrite Hv; nia.
Qed.

(** ** Deposit and withdrawal *)

(** The new shares of a deposit: the smaller of the two proportional amounts, capped by what
    the share asset may still issue. *)
Definition deposit_new_supply (p : liquidity_pool_object) (max_supply supply a b : share_type) : Z :=
  Z.min (Z.min (supply * a / lp_balance_a p) (supply * b / lp_balance_b p)) (max_supply - supply).

(** A side of a deposit: [div_up] of the proportional amount, within what was offered. *)
Lemma deposit_side_bounds n supply balance offered :
  0 < balance → 0 < supply → 0 < n ≤ supply * offered / balance →
  n * balance ≤ div_up (n * balance) supply * supply ∧ 0 < div_up (n * balance) supply ≤ offered.
Proof.
  intros Hb Hs Hn. pose proof (div_up_spec (n * balance) supply Hs).
  pose proof (div_down_spec (supply * offered) balance Hb).
  split; [lia|]. split; [apply div_up_pos; nia|]. apply div_up_le; nia.
Qed.

Lemma deposit_amounts_spec p max_supply supply a b :
  pool_wf p → 0 < supply < max_supply → max_supply ≤ INT64_MAX →
  0 < a ≤ INT64_MAX → 0 < b ≤ INT64_MAX →
  let n := deposit_new_supply p max_supply supply a b in
  deposit_amounts p max_supply supply a b =
    if 0 <? n then
      Ok (DepositCtx (Asset (div_up (n * lp_balance_a p) supply) (lp_asset_a p))
            (Asset (div_up (n * lp_balance_b p) supply) (lp_asset_b p)) (Asset n (lp_share_asset p)))
    else Err (assert_exception "Aborting due to zero outcome").
Proof.
  intros [[Ta Tb _ _ _] Hpa Hpb _ _] Hs Hm Ha Hb n. unfold deposit_amounts.
  assert (is_share supply ∧ is_share max_supply ∧ is_share a ∧ is_share b ∧
          is_share (max_supply - supply)) as (Ts & Tm & Tsa & Tsb & Td)
    by (unfold is_share, INT64_MIN, INT64_MAX in *; lia).
  rewrite share_sub_ok by done. simpl.
  rewrite !u128_share, (u128_mul_share supply a), (u128_mul_share supply b) by (done || lia).
  change (Z.min (Z.min (u128_div (supply * a) (lp_balance_a p))
                   (u128_div (supply * b) (lp_balance_b p))) (max_supply - supply)) with n.
  destruct (Z.ltb_spec 0 n) as [Hn|]; [|done]. simpl.
  assert (n ≤ supply * a / lp_balance_a p ∧ n ≤ supply * b / lp_balance_b p ∧ is_share n)
    as (Hna & Hnb & Tn) by (unfold n, deposit_new_supply, is_share, INT64_MIN in *; lia).
  rewrite !u128_mul_div_up by (done || lia).
  destruct (deposit_side_bounds n supply (lp_balance_a p) a) as [_ Ba]; [lia..|].
  destruct (deposit_side_bounds n supply (lp_balance_b p) b) as [_ Bb]; [lia..|].
  rewrite !(proj2 (Z.leb_le _ _)) by lia. simpl.
  rewrite !to_int64_small by (unfold is_share, INT64_MIN in *; lia). done.
Qed.

Lemma withdraw_side_spec share balance supply percent :
  0 < share < supply → is_share supply → 0 < balance → is_share balance →
  0 ≤ percent ≤ GRAPHENE_100_PERCENT →
  ∃ x fee, withdraw_side share balance supply percent = Ok (x, fee) ∧ 0 ≤ x ∧ 0 ≤ fee ∧
    x + fee = share * balance / supply ∧ x + fee < balance.
Proof.
  intros Hs Ts Hb Tb Hp. unfold withdraw_side.
  assert (is_share share) by (unfold is_share, INT64_MIN in *; lia).
  rewrite !u128_share, u128_mul_share by (done || lia).
  change (u128_div (share * balance) supply) with (share * balance / supply).
  pose proof (div_down_spec (share * balance) supply ltac:(lia)).
  assert (0 ≤ share * balance / supply < balance) as Hx
    by (split; [apply Z.div_pos; nia|apply Z.div_lt_upper_bound; nia]).
  rewrite (proj2 (Z.ltb_lt _ _)) by lia. simpl.
  destruct (u128_percent_bounds (share * balance / supply) percent);
    [unfold is_share in *; lia|done|].
  rewrite (proj2 (Z.leb_le _ _)) by done. simpl.
  do 2 eexists. split; [done|]. unfold u128_sub. rewrite u128_small; [lia|].
  unfold is_share, INT64_MAX, UINT128_MOD in *. lia.
Qed.

(** ** The properties *)

(** A pool of assets 1 and 2 with share asset 3, in [sample_db]. *)
Definition sample_pool : liquidity_pool_object :=
  LiquidityPoolObject 1 2 1000 3000 3 30 10 3000000.

Definition sample_pool_db : database :=
  set_liquidity_pools (Table 1 {[ 0 := sample_pool ]}) sample_db.

Definition sample_exchange : liquidity_pool_exchange_operation :=
  LiquidityPoolExchangeOperation (Asset 0 0) 100 0 (Asset 500 1) (Asset 900 2).

Lemma sample_pool_wf : pool_wf sample_pool.
Proof.
  split; [split|..]; unfold is_share, INT64_MIN, INT64_MAX, GRAPHENE_100_PERCENT; simpl; lia.
Qed.

Lemma sample_pool_books_ok : books_ok sample_pool_db.
Proof.
  destruct sample_books_ok as [Hb Ha _ Hf Ho Hl]. split; [exact Hb|exact Ha| |exact Hf|exact Ho|exact Hl].
  intros i p. simpl. rewrite lookup_singleton_Some. intros [_ <-]. by apply sample_pool_wf.
Qed.

(** The pool side of an exchange is exact.  For a well-formed pool whose side [a] grows by
    [r] without overflowing, the computation succeeds ("Internal error" cannot fire); the other
    side keeps a positive balance, the product of the balances does not fall, and the pool
    gives up as much as that allows: one unit more would lower the product. *)
Theorem exchange_delta_optimal a b r :
  is_share a → is_share b → is_share (a + r) → 0 < a → 0 < b → 0 ≤ r →
  ∃ delta, exchange_delta (a * b) a b r = Ok delta ∧ 0 ≤ delta < b ∧
    a * b ≤ (a + r) * (b - delta) ∧ (a + r) * (b - (delta + 1)) < a * b.
Proof.
  intros Ta Tb Tr Ha Hb Hr.
  destruct (exchange_delta_spec a b r) as (delta & E & Hd & Hm); try done.
  exists delta. split_and!; (done || nia).
Qed.

Lemma exchange_delta_optimal_witness : ∃ delta, exchange_delta (1000 * 3000) 1000 3000 500 = Ok delta ∧
  0 ≤ delta < 3000 ∧ 1000 * 3000 ≤ (1000 + 500) * (3000 - delta) ∧
  (1000 + 500) * (3000 - (delta + 1)) < 1000 * 3000.
Proof. apply (exchange_delta_optimal 1000 3000 500); unfold is_share, INT64_MIN, INT64_MAX; lia. Defined.

(** A trade that [do_evaluate] accepts goes through at the pool: for a well-formed pool the
    new balances are computed without overflow, both stay positive, the cached product is the
    product of the new balances and is at least the old one, so neither "Internal error"
    assertion at the end of [do_apply] can fail. *)
Lemma pool_exchange_accepted op d ctx pool :
  books_ok d → rows (liquidity_pools d) !! lpx_pool op = Some pool → pool_wf pool →
  pool_exchange_do_evaluate op d = Ok ctx →
  (∃ p', pool_trade (asset_id (lpx_amount_to_sell op) =? lp_asset_a pool)
           (amount (xc_pool_receives ctx)) (amount (xc_pool_pays ctx)) pool = Ok p' ∧
         pool_wf p' ∧ lp_virtual_value pool ≤ lp_virtual_value p') ∧
  amount (lpx_min_to_receive op) ≤ amount (xc_account_receives ctx).
Proof.
  intros Hok Hp Hwf He. apply pool_exchange_ctx in He as (p & Hp' & X); [|done].
  rewrite Hp in Hp'. injection Hp' as <-. split; [|apply X]. destruct (xo_delta _ _ _ X) as (delta & Hd & ->).
  pose proof (xo_positive _ _ _ X). eapply (pool_trade_wf _ pool _ _ delta); [done|lia| |done].
  destruct Hwf as [[Ta Tb _ _ Hv] Ha Hb Ht Hw].
  assert (0 ≤ delta < if asset_id (lpx_amount_to_sell op) =? lp_asset_a pool
                       then lp_balance_b pool else lp_balance_a pool) as Hb'.
  { rewrite Hv in Hd. assert (∀ x y, is_share x → is_share y → 0 < x → 0 < y →
      exchange_delta (x * y) x y (amount (xc_pool_receives ctx)) = Ok delta → 0 ≤ delta < y) as Hx.
    { intros x y Tx Ty Hx Hy Hxy. destruct (exchange_delta_spec x y (amount (xc_pool_receives ctx)))
        as (delta' & E & ? & _); try done; [|lia|congruence].
      unfold exchange_delta in Hxy. apply bind_Ok in Hxy as (? & ? & _). by inv_share; subst. }
    destruct (asset_id (lpx_amount_to_sell op) =? lp_asset_a pool);
      [by apply (Hx (lp_balance_a pool))|rewrite Z.mul_comm in Hd; by apply (Hx (lp_balance_b pool))]. }
  eapply pool_pays_bounds; [|exact Hb'|done]. by case_match.
Qed.

(** What [do_apply] of an exchange does to the balances and to the pool. *)
Lemma pool_exchange_applied op ctx d d' r pool :
  rows (liquidity_pools d) !! lpx_pool op = Some pool → exchange_ok op pool ctx →
  pool_exchange_do_apply op ctx d = Ok (d', r) →
  r = generic_exchange_operation_result [lpx_amount_to_sell op] [xc_account_receives ctx]
        [xc_maker_market_fee ctx; xc_taker_market_fee ctx; xc_pool_taker_fee ctx] ∧
  (∀ owner a, amount (get_balance d' owner a) = amount (get_balance d owner a) +
     if decide (owner = lpx_account op)
     then amt (asset_id (xc_account_receives ctx)) (amount (xc_account_receives ctx)) a
          - amt (asset_id (lpx_amount_to_sell op)) (amount (lpx_amount_to_sell op)) a
     else 0) ∧
  ∃ pool', rows (liquidity_pools d') !! lpx_pool op = Some pool' ∧
    pool_trade (asset_id (lpx_amount_to_sell op) =? lp_asset_a pool)
      (amount (xc_pool_receives ctx)) (amount (xc_pool_pays ctx)) pool = Ok pool'.
Proof.
  intros Hpool X H. unfold pool_exchange_do_apply in H.
  apply bind_Ok in H as (neg & Hneg & H). apply bind_Ok in H as (d1 & H1 & H).
  apply bind_Ok in H as (d2 & H2 & H). apply bind_Ok in H as (q & Hq%tbl_get_Ok & H).
  apply bind_Ok in H as (sa & _ & H). apply bind_Ok in H as (iss & _ & H).
  apply bind_Ok in H as ([d3 ?] & H3 & H). apply bind_Ok in H as ([d4 ?] & H4 & H).
  apply bind_Ok in H as (t & Ht & H). apply bind_Ok in H as (q' & Hq'%tbl_get_Ok & H).
  apply bind_Ok in H as ([] & _ & H). apply bind_Ok in H as (? & _ & H).
  injection H as <- <-. split; [done|].
  apply pools_modify_moves in Ht as (p & p' & Hp & Hp' & Hl & _).
  apply pay_market_fees_given in H3 as (_ & ? & ? & ->), H4 as (_ & ? & ? & ->);
    [|apply (xo_taker _ _ _ X)|apply (xo_maker _ _ _ X)].
  simpl in Hp. rewrite (adjust_balance_pools _ _ _ _ H2), (adjust_balance_pools _ _ _ _ H1) in Hp, Hq.
  assert (q = pool) as -> by congruence. assert (p = pool) as -> by congruence.
  split; [|by exists p'].
  intros owner i.
  change (get_balance _ owner i) with (get_balance d2 owner i) at 1.
  rewrite (adjust_balance_get _ _ _ _ owner i H2), (adjust_balance_get _ _ _ _ owner i H1).
  inv_asset. simpl. unfold amt. repeat case_decide; try tauto; lia.
Qed.

(** C14: An applied exchange moves exactly what it reports.  In a state whose books are
    in order ([books_ok]), suppose [do_evaluate] accepts an exchange on a well-formed pool and, once the operation's fee is paid, [do_apply] returns.
    Then its result names the amount sold as paid, an amount received that is at least the
    minimum asked for, and the fees; the account's balances changed by exactly these two amounts
    and no other account's balance changed; the pool's balance of the asset sold grew by the
    amount sold less the maker's market fee, its balance of the other fell by the amount received
    and the taker's market fee; and the pool is well formed again, both balances positive, with
    a constant product at least as large as before. *)
Theorem pool_exchange_constant_product op d0 ctx d d' r pool :
  books_ok d0 → rows (liquidity_pools d0) !! lpx_pool op = Some pool → pool_wf pool →
  pool_exchange_do_evaluate op d0 = Ok ctx → fee_frame d0 d →
  pool_exchange_do_apply op ctx d = Ok (d', r) →
  let sold := lpx_amount_to_sell op in
  ∃ received maker taker pool_fee pool',
    r = generic_exchange_operation_result [sold] [received] [maker; taker; pool_fee] ∧
    amount (lpx_min_to_receive op) ≤ amount received ∧
    (∀ owner a, amount (get_balance d' owner a) = amount (get_balance d owner a) +
       if decide (owner = lpx_account op)
       then amt (asset_id received) (amount received) a - amt (asset_id sold) (amount sold) a
       else 0) ∧
    rows (liquidity_pools d') !! lpx_pool op = Some pool' ∧
    (if asset_id sold =? lp_asset_a pool then
       lp_balance_a pool' = lp_balance_a pool + (amount sold - amount maker) ∧
       lp_balance_b pool' = lp_balance_b pool - (amount received + amount taker)
     else
       lp_balance_b pool' = lp_balance_b pool + (amount sold - amount maker) ∧
       lp_balance_a pool' = lp_balance_a pool - (amount received + amount taker)) ∧
    pool_wf pool' ∧ lp_virtual_value pool ≤ lp_virtual_value pool'.
Proof.
  intros Hok Hp Hwf He F H sold.
  destruct (pool_exchange_accepted op d0 ctx pool Hok Hp Hwf He) as [(p' & Ht & Hwf' & Hv) Hmin].
  apply pool_exchange_ctx in He as (q & Hq & X); [|done]. rewrite Hp in Hq. injection Hq as <-.
  rewrite <- (fee_frame_pools _ _ F) in Hp.
  destruct (pool_exchange_applied op ctx d d' r pool Hp X H) as (-> & Hbal & pool' & Hp' & Ht').
  rewrite Ht in Ht'. injection Ht' as ->.
  eexists _, _, _, _, pool'. split_and!; [done|done|exact Hbal|done| |done|done].
  apply pool_trade_Ok in Ht as [_ ->]. rewrite (xo_receives _ _ _ X), (xo_account _ _ _ X). simpl.
  fold sold. destruct (asset_id sold =? lp_asset_a pool); simpl; lia.
Qed.

Lemma pool_exchange_constant_product_witness :
  ∃ ctx d' r pool', pool_exchange_do_evaluate sample_exchange sample_pool_db = Ok ctx ∧
    pool_exchange_do_apply sample_exchange ctx sample_pool_db = Ok (d', r) ∧
    rows (liquidity_pools d') !! 0 = Some pool' ∧ pool_wf pool' ∧ 3000000 ≤ lp_virtual_value pool'.
Proof.
  destruct (pool_exchange_do_evaluate sample_exchange sample_pool_db) as [ctx|] eqn:Ec;
    [|vm_compute in Ec; discriminate Ec].
  destruct (pool_exchange_do_apply sample_exchange ctx sample_pool_db) as [[d' r]|] eqn:Ed.
  2:{ vm_compute in Ec. injection Ec as <-. vm_compute in Ed. discriminate Ed. }
  destruct (pool_exchange_constant_product sample_exchange sample_pool_db ctx sample_pool_db d' r sample_pool
    sample_pool_books_ok ltac:(reflexivity) sample_pool_wf Ec (fee_frame_refl _) Ed)
    as (? & ? & ? & ? & pool' & _ & _ & _ & Hp & _ & Hwf & Hv).
  exists ctx, d', r, pool'. split; [done|]. split; [exact Ed|]. split; [exact Hp|]. split; [exact Hwf|exact Hv].
Defined.

(** A deposit into a pool with shares outstanding never takes more than was offered and
    never dilutes the other holders.  It fails only with "Aborting due to zero outcome", when
    not even one share is due; otherwise the new shares are as many as both offers and the
    maximum supply allow, each side is charged at least the proportional amount for them (so
    the pool's balance per share does not fall) and less than one unit more than it. *)
Theorem pool_deposit_fair p max_supply supply a b :
  pool_wf p → 0 < supply < max_supply → max_supply ≤ INT64_MAX →
  0 < a ≤ INT64_MAX → 0 < b ≤ INT64_MAX →
  let n := deposit_new_supply p max_supply supply a b in
  match deposit_amounts p max_supply supply a b with
  | Ok c =>
      0 < n ≤ max_supply - supply ∧ dc_account_receives c = Asset n (lp_share_asset p) ∧
      0 < amount (dc_receives_a c) ≤ a ∧ 0 < amount (dc_receives_b c) ≤ b ∧
      n * lp_balance_a p ≤ amount (dc_receives_a c) * supply < n * lp_balance_a p + supply ∧
      n * lp_balance_b p ≤ amount (dc_receives_b c) * supply < n * lp_balance_b p + supply
  | Err e => n ≤ 0 ∧ e = assert_exception "Aborting due to zero outcome"
  end.
Proof.
  intros Hwf Hs Hm Ha Hb n. rewrite deposit_amounts_spec by done.
  fold n. destruct (Z.ltb_spec 0 n) as [Hn|]; [|done]. simpl.
  assert (n ≤ supply * a / lp_balance_a p ∧ n ≤ supply * b / lp_balance_b p ∧ n ≤ max_supply - supply)
    as (Hna & Hnb & Hnm) by (unfold n, deposit_new_supply; lia).
  destruct (deposit_side_bounds n supply (lp_balance_a p) a) as [? ?]; [apply Hwf|lia..|].
  destruct (deposit_side_bounds n supply (lp_balance_b p) b) as [? ?]; [apply Hwf|lia..|].
  pose proof (div_up_spec (n * lp_balance_a p) supply).
  pose proof (div_up_spec (n * lp_balance_b p) supply).
  split_and!; (done || lia).
Qed.

Lemma pool_deposit_fair_witness : match deposit_amounts sample_pool 100000 2000 100 200 with
  | Ok c =>
      0 < 133 ≤ 100000 - 2000 ∧ dc_account_receives c = Asset 133 3 ∧
      0 < amount (dc_receives_a c) ≤ 100 ∧ 0 < amount (dc_receives_b c) ≤ 200 ∧
      133 * 1000 ≤ amount (dc_receives_a c) * 2000 < 133 * 1000 + 2000 ∧
      133 * 3000 ≤ amount (dc_receives_b c) * 2000 < 133 * 3000 + 2000
  | Err e => 133 ≤ 0 ∧ e = assert_exception "Aborting due to zero outcome"
  end.
Proof.
  apply (pool_deposit_fair sample_pool 100000 2000 100 200 sample_pool_wf);
    unfold INT64_MAX; lia.
Defined.

(** A partial withdrawal pays each side at most its proportional part: with the pool well
    formed and fewer shares than the supply burnt, the computation fails only with "Aborting
    due to zero outcome"; what is paid plus the withdrawal fee is the proportional part rounded
    down, and the pool keeps a positive balance worth at least as much per remaining share. *)
Theorem pool_withdraw_fair p supply share :
  pool_wf p → is_share supply → 0 < share < supply →
  match withdraw_amounts p supply share with
  | Ok c =>
      amount (wc_pays_a c) + amount (wc_fee_a c) = share * lp_balance_a p / supply ∧
      amount (wc_pays_b c) + amount (wc_fee_b c) = share * lp_balance_b p / supply ∧
      0 ≤ amount (wc_pays_a c) < lp_balance_a p ∧ 0 ≤ amount (wc_pays_b c) < lp_balance_b p ∧
      0 ≤ amount (wc_fee_a c) ∧ 0 ≤ amount (wc_fee_b c) ∧
      lp_balance_a p * (supply - share) ≤ (lp_balance_a p - amount (wc_pays_a c)) * supply ∧
      lp_balance_b p * (supply - share) ≤ (lp_balance_b p - amount (wc_pays_b c)) * supply
  | Err e => e = assert_exception "Aborting due to zero outcome"
  end.
Proof.
  intros [[Ta Tb _ _ _] Ha Hb _ Hw] Ts Hs. unfold withdraw_amounts.
  rewrite (proj2 (Z.eqb_neq _ _)) by lia.
  destruct (withdraw_side_spec share (lp_balance_a p) supply (lp_withdrawal_fee_percent p))
    as (x & fx & -> & Hx & Hfx & Ex & Hlx); [done..|]. simpl.
  destruct (withdraw_side_spec share (lp_balance_b p) supply (lp_withdrawal_fee_percent p))
    as (y & fy & -> & Hy & Hfy & Ey & Hly); [done..|]. simpl.
  destruct (_ || _); [|done]. simpl. unfold is_share in *.
  rewrite !to_int64_small by (unfold is_share, INT64_MIN in *; lia).
  pose proof (div_down_spec (share * lp_balance_a p) supply).
  pose proof (div_down_spec (share * lp_balance_b p) supply).
  split_and!; (done || lia || nia).
Qed.

Lemma pool_withdraw_fair_witness : match withdraw_amounts sample_pool 2000 150 with
  | Ok c =>
      amount (wc_pays_a c) + amount (wc_fee_a c) = 150 * 1000 / 2000 ∧
      amount (wc_pays_b c) + amount (wc_fee_b c) = 150 * 3000 / 2000 ∧
      0 ≤ amount (wc_pays_a c) < 1000 ∧ 0 ≤ amount (wc_pays_b c) < 3000 ∧
      0 ≤ amount (wc_fee_a c) ∧ 0 ≤ amount (wc_fee_b c) ∧
      1000 * (2000 - 150) ≤ (1000 - amount (wc_pays_a c)) * 2000 ∧
      3000 * (2000 - 150) ≤ (3000 - amount (wc_pays_b c)) * 2000
  | Err e => e = assert_exception "Aborting due to zero outcome"
  end.
Proof.
  apply (pool_withdraw_fair sample_pool 2000 150 sample_pool_wf);
    unfold is_share, INT64_MIN, INT64_MAX; lia.
Defined.

(** C20: Depositing and withdrawing the shares again is never profitable: what the withdrawal
    pays on each side is at most what the deposit charged on it. *)
Theorem deposit_then_withdraw_no_profit p max_supply supply a b c w :
  pool_wf p → 0 < supply < max_supply → max_supply ≤ INT64_MAX →
  0 < a ≤ INT64_MAX → 0 < b ≤ INT64_MAX →
  is_share (lp_balance_a p + amount (dc_receives_a c)) →
  is_share (lp_balance_b p + amount (dc_receives_b c)) →
  deposit_amounts p max_supply supply a b = Ok c →
  withdraw_amounts (lp_with_balances p (lp_balance_a p + amount (dc_receives_a c))
                      (lp_balance_b p + amount (dc_receives_b c)))
    (supply + amount (dc_account_receives c)) (amount (dc_account_receives c)) = Ok w →
  amount (wc_pays_a w) ≤ amount (dc_receives_a c) ∧ amount (wc_pays_b w) ≤ amount (dc_receives_b c).
Proof.
  intros Hwf Hs Hm Ha Hb T1 T2 Hc Hw. rewrite deposit_amounts_spec in Hc by done.
  set (n := deposit_new_supply p max_supply supply a b) in *.
  destruct (Z.ltb_spec 0 n) as [Hn|]; [|done]. injection Hc as <-. simpl in *.
  assert (n ≤ max_supply - supply) by (unfold n, deposit_new_supply; lia).
  pose proof (wf_a _ Hwf). pose proof (wf_b _ Hwf).
  assert (∀ x pays fee, 0 < x → is_share (x + div_up (n * x) supply) →
    withdraw_side n (x + div_up (n * x) supply) (supply + n) (lp_withdrawal_fee_percent p) = Ok (pays, fee) →
    0 ≤ pays ≤ div_up (n * x) supply ∧ is_share pays) as Hside.
  { intros x pays fee Hx Tx W. pose proof (div_up_spec (n * x) supply).
    assert (0 < div_up (n * x) supply) by (apply div_up_pos; nia).
    destruct (withdraw_side_spec n (x + div_up (n * x) supply) (supply + n)
      (lp_withdrawal_fee_percent p)) as (y & f & E & ? & ? & E' & ?);
      [lia|unfold is_share, INT64_MIN; lia|lia|done|apply Hwf|].
    rewrite E in W. injection W as <- <-.
    assert (n * (x + div_up (n * x) supply) / (supply + n) ≤ div_up (n * x) supply)
      by (apply Z.div_le_upper_bound; nia).
    unfold is_share, INT64_MIN in *. lia. }
  unfold withdraw_amounts in Hw. rewrite (proj2 (Z.eqb_neq _ _)) in Hw by lia.
  apply bind_Ok in Hw as ([x fx] & W1 & Hw). apply bind_Ok in Hw as ([y fy] & W2 & Hw).
  apply Hside in W1 as [? ?], W2 as [? ?]; [|done..]. inv_ok.
  rewrite !to_int64_small by done. lia.
Qed.

Lemma deposit_then_withdraw_no_profit_witness : ∃ c w, deposit_amounts sample_pool 100000 2000 100 200 = Ok c ∧
  withdraw_amounts (lp_with_balances sample_pool (1000 + 67) (3000 + 200)) (2000 + 133) 133 = Ok w ∧
  amount (wc_pays_a w) ≤ 67 ∧ amount (wc_pays_b w) ≤ 200.
Proof.
  eexists _, _. split; [vm_compute; reflexivity|]. split; [vm_compute; reflexivity|].
  refine (deposit_then_withdraw_no_profit sample_pool 100000 2000 100 200
    (DepositCtx (Asset 67 1) (Asset 200 2) (Asset 133 3)) _ sample_pool_wf _ _ _ _ _ _ _ _);
    try (vm_compute; reflexivity); unfold is_share, INT64_MIN, INT64_MAX; simpl; lia.
Defined.
