(* ===== verification/SametFund.v ===== *)
(** * SameT funds

    Funds lent without collateral that must be repaid within the same transaction:
    libraries/protocol/samet_fund.cpp and libraries/chain/samet_fund_evaluator.cpp.  The
    check that nothing is unpaid when a transaction ends is in Transaction.v. *)
From S2P Require Import Prelude MachineInt Hardfork Asset Vesting ChainState Ledger CreditBooks Balance Fees Evaluator Sample.

Definition get_fund (d : database) (id : Z) := tbl_get (samet_funds d) id.

(** Updates of the members of a fund. *)
Definition sf_with_balance (f : samet_fund_object) (b : share_type) : samet_fund_object :=
  SametFundObject (sf_owner_account f) (sf_asset_type f) b (sf_fee_rate f) (sf_unpaid_amount f).
Definition sf_with_fee_rate (f : samet_fund_object) (r : Z) : samet_fund_object :=
  SametFundObject (sf_owner_account f) (sf_asset_type f) (sf_balance f) r (sf_unpaid_amount f).
Definition sf_with_unpaid (f : samet_fund_object) (u : share_type) : samet_fund_object :=
  SametFundObject (sf_owner_account f) (sf_asset_type f) (sf_balance f) (sf_fee_rate f) u.

(** [result.value.impacted_accounts = { owner }]. *)
Definition impacted (owner : account_id_type) : operation_result :=
  extendable_operation_result (ExtendableResult (Some [owner]) None None None None None None).

(** ** create *)
Record samet_fund_create_operation := SametFundCreateOperation {
  sfc_fee : asset;
  sfc_owner_account : account_id_type;
  sfc_asset_type : asset_id_type;
  sfc_balance : share_type;
  sfc_fee_rate : Z }.

Definition samet_fund_create_validate (op : samet_fund_create_operation) : result unit :=
  FC_ASSERT (0 <=? amount (sfc_fee op)) "Fee should not be negative";;
  FC_ASSERT (0 <? sfc_balance op) "Balance should be positive".

Definition samet_fund_create_do_evaluate (op : samet_fund_create_operation) (d : database)
    : result unit :=
  FC_ASSERT (HARDFORK_CORE_2351_PASSED (head_block_time d)) "Not allowed until the core-2351 hardfork";;
  payer_authorized d (sfc_owner_account op) (sfc_asset_type op) "The account is unauthorized by the asset".

Definition samet_fund_create_do_apply (op : samet_fund_create_operation) (_ : unit) (d : database)
    : result (database * operation_result) :=
  neg ← asset_neg (Asset (sfc_balance op) (sfc_asset_type op));
  d ← adjust_balance (sfc_owner_account op) neg d;
  '(id, t) ← tbl_create (SametFundObject (sfc_owner_account op) (sfc_asset_type op)
               (sfc_balance op) (sfc_fee_rate op) 0) (samet_funds d);
  Ok (set_samet_funds t d, object_id_result (kind_samet_fund, id)).

#[global] Instance samet_fund_create_evaluator : Evaluator samet_fund_create_operation := {
  eval_ctx := unit;
  op_fee := sfc_fee;
  fee_payer := sfc_owner_account;
  validate := samet_fund_create_validate;
  do_evaluate := samet_fund_create_do_evaluate;
  do_apply := samet_fund_create_do_apply }.

(** ** delete *)
Record samet_fund_delete_operation := SametFundDeleteOperation {
  sfd_fee : asset;
  sfd_owner_account : account_id_type;
  sfd_fund_id : Z }.

Definition samet_fund_delete_validate (op : samet_fund_delete_operation) : result unit :=
  FC_ASSERT (0 <=? amount (sfd_fee op)) "Fee should not be negative".

Definition samet_fund_delete_do_evaluate (op : samet_fund_delete_operation) (d : database)
    : result unit :=
  fund ← get_fund d (sfd_fund_id op);
  FC_ASSERT (sf_owner_account fund =? sfd_owner_account op)
    "The account is not the owner of the SameT Fund";;
  FC_ASSERT (sf_unpaid_amount fund =? 0)
    "Can only delete a SameT Fund when the unpaid amount is zero".

Definition samet_fund_delete_do_apply (op : samet_fund_delete_operation) (_ : unit) (d : database)
    : result (database * operation_result) :=
  fund ← get_fund d (sfd_fund_id op);
  let released := Asset (sf_balance fund) (sf_asset_type fund) in
  d ← adjust_balance (sfd_owner_account op) released d;
  t ← tbl_remove (sfd_fund_id op) (samet_funds d);
  Ok (set_samet_funds t d, asset_result released).

#[global] Instance samet_fund_delete_evaluator : Evaluator samet_fund_delete_operation := {
  eval_ctx := unit;
  op_fee := sfd_fee;
  fee_payer := sfd_owner_account;
  validate := samet_fund_delete_validate;
  do_evaluate := samet_fund_delete_do_evaluate;
  do_apply := samet_fund_delete_do_apply }.

(** ** update *)
Record samet_fund_update_operation := SametFundUpdateOperation {
  sfu_fee : asset;
  sfu_owner_account : account_id_type;
  sfu_fund_id : Z;
  sfu_delta_amount : option asset;
  sfu_new_fee_rate : option Z }.

Definition samet_fund_update_validate (op : samet_fund_update_operation) : result unit :=
  FC_ASSERT (0 <=? amount (sfu_fee op)) "Fee should not be negative";;
  FC_ASSERT (bool_decide (is_Some (sfu_delta_amount op)) || bool_decide (is_Some (sfu_new_fee_rate op)))
    "Should change something";;
  match sfu_delta_amount op with
  | Some delta => FC_ASSERT (negb (amount delta =? 0)) "Delta amount should not be zero"
  | None => Ok ()
  end.

Definition samet_fund_update_do_evaluate (op : samet_fund_update_operation) (d : database)
    : result unit :=
  fund ← get_fund d (sfu_fund_id op);
  FC_ASSERT (sf_owner_account fund =? sfu_owner_account op)
    "The account is not the owner of the SameT Fund";;
  match sfu_delta_amount op with
  | Some delta =>
    FC_ASSERT (sf_asset_type fund =? asset_id delta) "Asset type mismatch";;
    FC_ASSERT (sf_unpaid_amount fund =? 0)
      "Can only update the balance of a SameT Fund when the unpaid amount is zero";;
    if 0 <? amount delta then
      payer_authorized d (sfu_owner_account op) (sf_asset_type fund)
        "The account is unauthorized by the asset"
    else
      neg ← share_neg (amount delta);
      FC_ASSERT (neg <? sf_balance fund) "Insufficient balance in the SameT Fund"
  | None => Ok ()
  end;;
  match sfu_new_fee_rate op with
  | Some r => FC_ASSERT (negb (sf_fee_rate fund =? r))
                "New fee rate should not be the same as the original fee rate"
  | None => Ok ()
  end.

(** The update of the fund itself. *)
Definition samet_fund_update_fund (op : samet_fund_update_operation) (f : samet_fund_object)
    : result samet_fund_object :=
  f ← match sfu_delta_amount op with
      | Some delta => b ← share_add (sf_balance f) (amount delta); Ok (sf_with_balance f b)
      | None => Ok f
      end;
  Ok match sfu_new_fee_rate op with Some r => sf_with_fee_rate f r | None => f end.

Definition samet_fund_update_do_apply (op : samet_fund_update_operation) (_ : unit) (d : database)
    : result (database * operation_result) :=
  d ← match sfu_delta_amount op with
      | Some delta => neg ← asset_neg delta; adjust_balance (sfu_owner_account op) neg d
      | None => Ok d
      end;
  t ← tbl_modify (sfu_fund_id op) (samet_fund_update_fund op) (samet_funds d);
  let d := set_samet_funds t d in
  fund ← get_fund d (sfu_fund_id op);
  FC_ASSERT (0 <? sf_balance fund) "Balance in the SameT Fund should be positive";;
  Ok (d, void_result).

#[global] Instance samet_fund_update_evaluator : Evaluator samet_fund_update_operation := {
  eval_ctx := unit;
  op_fee := sfu_fee;
  fee_payer := sfu_owner_account;
  validate := samet_fund_update_validate;
  do_evaluate := samet_fund_update_do_evaluate;
  do_apply := samet_fund_update_do_apply }.

(** ** borrow *)
Record samet_fund_borrow_operation := SametFundBorrowOperation {
  sfb_fee : asset;
  sfb_borrower : account_id_type;
  sfb_fund_id : Z;
  sfb_borrow_amount : asset }.

Definition samet_fund_borrow_validate (op : samet_fund_borrow_operation) : result unit :=
  FC_ASSERT (0 <=? amount (sfb_fee op)) "Fee should not be negative";;
  FC_ASSERT (0 <? amount (sfb_borrow_amount op)) "Amount to borrow should be positive".

Definition samet_fund_borrow_do_evaluate (op : samet_fund_borrow_operation) (d : database)
    : result unit :=
  fund ← get_fund d (sfb_fund_id op);
  FC_ASSERT (sf_asset_type fund =? asset_id (sfb_borrow_amount op)) "Asset type mismatch";;
  total ← share_add (sf_unpaid_amount fund) (amount (sfb_borrow_amount op));
  FC_ASSERT (total <=? sf_balance fund)
    "Insufficient balance in the SameT Fund thus unable to borrow";;
  payer_authorized d (sfb_borrower op) (sf_asset_type fund) "The account is unauthorized by the asset".

Definition samet_fund_borrow_do_apply (op : samet_fund_borrow_operation) (_ : unit) (d : database)
    : result (database * operation_result) :=
  t ← tbl_modify (sfb_fund_id op) (λ f,
        u ← share_add (sf_unpaid_amount f) (amount (sfb_borrow_amount op));
        Ok (sf_with_unpaid f u)) (samet_funds d);
  d ← adjust_balance (sfb_borrower op) (sfb_borrow_amount op) (set_samet_funds t d);
  fund ← get_fund d (sfb_fund_id op);
  FC_ASSERT (sf_unpaid_amount fund <=? sf_balance fund) "Should not borrow more than available";;
  Ok (d, impacted (sf_owner_account fund)).

#[global] Instance samet_fund_borrow_evaluator : Evaluator samet_fund_borrow_operation := {
  eval_ctx := unit;
  op_fee := sfb_fee;
  fee_payer := sfb_borrower;
  validate := samet_fund_borrow_validate;
  do_evaluate := samet_fund_borrow_do_evaluate;
  do_apply := samet_fund_borrow_do_apply }.

(** ** repay *)
Record samet_fund_repay_operation := SametFundRepayOperation {
  sfr_fee : asset;
  sfr_account : account_id_type;
  sfr_fund_id : Z;
  sfr_repay_amount : asset;
  sfr_fund_fee : asset }.

Definition samet_fund_repay_validate (op : samet_fund_repay_operation) : result unit :=
  FC_ASSERT (0 <=? amount (sfr_fee op)) "Fee should not be negative";;
  FC_ASSERT (0 <? amount (sfr_repay_amount op)) "Amount to repay should be positive";;
  FC_ASSERT (0 <=? amount (sfr_fund_fee op)) "Fund fee should not be negative";;
  FC_ASSERT (asset_id (sfr_repay_amount op) =? asset_id (sfr_fund_fee op))
    "Asset type of repay amount and fund fee should be the same".

Definition samet_fund_repay_do_evaluate (op : samet_fund_repay_operation) (d : database)
    : result unit :=
  fund ← get_fund d (sfr_fund_id op);
  FC_ASSERT (sf_asset_type fund =? asset_id (sfr_repay_amount op)) "Asset type mismatch";;
  payer_authorized d (sfr_account op) (sf_asset_type fund) "The account is unauthorized by the asset";;
  FC_ASSERT (amount (sfr_repay_amount op) <=? sf_unpaid_amount fund)
    "Repay amount should not be greater than unpaid amount";;
  FC_ASSERT (fee_rate_charge (amount (sfr_repay_amount op)) (sf_fee_rate fund)
             <=? u128 (amount (sfr_fund_fee op))) "Insuffient fund fee".

Definition samet_fund_repay_do_apply (op : samet_fund_repay_operation) (_ : unit) (d : database)
    : result (database * operation_result) :=
  total ← asset_add (sfr_repay_amount op) (sfr_fund_fee op);
  neg ← asset_neg total;
  d ← adjust_balance (sfr_account op) neg d;
  t ← tbl_modify (sfr_fund_id op) (λ f,
        b ← share_add (sf_balance f) (amount (sfr_fund_fee op));
        u ← share_sub (sf_unpaid_amount f) (amount (sfr_repay_amount op));
        Ok (sf_with_unpaid (sf_with_balance f b) u)) (samet_funds d);
  let d := set_samet_funds t d in
  fund ← get_fund d (sfr_fund_id op);
  Ok (d, impacted (sf_owner_account fund)).

#[global] Instance samet_fund_repay_evaluator : Evaluator samet_fund_repay_operation := {
  eval_ctx := unit;
  op_fee := sfr_fee;
  fee_payer := sfr_account;
  validate := samet_fund_repay_validate;
  do_evaluate := samet_fund_repay_do_evaluate;
  do_apply := samet_fund_repay_do_apply }.

(** ** Conservation, and the invariant of the funds *)

Lemma funds_modify_moves d id m t :
  tbl_modify id m (samet_funds d) = Ok t →
  ∃ f f', rows (samet_funds d) !! id = Some f ∧ m f = Ok f' ∧ rows t !! id = Some f' ∧
    ((fund_ok f → fund_ok f') → moves d (set_samet_funds t d) (λ a, held f' a - held f a)).
Proof.
  intros H. pose proof H as (f & f' & Hf & Hm & Hf' & E)%tbl_held_modify.
  exists f, f'. split_and!; [done..|]. intros HP. apply moves_samet_funds; [done|].
  intros Hok. eapply rows_ok_modify; [exact H| |apply Hok]. intros v v' Hv Hv'.
  rewrite Hf in Hv. injection Hv as <-. rewrite Hm in Hv'. by injection Hv' as <-.
Qed.

Lemma fee_frame_funds d0 d : fee_frame d0 d → samet_funds d = samet_funds d0.
Proof. by intros (m & s & -> & _). Qed.

Lemma adjust_balance_funds account delta d d' :
  adjust_balance account delta d = Ok d' → samet_funds d' = samet_funds d.
Proof. by intros [m ->]%adjust_balance_frame. Qed.

#[global] Instance samet_fund_create_laws : EvaluatorLaws samet_fund_create_operation.
Proof.
  split; [|credit_same].
  intros op d0 ctx d d' r _ Hv _ _ H. cbn in Hv, H. unfold samet_fund_create_validate in Hv.
  apply bind_Ok in H as (neg & Hneg & H). apply bind_Ok in H as (d1 & M1%adjust_balance_moves & H).
  apply bind_Ok in H as ([id t] & H1 & E). injection E as <- <-. inv_ok. propify. inv_asset.
  eapply moves_ext; [eapply moves_trans; [exact M1|apply moves_samet_funds]|].
  - intros a. apply (tbl_held_create _ _ _ _ a H1).
  - intros Hok. eapply rows_ok_create; [exact H1| |apply Hok]. split; simpl; lia.
  - intros a. unfold held, samet_fund_holding; simpl. amt_solve.
Qed.

#[global] Instance samet_fund_delete_laws : EvaluatorLaws samet_fund_delete_operation.
Proof.
  split; [|credit_same].
  intros op d0 ctx d d' r _ _ He F H. cbn in He, H. unfold samet_fund_delete_do_evaluate in He.
  apply bind_Ok in He as (f0 & Hf0%tbl_get_Ok & He). rewrite <- (fee_frame_funds _ _ F) in Hf0.
  apply bind_Ok in H as (f & Hf%tbl_get_Ok & H). apply bind_Ok in H as (d1 & H1 & H).
  apply bind_Ok in H as (t & Ht & E). injection E as <- <-. rewrite (adjust_balance_funds _ _ _ _ H1) in Ht.
  simplify_eq. inv_ok. propify. apply adjust_balance_funds in H1 as E1; apply adjust_balance_moves in H1.
  eapply moves_ext; [eapply moves_trans; [exact H1|apply moves_samet_funds]|].
  - intros a. rewrite E1. rewrite (tbl_held_remove _ _ _ _ a Hf0 Ht). apply (Z.add_opp_r _ _).
  - intros Hok. eapply rows_ok_remove; [exact Ht|]. rewrite <- E1. apply Hok.
  - intros a. unfold held, samet_fund_holding; simpl. amt_solve.
Qed.

(** What an update does to a fund. *)
Lemma samet_fund_update_fund_Ok op f f' :
  samet_fund_update_fund op f = Ok f' →
  sf_asset_type f' = sf_asset_type f ∧ sf_unpaid_amount f' = sf_unpaid_amount f ∧
  sf_balance f' = sf_balance f + match sfu_delta_amount op with Some x => amount x | None => 0 end.
Proof.
  unfold samet_fund_update_fund. intros. inv_ok; inv_share; subst; case_match; simpl;
    split_and!; (done || lia).
Qed.

#[global] Instance samet_fund_update_laws : EvaluatorLaws samet_fund_update_operation.
Proof.
  split; [|credit_same].
  intros op d0 ctx d d' r _ _ He F H. cbn in He, H. unfold samet_fund_update_do_evaluate in He.
  apply bind_Ok in He as (f0 & Hf0%tbl_get_Ok & He). rewrite <- (fee_frame_funds _ _ F) in Hf0.
  apply bind_Ok in H as (d1 & H1 & H). apply bind_Ok in H as (t & Ht & H).
  apply bind_Ok in H as (fund & Hfund%tbl_get_Ok & H).
  apply bind_Ok in H as ([] & Hpos%FC_ASSERT_Ok & E). injection E as <- <-. simpl in Hfund.
  apply funds_modify_moves in Ht as (f & f' & Hf & (Ea & Eu & Eb)%samet_fund_update_fund_Ok & Hf' & M2).
  apply bind_Ok in He as ([] & _ & He). apply bind_Ok in He as ([] & He & _).
  simplify_eq. propify. destruct (sfu_delta_amount op) as [x|].
  - apply bind_Ok in He as ([] & Hi%FC_ASSERT_Ok & He). apply bind_Ok in He as ([] & Hu%FC_ASSERT_Ok & _).
    apply bind_Ok in H1 as (neg & Hneg & H1). rewrite (adjust_balance_funds _ _ _ _ H1) in Hf.
    simplify_eq. apply adjust_balance_moves in H1. inv_asset. propify.
    eapply moves_ext; [eapply moves_trans; [exact H1|apply M2]|].
    + intros _. split; lia.
    + intros a. unfold held, samet_fund_holding. rewrite Ea, Eb, Eu. amt_solve.
  - injection H1 as <-. eapply moves_ext; [apply M2|].
    + intros []. split; lia.
    + intros a. unfold held, samet_fund_holding. rewrite Ea, Eb, Eu. amt_solve.
Qed.

#[global] Instance samet_fund_borrow_laws : EvaluatorLaws samet_fund_borrow_operation.
Proof.
  split; [|credit_same].
  intros op d0 ctx d d' r _ Hv He F H. cbn in Hv, He, H.
  unfold samet_fund_borrow_validate, samet_fund_borrow_do_evaluate in *.
  apply bind_Ok in He as (f0 & Hf0%tbl_get_Ok & He). rewrite <- (fee_frame_funds _ _ F) in Hf0.
  apply bind_Ok in H as (t & Ht & H). apply bind_Ok in H as (d1 & M2%adjust_balance_moves & H).
  apply bind_Ok in H as (fund & _ & H). apply bind_Ok in H as ([] & _ & E). injection E as <- <-.
  apply funds_modify_moves in Ht as (f & f' & Hf & Hf' & _ & M1). simplify_eq.
  inv_ok. inv_share. propify. subst.
  eapply moves_ext; [eapply moves_trans; [apply M1|exact M2]|].
  - intros [? ?]. split; simpl; lia.
  - intros a. unfold held, samet_fund_holding; simpl. amt_solve.
Qed.

#[global] Instance samet_fund_repay_laws : EvaluatorLaws samet_fund_repay_operation.
Proof.
  split; [|credit_same].
  intros op d0 ctx d d' r _ Hv He F H. cbn in Hv, He, H.
  unfold samet_fund_repay_validate, samet_fund_repay_do_evaluate in *.
  apply bind_Ok in He as (f0 & Hf0%tbl_get_Ok & He). rewrite <- (fee_frame_funds _ _ F) in Hf0.
  apply bind_Ok in H as (total & Htotal & H). apply bind_Ok in H as (neg & Hneg & H).
  apply bind_Ok in H as (d1 & H1 & H). apply bind_Ok in H as (t & Ht & H).
  apply bind_Ok in H as (fund & _ & E). injection E as <- <-.
  apply funds_modify_moves in Ht as (f & f' & Hf & Hf' & _ & M2).
  rewrite (adjust_balance_funds _ _ _ _ H1) in Hf. simplify_eq. apply adjust_balance_moves in H1.
  inv_ok. inv_share. inv_asset. propify.
  eapply moves_ext; [eapply moves_trans; [exact H1|apply M2]|].
  - intros [? ?]. split; simpl; lia.
  - intros a. unfold held, samet_fund_holding; simpl. amt_solve.
Qed.

(** ** What borrowing and repaying do to a fund *)

Section fund_steps.
Variable borrow_fee : samet_fund_borrow_operation → share_type.
Variable repay_fee : samet_fund_repay_operation → share_type.

Lemma borrow_step skip op d d' r :
  start_evaluate borrow_fee skip op d = Ok (d', r) →
  ∃ f, rows (samet_funds d) !! sfb_fund_id op = Some f ∧
    rows (samet_funds d') = <[sfb_fund_id op :=
      sf_with_unpaid f (sf_unpaid_amount f + amount (sfb_borrow_amount op))]> (rows (samet_funds d)).
Proof.
  intros (ctx & d1 & d2 & m & _ & F & H & ->)%start_evaluate_inv. cbn in H.
  apply bind_Ok in H as (t & (f & f' & Hf & Hm & ->)%tbl_modify_Ok & H).
  apply bind_Ok in H as (d3 & [m' ->]%adjust_balance_frame & H).
  apply bind_Ok in H as (? & _ & H). apply bind_Ok in H as (? & _ & E). injection E as <- _.
  rewrite (fee_frame_funds _ _ F) in *. inv_ok. inv_share. subst. eauto.
Qed.

Lemma repay_step skip op d d' r :
  start_evaluate repay_fee skip op d = Ok (d', r) →
  ∃ f, rows (samet_funds d) !! sfr_fund_id op = Some f ∧
    rows (samet_funds d') = <[sfr_fund_id op :=
      sf_with_unpaid (sf_with_balance f (sf_balance f + amount (sfr_fund_fee op)))
        (sf_unpaid_amount f - amount (sfr_repay_amount op))]> (rows (samet_funds d)) ∧
    fee_rate_charge (amount (sfr_repay_amount op)) (sf_fee_rate f) ≤ u128 (amount (sfr_fund_fee op)).
Proof.
  intros (ctx & d1 & d2 & m & He & F & H & ->)%start_evaluate_inv. cbn in He, H.
  apply bind_Ok in He as (f0 & Hf0%tbl_get_Ok & He).
  apply bind_Ok in H as (? & _ & H). apply bind_Ok in H as (? & _ & H).
  apply bind_Ok in H as (d3 & [m' ->]%adjust_balance_frame & H).
  apply bind_Ok in H as (t & (f & f' & Hf & Hm & ->)%tbl_modify_Ok & H).
  apply bind_Ok in H as (? & _ & E). injection E as <- _. simpl in *.
  rewrite (fee_frame_funds _ _ F) in *. simplify_eq. inv_ok. propify. inv_share. subst. eauto.
Qed.
End fund_steps.

(** ** Loan cycles *)

Inductive loan_op :=
  | loan_borrow (op : samet_fund_borrow_operation)
  | loan_repay (op : samet_fund_repay_operation).

(** What the loans of a sequence borrow from fund [id], repay to it, and pay it in fees. *)
Definition borrowed_from (id : Z) (o : loan_op) : Z :=
  match o with
  | loan_borrow op => if sfb_fund_id op =? id then amount (sfb_borrow_amount op) else 0
  | loan_repay _ => 0
  end.
Definition repaid_to (id : Z) (o : loan_op) : Z :=
  match o with
  | loan_borrow _ => 0
  | loan_repay op => if sfr_fund_id op =? id then amount (sfr_repay_amount op) else 0
  end.
Definition fees_to (id : Z) (o : loan_op) : Z :=
  match o with
  | loan_borrow _ => 0
  | loan_repay op => if sfr_fund_id op =? id then amount (sfr_fund_fee op) else 0
  end.

Definition loan_total (g : loan_op → Z) (ops : list loan_op) : Z := foldr (λ o s, g o + s) 0 ops.

(** [validate()] of the operation, and its amount within [share_type]. *)
Definition loan_valid (o : loan_op) : Prop :=
  match o with
  | loan_borrow op => validate op = Ok ()
  | loan_repay op => validate op = Ok () ∧ is_share (amount (sfr_repay_amount op))
  end.

Section loans.
Variable borrow_fee : samet_fund_borrow_operation → share_type.
Variable repay_fee : samet_fund_repay_operation → share_type.
Variable skip : bool.

Definition apply_loan (o : loan_op) (d : database) : result database :=
  match o with
  | loan_borrow op => '(d, _) ← start_evaluate borrow_fee skip op d; Ok d
  | loan_repay op => '(d, _) ← start_evaluate repay_fee skip op d; Ok d
  end.

Fixpoint apply_loans (ops : list loan_op) (d : database) : result database :=
  match ops with
  | [] => Ok d
  | o :: ops => d ← apply_loan o d; apply_loans ops d
  end.

Lemma apply_loan_fund o d d' id f :
  apply_loan o d = Ok d' → loan_valid o → rows (samet_funds d) !! id = Some f →
  0 ≤ sf_fee_rate f < 2 ^ 32 →
  ∃ f', rows (samet_funds d') !! id = Some f' ∧ sf_fee_rate f' = sf_fee_rate f ∧
    sf_balance f' = sf_balance f + fees_to id o ∧
    sf_unpaid_amount f' = sf_unpaid_amount f + borrowed_from id o - repaid_to id o ∧
    repaid_to id o * sf_fee_rate f ≤ fees_to id o * GRAPHENE_FEE_RATE_DENOM.
Proof.
  intros H Hv Hf Hrate. destruct o as [op|op]; simpl in *;
    apply bind_Ok in H as ([d1 r] & H & E); injection E as <-.
  - apply borrow_step in H as (g & Hg & ->).
    destruct (Z.eqb_spec (sfb_fund_id op) id) as [<-|].
    + rewrite lookup_insert_eq. rewrite Hf in Hg. injection Hg as <-.
      eexists. split; [done|]. simpl. split_and!; lia.
    + rewrite lookup_insert_ne by done. exists f. split_and!; done || lia.
  - apply repay_step in H as (g & Hg & -> & Hfee).
    destruct (Z.eqb_spec (sfr_fund_id op) id) as [<-|].
    + rewrite lookup_insert_eq. rewrite Hf in Hg. injection Hg as <-.
      eexists. split; [done|]. simpl.
      split_and!; try lia. destruct Hv as [Hv Hs]. cbn in Hv.
      unfold samet_fund_repay_validate in Hv. inv_ok. propify.
      rewrite fee_rate_charge_spec in Hfee by (done || lia).
      assert (u128 (amount (sfr_fund_fee op)) ≤ amount (sfr_fund_fee op)) by (apply Z.mod_le; [lia|done]).
      pose proof (div_up_spec (amount (sfr_repay_amount op) * sf_fee_rate f) GRAPHENE_FEE_RATE_DENOM).
      unfold GRAPHENE_FEE_RATE_DENOM in *. lia.
    + rewrite lookup_insert_ne by done. exists f. split_and!; done || lia.
Qed.

Lemma apply_loans_fund ops d d' id f :
  apply_loans ops d = Ok d' → Forall loan_valid ops → rows (samet_funds d) !! id = Some f →
  0 ≤ sf_fee_rate f < 2 ^ 32 →
  ∃ f', rows (samet_funds d') !! id = Some f' ∧
    sf_balance f' = sf_balance f + loan_total (fees_to id) ops ∧
    sf_unpaid_amount f' = sf_unpaid_amount f + loan_total (borrowed_from id) ops
                          - loan_total (repaid_to id) ops ∧
    loan_total (repaid_to id) ops * sf_fee_rate f
      ≤ loan_total (fees_to id) ops * GRAPHENE_FEE_RATE_DENOM.
Proof.
  revert d f. induction ops as [|o ops IH]; intros d f H Hv Hf Hr; simpl in *.
  - injection H as <-. exists f. split_and!; done || lia.
  - apply bind_Ok in H as (d1 & H1 & H). apply Forall_cons in Hv as [Hv Hvs].
    destruct (apply_loan_fund _ _ _ _ _ H1 Hv Hf Hr) as (f1 & Hf1 & Er & Eb & Eu & Hle).
    destruct (IH d1 f1) as (f' & Hf' & Eb' & Eu' & Hle'); [done..|lia|].
    exists f'. rewrite Er in Hle'. split_and!; [done|lia..].
Qed.

(** C23: Lending without collateral is safe for the fund.  Whatever sequence of loan operations
    runs, by whomever and interleaved with those of other funds, if nothing is owed to the fund
    before and after (which the end of every transaction enforces) then what was borrowed was
    repaid, the fund's balance grew by exactly the fees paid, and these are at least the fee
    rate times the amount borrowed. *)
Theorem samet_fund_loans_repaid ops d d' id f f' :
  apply_loans ops d = Ok d' → Forall loan_valid ops →
  rows (samet_funds d) !! id = Some f → 0 ≤ sf_fee_rate f < 2 ^ 32 →
  rows (samet_funds d') !! id = Some f' →
  sf_unpaid_amount f = 0 → sf_unpaid_amount f' = 0 →
  loan_total (repaid_to id) ops = loan_total (borrowed_from id) ops ∧
  sf_balance f' = sf_balance f + loan_total (fees_to id) ops ∧
  loan_total (borrowed_from id) ops * sf_fee_rate f
    ≤ loan_total (fees_to id) ops * GRAPHENE_FEE_RATE_DENOM.
Proof.
  intros H Hv Hf Hr Hf' U U'. destruct (apply_loans_fund _ _ _ _ _ H Hv Hf Hr)
    as (g & Hg & Eb & Eu & Hle). simplify_eq. rewrite U in Eu.
  assert (loan_total (repaid_to id) ops = loan_total (borrowed_from id) ops) as E by lia.
  rewrite <- E. done.
Qed.
End loans.

(** ** Witnesses *)

(** A fund of asset 1 lending at 1%. *)
Definition sample_fund_db : database :=
  set_samet_funds (Table 1 {[ 0 := SametFundObject 100 1 5000 10000 0 ]}) sample_db.

Definition sample_loans : list loan_op :=
  [ loan_borrow (SametFundBorrowOperation (Asset 0 0) 101 0 (Asset 700 1));
    loan_borrow (SametFundBorrowOperation (Asset 0 0) 102 0 (Asset 60 1));
    loan_repay (SametFundRepayOperation (Asset 0 0) 101 0 (Asset 760 1) (Asset 8 1)) ].

Definition no_fee {Op : Type} (_ : Op) : share_type := 0.

Lemma samet_fund_loans_repaid_witness : ∃ d', apply_loans no_fee no_fee false sample_loans sample_fund_db = Ok d' ∧
  rows (samet_funds d') !! 0 = Some (SametFundObject 100 1 5008 10000 0) ∧
  760 * 10000 ≤ 8 * GRAPHENE_FEE_RATE_DENOM.
Proof.
  eexists. split; [vm_compute; reflexivity|]. split; [vm_compute; reflexivity|].
  edestruct (λ d', samet_fund_loans_repaid no_fee no_fee false sample_loans sample_fund_db d' 0
    (SametFundObject 100 1 5000 10000 0)) as (_ & _ & H);
    [vm_compute; reflexivity| | |  | | | |exact H];
    [ | vm_compute; reflexivity | simpl; lia | vm_compute; reflexivity | reflexivity | reflexivity].
  repeat constructor; vm_compute; discriminate.
Defined.
