(* ===== verification/CreditOffer.v ===== *)
(** * Credit offers and deals

    Loans against collateral: libraries/protocol/credit_offer.cpp,
    libraries/chain/credit_offer_evaluator.cpp, and the processing of expired offers and deals
    at the end of a block, [database::update_credit_offers_and_deals] of
    libraries/chain/db_update.cpp. *)
From stdpp Require Import sorting.
From S2P Require Import Prelude MachineInt Hardfork Asset Vesting ChainState Ledger CreditBooks Balance Fees Evaluator Sample.

Definition GRAPHENE_MAX_CREDIT_OFFER_DAYS : Z := 380.
Definition GRAPHENE_MAX_CREDIT_DEAL_DAYS : Z := 380.
Definition GRAPHENE_MAX_CREDIT_DEAL_SECS : Z := GRAPHENE_MAX_CREDIT_DEAL_DAYS * 86400.

(** [fc::days( n )], in seconds. *)
Definition days (n : Z) : Z := n * 86400.

(** [credit_deal_auto_repayment_type], kept as its [uint8_t] value in the objects. *)
Definition no_auto_repayment : Z := 0.
Definition only_full_repayment : Z := 1.
Definition allow_partial_repayment : Z := 2.
Definition CDAR_TYPE_COUNT : Z := 3.

(** The entries of a [flat_map], in the order of the keys. *)
Definition key_le {A} (x y : Z * A) : Prop := x.1 ≤ y.1.
#[global] Instance key_le_dec {A} (x y : Z * A) : Decision (key_le x y).
Proof. unfold key_le. apply _. Defined.
Definition flat_map_list {A} (m : gmap Z A) : list (Z * A) := merge_sort key_le (map_to_list m).

Definition get_offer (d : database) (id : Z) := tbl_get (credit_offers d) id.
Definition get_deal (d : database) (id : Z) := tbl_get (credit_deals d) id.

(** Updates of members of the objects. *)
Definition co_with_balances (o : credit_offer_object) (total current : share_type)
    : credit_offer_object :=
  CreditOfferObject (co_owner_account o) (co_asset_type o) total current (co_fee_rate o)
    (co_max_duration_seconds o) (co_min_deal_amount o) (co_enabled o) (co_auto_disable_time o)
    (co_acceptable_collateral o) (co_acceptable_borrowers o).
Definition co_with_enabled (o : credit_offer_object) (b : bool) : credit_offer_object :=
  CreditOfferObject (co_owner_account o) (co_asset_type o) (co_total_balance o)
    (co_current_balance o) (co_fee_rate o) (co_max_duration_seconds o) (co_min_deal_amount o) b
    (co_auto_disable_time o) (co_acceptable_collateral o) (co_acceptable_borrowers o).
Definition cd_with_amounts (c : credit_deal_object) (debt collateral : share_type)
    : credit_deal_object :=
  CreditDealObject (cd_borrower c) (cd_offer_id c) (cd_offer_owner c) (cd_debt_asset c) debt
    (cd_collateral_asset c) collateral (cd_fee_rate c) (cd_latest_repay_time c) (cd_auto_repay c).
Definition cd_with_auto_repay (c : credit_deal_object) (a : Z) : credit_deal_object :=
  CreditDealObject (cd_borrower c) (cd_offer_id c) (cd_offer_owner c) (cd_debt_asset c)
    (cd_debt_amount c) (cd_collateral_asset c) (cd_collateral_amount c) (cd_fee_rate c)
    (cd_latest_repay_time c) a.
Definition cs_with_debt (s : credit_deal_summary_object) (v : share_type)
    : credit_deal_summary_object :=
  CreditDealSummaryObject (cs_borrower s) (cs_offer_id s) (cs_offer_owner s) (cs_debt_asset s) v.

(** The search in the index [by_offer_borrower]. *)
Definition offer_borrower_key (offer_id : Z) (borrower : account_id_type)
    (s : credit_deal_summary_object) : bool :=
  (cs_offer_id s =? offer_id) && (cs_borrower s =? borrower).
Definition find_summary (d : database) (offer_id : Z) (borrower : account_id_type)
    : option (Z * credit_deal_summary_object) :=
  find_row (offer_borrower_key offer_id borrower) (credit_deal_summaries d).

(** ** Validation helpers *)

Definition validate_acceptable_collateral (acceptable_collateral : gmap asset_id_type price)
    (p_asset_type : option asset_id_type) : result unit :=
  match flat_map_list acceptable_collateral with
  | [] => Err (assert_exception "Acceptable collateral list should not be empty")
  | first :: rest =>
    let asset_type := default (asset_id (base first.2)) p_asset_type in
    res_iter (λ collateral : asset_id_type * price,
      FC_ASSERT (asset_id (base collateral.2) =? asset_type)
        "Base asset ID in price of acceptable collateral should be same as offer asset type";;
      FC_ASSERT (asset_id (quote collateral.2) =? collateral.1)
        "Quote asset ID in price of acceptable collateral should be same as collateral asset type";;
      price_validate true collateral.2) (first :: rest)
  end.

Definition validate_acceptable_borrowers (acceptable_borrowers : gmap account_id_type share_type)
    : result unit :=
  res_iter (λ borrower : account_id_type * share_type,
    FC_ASSERT (0 <=? borrower.2)
      "Maximum amount to borrow for acceptable borrowers should not be negative";;
    FC_ASSERT (borrower.2 <=? GRAPHENE_MAX_SHARE_SUPPLY)
      "Maximum amount to borrow for acceptable borrowers should not be greater than max")
    (flat_map_list acceptable_borrowers).

(** The window for [auto_disable_time] of an enabled offer. *)
Definition auto_disable_time_ok (t now : Z) : result unit :=
  FC_ASSERT (now <? t) "Auto-disable time should be in the future";;
  FC_ASSERT (t - now <=? days GRAPHENE_MAX_CREDIT_OFFER_DAYS)
    "Auto-disable time should not be later than the maximum days in the future".

(** ** credit_offer_create *)
Record credit_offer_create_operation := CreditOfferCreateOperation {
  coc_fee : asset;
  coc_owner_account : account_id_type;
  coc_asset_type : asset_id_type;
  coc_balance : share_type;
  coc_fee_rate : Z;
  coc_max_duration_seconds : Z;
  coc_min_deal_amount : share_type;
  coc_enabled : bool;
  coc_auto_disable_time : Z;
  coc_acceptable_collateral : gmap asset_id_type price;
  coc_acceptable_borrowers : gmap account_id_type share_type }.

Definition credit_offer_create_validate (op : credit_offer_create_operation) : result unit :=
  FC_ASSERT (0 <=? amount (coc_fee op)) "Fee should not be negative";;
  FC_ASSERT (0 <? coc_balance op) "Balance should be positive";;
  FC_ASSERT (coc_max_duration_seconds op <=? GRAPHENE_MAX_CREDIT_DEAL_SECS)
    "Maximum duration should not be greater than the maximum days";;
  FC_ASSERT (0 <=? coc_min_deal_amount op) "Minimum deal amount should not be negative";;
  FC_ASSERT (coc_min_deal_amount op <=? GRAPHENE_MAX_SHARE_SUPPLY)
    "Minimum deal amount should not be greater than max";;
  validate_acceptable_collateral (coc_acceptable_collateral op) (Some (coc_asset_type op));;
  validate_acceptable_borrowers (coc_acceptable_borrowers op).

Definition credit_offer_create_do_evaluate (op : credit_offer_create_operation) (d : database)
    : result unit :=
  let block_time := head_block_time d in
  FC_ASSERT (HARDFORK_CORE_2362_PASSED block_time) "Not allowed until the core-2362 hardfork";;
  (if coc_enabled op then auto_disable_time_ok (coc_auto_disable_time op) block_time else Ok ());;
  res_iter (λ c : asset_id_type * price, get_asset d c.1;; Ok ())
    (flat_map_list (coc_acceptable_collateral op));;
  res_iter (λ b : account_id_type * share_type, get_account d b.1;; Ok ())
    (flat_map_list (coc_acceptable_borrowers op));;
  payer_authorized d (coc_owner_account op) (coc_asset_type op) "The account is unauthorized by the asset".

Definition credit_offer_create_do_apply (op : credit_offer_create_operation) (_ : unit)
    (d : database) : result (database * operation_result) :=
  neg ← asset_neg (Asset (coc_balance op) (coc_asset_type op));
  d ← adjust_balance (coc_owner_account op) neg d;
  '(id, t) ← tbl_create (CreditOfferObject (coc_owner_account op) (coc_asset_type op)
               (coc_balance op) (coc_balance op) (coc_fee_rate op) (coc_max_duration_seconds op)
               (coc_min_deal_amount op) (coc_enabled op) (coc_auto_disable_time op)
               (coc_acceptable_collateral op) (coc_acceptable_borrowers op)) (credit_offers d);
  Ok (set_credit_offers t d, object_id_result (kind_credit_offer, id)).

#[global] Instance credit_offer_create_evaluator : Evaluator credit_offer_create_operation := {
  eval_ctx := unit;
  op_fee := coc_fee;
  fee_payer := coc_owner_account;
  validate := credit_offer_create_validate;
  do_evaluate := credit_offer_create_do_evaluate;
  do_apply := credit_offer_create_do_apply }.

(** ** credit_offer_delete *)
Record credit_offer_delete_operation := CreditOfferDeleteOperation {
  cof_fee : asset;
  cof_owner_account : account_id_type;
  cof_offer_id : Z }.

Definition credit_offer_delete_validate (op : credit_offer_delete_operation) : result unit :=
  FC_ASSERT (0 <=? amount (cof_fee op)) "Fee should not be negative".

Definition credit_offer_delete_do_evaluate (op : credit_offer_delete_operation) (d : database)
    : result unit :=
  offer ← get_offer d (cof_offer_id op);
  FC_ASSERT (co_owner_account offer =? cof_owner_account op)
    "The account is not the owner of the credit offer";;
  FC_ASSERT (co_total_balance offer =? co_current_balance offer)
    "Can only delete a credit offer when the unpaid amount is zero".

Definition credit_offer_delete_do_apply (op : credit_offer_delete_operation) (_ : unit)
    (d : database) : result (database * operation_result) :=
  offer ← get_offer d (cof_offer_id op);
  let released := Asset (co_current_balance offer) (co_asset_type offer) in
  d ← (if negb (co_current_balance offer =? 0)
       then adjust_balance (cof_owner_account op) released d else Ok d);
  t ← tbl_remove (cof_offer_id op) (credit_offers d);
  Ok (set_credit_offers t d, asset_result released).

#[global] Instance credit_offer_delete_evaluator : Evaluator credit_offer_delete_operation := {
  eval_ctx := unit;
  op_fee := cof_fee;
  fee_payer := cof_owner_account;
  validate := credit_offer_delete_validate;
  do_evaluate := credit_offer_delete_do_evaluate;
  do_apply := credit_offer_delete_do_apply }.

(** ** credit_offer_update *)
Record credit_offer_update_operation := CreditOfferUpdateOperation {
  cou_fee : asset;
  cou_owner_account : account_id_type;
  cou_offer_id : Z;
  cou_delta_amount : option asset;
  cou_fee_rate : option Z;
  cou_max_duration_seconds : option Z;
  cou_min_deal_amount : option share_type;
  cou_enabled : option bool;
  cou_auto_disable_time : option Z;
  cou_acceptable_collateral : option (gmap asset_id_type price);
  cou_acceptable_borrowers : option (gmap account_id_type share_type) }.

Definition valid {A} (o : option A) : bool := match o with Some _ => true | None => false end.

Definition credit_offer_update_validate (op : credit_offer_update_operation) : result unit :=
  FC_ASSERT (0 <=? amount (cou_fee op)) "Fee should not be negative";;
  match cou_delta_amount op with
  | Some x => FC_ASSERT (negb (amount x =? 0)) "Delta amount should not be zero"
  | None => Ok ()
  end;;
  match cou_max_duration_seconds op with
  | Some x => FC_ASSERT (x <=? GRAPHENE_MAX_CREDIT_DEAL_SECS)
                "Maximum duration should not be greater than the maximum days"
  | None => Ok ()
  end;;
  match cou_min_deal_amount op with
  | Some x =>
    FC_ASSERT (0 <=? x) "Minimum deal amount should not be negative";;
    FC_ASSERT (x <=? GRAPHENE_MAX_SHARE_SUPPLY) "Minimum deal amount should not be greater than max"
  | None => Ok ()
  end;;
  match cou_acceptable_collateral op with
  | Some m => validate_acceptable_collateral m None
  | None => Ok ()
  end;;
  match cou_acceptable_borrowers op with
  | Some m => validate_acceptable_borrowers m
  | None => Ok ()
  end;;
  FC_ASSERT (valid (cou_delta_amount op) || valid (cou_fee_rate op)
             || valid (cou_max_duration_seconds op) || valid (cou_min_deal_amount op)
             || valid (cou_enabled op) || valid (cou_auto_disable_time op)
             || valid (cou_acceptable_collateral op) || valid (cou_acceptable_borrowers op))
    "Should change something - at least one of the optional data fields should be present".

Definition credit_offer_update_do_evaluate (op : credit_offer_update_operation) (d : database)
    : result unit :=
  let block_time := head_block_time d in
  offer ← get_offer d (cou_offer_id op);
  FC_ASSERT (co_owner_account offer =? cou_owner_account op)
    "The account is not the owner of the credit offer";;
  match cou_delta_amount op with
  | Some delta =>
    FC_ASSERT (co_asset_type offer =? asset_id delta) "Asset type mismatch";;
    if 0 <? amount delta then
      payer_authorized d (cou_owner_account op) (co_asset_type offer)
        "The account is unauthorized by the asset"
    else
      neg ← share_neg (amount delta);
      FC_ASSERT (neg <? co_total_balance offer)
        "Should leave some funds in the credit offer when updating";;
      neg ← share_neg (amount delta);
      FC_ASSERT (neg <=? co_current_balance offer) "Insufficient balance in the credit offer"
  | None => Ok ()
  end;;
  (if default (co_enabled offer) (cou_enabled op)
   then auto_disable_time_ok (default (co_auto_disable_time offer) (cou_auto_disable_time op)) block_time
   else Ok ());;
  match cou_acceptable_collateral op with
  | Some m => res_iter (λ c : asset_id_type * price,
      get_asset d c.1;;
      FC_ASSERT (co_asset_type offer =? asset_id (base c.2))
        "Asset type mismatch in a price of acceptable collateral") (flat_map_list m)
  | None => Ok ()
  end;;
  match cou_acceptable_borrowers op with
  | Some m => res_iter (λ b : account_id_type * share_type, get_account d b.1;; Ok ()) (flat_map_list m)
  | None => Ok ()
  end.

(** The update of the offer itself. *)
Definition credit_offer_update_offer (op : credit_offer_update_operation) (o : credit_offer_object)
    : result credit_offer_object :=
  o ← match cou_delta_amount op with
      | Some delta =>
        t ← share_add (co_total_balance o) (amount delta);
        c ← share_add (co_current_balance o) (amount delta);
        Ok (co_with_balances o t c)
      | None => Ok o
      end;
  Ok (CreditOfferObject (co_owner_account o) (co_asset_type o) (co_total_balance o)
        (co_current_balance o) (default (co_fee_rate o) (cou_fee_rate op))
        (default (co_max_duration_seconds o) (cou_max_duration_seconds op))
        (default (co_min_deal_amount o) (cou_min_deal_amount op))
        (default (co_enabled o) (cou_enabled op))
        (default (co_auto_disable_time o) (cou_auto_disable_time op))
        (default (co_acceptable_collateral o) (cou_acceptable_collateral op))
        (default (co_acceptable_borrowers o) (cou_acceptable_borrowers op))).

Definition credit_offer_update_do_apply (op : credit_offer_update_operation) (_ : unit)
    (d : database) : result (database * operation_result) :=
  d ← match cou_delta_amount op with
      | Some delta => neg ← asset_neg delta; adjust_balance (cou_owner_account op) neg d
      | None => Ok d
      end;
  t ← tbl_modify (cou_offer_id op) (credit_offer_update_offer op) (credit_offers d);
  let d := set_credit_offers t d in
  offer ← get_offer d (cou_offer_id op);
  FC_ASSERT (0 <? co_total_balance offer) "Total balance in the credit offer should be positive";;
  FC_ASSERT (0 <=? co_current_balance offer)
    "Current balance in the credit offer should not be negative";;
  FC_ASSERT (co_current_balance offer <=? co_total_balance offer)
    "Total balance in the credit offer should not be less than current balance";;
  (if co_enabled offer then auto_disable_time_ok (co_auto_disable_time offer) (head_block_time d)
   else Ok ());;
  Ok (d, void_result).

#[global] Instance credit_offer_update_evaluator : Evaluator credit_offer_update_operation := {
  eval_ctx := unit;
  op_fee := cou_fee;
  fee_payer := cou_owner_account;
  validate := credit_offer_update_validate;
  do_evaluate := credit_offer_update_do_evaluate;
  do_apply := credit_offer_update_do_apply }.

(** ** credit_offer_accept *)
Record credit_offer_accept_operation := CreditOfferAcceptOperation {
  coa_fee : asset;
  coa_borrower : account_id_type;
  coa_offer_id : Z;
  coa_borrow_amount : asset;
  coa_collateral : asset;
  coa_max_fee_rate : Z;
  coa_min_duration_seconds : Z;
  coa_auto_repay : option Z }.

Definition credit_offer_accept_validate (op : credit_offer_accept_operation) : result unit :=
  FC_ASSERT (0 <=? amount (coa_fee op)) "Fee should not be negative";;
  FC_ASSERT (0 <? amount (coa_borrow_amount op)) "Amount to borrow should be positive";;
  FC_ASSERT (0 <? amount (coa_collateral op)) "Collateral amount should be positive";;
  match coa_auto_repay op with
  | Some a => FC_ASSERT (a <? CDAR_TYPE_COUNT) "auto_repay should be less than the type count"
  | None => Ok ()
  end.

(** The context is [_deal_summary], the id of the borrower's summary if there is one. *)
Definition credit_offer_accept_do_evaluate (op : credit_offer_accept_operation) (d : database)
    : result (option Z) :=
  (if HARDFORK_CORE_2595_PASSED (head_block_time d) then Ok ()
   else FC_ASSERT (negb (valid (coa_auto_repay op)))
          "auto_repay unavailable until the core-2595 hardfork");;
  offer ← get_offer d (coa_offer_id op);
  FC_ASSERT (co_enabled offer) "The credit offer is not enabled";;
  FC_ASSERT (co_asset_type offer =? asset_id (coa_borrow_amount op)) "Asset type mismatch";;
  FC_ASSERT (amount (coa_borrow_amount op) <=? co_current_balance offer)
    "Insufficient balance in the credit offer thus unable to borrow";;
  FC_ASSERT (co_min_deal_amount offer <=? amount (coa_borrow_amount op))
    "Borrowing amount should not be less than minimum deal amount";;
  FC_ASSERT (co_fee_rate offer <=? coa_max_fee_rate op)
    "The maximum accceptable fee rate is lower than offered";;
  FC_ASSERT (coa_min_duration_seconds op <=? co_max_duration_seconds offer)
    "The minimum accceptable duration is longer than offered";;
  match co_acceptable_collateral offer !! asset_id (coa_collateral op) with
  | None => Err (assert_exception "Collateral asset type is not acceptable by the credit offer")
  | Some coll_price =>
    get_asset d (co_asset_type offer);;
    get_asset d (asset_id (coa_collateral op));;
    payer_authorized d (coa_borrower op) (co_asset_type offer)
      "The borrower is unauthorized by the borrowing asset";;
    payer_authorized d (coa_borrower op) (asset_id (coa_collateral op))
      "The borrower is unauthorized by the collateral asset";;
    payer_authorized d (co_owner_account offer) (co_asset_type offer)
      "The owner of the credit offer is unauthorized by the borrowing asset";;
    payer_authorized d (co_owner_account offer) (asset_id (coa_collateral op))
      "The owner of the credit offer is unauthorized by the collateral asset";;
    required_collateral ← multiply_and_round_up (coa_borrow_amount op) coll_price;
    FC_ASSERT (amount required_collateral <=? amount (coa_collateral op))
      "Insufficient collateral provided";;
    max_allowed ← (if bool_decide (co_acceptable_borrowers offer = ∅) then Ok None
                   else match co_acceptable_borrowers offer !! coa_borrower op with
                        | None => Err (assert_exception "Account is not in acceptable borrowers")
                        | Some m => Ok (Some m)
                        end);
    let summ := find_summary d (coa_offer_id op) (coa_borrower op) in
    let already_borrowed := match summ with Some s => cs_total_debt_amount s.2 | None => 0 end in
    match max_allowed with
    | Some m =>
      total ← share_add already_borrowed (amount (coa_borrow_amount op));
      FC_ASSERT (total <=? m) "Unable to borrow, maximum allowed exceeded"
    | None => Ok ()
    end;;
    Ok (fst <$> summ)
  end.

(** The deadline of a new deal; it saturates instead of wrapping. *)
Definition repay_deadline (now max_duration_seconds : Z) : Z :=
  if max_duration_seconds <=? time_point_sec_maximum - now then time_add now max_duration_seconds
  else time_point_sec_maximum.

(** The deal and the summary an acceptance creates. *)
Definition new_deal (op : credit_offer_accept_operation) (offer : credit_offer_object)
    (repay_time : Z) : credit_deal_object :=
  CreditDealObject (coa_borrower op) (coa_offer_id op) (co_owner_account offer)
    (co_asset_type offer) (amount (coa_borrow_amount op)) (asset_id (coa_collateral op))
    (amount (coa_collateral op)) (co_fee_rate offer) repay_time (default 0 (coa_auto_repay op)).
Definition new_summary (op : credit_offer_accept_operation) (offer : credit_offer_object)
    : credit_deal_summary_object :=
  CreditDealSummaryObject (coa_borrower op) (coa_offer_id op) (co_owner_account offer)
    (co_asset_type offer) (amount (coa_borrow_amount op)).

(** The summary of the borrower grows by the amount, or is created. *)
Definition add_to_summary (op : credit_offer_accept_operation) (offer : credit_offer_object)
    (summ : option Z) (t : table credit_deal_summary_object)
    : result (table credit_deal_summary_object) :=
  match summ with
  | Some id => tbl_modify id (λ s,
      v ← share_add (cs_total_debt_amount s) (amount (coa_borrow_amount op));
      Ok (cs_with_debt s v)) t
  | None => '(_, t) ← tbl_create (new_summary op offer) t; Ok t
  end.

Definition credit_offer_accept_do_apply (op : credit_offer_accept_operation) (summ : option Z)
    (d : database) : result (database * operation_result) :=
  neg ← asset_neg (coa_collateral op);
  d ← adjust_balance (coa_borrower op) neg d;
  d ← adjust_balance (coa_borrower op) (coa_borrow_amount op) d;
  t ← tbl_modify (coa_offer_id op) (λ o,
        c ← share_sub (co_current_balance o) (amount (coa_borrow_amount op));
        Ok (co_with_balances o (co_total_balance o) c)) (credit_offers d);
  let d := set_credit_offers t d in
  offer ← get_offer d (coa_offer_id op);
  let block_time := head_block_time d in
  let repay_time := repay_deadline block_time (co_max_duration_seconds offer) in
  '(deal_id, t) ← tbl_create (new_deal op offer repay_time) (credit_deals d);
  let d := set_credit_deals t d in
  t ← add_to_summary op offer summ (credit_deal_summaries d);
  let d := set_credit_deal_summaries t d in
  FC_ASSERT (0 <? co_total_balance offer) "Total balance in the credit offer should be positive";;
  FC_ASSERT (0 <=? co_current_balance offer)
    "Current balance in the credit offer should not be negative";;
  FC_ASSERT (co_current_balance offer <=? co_total_balance offer)
    "Total balance in the credit offer should not be less than current balance";;
  FC_ASSERT (block_time <? repay_time) "Latest repayment time should be in the future";;
  FC_ASSERT (repay_time - block_time <=? days GRAPHENE_MAX_CREDIT_DEAL_DAYS)
    "Latest repayment time should not be too late in the future";;
  Ok (d, extendable_operation_result (ExtendableResult (Some [co_owner_account offer])
           (Some [(kind_credit_deal, deal_id)]) None None None None None)).

#[global] Instance credit_offer_accept_evaluator : Evaluator credit_offer_accept_operation := {
  eval_ctx := option Z;
  op_fee := coa_fee;
  fee_payer := coa_borrower;
  validate := credit_offer_accept_validate;
  do_evaluate := credit_offer_accept_do_evaluate;
  do_apply := credit_offer_accept_do_apply }.

(** ** credit_deal_repay *)
Record credit_deal_repay_operation := CreditDealRepayOperation {
  cdr_fee : asset;
  cdr_account : account_id_type;
  cdr_deal_id : Z;
  cdr_repay_amount : asset;
  cdr_credit_fee : asset }.

Definition credit_deal_repay_validate (op : credit_deal_repay_operation) : result unit :=
  FC_ASSERT (0 <=? amount (cdr_fee op)) "Fee should not be negative";;
  FC_ASSERT (0 <? amount (cdr_repay_amount op)) "Amount to repay should be positive";;
  FC_ASSERT (0 <=? amount (cdr_credit_fee op)) "Credit fee should not be negative";;
  FC_ASSERT (asset_id (cdr_repay_amount op) =? asset_id (cdr_credit_fee op))
    "Asset type of repay amount and credit fee should be the same".

Definition credit_deal_repay_do_evaluate (op : credit_deal_repay_operation) (d : database)
    : result unit :=
  deal ← get_deal d (cdr_deal_id op);
  FC_ASSERT (cd_borrower deal =? cdr_account op) "A credit deal can only be repaid by the borrower";;
  FC_ASSERT (cd_debt_asset deal =? asset_id (cdr_repay_amount op)) "Asset type mismatch";;
  FC_ASSERT (amount (cdr_repay_amount op) <=? cd_debt_amount deal)
    "Repay amount should not be greater than unpaid amount";;
  FC_ASSERT (fee_rate_charge (amount (cdr_repay_amount op)) (cd_fee_rate deal)
             <=? u128 (amount (cdr_credit_fee op))) "Insuffient credit fee";;
  get_asset d (cd_debt_asset deal);;
  payer_authorized d (cdr_account op) (cd_debt_asset deal)
    "The account is unauthorized by the repaying asset";;
  payer_authorized d (cd_offer_owner deal) (cd_debt_asset deal)
    "The owner of the credit offer is unauthorized by the repaying asset".

(** Lower a borrower's summary by [x]; it is removed when nothing is left. *)
Definition reduce_summary (summ : Z * credit_deal_summary_object) (x : share_type) (d : database)
    : result database :=
  if cs_total_debt_amount summ.2 =? x then
    t ← tbl_remove summ.1 (credit_deal_summaries d); Ok (set_credit_deal_summaries t d)
  else
    t ← tbl_modify summ.1 (λ s, v ← share_sub (cs_total_debt_amount s) x; Ok (cs_with_debt s v))
          (credit_deal_summaries d);
    Ok (set_credit_deal_summaries t d).

(** The deal after repaying [x]: all of the collateral is released when it is repaid in full,
    the proportional part rounded down otherwise.  The result is the amount released. *)
Definition settle_deal (id : Z) (deal : credit_deal_object) (x : share_type) (d : database)
    : result (database * share_type) :=
  if cd_debt_amount deal =? x then
    t ← tbl_remove id (credit_deals d);
    Ok (set_credit_deals t d, cd_collateral_amount deal)
  else
    let amount_to_release :=
      u128_div (u128_mul (u128 x) (u128 (cd_collateral_amount deal))) (cd_debt_amount deal) in
    FC_ASSERT (amount_to_release <? u128 (cd_collateral_amount deal)) "Internal error";;
    let released := to_int64 amount_to_release in
    t ← tbl_modify id (λ c,
          debt ← share_sub (cd_debt_amount c) x;
          coll ← share_sub (cd_collateral_amount c) released;
          Ok (cd_with_amounts c debt coll)) (credit_deals d);
    Ok (set_credit_deals t d, released).

Definition credit_deal_repay_do_apply (op : credit_deal_repay_operation) (_ : unit)
    (d : database) : result (database * operation_result) :=
  let repay := amount (cdr_repay_amount op) in
  let fee := amount (cdr_credit_fee op) in
  deal ← get_deal d (cdr_deal_id op);
  total_amount ← share_add repay fee;
  neg ← share_neg total_amount;
  d ← adjust_balance (cdr_account op) (Asset neg (asset_id (cdr_repay_amount op))) d;
  t ← tbl_modify (cd_offer_id deal) (λ o,
        total ← share_add (co_total_balance o) fee;
        current ← share_add (co_current_balance o) total_amount;
        Ok (co_with_balances o total current)) (credit_offers d);
  let d := set_credit_offers t d in
  offer ← get_offer d (cd_offer_id deal);
  FC_ASSERT (co_current_balance offer <=? co_total_balance offer)
    "Total balance in the credit offer should not be less than current balance";;
  match find_summary d (cd_offer_id deal) (cdr_account op) with
  | None => Err (assert_exception "Internal error")
  | Some summ =>
    d ← reduce_summary summ repay d;
    '(d, released) ← settle_deal (cdr_deal_id op) deal repay d;
    let collateral_released := Asset released (cd_collateral_asset deal) in
    d ← adjust_balance (cdr_account op) collateral_released d;
    let full := cd_debt_amount deal =? repay in
    Ok (d, extendable_operation_result (ExtendableResult (Some [co_owner_account offer]) None
             (Some ((kind_credit_offer, cd_offer_id deal)
                    :: if full then [] else [(kind_credit_deal, cdr_deal_id op)]))
             (if full then Some [(kind_credit_deal, cdr_deal_id op)] else None)
             None (Some [collateral_released]) None))
  end.

#[global] Instance credit_deal_repay_evaluator : Evaluator credit_deal_repay_operation := {
  eval_ctx := unit;
  op_fee := cdr_fee;
  fee_payer := cdr_account;
  validate := credit_deal_repay_validate;
  do_evaluate := credit_deal_repay_do_evaluate;
  do_apply := credit_deal_repay_do_apply }.

(** ** credit_deal_update *)
Record credit_deal_update_operation := CreditDealUpdateOperation {
  cdu_fee : asset;
  cdu_account : account_id_type;
  cdu_deal_id : Z;
  cdu_auto_repay : Z }.

Definition credit_deal_update_validate (op : credit_deal_update_operation) : result unit :=
  FC_ASSERT (0 <=? amount (cdu_fee op)) "Fee should not be negative";;
  FC_ASSERT (cdu_auto_repay op <? CDAR_TYPE_COUNT) "auto_repay should be less than the type count".

Definition credit_deal_update_do_evaluate (op : credit_deal_update_operation) (d : database)
    : result unit :=
  FC_ASSERT (HARDFORK_CORE_2595_PASSED (head_block_time d)) "Not allowed until the core-2595 hardfork";;
  deal ← get_deal d (cdu_deal_id op);
  FC_ASSERT (cd_borrower deal =? cdu_account op) "A credit deal can only be updated by the borrower";;
  FC_ASSERT (negb (cd_auto_repay deal =? cdu_auto_repay op))
    "The automatic repayment type does not change".

Definition credit_deal_update_do_apply (op : credit_deal_update_operation) (_ : unit)
    (d : database) : result (database * operation_result) :=
  t ← tbl_modify (cdu_deal_id op) (λ c, Ok (cd_with_auto_repay c (cdu_auto_repay op))) (credit_deals d);
  Ok (set_credit_deals t d, void_result).

#[global] Instance credit_deal_update_evaluator : Evaluator credit_deal_update_operation := {
  eval_ctx := unit;
  op_fee := cdu_fee;
  fee_payer := cdu_account;
  validate := credit_deal_update_validate;
  do_evaluate := credit_deal_update_do_evaluate;
  do_apply := credit_deal_update_do_apply }.

(** ** Expired offers and deals *)

(** Offers whose [auto_disable_time] has come are disabled. *)
Definition disable_expired_offers (d : database) : database :=
  set_credit_offers (Table (next_id (credit_offers d))
    ((λ o, if co_enabled o && (co_auto_disable_time o <=? head_block_time d)
           then co_with_enabled o false else o) <$> rows (credit_offers d))) d.

(** 128-bit division in the block processing: a zero divisor stops the node. *)
Definition u128_div_nz (x y : Z) : result Z :=
  if y =? 0 then Err divide_by_zero_exception else Ok (u128_div x y).

(** [GRAPHENE_FEE_RATE_DENOM + deal.fee_rate], the sum of two [uint32_t]. *)
Definition fee_rate_divisor (fee_rate : Z) : Z := (GRAPHENE_FEE_RATE_DENOM + fee_rate) mod 2 ^ 32.

(** The amounts of a partial automatic repayment from [balance]. *)
Definition partial_repayment (deal : credit_deal_object) (balance : share_type)
    : result (Z * Z) :=
  let debt := cd_debt_amount deal in
  let collateral := cd_collateral_amount deal in
  debt_to_repay ← u128_div_nz (u128_mul (u128 balance) GRAPHENE_FEE_RATE_DENOM)
                    (fee_rate_divisor (cd_fee_rate deal));
  collateral_to_release ← u128_div_nz (u128_mul debt_to_repay (u128 collateral)) (u128 debt);
  debt_to_repay ← u128_div_nz (u128_sub (u128_add (u128_mul collateral_to_release (u128 debt))
                                           (u128 collateral)) 1) (u128 collateral);
  let fee_to_pay := u128_div (u128_sub (u128_add (u128_mul debt_to_repay (cd_fee_rate deal))
                                          GRAPHENE_FEE_RATE_DENOM) 1) GRAPHENE_FEE_RATE_DENOM in
  Ok (debt_to_repay, fee_to_pay).

(** The repayment operation made for an automatic repayment. *)
Definition auto_repay_operation (deal_id : Z) (deal : credit_deal_object) (d : database)
    : result credit_deal_repay_operation :=
  let required_fee := fee_rate_charge (cd_debt_amount deal) (cd_fee_rate deal) in
  let total_required := u128_add required_fee (u128 (cd_debt_amount deal)) in
  let balance := get_balance d (cd_borrower deal) (cd_debt_asset deal) in
  '(repay, fee) ←
    (if (only_full_repayment =? cd_auto_repay deal) || (total_required <=? u128 (amount balance))
     then Ok (cd_debt_amount deal, to_int64 required_fee)
     else '(r, f) ← partial_repayment deal (amount balance); Ok (to_int64 r, to_int64 f));
  Ok (CreditDealRepayOperation (Asset 0 core_asset_id) (cd_borrower deal) deal_id
        (Asset repay (cd_debt_asset deal)) (Asset fee (cd_debt_asset deal))).

(** [try_push_virtual_operation] of a repayment, inside [try ... catch]: a failure leaves the
    state as it was. *)
Definition try_repay (op : credit_deal_repay_operation) (d : database) : database :=
  match (credit_deal_repay_validate op;; start_evaluate (λ _, 0) true op d) with
  | Ok (d', _) => d'
  | Err _ => d
  end.

(** A deal that is past due: the offer loses the debt, its owner gets the collateral. *)
Definition expire_deal (deal_id : Z) (deal : credit_deal_object) (d : database)
    : result database :=
  t ← tbl_modify (cd_offer_id deal) (λ o,
        total ← share_sub (co_total_balance o) (cd_debt_amount deal);
        Ok (co_with_balances o total (co_current_balance o))) (credit_offers d);
  let d := set_credit_offers t d in
  d ← match find_summary d (cd_offer_id deal) (cd_borrower deal) with
      | None => Ok d
      | Some summ => reduce_summary summ (cd_debt_amount deal) d
      end;
  d ← adjust_balance (cd_offer_owner deal)
        (Asset (cd_collateral_amount deal) (cd_collateral_asset deal)) d;
  t ← tbl_remove deal_id (credit_deals d);
  Ok (set_credit_deals t d).

(** One iteration of the loop over the deals that are due. *)
Definition process_due_deal (deal_id : Z) (deal : credit_deal_object) (d : database)
    : result database :=
  d ← (if negb (no_auto_repayment =? cd_auto_repay deal) then
         op ← auto_repay_operation deal_id deal d; Ok (try_repay op d)
       else Ok d);
  match rows (credit_deals d) !! deal_id with
  | None => Ok d
  | Some deal => expire_deal deal_id deal d
  end.

(** The loop; each iteration removes a deal, so as many as there are deals are enough. *)
Fixpoint process_due_deals (fuel : nat) (d : database) : result database :=
  match fuel with
  | O => Ok d
  | S fuel =>
    match first_by cd_latest_repay_time (credit_deals d) with
    | Some (id, deal) =>
      if cd_latest_repay_time deal <=? head_block_time d then
        d ← process_due_deal id deal d; process_due_deals fuel d
      else Ok d
    | None => Ok d
    end
  end.

Definition update_credit_offers_and_deals (d : database) : result database :=
  let d := disable_expired_offers d in
  process_due_deals (size (rows (credit_deals d))) d.

(** ** Conservation and the credit books *)

Lemma offers_modify_moves d id m t :
  tbl_modify id m (credit_offers d) = Ok t →
  ∃ o o', rows (credit_offers d) !! id = Some o ∧ m o = Ok o' ∧
    rows t = <[id := o']> (rows (credit_offers d)) ∧
    ((offer_ok o → offer_ok o') → moves d (set_credit_offers t d) (λ a, held o' a - held o a)).
Proof.
  intros H. pose proof H as (o & o' & Ho & Hm & Ho' & E)%tbl_held_modify.
  pose proof H as (o1 & o1' & Ho1 & Hm1 & ->)%tbl_modify_Ok. simplify_eq.
  rewrite Hm in Hm1. injection Hm1 as <-.
  eexists _, o'. split_and!; [done..|]. intros HP. apply moves_credit_offers; [done|].
  intros Hok. eapply rows_ok_modify; [exact H| |apply Hok]. intros v v' Hv Hv'.
  simplify_eq. rewrite Hm in Hv'. by injection Hv' as <-.
Qed.

Lemma fee_frame_credit_tables d0 d :
  fee_frame d0 d → credit_offers d = credit_offers d0 ∧ credit_deals d = credit_deals d0 ∧
    credit_deal_summaries d = credit_deal_summaries d0 ∧ head_block_time d = head_block_time d0.
Proof. by intros (m & s & -> & _). Qed.

Lemma adjust_balance_credit account delta d d' :
  adjust_balance account delta d = Ok d' →
  credit_offers d' = credit_offers d ∧ credit_deals d' = credit_deals d ∧
  credit_deal_summaries d' = credit_deal_summaries d.
Proof. by intros [m ->]%adjust_balance_frame. Qed.

#[global] Instance credit_offer_create_laws : EvaluatorLaws credit_offer_create_operation.
Proof.
  split; intros op d0 ctx d d' r Hok Hv _ F H; cbn in Hv, H;
    pose proof (fee_frame_credit _ _ F Hok) as Hc;
    apply bind_Ok in H as (neg & Hneg & H); apply bind_Ok in H as (d1 & H1 & H);
    apply bind_Ok in H as ([id t] & Ht & E); injection E as <- <-.
  - unfold credit_offer_create_validate in Hv. apply adjust_balance_moves in H1.
    apply bind_Ok in Hv as (? & _ & Hv). apply bind_Ok in Hv as ([] & Hpos%FC_ASSERT_Ok & _).
    propify. inv_asset.
    eapply moves_ext; [eapply moves_trans; [exact H1|apply moves_credit_offers]|].
    + intros a. apply (tbl_held_create _ _ _ _ a Ht).
    + intros Hb. eapply rows_ok_create; [exact Ht| |apply Hb]. split; simpl; lia.
    + intros a. unfold held, credit_offer_holding; simpl. amt_solve.
  - apply adjust_balance_credit in H1 as (E1 & E2 & E3).
    apply tbl_create_Ok in Ht as (-> & Hn & ->). unfold credit_ok. simpl. rewrite E1, E2, E3 in *.
    destruct Hc as [Hp Ho Hs]. split; [done| |done]. by apply offer_books_new.
Qed.

#[global] Instance credit_offer_delete_laws : EvaluatorLaws credit_offer_delete_operation.
Proof.
  split; intros op d0 ctx d d' r Hok _ He F H; cbn in He, H;
    pose proof (fee_frame_credit _ _ F Hok) as Hc;
    destruct (fee_frame_credit_tables _ _ F) as (E0 & _);
    unfold credit_offer_delete_do_evaluate in He;
    apply bind_Ok in He as (o0 & Ho0%tbl_get_Ok & He); apply bind_Ok in He as ([] & _ & Heq%FC_ASSERT_Ok);
    apply bind_Ok in H as (o & Ho%tbl_get_Ok & H); apply bind_Ok in H as (d1 & H1 & H);
    apply bind_Ok in H as (t & Ht & E); injection E as <- <-; rewrite <- E0, Ho in Ho0; injection Ho0 as <-; propify.
  - assert (moves d d1 (amt (co_asset_type o) (co_current_balance o)) ∧ credit_offers d1 = credit_offers d)
      as [M1 E1].
    { destruct (Z.eqb_spec (co_current_balance o) 0) as [Ez|]; simpl in H1.
      - injection H1 as <-. split; [|done]. eapply moves_ext; [apply moves_refl|]. intros a. amt_solve.
      - split; [by apply adjust_balance_moves in H1|by apply adjust_balance_credit in H1 as (? & _)]. }
    eapply moves_ext; [eapply moves_trans; [exact M1|apply moves_credit_offers]|].
    + intros a. rewrite E1. rewrite E1 in Ht. rewrite (tbl_held_remove _ _ _ _ a Ho Ht).
      apply (Z.add_opp_r _ _).
    + intros Hb. eapply rows_ok_remove; [exact Ht|apply Hb].
    + intros a. unfold held, credit_offer_holding; simpl. amt_solve.
  - assert (credit_offers d1 = credit_offers d ∧ credit_deals d1 = credit_deals d ∧
            credit_deal_summaries d1 = credit_deal_summaries d) as (E1 & E2 & E3).
    { case_match; [by apply adjust_balance_credit in H1|by injection H1 as <-]. }
    apply tbl_remove_Ok in Ht as (v & Hv & ->). unfold credit_ok. simpl. rewrite E1, E2, E3 in *.
    destruct Hc as [Hp Ho' Hs]. split; [done| |done]. simplify_eq. by eapply offer_books_delete.
Qed.

Lemma credit_offer_update_offer_Ok op o o' :
  credit_offer_update_offer op o = Ok o' →
  let x := match cou_delta_amount op with Some x => amount x | None => 0 end in
  co_asset_type o' = co_asset_type o ∧ co_owner_account o' = co_owner_account o ∧
  co_total_balance o' = co_total_balance o + x ∧ co_current_balance o' = co_current_balance o + x.
Proof.
  unfold credit_offer_update_offer. intros. inv_ok; inv_share; subst; simpl; split_and!; (done || lia).
Qed.

#[global] Instance credit_offer_update_laws : EvaluatorLaws credit_offer_update_operation.
Proof.
  split; intros op d0 ctx d d' r Hok _ He F H; cbn in He, H;
    pose proof (fee_frame_credit _ _ F Hok) as Hc;
    destruct (fee_frame_credit_tables _ _ F) as (E0 & _);
    unfold credit_offer_update_do_evaluate in He; apply bind_Ok in He as (o0 & Ho0%tbl_get_Ok & He);
    apply bind_Ok in He as ([] & _ & He); apply bind_Ok in He as ([] & He & _);
    apply bind_Ok in H as (d1 & H1 & H); apply bind_Ok in H as (t & Ht & H);
    apply bind_Ok in H as (offer & Hoffer%tbl_get_Ok & H); apply bind_Ok in H as ([] & _ & H);
    apply bind_Ok in H as ([] & Hnn%FC_ASSERT_Ok & H); apply bind_Ok in H as ([] & Hle%FC_ASSERT_Ok & H);
    apply bind_Ok in H as ([] & _ & E); injection E as <- <-;
    apply offers_modify_moves in Ht as
      (o & o' & Ho & (Ea & Eo & Et & Ec)%credit_offer_update_offer_Ok & Er & M2);
    simpl in Hoffer; rewrite Er, lookup_insert_eq in Hoffer; injection Hoffer as <-; propify.
  - destruct (cou_delta_amount op) as [x|].
    + apply bind_Ok in He as ([] & Hi%FC_ASSERT_Ok & _). apply bind_Ok in H1 as (neg & Hneg & H1).
      pose proof (adjust_balance_credit _ _ _ _ H1) as (E1 & _). rewrite E1, E0 in Ho.
      rewrite Ho in Ho0. injection Ho0 as <-. apply adjust_balance_moves in H1. inv_asset. propify.
      eapply moves_ext; [eapply moves_trans; [exact H1|apply M2; split; lia]|].
      intros a. unfold held, credit_offer_holding. rewrite Ea, Ec. amt_solve.
    + injection H1 as <-. eapply moves_ext; [apply M2; split; lia|].
      intros a. unfold held, credit_offer_holding. rewrite Ea, Ec. amt_solve.
  - assert (credit_offers d1 = credit_offers d ∧ credit_deals d1 = credit_deals d ∧
            credit_deal_summaries d1 = credit_deal_summaries d) as (E1 & E2 & E3).
    { destruct (cou_delta_amount op); [|by injection H1 as <-].
      apply bind_Ok in H1 as (? & _ & H1). by apply adjust_balance_credit in H1. }
    unfold credit_ok. simpl. rewrite Er, E2, E3. rewrite E1 in *. destruct Hc as [Hp Hof Hs].
    split; [done| |done]. eapply offer_books_update; [exact Hof|exact Ho|done|done| |].
    + intros i c Hcl. left. eauto 10.
    + intros i. destruct (i =? cou_offer_id op); lia.
Qed.

#[global] Instance credit_deal_update_laws : EvaluatorLaws credit_deal_update_operation.
Proof.
  split; intros op d0 ctx d d' r Hok _ _ F H; cbn in H;
    pose proof (fee_frame_credit _ _ F Hok) as Hc;
    apply bind_Ok in H as (t & Ht & E); injection E as <- <-.
  - apply tbl_held_modify in Ht as (c & c' & _ & Hm & _ & E). injection Hm as <-.
    apply moves_credit_deals. intros a. rewrite E. unfold held, credit_deal_holding; simpl. lia.
  - apply tbl_modify_Ok in Ht as (c & c' & Hl & Hm & ->). injection Hm as <-.
    destruct Hc as [Hp Hof Hs].
    assert (∀ p, p (cd_with_auto_repay c (cdu_auto_repay op)) = p c →
      owed p (<[cdu_deal_id op := cd_with_auto_repay c (cdu_auto_repay op)]> (rows (credit_deals d)))
        = owed p (rows (credit_deals d))) as Hsum.
    { intros p Hpc. rewrite (owed_update _ _ _ c) by done. simpl. case_match; lia. }
    split; simpl.
    + intros i x [[<- <-]|[_ Hx]]%lookup_insert_Some; [by apply (Hp _ _ Hl)|by eapply Hp].
    + split.
      * intros i x [[<- <-]|[_ Hx]]%lookup_insert_Some; [|by eapply Hof].
        destruct (ob_deal _ _ Hof _ _ Hl) as (o & ? & ?). by exists o.
      * intros i o Ho. rewrite Hsum by done. by apply Hof.
    + split.
      * intros i x [[<- <-]|[_ Hx]]%lookup_insert_Some; [|by eapply Hs].
        destruct (sb_deal _ _ Hs _ _ Hl) as (sid & s & ? & ?). by exists sid, s.
      * intros i s Hi. rewrite Hsum by done. by eapply Hs.
      * apply Hs.
Qed.

Lemma credit_deal_create_moves v t d id :
  tbl_create v (credit_deals d) = Ok (id, t) → moves d (set_credit_deals t d) (held v).
Proof. intros H. apply moves_credit_deals. intros a. apply (tbl_held_create _ _ _ _ a H). Qed.

Lemma find_summary_Some d oid b x :
  find_summary d oid b = Some x →
  rows (credit_deal_summaries d) !! x.1 = Some x.2 ∧ cs_offer_id x.2 = oid ∧ cs_borrower x.2 = b.
Proof. intros [? H]%find_row_Some. unfold offer_borrower_key in H. by propify. Qed.

Lemma find_summary_None d oid b i s :
  find_summary d oid b = None → rows (credit_deal_summaries d) !! i = Some s →
  ¬ (cs_offer_id s = oid ∧ cs_borrower s = b).
Proof.
  intros H Hs [<- <-]. eapply find_row_None in H; [|exact Hs]. unfold offer_borrower_key in H.
  by rewrite !Z.eqb_refl in H.
Qed.

(** What [do_evaluate] of an acceptance establishes. *)
Lemma credit_offer_accept_ctx op d summ :
  credit_offer_accept_do_evaluate op d = Ok summ →
  ∃ o, rows (credit_offers d) !! coa_offer_id op = Some o ∧
    co_asset_type o = asset_id (coa_borrow_amount op) ∧
    summ = fst <$> find_summary d (coa_offer_id op) (coa_borrower op).
Proof.
  unfold credit_offer_accept_do_evaluate. intros H. apply bind_Ok in H as ([] & _ & H).
  apply bind_Ok in H as (o & Ho%tbl_get_Ok & H). exists o. split; [done|].
  apply bind_Ok in H as ([] & _ & H). apply bind_Ok in H as ([] & Hi%FC_ASSERT_Ok & H).
  do 4 (apply bind_Ok in H as ([] & _ & H)). propify. split; [done|].
  destruct (co_acceptable_collateral o !! _); [|done].
  repeat (apply bind_Ok in H as (? & _ & H)). by injection H as <-.
Qed.

(** What [do_apply] of an acceptance does to the tables. *)
Lemma credit_offer_accept_effect op summ d d' r :
  credit_offer_accept_do_apply op summ d = Ok (d', r) →
  ∃ o o' id, rows (credit_offers d) !! coa_offer_id op = Some o ∧
    o' = co_with_balances o (co_total_balance o) (co_current_balance o - amount (coa_borrow_amount op)) ∧
    rows (credit_deals d) !! id = None ∧
    rows (credit_offers d') = <[coa_offer_id op := o']> (rows (credit_offers d)) ∧
    rows (credit_deals d') = <[id := new_deal op o (repay_deadline (head_block_time d)
      (co_max_duration_seconds o))]> (rows (credit_deals d)) ∧
    add_to_summary op o' summ (credit_deal_summaries d) = Ok (credit_deal_summaries d') ∧
    moves d d' (λ a, amt (asset_id (coa_borrow_amount op)) (amount (coa_borrow_amount op)) a
                     - amt (co_asset_type o) (amount (coa_borrow_amount op)) a).
Proof.
  unfold credit_offer_accept_do_apply. intros H.
  apply bind_Ok in H as (neg & Hneg & H). apply bind_Ok in H as (d1 & H1 & H).
  apply bind_Ok in H as (d2 & H2 & H). apply bind_Ok in H as (t3 & H3 & H).
  apply bind_Ok in H as (offer & Hoffer%tbl_get_Ok & H). apply bind_Ok in H as ([id t4] & H4 & H).
  apply bind_Ok in H as (t5 & H5 & H). apply bind_Ok in H as ([] & _ & H).
  apply bind_Ok in H as ([] & Hnn%FC_ASSERT_Ok & H). apply bind_Ok in H as ([] & Hle%FC_ASSERT_Ok & H).
  do 2 (apply bind_Ok in H as ([] & _ & H)). injection H as <- <-.
  apply offers_modify_moves in H3 as (o & o' & Ho & Hm & Er & M3).
  simpl in Hoffer. rewrite Er, lookup_insert_eq in Hoffer. injection Hoffer as <-.
  pose proof (credit_deal_create_moves _ _ _ _ H4) as M4. apply tbl_create_Ok in H4 as (-> & Hn & ->).
  pose proof H1 as M1%adjust_balance_moves. pose proof H2 as M2%adjust_balance_moves.
  apply adjust_balance_frame in H1 as [m1 ->], H2 as [m2 ->]. simpl in *.
  apply bind_Ok in Hm as (cur & Hcur & E). injection E as <-. inv_share. inv_asset. propify.
  eexists o, _, (next_id (credit_deals d)). split_and!; try done.
  eapply moves_ext; [eapply moves_trans; [|apply moves_credit_deal_summaries];
    do 3 (eapply moves_trans; [|eassumption || (apply M3; intros _; split; simpl; lia)]); eassumption|].
  intros a. unfold held, credit_offer_holding, credit_deal_holding; simpl. amt_solve.
Qed.

#[global] Instance credit_offer_accept_laws : EvaluatorLaws credit_offer_accept_operation.
Proof.
  split; intros op d0 ctx d d' r Hok Hv He F H; cbn in Hv, He, H;
    pose proof (fee_frame_credit _ _ F Hok) as Hc;
    destruct (fee_frame_credit_tables _ _ F) as (E0 & _ & E2 & _);
    apply credit_offer_accept_ctx in He as (o0 & Ho0 & Ea & Hsumm);
    apply credit_offer_accept_effect in H as (o & o' & id & Ho & -> & Hid & Eo & Ed & Es & M);
    rewrite <- E0, Ho in Ho0; injection Ho0 as <-.
  - eapply moves_ext; [exact M|]. intros a. simpl. rewrite Ea. lia.
  - unfold credit_ok. rewrite Eo, Ed.
    unfold credit_offer_accept_validate in Hv. apply bind_Ok in Hv as ([] & _ & Hv).
    apply bind_Ok in Hv as ([] & Hb%FC_ASSERT_Ok & Hv). apply bind_Ok in Hv as ([] & Hcol%FC_ASSERT_Ok & _).
    propify. eapply (credit_books_lend _ _ _ Hc _ (new_deal op o _)); try done; [simpl; lia|].
    assert (find_summary d (coa_offer_id op) (coa_borrower op)
            = find_summary d0 (coa_offer_id op) (coa_borrower op)) as Ef
      by (unfold find_summary; by rewrite E2).
    rewrite <- Ef in Hsumm. destruct (find_summary d _ _) as [[sid s]|] eqn:Hfind; subst ctx; unfold add_to_summary in Es; cbn [fmap option_fmap option_map fst] in Es.
    + apply find_summary_Some in Hfind as (Hs & Q1 & Q2). simpl in *. left.
      apply tbl_modify_Ok in Es as (s1 & s2 & Hs1 & Hm & ->). simplify_eq. inv_ok. inv_share. subst.
      eexists sid, s, (cs_with_debt s _). by split_and!.
    + right. apply bind_Ok in Es as ([sid t] & Ht & E). injection E as <-.
      apply tbl_create_Ok in Ht as (-> & Hn & ->).
      eexists (next_id (credit_deal_summaries d)), (new_summary op _).
      split_and!; try done. intros j t Hj [Q1 Q2].
      by apply (find_summary_None _ _ _ _ _ Hfind Hj).
Qed.

Lemma reduce_summary_Ok sid s x d d' :
  reduce_summary (sid, s) x d = Ok d' → rows (credit_deal_summaries d) !! sid = Some s →
  ∃ t, d' = set_credit_deal_summaries t d ∧
    ((cs_total_debt_amount s = x ∧ rows t = delete sid (rows (credit_deal_summaries d))) ∨
     (∃ s', rows t = <[sid := s']> (rows (credit_deal_summaries d)) ∧ cs_offer_id s' = cs_offer_id s ∧
        cs_borrower s' = cs_borrower s ∧ cs_total_debt_amount s' = cs_total_debt_amount s - x)).
Proof.
  unfold reduce_summary. simpl. intros H Hs. destruct (Z.eqb_spec (cs_total_debt_amount s) x);
    apply bind_Ok in H as (t & Ht & E); injection E as <-; exists t; (split; [done|]).
  - apply tbl_remove_Ok in Ht as (? & _ & ->). by left.
  - apply tbl_modify_Ok in Ht as (s1 & s2 & Hs1 & Hm & ->). simplify_eq. inv_ok. inv_share. subst.
    right. eexists. by split_and!.
Qed.

Lemma settle_deal_Ok id c x d d' released :
  settle_deal id c x d = Ok (d', released) → rows (credit_deals d) !! id = Some c →
  0 < cd_debt_amount c → 0 < cd_collateral_amount c →
  ∃ t, d' = set_credit_deals t d ∧ settled id c x (rows (credit_deals d)) (rows t) ∧
    moves d d' (amt (cd_collateral_asset c) (- released)).
Proof.
  unfold settle_deal. intros H Hc Hdebt Hpos. destruct (Z.eqb_spec (cd_debt_amount c) x) as [Ex|Ex].
  - apply bind_Ok in H as (t & Ht & E). injection E as <- <-. exists t. split; [done|].
    pose proof (λ a, tbl_held_remove _ _ _ _ a Hc Ht) as Hh.
    apply tbl_remove_Ok in Ht as (? & _ & ->). split; [by left|].
    eapply moves_ext; [apply moves_credit_deals; intros a; rewrite Hh; apply (Z.add_opp_r _ _)|].
    intros a. unfold held, credit_deal_holding. amt_solve.
  - set (rel := u128_div _ _) in H. apply bind_Ok in H as ([] & Hlt%FC_ASSERT_Ok & H).
    apply bind_Ok in H as (t & Ht & E). injection E as <- <-. exists t. split; [done|].
    apply tbl_modify_Ok in Ht as (c1 & c' & Hc1 & Hm & ->). rewrite Hc in Hc1. injection Hc1 as <-.
    apply bind_Ok in Hm as (debt & Hd & Hm). apply bind_Ok in Hm as (coll & Hcoll & E).
    injection E as <-. inv_share. subst. propify.
    assert (0 ≤ rel) by (apply Z.div_pos; [apply u128_range|done]).
    pose proof (u128_le (cd_collateral_amount c)). pose proof (to_int64_le rel).
    split.
    + right. split; [done|]. eexists. split_and!; try done. simpl. lia.
    + eapply moves_ext; [apply moves_credit_deals|].
      * intros a. rewrite (tbl_held_update _ _ c) by done. rewrite <- Z.add_sub_swap. symmetry.
        apply Z.add_sub_assoc.
      * intros a. unfold held, credit_deal_holding; simpl. amt_solve.
Qed.

(** The repayment of [x] by the borrower of a deal. *)
Lemma credit_deal_repay_effect op d d' r deal :
  credit_ok d → credit_deal_repay_validate op = Ok () →
  rows (credit_deals d) !! cdr_deal_id op = Some deal → cd_borrower deal = cdr_account op →
  cd_debt_asset deal = asset_id (cdr_repay_amount op) →
  amount (cdr_repay_amount op) ≤ cd_debt_amount deal →
  credit_deal_repay_do_apply op () d = Ok (d', r) →
  conserves d d' ∧ credit_ok d' ∧ head_block_time d' = head_block_time d ∧
  settled (cdr_deal_id op) deal (amount (cdr_repay_amount op)) (rows (credit_deals d))
    (rows (credit_deals d')).
Proof.
  intros Hc Hv Hdeal Hbor Hi Hle H. unfold credit_deal_repay_validate, credit_deal_repay_do_apply in *.
  apply bind_Ok in Hv as ([] & _ & Hv). apply bind_Ok in Hv as ([] & Hx%FC_ASSERT_Ok & Hv).
  apply bind_Ok in Hv as ([] & Hfee%FC_ASSERT_Ok & _).
  set (x := amount (cdr_repay_amount op)) in *. set (fee := amount (cdr_credit_fee op)) in *.
  apply bind_Ok in H as (deal1 & Hdeal1%tbl_get_Ok & H). rewrite Hdeal in Hdeal1. injection Hdeal1 as <-.
  apply bind_Ok in H as (total & Htotal & H). apply bind_Ok in H as (neg & Hneg & H).
  apply bind_Ok in H as (d1 & H1 & H). apply bind_Ok in H as (t2 & H2 & H).
  apply bind_Ok in H as (offer & Hoffer%tbl_get_Ok & H). apply bind_Ok in H as ([] & Hcap%FC_ASSERT_Ok & H).
  apply offers_modify_moves in H2 as (o & o' & Ho & Hm & Er & M2).
  simpl in Hoffer. rewrite Er, lookup_insert_eq in Hoffer. injection Hoffer as <-.
  apply bind_Ok in Hm as (tot & Htot & Hm). apply bind_Ok in Hm as (cur & Hcur & E). injection E as <-.
  destruct (find_summary _ _ _) as [[sid s]|] eqn:Hs; [|done]. apply find_summary_Some in Hs as (Hs & Q1 & Q2).
  apply bind_Ok in H as (d3 & H3 & H). apply bind_Ok in H as ([d4 released] & H4 & H).
  apply bind_Ok in H as (d5 & H5 & E). injection E as <- _. simpl in *.
  apply reduce_summary_Ok in H3 as (t3 & -> & Hred); [|done].
  pose proof H1 as M1%adjust_balance_moves. apply adjust_balance_frame in H1 as [m1 ->]. simpl in *.
  destruct (cb_deals _ _ _ Hc _ _ Hdeal) as [Hdp Hcp].
  apply settle_deal_Ok in H4 as (t4 & -> & Hset & M4); [|done..]. simpl in *.
  pose proof H5 as M5%adjust_balance_moves. apply adjust_balance_frame in H5 as [m5 ->].
  inv_share. propify. subst. destruct (ob_deal _ _ (cb_offers _ _ _ Hc) _ _ Hdeal) as (o1 & Ho1 & Ea & Eown).
  rewrite Ho in Ho1. injection Ho1 as <-. split_and!; [| |done|done].
  - eapply moves_ext; [eapply moves_trans; [eapply moves_trans; [eapply moves_trans; [eapply moves_trans;
      [exact M1|apply M2]|apply moves_credit_deal_summaries]|exact M4]|exact M5]|].
    + intros [? ?]. split; simpl; lia.
    + intros a. unfold held, credit_offer_holding; simpl. rewrite Ea, Hi. amt_solve.
  - unfold credit_ok. simpl. rewrite Er.
    eapply (credit_books_settle _ _ _ Hc _ _ x); [exact Hdeal|lia|exact Hset|exact Ho|done|done|simpl; lia
      |exact Hs|split; congruence|exact Hred].
Qed.

#[global] Instance credit_deal_repay_laws : EvaluatorLaws credit_deal_repay_operation.
Proof.
  split; intros op d0 [] d d' r Hok Hv He F H; cbn in Hv, He, H;
    pose proof (fee_frame_credit _ _ F Hok) as Hc;
    destruct (fee_frame_credit_tables _ _ F) as (_ & E0 & _);
    apply bind_Ok in He as (deal & Hdeal%tbl_get_Ok & He);
    apply bind_Ok in He as ([] & Hb%FC_ASSERT_Ok & He);
    apply bind_Ok in He as ([] & Hi%FC_ASSERT_Ok & He);
    apply bind_Ok in He as ([] & Hle%FC_ASSERT_Ok & _); propify; rewrite <- E0 in Hdeal;
    by eapply credit_deal_repay_effect.
Qed.
