(* ===== verification/CreditTheorems.v ===== *)
(** * Properties of credit offers and deals

    The processing of deals that are due at the end of a block, on a state whose books are in
    order. *)
From S2P Require Import Prelude MachineInt Hardfork Asset Vesting ChainState Ledger CreditBooks Balance Fees Evaluator Sample CreditOffer.

(** ** Expired deals *)

Lemma disable_expired_offers_ok d : chain_ok d → chain_ok (disable_expired_offers d) ∧ conserves d (disable_expired_offers d).
Proof.
  intros Hok. set (g := λ o, if co_enabled o && (co_auto_disable_time o <=? head_block_time d)
           then co_with_enabled o false else o).
  assert (∀ o, co_asset_type (g o) = co_asset_type o ∧ co_owner_account (g o) = co_owner_account o ∧
    co_total_balance (g o) = co_total_balance o ∧ co_current_balance (g o) = co_current_balance o) as Hg.
  { intros o. unfold g. by case_match. }
  assert (conserves d (disable_expired_offers d)) as M.
  { apply moves_credit_offers.
    - intros a. unfold tbl_held; simpl. fold g. rewrite Z.add_0_r.
      induction (rows (credit_offers d)) as [|k o m Hk IH] using map_ind; [by rewrite fmap_empty|].
      rewrite fmap_insert, !msum_insert_new, IH by (done || by rewrite lookup_fmap, Hk).
      unfold held, credit_offer_holding. destruct (Hg o) as (-> & _ & _ & ->). done.
    - intros Hb i o. simpl. rewrite lookup_fmap_Some. intros (o0 & <- & Ho).
      pose proof (ok_offers _ Hb _ _ Ho) as [? ?]. destruct (Hg o0) as (_ & _ & E1 & E2).
      change (offer_ok (g o0)). unfold offer_ok. by rewrite E1, E2. }
  split; [|done]. split; [apply M, Hok|]. destruct (ch_credit _ Hok) as [Hp Ho Hs]. split; [done| |done].
  simpl. fold g. split.
  - intros i c Hc. destruct (ob_deal _ _ Ho _ _ Hc) as (o & Hl & E1 & E2). exists (g o).
    rewrite lookup_fmap, Hl. split; [done|]. destruct (Hg o) as (? & ? & _). split; congruence.
  - intros i o. rewrite lookup_fmap_Some. intros (o0 & <- & Hl). destruct (Hg o0) as (_ & _ & -> & ->).
    by apply Ho.
Qed.

Lemma expire_deal_effect id deal d d' :
  chain_ok d → rows (credit_deals d) !! id = Some deal → expire_deal id deal d = Ok d' →
  chain_ok d' ∧ conserves d d' ∧ head_block_time d' = head_block_time d ∧
  rows (credit_deals d') = delete id (rows (credit_deals d)).
Proof.
  intros [Hb Hc] Hdeal H. unfold expire_deal in H. apply bind_Ok in H as (t1 & H1 & H).
  apply offers_modify_moves in H1 as (o & o' & Ho & Hm & Er & M1).
  apply bind_Ok in Hm as (tot & Htot & E). injection E as <-. inv_share. subst.
  destruct (cb_deals _ _ _ Hc _ _ Hdeal) as [Hdp Hcp].
  destruct (sb_deal _ _ (cb_summaries _ _ _ Hc) _ _ Hdeal) as (sid & s & Hs & Q1 & Q2).
  destruct (find_summary _ _ _) as [[sid' s']|] eqn:Hf in H.
  2:{ exfalso. eapply find_summary_None; [exact Hf|exact Hs|done]. }
  apply find_summary_Some in Hf as (Hs' & F1 & F2). simpl in *.
  assert (sid' = sid) as -> by (eapply (sb_unique _ _ (cb_summaries _ _ _ Hc)); [done|done|congruence..]).
  simplify_eq. apply bind_Ok in H as (d2 & H2 & H). apply reduce_summary_Ok in H2 as (t2 & -> & Hred); [|done].
  apply bind_Ok in H as (d3 & H3 & H). apply bind_Ok in H as (t4 & H4 & E). injection E as <-.
  pose proof H3 as M3%adjust_balance_moves. apply adjust_balance_frame in H3 as [m3 ->]. simpl in *.
  pose proof (λ a, tbl_held_remove _ _ _ _ a Hdeal H4) as Hh. apply tbl_remove_Ok in H4 as (? & _ & ->).
  destruct (ob_deal _ _ (cb_offers _ _ _ Hc) _ _ Hdeal) as (o1 & Ho1 & Ea & Eown). simplify_eq.
  pose proof (owed_ge (of_offer (cd_offer_id deal)) _ _ _ (cb_deals _ _ _ Hc) Hdeal (Z.eqb_refl _)) as Hge.
  rewrite <- (ob_offer _ _ (cb_offers _ _ _ Hc) _ _ Ho) in Hge.
  assert (conserves d (set_credit_deals (Table (next_id (credit_deals d)) (delete id (rows (credit_deals d))))
    (set_balances m3 (set_credit_deal_summaries t2 (set_credit_offers t1 d))))) as M.
  { eapply moves_ext; [eapply moves_trans; [eapply moves_trans; [eapply moves_trans;
      [apply M1|apply moves_credit_deal_summaries]|exact M3]|apply moves_credit_deals]|].
    - intros [? ?]. split; simpl; lia.
    - intros a. simpl. rewrite Hh. apply (Z.add_opp_r _ _).
    - intros a. unfold held, credit_offer_holding, credit_deal_holding; simpl. amt_solve. }
  split_and!; [|exact M|done|done]. split; [by apply M|]. unfold credit_ok. simpl. rewrite Er.
  eapply (credit_books_settle _ _ _ Hc _ _ (cd_debt_amount deal)); [exact Hdeal|lia|by left|exact Ho
    |done|done|simpl; lia|eassumption|done|exact Hred].
Qed.

(** An automatic repayment changes no other deal; it may settle the deal in part or in full. *)
Lemma try_repay_effect op d deal :
  chain_ok d → rows (credit_deals d) !! cdr_deal_id op = Some deal →
  chain_ok (try_repay op d) ∧ conserves d (try_repay op d) ∧
  head_block_time (try_repay op d) = head_block_time d ∧
  (rows (credit_deals (try_repay op d)) = rows (credit_deals d) ∨
   settled (cdr_deal_id op) deal (amount (cdr_repay_amount op)) (rows (credit_deals d))
     (rows (credit_deals (try_repay op d)))).
Proof.
  intros Hok Hdeal. unfold try_repay.
  destruct (_ ≫= _) as [[d' r]|] eqn:H; [|split_and!; [done|reflexivity|done|by left]].
  apply bind_Ok in H as ([] & Hv & H).
  split_and!; [exact (start_evaluate_chain_ok _ true op d d' r Hok Hv H)
    |exact (start_evaluate_conserves _ true op d d' r Hok Hv H)|..];
    apply start_evaluate_inv in H as (ctx & d1 & d2 & m & He & F & Ha & ->); destruct ctx;
    cbn in He, Ha; destruct (fee_frame_credit_tables _ _ F) as (_ & E & _ & Et);
    unfold credit_deal_repay_do_evaluate in He; apply bind_Ok in He as (deal' & Hl%tbl_get_Ok & He);
    rewrite Hdeal in Hl; injection Hl as <-;
    apply bind_Ok in He as ([] & Hb%FC_ASSERT_Ok & He); apply bind_Ok in He as ([] & Hi%FC_ASSERT_Ok & He);
    apply bind_Ok in He as ([] & Hle%FC_ASSERT_Ok & _); propify; rewrite <- E in Hdeal;
    apply (credit_deal_repay_effect _ _ _ _ deal) in Ha as (_ & _ & Et' & Hset); try done;
    try (by eapply fee_frame_credit).
  - simpl. by rewrite Et', Et.
  - right. by rewrite <- E.
Qed.

Lemma process_due_deal_effect id deal d d' :
  chain_ok d → rows (credit_deals d) !! id = Some deal → process_due_deal id deal d = Ok d' →
  chain_ok d' ∧ conserves d d' ∧ head_block_time d' = head_block_time d ∧
  rows (credit_deals d') = delete id (rows (credit_deals d)).
Proof.
  intros Hok Hdeal H. unfold process_due_deal in H. apply bind_Ok in H as (d1 & H1 & H).
  assert (chain_ok d1 ∧ conserves d d1 ∧ head_block_time d1 = head_block_time d ∧
    delete id (rows (credit_deals d1)) = delete id (rows (credit_deals d)) ∧
    (rows (credit_deals d1) !! id = None → rows (credit_deals d1) = delete id (rows (credit_deals d))))
    as (Hok1 & M1 & T1 & D1 & N1).
  { destruct (negb _).
    - apply bind_Ok in H1 as (op & Hop & E). injection E as <-.
      assert (cdr_deal_id op = id) as Ei.
      { unfold auto_repay_operation in Hop. by apply bind_Ok in Hop as ([] & _ & [= <-]). }
      subst id. destruct (try_repay_effect op d deal Hok Hdeal) as (? & ? & ? & Hr). split_and!; [done..| |].
      + destruct Hr as [-> |[[_ ->]|(_ & c' & -> & _)]]; [done|by rewrite delete_delete_eq|
          by rewrite delete_insert_eq].
      + destruct Hr as [-> |[[_ ->]|(_ & c' & -> & _)]]; [congruence|done|
          by rewrite lookup_insert_eq].
    - injection H1 as <-. split_and!; [done|reflexivity|done|done|congruence]. }
  destruct (rows (credit_deals d1) !! id) as [deal1|] eqn:E1.
  - apply expire_deal_effect in H as (? & M2 & T2 & ->); [|done..].
    split_and!; [done|by etrans|congruence|done].
  - injection H as <-. split_and!; auto.
Qed.

(** ** The loop *)

Definition not_due (now : Z) (x : Z * credit_deal_object) : Prop := now < cd_latest_repay_time x.2.
#[global] Instance not_due_dec now x : Decision (not_due now x).
Proof. unfold not_due. apply _. Defined.

Lemma process_due_deals_spec fuel d d' :
  chain_ok d → (size (rows (credit_deals d)) ≤ fuel)%nat → process_due_deals fuel d = Ok d' →
  chain_ok d' ∧ conserves d d' ∧
  rows (credit_deals d') = filter (not_due (head_block_time d)) (rows (credit_deals d)).
Proof.
  assert (∀ e, (∀ i c, rows (credit_deals e) !! i = Some c → head_block_time e < cd_latest_repay_time c) →
    rows (credit_deals e) = filter (not_due (head_block_time e)) (rows (credit_deals e))) as Hall.
  { intros e He. symmetry. apply map_filter_id. intros i c Hc. by apply (He i). }
  revert d. induction fuel as [|fuel IH]; intros d Hok Hsize H; simpl in H.
  - injection H as <-. split_and!; [done|reflexivity|]. apply Hall. intros i c Hc.
    assert (rows (credit_deals d) = ∅) as E by (apply map_size_empty_inv; lia).
    by rewrite E, lookup_empty in Hc.
  - destruct (first_by _ _) as [[id deal]|] eqn:Hf.
    + apply first_by_Some in Hf as [Hdeal Hmin]. simpl in *.
      destruct (Z.leb_spec (cd_latest_repay_time deal) (head_block_time d)).
      * apply bind_Ok in H as (d1 & H1 & H).
        apply process_due_deal_effect in H1 as (Hok1 & M1 & T1 & D1); [|done..].
        assert (is_Some (rows (credit_deals d) !! id)) as Hsome by (by eexists).
        apply IH in H as (Hok' & M' & D'); [|done|rewrite D1, map_size_delete_Some by done; lia].
        split_and!; [done|by etrans|]. rewrite D', D1, T1. symmetry.
        rewrite map_filter_delete. symmetry. apply delete_id.
        apply map_lookup_filter_None. right. intros c Hc. simplify_eq. unfold not_due. simpl. lia.
      * injection H as <-. split_and!; [done|reflexivity|]. apply Hall. intros i c Hc.
        pose proof (Hmin _ _ Hc). lia.
    + injection H as <-. split_and!; [done|reflexivity|]. apply Hall. intros i c Hc.
      apply first_by_None in Hf. by rewrite Hf, lookup_empty in Hc.
Qed.

(** C21: the end-of-block processing of credit offers and deals does its job and keeps the books.
    Suppose the state satisfies [chain_ok] and [update_credit_offers_and_deals] returns (it may
    instead fail, for instance as in [credit_processing_divides_by_zero]). Then exactly the deals
    whose deadline has passed are gone and all others are left as they were, so that the bound of
    the model's loop has not cut it short; the difference between what is held of every asset and
    its supply is unchanged, and [chain_ok] holds again, in particular what every offer has lent out
    is the sum of its open deals and the borrowers' summaries agree with the deals. *)
Theorem credit_deals_processed d d' :
  chain_ok d → update_credit_offers_and_deals d = Ok d' →
  rows (credit_deals d') = filter (not_due (head_block_time d)) (rows (credit_deals d)) ∧
  conserves d d' ∧ chain_ok d'.
Proof.
  unfold update_credit_offers_and_deals. intros Hok H.
  destruct (disable_expired_offers_ok d Hok) as [Hok1 M1].
  apply process_due_deals_spec in H as (? & M2 & E); [|done|simpl; lia].
  split_and!; [exact E|by etrans|done].
Qed.

(** *** A sample: two loans from one offer, both due. *)
Definition run_op `{Evaluator Op} (op : Op) (d : database) : result database :=
  validate op;; '(d, _) ← start_evaluate (λ _, 0) false op d; Ok d.

Lemma run_op_chain_ok `{EvaluatorLaws Op} (op : Op) d d' :
  chain_ok d → run_op op d = Ok d' → chain_ok d'.
Proof.
  unfold run_op. intros Hok H1. apply bind_Ok in H1 as ([] & Hv & H1).
  apply bind_Ok in H1 as ([d1 r] & H1 & E). injection E as <-.
  exact (start_evaluate_chain_ok _ _ _ _ _ _ Hok Hv H1).
Qed.

Definition sample_credit_db : result database :=
  d ← run_op (CreditOfferCreateOperation (Asset 0 0) 100 1 10000 10000 3600 1 true (sample_time + 86400)
               {[ 2 := Price (Asset 1 1) (Asset 2 2) ]} ∅) sample_db;
  d ← run_op (CreditOfferAcceptOperation (Asset 0 0) 100 0 (Asset 400 1) (Asset 900 2) 20000 3600
               (Some allow_partial_repayment)) d;
  run_op (CreditOfferAcceptOperation (Asset 0 0) 100 0 (Asset 600 1) (Asset 1300 2) 20000 3600 None) d.

(** The same state, [s] seconds later. *)
Definition later (s : Z) (d : database) : database :=
  Database (head_block_time d + s) (next_maintenance_time d) (parameters d) (balances d) (accounts d)
    (statistics d) (assets d) (dynamic_data d) (vesting_balances d) (liquidity_pools d) (samet_funds d)
    (credit_offers d) (credit_deals d) (credit_deal_summaries d) (htlcs d) (tickets d)
    (withdraw_permissions d) (limit_orders d) (total_pob d) (total_inactive d) (active_witnesses_size d).

Lemma later_chain_ok s d : chain_ok d → chain_ok (later s d).
Proof. intros [[] Hc]. split; [by split|exact Hc]. Qed.

Lemma sample_chain_ok : chain_ok sample_db.
Proof.
  split; [apply sample_books_ok|]. unfold credit_ok. simpl.
  split; [intros i c|split; intros i c|split; [intros i c|intros i c|intros i j c e]];
    by rewrite lookup_empty.
Qed.

Lemma sample_credit_chain_ok d : sample_credit_db = Ok d → chain_ok d.
Proof.
  unfold sample_credit_db. intros H. apply bind_Ok in H as (d1 & H1 & H).
  apply bind_Ok in H as (d2 & H2 & H).
  pose proof (run_op_chain_ok _ _ _ sample_chain_ok H1) as K1.
  pose proof (run_op_chain_ok _ _ _ K1 H2) as K2. exact (run_op_chain_ok _ _ _ K2 H).
Qed.

Lemma credit_deals_processed_witness : ∃ d d', sample_credit_db = Ok d ∧
  update_credit_offers_and_deals (later 4000 d) = Ok d' ∧
  size (rows (credit_deals d)) = 2%nat ∧ rows (credit_deals d') = ∅ ∧ chain_ok d'.
Proof.
  destruct sample_credit_db as [d|] eqn:E; [|vm_compute in E; discriminate].
  exists d. pose proof (later_chain_ok 4000 d (sample_credit_chain_ok d E)) as Hok.
  destruct (update_credit_offers_and_deals (later 4000 d)) as [d'|] eqn:H;
    [|vm_compute in E; injection E as <-; vm_compute in H; discriminate].
  exists d'. destruct (credit_deals_processed _ _ Hok H) as (Hd & _ & Hok').
  split_and!; [done|done|by vm_compute in E; injection E as <-| |exact Hok'].
  rewrite Hd. vm_compute in E. injection E as <-. vm_compute. reflexivity.
Defined.

(** ** Automatic partial repayment *)

#[local] Notation DENOM := GRAPHENE_FEE_RATE_DENOM.

(** The three roundings: what [bal] can repay at [rate], the collateral for it rounded down, and
    the debt for that collateral rounded up. *)
Lemma partial_repayment_math bal rate debt coll :
  0 ≤ bal → 0 ≤ rate → 0 < debt → 0 < coll →
  let r0 := bal * DENOM / (DENOM + rate) in
  let rel := r0 * coll / debt in
  let r := div_up (rel * debt) coll in
  let f := div_up (r * rate) DENOM in
  0 ≤ r0 ∧ 0 ≤ rel ∧ 0 ≤ r ≤ r0 ∧ 0 ≤ f ∧ r + f ≤ bal ∧ rel * debt ≤ r * coll ∧ r * coll < rel * debt + coll.
Proof.
  intros Hb Hr Hd Hc r0 rel r f. assert (0 < DENOM) as HD by done.
  pose proof (div_down_spec (bal * DENOM) (DENOM + rate) ltac:(lia)) as H0. fold r0 in H0.
  pose proof (div_down_spec (r0 * coll) debt Hd) as H1. fold rel in H1.
  pose proof (div_up_spec (rel * debt) coll Hc) as H2. fold r in H2.
  assert (0 ≤ r0) as N0 by (apply Z.div_pos; nia).
  assert (0 ≤ rel) as N1 by (apply Z.div_pos; nia).
  assert (0 ≤ r) as N2 by (apply div_up_nonneg; nia).
  assert (r ≤ r0) as L by (apply div_up_le; lia).
  assert (0 ≤ f) as N3 by (apply div_up_nonneg; nia).
  assert (f ≤ bal - r) by (apply div_up_le; nia).
  split_and!; lia.
Qed.

Lemma partial_repayment_spec deal bal :
  is_share bal → 0 ≤ bal → is_share (cd_debt_amount deal) → is_share (cd_collateral_amount deal) →
  0 < cd_debt_amount deal → 0 < cd_collateral_amount deal →
  0 ≤ cd_fee_rate deal → DENOM + cd_fee_rate deal < 2 ^ 32 →
  bal * DENOM / (DENOM + cd_fee_rate deal) ≤ cd_debt_amount deal →
  let rel := bal * DENOM / (DENOM + cd_fee_rate deal) * cd_collateral_amount deal / cd_debt_amount deal in
  let r := div_up (rel * cd_debt_amount deal) (cd_collateral_amount deal) in
  partial_repayment deal bal = Ok (r, div_up (r * cd_fee_rate deal) DENOM).
Proof.
  intros Tb Hb Td Tc Hd Hc Hr Hw Hle rel r. unfold partial_repayment, fee_rate_divisor.
  destruct (partial_repayment_math bal (cd_fee_rate deal) (cd_debt_amount deal)
    (cd_collateral_amount deal) Hb Hr Hd Hc) as (N0 & N1 & [N2 L] & N3 & Haff & _).
  set (r0 := bal * DENOM / (DENOM + cd_fee_rate deal)) in *. fold rel in N1, N2, L, Haff. fold r in N2, L, Haff, N3.
  assert (rel ≤ cd_collateral_amount deal) by (apply Z.div_le_upper_bound; nia).
  assert (0 < DENOM) as HD by done.
  rewrite (u128_share bal), (u128_share (cd_debt_amount deal)), (u128_share (cd_collateral_amount deal))
    by (done || lia).
  assert (is_share r0 ∧ is_share rel ∧ is_share r ∧ is_share DENOM) as (T0 & T1 & T2 & TD)
    by (unfold is_share, INT64_MIN, INT64_MAX, GRAPHENE_FEE_RATE_DENOM in *; lia).
  rewrite (Z.mod_small (GRAPHENE_FEE_RATE_DENOM + cd_fee_rate deal)) by lia.
  unfold u128_div_nz. rewrite (proj2 (Z.eqb_neq (DENOM + cd_fee_rate deal) 0)) by lia. simpl.
  rewrite (u128_mul_share bal DENOM) by (done || lia).
  change (u128_div (bal * DENOM) (DENOM + cd_fee_rate deal)) with r0.
  rewrite (proj2 (Z.eqb_neq (cd_debt_amount deal) 0)) by lia. simpl.
  rewrite (u128_mul_share r0) by (done || lia).
  change (u128_div (r0 * cd_collateral_amount deal) (cd_debt_amount deal)) with rel.
  rewrite (proj2 (Z.eqb_neq (cd_collateral_amount deal) 0)) by lia. simpl.
  rewrite (u128_mul_share rel) by (done || lia).
  rewrite u128_div_up_small; [fold r|lia|nia|unfold is_share, INT64_MAX, UINT128_MOD in *; nia].
  do 2 f_equal. rewrite (u128_mul_share r) by
    (done || lia || unfold is_share, INT64_MIN, INT64_MAX, GRAPHENE_FEE_RATE_DENOM in *; lia).
  apply u128_div_up_small; [lia|nia|].
  unfold is_share, INT64_MAX, UINT128_MOD, GRAPHENE_FEE_RATE_DENOM in *. nia.
Qed.

(** A partial automatic repayment is one the borrower can afford and that the deal can take.
    With a balance too small to repay in full and a fee rate below about 4294, the amounts
    computed are not negative, their sum is within the balance, the fee is the one the repayment
    operation requires, less than the whole debt is repaid, and the collateral released for it
    (rounded down) is just paid for: repaying one unit less would release less. *)
Theorem partial_repayment_affordable deal bal :
  is_share bal → 0 ≤ bal → is_share (cd_debt_amount deal) → is_share (cd_collateral_amount deal) →
  0 < cd_debt_amount deal → 0 < cd_collateral_amount deal →
  0 ≤ cd_fee_rate deal → DENOM + cd_fee_rate deal < 2 ^ 32 →
  bal < cd_debt_amount deal + fee_rate_charge (cd_debt_amount deal) (cd_fee_rate deal) →
  ∃ r f, partial_repayment deal bal = Ok (r, f) ∧ 0 ≤ r < cd_debt_amount deal ∧ 0 ≤ f ∧ r + f ≤ bal ∧
    f = fee_rate_charge r (cd_fee_rate deal) ∧
    let rel := r * cd_collateral_amount deal / cd_debt_amount deal in
    (r - 1) * cd_collateral_amount deal < rel * cd_debt_amount deal.
Proof.
  intros Tb Hb Td Tc Hd Hc Hr Hw Hbal.
  rewrite fee_rate_charge_spec in Hbal by (done || unfold GRAPHENE_FEE_RATE_DENOM in *; lia).
  assert (0 < DENOM) as HD by done.
  pose proof (div_up_spec (cd_debt_amount deal * cd_fee_rate deal) DENOM HD) as Hup.
  assert (bal * DENOM < cd_debt_amount deal * (DENOM + cd_fee_rate deal)) as Hlt by nia.
  assert (bal * DENOM / (DENOM + cd_fee_rate deal) < cd_debt_amount deal) as Hr0
    by (apply Z.div_lt_upper_bound; lia).
  destruct (partial_repayment_math bal (cd_fee_rate deal) (cd_debt_amount deal)
    (cd_collateral_amount deal) Hb Hr Hd Hc) as (N0 & N1 & [N2 L] & N3 & Haff & Hlo & Hhi).
  eexists _, _. split; [apply partial_repayment_spec; done || lia|].
  set (rel := _ / cd_debt_amount deal) in *. set (r := div_up (rel * _) _) in *.
  assert (is_share r) by (unfold is_share, INT64_MIN in *; lia).
  split_and!; try lia.
  - rewrite fee_rate_charge_spec; (done || unfold GRAPHENE_FEE_RATE_DENOM in *; lia).
  - simpl. assert (rel ≤ r * cd_collateral_amount deal / cd_debt_amount deal)
      by (apply div_down_ge; lia). nia.
Qed.

Definition sample_deal : credit_deal_object := CreditDealObject 101 0 100 1 10000 2 700 30000 0 2.

Lemma partial_repayment_affordable_witness : ∃ r f, partial_repayment sample_deal 4000 = Ok (r, f) ∧
  0 ≤ r < 10000 ∧ 0 ≤ f ∧ r + f ≤ 4000 ∧ f = fee_rate_charge r 30000 ∧
  (r - 1) * 700 < r * 700 / 10000 * 10000.
Proof.
  apply (partial_repayment_affordable sample_deal 4000); simpl;
    unfold is_share, INT64_MIN, INT64_MAX, GRAPHENE_FEE_RATE_DENOM; try lia; vm_compute; done.
Defined.

(** With the fee rate 4293967296 the 32-bit sum in the divisor wraps to zero, and the division
    fails; no check on the way bounds the rate of an offer. *)
Example fee_rate_divisor_wraps : fee_rate_divisor 4293967296 = 0.
Proof. reflexivity. Qed.

Theorem partial_repayment_division_by_zero deal bal :
  cd_fee_rate deal = 4293967296 → partial_repayment deal bal = Err divide_by_zero_exception.
Proof. intros E. unfold partial_repayment. by rewrite E. Qed.

(** C36: the wrapped divisor stops the block processing. In any state in which the credit deal with
    the earliest deadline is past due, allows automatic partial repayment, has a positive debt and a
    fee rate of 2^32 minus the denominator (which no check refuses), and whose borrower holds less
    than the debt and the credit fee, [update_credit_offers_and_deals] fails with a division by
    zero, whatever else the state holds. *)
Theorem credit_processing_divides_by_zero d id deal :
  first_by cd_latest_repay_time (credit_deals d) = Some (id, deal) →
  cd_latest_repay_time deal ≤ head_block_time d →
  cd_auto_repay deal = allow_partial_repayment → cd_fee_rate deal = 2 ^ 32 - GRAPHENE_FEE_RATE_DENOM →
  is_share (cd_debt_amount deal) →
  0 < cd_debt_amount deal →
  0 ≤ amount (get_balance d (cd_borrower deal) (cd_debt_asset deal)) <
    cd_debt_amount deal + div_up (cd_debt_amount deal * cd_fee_rate deal) GRAPHENE_FEE_RATE_DENOM →
  update_credit_offers_and_deals d = Err divide_by_zero_exception.
Proof.
  intros Hf Hdue Hauto Hrate Ts Hpos Hbal. unfold update_credit_offers_and_deals.
  set (e := disable_expired_offers d). change (credit_deals e) with (credit_deals d).
  pose proof (first_by_Some _ _ _ Hf) as [Hdeal _]. simpl in Hdeal.
  destruct (size (rows (credit_deals d))) as [|fuel] eqn:Es.
  { apply map_size_empty_inv in Es. by rewrite Es, lookup_empty in Hdeal. }
  cbn [process_due_deals]. change (credit_deals e) with (credit_deals d). rewrite Hf.
  change (head_block_time e) with (head_block_time d). rewrite (proj2 (Z.leb_le _ _) Hdue).
  assert (auto_repay_operation id deal e = Err divide_by_zero_exception) as Hop.
  { unfold auto_repay_operation. change (get_balance e) with (get_balance d).
    rewrite partial_repayment_division_by_zero by (rewrite Hrate; reflexivity).
    rewrite Hauto. simpl. rewrite (fee_rate_charge_spec (cd_debt_amount deal))
      by (done || lia || (rewrite Hrate; unfold GRAPHENE_FEE_RATE_DENOM; lia)).
    set (fee := div_up _ _) in *.
    assert (0 ≤ fee ≤ 2 ^ 96) as Hfee.
    { unfold is_share, INT64_MAX, INT64_MIN in Ts. unfold fee. rewrite Hrate.
      split; [apply div_up_nonneg|apply div_up_le]; unfold GRAPHENE_FEE_RATE_DENOM; lia. }
    destruct (Z.leb_spec (u128_add fee (u128 (cd_debt_amount deal)))
      (u128 (amount (get_balance d (cd_borrower deal) (cd_debt_asset deal))))) as [Hle|]; [|done].
    exfalso. revert Hle. unfold is_share, INT64_MAX, INT64_MIN in Ts. unfold u128_add.
    rewrite !u128_small by (rewrite ?u128_small by (unfold UINT128_MOD; lia); unfold UINT128_MOD; lia). lia. }
  unfold process_due_deal. rewrite Hauto. simpl. by rewrite Hop.
Qed.

(** No check on the way bounds the rate: an offer and a deal with it pass all of them. *)
Definition wrapping_credit_db : result database :=
  d ← run_op (CreditOfferCreateOperation (Asset 0 0) 100 1 10000 4293967296 3600 1 true
                (sample_time + 86400) {[ 2 := Price (Asset 1 1) (Asset 2 2) ]} ∅) sample_db;
  d ← run_op (CreditOfferAcceptOperation (Asset 0 0) 100 0 (Asset 400 1) (Asset 900 2) 4293967296 3600
                (Some allow_partial_repayment)) d;
  Ok (later 4000 d).

Lemma credit_processing_divides_by_zero_witness : ∃ d, wrapping_credit_db = Ok d ∧
  update_credit_offers_and_deals d = Err divide_by_zero_exception.
Proof.
  destruct wrapping_credit_db as [d|] eqn:E; [|vm_compute in E; discriminate].
  exists d. split; [done|]. vm_compute in E. injection E as <-.
  eapply (credit_processing_divides_by_zero _ 0);
    [vm_compute; reflexivity|vm_compute; discriminate|reflexivity|reflexivity|by vm_compute|by vm_compute|by vm_compute].
Defined.

(** ** Repayment *)

Lemma tbl_modify_ok id m (t : table credit_deal_object) c c' :
  rows t !! id = Some c → m c = Ok c' →
  tbl_modify id m t = Ok (Table (next_id t) (<[id := c']> (rows t))).
Proof.
  intros Hc Hm. unfold tbl_modify, tbl_get. rewrite Hc. simpl. rewrite Hm. simpl.
  unfold clashes. rewrite bool_decide_eq_false_2; [done|]. by intros (? & ? & _ & _ & ?).
Qed.

(** A repayment always goes through at the deal.  On a state whose credit books are in
    order, the borrower's summary exists and covers the repayment, so that "Internal error" of
    [credit_deal_repay_evaluator::do_apply] cannot fire; a partial repayment of [x] releases the
    proportional part of the collateral rounded down, which is less than all of it, and the
    remaining collateral covers the remaining debt at least as well as before. *)
Theorem credit_repay_settles d id deal x :
  credit_ok d → rows (credit_deals d) !! id = Some deal →
  is_share (cd_debt_amount deal) → is_share (cd_collateral_amount deal) →
  0 < x < cd_debt_amount deal →
  (∃ sid s, find_summary d (cd_offer_id deal) (cd_borrower deal) = Some (sid, s) ∧
     cd_debt_amount deal ≤ cs_total_debt_amount s) ∧
  ∃ d' c', let rel := x * cd_collateral_amount deal / cd_debt_amount deal in
    settle_deal id deal x d = Ok (d', rel) ∧ 0 ≤ rel < cd_collateral_amount deal ∧
    rows (credit_deals d') = <[id := c']> (rows (credit_deals d)) ∧
    cd_debt_amount c' = cd_debt_amount deal - x ∧
    cd_collateral_amount c' = cd_collateral_amount deal - rel ∧
    cd_collateral_amount deal * cd_debt_amount c' ≤ cd_collateral_amount c' * cd_debt_amount deal.
Proof.
  intros Hc Hdeal Td Tc Hx. destruct (cb_deals _ _ _ Hc _ _ Hdeal) as [Hdp Hcp].
  assert (is_share x) as Tx by (unfold is_share, INT64_MIN in *; lia). split.
  - destruct (sb_deal _ _ (cb_summaries _ _ _ Hc) _ _ Hdeal) as (sid & s & Hs & Q1 & Q2).
    destruct (find_summary _ _ _) as [[sid' s']|] eqn:Hf.
    + exists sid', s'. split; [done|]. apply find_summary_Some in Hf as (Hs' & F1 & F2). simpl in *.
      rewrite (sb_summary _ _ (cb_summaries _ _ _ Hc) _ _ Hs'). eapply owed_ge; [apply Hc|exact Hdeal|].
      unfold of_borrower. by rewrite F1, F2, !Z.eqb_refl.
    + exfalso. eapply find_summary_None; [exact Hf|exact Hs|done].
  - pose proof (div_down_spec (x * cd_collateral_amount deal) (cd_debt_amount deal) Hdp) as Hq.
    assert (0 ≤ x * cd_collateral_amount deal / cd_debt_amount deal < cd_collateral_amount deal) as Hrel
      by (split; [apply Z.div_pos; nia|apply Z.div_lt_upper_bound; nia]).
    set (rel := x * cd_collateral_amount deal / cd_debt_amount deal) in *.
    exists (set_credit_deals (Table (next_id (credit_deals d)) (<[id := cd_with_amounts deal
      (cd_debt_amount deal - x) (cd_collateral_amount deal - rel)]> (rows (credit_deals d)))) d).
    eexists. split; [|split_and!; [lia|lia|reflexivity|done|done|simpl; nia]].
    unfold settle_deal. rewrite (proj2 (Z.eqb_neq _ _)) by lia.
    rewrite !u128_share, u128_mul_share by (done || lia).
    change (u128_div (x * cd_collateral_amount deal) (cd_debt_amount deal)) with rel.
    rewrite (proj2 (Z.ltb_lt _ _)) by lia. simpl.
    assert (is_share rel) by (unfold is_share, INT64_MIN in *; lia).
    rewrite to_int64_small by done. erewrite tbl_modify_ok; [done|exact Hdeal|].
    rewrite share_sub_ok by (done || unfold is_share, INT64_MIN, INT64_MAX in *; lia). simpl.
    by rewrite share_sub_ok by (done || unfold is_share, INT64_MIN, INT64_MAX in *; lia).
Qed.

Lemma credit_repay_settles_witness : ∃ d d' c', sample_credit_db = Ok d ∧
  let deal := new_deal (CreditOfferAcceptOperation (Asset 0 0) 100 0 (Asset 400 1) (Asset 900 2) 20000 3600
               (Some allow_partial_repayment))
               (CreditOfferObject 100 1 10000 9600 10000 3600 1 true 0 ∅ ∅) (sample_time + 3600) in
  settle_deal 0 deal 150 d = Ok (d', 150 * 900 / 400) ∧
  rows (credit_deals d') = <[0 := c']> (rows (credit_deals d)) ∧
  900 * cd_debt_amount c' ≤ cd_collateral_amount c' * 400.
Proof.
  destruct sample_credit_db as [d|] eqn:E; [|vm_compute in E; discriminate].
  pose proof (sample_credit_chain_ok d E) as Hok. exists d.
  set (deal := new_deal _ _ _). assert (rows (credit_deals d) !! 0 = Some deal) as Hl
    by (vm_compute in E; injection E as <-; reflexivity).
  destruct (credit_repay_settles d 0 deal 150 (ch_credit _ Hok) Hl) as (_ & d' & c' & H1 & _ & H2 & _ & _ & H3);
    [vm_compute; by split..|simpl; lia|].
  exists d', c'. split; [reflexivity|]. exact (conj H1 (conj H2 H3)).
Defined.
