(* ===== verification/WithdrawPermission.v ===== *)
(** * Withdrawal permissions

    Recurring withdrawals authorised by an account: libraries/protocol/withdraw_permission.cpp,
    libraries/chain/withdraw_permission_evaluator.cpp, the object's
    [available_this_period] and [database::update_withdraw_permissions] of
    libraries/chain/db_update.cpp. *)
From S2P Require Import Prelude MachineInt Hardfork Asset Vesting ChainState Ledger CreditBooks Balance Fees Evaluator Sample.

Definition get_permission (d : database) (id : Z) := tbl_get (withdraw_permissions d) id.

(** [op.period_start_time + op.periods_until_expiration * op.withdrawal_period_sec], all 32 bits
    wide. *)
Definition permission_expiration (start periods period_sec : Z) : Z :=
  time_add start ((periods * period_sec) mod 2 ^ 32).

(** ** create *)
Record withdraw_permission_create_operation := WithdrawPermissionCreateOperation {
  wpc_fee : asset;
  wpc_withdraw_from_account : account_id_type;
  wpc_authorized_account : account_id_type;
  wpc_withdrawal_limit : asset;
  wpc_withdrawal_period_sec : Z;
  wpc_periods_until_expiration : Z;
  wpc_period_start_time : Z }.

Definition withdraw_permission_create_validate (op : withdraw_permission_create_operation)
    : result unit :=
  FC_ASSERT (0 <=? amount (wpc_fee op)) "fee.amount >= 0";;
  FC_ASSERT (negb (wpc_withdraw_from_account op =? wpc_authorized_account op))
    "withdraw_from_account != authorized_account";;
  FC_ASSERT (0 <? amount (wpc_withdrawal_limit op)) "withdrawal_limit.amount > 0";;
  FC_ASSERT (0 <? wpc_withdrawal_period_sec op) "withdrawal_period_sec > 0";;
  FC_ASSERT (0 <? wpc_periods_until_expiration op) "periods_until_expiration > 0".

Definition withdraw_permission_create_do_evaluate (op : withdraw_permission_create_operation)
    (d : database) : result unit :=
  get_account d (wpc_withdraw_from_account op);;
  get_account d (wpc_authorized_account op);;
  get_asset d (asset_id (wpc_withdrawal_limit op));;
  FC_ASSERT (head_block_time d <? wpc_period_start_time op) "op.period_start_time > d.head_block_time()";;
  FC_ASSERT (head_block_time d <? permission_expiration (wpc_period_start_time op)
               (wpc_periods_until_expiration op) (wpc_withdrawal_period_sec op)) "expiration";;
  FC_ASSERT (block_interval (parameters d) <=? wpc_withdrawal_period_sec op)
    "op.withdrawal_period_sec >= block_interval".

Definition withdraw_permission_create_do_apply (op : withdraw_permission_create_operation) (_ : unit)
    (d : database) : result (database * operation_result) :=
  '(id, t) ← tbl_create (WithdrawPermissionObject (wpc_withdraw_from_account op)
      (wpc_authorized_account op) (wpc_withdrawal_limit op) (wpc_withdrawal_period_sec op)
      (wpc_period_start_time op)
      (permission_expiration (wpc_period_start_time op) (wpc_periods_until_expiration op)
         (wpc_withdrawal_period_sec op)) 0) (withdraw_permissions d);
  Ok (set_withdraw_permissions t d, object_id_result (kind_withdraw_permission, id)).

#[global] Instance withdraw_permission_create_evaluator
    : Evaluator withdraw_permission_create_operation := {
  eval_ctx := unit;
  op_fee := wpc_fee;
  fee_payer := wpc_withdraw_from_account;
  validate := withdraw_permission_create_validate;
  do_evaluate := withdraw_permission_create_do_evaluate;
  do_apply := withdraw_permission_create_do_apply }.

(** ** claim *)
Record withdraw_permission_claim_operation := WithdrawPermissionClaimOperation {
  wpl_fee : asset;
  wpl_withdraw_permission : Z;
  wpl_withdraw_from_account : account_id_type;
  wpl_withdraw_to_account : account_id_type;
  wpl_amount_to_withdraw : asset }.

Definition withdraw_permission_claim_validate (op : withdraw_permission_claim_operation)
    : result unit :=
  FC_ASSERT (negb (wpl_withdraw_to_account op =? wpl_withdraw_from_account op))
    "withdraw_to_account != withdraw_from_account";;
  FC_ASSERT (0 <? amount (wpl_amount_to_withdraw op)) "amount_to_withdraw.amount > 0";;
  FC_ASSERT (0 <=? amount (wpl_fee op)) "fee.amount >= 0".

(** [withdraw_permission_object::available_this_period]. *)
Definition available_this_period (p : withdraw_permission_object) (current_time : Z)
    : result asset :=
  if time_add (wp_period_start_time p) (wp_withdrawal_period_sec p) <=? current_time
  then Ok (wp_withdrawal_limit p)
  else if wp_claimed_this_period p <? amount (wp_withdrawal_limit p) then
    rest ← share_sub (amount (wp_withdrawal_limit p)) (wp_claimed_this_period p);
    Ok (Asset rest (asset_id (wp_withdrawal_limit p)))
  else Ok (Asset 0 (asset_id (wp_withdrawal_limit p))).

(** The conditions on the permission itself. *)
Definition permit_allows (p : withdraw_permission_object) (op : withdraw_permission_claim_operation)
    (now : Z) : result unit :=
  FC_ASSERT (now <? wp_expiration p) "permit.expiration > head_block_time";;
  FC_ASSERT (wp_authorized_account p =? wpl_withdraw_to_account op)
    "permit.authorized_account == op.withdraw_to_account";;
  FC_ASSERT (wp_withdraw_from_account p =? wpl_withdraw_from_account op)
    "permit.withdraw_from_account == op.withdraw_from_account";;
  FC_ASSERT (wp_period_start_time p <=? now) "permit.period_start_time <= head_block_time";;
  available ← available_this_period p now;
  le ← asset_le (wpl_amount_to_withdraw op) available;
  FC_ASSERT le "op.amount_to_withdraw <= permit.available_this_period".

Definition withdraw_permission_claim_do_evaluate (op : withdraw_permission_claim_operation)
    (d : database) : result unit :=
  permit ← get_permission d (wpl_withdraw_permission op);
  permit_allows permit op (head_block_time d);;
  let i := asset_id (wpl_amount_to_withdraw op) in
  ge ← asset_ge (get_balance d (wpl_withdraw_from_account op) i) (wpl_amount_to_withdraw op);
  FC_ASSERT ge "balance >= op.amount_to_withdraw";;
  asset_obj ← get_asset d i;
  (if is_transfer_restricted asset_obj then
     FC_ASSERT ((ao_issuer asset_obj =? wp_authorized_account permit)
                || (ao_issuer asset_obj =? wp_withdraw_from_account permit))
       "Asset has transfer_restricted flag enabled"
   else Ok ());;
  payer_authorized d (wp_authorized_account permit) i
    "Account is unauthorized to transact asset due to whitelist / blacklist";;
  payer_authorized d (wpl_withdraw_from_account op) i
    "Account is unauthorized to withdraw asset due to whitelist / blacklist".

(** The permission after a claim of [x] at [now]. *)
Definition permit_claim (now : Z) (x : share_type) (p : withdraw_permission_object)
    : result withdraw_permission_object :=
  let periods := Z.quot (now - wp_period_start_time p) (wp_withdrawal_period_sec p) in
  let start := time_add (wp_period_start_time p) (periods * wp_withdrawal_period_sec p) in
  claimed ← (if periods =? 0 then share_add (wp_claimed_this_period p) x else Ok x);
  Ok (WithdrawPermissionObject (wp_withdraw_from_account p) (wp_authorized_account p)
        (wp_withdrawal_limit p) (wp_withdrawal_period_sec p) start (wp_expiration p) claimed).

Definition withdraw_permission_claim_do_apply (op : withdraw_permission_claim_operation) (_ : unit)
    (d : database) : result (database * operation_result) :=
  t ← tbl_modify (wpl_withdraw_permission op)
        (permit_claim (head_block_time d) (amount (wpl_amount_to_withdraw op))) (withdraw_permissions d);
  let d := set_withdraw_permissions t d in
  neg ← asset_neg (wpl_amount_to_withdraw op);
  d ← adjust_balance (wpl_withdraw_from_account op) neg d;
  d ← adjust_balance (wpl_withdraw_to_account op) (wpl_amount_to_withdraw op) d;
  Ok (d, void_result).

#[global] Instance withdraw_permission_claim_evaluator
    : Evaluator withdraw_permission_claim_operation := {
  eval_ctx := unit;
  op_fee := wpl_fee;
  fee_payer := wpl_withdraw_to_account;
  validate := withdraw_permission_claim_validate;
  do_evaluate := withdraw_permission_claim_do_evaluate;
  do_apply := withdraw_permission_claim_do_apply }.

(** ** update *)
Record withdraw_permission_update_operation := WithdrawPermissionUpdateOperation {
  wpu_fee : asset;
  wpu_withdraw_from_account : account_id_type;
  wpu_authorized_account : account_id_type;
  wpu_permission_to_update : Z;
  wpu_withdrawal_limit : asset;
  wpu_withdrawal_period_sec : Z;
  wpu_period_start_time : Z;
  wpu_periods_until_expiration : Z }.

Definition withdraw_permission_update_validate (op : withdraw_permission_update_operation)
    : result unit :=
  FC_ASSERT (0 <? amount (wpu_withdrawal_limit op)) "withdrawal_limit.amount > 0";;
  FC_ASSERT (0 <=? amount (wpu_fee op)) "fee.amount >= 0";;
  FC_ASSERT (0 <? wpu_withdrawal_period_sec op) "withdrawal_period_sec > 0";;
  FC_ASSERT (negb (wpu_withdraw_from_account op =? wpu_authorized_account op))
    "withdraw_from_account != authorized_account";;
  FC_ASSERT (0 <? wpu_periods_until_expiration op) "periods_until_expiration > 0".

Definition withdraw_permission_update_do_evaluate (op : withdraw_permission_update_operation)
    (d : database) : result unit :=
  permit ← get_permission d (wpu_permission_to_update op);
  FC_ASSERT (wp_authorized_account permit =? wpu_authorized_account op)
    "permit.authorized_account == op.authorized_account";;
  FC_ASSERT (wp_withdraw_from_account permit =? wpu_withdraw_from_account op)
    "permit.withdraw_from_account == op.withdraw_from_account";;
  get_asset d (asset_id (wpu_withdrawal_limit op));;
  FC_ASSERT (head_block_time d <=? wpu_period_start_time op) "op.period_start_time >= d.head_block_time()";;
  FC_ASSERT (head_block_time d <? permission_expiration (wpu_period_start_time op)
               (wpu_periods_until_expiration op) (wpu_withdrawal_period_sec op)) "expiration";;
  FC_ASSERT (block_interval (parameters d) <=? wpu_withdrawal_period_sec op)
    "op.withdrawal_period_sec >= block_interval".

Definition withdraw_permission_update_do_apply (op : withdraw_permission_update_operation) (_ : unit)
    (d : database) : result (database * operation_result) :=
  t ← tbl_modify (wpu_permission_to_update op) (λ p,
        Ok (WithdrawPermissionObject (wp_withdraw_from_account p) (wp_authorized_account p)
              (wpu_withdrawal_limit op) (wpu_withdrawal_period_sec op) (wpu_period_start_time op)
              (permission_expiration (wpu_period_start_time op) (wpu_periods_until_expiration op)
                 (wpu_withdrawal_period_sec op)) (wp_claimed_this_period p)))
        (withdraw_permissions d);
  Ok (set_withdraw_permissions t d, void_result).

#[global] Instance withdraw_permission_update_evaluator
    : Evaluator withdraw_permission_update_operation := {
  eval_ctx := unit;
  op_fee := wpu_fee;
  fee_payer := wpu_withdraw_from_account;
  validate := withdraw_permission_update_validate;
  do_evaluate := withdraw_permission_update_do_evaluate;
  do_apply := withdraw_permission_update_do_apply }.

(** ** delete *)
Record withdraw_permission_delete_operation := WithdrawPermissionDeleteOperation {
  wpd_fee : asset;
  wpd_withdraw_from_account : account_id_type;
  wpd_authorized_account : account_id_type;
  wpd_withdrawal_permission : Z }.

Definition withdraw_permission_delete_validate (op : withdraw_permission_delete_operation)
    : result unit :=
  FC_ASSERT (0 <=? amount (wpd_fee op)) "fee.amount >= 0";;
  FC_ASSERT (negb (wpd_withdraw_from_account op =? wpd_authorized_account op))
    "withdraw_from_account != authorized_account".

Definition withdraw_permission_delete_do_evaluate (op : withdraw_permission_delete_operation)
    (d : database) : result unit :=
  permit ← get_permission d (wpd_withdrawal_permission op);
  FC_ASSERT (wp_authorized_account permit =? wpd_authorized_account op)
    "permit.authorized_account == op.authorized_account";;
  FC_ASSERT (wp_withdraw_from_account permit =? wpd_withdraw_from_account op)
    "permit.withdraw_from_account == op.withdraw_from_account".

Definition withdraw_permission_delete_do_apply (op : withdraw_permission_delete_operation) (_ : unit)
    (d : database) : result (database * operation_result) :=
  t ← tbl_remove (wpd_withdrawal_permission op) (withdraw_permissions d);
  Ok (set_withdraw_permissions t d, void_result).

#[global] Instance withdraw_permission_delete_evaluator
    : Evaluator withdraw_permission_delete_operation := {
  eval_ctx := unit;
  op_fee := wpd_fee;
  fee_payer := wpd_withdraw_from_account;
  validate := withdraw_permission_delete_validate;
  do_evaluate := withdraw_permission_delete_do_evaluate;
  do_apply := withdraw_permission_delete_do_apply }.

(** ** Expiration

    [update_withdraw_permissions]: permissions are removed from the one that expires first on,
    as long as they have expired. *)
Fixpoint remove_expired_permissions (fuel : nat) (d : database) : result database :=
  match fuel with
  | O => Ok d
  | S fuel =>
    match first_by wp_expiration (withdraw_permissions d) with
    | Some (id, p) =>
      if wp_expiration p <=? head_block_time d then
        t ← tbl_remove id (withdraw_permissions d);
        remove_expired_permissions fuel (set_withdraw_permissions t d)
      else Ok d
    | None => Ok d
    end
  end.

Definition update_withdraw_permissions (d : database) : result database :=
  remove_expired_permissions (size (rows (withdraw_permissions d))) d.

Lemma update_withdraw_permissions_frame d d' :
  update_withdraw_permissions d = Ok d' → ∃ t, d' = set_withdraw_permissions t d.
Proof.
  unfold update_withdraw_permissions. generalize (size (rows (withdraw_permissions d))) as fuel.
  intros fuel. revert d. induction fuel as [|fuel IH]; intros d H; simpl in H;
    [|destruct (first_by _ _) as [[id p]|]; [destruct (_ <=? _)|]].
  2: { apply bind_Ok in H as (t & _ & H). apply IH in H as [t' ->]. by exists t'. }
  all: injection H as <-; exists (withdraw_permissions d); by destruct d.
Qed.

(** ** Conservation *)

#[global] Instance withdraw_permission_create_laws : EvaluatorLaws withdraw_permission_create_operation.
Proof.
  split; [|credit_same]. intros op d0 ctx d d' r _ _ _ _ H.
  apply bind_Ok in H as ([id t] & _ & E). injection E as <- <-. apply moves_withdraw_permissions.
Qed.

#[global] Instance withdraw_permission_claim_laws : EvaluatorLaws withdraw_permission_claim_operation.
Proof.
  split; [|credit_same]. intros op d0 ctx d d' r _ _ _ _ H.
  apply bind_Ok in H as (t & _ & H). apply bind_Ok in H as (neg & Hneg & H).
  apply bind_Ok in H as (d1 & M1%adjust_balance_moves & H).
  apply bind_Ok in H as (d2 & M2%adjust_balance_moves & E). injection E as <- <-. inv_asset.
  eapply moves_ext; [eapply moves_trans; [eapply moves_trans; [apply moves_withdraw_permissions|
    exact M1]|exact M2]|]. intros a. simpl. amt_solve.
Qed.

#[global] Instance withdraw_permission_update_laws : EvaluatorLaws withdraw_permission_update_operation.
Proof.
  split; [|credit_same]. intros op d0 ctx d d' r _ _ _ _ H.
  apply bind_Ok in H as (t & _ & E). injection E as <- <-. apply moves_withdraw_permissions.
Qed.

#[global] Instance withdraw_permission_delete_laws : EvaluatorLaws withdraw_permission_delete_operation.
Proof.
  split; [|credit_same]. intros op d0 ctx d d' r _ _ _ _ H.
  apply bind_Ok in H as (t & _ & E). injection E as <- <-. apply moves_withdraw_permissions.
Qed.

(** ** Claims against one permission *)

(** A sequence of accepted claims, oldest first, at times that do not go back. *)
Inductive permit_run (p : withdraw_permission_object) (t : Z)
    : list (Z * Z) → withdraw_permission_object → Z → Prop :=
  | permit_run_nil : permit_run p t [] p t
  | permit_run_claim l p1 t1 op now p2 :
      permit_run p t l p1 t1 → t1 ≤ now →
      withdraw_permission_claim_validate op = Ok () → permit_allows p1 op now = Ok () →
      permit_claim now (amount (wpl_amount_to_withdraw op)) p1 = Ok p2 →
      permit_run p t (l ++ [(now, amount (wpl_amount_to_withdraw op))]) p2 now.

(** What was claimed in period [k], counted from the start of the permission. *)
Definition period_of (p : withdraw_permission_object) (now : Z) : Z :=
  (now - wp_period_start_time p) / wp_withdrawal_period_sec p.
Definition claimed_in (p : withdraw_permission_object) (k : Z) (l : list (Z * Z)) : Z :=
  foldr (λ c s, (if period_of p c.1 =? k then c.2 else 0) + s) 0 l.

Lemma claimed_in_snoc p k l c :
  claimed_in p k (l ++ [c]) = claimed_in p k l + if period_of p c.1 =? k then c.2 else 0.
Proof. unfold claimed_in. induction l as [|x l IH]; simpl; [lia|]. rewrite IH. lia. Qed.

Lemma claimed_in_none p k l :
  (∀ c, c ∈ l → period_of p c.1 ≠ k) → claimed_in p k l = 0.
Proof.
  induction l as [|c l IH]; intros H; [done|]. simpl.
  rewrite (proj2 (Z.eqb_neq _ _)) by (apply H; left). rewrite IH; [done|]. intros x Hx. apply H. by right.
Qed.

(** What holds after a run that began with a fresh permission: the cached period start is the
    start of the period of the last claim, and the cached total what was claimed in it. *)
Record permit_inv (p : withdraw_permission_object) (l : list (Z * Z))
    (q : withdraw_permission_object) (now : Z) : Prop := {
  pi_limit : wp_withdrawal_limit q = wp_withdrawal_limit p;
  pi_period : wp_withdrawal_period_sec q = wp_withdrawal_period_sec p;
  pi_start : ∃ k, 0 ≤ k ∧
    wp_period_start_time q = wp_period_start_time p + k * wp_withdrawal_period_sec p ∧
    wp_claimed_this_period q = claimed_in p k l ∧ (∀ c, c ∈ l → period_of p c.1 ≤ k);
  pi_nonneg : 0 ≤ wp_claimed_this_period q;
  pi_total k : claimed_in p k l ≤ amount (wp_withdrawal_limit p) }.

(** A claim at [now], seen from the start of the permission. *)
Lemma period_shift p q k now :
  0 < wp_withdrawal_period_sec p → wp_withdrawal_period_sec q = wp_withdrawal_period_sec p →
  wp_period_start_time q = wp_period_start_time p + k * wp_withdrawal_period_sec p →
  wp_period_start_time q ≤ now →
  Z.quot (now - wp_period_start_time q) (wp_withdrawal_period_sec q) = period_of p now - k.
Proof.
  intros Hp Eq Es Hle. unfold period_of. rewrite Z.quot_div_nonneg, Eq, Es by lia.
  replace (now - (wp_period_start_time p + k * wp_withdrawal_period_sec p))
    with (now - wp_period_start_time p + (- k) * wp_withdrawal_period_sec p) by lia.
  rewrite Z.div_add by lia. lia.
Qed.

(** What [available_this_period] leaves, when [start + period] does not wrap. *)
Lemma available_this_period_bound q now av :
  available_this_period q now = Ok av →
  is_time (wp_period_start_time q + wp_withdrawal_period_sec q) →
  amount av = if wp_period_start_time q + wp_withdrawal_period_sec q <=? now
              then amount (wp_withdrawal_limit q)
              else Z.max 0 (amount (wp_withdrawal_limit q) - wp_claimed_this_period q).
Proof.
  unfold available_this_period. intros H Ht. rewrite time_add_small in H by done.
  case_match; [by injection H as <-|]. inv_ok; inv_share; propify; subst; simpl; lia.
Qed.

Lemma permit_run_inv p t l q now :
  0 < wp_withdrawal_period_sec p → 0 ≤ wp_period_start_time p → wp_claimed_this_period p = 0 →
  0 < amount (wp_withdrawal_limit p) →
  Forall (λ c, c.1 + wp_withdrawal_period_sec p < 2 ^ 32) l →
  permit_run p t l q now → permit_inv p l q now.
Proof.
  intros Hp Hs0 Hc0 Hl Hb R. induction R as [|l q1 t1 op now q2 R IH Ht Hv Ha Hc].
  - split; [done|done| |lia|simpl; lia]. exists 0. split_and!; try lia; [done|].
    by intros c ?%elem_of_nil.
  - apply Forall_app in Hb as [Hb [Hnow _]%Forall_cons]. simpl in Hnow.
    destruct (IH Hb) as [El Ep (k & Hk & Es & Ec & Hmax) Hnn Htot].
    unfold withdraw_permission_claim_validate in Hv. unfold permit_allows in Ha.
    apply bind_Ok in Hv as ([] & _ & Hv). apply bind_Ok in Hv as ([] & Hx%FC_ASSERT_Ok & _).
    do 3 (apply bind_Ok in Ha as ([] & _ & Ha)). apply bind_Ok in Ha as ([] & Hst%FC_ASSERT_Ok & Ha).
    apply bind_Ok in Ha as (av & Hav & Ha). apply bind_Ok in Ha as (le & [_ ->]%asset_le_Ok & Hle%FC_ASSERT_Ok).
    set (x := amount (wpl_amount_to_withdraw op)) in *. propify.
    assert (is_time (wp_period_start_time q1 + wp_withdrawal_period_sec q1)) as Htime.
    { unfold is_time, time_point_sec_maximum. rewrite Ep. split; [nia|lia]. }
    apply available_this_period_bound in Hav; [|done].
    pose proof (period_shift p q1 k now Hp Ep Es Hst) as Hq.
    pose proof (Z.div_mod (now - wp_period_start_time p) (wp_withdrawal_period_sec p) ltac:(lia)) as Hdm.
    pose proof (Z.mod_pos_bound (now - wp_period_start_time p) (wp_withdrawal_period_sec p) Hp) as Hmod.
    fold (period_of p now) in Hdm. set (kk := period_of p now) in *.
    assert (0 ≤ kk - k) by (rewrite <- Hq; apply Z.quot_pos; lia).
    unfold permit_claim in Hc. rewrite Hq in Hc. apply bind_Ok in Hc as (claimed & Hcl & E).
    injection E as <-. rewrite Ep, El in Hav.
    assert (claimed = claimed_in p kk l + x ∧ 0 ≤ claimed ≤ amount (wp_withdrawal_limit p))
      as [Ecl Hcl'].
    { destruct (Z.eqb_spec (kk - k) 0) as [E0|E0].
      - assert (kk = k) as Ek by lia. rewrite Ek in *. inv_share.
        rewrite (proj2 (Z.leb_gt _ _)) in Hav by nia. lia.
      - injection Hcl as <-. rewrite (proj2 (Z.leb_le _ _)) in Hav by nia.
        rewrite claimed_in_none; [lia|]. intros c Hc. specialize (Hmax c Hc). lia. }
    split; simpl; [done|done| |lia|].
    + exists kk. rewrite Ep, Es, claimed_in_snoc. simpl. fold kk. rewrite Z.eqb_refl.
      split_and!; [lia| |done|].
      * rewrite time_add_small; [lia|]. unfold is_time, time_point_sec_maximum. split; nia.
      * intros c [Hin|Hin]%elem_of_app; [specialize (Hmax c Hin); lia|].
        apply list_elem_of_singleton in Hin. by subst c.
    + intros j. rewrite claimed_in_snoc. simpl. fold kk.
      destruct (Z.eqb_spec kk j) as [<-|]; [lia|]. specialize (Htot j). lia.
Qed.

(** The limit of a withdrawal permission holds in every period.  Whatever claims are accepted
    against a fresh permission, at times that do not go back, the total claimed within any single
    period, counted from the start of the permission, is at most the withdrawal limit, as long as
    the times involved stay below the 32-bit limit. *)
Theorem withdraw_limit_per_period p t l q now k :
  0 < wp_withdrawal_period_sec p → 0 ≤ wp_period_start_time p → wp_claimed_this_period p = 0 →
  0 < amount (wp_withdrawal_limit p) →
  Forall (λ c, c.1 + wp_withdrawal_period_sec p < 2 ^ 32) l →
  permit_run p t l q now → claimed_in p k l ≤ amount (wp_withdrawal_limit p).
Proof. intros Hp Hs Hc Hl Hb R. by apply (permit_run_inv p t l q now). Qed.

Definition sample_permit : withdraw_permission_object :=
  WithdrawPermissionObject 100 101 (Asset 500 1) 3600 1000 100000 0.

Definition sample_claim (x : share_type) : withdraw_permission_claim_operation :=
  WithdrawPermissionClaimOperation (Asset 0 0) 0 100 101 (Asset x 1).

Lemma sample_run : permit_run sample_permit 1000 [(1500, 300); (2000, 200); (5000, 450)]
  (WithdrawPermissionObject 100 101 (Asset 500 1) 3600 4600 100000 450) 5000.
Proof.
  apply (permit_run_claim _ _ [(1500, 300); (2000, 200)]
    (WithdrawPermissionObject 100 101 (Asset 500 1) 3600 1000 100000 500) 2000 (sample_claim 450));
    [|lia|vm_compute; reflexivity..].
  apply (permit_run_claim _ _ [(1500, 300)]
    (WithdrawPermissionObject 100 101 (Asset 500 1) 3600 1000 100000 300) 1500 (sample_claim 200));
    [|lia|vm_compute; reflexivity..].
  apply (permit_run_claim _ _ [] sample_permit 1000 (sample_claim 300));
    [constructor|lia|vm_compute; reflexivity..].
Qed.

Lemma withdraw_limit_per_period_witness :
  claimed_in sample_permit 0 [(1500, 300); (2000, 200); (5000, 450)] ≤ 500.
Proof.
  refine (withdraw_limit_per_period sample_permit 1000 _ _ _ 0 _ _ _ _ _ sample_run);
    [vm_compute; done|vm_compute; done|done|vm_compute; done|].
  repeat constructor; vm_compute; done.
Defined.

(** When the start plus the period passes the 32-bit limit the sum wraps around, and the limit is
    not enforced: the permission below, with three periods of 3000000000 seconds each, passes the
    checks of its creation, and three claims of its whole limit are accepted within one hour of
    its first period. *)
Example withdraw_limit_wraps :
  let op := WithdrawPermissionCreateOperation (Asset 0 0) 100 101 (Asset 500 1) 3000000000 3 (sample_time + 60) in
  let p := WithdrawPermissionObject 100 101 (Asset 500 1) 3000000000 (sample_time + 60)
             (permission_expiration (sample_time + 60) 3 3000000000) 0 in
  withdraw_permission_create_validate op = Ok () ∧
  withdraw_permission_create_do_evaluate op sample_db = Ok () ∧
  ∃ q, permit_run p sample_time [(sample_time + 600, 500); (sample_time + 1200, 500); (sample_time + 1800, 500)]
         q (sample_time + 1800) ∧
       claimed_in p 0 [(sample_time + 600, 500); (sample_time + 1200, 500); (sample_time + 1800, 500)] = 1500.
Proof.
  split; [reflexivity|]. split; [vm_compute; reflexivity|]. eexists. split; [|vm_compute; reflexivity].
  eapply (permit_run_claim _ _ [(sample_time + 600, 500); (sample_time + 1200, 500)] _
    (sample_time + 1200) (sample_claim 500));
    [eapply (permit_run_claim _ _ [(sample_time + 600, 500)] _ (sample_time + 600) (sample_claim 500));
     [eapply (permit_run_claim _ _ [] _ sample_time (sample_claim 500));
      [constructor|vm_compute; discriminate|vm_compute; reflexivity..]
     |vm_compute; discriminate|vm_compute; reflexivity..]
    |vm_compute; discriminate|vm_compute; reflexivity..].
Qed.
