(* ===== verification/Htlc.v ===== *)
(** * Hash time-locked contracts

    libraries/protocol/htlc.cpp, libraries/chain/htlc_evaluator.cpp and
    [database::clear_expired_htlcs] of libraries/chain/db_update.cpp.  The hash functions
    (RIPEMD-160, SHA-1, SHA-256 and HASH-160, implemented by OpenSSL) are the parameter
    [htlc_digest]. *)
From S2P Require Import Prelude MachineInt Hardfork Asset Vesting ChainState Ledger CreditBooks Balance Fees Evaluator Sample.

Class HashFunctions := htlc_digest : htlc_hash_kind → list Byte.byte → list Byte.byte.

Definition get_htlc (d : database) (id : Z) := tbl_get (htlcs d) id.

(** ** create *)
Record htlc_create_operation := HtlcCreateOperation {
  hc_fee : asset;
  hc_from : account_id_type;
  hc_to : account_id_type;
  hc_amount : asset;
  hc_preimage_hash : htlc_hash;
  hc_preimage_size : Z;
  hc_claim_period_seconds : Z;
  hc_memo : option (list Byte.byte) }.

Definition htlc_create_validate (op : htlc_create_operation) : result unit :=
  FC_ASSERT (0 <=? amount (hc_fee op)) "Fee amount should not be negative";;
  FC_ASSERT (0 <? amount (hc_amount op)) "HTLC amount should be greater than zero".

Definition check_htlc_create_hf_bsip64 (block_time : Z) (op : htlc_create_operation)
    (asset_to_transfer : asset_object) : result unit :=
  if block_time <? HARDFORK_CORE_BSIP64_TIME then
    FC_ASSERT (bool_decide (hc_memo op = None)) "Memo unavailable until after HARDFORK BSIP64";;
    FC_ASSERT (bool_decide (hash_kind (hc_preimage_hash op) ≠ algo_hash160))
      "HASH160 unavailable until after HARDFORK BSIP64"
  else
    FC_ASSERT (negb (is_transfer_restricted asset_to_transfer)
               || (hc_from op =? ao_issuer asset_to_transfer)
               || (hc_to op =? ao_issuer asset_to_transfer)) "Asset cannot be transfered.".

Definition htlc_create_do_evaluate (op : htlc_create_operation) (d : database) : result unit :=
  match updatable_htlc_options (parameters d) with
  | None => Err (assert_exception "HTLC Committee options are not set.")
  | Some opts =>
    FC_ASSERT (hc_claim_period_seconds op <=? max_timeout_secs opts) "HTLC Timeout exceeds allowed length";;
    FC_ASSERT (hc_preimage_size op <=? max_preimage_size opts)
      "HTLC preimage length exceeds allowed length";;
    ge ← asset_ge (get_balance d (hc_from op) (asset_id (hc_amount op))) (hc_amount op);
    FC_ASSERT ge "Insufficient funds";;
    asset_to_transfer ← get_asset d (asset_id (hc_amount op));
    get_account d (hc_from op);;
    get_account d (hc_to op);;
    check_htlc_create_hf_bsip64 (head_block_time d) op asset_to_transfer;;
    payer_authorized d (hc_from op) (asset_id (hc_amount op)) "Asset is not authorized for account.";;
    payer_authorized d (hc_to op) (asset_id (hc_amount op)) "Asset is not authorized for account."
  end.

Definition htlc_create_do_apply (op : htlc_create_operation) (_ : unit) (d : database)
    : result (database * operation_result) :=
  neg ← asset_neg (hc_amount op);
  d ← adjust_balance (hc_from op) neg d;
  '(id, t) ← tbl_create (HtlcObject (hc_from op) (hc_to op) (amount (hc_amount op))
      (asset_id (hc_amount op)) (hc_preimage_hash op) (hc_preimage_size op)
      (time_add (head_block_time d) (hc_claim_period_seconds op))) (htlcs d);
  Ok (set_htlcs t d, object_id_result (kind_htlc, id)).

#[global] Instance htlc_create_evaluator : Evaluator htlc_create_operation := {
  eval_ctx := unit;
  op_fee := hc_fee;
  fee_payer := hc_from;
  validate := htlc_create_validate;
  do_evaluate := htlc_create_do_evaluate;
  do_apply := htlc_create_do_apply }.

(** ** redeem *)
Record htlc_redeem_operation := HtlcRedeemOperation {
  hr_fee : asset;
  hr_htlc_id : Z;
  hr_redeemer : account_id_type;
  hr_preimage : list Byte.byte }.

Definition htlc_redeem_validate (op : htlc_redeem_operation) : result unit :=
  FC_ASSERT (0 <=? amount (hr_fee op)) "Fee amount should not be negative".

Definition check_htlc_redeem_hf_bsip64 (block_time : Z) (op : htlc_redeem_operation)
    (htlc_obj : htlc_object) : result unit :=
  if (0 <? ht_preimage_size htlc_obj) || (block_time <? HARDFORK_CORE_BSIP64_TIME) then
    FC_ASSERT (Z.of_nat (length (hr_preimage op)) =? ht_preimage_size htlc_obj) "Preimage size mismatch."
  else Ok ().

(** [htlc_redeem_visitor]. *)
Definition htlc_redeem_visitor `{HashFunctions} (preimage : list Byte.byte) (h : htlc_hash) : bool :=
  bool_decide (htlc_digest (hash_kind h) preimage = hash_value h).

Definition htlc_redeem_do_evaluate `{HashFunctions} (op : htlc_redeem_operation) (d : database)
    : result unit :=
  htlc_obj ← get_htlc d (hr_htlc_id op);
  check_htlc_redeem_hf_bsip64 (head_block_time d) op htlc_obj;;
  FC_ASSERT (htlc_redeem_visitor (hr_preimage op) (ht_preimage_hash htlc_obj))
    "Provided preimage does not generate correct hash.".

Definition htlc_redeem_do_apply (op : htlc_redeem_operation) (_ : unit) (d : database)
    : result (database * operation_result) :=
  htlc_obj ← get_htlc d (hr_htlc_id op);
  d ← adjust_balance (ht_to htlc_obj) (Asset (ht_amount htlc_obj) (ht_asset_id htlc_obj)) d;
  t ← tbl_remove (hr_htlc_id op) (htlcs d);
  Ok (set_htlcs t d, void_result).

#[global] Instance htlc_redeem_evaluator `{HashFunctions} : Evaluator htlc_redeem_operation := {
  eval_ctx := unit;
  op_fee := hr_fee;
  fee_payer := hr_redeemer;
  validate := htlc_redeem_validate;
  do_evaluate := htlc_redeem_do_evaluate;
  do_apply := htlc_redeem_do_apply }.

(** ** extend *)
Record htlc_extend_operation := HtlcExtendOperation {
  he_fee : asset;
  he_htlc_id : Z;
  he_update_issuer : account_id_type;
  he_seconds_to_add : Z }.

Definition htlc_extend_validate (op : htlc_extend_operation) : result unit :=
  FC_ASSERT (0 <=? amount (he_fee op)) "Fee amount should not be negative".

Definition htlc_extend_do_evaluate (op : htlc_extend_operation) (d : database) : result unit :=
  htlc_obj ← get_htlc d (he_htlc_id op);
  FC_ASSERT (he_update_issuer op =? ht_from htlc_obj) "HTLC may only be extended by its creator.";;
  FC_ASSERT (ht_expiration htlc_obj + he_seconds_to_add op <? time_point_sec_maximum)
    "Extension would cause an invalid date";;
  match updatable_htlc_options (parameters d) with
  | None => Err (assert_exception "HTLC Committee options are not set.")
  | Some opts =>
    FC_ASSERT (time_add (ht_expiration htlc_obj) (he_seconds_to_add op)
               <=? time_add (head_block_time d) (max_timeout_secs opts))
      "Extension pushes contract too far into the future"
  end.

Definition htlc_extend_do_apply (op : htlc_extend_operation) (_ : unit) (d : database)
    : result (database * operation_result) :=
  t ← tbl_modify (he_htlc_id op) (λ h,
        Ok (HtlcObject (ht_from h) (ht_to h) (ht_amount h) (ht_asset_id h) (ht_preimage_hash h)
              (ht_preimage_size h) (time_add (ht_expiration h) (he_seconds_to_add op)))) (htlcs d);
  Ok (set_htlcs t d, void_result).

#[global] Instance htlc_extend_evaluator : Evaluator htlc_extend_operation := {
  eval_ctx := unit;
  op_fee := he_fee;
  fee_payer := he_update_issuer;
  validate := htlc_extend_validate;
  do_evaluate := htlc_extend_do_evaluate;
  do_apply := htlc_extend_do_apply }.

(** ** Expiration *)

(** Refund and remove one contract. *)
Definition refund_htlc (id : Z) (obj : htlc_object) (d : database) : result database :=
  d ← adjust_balance (ht_from obj) (Asset (ht_amount obj) (ht_asset_id obj)) d;
  t ← tbl_remove id (htlcs d);
  Ok (set_htlcs t d).

Fixpoint refund_expired (fuel : nat) (d : database) : result database :=
  match fuel with
  | O => Ok d
  | S fuel =>
    match first_by ht_expiration (htlcs d) with
    | Some (id, obj) =>
      if ht_expiration obj <=? head_block_time d then
        d ← refund_htlc id obj d; refund_expired fuel d
      else Ok d
    | None => Ok d
    end
  end.

Definition clear_expired_htlcs (d : database) : result database :=
  refund_expired (size (rows (htlcs d))) d.

(** ** Conservation *)

#[global] Instance htlc_create_laws : EvaluatorLaws htlc_create_operation.
Proof.
  split; [|credit_same]. intros op d0 ctx d d' r _ _ _ _ H. cbn in H.
  apply bind_Ok in H as (neg & Hneg & H). apply bind_Ok in H as (d1 & M1%adjust_balance_moves & H).
  apply bind_Ok in H as ([id t] & Ht & E). injection E as <- <-. inv_asset.
  eapply moves_ext; [eapply moves_trans; [exact M1|apply moves_htlcs]|].
  - intros a. apply (tbl_held_create _ _ _ _ a Ht).
  - intros a. unfold held, htlc_holding; simpl. amt_solve.
Qed.

(** Paying out a contract, to whomever, and removing it. *)
Lemma pay_out_htlc_moves who id obj d d1 t :
  rows (htlcs d) !! id = Some obj →
  adjust_balance who (Asset (ht_amount obj) (ht_asset_id obj)) d = Ok d1 →
  tbl_remove id (htlcs d1) = Ok t → conserves d (set_htlcs t d1).
Proof.
  intros Ho H1 Ht. pose proof H1 as M1%adjust_balance_moves. apply adjust_balance_frame in H1 as [m ->].
  eapply moves_ext; [eapply moves_trans; [exact M1|apply moves_htlcs]|].
  - intros a. simpl. rewrite (tbl_held_remove _ _ _ _ a Ho Ht). apply (Z.add_opp_r _ _).
  - intros a. unfold held, htlc_holding; simpl. amt_solve.
Qed.

#[global] Instance htlc_redeem_laws `{HashFunctions} : EvaluatorLaws htlc_redeem_operation.
Proof.
  split; [|credit_same]. intros op d0 ctx d d' r _ _ _ _ H1. cbn in H1.
  apply bind_Ok in H1 as (obj & Ho%tbl_get_Ok & H1). apply bind_Ok in H1 as (d1 & H2 & H1).
  apply bind_Ok in H1 as (t & Ht & E). injection E as <- <-. by eapply pay_out_htlc_moves.
Qed.

#[global] Instance htlc_extend_laws : EvaluatorLaws htlc_extend_operation.
Proof.
  split; [|credit_same]. intros op d0 ctx d d' r _ _ _ _ H. cbn in H.
  apply bind_Ok in H as (t & Ht & E). injection E as <- <-.
  apply tbl_held_modify in Ht as (h & h' & _ & Hm & _ & E). injection Hm as <-.
  apply moves_htlcs. intros a. rewrite E. unfold held, htlc_holding; simpl. lia.
Qed.

(** ** Payouts *)

(** A redemption needs the preimage and pays exactly the contract.  If redeeming succeeds,
    the contract exists and the bytes presented hash to its digest under its hash function and,
    when it fixes a size, have that size; the recipient named in the contract, whoever redeems,
    gets exactly the locked amount, no other balance changes, and the contract is gone while all
    others stay. *)
Theorem htlc_redeem_pays_recipient `{HashFunctions} op d d1 d' r :
  htlc_redeem_do_evaluate op d = Ok () → fee_frame d d1 → htlc_redeem_do_apply op () d1 = Ok (d', r) →
  ∃ h, rows (htlcs d) !! hr_htlc_id op = Some h ∧
    htlc_digest (hash_kind (ht_preimage_hash h)) (hr_preimage op) = hash_value (ht_preimage_hash h) ∧
    (0 < ht_preimage_size h → Z.of_nat (length (hr_preimage op)) = ht_preimage_size h) ∧
    rows (htlcs d') = delete (hr_htlc_id op) (rows (htlcs d)) ∧
    ∀ owner a, amount (get_balance d' owner a) = amount (get_balance d owner a)
      + (if decide (owner = ht_to h ∧ a = ht_asset_id h) then ht_amount h else 0).
Proof.
  intros He (m & s & -> & _) H1. unfold htlc_redeem_do_evaluate, htlc_redeem_do_apply in *.
  apply bind_Ok in He as (h & Hh%tbl_get_Ok & He). apply bind_Ok in He as ([] & Hsize & Hhash).
  apply bind_Ok in H1 as (h' & Hh'%tbl_get_Ok & H1). simpl in Hh'. rewrite Hh in Hh'. injection Hh' as <-.
  apply bind_Ok in H1 as (d2 & H2 & H1). apply bind_Ok in H1 as (t & Ht & E). injection E as <- _.
  pose proof (λ owner a, adjust_balance_get _ _ _ _ owner a H2) as Hbal.
  apply adjust_balance_frame in H2 as [m' ->]. apply tbl_remove_Ok in Ht as (? & _ & ->).
  exists h. split_and!; [done| | |done|exact Hbal].
  - apply FC_ASSERT_Ok, bool_decide_eq_true in Hhash. done.
  - intros Hpos. unfold check_htlc_redeem_hf_bsip64 in Hsize.
    rewrite (proj2 (Z.ltb_lt _ _)) in Hsize by done. apply FC_ASSERT_Ok in Hsize. by propify.
Qed.

Definition not_expired (now : Z) (x : Z * htlc_object) : Prop := now < ht_expiration x.2.
#[global] Instance not_expired_dec now x : Decision (not_expired now x).
Proof. unfold not_expired. apply _. Defined.

(** What the expired contracts of [m] give back to an account in an asset. *)
Definition refunds (now : Z) (owner : account_id_type) (a : asset_id_type) (m : gmap Z htlc_object) : Z :=
  msum (λ _ h, if decide (owner = ht_from h ∧ a = ht_asset_id h ∧ ht_expiration h ≤ now)
               then ht_amount h else 0) m.

Lemma refund_htlc_effect id obj d d' :
  rows (htlcs d) !! id = Some obj → refund_htlc id obj d = Ok d' →
  conserves d d' ∧ rows (htlcs d') = delete id (rows (htlcs d)) ∧
  head_block_time d' = head_block_time d ∧
  ∀ owner a, amount (get_balance d' owner a) = amount (get_balance d owner a)
    + (if decide (owner = ht_from obj ∧ a = ht_asset_id obj) then ht_amount obj else 0).
Proof.
  intros Ho H. unfold refund_htlc in H. apply bind_Ok in H as (d1 & H1 & H).
  apply bind_Ok in H as (t & Ht & E). injection E as <-.
  pose proof (pay_out_htlc_moves _ _ _ _ _ _ Ho H1 Ht) as M.
  pose proof (λ owner a, adjust_balance_get _ _ _ _ owner a H1) as Hbal.
  apply adjust_balance_frame in H1 as [m ->]. apply tbl_remove_Ok in Ht as (? & _ & ->).
  split_and!; [exact M|done|done|exact Hbal].
Qed.

Lemma refunds_none now owner a m :
  (∀ i h, m !! i = Some h → now < ht_expiration h) → refunds now owner a m = 0.
Proof.
  intros Hall. unfold refunds. rewrite (msum_ext _ (λ _ _, 0)).
  - clear Hall. induction m as [|k h m Hk IH] using map_ind; [apply msum_empty|].
    rewrite msum_insert_new by done. lia.
  - intros i h Hi. rewrite decide_False; [done|]. intros (_ & _ & ?). specialize (Hall i h Hi). lia.
Qed.

Lemma refund_expired_spec fuel d d' :
  (size (rows (htlcs d)) ≤ fuel)%nat → refund_expired fuel d = Ok d' →
  conserves d d' ∧ rows (htlcs d') = filter (not_expired (head_block_time d)) (rows (htlcs d)) ∧
  ∀ owner a, amount (get_balance d' owner a) = amount (get_balance d owner a)
    + refunds (head_block_time d) owner a (rows (htlcs d)).
Proof.
  assert (∀ e, (∀ i h, rows (htlcs e) !! i = Some h → head_block_time e < ht_expiration h) →
    conserves e e ∧ rows (htlcs e) = filter (not_expired (head_block_time e)) (rows (htlcs e)) ∧
    ∀ owner a, amount (get_balance e owner a) = amount (get_balance e owner a)
      + refunds (head_block_time e) owner a (rows (htlcs e))) as Hall.
  { intros e He. split_and!; [reflexivity| |].
    - symmetry. apply map_filter_id. intros i h Hh. by apply (He i).
    - intros owner a. rewrite refunds_none by done. lia. }
  revert d. induction fuel as [|fuel IH]; intros d Hsize H; simpl in H.
  - injection H as <-. apply Hall. intros i h Hh.
    assert (rows (htlcs d) = ∅) as E by (apply map_size_empty_inv; lia).
    by rewrite E, lookup_empty in Hh.
  - destruct (first_by _ _) as [[id obj]|] eqn:Hf.
    + apply first_by_Some in Hf as [Hobj Hmin]. simpl in *.
      destruct (Z.leb_spec (ht_expiration obj) (head_block_time d)).
      * apply bind_Ok in H as (d1 & H1 & H).
        apply refund_htlc_effect in H1 as (M1 & D1 & T1 & B1); [|done].
        assert (is_Some (rows (htlcs d) !! id)) as Hsome by (by eexists).
        apply IH in H as (M' & D' & B'); [|rewrite D1, map_size_delete_Some by done; lia].
        split_and!; [by etrans| |].
        -- rewrite D', D1, T1, map_filter_delete. apply delete_id.
           apply map_lookup_filter_None. right. intros h Hh. simplify_eq. unfold not_expired. simpl. lia.
        -- intros owner a. rewrite B', B1, D1, T1. unfold refunds.
           rewrite (msum_delete _ _ _ obj) by done. repeat case_decide; lia || naive_solver lia.
      * injection H as <-. apply Hall. intros i h Hh. pose proof (Hmin _ _ Hh). lia.
    + injection H as <-. apply Hall. intros i h Hh. apply first_by_None in Hf.
      by rewrite Hf, lookup_empty in Hh.
Qed.

Lemma clear_expired_htlcs_ok d d' :
  chain_ok d → clear_expired_htlcs d = Ok d' → chain_ok d' ∧ conserves d d'.
Proof.
  intros Hok H. assert (conserves d d') as M by (by apply refund_expired_spec in H as (? & _); [|lia]).
  split; [|done]. split; [apply M, Hok|]. destruct Hok as [_ Hc]. clear M. revert d Hc H.
  unfold clear_expired_htlcs. intros d. generalize (size (rows (htlcs d))) as fuel.
  intros fuel. revert d. induction fuel as [|fuel IH]; intros d Hc H; simpl in H; [by injection H as <-|].
  destruct (first_by _ _) as [[id h]|]; [|by injection H as <-].
  destruct (_ <=? _); [|by injection H as <-]. apply bind_Ok in H as (d1 & H1 & H).
  apply IH in H; [done|]. unfold refund_htlc in H1. inv_ok. repeat frame_step. exact Hc.
Qed.

(** Expired contracts are refunded, all of them and nothing else.  If the end-of-block
    processing returns, the contracts whose expiration has come are gone and the others are as
    they were; every account's balance in every asset has grown by exactly what its expired
    contracts had locked; and holdings still match the supply of every asset. *)
Theorem expired_htlcs_refunded d d' :
  clear_expired_htlcs d = Ok d' →
  rows (htlcs d') = filter (not_expired (head_block_time d)) (rows (htlcs d)) ∧
  (∀ owner a, amount (get_balance d' owner a) = amount (get_balance d owner a)
     + refunds (head_block_time d) owner a (rows (htlcs d))) ∧
  conserves d d'.
Proof.
  unfold clear_expired_htlcs. intros H. apply refund_expired_spec in H as (M & D & B); [|lia]. done.
Qed.

(** ** Witnesses *)

(** A stand-in for the hash functions: the bytes in reverse. *)
Definition sample_hash : HashFunctions := λ _ l, rev l.

Definition sample_htlc (expiration : Z) : htlc_object :=
  HtlcObject 100 101 250 1 (HtlcHash algo_sha256 [Byte.x02; Byte.x01]) 2 expiration.

Definition sample_htlc_db : database :=
  set_htlcs (Table 2 {[ 0 := sample_htlc (sample_time + 50); 1 := sample_htlc (sample_time - 50) ]}) sample_db.

Definition sample_redeem : htlc_redeem_operation :=
  HtlcRedeemOperation (Asset 0 0) 0 102 [Byte.x01; Byte.x02].

Lemma htlc_redeem_pays_recipient_witness : ∃ d',
  htlc_redeem_do_apply sample_redeem () sample_htlc_db = Ok (d', void_result) ∧
  amount (get_balance d' 101 1) = 3250 ∧ rows (htlcs d') !! 0 = None.
Proof.
  eexists. split; [vm_compute; reflexivity|].
  destruct (htlc_redeem_pays_recipient (H := sample_hash) sample_redeem sample_htlc_db sample_htlc_db
    _ void_result ltac:(vm_compute; reflexivity) (fee_frame_refl _) ltac:(vm_compute; reflexivity))
    as (h & Hh & _ & _ & Hd & Hb).
  vm_compute in Hh. injection Hh as <-.
  split; [exact (Hb 101 1)|]. exact (f_equal (λ m, m !! 0) Hd).
Defined.

Lemma expired_htlcs_refunded_witness : ∃ d', clear_expired_htlcs sample_htlc_db = Ok d' ∧
  amount (get_balance d' 100 1) = 500250 ∧ rows (htlcs d') = {[ 0 := sample_htlc (sample_time + 50) ]}.
Proof.
  eexists. split; [vm_compute; reflexivity|].
  edestruct (expired_htlcs_refunded sample_htlc_db) as (Hd & Hb & _); [vm_compute; reflexivity|].
  split; [exact (Hb 100 1)|exact Hd].
Defined.
