(* ===== verification/Ticket.v ===== *)
(** * Tickets

    Tickets lock core tokens for voting power: libraries/protocol/ticket.cpp,
    libraries/chain/ticket_object.cpp (the state machine of a ticket),
    libraries/chain/ticket_evaluator.cpp and [database::process_tickets] of
    libraries/chain/db_update.cpp.

    The code steps through the enumeration [ticket_type] with casts and indexes arrays with it.
    Where that would leave the enumeration or the array the model returns [undefined]; on
    well-formed tickets ([ticket_ok]) it never does. *)
From S2P Require Import Prelude MachineInt Hardfork Asset Vesting ChainState Ledger Sample CreditBooks Balance Fees Evaluator.

Inductive ticket_version := ticket_v1 | ticket_v2.

Definition undefined {A} : result A := Err (fc_throw "undefined behaviour").

(** ** The enumeration *)
Definition type_index (t : ticket_type) : Z :=
  match t with
  | liquid => 0 | lock_180_days => 1 | lock_360_days => 2 | lock_720_days => 3 | lock_forever => 4
  end.

(** [static_cast<ticket_type>]. *)
Definition type_of_index (i : Z) : result ticket_type :=
  if i =? 0 then Ok liquid else if i =? 1 then Ok lock_180_days else if i =? 2 then Ok lock_360_days
  else if i =? 3 then Ok lock_720_days else if i =? 4 then Ok lock_forever else undefined.

Definition lock_forever_update_steps : Z := 4.
Definition seconds_per_lock_forever_update_step : Z := 180 * 86400.
Definition seconds_per_charging_step : Z := 15 * 86400.
Definition seconds_to_cancel_charging : Z := 7 * 86400.

Definition seconds_to_downgrade (i : ticket_type) : result Z :=
  match i with
  | liquid => Ok (180 * 86400)
  | lock_180_days => Ok (180 * 86400)
  | lock_360_days => Ok (360 * 86400)
  | _ => undefined
  end.

Definition value_multiplier (i : ticket_type) (version : ticket_version) : Z :=
  match i, version with
  | liquid, ticket_v1 => 1
  | liquid, ticket_v2 => 0
  | lock_180_days, _ => 2
  | lock_360_days, _ => 4
  | lock_720_days, _ => 8
  | lock_forever, _ => 8
  end.

(** ** The ticket object *)

Definition tk_with_value (t : ticket_object) (v : share_type) : ticket_object :=
  TicketObject (tk_account t) (tk_target_type t) (tk_amount t) (tk_current_type t) (tk_status t) v
    (tk_next_auto_update_time t) (tk_next_type_downgrade_time t).

(** The members that a state change sets: current type, status and the two times. *)
Definition tk_with_state (t : ticket_object) (c : ticket_type) (s : ticket_status)
    (next_update next_downgrade : Z) : ticket_object :=
  TicketObject (tk_account t) (tk_target_type t) (tk_amount t) c s (tk_value t) next_update next_downgrade.

Definition tk_with_target (t : ticket_object) (target : ticket_type) : ticket_object :=
  TicketObject (tk_account t) target (tk_amount t) (tk_current_type t) (tk_status t) (tk_value t)
    (tk_next_auto_update_time t) (tk_next_type_downgrade_time t).

Definition tk_with_amount (t : ticket_object) (a : asset) : ticket_object :=
  TicketObject (tk_account t) (tk_target_type t) a (tk_current_type t) (tk_status t) (tk_value t)
    (tk_next_auto_update_time t) (tk_next_type_downgrade_time t).

Definition update_value (version : ticket_version) (t : ticket_object) : result ticket_object :=
  if bool_decide (tk_current_type t ≠ lock_forever) then
    v ← share_mul (amount (tk_amount t)) (value_multiplier (tk_current_type t) version);
    Ok (tk_with_value t v)
  else Ok t.

Definition init_new (now : Z) (new_account : account_id_type) (new_target_type : ticket_type)
    (new_amount : asset) (version : ticket_version) : result ticket_object :=
  update_value version (TicketObject new_account new_target_type new_amount liquid charging 0
    (time_add now seconds_per_charging_step) time_point_sec_maximum).

Definition update_target_type (now : Z) (new_target_type : ticket_type) (version : ticket_version)
    (t : ticket_object) : result ticket_object :=
  let current := tk_current_type t in
  t ← (if type_index current <? type_index new_target_type then
         Ok (if bool_decide (tk_status t ≠ charging) then
               tk_with_state t current charging (time_add now seconds_per_charging_step)
                 (tk_next_type_downgrade_time t)
             else t)
       else
         '(c, down) ←
           (if tk_next_type_downgrade_time t =? time_point_sec_maximum then
              if bool_decide (current = new_target_type) then
                Ok (current, time_add now seconds_to_cancel_charging)
              else
                c ← type_of_index (type_index current - 1);
                s ← seconds_to_downgrade c;
                Ok (c, time_add now s)
            else Ok (current, tk_next_type_downgrade_time t));
         Ok (tk_with_state t c withdrawing down down));
  update_value version (tk_with_target t new_target_type).

Definition init_split (now : Z) (old_ticket : ticket_object) (new_target_type : ticket_type)
    (new_amount : asset) (version : ticket_version) : result ticket_object :=
  update_target_type now new_target_type version
    (TicketObject (tk_account old_ticket) (tk_target_type old_ticket) new_amount
       (tk_current_type old_ticket) (tk_status old_ticket) 0 (tk_next_auto_update_time old_ticket)
       (tk_next_type_downgrade_time old_ticket)).

Definition adjust_amount (delta_amount : asset) (version : ticket_version) (t : ticket_object)
    : result ticket_object :=
  a ← asset_add (tk_amount t) delta_amount;
  update_value version (tk_with_amount t a).

(** [auto_update] of a ticket that is charging. *)
Definition auto_charge (version : ticket_version) (t : ticket_object) : result ticket_object :=
  c ← type_of_index (type_index (tk_current_type t) + 1);
  if type_index c <? type_index (tk_target_type t) then
    Ok (tk_with_state t c charging (time_add (tk_next_auto_update_time t) seconds_per_charging_step)
          time_point_sec_maximum)
  else if bool_decide (c ≠ lock_forever) then
    Ok (tk_with_state t c stable time_point_sec_maximum time_point_sec_maximum)
  else
    v ← share_mul (amount (tk_amount t)) (value_multiplier c version);
    Ok (tk_with_value (tk_with_state t c withdrawing
          (time_add (tk_next_auto_update_time t) seconds_per_lock_forever_update_step)
          time_point_sec_maximum) v).

(** [auto_update] of a ticket that is not charging. *)
Definition auto_withdraw (version : ticket_version) (t : ticket_object) : result ticket_object :=
  let current := tk_current_type t in
  if bool_decide (current = lock_forever) then
    m ← share_mul (amount (tk_amount t)) (value_multiplier current version);
    delta ← share_div m lock_forever_update_steps;
    let delta_value := if delta <=? 0 then 1 else delta in
    if tk_value t <=? delta_value then
      Ok (tk_with_value (tk_with_state t current stable time_point_sec_maximum
                           (tk_next_type_downgrade_time t)) 0)
    else
      v ← share_sub (tk_value t) delta_value;
      Ok (tk_with_value (tk_with_state t current (tk_status t)
            (time_add (tk_next_auto_update_time t) seconds_per_lock_forever_update_step)
            (tk_next_type_downgrade_time t)) v)
  else if bool_decide (current = tk_target_type t) then
    Ok (tk_with_state t current stable time_point_sec_maximum time_point_sec_maximum)
  else
    c ← type_of_index (type_index current - 1);
    s ← seconds_to_downgrade c;
    let down := time_add (tk_next_type_downgrade_time t) s in
    Ok (tk_with_state t c (tk_status t) down down).

Definition auto_update (version : ticket_version) (t : ticket_object) : result ticket_object :=
  t ← (if bool_decide (tk_status t = charging) then auto_charge version t else auto_withdraw version t);
  update_value version t.

(** ** Processing of tickets that are due *)

Definition current_version (d : database) : ticket_version :=
  if HARDFORK_CORE_2262_PASSED (next_maintenance_time d) then ticket_v2 else ticket_v1.

(** Adds to the five ticket counters of an account's statistics. *)
Definition stats_add_tickets (inactive pob pol pob_value pol_value : share_type)
    (s : account_statistics_object) : result account_statistics_object :=
  a ← share_add (total_core_inactive s) inactive;
  b ← share_add (total_core_pob s) pob;
  c ← share_add (total_core_pol s) pol;
  v ← share_add (total_pob_value s) pob_value;
  w ← share_add (total_pol_value s) pol_value;
  Ok (AccountStatisticsObject (total_core_in_orders s) a b c v w (has_cashback_vb s) (lifetime_fees_paid s) (pending_fees s)
        (pending_vested_fees s)).

(** The local variables of [process_tickets]: the result and the changes of the global counters. *)
Record process_acc := ProcessAcc {
  pa_removed : gset Z;
  pa_updated : gset Z;
  pa_delta_pob : share_type;
  pa_delta_inactive : share_type }.

(** A liquid ticket that was being withdrawn is paid back and removed. *)
Definition release_ticket (id : Z) (t : ticket_object) (d : database) : result database :=
  d ← adjust_balance (tk_account t) (tk_amount t) d;
  d ← modify_statistics (tk_account t) (λ s,
        p ← share_sub (total_core_pol s) (amount (tk_amount t));
        v ← share_sub (total_pol_value s) (tk_value t);
        Ok (AccountStatisticsObject (total_core_in_orders s) (total_core_inactive s) (total_core_pob s) p (total_pob_value s) v
              (has_cashback_vb s) (lifetime_fees_paid s) (pending_fees s) (pending_vested_fees s))) d;
  tb ← tbl_remove id (tickets d);
  Ok (set_tickets tb d).

(** The statistics' changes when [t] became [t'], as in the code: inactive, active forever and
    other amounts, forever and other values. *)
Definition update_deltas (t t' : ticket_object) : result (Z * Z * Z * Z * Z) :=
  let x := amount (tk_amount t') in
  if bool_decide (tk_current_type t = lock_forever) then
    dv ← share_sub (tk_value t') (tk_value t);
    if tk_value t' =? 0 then neg ← share_neg x; Ok (x, neg, 0, dv, 0)
    else Ok (0, 0, 0, dv, 0)
  else if bool_decide (tk_current_type t' = lock_forever) then
    neg ← share_neg x;
    nv ← share_neg (tk_value t);
    Ok (0, x, neg, tk_value t', nv)
  else
    dv ← share_sub (tk_value t') (tk_value t);
    Ok (0, 0, 0, 0, dv).

(** The changes of the global counters. *)
Definition global_deltas (t t' : ticket_object) (acc : process_acc) : result (Z * Z) :=
  let x := amount (tk_amount t') in
  if bool_decide (tk_current_type t = lock_forever) then
    if tk_value t' =? 0 then
      p ← share_sub (pa_delta_pob acc) x;
      i ← share_add (pa_delta_inactive acc) x;
      Ok (p, i)
    else Ok (pa_delta_pob acc, pa_delta_inactive acc)
  else if bool_decide (tk_current_type t' = lock_forever) then
    p ← share_add (pa_delta_pob acc) x;
    Ok (p, pa_delta_inactive acc)
  else Ok (pa_delta_pob acc, pa_delta_inactive acc).

(** One iteration of the loop. *)
Definition process_ticket (version : ticket_version) (id : Z) (t : ticket_object)
    (s : database * process_acc) : result (database * process_acc) :=
  let '(d, acc) := s in
  get_statistics d (tk_account t);;
  if bool_decide (tk_status t = withdrawing) && bool_decide (tk_current_type t = liquid) then
    d ← release_ticket id t d;
    Ok (d, ProcessAcc ({[ id ]} ∪ pa_removed acc) (pa_updated acc) (pa_delta_pob acc)
             (pa_delta_inactive acc))
  else
    tb ← tbl_modify id (auto_update version) (tickets d);
    t' ← tbl_get tb id;
    '(p, i) ← global_deltas t t' acc;
    '(a, b, c, v, w) ← update_deltas t t';
    d ← modify_statistics (tk_account t') (stats_add_tickets a b c v w) (set_tickets tb d);
    Ok (d, ProcessAcc (pa_removed acc) ({[ id ]} ∪ pa_updated acc) p i).

Fixpoint process_due_tickets (version : ticket_version) (fuel : nat) (s : database * process_acc)
    : result (database * process_acc) :=
  match fuel with
  | O => Ok s
  | S fuel =>
    match first_by tk_next_auto_update_time (tickets s.1) with
    | Some (id, t) =>
      if tk_next_auto_update_time t <=? head_block_time s.1 then
        s ← process_ticket version id t s; process_due_tickets version fuel s
      else Ok s
    | None => Ok s
    end
  end.

(** No ticket is updated more than eight times in a row ([process_tickets_complete]). *)
Definition ticket_fuel (d : database) : nat := 8 * size (rows (tickets d)).

Definition process_tickets (d : database) : result (database * process_acc) :=
  '(d, acc) ← process_due_tickets (current_version d) (ticket_fuel d) (d, ProcessAcc ∅ ∅ 0 0);
  if negb (pa_delta_pob acc =? 0) || negb (pa_delta_inactive acc =? 0) then
    p ← share_add (total_pob d) (pa_delta_pob acc);
    i ← share_add (total_inactive d) (pa_delta_inactive acc);
    Ok (set_total_inactive i (set_total_pob p d), acc)
  else Ok (d, acc).

(** ** create *)
Record ticket_create_operation := TicketCreateOperation {
  tc_fee : asset;
  tc_account : account_id_type;
  tc_target_type : Z;
  tc_amount : asset }.

Definition TICKET_TYPE_COUNT : Z := 5.

Definition ticket_create_validate (op : ticket_create_operation) : result unit :=
  FC_ASSERT (0 <=? amount (tc_fee op)) "Fee should not be negative";;
  FC_ASSERT (negb (tc_target_type op =? type_index liquid)) "Target type can not be liquid";;
  FC_ASSERT (tc_target_type op <? TICKET_TYPE_COUNT) "Invalid target type";;
  FC_ASSERT (0 <? amount (tc_amount op)) "A positive amount is needed for creating a ticket";;
  FC_ASSERT (asset_id (tc_amount op) =? core_asset_id) "Amount must be in BTS so far".

Definition ticket_create_do_evaluate (_ : ticket_create_operation) (d : database) : result unit :=
  FC_ASSERT (HARDFORK_CORE_2103_PASSED (head_block_time d)) "Not allowed until hardfork 2103".

Definition ticket_create_do_apply (op : ticket_create_operation) (_ : unit) (d : database)
    : result (database * operation_result) :=
  let version := current_version d in
  neg ← asset_neg (tc_amount op);
  d ← adjust_balance (tc_account op) neg d;
  target ← type_of_index (tc_target_type op);
  new_ticket ← init_new (head_block_time d) (tc_account op) target (tc_amount op) version;
  '(id, tb) ← tbl_create new_ticket (tickets d);
  d ← modify_statistics (tc_account op)
        (stats_add_tickets 0 0 (amount (tc_amount op)) 0 (tk_value new_ticket)) (set_tickets tb d);
  Ok (d, object_id_result (kind_ticket, id)).

#[global] Instance ticket_create_evaluator : Evaluator ticket_create_operation := {
  eval_ctx := unit;
  op_fee := tc_fee;
  fee_payer := tc_account;
  validate := ticket_create_validate;
  do_evaluate := ticket_create_do_evaluate;
  do_apply := ticket_create_do_apply }.

(** ** update *)
Record ticket_update_operation := TicketUpdateOperation {
  tu_fee : asset;
  tu_ticket : Z;
  tu_account : account_id_type;
  tu_target_type : Z;
  tu_amount_for_new_target : option asset }.

Definition ticket_update_validate (op : ticket_update_operation) : result unit :=
  FC_ASSERT (0 <=? amount (tu_fee op)) "Fee should not be negative";;
  FC_ASSERT (tu_target_type op <? TICKET_TYPE_COUNT) "Invalid target type";;
  match tu_amount_for_new_target op with
  | Some a =>
    FC_ASSERT (0 <? amount a) "A positive amount is needed";;
    FC_ASSERT (asset_id a =? core_asset_id) "Amount must be in BTS so far"
  | None => Ok ()
  end.

Definition get_ticket (d : database) (id : Z) := tbl_get (tickets d) id.

Definition ticket_update_do_evaluate (op : ticket_update_operation) (d : database) : result unit :=
  ticket ← get_ticket d (tu_ticket op);
  FC_ASSERT (tk_account ticket =? tu_account op) "Ticket is not owned by the account";;
  FC_ASSERT (bool_decide (tk_current_type ticket ≠ lock_forever))
    "Can not to update a ticket that is locked forever";;
  FC_ASSERT (negb (type_index (tk_target_type ticket) =? tu_target_type op)) "Target type does not change";;
  match tu_amount_for_new_target op with
  | Some a =>
    le ← asset_le a (tk_amount ticket);
    FC_ASSERT le "Insufficient amount in ticket to be updated"
  | None => Ok ()
  end.

(** The update of the ticket: the new state, the ids of new tickets and the change of value. *)
Definition change_ticket (op : ticket_update_operation) (ticket : ticket_object) (d : database)
    : result (database * gset Z * share_type) :=
  let now := head_block_time d in
  let version := current_version d in
  target ← type_of_index (tu_target_type op);
  split ← match tu_amount_for_new_target op with
          | Some a => lt ← asset_lt a (tk_amount ticket); Ok (if lt : bool then Some a else None)
          | None => Ok None
          end;
  match split with
  | Some a =>
    new_ticket ← init_split now ticket target a version;
    '(id, tb) ← tbl_create new_ticket (tickets d);
    neg ← asset_neg a;
    tb ← tbl_modify (tu_ticket op) (adjust_amount neg version) tb;
    ticket' ← tbl_get tb (tu_ticket op);
    sum ← share_add (tk_value new_ticket) (tk_value ticket');
    delta ← share_sub sum (tk_value ticket);
    Ok (set_tickets tb d, {[ id ]}, delta)
  | None =>
    tb ← tbl_modify (tu_ticket op) (update_target_type now target version) (tickets d);
    ticket' ← tbl_get tb (tu_ticket op);
    delta ← share_sub (tk_value ticket') (tk_value ticket);
    Ok (set_tickets tb d, ∅, delta)
  end.

Definition ticket_refs (s : gset Z) : list object_ref := (λ i, (kind_ticket, i)) <$> elements s.

Definition ticket_update_do_apply (op : ticket_update_operation) (_ : unit) (d : database)
    : result (database * operation_result) :=
  ticket ← get_ticket d (tu_ticket op);
  '(d, new_objects, delta_value) ← change_ticket op ticket d;
  d ← (if negb (delta_value =? 0) then
         modify_statistics (tu_account op) (stats_add_tickets 0 0 0 0 delta_value) d
       else Ok d);
  '(d, acc) ← process_tickets d;
  let updated := (({[ tu_ticket op ]} ∪ pa_updated acc) ∖ new_objects) ∖ pa_removed acc in
  Ok (d, generic_operation_result (ticket_refs new_objects) (ticket_refs updated)
           (ticket_refs (pa_removed acc))).

#[global] Instance ticket_update_evaluator : Evaluator ticket_update_operation := {
  eval_ctx := unit;
  op_fee := tu_fee;
  fee_payer := tu_account;
  validate := ticket_update_validate;
  do_evaluate := ticket_update_do_evaluate;
  do_apply := ticket_update_do_apply }.

(** ** Well-formed tickets *)

Definition state_ok (t : ticket_object) : Prop :=
  match tk_status t with
  | charging => type_index (tk_current_type t) < type_index (tk_target_type t)
  | stable => tk_current_type t = tk_target_type t ∧
      tk_next_auto_update_time t = time_point_sec_maximum ∧
      (tk_current_type t = lock_forever → tk_value t = 0)
  | withdrawing =>
      if decide (tk_current_type t = lock_forever) then
        tk_target_type t = lock_forever ∧ ∃ k, 1 ≤ k ≤ 4 ∧ tk_value t = 2 * amount (tk_amount t) * k
      else type_index (tk_target_type t) ≤ type_index (tk_current_type t)
  end.

Record ticket_ok (t : ticket_object) : Prop := {
  to_positive : 0 < amount (tk_amount t);
  to_state : state_ok t }.

(** The value of a ticket is at most eight times its amount. *)
Definition value_ok (t : ticket_object) : Prop := 0 ≤ tk_value t ≤ 8 * amount (tk_amount t).

Definition tickets_ok (d : database) : Prop := rows_ok (λ t, ticket_ok t ∧ value_ok t) (tickets d).

(** How many automatic updates a ticket has ahead of it. *)
Definition rank (t : ticket_object) : Z :=
  match tk_status t with
  | charging => type_index (tk_target_type t) - type_index (tk_current_type t)
                + (if decide (tk_target_type t = lock_forever) then 4 else 0)
  | stable => 0
  | withdrawing =>
      if decide (tk_current_type t = lock_forever) then tk_value t / (2 * amount (tk_amount t))
      else type_index (tk_current_type t) - type_index (tk_target_type t) + 1
  end.

Lemma type_of_index_Ok i t : type_of_index i = Ok t → i = type_index t.
Proof. unfold type_of_index, undefined. intros H. inv_ok; propify; done. Qed.

Lemma type_of_index_ok t : type_of_index (type_index t) = Ok t.
Proof. by destruct t. Qed.

Lemma type_index_inj t t' : type_index t = type_index t' → t = t'.
Proof. by destruct t, t'. Qed.

Lemma type_index_bounds t : 0 ≤ type_index t ≤ 4.
Proof. destruct t; simpl; lia. Qed.

Lemma type_index_forever t : type_index t = 4 ↔ t = lock_forever.
Proof. by destruct t. Qed.

Lemma rank_bounds t : ticket_ok t → 0 ≤ rank t ≤ 8 ∧ (tk_status t ≠ stable → 1 ≤ rank t).
Proof.
  intros [Hp Hs]. unfold state_ok, rank in *.
  pose proof (type_index_bounds (tk_current_type t)). pose proof (type_index_bounds (tk_target_type t)).
  destruct (tk_status t).
  - case_decide; lia.
  - split; [lia|done].
  - case_decide; [|lia]. destruct Hs as (_ & k & Hk & ->).
    replace (2 * amount (tk_amount t) * k) with (k * (2 * amount (tk_amount t))) by lia.
    rewrite Z.div_mul by lia. lia.
Qed.

(** [update_value] changes the value only, and not that of a ticket locked forever. *)
Lemma update_value_Ok version t t' :
  update_value version t = Ok t' →
  ∃ v, t' = tk_with_value t v ∧ (tk_current_type t = lock_forever → v = tk_value t).
Proof.
  unfold update_value. intros H. case_bool_decide as E; inv_ok.
  - eexists. by split.
  - exists (tk_value t'). split; [by destruct t'|done].
Qed.

Lemma update_value_bounds version t t' :
  update_value version t = Ok t' → ticket_ok t' → value_ok t'.
Proof.
  unfold update_value. intros H [Hp Hs]. unfold value_ok. case_bool_decide as E.
  - apply bind_Ok in H as (v & Hv & [= <-]). inv_share. subst. simpl in *.
    unfold value_multiplier. destruct (tk_current_type t), version; lia.
  - injection H as <-. unfold state_ok in Hs. destruct (tk_status t) eqn:Es.
    + pose proof (type_index_bounds (tk_target_type t)).
      assert (tk_current_type t = lock_forever) as Ef by (by destruct (tk_current_type t); try tauto; destruct E).
      rewrite Ef in Hs. simpl in Hs. lia.
    + assert (tk_current_type t = lock_forever) as Ef by (by destruct (tk_current_type t); try tauto; destruct E).
      naive_solver lia.
    + destruct (decide (tk_current_type t = lock_forever)) as [Ef|Ef].
      * destruct Hs as (_ & k & Hk & ->). nia.
      * by destruct E.
Qed.

(** The value matters only to a ticket locked forever. *)
Lemma tk_with_value_ok t v :
  (tk_current_type t = lock_forever → v = tk_value t) → ticket_ok t →
  ticket_ok (tk_with_value t v) ∧ rank (tk_with_value t v) = rank t.
Proof.
  intros Hv [Hp Hs]. unfold state_ok, rank in *. split; [split; [done|]|].
  - unfold state_ok; simpl. destruct (tk_status t); [done|naive_solver|].
    case_decide; [|done]. destruct Hs as (? & k & ? & ?). split; [done|]. exists k. rewrite Hv; done.
  - simpl. destruct (tk_status t); [done|done|]. case_decide; [|done]. by rewrite Hv.
Qed.

(** What an automatic update preserves, and that it uses up one of the updates ahead. *)
Record advances (t t' : ticket_object) : Prop := {
  ad_ok : ticket_ok t';
  ad_rank : rank t' < rank t;
  ad_account : tk_account t' = tk_account t;
  ad_amount : tk_amount t' = tk_amount t;
  ad_forever : tk_current_type t = lock_forever → tk_current_type t' = lock_forever ∧ tk_value t ≠ 0;
  ad_locked : tk_current_type t ≠ lock_forever → tk_current_type t' = lock_forever → tk_value t' ≠ 0 }.

Lemma auto_charge_ok version t t' :
  ticket_ok t → tk_status t = charging → auto_charge version t = Ok t' → advances t t'.
Proof.
  intros [Hp Hs] Ec H. unfold state_ok in Hs. rewrite Ec in Hs.
  unfold auto_charge in H. apply bind_Ok in H as (c & Hc%type_of_index_Ok & H).
  pose proof (type_index_bounds (tk_target_type t)).
  assert (tk_current_type t ≠ lock_forever) as Hnf by (intros E; rewrite E in *; simpl in *; lia).
  destruct (Z.ltb_spec (type_index c) (type_index (tk_target_type t))) as [Hlt|Hge].
  - injection H as <-. assert (c ≠ lock_forever) by (intros ->; simpl in *; lia).
    split; try done. unfold rank; simpl. rewrite Ec. lia.
  - assert (tk_target_type t = c) as Et by (apply type_index_inj; lia).
    case_bool_decide as Ef.
    + injection H as <-. split; [|unfold rank; simpl; rewrite Ec; case_decide; lia|done|done|done|done].
      split; [done|]. unfold state_ok; simpl. split_and!; [done|done|congruence].
    + apply bind_Ok in H as (v & Hv & E). injection E as <-. subst c.
      inv_share. subst. split; [| |done|done|done|simpl; rewrite Ef; simpl; lia].
      * split; [done|]. unfold state_ok; simpl. rewrite decide_True by done.
        split; [done|]. exists 4. rewrite Ef. simpl. lia.
      * unfold rank; simpl. rewrite Ec, !decide_True, Ef by done. simpl.
        replace (amount (tk_amount t) * 8) with (4 * (2 * amount (tk_amount t))) by lia.
        rewrite Z.div_mul by lia. rewrite Ef in Hc. simpl in Hc. lia.
Qed.

Lemma auto_withdraw_ok version t t' :
  ticket_ok t → tk_status t = withdrawing → tk_current_type t ≠ liquid →
  auto_withdraw version t = Ok t' → advances t t'.
Proof.
  intros Hok Ew Hnl H. pose proof (rank_bounds t Hok) as [_ Hr]. rewrite Ew in Hr.
  specialize (Hr ltac:(done)). destruct Hok as [Hp Hs]. unfold state_ok in Hs. rewrite Ew in Hs.
  unfold auto_withdraw in H. case_bool_decide as Ef.
  - rewrite decide_True in Hs by done. destruct Hs as (Et & k & Hk & Hv). rewrite Ef in H. simpl in H.
    apply bind_Ok in H as (m & Hm & H). apply bind_Ok in H as (delta & Hd & H). inv_share. subst.
    assert (amount (tk_amount t) * 8 ÷ lock_forever_update_steps = 2 * amount (tk_amount t)) as Ed.
    { unfold lock_forever_update_steps. rewrite Z.quot_div_nonneg by lia.
      replace (amount (tk_amount t) * 8) with (2 * amount (tk_amount t) * 4) by lia. by rewrite Z.div_mul. }
    rewrite Ed in H. destruct (Z.leb_spec (2 * amount (tk_amount t)) 0); [lia|].
    assert (tk_value t ≠ 0) by nia.
    destruct (Z.leb_spec (tk_value t) (2 * amount (tk_amount t))) as [Hle|Hgt].
    + injection H as <-. split; [|unfold rank at 1; simpl; lia|done|done|by split|done].
      split; [done|]. unfold state_ok; simpl. split_and!; [congruence|done|done].
    + apply bind_Ok in H as (v & Hsub & E). injection E as <-. inv_share. subst.
      assert (tk_value t - 2 * amount (tk_amount t) = (k - 1) * (2 * amount (tk_amount t))) as Ev by lia.
      split; [| |done|done|by split|done].
      * split; [done|]. unfold state_ok; simpl. rewrite Ew.
        split; [done|]. exists (k - 1). split; [nia|lia].
      * unfold rank; simpl. rewrite Ew, !decide_True, Ev, Hv by done.
        replace (2 * amount (tk_amount t) * k) with (k * (2 * amount (tk_amount t))) by lia.
        rewrite !Z.div_mul by lia. lia.
  - rewrite decide_False in Hs by done. case_bool_decide as Et.
    + injection H as <-. split; [|unfold rank at 1; simpl; lia|done|done|done|done].
      split; [done|]. unfold state_ok; simpl. split_and!; [done|done|congruence].
    + apply bind_Ok in H as (c & Hc%type_of_index_Ok & H). apply bind_Ok in H as (s & _ & E).
      injection E as <-. pose proof (type_index_bounds (tk_current_type t)).
      assert (type_index (tk_current_type t) ≠ type_index (tk_target_type t))
        by (intros E; by apply type_index_inj in E).
      assert (c ≠ lock_forever) by (intros ->; simpl in *; lia).
      split; [| |done|done|done|done].
      * split; [done|]. unfold state_ok; simpl. rewrite Ew, decide_False by done. lia.
      * unfold rank; simpl. rewrite Ew, !decide_False by done. lia.
Qed.

Lemma auto_update_ok version t t' :
  ticket_ok t → tk_status t ≠ stable → ¬ (tk_status t = withdrawing ∧ tk_current_type t = liquid) →
  auto_update version t = Ok t' → advances t t' ∧ value_ok t'.
Proof.
  intros Hok Hst Hnl H. unfold auto_update in H. apply bind_Ok in H as (t1 & H1 & H).
  assert (advances t t1) as [A1 A2 A3 A4 A5 A6].
  { case_bool_decide as Ec; [by eapply auto_charge_ok|].
    destruct (tk_status t) eqn:Es; [done|done|]. eapply auto_withdraw_ok; eauto. }
  pose proof (update_value_bounds _ _ _ H) as HV.
  apply update_value_Ok in H as (v & -> & Hv). destruct (tk_with_value_ok t1 v Hv A1) as [B1 B2].
  split; [|by apply HV]. split; try done; [lia|]. intros Hn Hf. simpl in *. rewrite Hv by done. auto.
Qed.

(** ** The counters

    An account's statistics and the global properties keep running totals of the tickets: the
    amounts in inactive, active and other tickets, and the values of tickets locked forever and
    of others. *)
Inductive counter := c_inactive | c_pob | c_pol | c_pob_value | c_pol_value.

Definition stat_of (c : counter) (s : account_statistics_object) : share_type :=
  match c with
  | c_inactive => total_core_inactive s
  | c_pob => total_core_pob s
  | c_pol => total_core_pol s
  | c_pob_value => total_pob_value s
  | c_pol_value => total_pol_value s
  end.

(** What a ticket contributes to each. *)
Definition part (c : counter) (t : ticket_object) : Z :=
  let forever := bool_decide (tk_current_type t = lock_forever) in
  let dead := bool_decide (tk_value t = 0) in
  match c with
  | c_inactive => if forever && dead then amount (tk_amount t) else 0
  | c_pob => if forever && negb dead then amount (tk_amount t) else 0
  | c_pol => if forever then 0 else amount (tk_amount t)
  | c_pob_value => if forever then tk_value t else 0
  | c_pol_value => if forever then 0 else tk_value t
  end.

Definition part_of (a : account_id_type) (c : counter) (t : ticket_object) : Z :=
  if decide (tk_account t = a) then part c t else 0.

(** The counters agree with the tickets, up to the pending global changes [dp] and [di]. *)
Record tallied (d : database) (dp di : share_type) : Prop := {
  ta_accounts a s c : statistics d !! a = Some s →
    stat_of c s = msum (λ _, part_of a c) (rows (tickets d));
  ta_pob : total_pob d + dp = msum (λ _, part c_pob) (rows (tickets d));
  ta_inactive : total_inactive d + di = msum (λ _, part c_inactive) (rows (tickets d)) }.

Definition ticket_books (d : database) : Prop := tallied d 0 0.

Lemma stats_add_tickets_Ok x1 x2 x3 x4 x5 s s' :
  stats_add_tickets x1 x2 x3 x4 x5 s = Ok s' →
  (∀ c, stat_of c s' = stat_of c s + match c with c_inactive => x1 | c_pob => x2 | c_pol => x3
                                     | c_pob_value => x4 | c_pol_value => x5 end) ∧
  pending_fees s' = pending_fees s ∧ pending_vested_fees s' = pending_vested_fees s.
Proof. unfold stats_add_tickets. intros H. inv_ok. inv_share. subst. split; [by intros []|done]. Qed.

Lemma update_deltas_Ok t t' x1 x2 x3 x4 x5 :
  advances t t' → update_deltas t t' = Ok (x1, x2, x3, x4, x5) →
  ∀ c, match c with c_inactive => x1 | c_pob => x2 | c_pol => x3
       | c_pob_value => x4 | c_pol_value => x5 end = part c t' - part c t.
Proof.
  intros [_ _ _ Ha Hf Hl] H c. unfold update_deltas in H. unfold part. rewrite Ha in *.
  case_bool_decide as E1.
  - destruct (Hf E1) as [E2 Hv]. rewrite (bool_decide_eq_true_2 (tk_current_type t' = _)) by done.
    rewrite (bool_decide_eq_false_2 (tk_value t = 0)) by done.
    inv_ok; propify; inv_share; subst; case_bool_decide; destruct c; simpl; lia.
  - case_bool_decide as E2.
    + rewrite (bool_decide_eq_false_2 (tk_value t' = 0)) by auto.
      inv_ok. inv_share. subst. destruct c; simpl; lia.
    + inv_ok. inv_share. subst. destruct c; simpl; lia.
Qed.

Lemma global_deltas_Ok t t' acc p i :
  advances t t' → global_deltas t t' acc = Ok (p, i) →
  p = pa_delta_pob acc + (part c_pob t' - part c_pob t) ∧
  i = pa_delta_inactive acc + (part c_inactive t' - part c_inactive t).
Proof.
  intros [_ _ _ Ha Hf Hl] H. unfold global_deltas in H. unfold part. rewrite Ha in *.
  case_bool_decide as E1.
  - destruct (Hf E1) as [E2 Hv]. rewrite (bool_decide_eq_true_2 (tk_current_type t' = _)) by done.
    rewrite (bool_decide_eq_false_2 (tk_value t = 0)) by done.
    inv_ok; propify; inv_share; subst; case_bool_decide; simpl; lia.
  - case_bool_decide as E2.
    + rewrite (bool_decide_eq_false_2 (tk_value t' = 0)) by auto. inv_ok. inv_share. subst. simpl. lia.
    + inv_ok. simpl. lia.
Qed.

(** Replacing ticket [id] of account [a], and [a]'s statistics with it, keeps the tally. *)
Lemma tallied_step d d' dp di dp' di' a s s' f g :
  tallied d dp di → statistics d !! a = Some s → statistics d' = <[a := s']> (statistics d) →
  total_pob d' = total_pob d → total_inactive d' = total_inactive d →
  (∀ c, stat_of c s' = stat_of c s + f c) →
  (∀ b c, msum (λ _, part_of b c) (rows (tickets d')) =
     msum (λ _, part_of b c) (rows (tickets d)) + if decide (b = a) then f c else 0) →
  (∀ c, msum (λ _, part c) (rows (tickets d')) = msum (λ _, part c) (rows (tickets d)) + g c) →
  dp' = dp + g c_pob → di' = di + g c_inactive →
  tallied d' dp' di'.
Proof.
  intros [T1 T2 T3] Hs Es Ep Ei Hf Ha Hg -> ->. split.
  - intros b u c Hu. rewrite Ha. rewrite Es in Hu. apply lookup_insert_Some in Hu as [[<- <-]|[Hne Hu]].
    + rewrite decide_True, Hf, (T1 _ _ c Hs) by done. done.
    + rewrite decide_False, (T1 _ _ c Hu) by done. lia.
  - rewrite Hg, Ep. lia.
  - rewrite Hg, Ei. lia.
Qed.

Lemma part_of_update b c a (m : gmap Z ticket_object) id t t' :
  m !! id = Some t → tk_account t = a → tk_account t' = a →
  msum (λ _, part_of b c) (<[id := t']> m) =
    msum (λ _, part_of b c) m + if decide (b = a) then part c t' - part c t else 0.
Proof.
  intros Hm <- Ha. rewrite (msum_insert_old _ _ _ t) by done. unfold part_of. rewrite Ha.
  repeat case_decide; congruence || lia.
Qed.

(** ** The effect of one iteration *)

Definition total_rank (d : database) : Z := msum (λ _, rank) (rows (tickets d)).

(** Every ticket locked forever is still there, with its owner and amount. *)
Definition locked_kept (d d' : database) : Prop :=
  ∀ id t, rows (tickets d) !! id = Some t → tk_current_type t = lock_forever →
    ∃ t', rows (tickets d') !! id = Some t' ∧ tk_current_type t' = lock_forever ∧
      tk_account t' = tk_account t ∧ tk_amount t' = tk_amount t.

#[global] Instance locked_kept_preorder : PreOrder locked_kept.
Proof.
  split; [intros d id t Ht Hf; by exists t|].
  intros d1 d2 d3 K1 K2 id t Ht Hf. destruct (K1 _ _ Ht Hf) as (t2 & H2 & F2 & A2 & B2).
  destruct (K2 _ _ H2 F2) as (t3 & H3 & F3 & A3 & B3). exists t3. split_and!; congruence.
Qed.

(** What a step of the processing keeps. *)
Record keeps (d : database) (acc : process_acc) (d' : database) (acc' : process_acc) : Prop := {
  ke_tickets : tickets_ok d';
  ke_time : head_block_time d' = head_block_time d;
  ke_locked : locked_kept d d';
  ke_tally : tallied d (pa_delta_pob acc) (pa_delta_inactive acc) →
             tallied d' (pa_delta_pob acc') (pa_delta_inactive acc') }.

Lemma release_ticket_effect id t d d' acc acc' :
  tickets_ok d → rows (tickets d) !! id = Some t → tk_current_type t = liquid →
  release_ticket id t d = Ok d' →
  pa_delta_pob acc' = pa_delta_pob acc → pa_delta_inactive acc' = pa_delta_inactive acc →
  keeps d acc d' acc' ∧ total_rank d' = total_rank d - rank t.
Proof.
  intros Hok Ht Hl H Ep Ei. unfold release_ticket in H. apply bind_Ok in H as (d1 & H1 & H).
  apply bind_Ok in H as (d2 & H2 & H). apply bind_Ok in H as (tb & H3 & E). injection E as <-.
  apply adjust_balance_frame in H1 as [m ->].
  apply modify_statistics_Ok in H2 as (s & s' & Hs & Hs' & ->). simpl in *.
  apply tbl_remove_Ok in H3 as (t0 & Ht0 & Etb). simplify_eq. split; [split|].
  - intros i v Hv. simpl in Hv. apply lookup_delete_Some in Hv as [_ Hv]. by apply (Hok i).
  - done.
  - intros i u Hu Hf. exists u. split_and!; [|done..]. simpl.
    rewrite lookup_delete_ne; [done|]. intros <-. congruence.
  - rewrite Ep, Ei. intros T.
    eapply (tallied_step d _ _ _ _ _ (tk_account t) s s' (λ c, - part c t) (λ c, - part c t));
      [exact T|exact Hs|done|done|done| | | | |].
    + inv_ok. inv_share. subst. intros c. unfold part. rewrite Hl. destruct c; simpl; lia.
    + intros b c. simpl. rewrite (msum_delete _ _ _ t) by done. unfold part_of.
      repeat case_decide; congruence || lia.
    + intros c. simpl. rewrite (msum_delete _ _ _ t) by done. lia.
    + unfold part. rewrite Hl. simpl. lia.
    + unfold part. rewrite Hl. simpl. lia.
  - unfold total_rank. simpl. by rewrite (msum_delete _ _ _ t).
Qed.

Lemma process_ticket_effect version id t d acc d' acc' :
  tickets_ok d → rows (tickets d) !! id = Some t → tk_status t ≠ stable →
  process_ticket version id t (d, acc) = Ok (d', acc') →
  keeps d acc d' acc' ∧ total_rank d' < total_rank d.
Proof.
  intros Hok Ht Hst H. destruct (Hok _ _ Ht) as [Htok _]. pose proof (rank_bounds t Htok) as [_ Hr].
  specialize (Hr Hst). unfold process_ticket in H. apply bind_Ok in H as (s0 & _ & H).
  destruct (bool_decide (tk_status t = withdrawing) && bool_decide (tk_current_type t = liquid)) eqn:Eb.
  - apply andb_true_iff in Eb as [_ Hl%bool_decide_eq_true]. apply bind_Ok in H as (d1 & H1 & E).
    injection E as <- <-. destruct (release_ticket_effect id t d d1 acc
      (ProcessAcc ({[ id ]} ∪ pa_removed acc) (pa_updated acc) (pa_delta_pob acc) (pa_delta_inactive acc))
      Hok Ht Hl H1 eq_refl eq_refl) as [K ->]. split; [exact K|lia].
  - apply bind_Ok in H as (tb & Hm & H).
    apply tbl_modify_Ok in Hm as (u & v' & Hu & Hup & ->). simplify_eq.
    assert (advances t v' ∧ value_ok v') as [A AV].
    { eapply auto_update_ok; [done|done| |done]. intros [E1 E2]. rewrite E1, E2 in Eb. done. }
    apply bind_Ok in H as (t' & Hg%tbl_get_Ok & H). simpl in Hg. rewrite lookup_insert_eq in Hg.
    injection Hg as <-. apply bind_Ok in H as ([p i] & HG & H).
    apply bind_Ok in H as ([[[[x1 x2] x3] x4] x5] & HU & H). apply bind_Ok in H as (d1 & H1 & E).
    injection E as <- <-. apply modify_statistics_Ok in H1 as (s & s' & Hs & Hs' & ->).
    apply stats_add_tickets_Ok in Hs' as (Hstat & _ & _).
    pose proof (update_deltas_Ok _ _ _ _ _ _ _ A HU) as HD.
    destruct (global_deltas_Ok _ _ _ _ _ A HG) as [-> ->]. destruct A as [A1 A2 A3 A4 A5 A6].
    split; [split|].
    + intros j w Hw. simpl in Hw. apply lookup_insert_Some in Hw as [[_ <-]|[_ Hw]]; [by split|by apply (Hok j)].
    + done.
    + intros j u Hu Hf. simpl. destruct (decide (j = id)) as [->|Hne].
      * simplify_eq. exists v'. rewrite lookup_insert_eq. split_and!; [done|by apply A5|done..].
      * exists u. by rewrite lookup_insert_ne.
    + intros T. simpl in Hs. eapply (tallied_step d _ _ _ _ _ (tk_account v') s s'
        (λ c, part c v' - part c t) (λ c, part c v' - part c t));
        [exact T|exact Hs|done|done|done| | | | |]; simpl.
      * intros c. by rewrite Hstat, (HD c).
      * intros b c. apply (part_of_update b c (tk_account v')); done.
      * intros c. rewrite (msum_insert_old _ _ _ t) by done. lia.
      * lia.
      * lia.
    + unfold total_rank. simpl. rewrite (msum_insert_old _ _ _ t) by done. lia.
Qed.

(** ** The loop *)

Lemma keeps_refl d acc : tickets_ok d → keeps d acc d acc.
Proof. intros Hok. split; [done|done|reflexivity|done]. Qed.

Lemma keeps_trans d1 a1 d2 a2 d3 a3 : keeps d1 a1 d2 a2 → keeps d2 a2 d3 a3 → keeps d1 a1 d3 a3.
Proof.
  intros [? T1 L1 ?] [? T2 L2 ?]. split; [done|congruence|by etrans|auto].
Qed.

Lemma msum_le_size (f : Z → ticket_object → Z) m b :
  (∀ k t, m !! k = Some t → f k t ≤ b) → msum f m ≤ b * Z.of_nat (size m).
Proof.
  induction m as [|k t m Hk IH] using map_ind; intros Hf.
  - rewrite msum_empty, map_size_empty. lia.
  - rewrite msum_insert_new, map_size_insert_None by done.
    pose proof (Hf k t (lookup_insert_eq _ _ _)).
    assert (msum f m ≤ b * Z.of_nat (size m)); [|lia].
    apply IH. intros j u Hu. apply (Hf j). rewrite lookup_insert_ne; [done|congruence].
Qed.

Lemma total_rank_fuel d : tickets_ok d → total_rank d ≤ Z.of_nat (ticket_fuel d).
Proof.
  intros Hok. unfold ticket_fuel, total_rank. rewrite Nat2Z.inj_mul. apply msum_le_size.
  intros k t Ht. apply (rank_bounds t). by apply (Hok k).
Qed.

(** A ticket that is due is not stable. *)
Lemma due_not_stable d id t :
  tickets_ok d → head_block_time d < time_point_sec_maximum → rows (tickets d) !! id = Some t →
  tk_next_auto_update_time t ≤ head_block_time d → tk_status t ≠ stable.
Proof.
  intros Hok Hmax Ht Hdue Es. destruct (Hok _ _ Ht) as [[_ Hs] _]. unfold state_ok in Hs.
  rewrite Es in Hs. lia.
Qed.

Lemma process_due_tickets_spec version fuel d acc d' acc' :
  tickets_ok d → head_block_time d < time_point_sec_maximum → total_rank d ≤ Z.of_nat fuel →
  process_due_tickets version fuel (d, acc) = Ok (d', acc') →
  keeps d acc d' acc' ∧
  ∀ id t, rows (tickets d') !! id = Some t → head_block_time d < tk_next_auto_update_time t.
Proof.
  revert d acc. induction fuel as [|fuel IH]; intros d acc Hok Hmax Hrank H; simpl in H.
  - injection H as <- <-. split; [by apply keeps_refl|]. intros id t Ht.
    destruct (Z.lt_ge_cases (head_block_time d) (tk_next_auto_update_time t)) as [|Hdue]; [done|].
    pose proof (due_not_stable d id t Hok Hmax Ht Hdue) as Hst.
    assert (∀ k u, rows (tickets d) !! k = Some u → 0 ≤ rank u)
      as Hnn by (intros k u Hu; apply (rank_bounds u); by apply (Hok k)).
    pose proof (msum_ge_entry (λ _, rank) (rows (tickets d)) id t Hnn Ht) as Hge. simpl in Hge.
    destruct (rank_bounds t (proj1 (Hok _ _ Ht))) as [_ Hr]. specialize (Hr Hst). unfold total_rank in Hrank. lia.
  - destruct (first_by _ _) as [[id t]|] eqn:Hf.
    + apply first_by_Some in Hf as [Ht Hmin]. simpl in *.
      destruct (Z.leb_spec (tk_next_auto_update_time t) (head_block_time d)) as [Hdue|Hnot].
      * apply bind_Ok in H as ([d1 acc1] & H1 & H).
        apply process_ticket_effect in H1 as [K1 Hlt]; [|done|done|by eapply due_not_stable].
        pose proof (ke_time _ _ _ _ K1) as Et.
        apply IH in H as [K2 Hdone]; [|apply K1|lia|lia]. rewrite Et in Hdone.
        split; [by eapply keeps_trans|done].
      * injection H as <- <-. split; [by apply keeps_refl|]. intros i u Hu. pose proof (Hmin _ _ Hu). lia.
    + injection H as <- <-. split; [by apply keeps_refl|]. intros i u Hu.
      apply first_by_None in Hf. simpl in Hf. by rewrite Hf, lookup_empty in Hu.
Qed.

(** Conservation does not depend on the state of the tickets. *)
Lemma auto_update_amount version t t' :
  auto_update version t = Ok t' → tk_amount t' = tk_amount t.
Proof.
  unfold auto_update. intros H. apply bind_Ok in H as (t1 & H1 & (v & -> & _)%update_value_Ok).
  simpl. case_bool_decide; [unfold auto_charge in H1|unfold auto_withdraw in H1]; inv_ok; done.
Qed.

Lemma release_ticket_conserves id t d d' :
  rows (tickets d) !! id = Some t → release_ticket id t d = Ok d' →
  conserves d d' ∧ (credit_ok d → credit_ok d').
Proof.
  intros Ht H. unfold release_ticket in H. apply bind_Ok in H as (d1 & H1 & H).
  apply bind_Ok in H as (d2 & H2 & H). apply bind_Ok in H as (tb & H3 & E). injection E as <-.
  pose proof (adjust_balance_moves _ _ _ _ H1) as M1. apply adjust_balance_frame in H1 as [m ->].
  pose proof H2 as (s0 & s0' & _ & Hs0 & M2)%modify_statistics_moves.
  apply modify_statistics_Ok in H2 as (s & s' & Hs & Hs' & ->). simpl in *. split; [|done].
  eapply moves_ext; [eapply moves_trans; [eapply moves_trans; [exact M1|exact M2]|]|].
  - apply (moves_tickets _ tb (λ a, - held t a)). intros a. simpl.
    rewrite (tbl_held_remove id (tickets d) tb t a Ht H3). lia.
  - intros a. inv_ok. inv_share. subst. unfold held, ticket_holding. simpl. amt_solve.
Qed.

Lemma process_ticket_conserves version id t d acc d' acc' :
  rows (tickets d) !! id = Some t → process_ticket version id t (d, acc) = Ok (d', acc') →
  conserves d d' ∧ (credit_ok d → credit_ok d').
Proof.
  intros Ht H. unfold process_ticket in H. apply bind_Ok in H as (s0 & _ & H).
  destruct (_ && _).
  - apply bind_Ok in H as (d1 & H1 & E). injection E as <- <-. by eapply release_ticket_conserves.
  - apply bind_Ok in H as (tb & (v & v' & Hv & Hup & _ & Hh)%tbl_held_modify & H).
    apply bind_Ok in H as (t' & _ & H). apply bind_Ok in H as ([p i] & _ & H).
    apply bind_Ok in H as ([[[[x1 x2] x3] x4] x5] & _ & H). apply bind_Ok in H as (d1 & H1 & E).
    injection E as <- <-. pose proof H1 as (s1 & s1' & _ & Hs1 & M1)%modify_statistics_moves.
    apply modify_statistics_Ok in H1 as (s & s' & _ & _ & ->).
    apply stats_add_tickets_Ok in Hs1 as (_ & Ef1 & Ef2). apply auto_update_amount in Hup.
    split; [|done]. eapply moves_ext; [eapply moves_trans; [apply moves_tickets, Hh|exact M1]|].
    intros a. simpl. unfold held, ticket_holding. rewrite Hup, Ef1, Ef2. amt_solve.
Qed.

Lemma process_due_tickets_conserves version fuel s s' :
  process_due_tickets version fuel s = Ok s' →
  conserves s.1 s'.1 ∧ (credit_ok s.1 → credit_ok s'.1).
Proof.
  revert s. induction fuel as [|fuel IH]; intros [d acc] H; simpl in H; [by injection H as <-|].
  destruct (first_by _ _) as [[id t]|] eqn:Hf; [|by injection H as <-].
  destruct (_ <=? _); [|by injection H as <-]. apply first_by_Some in Hf as [Ht _].
  apply bind_Ok in H as ([d1 acc1] & H1 & H). apply process_ticket_conserves in H1 as [M1 C1]; [|done].
  apply IH in H as [M2 C2]. simpl in *. split; [by etrans|auto].
Qed.

Lemma process_tickets_conserves d d' acc :
  process_tickets d = Ok (d', acc) → conserves d d' ∧ (credit_ok d → credit_ok d').
Proof.
  unfold process_tickets. intros H. apply bind_Ok in H as ([d1 acc1] & H1 & H).
  apply process_due_tickets_conserves in H1 as [M1 C1]. simpl in *.
  destruct (negb _ || negb _); [|by injection H as <- <-].
  apply bind_Ok in H as (p & _ & H). apply bind_Ok in H as (i & _ & E). injection E as <- <-.
  split; [|exact C1]. etrans; [exact M1|]. etrans; [apply moves_total_pob|apply moves_total_inactive].
Qed.

Lemma process_tickets_effect d d' acc :
  tickets_ok d → head_block_time d < time_point_sec_maximum → process_tickets d = Ok (d', acc) →
  tickets_ok d' ∧ locked_kept d d' ∧ (ticket_books d → ticket_books d') ∧
  ∀ id t, rows (tickets d') !! id = Some t → head_block_time d < tk_next_auto_update_time t.
Proof.
  intros Hok Hmax H. unfold process_tickets in H. apply bind_Ok in H as ([d1 acc1] & H1 & H).
  apply process_due_tickets_spec in H1 as [[K1 _ K5 K6] Hdone];
    [|done|done|by apply total_rank_fuel]. simpl in K6.
  destruct (negb _ || negb _) eqn:E.
  - apply bind_Ok in H as (p & Hp & H). apply bind_Ok in H as (i & Hi & E'). injection E' as <- <-.
    inv_share. subst. split_and!; [exact K1|exact K5| |exact Hdone].
    intros T. destruct (K6 T) as [T1 T2 T3]. split; [exact T1|simpl; lia|simpl; lia].
  - injection H as <- <-. propify. split_and!; [done|done| |exact Hdone].
    intros T. destruct (K6 T). split; [done|lia|lia].
Qed.

(** ** Changing the target *)

Lemma update_target_type_ok now target version t t' :
  update_target_type now target version t = Ok t' →
  tk_amount t' = tk_amount t ∧ tk_account t' = tk_account t ∧
  (tk_current_type t ≠ lock_forever → 0 < amount (tk_amount t) →
   ticket_ok t' ∧ value_ok t' ∧ tk_current_type t' ≠ lock_forever).
Proof.
  unfold update_target_type. intros H. apply bind_Ok in H as (t1 & H1 & H).
  pose proof (update_value_bounds _ _ _ H) as HV. apply update_value_Ok in H as (v & -> & Hv).
  assert (tk_amount t1 = tk_amount t ∧ tk_account t1 = tk_account t ∧
    (tk_current_type t ≠ lock_forever → 0 < amount (tk_amount t) →
     ticket_ok (tk_with_target t1 target) ∧ tk_current_type t1 ≠ lock_forever)) as (Ea & Ec & Hok).
  { destruct (Z.ltb_spec (type_index (tk_current_type t)) (type_index target)) as [Hlt|Hge].
    - injection H1 as <-. case_bool_decide as Es; (split_and!; [done|done|]); intros Hnf Hp;
        (split; [|done]); (split; [done|]); unfold state_ok; simpl; [done|by rewrite Es].
    - apply bind_Ok in H1 as ([c down] & Hc & E). injection E as <-. split_and!; [done|done|].
      intros Hnf Hp. assert (c ≠ lock_forever ∧ type_index target ≤ type_index c) as [Hcf Hcle].
      { destruct (_ =? _); [|by injection Hc as <- _].
        case_bool_decide as Eq; [by injection Hc as <- _|].
        apply bind_Ok in Hc as (c' & Hc'%type_of_index_Ok & Hc). apply bind_Ok in Hc as (s & _ & [= <- _]).
        pose proof (type_index_bounds (tk_current_type t)).
        assert (type_index (tk_current_type t) ≠ type_index target)
          by (intros E; by apply type_index_inj in E).
        split; [intros ->; simpl in *; lia|lia]. }
      split; [|done]. split; [done|]. unfold state_ok; simpl. by rewrite decide_False. }
  simpl. split_and!; [done|done|]. intros Hnf Hp. destruct (Hok Hnf Hp) as [H2 H3].
  apply (tk_with_value_ok _ v) in H2 as [H2 _]; [|done]. split_and!; [done|by apply HV|done].
Qed.

Lemma init_split_ok now t target a version t' :
  init_split now t target a version = Ok t' →
  tk_amount t' = a ∧ tk_account t' = tk_account t ∧
  (tk_current_type t ≠ lock_forever → 0 < amount a →
   ticket_ok t' ∧ value_ok t' ∧ tk_current_type t' ≠ lock_forever).
Proof. unfold init_split. intros H. by apply update_target_type_ok in H. Qed.

Lemma adjust_amount_ok x version t t' :
  adjust_amount x version t = Ok t' →
  amount (tk_amount t') = amount (tk_amount t) + amount x ∧ asset_id (tk_amount t') = asset_id (tk_amount t) ∧
  asset_id x = asset_id (tk_amount t) ∧ tk_account t' = tk_account t ∧
  tk_current_type t' = tk_current_type t ∧
  (ticket_ok t → tk_current_type t ≠ lock_forever → 0 < amount (tk_amount t) + amount x →
   ticket_ok t' ∧ value_ok t').
Proof.
  unfold adjust_amount. intros H. apply bind_Ok in H as (a & Ha & H).
  pose proof (update_value_bounds _ _ _ H) as HV. apply update_value_Ok in H as (v & -> & Hv).
  inv_asset. split_and!; simpl; [done..|]. intros [_ Hs] Hnf Hp.
  eassert (ticket_ok _) as Hk; [|split; [exact Hk|exact (HV Hk)]].
  apply tk_with_value_ok; [done|].
  split; [done|]. unfold state_ok in *; simpl. destruct (tk_status t); [done|naive_solver|].
  by rewrite decide_False in *.
Qed.

(** ** The effect of an update *)

Definition value_only (delta : share_type) (c : counter) : Z :=
  match c with c_pol_value => delta | _ => 0 end.

Lemma part_not_forever t c :
  tk_current_type t ≠ lock_forever →
  part c t = match c with c_pol => amount (tk_amount t) | c_pol_value => tk_value t | _ => 0 end.
Proof. intros Hn. unfold part. rewrite bool_decide_eq_false_2 by done. by destruct c. Qed.

Record changes (d d' : database) (a : account_id_type) (delta : share_type) : Prop := {
  cg_tickets : ∃ tb, d' = set_tickets tb d;
  cg_ok : tickets_ok d';
  cg_locked : locked_kept d d';
  cg_account b c : msum (λ _, part_of b c) (rows (tickets d')) =
    msum (λ _, part_of b c) (rows (tickets d)) + if decide (b = a) then value_only delta c else 0;
  cg_global c : msum (λ _, part c) (rows (tickets d')) =
    msum (λ _, part c) (rows (tickets d)) + value_only delta c }.

Lemma change_ticket_conserves op t d d' new delta :
  rows (tickets d) !! tu_ticket op = Some t → change_ticket op t d = Ok (d', new, delta) →
  conserves d d' ∧ (credit_ok d → credit_ok d').
Proof.
  intros Ht H. unfold change_ticket in H. apply bind_Ok in H as (target & _ & H).
  apply bind_Ok in H as ([a|] & _ & H).
  - apply bind_Ok in H as (n & Hn%init_split_ok & H). apply bind_Ok in H as ([id tb] & Hc & H).
    apply bind_Ok in H as (neg & Hneg & H). apply bind_Ok in H as (tb' & Hm & H).
    apply bind_Ok in H as (t' & _ & H). apply bind_Ok in H as (sum & _ & H).
    apply bind_Ok in H as (dl & _ & E). injection E as <- _ _. split; [|done].
    apply moves_tickets. intros x. rewrite Z.add_0_r.
    pose proof Hm as (v & v' & Hv & Hadj & _ & Hh)%tbl_held_modify.
    apply adjust_amount_ok in Hadj as (E1 & E2 & E3 & _). destruct Hn as (Ea & _).
    rewrite Hh, (tbl_held_create _ _ _ _ x Hc). inv_asset. unfold held, ticket_holding.
    rewrite E1, E2, E3. amt_solve.
  - apply bind_Ok in H as (tb & (v & v' & Hv & Hup & _ & Hh)%tbl_held_modify & H).
    apply bind_Ok in H as (t' & _ & H). apply bind_Ok in H as (dl & _ & E). injection E as <- _ _.
    split; [|done]. apply moves_tickets. intros x. apply update_target_type_ok in Hup as (E1 & _).
    rewrite Hh. unfold held, ticket_holding. rewrite E1. lia.
Qed.

Lemma change_ticket_split op t d d' delta a :
  tickets_ok d → rows (tickets d) !! tu_ticket op = Some t → tk_current_type t ≠ lock_forever →
  0 < amount a < amount (tk_amount t) → asset_id a = asset_id (tk_amount t) →
  ∀ now target version n id tb neg tb' t' sum,
  init_split now t target a version = Ok n → tbl_create n (tickets d) = Ok (id, tb) →
  asset_neg a = Ok neg → tbl_modify (tu_ticket op) (adjust_amount neg version) tb = Ok tb' →
  tbl_get tb' (tu_ticket op) = Ok t' → share_add (tk_value n) (tk_value t') = Ok sum →
  share_sub sum (tk_value t) = Ok delta → d' = set_tickets tb' d →
  changes d d' (tk_account t) delta.
Proof.
  intros Hok Ht Hnf Ha Eid now target version n id tb neg tb' t' sum Hn Hc Hneg Hm Hg Hs1 Hs2 ->.
  destruct (init_split_ok _ _ _ _ _ _ Hn) as (An & Cn & On).
  destruct (On Hnf ltac:(lia)) as (On1 & OnV & On2).
  apply tbl_create_Ok in Hc as (Eidn & Hnone & ->).
  assert (tu_ticket op ≠ id) as Hne by congruence.
  apply tbl_modify_Ok in Hm as (u & u' & Hu & Hadj & ->). simpl in *.
  rewrite lookup_insert_ne in Hu by done. rewrite Ht in Hu. injection Hu as <-.
  apply tbl_get_Ok in Hg. simpl in Hg. rewrite lookup_insert_eq in Hg. injection Hg as <-.
  apply adjust_amount_ok in Hadj as (B1 & B2 & B3 & B4 & B5 & B6). inv_share. inv_asset.
  assert (∀ f : Z → ticket_object → Z,
    msum f (<[tu_ticket op := u']> (<[next_id (tickets d) := n]> (rows (tickets d)))) =
    msum f (rows (tickets d)) + f (next_id (tickets d)) n + f (tu_ticket op) u' - f (tu_ticket op) t) as Hsum.
  { intros f. rewrite (msum_insert_old _ _ _ t) by (by rewrite lookup_insert_ne).
    rewrite msum_insert_new by done. lia. }
  assert (tk_current_type u' ≠ lock_forever) by congruence.
  split.
  - by eexists.
  - intros j w Hw. simpl in Hw. apply lookup_insert_Some in Hw as [[_ <-]|[_ Hw]].
    { apply B6; [by apply (Hok (tu_ticket op))|done|lia]. }
    apply lookup_insert_Some in Hw as [[_ <-]|[_ Hw]]; [done|by apply (Hok j)].
  - intros j w Hw Hf. exists w. split_and!; [|done..]. simpl.
    rewrite !lookup_insert_ne; [done| |]; congruence.
  - intros b c. simpl. rewrite Hsum. unfold part_of. rewrite Cn, B4.
    case_decide as E1; case_decide as E2; try congruence; [|lia].
    rewrite !part_not_forever by done. destruct c; simpl; lia.
  - intros c. simpl. rewrite Hsum, !part_not_forever by done. destruct c; simpl; lia.
Qed.

Lemma change_ticket_effect op t d d' new delta :
  tickets_ok d → rows (tickets d) !! tu_ticket op = Some t → tk_current_type t ≠ lock_forever →
  (∀ a, tu_amount_for_new_target op = Some a → 0 < amount a) →
  change_ticket op t d = Ok (d', new, delta) → changes d d' (tk_account t) delta.
Proof.
  intros Hok Ht Hnf Hpos H. unfold change_ticket in H. apply bind_Ok in H as (target & _ & H).
  apply bind_Ok in H as ([a|] & Hsplit & H).
  - destruct (tu_amount_for_new_target op) as [a0|] eqn:Ea; [|done].
    apply bind_Ok in Hsplit as (lt & [Eid ->]%asset_lt_Ok & E).
    destruct (Z.ltb_spec (amount a0) (amount (tk_amount t))) as [Hlt|]; [injection E as ->|done].
    specialize (Hpos a eq_refl).
    apply bind_Ok in H as (n & Hn & H). apply bind_Ok in H as ([id tb] & Hc & H).
    apply bind_Ok in H as (neg & Hneg & H). apply bind_Ok in H as (tb' & Hm & H).
    apply bind_Ok in H as (t' & Hg & H). apply bind_Ok in H as (sum & Hs & H).
    apply bind_Ok in H as (dl & Hd & E). injection E as <- <- <-.
    by eapply change_ticket_split; eauto.
  - apply bind_Ok in H as (tb & (v & v' & Hv & Hup & ->)%tbl_modify_Ok & H).
    apply bind_Ok in H as (t' & Hg%tbl_get_Ok & H). apply bind_Ok in H as (dl & Hd & E).
    injection E as <- <- <-. simpl in Hg. rewrite lookup_insert_eq in Hg. injection Hg as <-.
    rewrite Ht in Hv. injection Hv as <-. inv_share. subst.
    pose proof (Hok _ _ Ht) as [[Hp _] _].
    destruct (update_target_type_ok _ _ _ _ _ Hup) as (E1 & E2 & Hu).
    destruct (Hu Hnf Hp) as (U1 & UV & U2). split.
    + by eexists.
    + intros j w Hw. simpl in Hw. apply lookup_insert_Some in Hw as [[_ <-]|[_ Hw]]; [by split|by apply (Hok j)].
    + intros j w Hw Hf. exists w. split_and!; [|done..]. simpl. rewrite lookup_insert_ne; congruence.
    + intros b c. simpl. rewrite (part_of_update b c (tk_account t) _ _ t) by done.
      rewrite !part_not_forever by done. rewrite E1. case_decide; [|lia]. destruct c; simpl; lia.
    + intros c. simpl. rewrite (msum_insert_old _ _ _ t) by done.
      rewrite !part_not_forever by done. rewrite E1. destruct c; simpl; lia.
Qed.

(** The statistics follow the change of value of an update. *)
Lemma stats_follow_change d d1 d2 a delta :
  ticket_books d → changes d d1 a delta →
  (if negb (delta =? 0) then modify_statistics a (stats_add_tickets 0 0 0 0 delta) d1 else Ok d1) = Ok d2 →
  ticket_books d2 ∧ tickets d2 = tickets d1 ∧ head_block_time d2 = head_block_time d.
Proof.
  intros Hb [(tb & ->) _ _ C3 C4] H. destruct (Z.eqb_spec delta 0) as [->|Hnz]; simpl in H.
  - injection H as <-. split_and!; [|done..]. destruct Hb as [T1 T2 T3].
    assert (∀ c, value_only 0 c = 0) as Hz by (by intros []). split.
    + intros b s c Hs. rewrite C3, Hz, (T1 b s c Hs). case_decide; lia.
    + rewrite C4, Hz. simpl. lia.
    + rewrite C4, Hz. simpl. lia.
  - apply modify_statistics_Ok in H as (s & s' & Hs & (Hstat & _)%stats_add_tickets_Ok & ->).
    split_and!; [|done..].
    eapply (tallied_step d _ 0 0 0 0 a s s' (value_only delta) (value_only delta));
      [exact Hb|exact Hs|done|done|done| |exact C3|exact C4|done|done].
    intros c. rewrite Hstat. by destruct c.
Qed.

(** ** The laws of the evaluators *)

Lemma init_new_ok now a target x version t :
  init_new now a target x version = Ok t →
  tk_account t = a ∧ tk_amount t = x ∧ tk_target_type t = target ∧
  tk_current_type t = liquid ∧ tk_status t = charging ∧
  tk_next_auto_update_time t = time_add now seconds_per_charging_step ∧
  (0 < amount x → 0 < type_index target → ticket_ok t ∧ value_ok t).
Proof.
  unfold init_new. intros H. pose proof (update_value_bounds _ _ _ H) as HV.
  apply update_value_Ok in H as (v & -> & _). split_and!; [done..|]. intros Hp Ht.
  assert (ticket_ok (tk_with_value (TicketObject a target x liquid charging 0
    (time_add now seconds_per_charging_step) time_point_sec_maximum) v)) as Hk by (by split).
  auto.
Qed.

Lemma modify_tickets_moves a x1 x2 x3 x4 x5 d d' :
  modify_statistics a (stats_add_tickets x1 x2 x3 x4 x5) d = Ok d' → conserves d d'.
Proof.
  intros (s & s' & _ & (_ & E1 & E2)%stats_add_tickets_Ok & M)%modify_statistics_moves.
  eapply moves_ext; [exact M|]. intros i. simpl. rewrite E1, E2. amt_solve.
Qed.

#[global] Instance ticket_create_laws : EvaluatorLaws ticket_create_operation.
Proof.
  split; [|credit_same].
  intros op d0 ctx d d' r _ _ _ _ H. apply bind_Ok in H as (neg & Hneg & H).
  apply bind_Ok in H as (d1 & M1%adjust_balance_moves & H). apply bind_Ok in H as (target & _ & H).
  apply bind_Ok in H as (n & (_ & Ha & _)%init_new_ok & H). apply bind_Ok in H as ([id tb] & Hc & H).
  apply bind_Ok in H as (d2 & M3%modify_tickets_moves & E). injection E as <- <-. inv_asset.
  eapply moves_ext; [eapply moves_trans; [exact M1|eapply moves_trans;
    [apply moves_tickets; intros a; exact (tbl_held_create _ _ _ _ a Hc)|exact M3]]|].
  intros a. unfold held, ticket_holding. rewrite Ha. simpl. amt_solve.
Qed.

Lemma ticket_update_apply_keeps op d d' r :
  ticket_update_do_apply op () d = Ok (d', r) → conserves d d' ∧ (credit_ok d → credit_ok d').
Proof.
  unfold ticket_update_do_apply. intros H. apply bind_Ok in H as (t & Ht%tbl_get_Ok & H).
  apply bind_Ok in H as ([[d1 new] delta] & H1 & H). apply bind_Ok in H as (d2 & H2 & H).
  apply bind_Ok in H as ([d3 acc] & [M3 C3]%process_tickets_conserves & E). injection E as <- <-.
  apply change_ticket_conserves in H1 as [M1 C1]; [|done].
  assert (conserves d1 d2 ∧ (credit_ok d1 → credit_ok d2)) as [M2 C2].
  { destruct (negb _); [|by injection H2 as <-].
    split; [by eapply modify_tickets_moves|]. by frame_step. }
  split; [by etrans; [exact M1|etrans]|auto].
Qed.

#[global] Instance ticket_update_laws : EvaluatorLaws ticket_update_operation.
Proof.
  split; intros op d0 [] d d' r Hch _ _ F [M C]%ticket_update_apply_keeps; [done|].
  apply C. by eapply fee_frame_credit.
Qed.
