(* ===== verification/TicketTheorems.v ===== *)
(** * Theorems on tickets

    The effect of creating, updating and processing tickets (Ticket.v) on the tickets and on the
    counters kept of them, and that the processing at the end of a block always succeeds, with
    concrete runs. *)
From S2P Require Import Prelude MachineInt Hardfork Asset Vesting ChainState Ledger Sample CreditBooks Balance Fees Evaluator Ticket.

(** ** The processing succeeds *)

(** Amounts far below what 64 bits hold. *)
Definition small (v : Z) : Prop := - 16 * GRAPHENE_MAX_SHARE_SUPPLY ≤ v ≤ 16 * GRAPHENE_MAX_SHARE_SUPPLY.

Lemma small_share v : small v → is_share v.
Proof. unfold small, GRAPHENE_MAX_SHARE_SUPPLY, is_share, INT64_MIN, INT64_MAX. lia. Qed.

Ltac in_small := apply small_share; unfold small in *; lia.

(** [share_run] runs checked operations whose operands and results are small. *)
Ltac share_run := repeat first
  [ rewrite share_add_ok by in_small | rewrite share_sub_ok by in_small
  | rewrite share_neg_ok by in_small ]; simpl.

(** What tickets lock. *)
Definition locked (d : database) : Z := msum (λ _ t, amount (tk_amount t)) (rows (tickets d)).

(** Tickets lock core tokens of existing accounts, and no more than there are. *)
Record funded (d : database) : Prop := {
  fu_core id t : rows (tickets d) !! id = Some t → asset_id (tk_amount t) = core_asset_id;
  fu_stats id t : rows (tickets d) !! id = Some t → is_Some (statistics d !! tk_account t);
  fu_balance owner : 0 ≤ amount (get_balance d owner core_asset_id) ∧
    amount (get_balance d owner core_asset_id) + locked d ≤ GRAPHENE_MAX_SHARE_SUPPLY;
  fu_pob : 0 ≤ total_pob d ≤ GRAPHENE_MAX_SHARE_SUPPLY;
  fu_inactive : 0 ≤ total_inactive d ≤ GRAPHENE_MAX_SHARE_SUPPLY }.

Lemma msum_mono {A} (f g : Z → A → Z) (m : gmap Z A) :
  (∀ k a, m !! k = Some a → f k a ≤ g k a) → msum f m ≤ msum g m.
Proof.
  induction m as [|k a m Hk IH] using map_ind; intros Hfg; [by rewrite !msum_empty|].
  rewrite !msum_insert_new by done. pose proof (Hfg k a (lookup_insert_eq _ _ _)).
  assert (msum f m ≤ msum g m); [|lia]. apply IH. intros j b Hj. apply Hfg.
  rewrite lookup_insert_ne; congruence.
Qed.

Lemma msum_scale {A} n (f : Z → A → Z) (m : gmap Z A) : msum (λ k a, n * f k a) m = n * msum f m.
Proof.
  induction m as [|k a m Hk IH] using map_ind; [rewrite !msum_empty; lia|].
  rewrite !msum_insert_new, IH by done. lia.
Qed.

(** A counter is between zero and eight times what tickets lock. *)
Lemma part_bounds c t : ticket_ok t → value_ok t → 0 ≤ part c t ≤ 8 * amount (tk_amount t).
Proof.
  intros [Hp _] Hv. unfold value_ok, part in *. repeat case_bool_decide; destruct c; simpl; lia.
Qed.

Lemma counter_bounds (f : Z → ticket_object → Z) d :
  tickets_ok d → (∀ k t, f k t = 0 ∨ ∃ c, f k t = part c t) →
  0 ≤ msum f (rows (tickets d)) ≤ 8 * locked d.
Proof.
  intros Hok Hf.
  assert (∀ k t, rows (tickets d) !! k = Some t → 0 ≤ f k t ≤ 8 * amount (tk_amount t)) as Hb.
  { intros k t Ht. destruct (Hok _ _ Ht) as [Ho Hv]. pose proof (to_positive _ Ho).
    destruct (Hf k t) as [->|[c ->]]; [lia|by apply part_bounds]. }
  split; [apply msum_nonneg; intros; by apply Hb|].
  unfold locked. rewrite <- msum_scale. apply msum_mono. intros k t Ht. by apply Hb.
Qed.

Lemma part_of_cases a c t : part_of a c t = 0 ∨ ∃ c', part_of a c t = part c' t.
Proof. unfold part_of. case_decide; eauto. Qed.

Lemma amount_locked d id t :
  tickets_ok d → rows (tickets d) !! id = Some t → 0 < amount (tk_amount t) ≤ locked d.
Proof.
  intros Hok Ht. split; [by apply (Hok id)|].
  apply (msum_ge_entry (λ _ u, amount (tk_amount u)) _ id t); [|done].
  intros k u Hu. destruct (Hok _ _ Hu) as [[Hp _] _]. lia.
Qed.

Lemma locked_max d : funded d → locked d ≤ GRAPHENE_MAX_SHARE_SUPPLY.
Proof. intros F. destruct (fu_balance _ F 0). lia. Qed.

(** A well-formed ticket is updated without leaving the enumeration, reading past an array or
    overflowing. *)
Lemma update_value_total version t :
  0 < amount (tk_amount t) ≤ GRAPHENE_MAX_SHARE_SUPPLY → ∃ t', update_value version t = Ok t'.
Proof.
  intros Hp. unfold update_value. case_bool_decide; [|eauto].
  assert (0 ≤ value_multiplier (tk_current_type t) version ≤ 8)
    by (by unfold value_multiplier; destruct (tk_current_type t), version).
  rewrite share_mul_ok; [eauto|in_small|apply small_share; unfold small, GRAPHENE_MAX_SHARE_SUPPLY; lia|].
  apply small_share. unfold small. nia.
Qed.

Lemma forever_product_total t version :
  0 < amount (tk_amount t) ≤ GRAPHENE_MAX_SHARE_SUPPLY →
  share_mul (amount (tk_amount t)) (value_multiplier lock_forever version)
    = Ok (8 * amount (tk_amount t)) ∧
  share_div (8 * amount (tk_amount t)) lock_forever_update_steps = Ok (2 * amount (tk_amount t)).
Proof.
  intros Hp. split.
  - change (value_multiplier lock_forever version) with 8.
    rewrite share_mul_ok; [f_equal; lia|in_small|by vm_compute|in_small].
  - unfold Safe.div, lock_forever_update_steps. simpl.
    replace (8 * amount (tk_amount t)) with (2 * amount (tk_amount t) * 4) by lia.
    rewrite Z.quot_mul, andb_false_r by lia. rewrite share_check_ok; [done|in_small].
Qed.

Lemma auto_update_total version t :
  ticket_ok t → value_ok t → amount (tk_amount t) ≤ GRAPHENE_MAX_SHARE_SUPPLY →
  ¬ (tk_status t = withdrawing ∧ tk_current_type t = liquid) → tk_status t ≠ stable →
  ∃ t', auto_update version t = Ok t'.
Proof.
  intros [Hp Hs] Hv Hmax Hnl Hst. unfold auto_update. unfold state_ok in Hs.
  destruct (forever_product_total t version ltac:(lia)) as [Em Ed].
  assert (∃ t', (if bool_decide (tk_status t = charging) then auto_charge version t
                 else auto_withdraw version t) = Ok t' ∧ tk_amount t' = tk_amount t) as (t1 & -> & Ea).
  { pose proof (type_index_bounds (tk_target_type t)). case_bool_decide as Ec.
    - rewrite Ec in Hs. unfold auto_charge.
      destruct (tk_current_type t); simpl in *; try lia; split_ifs; eauto; rewrite Em; simpl; eauto.
    - destruct (tk_status t) eqn:Es; [done|done|]. unfold auto_withdraw.
      case_bool_decide as Ef.
      + rewrite Ef, Em. simpl. rewrite Ed. simpl. rewrite (proj2 (Z.leb_gt _ 0)) by lia.
        unfold value_ok in Hv. rewrite share_sub_ok by in_small. simpl. destruct (tk_value t <=? _); eauto.
      + case_bool_decide; [eauto|].
        destruct (tk_current_type t); simpl; eauto; try done. destruct Hnl. done. }
  simpl. apply update_value_total. rewrite Ea. lia.
Qed.

Lemma stats_small d dp di a s :
  tickets_ok d → funded d → tallied d dp di → statistics d !! a = Some s →
  ∀ c, 0 ≤ stat_of c s ≤ 8 * GRAPHENE_MAX_SHARE_SUPPLY.
Proof.
  intros Hok F T Hs c. pose proof (locked_max _ F). rewrite (ta_accounts _ _ _ T _ _ c Hs).
  pose proof (counter_bounds (λ _, part_of a c) d Hok (λ _ t, part_of_cases a c t)). lia.
Qed.

Lemma release_ticket_total id t d dp di :
  tickets_ok d → funded d → tallied d dp di → rows (tickets d) !! id = Some t →
  ∃ d', release_ticket id t d = Ok d' ∧ funded d'.
Proof.
  intros Hok F T Ht. pose proof (amount_locked _ _ _ Hok Ht) as Ha. pose proof (locked_max _ F) as Hm.
  destruct (Hok _ _ Ht) as [_ Hv]. unfold value_ok in Hv. unfold release_ticket.
  pose proof (fu_core _ F _ _ Ht) as Ec. pose proof (fu_balance _ F (tk_account t)) as Hb.
  rewrite <- Ec in Hb. destruct (adjust_balance_total (tk_account t) (tk_amount t) d) as [d1 H1];
    [in_small..|lia|]. rewrite H1. simpl.
  pose proof (λ owner a, adjust_balance_get _ _ _ _ owner a H1) as Hbal.
  apply adjust_balance_frame in H1 as [m ->].
  destruct (fu_stats _ F _ _ Ht) as [s Hs]. pose proof (stats_small _ _ _ _ _ Hok F T Hs) as Hst.
  pose proof (Hst c_pol) as H1. pose proof (Hst c_pol_value) as H2. simpl in H1, H2.
  unfold modify_statistics, get_statistics, find_object. simpl. rewrite Hs. simpl.
  rewrite share_sub_ok by in_small. simpl. rewrite share_sub_ok by in_small. simpl.
  unfold tbl_remove, tbl_get. simpl. rewrite Ht. simpl. eexists. split; [done|].
  split; simpl; [| | |apply F|apply F].
  - intros j u [_ Hu]%lookup_delete_Some. by apply (fu_core _ F j).
  - intros j u [_ Hu]%lookup_delete_Some. destruct (decide (tk_account u = tk_account t)) as [->|].
    + by rewrite lookup_insert_eq.
    + rewrite lookup_insert_ne by done. by apply (fu_stats _ F j).
  - intros owner. pose proof (fu_balance _ F owner) as [B1 B2]. unfold locked. simpl.
    rewrite (msum_delete _ _ _ t) by done. fold (locked d).
    specialize (Hbal owner core_asset_id). unfold get_balance in *. simpl in *. rewrite Hbal.
    case_decide; lia.
Qed.

Lemma ticket_modify_total id t t' f d :
  rows (tickets d) !! id = Some t → f t = Ok t' →
  tbl_modify id f (tickets d) = Ok (Table (next_id (tickets d)) (<[id := t']> (rows (tickets d)))).
Proof.
  intros Ht Hf. unfold tbl_modify, tbl_get. rewrite Ht. simpl. rewrite Hf. simpl.
  unfold clashes. rewrite bool_decide_eq_false_2; [done|]. by intros (k & u & _ & _ & ?).
Qed.

Lemma stats_add_tickets_total x1 x2 x3 x4 x5 s :
  (∀ c, 0 ≤ stat_of c s ≤ 8 * GRAPHENE_MAX_SHARE_SUPPLY) →
  (∀ c, - 8 * GRAPHENE_MAX_SHARE_SUPPLY ≤ match c with c_inactive => x1 | c_pob => x2 | c_pol => x3
     | c_pob_value => x4 | c_pol_value => x5 end ≤ 8 * GRAPHENE_MAX_SHARE_SUPPLY) →
  ∃ s', stats_add_tickets x1 x2 x3 x4 x5 s = Ok s'.
Proof.
  intros Hs Hx. unfold stats_add_tickets.
  pose proof (Hs c_inactive). pose proof (Hs c_pob). pose proof (Hs c_pol).
  pose proof (Hs c_pob_value). pose proof (Hs c_pol_value).
  pose proof (Hx c_inactive). pose proof (Hx c_pob). pose proof (Hx c_pol).
  pose proof (Hx c_pob_value). pose proof (Hx c_pol_value). simpl in *.
  share_run. eauto.
Qed.

(** The differences are small when the tickets are. *)
Lemma deltas_total t t' acc :
  value_ok t → value_ok t' → tk_amount t' = tk_amount t →
  amount (tk_amount t) ≤ GRAPHENE_MAX_SHARE_SUPPLY →
  - GRAPHENE_MAX_SHARE_SUPPLY ≤ pa_delta_pob acc ≤ 8 * GRAPHENE_MAX_SHARE_SUPPLY →
  - GRAPHENE_MAX_SHARE_SUPPLY ≤ pa_delta_inactive acc ≤ 8 * GRAPHENE_MAX_SHARE_SUPPLY →
  (∃ r, global_deltas t t' acc = Ok r) ∧ (∃ r, update_deltas t t' = Ok r).
Proof.
  unfold value_ok. intros Hv Hv' Ea Hm Hp Hi. rewrite Ea in *. unfold global_deltas, update_deltas.
  rewrite !Ea. split; repeat case_bool_decide; share_run; split_ifs; share_run; eauto.
Qed.

Lemma process_ticket_total version id t d acc :
  tickets_ok d → funded d → tallied d (pa_delta_pob acc) (pa_delta_inactive acc) →
  rows (tickets d) !! id = Some t → tk_status t ≠ stable →
  ∃ d' acc', process_ticket version id t (d, acc) = Ok (d', acc') ∧ funded d'.
Proof.
  intros Hok F T Ht Hst. unfold process_ticket. destruct (fu_stats _ F _ _ Ht) as [s Hs].
  unfold get_statistics, find_object. rewrite Hs. simpl.
  destruct (bool_decide (tk_status t = withdrawing) && bool_decide (tk_current_type t = liquid)) eqn:Eb.
  - destruct (release_ticket_total id t d _ _ Hok F T Ht) as (d1 & -> & F1). simpl. eauto.
  - pose proof (amount_locked _ _ _ Hok Ht) as Ha. pose proof (locked_max _ F) as Hm.
    destruct (Hok _ _ Ht) as [Ho Hv].
    assert (¬ (tk_status t = withdrawing ∧ tk_current_type t = liquid)) as Hnl
      by (intros [E1 E2]; by rewrite E1, E2 in Eb).
    destruct (auto_update_total version t Ho Hv ltac:(lia) Hnl Hst) as [t' Hu].
    destruct (auto_update_ok _ _ _ Ho Hst Hnl Hu) as [A Hv']. pose proof A as [Ho' _ Ec Ea _ _].
    rewrite (ticket_modify_total id t t' _ d Ht Hu). simpl.
    unfold tbl_get. simpl. rewrite lookup_insert_eq. simpl.
    pose proof (counter_bounds (λ _, part c_pob) d Hok ltac:(eauto)) as B1.
    pose proof (counter_bounds (λ _, part c_inactive) d Hok ltac:(eauto)) as B2.
    rewrite <- (ta_pob _ _ _ T) in B1. rewrite <- (ta_inactive _ _ _ T) in B2.
    pose proof (fu_pob _ F). pose proof (fu_inactive _ F).
    destruct (deltas_total t t' acc Hv Hv' Ea) as [[[p i] ->] [[[[[x1 x2] x3] x4] x5] HU]]; [lia..|].
    simpl. rewrite HU. simpl. unfold modify_statistics, get_statistics, find_object. simpl.
    rewrite Ec, Hs. simpl.
    destruct (stats_add_tickets_total x1 x2 x3 x4 x5 s) as [s' ->].
    { eapply stats_small; eauto. }
    { intros c. rewrite (update_deltas_Ok _ _ _ _ _ _ _ A HU c).
      pose proof (part_bounds c t Ho Hv). pose proof (part_bounds c t' Ho' Hv'). rewrite Ea in *. lia. }
    simpl. eexists _, _. split; [done|]. split; simpl; [| | |apply F|apply F].
    + intros j u [[_ <-]|[_ Hj]]%lookup_insert_Some; [rewrite Ea; by apply (fu_core _ F id)|by apply (fu_core _ F j)].
    + intros j u Hj. destruct (decide (tk_account u = tk_account t)) as [->|Hne]; [by rewrite lookup_insert_eq|].
      rewrite lookup_insert_ne by done. apply lookup_insert_Some in Hj as [[_ <-]|[_ Hj]]; [congruence|].
      by apply (fu_stats _ F j).
    + intros owner. unfold locked. simpl. rewrite (msum_insert_old _ _ _ t), Ea by done.
      pose proof (fu_balance _ F owner) as [B3 B4]. unfold locked, get_balance in *. simpl. lia.
Qed.

Lemma process_due_tickets_total version fuel d acc :
  tickets_ok d → funded d → head_block_time d < time_point_sec_maximum →
  tallied d (pa_delta_pob acc) (pa_delta_inactive acc) →
  ∃ d' acc', process_due_tickets version fuel (d, acc) = Ok (d', acc') ∧ funded d' ∧ tickets_ok d' ∧
    tallied d' (pa_delta_pob acc') (pa_delta_inactive acc').
Proof.
  revert d acc. induction fuel as [|fuel IH]; intros d acc Hok F Hmax T; cbn [process_due_tickets fst];
    [by eauto 10|].
  destruct (first_by _ _) as [[id t]|] eqn:Hf; [|by eauto 10].
  apply first_by_Some in Hf as [Ht _]. simpl in Ht.
  destruct (Z.leb_spec (tk_next_auto_update_time t) (head_block_time d)) as [Hdue|]; [|by eauto 10].
  pose proof (due_not_stable d id t Hok Hmax Ht Hdue) as Hst.
  destruct (process_ticket_total version id t d acc Hok F T Ht Hst) as (d1 & acc1 & H1 & F1).
  destruct (process_ticket_effect _ _ _ _ _ _ _ Hok Ht Hst H1) as [[K1 K2 _ K4] _].
  rewrite H1. simpl. apply IH; [done|done|by rewrite K2|auto].
Qed.

Lemma process_tickets_succeeds d :
  tickets_ok d → funded d → ticket_books d → head_block_time d < time_point_sec_maximum →
  ∃ d' acc, process_tickets d = Ok (d', acc).
Proof.
  intros Hok F T Hmax. unfold process_tickets.
  destruct (process_due_tickets_total (current_version d) (ticket_fuel d) d (ProcessAcc ∅ ∅ 0 0)
    Hok F Hmax T) as (d1 & acc & -> & F1 & Hok1 & T1). simpl.
  destruct (negb _ || negb _); [|eauto].
  pose proof (counter_bounds (λ _, part c_pob) d1 Hok1 ltac:(eauto)) as B1.
  pose proof (counter_bounds (λ _, part c_inactive) d1 Hok1 ltac:(eauto)) as B2.
  rewrite <- (ta_pob _ _ _ T1) in B1. rewrite <- (ta_inactive _ _ _ T1) in B2.
  pose proof (fu_pob _ F1). pose proof (fu_inactive _ F1). pose proof (locked_max _ F1).
  share_run. eauto.
Qed.

(** ** The theorems *)

(** C22: the end-of-block processing of tickets always succeeds and is complete.  If the tickets
    are well-formed, lock core tokens of existing accounts within the maximum supply and the
    counters agree with them, then processing returns - no cast leaves the enumeration, no array
    is read past its end, nothing overflows and eight updates per ticket are enough -, no ticket
    is left that is due, the tickets stay well-formed, tickets locked forever are neither
    released nor reduced, every account's and the global counters equal the totals of the tickets
    again, and what is paid out is what the released tickets held. *)
Theorem process_tickets_complete d :
  tickets_ok d → funded d → ticket_books d → head_block_time d < time_point_sec_maximum →
  ∃ d' acc, process_tickets d = Ok (d', acc) ∧
  (∀ id t, rows (tickets d') !! id = Some t → head_block_time d < tk_next_auto_update_time t) ∧
  tickets_ok d' ∧ ticket_books d' ∧ locked_kept d d' ∧ conserves d d'.
Proof.
  intros Hok F Hb Hmax. destruct (process_tickets_succeeds d Hok F Hb Hmax) as (d' & acc & H).
  exists d', acc. destruct (process_tickets_conserves _ _ _ H) as [M _].
  destruct (process_tickets_effect _ _ _ Hok Hmax H) as (K1 & K2 & K3 & K4). split_and!; auto.
Qed.

(** Creating a ticket takes the amount from the account's balance into a new ticket that
    charges from liquid to the target, due one charging step from now, and keeps the tickets
    well-formed and every counter equal to the totals of the tickets. *)
Theorem ticket_create_effect op d d' r :
  tickets_ok d → ticket_books d → ticket_create_validate op = Ok () →
  ticket_create_do_apply op () d = Ok (d', r) →
  ∃ t, rows (tickets d') = <[next_id (tickets d) := t]> (rows (tickets d)) ∧
    r = object_id_result (kind_ticket, next_id (tickets d)) ∧
    rows (tickets d) !! next_id (tickets d) = None ∧
    tk_account t = tc_account op ∧ tk_amount t = tc_amount op ∧
    type_index (tk_target_type t) = tc_target_type op ∧ tk_current_type t = liquid ∧
    tk_status t = charging ∧
    tk_next_auto_update_time t = time_add (head_block_time d) seconds_per_charging_step ∧
    tickets_ok d' ∧ ticket_books d' ∧
    ∀ owner i, amount (get_balance d' owner i) = amount (get_balance d owner i) -
      (if decide (owner = tc_account op ∧ i = asset_id (tc_amount op)) then amount (tc_amount op) else 0).
Proof.
  intros Hok Hb Hv H.
  assert (tc_target_type op ≠ 0 ∧ 0 < amount (tc_amount op)) as [Hnz Hpos]
    by (unfold ticket_create_validate in Hv; inv_ok; by propify).
  clear Hv.
  unfold ticket_create_do_apply in H. apply bind_Ok in H as (neg & Hneg & H).
  apply bind_Ok in H as (d1 & H1 & H). apply bind_Ok in H as (target & Ht%type_of_index_Ok & H).
  apply bind_Ok in H as (n & (N1 & N2 & N3 & N4 & N5 & N6 & N7)%init_new_ok & H).
  apply bind_Ok in H as ([id tb] & (-> & Hnone & ->)%tbl_create_Ok & H).
  apply bind_Ok in H as (d2 & H2 & E). injection E as <- <-. inv_asset.
  pose proof (λ owner a, adjust_balance_get _ _ _ _ owner a H1) as Hbal.
  apply adjust_balance_frame in H1 as [m ->].
  apply modify_statistics_Ok in H2 as (s & s' & Hs & (Hstat & _)%stats_add_tickets_Ok & ->). simpl in *.
  exists n. split_and!; try done.
  - intros j w Hw. simpl in Hw. apply lookup_insert_Some in Hw as [[_ <-]|[_ Hw]]; [|by apply (Hok j)].
    apply N7; [done|]. pose proof (type_index_bounds (tk_target_type n)). lia.
  - eapply (tallied_step d _ 0 0 0 0 (tc_account op) s s' (λ c, part c n) (λ c, part c n));
      [exact Hb|exact Hs|done|done|done| | | | |]; simpl; try (unfold part; by rewrite N4).
    + intros c. rewrite Hstat. unfold part. rewrite N4, N2. by destruct c.
    + intros b c. rewrite msum_insert_new by done. unfold part_of. rewrite N1.
      repeat case_decide; congruence || lia.
    + intros c. rewrite msum_insert_new by done. lia.
  - intros owner i. etrans; [apply Hbal|]. case_decide; lia.
Qed.

(** Updating a ticket - retargeting it, or splitting off a part with the new target, and
    processing whatever became due - keeps the tickets well-formed and every account's and the
    global counters equal to the totals of the tickets; tickets locked forever stay as they are,
    and no ticket is left due. *)
Theorem ticket_update_effect op d0 d d' r :
  tickets_ok d → ticket_books d → head_block_time d < time_point_sec_maximum →
  ticket_update_validate op = Ok () → ticket_update_do_evaluate op d0 = Ok () → fee_frame d0 d →
  ticket_update_do_apply op () d = Ok (d', r) →
  tickets_ok d' ∧ ticket_books d' ∧ locked_kept d d' ∧
  ∀ id t, rows (tickets d') !! id = Some t → head_block_time d < tk_next_auto_update_time t.
Proof.
  intros Hok Hb Hmax Hv He F H.
  assert (∃ t, rows (tickets d) !! tu_ticket op = Some t ∧ tk_account t = tu_account op ∧
    tk_current_type t ≠ lock_forever) as (t & Ht & Hown & Hnf).
  { destruct F as (m & st & -> & _). unfold ticket_update_do_evaluate, get_ticket in He.
    apply bind_Ok in He as (t & Ht%tbl_get_Ok & He). exists t. apply bind_Ok in He as ([] & Ho%FC_ASSERT_Ok & He).
    apply bind_Ok in He as ([] & Hn%FC_ASSERT_Ok%bool_decide_eq_true & _). by propify. }
  assert (∀ a, tu_amount_for_new_target op = Some a → 0 < amount a) as Hpos.
  { intros a Ea. unfold ticket_update_validate in Hv. rewrite Ea in Hv. inv_ok. by propify. }
  clear Hv He F. unfold ticket_update_do_apply in H. apply bind_Ok in H as (t0 & Ht0%tbl_get_Ok & H).
  simplify_eq. apply bind_Ok in H as ([[d1 new] delta] & H1 & H). apply bind_Ok in H as (d2 & H2 & H).
  apply bind_Ok in H as ([d3 acc] & H3 & E). injection E as <- <-.
  apply change_ticket_effect in H1 as CG; [|done..]. rewrite <- Hown in H2.
  assert (ticket_books d2 ∧ tickets d2 = tickets d1 ∧ head_block_time d2 = head_block_time d)
    as (B2 & Et & Eh) by (by eapply stats_follow_change).
  destruct CG as [_ C1 C2 _ _].
  apply process_tickets_effect in H3 as (K1 & K2 & K3 & K4);
    [|unfold tickets_ok; by rewrite Et|by rewrite Eh].
  rewrite Eh in K4. split_and!; [done|by apply K3| |done].
  etrans; [exact C2|]. etrans; [|exact K2]. intros i u Hu Hf. exists u. by rewrite Et.
Qed.

(** ** Concrete runs *)

(** A due ticket on its way to being locked forever, one to be paid back, and one locked
    forever that is losing its value. *)
Definition sample_tickets : table ticket_object :=
  Table 3 {[ 0 := TicketObject 100 lock_forever (Asset 300 0) lock_720_days charging 2400 sample_time
                    time_point_sec_maximum;
             1 := TicketObject 101 liquid (Asset 40 0) liquid withdrawing 0 (sample_time - 60)
                    (sample_time - 60);
             2 := TicketObject 100 lock_forever (Asset 7 0) lock_forever withdrawing 14
                    (sample_time - 9) time_point_sec_maximum ]}.

Definition sample_ticket_stats : gmap account_id_type account_statistics_object :=
  {[ 100 := AccountStatisticsObject 0 0 7 300 14 2400 false 0 0 0;
     101 := AccountStatisticsObject 0 0 0 40 0 0 false 0 0 0; 102 := sample_stats ]}.

Definition sample_ticket_db : database :=
  set_total_pob 7 (set_statistics sample_ticket_stats (set_tickets sample_tickets sample_db)).

Lemma sample_tickets_ok : tickets_ok sample_ticket_db.
Proof.
  intros id t H. unfold sample_ticket_db in H. simpl in H.
  apply lookup_insert_Some in H as [[_ <-]|[_ H]]; [by split; split; vm_compute|].
  apply lookup_insert_Some in H as [[_ <-]|[_ H]]; [by split; split; vm_compute|].
  apply lookup_singleton_Some in H as [_ <-]. split; [split; [by vm_compute|]|by split; vm_compute].
  split; [done|]. by exists 1.
Qed.

(** The counters, evaluated. *)
Definition tally_check (d : database) : bool :=
  bool_decide (map_Forall (λ a s, Forall (λ c, stat_of c s = msum (λ _, part_of a c) (rows (tickets d)))
    [c_inactive; c_pob; c_pol; c_pob_value; c_pol_value]) (statistics d)) &&
  (total_pob d =? msum (λ _, part c_pob) (rows (tickets d))) &&
  (total_inactive d =? msum (λ _, part c_inactive) (rows (tickets d))).

Lemma tally_check_books d : tally_check d = true → ticket_books d.
Proof.
  unfold tally_check. intros [[H1%bool_decide_eq_true H2%Z.eqb_eq]%andb_true_iff H3%Z.eqb_eq]%andb_true_iff.
  split; [|lia|lia]. intros a s c Hs. pose proof (H1 a s Hs) as F. rewrite Forall_forall in F.
  apply F. destruct c; set_solver.
Qed.

Lemma sample_tickets_funded : funded sample_ticket_db.
Proof.
  split.
  - assert (map_Forall (λ _ t, asset_id (tk_amount t) = core_asset_id) (rows (tickets sample_ticket_db))) as H
      by (apply map_Forall_to_list; vm_compute; repeat constructor).
    exact H.
  - assert (map_Forall (λ _ t, is_Some (statistics sample_ticket_db !! tk_account t))
      (rows (tickets sample_ticket_db))) as H
      by (apply map_Forall_to_list; vm_compute; repeat constructor; eauto).
    exact H.
  - intros owner.
    assert (0 ≤ amount (get_balance sample_ticket_db owner core_asset_id) ≤ 1000000) as Hb.
    { unfold get_balance. destruct (balances _ !! _) as [b|] eqn:E; [|simpl; lia].
      assert (map_Forall (λ _ b, 0 ≤ ab_balance b ≤ 1000000) (balances sample_ticket_db)) as H
        by (apply map_Forall_to_list; vm_compute; repeat constructor; discriminate).
      exact (H _ _ E). }
    assert (locked sample_ticket_db = 347) as -> by (by vm_compute).
    unfold GRAPHENE_MAX_SHARE_SUPPLY. lia.
  - by vm_compute.
  - by vm_compute.
Qed.

Lemma process_tickets_complete_witness : ∃ d' acc,
  process_tickets sample_ticket_db = Ok (d', acc) ∧ ticket_books d' ∧ tickets_ok d' ∧
  pa_removed acc = {[ 1 ]} ∧ amount (get_balance d' 101 0) = 2040 ∧
  total_pob d' = 300 ∧ total_inactive d' = 7.
Proof.
  destruct (process_tickets_complete sample_ticket_db) as (d' & acc & H & _ & K1 & K2 & _);
    [exact sample_tickets_ok | exact sample_tickets_funded | apply tally_check_books; by vm_compute
    | by vm_compute |].
  exists d', acc. split; [exact H|]. split; [exact K2|]. split; [exact K1|].
  vm_compute in H. injection H as <- <-. split_and!; by vm_compute.
Defined.

Definition sample_ticket_create : ticket_create_operation :=
  TicketCreateOperation (Asset 0 0) 100 4 (Asset 5000 0).

Lemma ticket_create_effect_witness : ∃ d',
  ticket_create_do_apply sample_ticket_create () sample_ticket_db
    = Ok (d', object_id_result (kind_ticket, 3)) ∧
  ticket_books d' ∧ amount (get_balance d' 100 0) = 995000.
Proof.
  eexists. split; [vm_compute; reflexivity|].
  edestruct (ticket_create_effect sample_ticket_create sample_ticket_db)
    as (t & _ & _ & _ & _ & _ & _ & _ & _ & _ & _ & K & Hbal);
    [exact sample_tickets_ok | apply tally_check_books; by vm_compute | by vm_compute
    | vm_compute; reflexivity |].
  split; [exact K|exact (Hbal 100 0)].
Defined.

(** Splits 100 of the 300 off, to be withdrawn. *)
Definition sample_ticket_update : ticket_update_operation :=
  TicketUpdateOperation (Asset 0 0) 0 100 0 (Some (Asset 100 0)).

Lemma ticket_update_effect_witness : ∃ d' r,
  ticket_update_do_apply sample_ticket_update () sample_ticket_db = Ok (d', r) ∧
  ticket_books d' ∧ tickets_ok d' ∧ locked_kept sample_ticket_db d' ∧
  size (rows (tickets d')) = 3%nat ∧ total_pob d' = 200.
Proof.
  eexists _, _. split; [vm_compute; reflexivity|].
  edestruct (ticket_update_effect sample_ticket_update sample_ticket_db sample_ticket_db)
    as (K1 & K2 & K3 & _);
    [exact sample_tickets_ok | apply tally_check_books; by vm_compute | by vm_compute | by vm_compute
    | by vm_compute | apply fee_frame_refl | vm_compute; reflexivity |].
  split_and!; [exact K2|exact K1|exact K3|by vm_compute..].
Defined.
