(* ===== verification/LimitOrder.v ===== *)
(** * Limit orders

    Orders on the book and their matching: [limit_order_object] of
    libraries/chain/include/graphene/chain/market_object.hpp, the limit-order part of
    libraries/chain/db_market.cpp (cancelling, culling, filling, matching, applying a new
    order, take-profit actions), libraries/chain/market_evaluator.cpp for the limit-order
    operations, [database::try_push_virtual_operation] of db_block.cpp and
    [database::clear_expired_orders] of db_update.cpp.

    The states modelled have no debt positions: there are no call orders, no force settlements
    and no individual settlement funds ([is_settled_debt]), so [check_call_orders] does nothing
    and the two loops over limit orders of [apply_order] are one.

    An order is passed by its id and read from the state whenever the code reads through its
    reference; an iterator of the index [by_price] is the id it points to, [None] for [end()].
    Following an iterator or reference to an object that is gone is undefined behaviour; it is
    an error here.  The fee schedule is the parameter [FeeSchedule]. *)
From stdpp Require Import sorting.
From S2P Require Import Prelude MachineInt Hardfork Asset PriceRatio Vesting ChainState Ledger CreditBooks Balance Fees Evaluator.

(** ** Operations *)

Record limit_order_create_operation := LimitOrderCreateOperation {
  loc_fee : asset;
  loc_seller : account_id_type;
  loc_amount_to_sell : asset;
  loc_min_to_receive : asset;
  loc_expiration : Z;
  loc_fill_or_kill : bool;
  loc_on_fill : option (list create_take_profit_order_action) }.

Record limit_order_update_operation := LimitOrderUpdateOperation {
  lou_fee : asset;
  lou_seller : account_id_type;
  lou_order : Z;
  lou_new_price : option price;
  lou_delta_amount_to_sell : option asset;
  lou_new_expiration : option Z;
  lou_on_fill : option (list create_take_profit_order_action) }.

Record limit_order_cancel_operation := LimitOrderCancelOperation {
  lox_fee : asset;
  lox_fee_paying_account : account_id_type;
  lox_order : Z }.

(** [fee_schedule::calculate_fee] of the three operations, in the core asset. *)
Class FeeSchedule := {
  create_fee : limit_order_create_operation → share_type;
  update_fee : limit_order_update_operation → share_type;
  cancel_fee : limit_order_cancel_operation → share_type }.

Definition zero_asset : asset := Asset 0 core_asset_id.

(** Default-constructed operations. *)
Definition default_create : limit_order_create_operation :=
  LimitOrderCreateOperation zero_asset 0 zero_asset zero_asset time_point_sec_maximum false None.
Definition default_update : limit_order_update_operation :=
  LimitOrderUpdateOperation zero_asset 0 0 None None None None.
Definition default_cancel : limit_order_cancel_operation := LimitOrderCancelOperation zero_asset 0 0.

(** [calculate_fee( op, core_exchange_rate )], for a fee paid in asset [i]. *)
Definition fee_in_asset (d : database) (core_fee : share_type) (i : asset_id_type) : result asset :=
  if i =? core_asset_id then Ok (Asset core_fee core_asset_id)
  else
    fee_asset ← get_asset d i;
    multiply_and_round_up (Asset core_fee core_asset_id) (core_exchange_rate (ao_options fee_asset)).

Definition take_profit_action_validate (a : create_take_profit_order_action) : result unit :=
  FC_ASSERT (0 <? tp_spread_percent a) "The spread percentage must be positive";;
  FC_ASSERT (0 <? tp_size_percent a) "The size percentage must be positive";;
  FC_ASSERT (tp_size_percent a <=? GRAPHENE_100_PERCENT) "The size percentage must not exceed 100%";;
  FC_ASSERT (0 <? tp_expiration_seconds a) "The expiration seconds must be positive".

Definition on_fill_validate (o : option (list create_take_profit_order_action)) : result unit :=
  match o with Some l => res_iter take_profit_action_validate l | None => Ok () end.

Definition limit_order_create_validate (op : limit_order_create_operation) : result unit :=
  FC_ASSERT (negb (asset_id (loc_amount_to_sell op) =? asset_id (loc_min_to_receive op)))
    "amount_to_sell.asset_id != min_to_receive.asset_id";;
  FC_ASSERT (0 <=? amount (loc_fee op)) "fee.amount >= 0";;
  FC_ASSERT (0 <? amount (loc_amount_to_sell op)) "amount_to_sell.amount > 0";;
  FC_ASSERT (0 <? amount (loc_min_to_receive op)) "min_to_receive.amount > 0";;
  on_fill_validate (loc_on_fill op).

Definition limit_order_update_validate (op : limit_order_update_operation) : result unit :=
  FC_ASSERT (0 <=? amount (lou_fee op)) "Fee must not be negative";;
  FC_ASSERT (bool_decide (is_Some (lou_new_price op)) || bool_decide (is_Some (lou_delta_amount_to_sell op))
             || bool_decide (is_Some (lou_new_expiration op)) || bool_decide (is_Some (lou_on_fill op)))
    "Cannot update limit order if nothing is specified to update";;
  (if lou_new_price op is Some p then price_validate false p else Ok ());;
  (if lou_delta_amount_to_sell op is Some delta then
     FC_ASSERT (negb (amount delta =? 0)) "Cannot change limit order amount by zero" else Ok ());;
  on_fill_validate (lou_on_fill op).

Definition limit_order_cancel_validate (op : limit_order_cancel_operation) : result unit :=
  FC_ASSERT (0 <=? amount (lox_fee op)) "fee.amount >= 0".

(** ** The orders *)

Definition sell_asset_id (o : limit_order_object) : asset_id_type := asset_id (base (lo_sell_price o)).
Definition receive_asset_id (o : limit_order_object) : asset_id_type := asset_id (quote (lo_sell_price o)).
Definition amount_for_sale (o : limit_order_object) : asset := Asset (lo_for_sale o) (sell_asset_id o).
Definition amount_to_receive (o : limit_order_object) : result asset :=
  asset_mul_price (amount_for_sale o) (lo_sell_price o).

Definition get_limit_order (d : database) (id : Z) := tbl_get (limit_orders d) id.

Definition modify_limit_order (id : Z) (m : limit_order_object → result limit_order_object)
    (d : database) : result database :=
  t ← tbl_modify id m (limit_orders d); Ok (set_limit_orders t d).

Definition lo_with_link (o : limit_order_object) (l : option Z) : limit_order_object :=
  LimitOrderObject (lo_expiration o) (lo_seller o) (lo_for_sale o) (lo_sell_price o)
    (lo_filled_amount o) (lo_deferred_fee o) (lo_deferred_paid_fee o) (lo_on_fill o) l.

(** *** The index [by_price]: best price first, then by id *)

Definition by_price (x y : Z * limit_order_object) : bool :=
  price_ltb (lo_sell_price y.2) (lo_sell_price x.2)
  || (negb (price_ltb (lo_sell_price x.2) (lo_sell_price y.2)) && (x.1 <=? y.1)).

Definition limit_price_idx (d : database) : list (Z * limit_order_object) :=
  merge_sort (λ x y, Is_true (by_price x y)) (map_to_list (rows (limit_orders d))).

(** The id of the first element satisfying [p]. *)
Definition first_such (p : limit_order_object → bool) (l : list (Z * limit_order_object)) : option Z :=
  (λ r, r.2.1) <$> list_find (λ x, Is_true (p x.2)) l.

(** [lower_bound( p )] and [upper_bound( p )]. *)
Definition lower_bound (d : database) (p : price) : option Z :=
  first_such (λ o, negb (price_ltb p (lo_sell_price o))) (limit_price_idx d).
Definition upper_bound (d : database) (p : price) : option Z :=
  first_such (λ o, price_ltb (lo_sell_price o) p) (limit_price_idx d).

(** The elements after and before the one with id [id]. *)
Fixpoint after_id (id : Z) (l : list (Z * limit_order_object)) : option Z :=
  match l with
  | [] => None
  | x :: l => if x.1 =? id then fst <$> head l else after_id id l
  end.
Fixpoint before_id (id : Z) (prev : option (Z * limit_order_object))
    (l : list (Z * limit_order_object)) : option (Z * limit_order_object) :=
  match l with
  | [] => prev
  | x :: l => if x.1 =? id then prev else before_id id (Some x) l
  end.

(** [++limit_itr] and [--limit_itr]. *)
Definition next_order (d : database) (id : Z) : option Z := after_id id (limit_price_idx d).
Definition prev_order (d : database) (id : Z) : option (Z * limit_order_object) :=
  before_id id None (limit_price_idx d).

Section market.
Context `{FeeSchedule}.

(** ** Cancelling *)

Definition cleanup_and_remove_limit_order (id : Z) (d : database) : result database :=
  order ← get_limit_order d id;
  d ← (if lo_take_profit_order_id order is Some tp then
         modify_limit_order tp (λ loo, Ok (lo_with_link loo None)) d
       else Ok d);
  t ← tbl_remove id (limit_orders d); Ok (set_limit_orders t d).

Definition stats_with_orders (s : account_statistics_object) (v : share_type) :=
  AccountStatisticsObject v (total_core_inactive s) (total_core_pob s) (total_core_pol s)
    (total_pob_value s) (total_pol_value s) (has_cashback_vb s) (lifetime_fees_paid s)
    (pending_fees s) (pending_vested_fees s).

Definition add_core_in_orders (acct : account_id_type) (x : share_type) (d : database) : result database :=
  modify_statistics acct (λ s,
    v ← share_add (total_core_in_orders s) x; Ok (stats_with_orders s v)) d.
Definition sub_core_in_orders (acct : account_id_type) (x : share_type) (d : database) : result database :=
  modify_statistics acct (λ s,
    v ← share_sub (total_core_in_orders s) x; Ok (stats_with_orders s v)) d.

(** The part of the originally paid fee that goes with [core_cancel_fee], rounded up. *)
Definition cancel_fee_share (paid core_cancel_fee deferred : share_type) : share_type :=
  to_int64 (u128_div (u128_sub (u128_add (u128_mul (u128 paid) (u128 core_cancel_fee)) (u128 deferred)) 1)
    (u128 deferred)).

(** Move [x] of an order's paid fee to the accumulated fees of the asset. *)
Definition accumulate_paid_fee (i : asset_id_type) (x : share_type) (d : database) : result database :=
  modify_dynamic_data i (λ s, v ← share_add (accumulated_fees s) x; Ok (dd_with_fees s v)) d.

(** Deduct [core_cancel_fee] from the deferred fees of [order]; what remains of them. *)
Definition deduct_cancel_fee (order : limit_order_object) (core_cancel_fee : share_type) (d : database)
    : result (database * share_type * asset) :=
  let paid := lo_deferred_paid_fee order in
  if 0 <? core_cancel_fee then
    d ← pay_fee (lo_seller order) core_cancel_fee d;
    deferred_fee ← share_sub (lo_deferred_fee order) core_cancel_fee;
    if amount paid =? 0 then Ok (d, deferred_fee, paid)
    else
      let x := cancel_fee_share (amount paid) core_cancel_fee (lo_deferred_fee order) in
      d ← accumulate_paid_fee (asset_id paid) x d;
      rest ← share_sub (amount paid) x;
      Ok (d, deferred_fee, Asset rest (asset_id paid))
  else Ok (d, lo_deferred_fee order, paid).

(** Refund the remaining deferred fees, to the fee pool too if the fee was not paid in core. *)
Definition refund_deferred_fee (order : limit_order_object) (deferred_fee : share_type)
    (deferred_paid_fee : asset) (d : database) : result database :=
  if amount (lo_deferred_paid_fee order) =? 0 then
    adjust_balance (lo_seller order) (Asset deferred_fee core_asset_id) d
  else
    d ← adjust_balance (lo_seller order) deferred_paid_fee d;
    modify_dynamic_data (asset_id deferred_paid_fee) (λ s,
      v ← share_add (fee_pool s) deferred_fee; Ok (dd_with_fee_pool s v)) d.

Definition cancel_limit_order (id : Z) (create_virtual_op skip_cancel_fee : bool) (d : database)
    : result database :=
  order ← get_limit_order d id;
  '(d, deferred_fee, deferred_paid_fee) ←
    (if create_virtual_op && negb skip_cancel_fee && (0 <? lo_deferred_fee order) then
       let core_cancel_fee := cancel_fee (LimitOrderCancelOperation zero_asset (lo_seller order) id) in
       deduct_cancel_fee order (Z.min core_cancel_fee (lo_deferred_fee order)) d
     else Ok (d, lo_deferred_fee order, lo_deferred_paid_fee order));
  let refunded := amount_for_sale order in
  d ← (if asset_id refunded =? core_asset_id then
         sub_core_in_orders (lo_seller order) (amount refunded) d
       else Ok d);
  d ← adjust_balance (lo_seller order) refunded d;
  d ← refund_deferred_fee order deferred_fee deferred_paid_fee d;
  cleanup_and_remove_limit_order id d.

Definition maybe_cull_small_order (id : Z) (d : database) : result (database * bool) :=
  order ← get_limit_order d id;
  receive ← amount_to_receive order;
  if amount receive =? 0 then
    d ← (if (0 <? lo_deferred_fee order) && (head_block_time d <=? HARDFORK_CORE_604_TIME)
         then cancel_limit_order id true true d
         else cancel_limit_order id true false d);
    Ok (d, true)
  else Ok (d, false).

(** ** Filling *)

Definition pay_order (receiver : account_id_type) (receives pays : asset) (d : database)
    : result database :=
  d ← (if asset_id pays =? core_asset_id then sub_core_in_orders receiver (amount pays) d else Ok d);
  adjust_balance receiver receives d.

(** The operations an automatic action can push. *)
Inductive virtual_operation :=
  | virtual_create (op : limit_order_create_operation)
  | virtual_update (op : limit_order_update_operation).

(** What a filled order does with its deferred fees: the maker discount is refunded, the rest
    goes to the asset's accumulated fees and to the referral program. *)
Definition settle_paid_fee (order : limit_order_object) (is_maker : bool) (d : database)
    : result (database * share_type) :=
  let percent := get_maker_fee_discount_percent (parameters d) in
  let paid := amount (lo_deferred_paid_fee order) in
  let i := asset_id (lo_deferred_paid_fee order) in
  let deferred_fee := lo_deferred_fee order in
  if 0 <? paid then
    '(d, paid, fee_pool_refund, deferred_fee) ←
      (if is_maker && (0 <? percent) then
         refund ← calculate_percent paid percent;
         if 0 <? refund then
           FC_ASSERT (refund <=? paid) "Internal error";;
           d ← adjust_balance (lo_seller order) (Asset refund i) d;
           paid ← share_sub paid refund;
           FC_ASSERT (0 <? deferred_fee) "Internal error";;
           fee_pool_refund ← calculate_percent deferred_fee percent;
           FC_ASSERT (fee_pool_refund <=? deferred_fee) "Internal error";;
           deferred_fee ← share_sub deferred_fee fee_pool_refund;
           Ok (d, paid, fee_pool_refund, deferred_fee)
         else Ok (d, paid, 0, deferred_fee)
       else Ok (d, paid, 0, deferred_fee));
    d ← modify_dynamic_data i (λ s,
          f ← share_add (accumulated_fees s) paid;
          p ← share_add (fee_pool s) fee_pool_refund;
          Ok (dd_with_fee_pool (dd_with_fees s f) p)) d;
    Ok (d, deferred_fee)
  else Ok (d, deferred_fee).

Definition settle_core_fee (order : limit_order_object) (deferred_fee : share_type) (is_maker : bool)
    (d : database) : result database :=
  let percent := get_maker_fee_discount_percent (parameters d) in
  if 0 <? lo_deferred_fee order then
    '(d, deferred_fee) ←
      (if (amount (lo_deferred_paid_fee order) <=? 0) && is_maker && (0 <? percent) then
         refund ← calculate_percent deferred_fee percent;
         if 0 <? refund then
           FC_ASSERT (refund <=? deferred_fee) "Internal error";;
           d ← adjust_balance (lo_seller order) (Asset refund core_asset_id) d;
           deferred_fee ← share_sub deferred_fee refund;
           Ok (d, deferred_fee)
         else Ok (d, deferred_fee)
       else Ok (d, deferred_fee));
    if 0 <? deferred_fee then pay_fee (lo_seller order) deferred_fee d else Ok d
  else Ok d.

Section filling.
(** [try_push_virtual_operation]: the state afterwards and, for a create, the new order's id. *)
Variable push : virtual_operation → database → result (database * Z).

(** The expiration of an automatic order. *)
Definition auto_expiration (d : database) (seconds : Z) : Z :=
  if head_block_time d <? time_point_sec_maximum - seconds then head_block_time d + seconds
  else time_point_sec_maximum.

(** The price of a take-profit order: the flipped price with the spread taken off. *)
Definition take_profit_price (order : limit_order_object) (a : create_take_profit_order_action)
    : result price :=
  price_mul_ratio (price_flip (lo_sell_price order)) GRAPHENE_100_PERCENT
    (GRAPHENE_100_PERCENT + tp_spread_percent a).

Definition update_take_profit_order (id tp : Z) (order : limit_order_object)
    (a : create_take_profit_order_action) (for_sale : asset) (d : database) : result database :=
  let op0 := LimitOrderUpdateOperation zero_asset (lo_seller order) tp None (Some for_sale)
               (Some (auto_expiration d (tp_expiration_seconds a))) None in
  fee ← fee_in_asset d (update_fee op0) (tp_fee_asset_id a);
  new_price ←
    (if id <? tp then
       take_profit_order ← get_limit_order d tp;
       total ← share_add (amount for_sale) (lo_for_sale take_profit_order);
       sell_price ← take_profit_price order a;
       min_to_receive ← multiply_and_round_up (Asset total (asset_id for_sale)) sell_price;
       p ← make_price (Asset total (asset_id for_sale)) min_to_receive;
       Ok (Some p)
     else Ok None);
  FC_ASSERT (if new_price is Some p then price_ltb (lo_sell_price order) (price_flip p) else true)
    "Internal error: the take profit order should not match the current order";;
  '(d, _) ← push (virtual_update (LimitOrderUpdateOperation fee (lo_seller order) tp new_price
              (Some for_sale) (Some (auto_expiration d (tp_expiration_seconds a))) None)) d;
  Ok d.

Definition create_take_profit_order (order : limit_order_object)
    (a : create_take_profit_order_action) (for_sale : asset) (d : database)
    : result (database * Z) :=
  let on_fill := if tp_repeat a then Some (lo_on_fill order) else None in
  let expiration := auto_expiration d (tp_expiration_seconds a) in
  let op0 := LimitOrderCreateOperation zero_asset (lo_seller order) for_sale zero_asset expiration
               false on_fill in
  fee ← fee_in_asset d (create_fee op0) (tp_fee_asset_id a);
  sell_price ← take_profit_price order a;
  min_to_receive ← multiply_and_round_up for_sale sell_price;
  p ← make_price for_sale min_to_receive;
  FC_ASSERT (price_ltb (lo_sell_price order) (price_flip p))
    "Internal error: the take profit order should not match the current order";;
  push (virtual_create (LimitOrderCreateOperation fee (lo_seller order) for_sale min_to_receive
          expiration false on_fill)) d.

(** What an exception thrown in a [try] block that pushes one operation leaves behind. *)
Definition process_limit_order_on_fill (id : Z) (order : limit_order_object) (order_receives : asset)
    (d : database) : database * option Z :=
  match lo_on_fill order with
  | [] => (d, None)
  | a :: _ =>
    let amount128 := u128_div (u128_add (u128_mul (u128 (amount order_receives)) (tp_size_percent a))
                       (GRAPHENE_100_PERCENT - 1)) GRAPHENE_100_PERCENT in
    if amount128 <=? 0 then (d, None)
    else
      let for_sale := Asset (to_int64 amount128) (asset_id order_receives) in
      match lo_take_profit_order_id order with
      | Some tp =>
        match update_take_profit_order id tp order a for_sale d with
        | Ok d' => (d', None)
        | Err _ => (d, None)
        end
      | None =>
        match create_take_profit_order order a for_sale d with
        | Ok (d', new) => (d', Some new)
        | Err _ => (d, None)
        end
      end
  end.

Definition lo_partially_filled (o : limit_order_object) (pays : share_type) (new_link : option Z)
    : result limit_order_object :=
  rest ← share_sub (lo_for_sale o) pays;
  Ok (LimitOrderObject (lo_expiration o) (lo_seller o) rest (lo_sell_price o)
        (u128_add (lo_filled_amount o) (u128 pays)) 0 (Asset 0 (asset_id (lo_deferred_paid_fee o)))
        (lo_on_fill o) (if new_link is Some _ then new_link else lo_take_profit_order_id o)).

(** The payments of a fill: market fee, proceeds and deferred fees; what the seller received. *)
Definition settle_fill (order : limit_order_object) (pays receives : asset) (is_maker : bool)
    (d : database) : result (database * asset) :=
  '(d, issuer_fees) ←
    pay_market_fees (Some (lo_seller order)) (asset_id receives) receives is_maker None d;
  order_receives ← asset_sub receives issuer_fees;
  d ← pay_order (lo_seller order) order_receives pays d;
  '(d, deferred_fee) ← settle_paid_fee order is_maker d;
  d ← settle_core_fee order deferred_fee is_maker d;
  Ok (d, order_receives).

(** The order after the fill: removed, or reduced and perhaps culled. *)
Definition reduce_order (id : Z) (pays : asset) (cull_if_small : bool) (new_tp : option Z)
    (d : database) : result (database * bool) :=
  order ← get_limit_order d id;
  if asset_eqb pays (amount_for_sale order) then
    d ← cleanup_and_remove_limit_order id d;
    Ok (d, true)
  else
    d ← (if new_tp is Some tp then modify_limit_order tp (λ loo, Ok (lo_with_link loo (Some id))) d
         else Ok d);
    d ← modify_limit_order id (λ b, lo_partially_filled b (amount pays) new_tp) d;
    if cull_if_small then maybe_cull_small_order id d else Ok (d, false).

Definition fill_limit_order (id : Z) (pays receives : asset) (cull_if_small is_maker : bool)
    (d : database) : result (database * bool) :=
  let cull_if_small := cull_if_small || (head_block_time d <? HARDFORK_555_TIME) in
  order ← get_limit_order d id;
  FC_ASSERT (sell_asset_id order =? asset_id pays) "order.amount_for_sale().asset_id == pays.asset_id";;
  FC_ASSERT (negb (asset_id pays =? asset_id receives)) "pays.asset_id != receives.asset_id";;
  get_account d (lo_seller order);;
  '(d, order_receives) ← settle_fill order pays receives is_maker d;
  let '(d, new_tp) := process_limit_order_on_fill id order order_receives d in
  reduce_order id pays cull_if_small new_tp d.

(** ** Matching *)

Inductive match_result_type := none_filled | only_taker_filled | only_maker_filled | both_filled.

Definition get_match_result (taker_filled maker_filled : bool) : match_result_type :=
  match maker_filled, taker_filled with
  | false, false => none_filled
  | false, true => only_taker_filled
  | true, false => only_maker_filled
  | true, true => both_filled
  end.

(** The amounts of a match: what the taker and the maker receive, and whether the taker is to
    be culled; [None] if the taker would pay something for nothing. *)
Definition match_amounts (maint_time : Z) (taker_for_sale maker_for_sale : asset) (match_price : price)
    : result (option (asset * asset * bool)) :=
  let before_342 := maint_time <=? HARDFORK_CORE_342_TIME in
  maker_value ← asset_mul_price maker_for_sale match_price;
  smaller ← asset_le taker_for_sale maker_value;
  if (smaller : bool) then
    taker_receives ← asset_mul_price taker_for_sale match_price;
    if (amount taker_receives =? 0) && (HARDFORK_CORE_184_TIME <? maint_time) then Ok None
    else if before_342 then Ok (Some (taker_receives, taker_for_sale, false))
    else
      maker_receives ← multiply_and_round_up taker_receives match_price;
      Ok (Some (taker_receives, maker_receives, true))
  else if before_342 then Ok (Some (maker_for_sale, maker_value, false))
  else
    taker_receives ← multiply_and_round_up maker_value match_price;
    Ok (Some (taker_receives, maker_value, false)).

Definition match_limit_normal_limit (taker maker : Z) (match_price : price) (d : database)
    : result (database * match_result_type) :=
  t ← get_limit_order d taker;
  m ← get_limit_order d maker;
  amounts ← match_amounts (next_maintenance_time d) (amount_for_sale t) (amount_for_sale m) match_price;
  match amounts with
  | None => Ok (d, only_taker_filled)
  | Some (taker_receives, maker_receives, cull_taker) =>
    let maker_pays := taker_receives in
    let taker_pays := maker_receives in
    (if next_maintenance_time d <=? HARDFORK_CORE_342_TIME then
       FC_ASSERT (asset_eqb taker_pays (amount_for_sale t) || asset_eqb maker_pays (amount_for_sale m))
         "taker_pays == taker.amount_for_sale() || maker_pays == maker.amount_for_sale()"
     else Ok ());;
    '(d, taker_filled) ← fill_limit_order taker taker_pays taker_receives cull_taker false d;
    '(d, maker_filled) ← fill_limit_order maker maker_pays maker_receives true true d;
    match get_match_result taker_filled maker_filled with
    | none_filled => Err (assert_exception "result != match_result_type::none_filled")
    | r => Ok (d, r)
    end
  end.

Definition match_orders (taker maker : Z) (match_price : price) (d : database)
    : result (database * match_result_type) :=
  t ← get_limit_order d taker;
  m ← get_limit_order d maker;
  FC_ASSERT (receive_asset_id t =? sell_asset_id m)
    "taker.sell_price.quote.asset_id == maker.sell_price.base.asset_id";;
  FC_ASSERT (sell_asset_id t =? receive_asset_id m)
    "taker.sell_price.base.asset_id == maker.sell_price.quote.asset_id";;
  FC_ASSERT ((0 <? lo_for_sale t) && (0 <? lo_for_sale m)) "taker.for_sale > 0 && maker.for_sale > 0";;
  match_limit_normal_limit taker maker match_price d.

(** One round of [while( !finished && limit_itr != limit_end )]; the state of the loop is
    [limit_itr] and the database, and the flag says whether to go on. *)
Definition match_round (taker : Z) (limit_end : option Z) (s : option Z * database)
    : result ((option Z * database) * bool) :=
  let '(limit_itr, d) := s in
  if bool_decide (limit_itr = limit_end) then Ok (s, false)
  else
    match limit_itr with
    | None => Err (assert_exception "dereference of limit_price_idx.end()")
    | Some maker =>
      m ← get_limit_order d maker;
      let limit_itr := next_order d maker in
      '(d, r) ← match_orders taker maker (lo_sell_price m) d;
      Ok ((limit_itr, d), match r with only_maker_filled => true | _ => false end)
    end.

(** Every round that does not end the loop removes the maker from the book, so with fewer than
    2^64 orders the 64 doublings are never exhausted (see OrderBook.v). *)
Definition match_loop (taker : Z) (limit_itr limit_end : option Z) (d : database) : result database :=
  '((_, d), running) ← while_pow (match_round taker limit_end) 64 (limit_itr, d);
  if (running : bool) then Err (assert_exception "out of fuel") else Ok d.

(** Cull the new order if it is still there; is it gone? *)
Definition order_is_gone (id : Z) (d : database) : result (database * bool) :=
  if bool_decide (is_Some (rows (limit_orders d) !! id)) then maybe_cull_small_order id d
  else Ok (d, true).

Definition apply_order_before_hardfork_625 (id : Z) (d : database) : result (database * bool) :=
  new_order ← get_limit_order d id;
  get_asset d (sell_asset_id new_order);;
  receive ← amount_to_receive new_order;
  get_asset d (asset_id receive);;
  let max_price := price_flip (lo_sell_price new_order) in
  top ← price_max (asset_id (base max_price)) (asset_id (quote max_price));
  d ← match_loop id (lower_bound d top) (upper_bound d max_price) d;
  if bool_decide (is_Some (rows (limit_orders d) !! id)) then
    if head_block_time d <=? HARDFORK_555_TIME then Ok (d, false) else maybe_cull_small_order id d
  else Ok (d, true).

Definition apply_order (id : Z) (d : database) : result (database * bool) :=
  new_order ← get_limit_order d id;
  let at_front :=
    match prev_order d id with
    | Some (_, o) => negb ((sell_asset_id o =? sell_asset_id new_order)
                           && (receive_asset_id o =? receive_asset_id new_order))
    | None => true
    end in
  if at_front then
    let max_price := price_flip (lo_sell_price new_order) in
    top ← price_max (asset_id (base max_price)) (asset_id (quote max_price));
    d ← match_loop id (lower_bound d top) (upper_bound d max_price) d;
    order_is_gone id d
  else Ok (d, false).

(** ** Evaluators *)

(** The market lists of the selling asset. *)
Definition market_whitelisted (sell_asset : asset_object) (i : asset_id_type) : bool :=
  bool_decide (whitelist_markets (ao_options sell_asset) = ∅)
  || bool_decide (i ∈ whitelist_markets (ao_options sell_asset)).
Definition market_blacklisted (sell_asset : asset_object) (i : asset_id_type) : bool :=
  bool_decide (i ∈ blacklist_markets (ao_options sell_asset)).

Definition take_profit_actions_ok (d : database) (l : list create_take_profit_order_action)
    : result unit :=
  match l with
  | [] => Ok ()
  | a :: _ => FC_ASSERT (bool_decide (is_Some (assets d !! tp_fee_asset_id a))) "Fee asset does not exist"
  end.

(** *** create *)

Definition limit_order_create_do_evaluate (op : limit_order_create_operation) (d : database)
    : result unit :=
  (if loc_on_fill op is Some l then
     FC_ASSERT (HARDFORK_CORE_2535_PASSED (head_block_time d))
       "The on_fill extension is not allowed until the core-2535 hardfork";;
     FC_ASSERT (bool_decide (length l = 1%nat))
       "The on_fill action list must contain only one action until expanded in a future hardfork";;
     take_profit_actions_ok d l
   else Ok ());;
  FC_ASSERT (head_block_time d <=? loc_expiration op) "op.expiration >= d.head_block_time()";;
  seller ← get_account d (loc_seller op);
  let sell_id := asset_id (loc_amount_to_sell op) in
  let receive_id := asset_id (loc_min_to_receive op) in
  sell_asset ← get_asset d sell_id;
  receive_asset ← get_asset d receive_id;
  GRAPHENE_ASSERT (market_whitelisted sell_asset receive_id) "limit_order_create_market_not_whitelisted";;
  GRAPHENE_ASSERT (negb (market_blacklisted sell_asset receive_id)) "limit_order_create_market_blacklisted";;
  GRAPHENE_ASSERT (is_authorized_asset d (loc_seller op) seller sell_id sell_asset)
    "limit_order_create_selling_asset_unauthorized";;
  GRAPHENE_ASSERT (is_authorized_asset d (loc_seller op) seller receive_id receive_asset)
    "limit_order_create_receiving_asset_unauthorized";;
  enough ← asset_ge (get_balance d (loc_seller op) sell_id) (loc_amount_to_sell op);
  GRAPHENE_ASSERT enough "limit_order_create_insufficient_balance".

(** The fee is taken from the pool but not handed out yet. *)
Definition defer_convert_fee (fee : asset) (core_fee_paid : share_type) (d : database) : result database :=
  if asset_id fee =? core_asset_id then Ok d
  else modify_dynamic_data (asset_id fee) (λ s,
    p ← share_sub (fee_pool s) core_fee_paid; Ok (dd_with_fee_pool s p)) d.

Definition limit_order_create_convert_fee (fee : asset) (core_fee_paid : share_type) (d : database)
    : result database :=
  if head_block_time d <=? HARDFORK_CORE_604_TIME then convert_fee fee core_fee_paid d
  else defer_convert_fee fee core_fee_paid d.

(** The state, [_deferred_fee] and [_deferred_paid_fee]. *)
Definition limit_order_create_pay_fee (payer : account_id_type) (fee : asset)
    (core_fee_paid : share_type) (d : database) : result (database * share_type * asset) :=
  if head_block_time d <=? HARDFORK_445_TIME then
    d ← pay_fee payer core_fee_paid d; Ok (d, 0, zero_asset)
  else
    Ok (d, core_fee_paid,
        if (HARDFORK_CORE_604_TIME <? head_block_time d) && negb (asset_id fee =? core_asset_id)
        then fee else zero_asset).

Definition limit_order_create_do_apply (op : limit_order_create_operation) (deferred_fee : share_type)
    (deferred_paid_fee : asset) (d : database) : result (database * Z) :=
  let sell := loc_amount_to_sell op in
  d ← (if asset_id sell =? core_asset_id then add_core_in_orders (loc_seller op) (amount sell) d
       else Ok d);
  neg ← asset_neg sell;
  d ← adjust_balance (loc_seller op) neg d;
  p ← make_price sell (loc_min_to_receive op);
  '(id, t) ← tbl_create (LimitOrderObject (loc_expiration op) (loc_seller op) (amount sell) p 0
               deferred_fee deferred_paid_fee (default [] (loc_on_fill op)) None) (limit_orders d);
  let d := set_limit_orders t d in
  '(d, filled) ←
    (if next_maintenance_time d <=? HARDFORK_CORE_625_TIME then apply_order_before_hardfork_625 id d
     else apply_order id d);
  GRAPHENE_ASSERT (negb (loc_fill_or_kill op) || filled) "limit_order_create_kill_unfilled";;
  Ok (d, id).

(** [start_evaluate] with the evaluator's own [convert_fee] and [pay_fee]. *)
Definition evaluate_limit_order_create (skip_fee_schedule_check : bool)
    (op : limit_order_create_operation) (d : database) : result (database * Z) :=
  core_fee_paid ← prepare_fee (loc_seller op) (loc_fee op) d;
  (if skip_fee_schedule_check then Ok ()
   else GRAPHENE_ASSERT (create_fee op <=? core_fee_paid) "insufficient_fee");;
  limit_order_create_do_evaluate op d;;
  d ← limit_order_create_convert_fee (loc_fee op) core_fee_paid d;
  '(d, deferred_fee, deferred_paid_fee) ←
    limit_order_create_pay_fee (loc_seller op) (loc_fee op) core_fee_paid d;
  '(d, id) ← limit_order_create_do_apply op deferred_fee deferred_paid_fee d;
  neg ← asset_neg (loc_fee op);
  d ← adjust_balance (loc_seller op) neg d;
  Ok (d, id).

(** *** update *)

Definition limit_order_update_do_evaluate (op : limit_order_update_operation) (d : database)
    : result unit :=
  FC_ASSERT (HARDFORK_CORE_1604_PASSED (head_block_time d)) "Operation has not activated yet";;
  (if lou_on_fill op is Some l then
     FC_ASSERT (bool_decide (length l ≤ 1)%nat)
       "The on_fill action list must contain zero or one action until expanded in a future hardfork";;
     take_profit_actions_ok d l
   else Ok ());;
  order ← (match rows (limit_orders d) !! lou_order op with
           | Some o => Ok o
           | None => Err (graphene_exception "limit_order_update_nonexist_order")
           end);
  GRAPHENE_ASSERT (lou_seller op =? lo_seller order) "limit_order_update_owner_mismatch";;
  (if lou_new_price op is Some p then
     FC_ASSERT ((asset_id (base p) =? sell_asset_id order) && (asset_id (quote p) =? receive_asset_id order))
       "Cannot update limit order with incompatible price";;
     let max_amount := Z.max (lo_for_sale order) (amount (base (lo_sell_price order))) in
     max_amount ← (if lou_delta_amount_to_sell op is Some delta then share_add max_amount (amount delta)
                   else Ok max_amount);
     FC_ASSERT (amount (base p) <=? max_amount)
       "The base amount in the new price cannot be greater than the estimated maximum amount for sale"
   else Ok ());;
  (if lou_delta_amount_to_sell op is Some delta then
     FC_ASSERT (asset_id delta =? sell_asset_id order) "Cannot update limit order with incompatible asset";;
     if amount delta <? 0 then
       neg ← share_neg (amount delta);
       FC_ASSERT (neg <? lo_for_sale order) "Cannot deduct all or more from order than order contains"
     else Ok ()
   else Ok ());;
  (if bool_decide (is_Some (lou_new_price op))
      || (if lou_delta_amount_to_sell op is Some delta then amount delta <? 0 else false) then
     let new_price := default (lo_sell_price order) (lou_new_price op) in
     new_amount ← (if lou_delta_amount_to_sell op is Some delta then asset_add (amount_for_sale order) delta
                   else Ok (amount_for_sale order));
     new_amount_to_receive ← asset_mul_price new_amount new_price;
     FC_ASSERT (0 <? amount new_amount_to_receive)
       "Cannot update limit order: order becomes too small; cancel order instead"
   else Ok ());;
  (if lou_new_expiration op is Some e then
     FC_ASSERT (head_block_time d <=? e) "Cannot update limit order to expire in the past"
   else Ok ());;
  sell_asset ← get_asset d (sell_asset_id order);
  receive_asset ← get_asset d (receive_asset_id order);
  seller ← get_account d (lou_seller op);
  FC_ASSERT (market_whitelisted sell_asset (receive_asset_id order))
    "This market has not been whitelisted by the selling asset";;
  FC_ASSERT (negb (market_blacklisted sell_asset (receive_asset_id order)))
    "This market has been blacklisted by the selling asset";;
  FC_ASSERT (is_authorized_asset d (lou_seller op) seller (sell_asset_id order) sell_asset)
    "The account is not allowed to transact the selling asset";;
  FC_ASSERT (is_authorized_asset d (lou_seller op) seller (receive_asset_id order) receive_asset)
    "The account is not allowed to transact the receiving asset".

(** The possibly discounted cancellation fee. *)
Definition discounted_cancel_fee (deferred_fee : share_type) : share_type :=
  let core_cancel_fee := cancel_fee default_cancel in
  if 0 <? core_cancel_fee then
    let core_create_fee := create_fee default_create in
    let fee128 := if 0 <? core_create_fee
                  then u128_div (u128_mul (u128 core_cancel_fee) (u128 (update_fee default_update))) core_create_fee
                  else u128 core_cancel_fee in
    to_int64 (if to_uint64 deferred_fee <? fee128 then u128 deferred_fee else fee128)
  else core_cancel_fee.

Definition process_deferred_fee (order : limit_order_object) (d : database) : result database :=
  if lo_deferred_fee order <=? 0 then Ok d
  else
    let core_cancel_fee := discounted_cancel_fee (lo_deferred_fee order) in
    let paid := lo_deferred_paid_fee order in
    '(d, deferred_fee, deferred_paid_fee) ←
      (if 0 <? core_cancel_fee then
         d ← pay_fee (lo_seller order) core_cancel_fee d;
         deferred_fee ← share_sub (lo_deferred_fee order) core_cancel_fee;
         if 0 <? amount paid then
           let x := cancel_fee_share (amount paid) core_cancel_fee (lo_deferred_fee order) in
           d ← accumulate_paid_fee (asset_id paid) x d;
           rest ← share_sub (amount paid) x;
           Ok (d, deferred_fee, Asset rest (asset_id paid))
         else Ok (d, deferred_fee, paid)
       else Ok (d, lo_deferred_fee order, paid));
    refund_deferred_fee order deferred_fee deferred_paid_fee d.

Definition is_linked_tp_order_compatible (order : limit_order_object)
    (on_fill : option (list create_take_profit_order_action)) : bool :=
  match on_fill with
  | None => true
  | Some [] => match lo_on_fill order with [] => true | _ => false end
  | Some (new :: _) =>
    match lo_on_fill order with
    | [] => false
    | old :: _ => (tp_spread_percent old =? tp_spread_percent new) && eqb (tp_repeat old) (tp_repeat new)
    end
  end.

Definition lo_updated (op : limit_order_update_operation) (deferred_fee : share_type)
    (deferred_paid_fee : asset) (unlink : bool) (o : limit_order_object) : result limit_order_object :=
  for_sale ← (if lou_delta_amount_to_sell op is Some delta then share_add (lo_for_sale o) (amount delta)
              else Ok (lo_for_sale o));
  Ok (LimitOrderObject (default (lo_expiration o) (lou_new_expiration op)) (lo_seller o) for_sale
        (default (lo_sell_price o) (lou_new_price op)) (lo_filled_amount o) deferred_fee deferred_paid_fee
        (default (lo_on_fill o) (lou_on_fill op))
        (if unlink then None else lo_take_profit_order_id o)).

Definition limit_order_update_do_apply (skip_price_check : bool) (op : limit_order_update_operation)
    (deferred_fee : share_type) (deferred_paid_fee : asset) (d : database) : result database :=
  d ← (if lou_delta_amount_to_sell op is Some delta then
         neg ← asset_neg delta;
         d ← adjust_balance (lou_seller op) neg d;
         if asset_id delta =? core_asset_id then add_core_in_orders (lou_seller op) (amount delta) d
         else Ok d
       else Ok d);
  order ← get_limit_order d (lou_order op);
  d ← process_deferred_fee order d;
  '(d, unlink) ←
    (if lo_take_profit_order_id order is Some tp then
       let unlink :=
         if negb skip_price_check
            && (if lou_new_price op is Some p then negb (price_eqb p (lo_sell_price order)) else false)
         then true else negb (is_linked_tp_order_compatible order (lou_on_fill op)) in
       d ← (if unlink then modify_limit_order tp (λ loo, Ok (lo_with_link loo None)) d else Ok d);
       Ok (d, unlink)
     else Ok (d, false));
  d ← modify_limit_order (lou_order op) (lo_updated op deferred_fee deferred_paid_fee unlink) d;
  '(d, _) ← apply_order (lou_order op) d;
  Ok d.

Definition evaluate_limit_order_update (skip_fee_schedule_check skip_price_check : bool)
    (op : limit_order_update_operation) (d : database) : result database :=
  core_fee_paid ← prepare_fee (lou_seller op) (lou_fee op) d;
  (if skip_fee_schedule_check then Ok ()
   else GRAPHENE_ASSERT (update_fee op <=? core_fee_paid) "insufficient_fee");;
  limit_order_update_do_evaluate op d;;
  d ← defer_convert_fee (lou_fee op) core_fee_paid d;
  let deferred_paid_fee := if asset_id (lou_fee op) =? core_asset_id then zero_asset else lou_fee op in
  d ← limit_order_update_do_apply skip_price_check op core_fee_paid deferred_paid_fee d;
  neg ← asset_neg (lou_fee op);
  adjust_balance (lou_seller op) neg d.
End filling.

(** ** Virtual operations *)

(** [try_push_virtual_operation] with [depth] further undo sessions allowed; an operation that
    throws leaves no trace, its session being undone. *)
Fixpoint try_push_virtual_operation (depth : nat) (op : virtual_operation) (d : database)
    : result (database * Z) :=
  match op with
  | virtual_create op => limit_order_create_validate op
  | virtual_update op => limit_order_update_validate op
  end;;
  match depth with
  | O => Err (assert_exception "Max undo session nesting depth exceeded!")
  | S depth =>
    match op with
    | virtual_create op => evaluate_limit_order_create (try_push_virtual_operation depth) false op d
    | virtual_update op =>
      d ← evaluate_limit_order_update (try_push_virtual_operation depth) false true op d; Ok (d, 0)
    end
  end.

(** The nesting guard of an operation of a transaction. *)
Definition push_virtual (op : virtual_operation) (d : database) : result (database * Z) :=
  try_push_virtual_operation (Z.to_nat (2 * active_witnesses_size d)) op d.

(** ** Cancelling by operation and by expiration *)

Definition limit_order_cancel_do_evaluate (op : limit_order_cancel_operation) (d : database)
    : result unit :=
  match rows (limit_orders d) !! lox_order op with
  | Some o => GRAPHENE_ASSERT (lo_seller o =? lox_fee_paying_account op) "limit_order_cancel_owner_mismatch"
  | None => Err (graphene_exception "limit_order_cancel_nonexist_order")
  end.

Definition limit_order_cancel_do_apply (op : limit_order_cancel_operation) (d : database)
    : result (database * operation_result) :=
  order ← get_limit_order d (lox_order op);
  let refunded := amount_for_sale order in
  d ← cancel_limit_order (lox_order op) false false d;
  Ok (d, asset_result refunded).

(** [clear_expired_orders]: each round removes an order. *)
Fixpoint cancel_expired (fuel : nat) (d : database) : result database :=
  match fuel with
  | O => Ok d
  | S fuel =>
    match first_by lo_expiration (limit_orders d) with
    | None => Ok d
    | Some (id, o) =>
      if lo_expiration o <=? head_block_time d then
        d ← cancel_limit_order id true false d; cancel_expired fuel d
      else Ok d
    end
  end.

Definition clear_expired_orders (d : database) : result database :=
  cancel_expired (size (rows (limit_orders d))) d.
End market.

#[global] Instance limit_order_cancel_evaluator `{FeeSchedule} : Evaluator limit_order_cancel_operation := {|
  eval_ctx := unit;
  op_fee := lox_fee;
  fee_payer := lox_fee_paying_account;
  validate := limit_order_cancel_validate;
  do_evaluate op d := limit_order_cancel_do_evaluate op d;
  do_apply op _ d := limit_order_cancel_do_apply op d |}.
