(* ===== verification/MarketBooks.v ===== *)
(** * The market keeps the books

    The effect of the limit-order operations of LimitOrder.v on holdings and on the order
    table, for states whose orders carry no take-profit action ([order_ok]).

    [credits d d' f]: going from [d] to [d'] moves [f] in the sense of Ledger.v and touches
    only balances, statistics, dynamic data and vesting balances. *)
From S2P Require Import Prelude MachineInt Hardfork Asset PriceRatio Vesting ChainState Ledger CreditBooks Balance Fees Evaluator LimitOrder.

(** ** Payments *)

Definition funds_frame (d d' : database) : Prop :=
  ∃ b s m t, d' = set_balances b (set_statistics s (set_dynamic_data m (set_vesting_balances t d))).

#[global] Instance funds_frame_preorder : PreOrder funds_frame.
Proof.
  split.
  - intros d. exists (balances d), (statistics d), (dynamic_data d), (vesting_balances d). by destruct d.
  - intros d1 d2 d3 (b & s & m & t & ->) (b' & s' & m' & t' & ->). by exists b', s', m', t'.
Qed.

Definition credits (d d' : database) (f : asset_id_type → Z) : Prop := moves d d' f ∧ funds_frame d d'.

Lemma credits_refl d : credits d d (λ _, 0).
Proof. split; [apply moves_refl|reflexivity]. Qed.

Lemma credits_trans d1 d2 d3 f g : credits d1 d2 f → credits d2 d3 g → credits d1 d3 (λ a, f a + g a).
Proof. intros [M1 F1] [M2 F2]. split; [by eapply moves_trans|by etrans]. Qed.

Lemma credits_ext d d' f g : credits d d' f → (∀ a, f a = g a) → credits d d' g.
Proof. intros [M F] E. split; [by eapply moves_ext|done]. Qed.

(** [credits_chain] composes the payments among the hypotheses and leaves the comparison of
    the amounts. *)
Ltac credits_follow :=
  lazymatch goal with
  | H : credits ?d ?d1 _ |- credits ?d ?d2 _ =>
      tryif constr_eq d1 d2 then exact H
      else (eapply (credits_trans _ _ _ _ _ H); clear H; credits_follow)
  | |- credits ?d _ _ => apply credits_refl
  end.
Ltac credits_chain := eapply credits_ext; [credits_follow|intros ?a; simpl].

Lemma adjust_balance_credits who x d d' :
  adjust_balance who x d = Ok d' → credits d d' (amt (asset_id x) (amount x)).
Proof.
  intros H1. split; [by eapply adjust_balance_moves|].
  apply adjust_balance_frame in H1 as [b ->].
  by eexists _, _, _, _.
Qed.

Lemma modify_dynamic_data_credits i m d d' :
  modify_dynamic_data i m d = Ok d' →
  ∃ s s', dynamic_data d !! i = Some s ∧ m s = Ok s' ∧ credits d d' (dd_delta i s s').
Proof.
  intros H1. pose proof H1 as (s & s' & Hs & Hm & M)%modify_dynamic_data_moves.
  exists s, s'. split_and!; [done..|]. split; [done|].
  apply modify_dynamic_data_Ok in H1 as (? & ? & _ & _ & ->).
  by eexists _, _, _, _.
Qed.

Lemma modify_statistics_credits i m d d' :
  modify_statistics i m d = Ok d' →
  ∃ s s', statistics d !! i = Some s ∧ m s = Ok s' ∧
    credits d d' (amt core_asset_id
      (pending_fees s' + pending_vested_fees s' - pending_fees s - pending_vested_fees s)).
Proof.
  intros H1. pose proof H1 as (s & s' & Hs & Hm & M)%modify_statistics_moves.
  exists s, s'. split_and!; [done..|]. split; [done|].
  apply modify_statistics_Ok in H1 as (? & ? & _ & _ & ->).
  by eexists _, _, _, _.
Qed.

Lemma pay_fee_credits who x d d' : pay_fee who x d = Ok d' → credits d d' (amt core_asset_id x).
Proof.
  intros (s & s' & _ & Hs%stats_pay_fee_Ok & M)%modify_statistics_credits.
  eapply credits_ext; [exact M|]. intros a. f_equal. lia.
Qed.

Lemma add_core_in_orders_credits who x d d' :
  add_core_in_orders who x d = Ok d' → credits d d' (λ _, 0).
Proof.
  intros (s & s' & _ & Hs & M)%modify_statistics_credits. inv_ok.
  eapply credits_ext; [exact M|]. intros a. simpl. amt_solve.
Qed.

Lemma sub_core_in_orders_credits who x d d' :
  sub_core_in_orders who x d = Ok d' → credits d d' (λ _, 0).
Proof.
  intros (s & s' & _ & Hs & M)%modify_statistics_credits. inv_ok.
  eapply credits_ext; [exact M|]. intros a. simpl. amt_solve.
Qed.

Lemma accumulate_paid_fee_credits i x d d' :
  accumulate_paid_fee i x d = Ok d' → credits d d' (amt i x).
Proof.
  intros (s & s' & _ & Hs & M)%modify_dynamic_data_credits. inv_ok. inv_share. subst.
  eapply credits_ext; [exact M|]. intros a. unfold dd_delta, dd_held; simpl. amt_solve.
Qed.

(** [inv_credits] turns the elementary payments among the hypotheses into [credits]. *)
Ltac inv_credits :=
  repeat match goal with
  | H : adjust_balance _ _ _ = Ok _ |- _ => apply adjust_balance_credits in H
  | H : pay_fee _ _ _ = Ok _ |- _ => apply pay_fee_credits in H
  | H : add_core_in_orders _ _ _ = Ok _ |- _ => apply add_core_in_orders_credits in H
  | H : sub_core_in_orders _ _ _ = Ok _ |- _ => apply sub_core_in_orders_credits in H
  | H : accumulate_paid_fee _ _ _ = Ok _ |- _ => apply accumulate_paid_fee_credits in H
  end.

(** The market fee of a trade is not negative, and is paid to its receivers. *)
Lemma pay_market_fees_credits seller i receives maker d d' fee :
  books_ok d → pay_market_fees seller i receives maker None d = Ok (d', fee) →
  asset_id fee = asset_id receives ∧ 0 ≤ amount fee ≤ amount receives ∧ credits d d' (amt i (amount fee)).
Proof.
  intros Hok H1. assert (0 ≤ amount fee) as Hfee.
  { pose proof H1 as H2. unfold pay_market_fees in H2. apply bind_Ok in H2 as (obj & Ho%find_object_Ok & H2).
    pose proof (ok_assets _ Hok _ _ Ho) as Hmax. unfold options_ok in Hmax.
    apply bind_Ok in H2 as (mf & Hmf & H2). assert (0 ≤ amount mf) as Hp.
    { unfold calculate_market_fee in Hmf. inv_ok; simpl; try lia.
      all: match goal with Hc : calculate_percent _ _ = Ok _ |- _ => apply calculate_percent_nonneg in Hc end.
      all: case_match; lia. }
    clear H1. inv_ok; done. }
  pose proof H1 as (_ & E & Hle & M & t & m & ->)%pay_market_fees_moves; [|done].
  split_and!; [done|done|done|]. split; [done|].
  by exists (balances d), (statistics d), m, t.
Qed.

(** ** The order table *)

Lemma frame_orders d d' : funds_frame d d' → limit_orders d' = limit_orders d.
Proof. by intros (b & s & m & t & ->). Qed.
Lemma frame_head_time d d' : funds_frame d d' → head_block_time d' = head_block_time d.
Proof. by intros (b & s & m & t & ->). Qed.
Lemma frame_maint_time d d' : funds_frame d d' → next_maintenance_time d' = next_maintenance_time d.
Proof. by intros (b & s & m & t & ->). Qed.

(** Payments, and a change of the order table. *)
Definition market_frame (d d' : database) : Prop :=
  ∃ d1, funds_frame d d1 ∧ d' = set_limit_orders (limit_orders d') d1.

#[global] Instance market_frame_preorder : PreOrder market_frame.
Proof.
  split.
  - intros d. exists d. split; [reflexivity|by destruct d].
  - intros d1 d2 d3 (e1 & (b & s & m & t & ->) & E1) (e2 & (b' & s' & m' & t' & ->) & E2).
    rewrite E2, E1. eexists. split; [by exists b', s', m', t'|done].
Qed.

Lemma funds_market_frame d d' : funds_frame d d' → market_frame d d'.
Proof. intros F. exists d'. split; [done|by destruct d']. Qed.
Lemma set_orders_frame d t : market_frame d (set_limit_orders t d).
Proof. exists d. split; [reflexivity|done]. Qed.
Lemma market_frame_times d d' :
  market_frame d d' →
  head_block_time d' = head_block_time d ∧ next_maintenance_time d' = next_maintenance_time d.
Proof. intros (d1 & (b & s & m & t & ->) & ->). done. Qed.
Lemma market_frame_credit d d' : market_frame d d' → credit_ok d → credit_ok d'.
Proof. intros (d1 & (b & s & m & t & ->) & ->). done. Qed.

(** An order that is removed, or replaced, after payments. *)
Lemma remove_order_moves d d1 d' id o f :
  rows (limit_orders d) !! id = Some o → lo_take_profit_order_id o = None →
  credits d d1 f → cleanup_and_remove_limit_order id d1 = Ok d' →
  moves d d' (λ a, f a - held o a) ∧ market_frame d d' ∧
  limit_orders d' = Table (next_id (limit_orders d)) (delete id (rows (limit_orders d))).
Proof.
  intros Ho Hl [M F] H1. pose proof (frame_orders _ _ F) as El.
  unfold cleanup_and_remove_limit_order, get_limit_order in H1. rewrite El in H1.
  apply bind_Ok in H1 as (o' & Ho'%tbl_get_Ok & H1). simplify_eq. rewrite Hl in H1. simpl in H1.
  apply bind_Ok in H1 as (t & Ht & E). injection E as <-.
  rewrite El in Ht. split_and!.
  - eapply moves_ext; [eapply moves_trans; [exact M|apply moves_limit_orders]|].
    + intros a. rewrite El, (tbl_held_remove _ _ _ _ a Ho Ht). apply (Z.add_opp_r _ _).
    + intros Hok. eapply rows_ok_remove; [exact Ht|]. rewrite <- El. apply Hok.
    + intros a. simpl. lia.
  - etrans; [by apply funds_market_frame|apply set_orders_frame].
  - simpl. by apply tbl_remove_Ok in Ht as (? & _ & ->).
Qed.

Lemma replace_order_moves d d1 d' id o m f :
  rows (limit_orders d) !! id = Some o → credits d d1 f → modify_limit_order id m d1 = Ok d' →
  (∀ o', m o = Ok o' → order_ok o → order_ok o') →
  ∃ o', m o = Ok o' ∧ moves d d' (λ a, f a + (held o' a - held o a)) ∧ market_frame d d' ∧
    limit_orders d' = Table (next_id (limit_orders d)) (<[id := o']> (rows (limit_orders d))).
Proof.
  intros Ho [M F] H1 Hok'. pose proof (frame_orders _ _ F) as El.
  unfold modify_limit_order in H1. apply bind_Ok in H1 as (t & Ht & E). injection E as <-.
  rewrite El in Ht. pose proof Ht as (o1 & o' & Ho1 & Hm & ->)%tbl_modify_Ok. simplify_eq.
  exists o'. split_and!; [done| | |done].
  - eapply moves_ext; [eapply moves_trans; [exact M|apply moves_limit_orders]|].
    + intros a. rewrite El, (tbl_held_update _ _ o o') by done.
      instantiate (1 := λ a, held o' a - held o a). simpl. lia.
    + intros Hok. eapply rows_ok_modify; [exact Ht| |rewrite <- El; apply Hok].
      intros v v' Hv Hv'. simplify_eq. eauto.
    + done.
  - etrans; [by apply funds_market_frame|apply set_orders_frame].
Qed.

(** ** Cancelling *)

Section market_books.
Context `{FeeSchedule}.

Lemma deduct_cancel_fee_credits o fee d d' deferred paid :
  deduct_cancel_fee o fee d = Ok (d', deferred, paid) →
  asset_id paid = asset_id (lo_deferred_paid_fee o) ∧
  (amount (lo_deferred_paid_fee o) = 0 → amount paid = 0) ∧
  credits d d' (λ a, amt core_asset_id (lo_deferred_fee o - deferred) a
    + amt (asset_id paid) (amount (lo_deferred_paid_fee o) - amount paid) a).
Proof.
  unfold deduct_cancel_fee. intros H1. inv_ok; propify; inv_credits; inv_share; subst; simpl;
    (split_and!; [done|done|credits_chain; amt_solve]).
Qed.

Lemma refund_deferred_fee_credits o deferred paid d d' :
  asset_id paid = asset_id (lo_deferred_paid_fee o) →
  (amount (lo_deferred_paid_fee o) = 0 → amount paid = 0) →
  refund_deferred_fee o deferred paid d = Ok d' →
  credits d d' (λ a, amt core_asset_id deferred a + amt (asset_id paid) (amount paid) a).
Proof.
  unfold refund_deferred_fee. intros Ei Hz H1. destruct (Z.eqb_spec (amount (lo_deferred_paid_fee o)) 0) as [E|E].
  - inv_credits. rewrite Hz by done. credits_chain. amt_solve.
  - apply bind_Ok in H1 as (d1 & H1 & H2). inv_credits.
    apply modify_dynamic_data_credits in H2 as (s & s' & _ & Hs & C). inv_ok. inv_share. subst.
    credits_chain. unfold dd_delta, dd_held; simpl. amt_solve.
Qed.

(** Cancelling an order pays out all it holds and removes it. *)
Lemma cancel_limit_order_spec id cv skip d d' o :
  rows (limit_orders d) !! id = Some o → lo_take_profit_order_id o = None →
  cancel_limit_order id cv skip d = Ok d' →
  conserves d d' ∧ market_frame d d' ∧
  limit_orders d' = Table (next_id (limit_orders d)) (delete id (rows (limit_orders d))).
Proof.
  unfold cancel_limit_order, get_limit_order. intros Ho Hl H1.
  apply bind_Ok in H1 as (o' & Ho'%tbl_get_Ok & H1). simplify_eq.
  apply bind_Ok in H1 as ([[d1 deferred] paid] & H1 & H2).
  assert (asset_id paid = asset_id (lo_deferred_paid_fee o) ∧
    (amount (lo_deferred_paid_fee o) = 0 → amount paid = 0) ∧
    credits d d1 (λ a, amt core_asset_id (lo_deferred_fee o - deferred) a
      + amt (asset_id paid) (amount (lo_deferred_paid_fee o) - amount paid) a)) as (Ei & Hz & C1).
  { destruct (_ && _); [by eapply deduct_cancel_fee_credits|]. injection H1 as <- <- <-.
    split_and!; [done|done|]. eapply credits_ext; [apply credits_refl|]. intros a. amt_solve. }
  clear H1. apply bind_Ok in H2 as (d2 & H2 & H3). apply bind_Ok in H3 as (d3 & H3 & H4).
  apply bind_Ok in H4 as (d4 & H4%refund_deferred_fee_credits & H5); [|done|done].
  assert (credits d1 d2 (λ _, 0)) as C2 by (case_match; inv_ok; inv_credits; done || apply credits_refl).
  clear H2. inv_credits.
  eapply remove_order_moves in H5 as (M & F & El); [|done|done|credits_follow].
  split_and!; [|done|done]. eapply moves_ext; [exact M|].
  intros a. unfold held, limit_order_holding, amount_for_sale, sell_asset_id. simpl. amt_solve.
Qed.

Lemma maybe_cull_spec id d d' gone o :
  rows (limit_orders d) !! id = Some o → lo_take_profit_order_id o = None →
  maybe_cull_small_order id d = Ok (d', gone) →
  conserves d d' ∧ market_frame d d' ∧
  ∃ r, amount_to_receive o = Ok r ∧
  if gone then amount r = 0 ∧
    limit_orders d' = Table (next_id (limit_orders d)) (delete id (rows (limit_orders d)))
  else amount r ≠ 0 ∧ d' = d.
Proof.
  unfold maybe_cull_small_order, get_limit_order. intros Ho Hl H1.
  apply bind_Ok in H1 as (o' & Ho'%tbl_get_Ok & H1). simplify_eq.
  apply bind_Ok in H1 as (r & Hr & H1). destruct (Z.eqb_spec (amount r) 0).
  - apply bind_Ok in H1 as (d1 & H1 & E). injection E as <- <-.
    assert (∃ b1 b2, cancel_limit_order id b1 b2 d = Ok d1) as (b1 & b2 & Hc)
      by (case_match; eauto). clear H1.
    apply cancel_limit_order_spec with (o := o) in Hc as (? & ? & ?); [|done|done]. eauto 10.
  - injection H1 as <- <-. split_and!; [reflexivity|reflexivity|eauto].
Qed.
(** ** Filling *)

Lemma settle_paid_fee_credits o is_maker d d' deferred :
  order_ok o → settle_paid_fee o is_maker d = Ok (d', deferred) →
  0 ≤ deferred ≤ lo_deferred_fee o ∧
  (amount (lo_deferred_paid_fee o) = 0 → deferred = lo_deferred_fee o) ∧
  credits d d' (λ a, amt (asset_id (lo_deferred_paid_fee o)) (amount (lo_deferred_paid_fee o)) a
    + amt core_asset_id (lo_deferred_fee o - deferred) a).
Proof.
  intros [_ _ Hd Hp _ _ _]. unfold settle_paid_fee. intros H1.
  destruct (Z.ltb_spec 0 (amount (lo_deferred_paid_fee o))) as [Hlt|Hge].
  2:{ injection H1 as <- <-. split_and!; [done|done|done|]. credits_chain.
      assert (amount (lo_deferred_paid_fee o) = 0) as -> by lia. amt_solve. }
  apply bind_Ok in H1 as ([[[d1 paid] pool] def] & H1 & H2).
  apply bind_Ok in H2 as (d2 & H2 & E). injection E as <- <-.
  apply modify_dynamic_data_credits in H2 as (s & s' & _ & Hs & C2). inv_ok; inv_share; subst; propify;
    inv_credits; repeat match goal with Hc : calculate_percent _ _ = Ok _ |- _ =>
      apply calculate_percent_nonneg in Hc end;
    (split_and!; [lia|lia|lia|]); credits_chain; unfold dd_delta, dd_held; simpl; amt_solve.
Qed.

Lemma settle_core_fee_credits o deferred is_maker d d' :
  0 ≤ deferred ≤ lo_deferred_fee o → settle_core_fee o deferred is_maker d = Ok d' →
  credits d d' (amt core_asset_id deferred).
Proof.
  intros Hd. unfold settle_core_fee. intros H1.
  destruct (Z.ltb_spec 0 (lo_deferred_fee o)).
  2:{ injection H1 as <-. credits_chain. assert (deferred = 0) as -> by lia. amt_solve. }
  apply bind_Ok in H1 as ([d1 def] & H1 & H2).
  assert (0 ≤ def ∧ credits d d1 (amt core_asset_id (deferred - def))) as [Hdef C1].
  { clear H2. inv_ok; inv_share; subst; propify; inv_credits; (split; [lia|credits_chain; amt_solve]). }
  clear H1. destruct (Z.ltb_spec 0 def); inv_ok; inv_credits; credits_chain; amt_solve.
Qed.

Section filling.
Variable push : virtual_operation → database → result (database * Z).

Lemma partially_filled_ok o pays o' :
  order_ok o → 0 ≤ pays < lo_for_sale o → lo_partially_filled o pays None = Ok o' → order_ok o'.
Proof.
  intros [Hp Hs Hd Hf Hk Ho Hl] Hb H1. unfold lo_partially_filled in H1. inv_ok. inv_share. subst.
  split; simpl; done || lia.
Qed.

(** What a fill pays out: the proceeds and all the deferred fees. *)
Definition fill_payout (o : limit_order_object) (receives : asset) (a : asset_id_type) : Z :=
  amt (asset_id receives) (amount receives) a + amt core_asset_id (lo_deferred_fee o) a
  + amt (asset_id (lo_deferred_paid_fee o)) (amount (lo_deferred_paid_fee o)) a.

Lemma settle_fill_credits o pays receives is_maker d d' r :
  books_ok d → order_ok o → settle_fill o pays receives is_maker d = Ok (d', r) →
  credits d d' (fill_payout o receives).
Proof.
  intros Hok Hoo H1. unfold settle_fill in H1.
  apply bind_Ok in H1 as ([d1 fee] & (Ef & Hf & C1)%pay_market_fees_credits & H1); [|done].
  apply bind_Ok in H1 as (orr & Horr & H1). apply bind_Ok in H1 as (d2 & H2 & H1).
  apply bind_Ok in H1 as ([d3 deferred] & (Hd3 & _ & C3)%settle_paid_fee_credits & H1); [|done].
  apply bind_Ok in H1 as (d4 & C4%settle_core_fee_credits & E); [|done]. injection E as <- <-.
  assert (credits d1 d2 (amt (asset_id orr) (amount orr))) as C2.
  { unfold pay_order in H2. apply bind_Ok in H2 as (d0 & H2 & H3).
    assert (credits d1 d0 (λ _, 0)) as C0 by (case_match; inv_ok; inv_credits; done || apply credits_refl).
    clear H2. inv_credits. credits_chain. lia. }
  clear H2. unfold fill_payout. inv_asset. credits_chain. amt_solve.
Qed.

(** How the order table changes when an order pays [pays]. *)
Definition order_reduced (id : Z) (o : limit_order_object) (pays : share_type) (cull : bool)
    (t t' : table limit_order_object) (filled : bool) : Prop :=
  if filled then
    t' = Table (next_id t) (delete id (rows t)) ∧
    (pays = lo_for_sale o ∨
     ∃ o' r, lo_partially_filled o pays None = Ok o' ∧ amount_to_receive o' = Ok r ∧ amount r = 0)
  else ∃ o', lo_partially_filled o pays None = Ok o' ∧ pays < lo_for_sale o ∧
    t' = Table (next_id t) (<[id := o']> (rows t)) ∧
    (cull = true → ∃ r, amount_to_receive o' = Ok r ∧ amount r ≠ 0).

Lemma partially_filled_held o pays o' a :
  lo_partially_filled o pays None = Ok o' →
  held o' a - held o a = - amt (sell_asset_id o) pays a - amt core_asset_id (lo_deferred_fee o) a
    - amt (asset_id (lo_deferred_paid_fee o)) (amount (lo_deferred_paid_fee o)) a.
Proof.
  unfold lo_partially_filled. intros H1. inv_ok. inv_share. subst.
  unfold held, limit_order_holding, sell_asset_id; simpl. amt_solve.
Qed.

Lemma reduce_order_spec id pays receives cull d d1 d' filled o :
  rows (limit_orders d) !! id = Some o → order_ok o → 0 ≤ amount pays ≤ lo_for_sale o →
  sell_asset_id o = asset_id pays → credits d d1 (fill_payout o receives) →
  reduce_order id pays cull None d1 = Ok (d', filled) →
  moves d d' (λ a, amt (asset_id receives) (amount receives) a - amt (asset_id pays) (amount pays) a) ∧
  market_frame d d' ∧
  order_reduced id o (amount pays) cull (limit_orders d) (limit_orders d') filled.
Proof.
  intros Ho Hoo Hpays Hsell C H1. pose proof (frame_orders _ _ (proj2 C)) as El.
  unfold reduce_order, get_limit_order in H1. rewrite El in H1.
  apply bind_Ok in H1 as (o1 & Ho1%tbl_get_Ok & H1). simplify_eq.
  destruct (asset_eqb pays (amount_for_sale o)) eqn:Efull.
  { apply asset_eqb_eq in Efull. apply bind_Ok in H1 as (d5 & H5 & E). injection E as <- <-.
    eapply remove_order_moves in H5 as (M & F & El5); [|done|apply Hoo|exact C].
    split_and!; [|done|split; [done|left; by rewrite Efull]].
    eapply moves_ext; [exact M|]. intros a. rewrite Efull.
    unfold fill_payout, held, limit_order_holding, amount_for_sale, sell_asset_id; simpl. lia. }
  assert (amount pays < lo_for_sale o) as Hlt.
  { destruct (decide (amount pays = lo_for_sale o)) as [E|]; [|lia]. exfalso.
    assert (asset_eqb pays (amount_for_sale o) = true) as Et; [|congruence].
    apply asset_eqb_eq. destruct pays; unfold amount_for_sale; simpl in *. congruence. }
  simpl in H1. apply bind_Ok in H1 as (d5 & H5 & H1).
  eapply replace_order_moves in H5 as (o' & Ho' & M & F & El5);
    [|done|exact C|intros; eapply partially_filled_ok; [done| |done]; lia].
  assert (moves d d5 (λ a, amt (asset_id receives) (amount receives) a - amt (asset_id pays) (amount pays) a))
    as M5 by (eapply moves_ext; [exact M|]; intros a; simpl;
              rewrite (partially_filled_held _ _ _ a Ho'), Hsell; unfold fill_payout; lia).
  destruct cull.
  - apply maybe_cull_spec with (o := o') in H1 as (M6 & F6 & r & Hr & Hg);
      [|rewrite El5; apply lookup_insert_eq|by eapply partially_filled_ok in Ho'; [apply Ho'|done|lia]].
    split_and!; [eapply moves_ext; [by eapply moves_trans|intros; simpl; lia]|by etrans|].
    destruct filled; destruct Hg as [Hg1 Hg2].
    + split; [|by right; eauto 10]. rewrite Hg2, El5. simpl. by rewrite delete_insert_eq.
    + exists o'. subst d'. split_and!; [done|done|done|eauto].
  - injection H1 as <- <-. split_and!; [done|done|]. exists o'. by split_and!.
Qed.

(** Filling an order hands it [receives], market fee included, and takes [pays] from what it
    has for sale; its deferred fees are settled; the order is removed if it is filled or too
    small, and keeps its price and seller otherwise. *)
Lemma fill_limit_order_spec id pays receives cull is_maker d d' filled o :
  books_ok d → rows (limit_orders d) !! id = Some o → 0 ≤ amount pays ≤ lo_for_sale o →
  fill_limit_order push id pays receives cull is_maker d = Ok (d', filled) →
  moves d d' (λ a, amt (asset_id receives) (amount receives) a - amt (asset_id pays) (amount pays) a) ∧
  market_frame d d' ∧
  order_reduced id o (amount pays) (cull || (head_block_time d <? HARDFORK_555_TIME))
    (limit_orders d) (limit_orders d') filled.
Proof.
  intros Hok Ho Hpays. pose proof (ok_orders _ Hok _ _ Ho) as Hoo.
  unfold fill_limit_order, get_limit_order. intros H1.
  apply bind_Ok in H1 as (o1 & Ho1%tbl_get_Ok & H1). simplify_eq.
  apply bind_Ok in H1 as ([] & Hsell%FC_ASSERT_Ok & H1). apply bind_Ok in H1 as ([] & _ & H1).
  apply bind_Ok in H1 as (seller & _ & H1). apply bind_Ok in H1 as ([d1 r] & C%settle_fill_credits & H1); [|done|done].
  unfold process_limit_order_on_fill in H1. rewrite (oo_plain _ Hoo) in H1. propify.
  by eapply reduce_order_spec.
Qed.
End filling.
End market_books.
