(* ===== verification/MarketMatching.v ===== *)
(** * Matching two orders

    The amounts two orders exchange, and what a match does to the books and to the order table
    ([match_limit_normal_limit] of libraries/chain/db_market.cpp). *)
From S2P Require Import Prelude MachineInt Hardfork Asset PriceRatio Vesting ChainState Ledger CreditBooks Balance Fees Evaluator LimitOrder MarketBooks.

(** ** Conversions at the price of an order *)

(** A conversion never exceeds the maximum share supply. *)
Lemma convert_down_max x from to r :
  convert_down x from to = Ok r → 0 ≤ amount r ≤ GRAPHENE_MAX_SHARE_SUPPLY.
Proof.
  unfold convert_down. intros H1. apply bind_Ok in H1 as ([] & Hf%FC_ASSERT_Ok & H1).
  apply bind_Ok in H1 as ([] & Hm%FC_ASSERT_Ok & E). injection E as <-. propify.
  unfold u128_div in *. set (q := _ / _) in *.
  assert (0 ≤ q) by (apply Z.div_pos; [apply u128_range|done]). simpl.
  rewrite to_int64_small; [done|]. by apply max_supply_is_share.
Qed.

Lemma mul_price_max x p r : asset_mul_price x p = Ok r → 0 ≤ amount r ≤ GRAPHENE_MAX_SHARE_SUPPLY.
Proof. unfold asset_mul_price. intros H1. repeat case_match; try done; by eapply convert_down_max. Qed.

Section conversions.
Variables (p : price) (Hp : price_wf p).

Lemma mul_price_base x r :
  asset_wf x → asset_id x = asset_id (base p) → asset_mul_price x p = Ok r →
  r = Asset (amount x * amount (quote p) / amount (base p)) (asset_id (quote p)).
Proof using Hp.
  destruct Hp as (Hb & Hq & Hb0 & Hq0 & Hne). intros Hx E. unfold asset_mul_price. rewrite E, Z.eqb_refl.
  rewrite convert_down_spec by (done || split; done || lia). intros H1. by inv_ok.
Qed.

Lemma mul_price_quote x r :
  asset_wf x → asset_id x = asset_id (quote p) → asset_mul_price x p = Ok r →
  r = Asset (amount x * amount (base p) / amount (quote p)) (asset_id (base p)).
Proof using Hp.
  destruct Hp as (Hb & Hq & Hb0 & Hq0 & Hne). intros Hx E. unfold asset_mul_price. rewrite E, Z.eqb_refl.
  destruct (Z.eqb_spec (asset_id (quote p)) (asset_id (base p))); [congruence|].
  rewrite convert_down_spec by (done || split; done || lia). intros H1. by inv_ok.
Qed.

Lemma round_up_base x r :
  asset_wf x → asset_id x = asset_id (base p) → multiply_and_round_up x p = Ok r →
  r = Asset (div_up (amount x * amount (quote p)) (amount (base p))) (asset_id (quote p)).
Proof using Hp.
  destruct Hp as (Hb & Hq & Hb0 & Hq0 & Hne). intros Hx E. unfold multiply_and_round_up.
  rewrite E, Z.eqb_refl. rewrite convert_up_spec by (done || split; done || lia). intros H1. by inv_ok.
Qed.

Lemma round_up_quote x r :
  asset_wf x → asset_id x = asset_id (quote p) → multiply_and_round_up x p = Ok r →
  r = Asset (div_up (amount x * amount (base p)) (amount (quote p))) (asset_id (base p)).
Proof using Hp.
  destruct Hp as (Hb & Hq & Hb0 & Hq0 & Hne). intros Hx E. unfold multiply_and_round_up.
  rewrite E, Z.eqb_refl. destruct (Z.eqb_spec (asset_id (quote p)) (asset_id (base p))); [congruence|].
  rewrite convert_up_spec by (done || split; done || lia). intros H1. by inv_ok.
Qed.
End conversions.

(** ** The amounts of a match *)

(** Two orders on opposite sides of one market. *)
Definition opposite (t m : limit_order_object) : Prop :=
  receive_asset_id t = sell_asset_id m ∧ sell_asset_id t = receive_asset_id m.

(** The taker accepts the maker's price. *)
Definition crosses (t m : limit_order_object) : Prop :=
  opposite t m ∧ price_ltb (lo_sell_price m) (price_flip (lo_sell_price t)) = false.

Lemma crosses_cross t m :
  order_ok t → order_ok m → crosses t m →
  amount (quote (lo_sell_price t)) * amount (quote (lo_sell_price m))
    ≤ amount (base (lo_sell_price m)) * amount (base (lo_sell_price t)).
Proof.
  intros [Ht _ _ _ _ _ _] [Hm _ _ _ _ _ _] [[E1 E2] Hx]. unfold receive_asset_id, sell_asset_id in *.
  destruct Ht as (? & ? & ? & ? & ?). rewrite price_ltb_cross in Hx; simpl in *; try done.
  propify. lia.
Qed.

Lemma for_sale_wf o : order_ok o → asset_wf (amount_for_sale o).
Proof. intros [_ Hs _ _ _ _ _]. split; simpl; [unfold is_share, INT64_MIN, INT64_MAX in *|]; lia. Qed.

(** What the amounts are, before and after hard fork core-342, if the taker or the maker is the
    smaller order. *)
Lemma match_amounts_cases mt t m res :
  order_ok t → order_ok m → opposite t m →
  match_amounts mt (amount_for_sale t) (amount_for_sale m) (lo_sell_price m) = Ok res →
  let B := amount (base (lo_sell_price m)) in
  let Q := amount (quote (lo_sell_price m)) in
  let tr := lo_for_sale t * B / Q in
  let mr := lo_for_sale m * Q / B in
  (lo_for_sale t ≤ mr ∧
    (res = None ∧ tr = 0 ∨
     mt ≤ HARDFORK_CORE_342_TIME ∧ res = Some (Asset tr (sell_asset_id m), amount_for_sale t, false) ∨
     HARDFORK_CORE_342_TIME < mt ∧ 0 < tr ∧
       res = Some (Asset tr (sell_asset_id m), Asset (div_up (tr * Q) B) (sell_asset_id t), true))) ∨
  (mr < lo_for_sale t ∧
    (mt ≤ HARDFORK_CORE_342_TIME ∧ res = Some (amount_for_sale m, Asset mr (sell_asset_id t), false) ∨
     HARDFORK_CORE_342_TIME < mt ∧
       res = Some (Asset (div_up (mr * B) Q) (sell_asset_id m), Asset mr (sell_asset_id t), false))).
Proof.
  intros Ht Hm [Eo1 Eo2] H1 B Q tr mr. pose proof (oo_price _ Hm) as Hp. pose proof Hp as (? & ? & ? & ? & ?).
  pose proof (for_sale_wf _ Ht) as Wt. pose proof (for_sale_wf _ Hm) as Wm.
  pose proof (oo_for_sale _ Ht) as Ft. pose proof (oo_for_sale _ Hm) as Fm.
  unfold match_amounts in H1. apply bind_Ok in H1 as (mv & Hmv%mul_price_base & H1); [|done..].
  assert (amount_for_sale m = Asset (lo_for_sale m) (sell_asset_id m)) as Em by done.
  assert (0 ≤ mr) by (unfold mr; apply Z.div_pos; unfold B, Q; nia).
  assert (0 ≤ tr) by (unfold tr; apply Z.div_pos; unfold B, Q; nia).
  subst mv. apply bind_Ok in H1 as (b & [_ ->]%asset_le_Ok & H1). simpl in H1. fold B Q mr in H1.
  assert (∀ x, 0 ≤ x ≤ GRAPHENE_MAX_SHARE_SUPPLY → is_share x) as Hsh by apply max_supply_is_share.
  destruct (Z.leb_spec (lo_for_sale t) mr).
  - left. split; [done|]. apply bind_Ok in H1 as (r & Hr & H1).
    pose proof (mul_price_max _ _ _ Hr) as [_ Hmax].
    apply mul_price_quote in Hr; [|done..]. subst r. simpl in *. fold B Q tr in H1, Hmax.
    change HARDFORK_CORE_184_TIME with HARDFORK_CORE_342_TIME in H1. rewrite Z.ltb_antisym in H1.
    destruct (Z.leb_spec mt HARDFORK_CORE_342_TIME) as [Hm1|Hm1]; simpl in H1.
    { rewrite andb_false_r in H1. injection H1 as <-. right; left. done. }
    rewrite andb_true_r in H1. destruct (Z.eqb_spec tr 0) as [Et|Et]; [injection H1 as <-; by left|].
    apply bind_Ok in H1 as (r & Hr%round_up_base & E); [|done|split; simpl; auto|done].
    injection E as <-. subst r. right; right. simpl. fold B Q. rewrite Eo2. split_and!; [done|lia|done].
  - right. split; [done|]. destruct (Z.leb_spec mt HARDFORK_CORE_342_TIME) as [Hm1|Hm1].
    + injection H1 as <-. left. by rewrite Eo2.
    + apply bind_Ok in H1 as (r & Hr%round_up_quote & E); [| done| |done].
      * injection E as <-. subst r. right. simpl. fold B Q. by rewrite Eo2.
      * split; simpl; [|lia]. unfold is_share, INT64_MIN, INT64_MAX in *. lia.
Qed.

(** Nobody pays more than it has for sale. *)
Lemma match_amounts_bounds mt t m tr mr cull :
  order_ok t → order_ok m → opposite t m →
  match_amounts mt (amount_for_sale t) (amount_for_sale m) (lo_sell_price m) = Ok (Some (tr, mr, cull)) →
  asset_id tr = sell_asset_id m ∧ asset_id mr = sell_asset_id t ∧
  0 ≤ amount tr ≤ lo_for_sale m ∧ 0 ≤ amount mr ≤ lo_for_sale t.
Proof.
  intros Ht Hm Ho H1. pose proof (oo_price _ Hm) as (? & ? & HB & HQ & ?).
  pose proof (oo_for_sale _ Ht) as Ft. pose proof (oo_for_sale _ Hm) as Fm.
  apply match_amounts_cases in H1; [|done..]. cbv zeta in H1.
  set (B := amount (base (lo_sell_price m))) in *. set (Q := amount (quote (lo_sell_price m))) in *.
  pose proof (div_down_spec (lo_for_sale t * B) Q HQ) as D1.
  pose proof (div_down_spec (lo_for_sale m * Q) B HB) as D2.
  set (x := lo_for_sale t * B / Q) in *. set (y := lo_for_sale m * Q / B) in *.
  assert (0 ≤ x) by (apply Z.div_pos; nia). assert (0 ≤ y) by (apply Z.div_pos; nia).
  destruct H1 as [[Hle [[? _]|[[_ E]|(_ & _ & E)]]]|[Hlt [[_ E]|[_ E]]]]; [done|injection E as -> -> ->..]; simpl;
    (split_and!; [done|done|..]); try lia; try nia.
  - apply div_up_nonneg; nia.
  - apply div_up_le; nia.
  - apply div_up_nonneg; nia.
  - apply div_up_le; nia.
Qed.

(** The exchange is fair to both orders, up to the rounding of one unit against the smaller
    one, and what the smaller order has left would buy nothing at the price of the match. *)
Lemma match_amounts_prices mt t m tr mr cull :
  order_ok t → order_ok m → crosses t m → HARDFORK_CORE_342_TIME < mt →
  match_amounts mt (amount_for_sale t) (amount_for_sale m) (lo_sell_price m) = Ok (Some (tr, mr, cull)) →
  let TB := amount (base (lo_sell_price t)) in let TQ := amount (quote (lo_sell_price t)) in
  let MB := amount (base (lo_sell_price m)) in let MQ := amount (quote (lo_sell_price m)) in
  if cull then
    amount tr * MQ ≤ amount mr * MB ∧ (amount mr - 1) * TQ < amount tr * TB ∧
    (lo_for_sale t - amount mr) * MB < MQ
  else
    amount mr * TQ ≤ amount tr * TB ∧ (amount tr - 1) * MQ < amount mr * MB ∧
    (lo_for_sale m - amount tr) * MQ < MB.
Proof.
  intros Ht Hm Hx Hmt H1. pose proof (crosses_cross _ _ Ht Hm Hx) as Hc.
  pose proof (oo_price _ Hm) as (? & ? & HB & HQ & ?). pose proof (oo_price _ Ht) as (? & ? & HTB & HTQ & ?).
  apply match_amounts_cases in H1; [|done|done|apply Hx]. cbv zeta in *.
  set (B := amount (base (lo_sell_price m))) in *. set (Q := amount (quote (lo_sell_price m))) in *.
  pose proof (div_down_spec (lo_for_sale t * B) Q HQ) as D1.
  pose proof (div_down_spec (lo_for_sale m * Q) B HB) as D2.
  set (x := lo_for_sale t * B / Q) in *. set (y := lo_for_sale m * Q / B) in *.
  destruct H1 as [[Hle [[? _]|[[? E]|(_ & ? & E)]]]|[Hlt [[? E]|[_ E]]]]; [done|lia| |lia|]; injection E as -> -> ->; simpl.
  - pose proof (div_up_spec (x * Q) B HB) as D. set (z := div_up (x * Q) B) in *.
    split_and!; [lia| |nia]. apply Z.mul_lt_mono_pos_r with Q; [done|]. nia.
  - pose proof (div_up_spec (y * B) Q HQ) as D. set (z := div_up (y * B) Q) in *.
    assert (0 ≤ y) by (apply Z.div_pos; pose proof (oo_for_sale _ Hm); nia).
    split_and!; [|lia|nia]. apply Z.mul_le_mono_pos_r with Q; [done|]. nia.
Qed.

(** ** The match *)

Lemma order_reduced_ne id o pays cull t t' filled j :
  order_reduced id o pays cull t t' filled → j ≠ id → rows t' !! j = rows t !! j.
Proof.
  intros Hr Hne. destruct filled; [destruct Hr as [-> _]|destruct Hr as (o' & _ & _ & -> & _)]; simpl.
  - by rewrite lookup_delete_ne.
  - by rewrite lookup_insert_ne.
Qed.

Lemma opposite_ne t m taker maker T :
  order_ok t → opposite t m → rows T !! taker = Some t → rows T !! maker = Some m → taker ≠ maker.
Proof.
  intros Ht [E1 E2] Ht' Hm' ->. simplify_eq. destruct (oo_price _ Ht) as (_ & _ & _ & _ & Hne).
  unfold receive_asset_id, sell_asset_id in *. congruence.
Qed.

Section matching.
Context `{FeeSchedule}.
Variable push : virtual_operation → database → result (database * Z).

(** A match does nothing because the taker would get nothing, or it reduces both orders by
    what they pay. *)
Inductive match_effect (mt head_time : Z) (taker maker : Z) (t m : limit_order_object)
    (T T' : table limit_order_object) : match_result_type → Prop :=
  | match_nothing :
      T' = T → lo_for_sale t * amount (base (lo_sell_price m)) / amount (quote (lo_sell_price m)) = 0 →
      match_effect mt head_time taker maker t m T T' only_taker_filled
  | match_exchange tr mr cull T1 tf mf :
      match_amounts mt (amount_for_sale t) (amount_for_sale m) (lo_sell_price m) = Ok (Some (tr, mr, cull)) →
      order_reduced taker t (amount mr) (cull || (head_time <? HARDFORK_555_TIME)) T T1 tf →
      order_reduced maker m (amount tr) true T1 T' mf →
      get_match_result tf mf ≠ none_filled →
      match_effect mt head_time taker maker t m T T' (get_match_result tf mf).

(** The two fills of a match. *)
Lemma exchange_fills taker maker t m tr mr cull d d1 d2 tf mf :
  books_ok d → rows (limit_orders d) !! taker = Some t → rows (limit_orders d) !! maker = Some m →
  opposite t m →
  match_amounts (next_maintenance_time d) (amount_for_sale t) (amount_for_sale m) (lo_sell_price m)
    = Ok (Some (tr, mr, cull)) →
  fill_limit_order push taker mr tr cull false d = Ok (d1, tf) →
  fill_limit_order push maker tr mr true true d1 = Ok (d2, mf) →
  conserves d d2 ∧ market_frame d d2 ∧
  order_reduced taker t (amount mr) (cull || (head_block_time d <? HARDFORK_555_TIME))
    (limit_orders d) (limit_orders d1) tf ∧
  order_reduced maker m (amount tr) true (limit_orders d1) (limit_orders d2) mf.
Proof.
  intros Hok Ht Hm Ho Ha H1 H2.
  pose proof (ok_orders _ Hok _ _ Ht) as Kt. pose proof (ok_orders _ Hok _ _ Hm) as Km.
  destruct (match_amounts_bounds _ _ _ _ _ _ Kt Km Ho Ha) as (Ei1 & Ei2 & B1 & B2).
  eapply fill_limit_order_spec in H1 as (M1 & F1 & R1); [|done|exact Ht|done].
  eapply fill_limit_order_spec with (o := m) in H2 as (M2 & F2 & R2);
    [|by apply M1| |done].
  - split_and!; [|by etrans|done|done].
    eapply moves_ext; [by eapply moves_trans|]. intros a. simpl. lia.
  - rewrite (order_reduced_ne _ _ _ _ _ _ _ maker R1); [done|].
    apply not_eq_sym. exact (opposite_ne t m _ _ _ Kt Ho Ht Hm).
Qed.

Lemma match_limit_normal_limit_spec taker maker t m d d' r :
  books_ok d → rows (limit_orders d) !! taker = Some t → rows (limit_orders d) !! maker = Some m →
  opposite t m → match_limit_normal_limit push taker maker (lo_sell_price m) d = Ok (d', r) →
  conserves d d' ∧ market_frame d d' ∧
  match_effect (next_maintenance_time d) (head_block_time d) taker maker t m
    (limit_orders d) (limit_orders d') r.
Proof.
  intros Hok Ht Hm Ho H1. unfold match_limit_normal_limit, get_limit_order in H1.
  apply bind_Ok in H1 as (t1 & Ht1%tbl_get_Ok & H1). apply bind_Ok in H1 as (m1 & Hm1%tbl_get_Ok & H1).
  simplify_eq. apply bind_Ok in H1 as (res & Ha & H1).
  pose proof (ok_orders _ Hok _ _ Ht) as Kt. pose proof (ok_orders _ Hok _ _ Hm) as Km.
  destruct res as [[[tr mr] cull]|].
  - apply bind_Ok in H1 as ([] & _ & H1). apply bind_Ok in H1 as ([d1 tf] & Hf1 & H1).
    apply bind_Ok in H1 as ([d2 mf] & Hf2 & H1).
    destruct (exchange_fills _ _ _ _ _ _ _ _ _ _ _ _ Hok Ht Hm Ho Ha Hf1 Hf2) as (M & F & R1 & R2).
    assert (d' = d2 ∧ r = get_match_result tf mf ∧ get_match_result tf mf ≠ none_filled) as (-> & -> & Hn)
      by (destruct tf, mf; simpl in *; by inv_ok).
    split_and!; [done|done|]. by econstructor.
  - injection H1 as <- <-. split_and!; [reflexivity|reflexivity|]. constructor; [done|].
    apply match_amounts_cases in Ha; [|done..]. cbv zeta in Ha. naive_solver.
Qed.

(** An order whose rest would buy nothing at the price of the match is culled. *)
Lemma worthless_rest o pays o' r num den :
  order_ok o → 0 ≤ pays < lo_for_sale o → lo_partially_filled o pays None = Ok o' →
  0 < num → 0 < den → (lo_for_sale o - pays) * num < den →
  amount (quote (lo_sell_price o)) * den ≤ num * amount (base (lo_sell_price o)) →
  amount_to_receive o' = Ok r → amount r = 0.
Proof.
  intros Ho Hp Ho' Hn Hd Hw Hx Hr. pose proof (partially_filled_ok _ _ _ Ho Hp Ho') as Hok'.
  unfold lo_partially_filled in Ho'. inv_ok. inv_share. subst. unfold amount_to_receive in Hr.
  apply mul_price_base in Hr; [|apply Hok'|by apply for_sale_wf|done]. subst r. simpl.
  destruct (oo_price _ Ho) as (_ & _ & HB & HQ & _).
  apply Z.div_small. split; [nia|]. apply Z.mul_lt_mono_pos_r with num; [done|].
  apply (Z.mul_lt_mono_pos_r (amount (quote (lo_sell_price o)))) in Hw; [lia|done].
Qed.

(** After a match of crossing orders the smaller one is gone, so "result != none_filled" holds. *)
Lemma exchange_fills_one mt head_time taker maker t m tr mr cull T T1 T2 tf mf :
  order_ok t → order_ok m → crosses t m → HARDFORK_CORE_342_TIME < mt →
  match_amounts mt (amount_for_sale t) (amount_for_sale m) (lo_sell_price m) = Ok (Some (tr, mr, cull)) →
  order_reduced taker t (amount mr) (cull || (head_time <? HARDFORK_555_TIME)) T T1 tf →
  order_reduced maker m (amount tr) true T1 T2 mf →
  if cull then tf = true else mf = true.
Proof.
  intros Ht Hm Hx Hmt Ha R1 R2. pose proof (crosses_cross _ _ Ht Hm Hx) as Hc.
  destruct (match_amounts_bounds _ _ _ _ _ _ Ht Hm (proj1 Hx) Ha) as (_ & _ & B1 & B2).
  pose proof (match_amounts_prices _ _ _ _ _ _ Ht Hm Hx Hmt Ha) as Hp. cbv zeta in Hp.
  pose proof (oo_price _ Hm) as (_ & _ & HB & HQ & _).
  destruct cull; destruct Hp as (_ & _ & Hw).
  - destruct tf; [done|]. exfalso. destruct R1 as (o' & Ho' & Hlt & _ & Hr).
    destruct (Hr eq_refl) as (r & Er & Hne). apply Hne.
    eapply (worthless_rest t); [done| |done|exact HB|exact HQ|done| |done]; lia.
  - destruct mf; [done|]. exfalso. destruct R2 as (o' & Ho' & Hlt & _ & Hr).
    destruct (Hr eq_refl) as (r & Er & Hne). apply Hne.
    eapply (worthless_rest m); [done| |done|exact HQ|exact HB|done| |done]; lia.
Qed.
End matching.
