(* ===== verification/OrderBook.v ===== *)
(** * The order book

    The index [by_price] as a sorted sequence of orders, the loop of [apply_order] over it, and
    the property the matching engine is for: afterwards no two orders cross. *)
From stdpp Require Import sorting.
From S2P Require Import Prelude MachineInt Hardfork Asset PriceRatio Vesting ChainState Ledger CreditBooks Balance Fees Evaluator LimitOrder MarketBooks MarketMatching.

Notation order_entry := (Z * limit_order_object)%type (only parsing).

(** ** The order of the index *)

Definition entry_wf (x : order_entry) : Prop := price_wf (lo_sell_price x.2).

Definition at_or_before (x y : order_entry) : Prop := Is_true (by_price x y).

Lemma at_or_before_spec x y :
  at_or_before x y ↔
    price_ltb (lo_sell_price y.2) (lo_sell_price x.2) = true ∨
    (price_ltb (lo_sell_price x.2) (lo_sell_price y.2) = false ∧ x.1 ≤ y.1).
Proof.
  unfold at_or_before, by_price. rewrite Is_true_true, orb_true_iff, andb_true_iff, negb_true_iff, Z.leb_le. done.
Qed.

(** The price of an earlier entry is at least as good. *)
Lemma at_or_before_price x y :
  entry_wf x → entry_wf y → at_or_before x y →
  price_ltb (lo_sell_price x.2) (lo_sell_price y.2) = false.
Proof. intros Hx Hy [H1|[H1 _]]%at_or_before_spec; [by apply price_ltb_asym|done]. Qed.

#[global] Instance at_or_before_total : Total at_or_before.
Proof.
  intros x y. rewrite !at_or_before_spec.
  destruct (price_ltb (lo_sell_price y.2) (lo_sell_price x.2)) eqn:E1; [by left; left|].
  destruct (price_ltb (lo_sell_price x.2) (lo_sell_price y.2)) eqn:E2; [by right; left|].
  destruct (Z.le_ge_cases x.1 y.1); [left|right]; by right.
Qed.

Lemma at_or_before_trans x y z :
  entry_wf x → entry_wf y → entry_wf z → at_or_before x y → at_or_before y z → at_or_before x z.
Proof.
  intros Hx Hy Hz H1 H2. pose proof (at_or_before_price _ _ Hx Hy H1) as P1.
  pose proof (at_or_before_price _ _ Hy Hz H2) as P2.
  pose proof (price_ge_trans _ _ _ Hx Hy Hz P1 P2) as P3.
  rewrite at_or_before_spec in *.
  destruct (price_ltb (lo_sell_price z.2) (lo_sell_price x.2)) eqn:E; [by left|right].
  split; [done|]. destruct H1 as [H1|[_ L1]], H2 as [H2|[_ L2]]; [..|lia]; exfalso.
  - rewrite (price_ltb_trans _ _ _ Hz Hy Hx H2 H1) in E. done.
  - rewrite (price_ge_trans _ _ _ Hy Hz Hx P2 E) in H1. done.
  - rewrite (price_ge_trans _ _ _ Hz Hx Hy E P1) in H2. done.
Qed.

Lemma at_or_before_antisym x y :
  entry_wf x → entry_wf y → at_or_before x y → at_or_before y x → x.1 = y.1.
Proof.
  intros Hx Hy H1 H2. pose proof (at_or_before_price _ _ Hx Hy H1) as P1.
  pose proof (at_or_before_price _ _ Hy Hx H2) as P2. rewrite at_or_before_spec in *. intuition (congruence || lia).
Qed.

(** [at_or_before] looks only at prices and ids. *)
Lemma at_or_before_proper x y x' y' :
  x.1 = x'.1 → y.1 = y'.1 → lo_sell_price x.2 = lo_sell_price x'.2 →
  lo_sell_price y.2 = lo_sell_price y'.2 → at_or_before x y → at_or_before x' y'.
Proof. rewrite !at_or_before_spec. by intros -> -> -> ->. Qed.

(** ** The index *)

Lemma sorted_strongly {A} (R : relation A) (l : list A) :
  (∀ x y z, x ∈ l → y ∈ l → z ∈ l → R x y → R y z → R x z) → Sorted R l → StronglySorted R l.
Proof.
  induction l as [|x l IH]; intros Ht Hs; [constructor|]. inversion_clear Hs as [|? ? Hs' Hd].
  assert (StronglySorted R l) as Hl by (apply IH; [intros; eapply Ht; set_solver|done]).
  constructor; [done|]. destruct l as [|y l]; [done|]. inversion_clear Hd. constructor; [done|].
  apply StronglySorted_cons in Hl as [Hl _]. rewrite Forall_forall in *. intros z Hz.
  apply (Ht x y z); [set_solver..|done|auto].
Qed.

Lemma after_id_split k ok l1 l2 : k ∉ l1.*1 → after_id k (l1 ++ (k, ok) :: l2) = fst <$> head l2.
Proof.
  induction l1 as [|x l1 IH]; simpl; intros Hn; [by rewrite Z.eqb_refl|].
  destruct (Z.eqb_spec x.1 k); [set_solver|]. apply IH. set_solver.
Qed.

Lemma before_id_split k ok l1 l2 prev :
  k ∉ l1.*1 → before_id k prev (l1 ++ (k, ok) :: l2) = match last l1 with Some x => Some x | None => prev end.
Proof.
  revert prev. induction l1 as [|x l1 IH]; simpl; intros prev Hn; [by rewrite Z.eqb_refl|].
  destruct (Z.eqb_spec x.1 k); [set_solver|]. rewrite IH by set_solver. destruct l1 as [|y l1]; [done|].
  change (last (x :: y :: l1)) with (last (y :: l1)). destruct (last (y :: l1)) eqn:E; [done|].
  by apply last_None in E.
Qed.

Section index.
Variables (d : database) (Hok : rows_ok order_ok (limit_orders d)).

Lemma idx_elem x : x ∈ limit_price_idx d ↔ rows (limit_orders d) !! x.1 = Some x.2.
Proof using.
  unfold limit_price_idx. rewrite merge_sort_Permutation. destruct x. apply elem_of_map_to_list.
Qed.

Lemma idx_wf x : x ∈ limit_price_idx d → entry_wf x.
Proof using Hok. intros Hx%idx_elem. by apply Hok in Hx as [? _ _ _ _ _ _]. Qed.

Lemma idx_sorted : StronglySorted at_or_before (limit_price_idx d).
Proof using Hok.
  apply sorted_strongly.
  - intros x y z Hx%idx_wf Hy%idx_wf Hz%idx_wf. by apply at_or_before_trans.
  - apply (Sorted_merge_sort at_or_before).
Qed.

Lemma idx_nodup : NoDup (limit_price_idx d).*1.
Proof using. unfold limit_price_idx. rewrite merge_sort_Permutation. apply NoDup_fst_map_to_list. Qed.
Lemma idx_split k ok :
  rows (limit_orders d) !! k = Some ok →
  ∃ l1 l2, limit_price_idx d = l1 ++ (k, ok) :: l2 ∧ k ∉ l1.*1 ∧ k ∉ l2.*1.
Proof using Hok.
  intros Hk. assert ((k, ok) ∈ limit_price_idx d) as (l1 & l2 & E)%list_elem_of_split by by apply idx_elem.
  exists l1, l2. split; [done|]. pose proof idx_nodup as Hn. rewrite E, fmap_app in Hn. simpl in Hn.
  apply NoDup_app in Hn as (_ & Hd & Hn). apply NoDup_cons in Hn as [Hn _].
  split; [|done]. intros Hin. apply (Hd k Hin). set_solver.
Qed.

(** [++itr]: the next entry is before everything else behind [k]. *)
Lemma next_order_spec k ok y :
  rows (limit_orders d) !! k = Some ok → y ∈ limit_price_idx d → y.1 ≠ k → at_or_before (k, ok) y →
  ∃ k' ok', next_order d k = Some k' ∧ k' ≠ k ∧ rows (limit_orders d) !! k' = Some ok' ∧
    at_or_before (k', ok') y.
Proof using Hok.
  intros Hk Hy Hne Hky. destruct (idx_split _ _ Hk) as (l1 & l2 & E & Hn1 & Hn2).
  pose proof idx_sorted as Hs. unfold next_order. rewrite E in *. rewrite after_id_split by done.
  apply elem_of_app in Hy as [Hy|[->|Hy]%elem_of_cons]; [|done|].
  - exfalso. apply Hne. symmetry. eapply (at_or_before_antisym (k, ok) y); [..|done|].
    + apply idx_wf. rewrite E. set_solver.
    + apply idx_wf. rewrite E. set_solver.
    + eapply StronglySorted_app_1_elem_of; [done..|set_solver].
  - destruct l2 as [|[k' ok'] l2]; [by apply elem_of_nil in Hy|]. exists k', ok'.
    split_and!; [done|set_solver|apply (idx_elem (k', ok')); rewrite E; set_solver|].
    apply StronglySorted_app_1_r, StronglySorted_cons in Hs as [_ Hs].
    apply StronglySorted_cons in Hs as [Hf _]. rewrite Forall_forall in Hf.
    apply elem_of_cons in Hy as [->|Hy]; [|auto]. by destruct (at_or_before_total (k', ok') (k', ok')).
Qed.

(** [--itr] reaches an entry before [k]. *)
Lemma prev_order_spec k ok x :
  rows (limit_orders d) !! k = Some ok → prev_order d k = Some x →
  rows (limit_orders d) !! x.1 = Some x.2 ∧ x.1 ≠ k ∧ at_or_before x (k, ok).
Proof using Hok.
  intros Hk Hp. destruct (idx_split _ _ Hk) as (l1 & l2 & E & Hn1 & Hn2).
  pose proof idx_sorted as Hs. unfold prev_order in Hp. rewrite E in *.
  rewrite before_id_split in Hp by done. destruct (last l1) as [x'|] eqn:El; [|done]. injection Hp as ->.
  apply last_Some_elem_of in El as Hx. split_and!.
  - apply idx_elem. rewrite E. set_solver.
  - intros <-. apply Hn1. set_solver.
  - eapply StronglySorted_app_1_elem_of; [done..|set_solver].
Qed.

(** The first entry with a property comes before all others that have it. *)
Lemma first_such_spec p y :
  y ∈ limit_price_idx d → p y.2 = true →
  ∃ k ok, first_such p (limit_price_idx d) = Some k ∧ rows (limit_orders d) !! k = Some ok ∧
    p ok = true ∧ at_or_before (k, ok) y.
Proof using Hok.
  intros Hy Hp. unfold first_such. pose proof idx_sorted as Hs.
  destruct (list_find _ (limit_price_idx d)) as [[i [k ok]]|] eqn:E.
  - apply list_find_Some in E as (Hi & Hpk & Hmin). simpl in Hpk. exists k, ok.
    split_and!; [done|apply (idx_elem (k, ok)); by apply list_elem_of_lookup_2 in Hi|by apply Is_true_true|].
    apply list_elem_of_lookup in Hy as [j Hj]. destruct (decide (j < i)%nat) as [Hlt|Hge].
    { exfalso. apply (Hmin j y Hj Hlt). by apply Is_true_true. }
    destruct (decide (j = i)) as [->|]; [simplify_eq; by destruct (at_or_before_total (k, ok) (k, ok))|].
    rewrite <- (take_drop_middle _ _ _ Hi) in Hs, Hj.
    apply StronglySorted_app_1_r, StronglySorted_cons in Hs as [Hf _]. rewrite Forall_forall in Hf. apply Hf.
    rewrite lookup_app_r in Hj by (rewrite length_take; lia). rewrite length_take in Hj.
    pose proof (lookup_lt_Some _ _ _ Hi). rewrite Nat.min_l in Hj by lia.
    destruct (j - i)%nat eqn:Eji; [lia|]. simpl in Hj. by apply list_elem_of_lookup_2 in Hj.
  - exfalso. apply list_find_None in E. rewrite Forall_forall in E. apply (E y Hy). by apply Is_true_true.
Qed.
End index.

(** ** Crossing orders *)

Lemma crosses_iff t m :
  price_wf (lo_sell_price t) → price_wf (lo_sell_price m) →
  crosses t m ↔ opposite t m ∧
    amount (quote (lo_sell_price t)) * amount (quote (lo_sell_price m))
      ≤ amount (base (lo_sell_price m)) * amount (base (lo_sell_price t)).
Proof.
  intros Ht Hm. pose proof (price_flip_wf _ Ht) as Hf.
  assert (opposite t m → price_ltb (lo_sell_price m) (price_flip (lo_sell_price t)) = false ↔
    amount (quote (lo_sell_price t)) * amount (quote (lo_sell_price m))
      ≤ amount (base (lo_sell_price m)) * amount (base (lo_sell_price t))) as Hc; [|unfold crosses; tauto].
  intros [E1 E2]. unfold receive_asset_id, sell_asset_id in *.
  rewrite price_ltb_cross by done. simpl. rewrite Z.ltb_ge. lia.
Qed.

Lemma crosses_sym t m :
  price_wf (lo_sell_price t) → price_wf (lo_sell_price m) → crosses t m → crosses m t.
Proof.
  intros Ht Hm. rewrite !crosses_iff by done. intros [[E1 E2] Hx]. split; [by split|lia].
Qed.

Lemma crosses_irrefl o : price_wf (lo_sell_price o) → ¬ crosses o o.
Proof.
  intros (_ & _ & _ & _ & Hne) [[E _] _]. unfold receive_asset_id, sell_asset_id in E. congruence.
Qed.

(** Crossing looks only at prices. *)
Lemma crosses_proper t m t' m' :
  lo_sell_price t = lo_sell_price t' → lo_sell_price m = lo_sell_price m' → crosses t m → crosses t' m'.
Proof. unfold crosses, opposite, receive_asset_id, sell_asset_id. by intros -> ->. Qed.

(** An order behind another of the same side crosses nothing the other does not. *)
Lemma crosses_behind t t' m :
  price_wf (lo_sell_price t) → price_wf (lo_sell_price t') → price_wf (lo_sell_price m) →
  sell_asset_id t' = sell_asset_id t → receive_asset_id t' = receive_asset_id t →
  price_ltb (lo_sell_price t') (lo_sell_price t) = false → crosses t m → crosses t' m.
Proof.
  intros Ht Ht' Hm Es Er Hlt [[E1 E2] Hx]. split; [split; congruence|].
  unfold sell_asset_id, receive_asset_id in *.
  eapply price_ge_trans; [done|apply price_flip_wf, Ht|by apply price_flip_wf|done|].
  pose proof (price_flip_wf _ Ht). pose proof (price_flip_wf _ Ht').
  rewrite price_ltb_cross in Hlt |- * by done. simpl. propify. apply Z.ltb_ge. lia.
Qed.

Definition uncrossed (d : database) : Prop :=
  ∀ i j x y, rows (limit_orders d) !! i = Some x → rows (limit_orders d) !! j = Some y → ¬ crosses x y.

(** No two orders other than [id] cross. *)
Definition uncrossed_but (id : Z) (d : database) : Prop :=
  ∀ i j x y, i ≠ id → j ≠ id →
    rows (limit_orders d) !! i = Some x → rows (limit_orders d) !! j = Some y → ¬ crosses x y.

(** The base amounts of all prices are amounts that can exist. *)
Definition book_bounded (d : database) : Prop :=
  rows_ok (λ o, amount (base (lo_sell_price o)) ≤ GRAPHENE_MAX_SHARE_SUPPLY) (limit_orders d).

(** The orders of [d] are among those of [d0], at the same prices. *)
Definition subbook (d0 d : database) : Prop :=
  ∀ j o, rows (limit_orders d) !! j = Some o →
    ∃ o0, rows (limit_orders d0) !! j = Some o0 ∧ lo_sell_price o = lo_sell_price o0.

#[global] Instance subbook_preorder : PreOrder subbook.
Proof.
  split; [intros d j o; eauto|]. intros d1 d2 d3 H1 H2 j o Ho.
  apply H2 in Ho as (o2 & Ho2 & E2). apply H1 in Ho2 as (o1 & Ho1 & E1). exists o1. split; congruence.
Qed.

(** ** One match *)

Lemma partially_filled_price o pays l o' :
  lo_partially_filled o pays l = Ok o' → lo_sell_price o' = lo_sell_price o.
Proof. unfold lo_partially_filled. intros. by inv_ok. Qed.

Lemma order_reduced_subbook id o pays cull t t' filled j x :
  rows t !! id = Some o → order_reduced id o pays cull t t' filled → rows t' !! j = Some x →
  ∃ x0, rows t !! j = Some x0 ∧ lo_sell_price x = lo_sell_price x0.
Proof.
  intros Ho Hr Hx. destruct (decide (j = id)) as [->|Hne].
  - destruct filled; [destruct Hr as [-> _]|destruct Hr as (o' & Hp & _ & -> & _)]; simpl in Hx.
    + by rewrite lookup_delete_eq in Hx.
    + rewrite lookup_insert_eq in Hx. simplify_eq. exists o. split; [done|by eapply partially_filled_price].
  - rewrite (order_reduced_ne _ _ _ _ _ _ _ _ Hr Hne) in Hx. eauto.
Qed.

Section matching_loop.
Context `{FeeSchedule}.
Variable push : virtual_operation → database → result (database * Z).

(** The effect of a match on the book, for each result that the loop distinguishes. *)
Lemma match_orders_book taker maker t m d d' r :
  books_ok d → rows (limit_orders d) !! taker = Some t → rows (limit_orders d) !! maker = Some m →
  match_orders push taker maker (lo_sell_price m) d = Ok (d', r) →
  conserves d d' ∧ market_frame d d' ∧ subbook d d' ∧ taker ≠ maker ∧ opposite t m ∧
  match r with
  | only_maker_filled =>
    rows (limit_orders d') !! maker = None ∧
    (∃ t', rows (limit_orders d') !! taker = Some t' ∧ lo_sell_price t' = lo_sell_price t) ∧
    (∀ j, j ≠ taker → j ≠ maker → rows (limit_orders d') !! j = rows (limit_orders d) !! j)
  | _ => rows (limit_orders d') !! taker = None ∨
    (limit_orders d' = limit_orders d ∧
     lo_for_sale t * amount (base (lo_sell_price m)) / amount (quote (lo_sell_price m)) = 0)
  end.
Proof.
  intros Hok Ht Hm H1. unfold match_orders, get_limit_order in H1.
  apply bind_Ok in H1 as (t1 & Ht1%tbl_get_Ok & H1). apply bind_Ok in H1 as (m1 & Hm1%tbl_get_Ok & H1).
  simplify_eq. apply bind_Ok in H1 as ([] & E1%FC_ASSERT_Ok & H1). apply bind_Ok in H1 as ([] & E2%FC_ASSERT_Ok & H1).
  apply bind_Ok in H1 as ([] & _ & H1). propify. assert (opposite t m) as Ho by done.
  pose proof (ok_orders _ Hok _ _ Ht) as Kt. pose proof (opposite_ne _ _ _ _ _ Kt Ho Ht Hm) as Hne.
  eapply match_limit_normal_limit_spec in H1 as (M & F & E); [|done..]. split_and!; [done..| |done|done|].
  - destruct E as [E _|tr mr cull T1 tf mf _ R1 R2 _]; intros j x Hx; [rewrite E in Hx; eauto|].
    eapply order_reduced_subbook in Hx as (x1 & Hx1 & P1); [| |exact R2].
    + eapply order_reduced_subbook in Hx1 as (x0 & Hx0 & P0); [|exact Ht|exact R1].
      exists x0. split; congruence.
    + by rewrite (order_reduced_ne _ _ _ _ _ _ _ maker R1).
  - destruct E as [E Hz|tr mr cull T1 tf mf _ R1 R2 Hn]; [by right|].
    assert (tf = true → rows (limit_orders d') !! taker = None) as Htf.
    { intros ->. rewrite (order_reduced_ne _ _ _ _ _ _ _ taker R2) by done. destruct R1 as [-> _].
      apply lookup_delete_eq. }
    pose proof (λ j, order_reduced_ne _ _ _ _ _ _ _ j R1) as Hrest.
    destruct tf, mf; simpl in *; [by left; auto..| |done].
    destruct R2 as [-> _]. simpl. split_and!; [apply lookup_delete_eq| |].
    + destruct R1 as (t' & Ht' & _ & -> & _). exists t'. simpl.
      rewrite lookup_delete_ne, lookup_insert_eq by done. split; [done|by eapply partially_filled_price].
    + intros j Hj1 Hj2. rewrite lookup_delete_ne by done. by apply Hrest.
Qed.
(** ** The loop *)

Section loop.
Variables (d0 : database) (taker : Z) (t0 : limit_order_object).
Hypothesis Hok0 : books_ok d0.
Hypothesis Ht0 : rows (limit_orders d0) !! taker = Some t0.

Let max_price := price_flip (lo_sell_price t0).
Let limit_end := upper_bound d0 max_price.

(** [y] is not before the iterator. *)
Definition ahead (itr : option Z) (d : database) (y : order_entry) : Prop :=
  ∃ k ok, itr = Some k ∧ rows (limit_orders d) !! k = Some ok ∧ at_or_before (k, ok) y.

(** What holds between two rounds: the taker is still there; the orders it crosses are ahead;
    the iterator has not passed [limit_end], behind which are the orders with a worse price. *)
Record loop_inv (s : option Z * database) : Prop := {
  li_ok : books_ok s.2;
  li_conserves : conserves d0 s.2;
  li_frame : market_frame d0 s.2;
  li_sub : subbook d0 s.2;
  li_taker : ∃ t, rows (limit_orders s.2) !! taker = Some t ∧ lo_sell_price t = lo_sell_price t0;
  li_ahead j o : rows (limit_orders s.2) !! j = Some o → crosses t0 o → ahead s.1 s.2 (j, o);
  li_end e : limit_end = Some e → ∃ oe, rows (limit_orders s.2) !! e = Some oe ∧
    price_ltb (lo_sell_price oe) max_price = true ∧ ahead s.1 s.2 (e, oe);
  li_behind j o : rows (limit_orders s.2) !! j = Some o → price_ltb (lo_sell_price o) max_price = true →
    ahead limit_end s.2 (j, o) }.

(** What holds when the loop has come to its end. *)
Record loop_done (s : option Z * database) : Prop := {
  ld_ok : books_ok s.2;
  ld_conserves : conserves d0 s.2;
  ld_frame : market_frame d0 s.2;
  ld_sub : subbook d0 s.2;
  ld_taker t : rows (limit_orders s.2) !! taker = Some t →
    (∀ j o, rows (limit_orders s.2) !! j = Some o → ¬ crosses t o) ∨
    (∀ r, amount_to_receive t = Ok r → amount r = 0) }.

Lemma wf0 j o : rows (limit_orders d0) !! j = Some o → price_wf (lo_sell_price o).
Proof using Hok0. intros Ho. by apply (ok_orders _ Hok0) in Ho as [? _ _ _ _ _ _]. Qed.

Lemma max_price_wf : price_wf max_price.
Proof using Hok0 Ht0. apply price_flip_wf. by eapply wf0. Qed.

Lemma loop_inv_start :
  book_bounded d0 → ∀ top, price_max (asset_id (base max_price)) (asset_id (quote max_price)) = Ok top →
  loop_inv (lower_bound d0 top, d0).
Proof using Hok0 Ht0.
  intros Hb top Htop. unfold price_max, make_price in Htop. inv_ok.
  set (top := Price _ _). pose proof max_price_wf as Hmax. pose proof Hmax as (_ & _ & ? & ? & ?).
  assert (price_wf top) as Wtop.
  { unfold top, price_wf, is_share, INT64_MIN, INT64_MAX, GRAPHENE_MAX_SHARE_SUPPLY. simpl. split_and!; try lia. }
  assert (∀ j o, rows (limit_orders d0) !! j = Some o →
    asset_id (base (lo_sell_price o)) = asset_id (base top) →
    asset_id (quote (lo_sell_price o)) = asset_id (quote top) →
    price_ltb top (lo_sell_price o) = false) as Hle.
  { intros j o Ho E1 E2. pose proof (Hb _ _ Ho) as Hbo. pose proof (wf0 _ _ Ho) as Wo.
    rewrite price_ltb_cross by done. apply Z.ltb_ge. destruct Wo as (_ & _ & ? & ? & _).
    unfold top. simpl. unfold GRAPHENE_MAX_SHARE_SUPPLY in *. nia. }
  assert (∀ y, y ∈ limit_price_idx d0 → price_ltb top (lo_sell_price y.2) = false →
    ahead (lower_bound d0 top) d0 y) as Hahead.
  { intros y Hy Hlt. destruct (first_such_spec d0 (ok_orders _ Hok0)
      (λ o, negb (price_ltb top (lo_sell_price o))) y Hy) as (k & ok & E & Hk & _ & Hbef); [by rewrite Hlt|].
    by exists k, ok. }
  split; simpl; try done || reflexivity.
  - by exists t0.
  - intros j o Ho [[E1 E2] _]. apply Hahead; [by apply idx_elem|]. by eapply Hle.
  - intros e He. unfold limit_end, upper_bound, first_such in He.
    apply fmap_Some in He as ([i [e' oe]] & (Hi & Hp & _)%list_find_Some & ->). simpl in *.
    apply list_elem_of_lookup_2 in Hi as Hin. exists oe. apply Is_true_true in Hp.
    assert (rows (limit_orders d0) !! e' = Some oe) as He by by apply (idx_elem d0 (e', oe)).
    split_and!; [done|done|]. apply Hahead; [done|]. simpl. pose proof (wf0 _ _ He) as We.
    destruct (decide (asset_id (base (lo_sell_price oe)) = asset_id (base top) ∧
      asset_id (quote (lo_sell_price oe)) = asset_id (quote top))) as [[? ?]|Hn]; [by eapply Hle|].
    destruct (price_ltb top (lo_sell_price oe)) eqn:E; [|done]. exfalso. apply Hn.
    rewrite !price_ltb_true in * by done. simpl in *. lia.
  - intros j o Ho Hlt. destruct (first_such_spec d0 (ok_orders _ Hok0)
      (λ o, price_ltb (lo_sell_price o) max_price) (j, o)) as (k & ok & E & Hk & _ & Hbef); [by apply idx_elem|done|].
    by exists k, ok.
Qed.
Lemma inv_wf s j o : loop_inv s → rows (limit_orders s.2) !! j = Some o → price_wf (lo_sell_price o).
Proof using. intros I Ho. by apply (ok_orders _ (li_ok _ I)) in Ho as [? _ _ _ _ _ _]. Qed.

(** At [limit_end] nothing the taker crosses is left. *)
Lemma loop_at_end d : loop_inv (limit_end, d) → loop_done (limit_end, d).
Proof using Hok0 Ht0.
  intros I. destruct (li_taker _ I) as (t & Ht & Et). split; try apply I. simpl in *.
  intros t1 Ht1. simplify_eq. left. intros j o Ho Hx.
  apply (crosses_proper _ _ t0 o) in Hx; [|done|done].
  destruct (li_ahead _ I j o Ho Hx) as (k & ok & E & Hk & Hbef). simpl in *.
  destruct (li_end _ I k E) as (oe & Hoe & Hlt & _). simpl in *. assert (oe = ok) as -> by congruence.
  pose proof (inv_wf _ _ _ I Hk) as Wk. pose proof (inv_wf _ _ _ I Ho) as Wo.
  pose proof (at_or_before_price (k, ok) (j, o) Wk Wo Hbef) as Hge. destruct Hx as [_ Hx].
  pose proof (price_ge_trans _ _ _ Wk Wo max_price_wf Hge Hx) as Hf. simpl in Hf. congruence.
Qed.

(** The entry under an iterator that has not reached [limit_end] is not worse than the taker's
    price. *)
Lemma loop_maker_price maker d m :
  loop_inv (Some maker, d) → Some maker ≠ limit_end → rows (limit_orders d) !! maker = Some m →
  price_ltb (lo_sell_price m) max_price = false.
Proof using.
  intros I Hne Hm. destruct (price_ltb (lo_sell_price m) max_price) eqn:E; [|done]. exfalso. apply Hne.
  destruct (li_behind _ I maker m Hm E) as (e & oe & Ee & Hoe & Hbef). simpl in *.
  destruct (li_end _ I e Ee) as (oe' & Hoe' & _ & k & ok & Ek & Hk & Hbef'). simpl in *.
  injection Ek as <-. assert (oe' = oe) as -> by congruence. assert (ok = m) as -> by congruence.
  rewrite Ee. f_equal. eapply (at_or_before_antisym (maker, m) (e, oe)); [..|done|done];
    by eapply (inv_wf _ _ _ I).
Qed.

(** A round that fills the maker only. *)
Lemma loop_round_on maker m d d' :
  loop_inv (Some maker, d) → Some maker ≠ limit_end → rows (limit_orders d) !! maker = Some m →
  match_orders push taker maker (lo_sell_price m) d = Ok (d', only_maker_filled) →
  loop_inv (next_order d maker, d').
Proof using.
  intros I Hne Hm H1. destruct (li_taker _ I) as (t & Ht & Et). simpl in Ht.
  destruct (match_orders_book _ _ _ _ _ _ _ (li_ok _ I) Ht Hm H1)
    as (M & F & S & Htm & Ho & Hgone & (t' & Ht' & Et') & Hrest).
  assert (∀ j o, rows (limit_orders d) !! j = Some o → j ≠ maker →
    ∃ o', rows (limit_orders d') !! j = Some o' ∧ lo_sell_price o' = lo_sell_price o) as Hkeep.
  { intros j o Hj Hjm. destruct (decide (j = taker)) as [->|]; [simplify_eq; by exists t'|].
    exists o. split; [|done]. by rewrite Hrest. }
  assert (∀ y, rows (limit_orders d) !! y.1 = Some y.2 → y.1 ≠ maker → ahead (Some maker) d y →
    ∀ o', lo_sell_price o' = lo_sell_price y.2 → ahead (next_order d maker) d' (y.1, o')) as Hnext.
  { intros y Hy Hym (k & ok & E & Hk & Hbef) o' Eo'. injection E as <-.
    destruct (next_order_spec d (ok_orders _ (li_ok _ I)) maker ok y) as (k' & ok' & En & Hk'k & Hk' & Hbef');
      [done|by apply idx_elem|done|done|].
    destruct (Hkeep _ _ Hk' Hk'k) as (o2 & Ho2 & E2). exists k', o2. split_and!; [done|done|].
    by eapply at_or_before_proper; [..|exact Hbef']. }
  split; simpl.
  - by apply M, I.
  - etrans; [apply I|done].
  - etrans; [apply I|done].
  - etrans; [apply I|done].
  - exists t'. split; [done|congruence].
  - intros j o Hj Hx. destruct (S _ _ Hj) as (o0 & Ho0 & Eo0). apply (Hnext (j, o0)); simpl; [done|congruence| |done].
    apply (li_ahead _ I); [done|]. by eapply crosses_proper; [..|exact Hx].
  - intros e He. destruct (li_end _ I e He) as (oe & Hoe & Hlt & Ha). simpl in *.
    assert (e ≠ maker) as Hem by (intros ->; by rewrite He in Hne).
    destruct (Hkeep _ _ Hoe Hem) as (oe' & Hoe' & Ee). exists oe'. rewrite Ee. split_and!; [done|done|].
    by apply (Hnext (e, oe)).
  - intros j o Hj Hlt. destruct (S _ _ Hj) as (o0 & Ho0 & Eo0). rewrite Eo0 in Hlt.
    destruct (li_behind _ I j o0 Ho0 Hlt) as (e & oe & Ee & Hoe & Hbef). simpl in *.
    assert (e ≠ maker) as Hem by (intros ->; by rewrite Ee in Hne).
    destruct (Hkeep _ _ Hoe Hem) as (oe' & Hoe' & Ee'). exists e, oe'. split_and!; [done|done|].
    by eapply at_or_before_proper; [..|exact Hbef].
Qed.

(** A round that ends the loop. *)
Lemma loop_round_off maker m d d' r :
  loop_inv (Some maker, d) → Some maker ≠ limit_end → rows (limit_orders d) !! maker = Some m →
  match_orders push taker maker (lo_sell_price m) d = Ok (d', r) → r ≠ only_maker_filled →
  loop_done (next_order d maker, d').
Proof using Hok0 Ht0.
  intros I Hne Hm H1 Hr. destruct (li_taker _ I) as (t & Ht & Et). simpl in Ht.
  destruct (match_orders_book _ _ _ _ _ _ _ (li_ok _ I) Ht Hm H1) as (M & F & S & Htm & Ho & He).
  assert (rows (limit_orders d') !! taker = None ∨
    (limit_orders d' = limit_orders d ∧
     lo_for_sale t * amount (base (lo_sell_price m)) / amount (quote (lo_sell_price m)) = 0)) as He' by by destruct r.
  clear He. split; simpl; [by apply M, I|etrans; [apply I|done]..|].
  intros t1 Ht1. right. intros rr Hrr. destruct He' as [E|[E Hz]]; [congruence|]. rewrite E in Ht1. simplify_eq.
  pose proof (ok_orders _ (li_ok _ I) _ _ Ht) as Kt. pose proof (ok_orders _ (li_ok _ I) _ _ Hm) as Km.
  assert (crosses t m) as Hx by (split; [done|]; rewrite Et; by eapply loop_maker_price).
  apply crosses_cross in Hx; [|done|done].
  apply mul_price_base in Hrr; [|apply Kt|by apply for_sale_wf|done]. subst rr. simpl.
  destruct (oo_price _ Kt) as (_ & _ & HB & HQ & _). destruct (oo_price _ Km) as (_ & _ & HMB & HMQ & _).
  pose proof (oo_for_sale _ Kt) as Hs. apply Z.div_small_iff in Hz; [|lia].
  apply Z.div_small. split; [nia|]. destruct Hz as [Hz|Hz]; [|nia].
  apply Z.mul_lt_mono_pos_r with (amount (quote (lo_sell_price m))); [done|]. nia.
Qed.

Lemma loop_round s s' c :
  loop_inv s → match_round push taker limit_end s = Ok (s', c) → if c then loop_inv s' else loop_done s'.
Proof using Hok0 Ht0.
  destruct s as [itr d]. intros I H1. unfold match_round in H1.
  destruct (bool_decide_reflect (itr = limit_end)) as [->|Hne]; [injection H1 as <- <-; by apply loop_at_end|].
  destruct itr as [maker|]; [|done]. apply bind_Ok in H1 as (m & Hm%tbl_get_Ok & H1).
  apply bind_Ok in H1 as ([d' r] & H1 & E). injection E as <- <-.
  destruct r; try (by eapply loop_round_off). by eapply loop_round_on.
Qed.
End loop.

(** The loop ends before its fuel does, whatever the number of orders below 2^64. *)
Lemma match_loop_spec d0 taker t0 d' :
  books_ok d0 → book_bounded d0 → rows (limit_orders d0) !! taker = Some t0 →
  ∀ top, price_max (asset_id (base (price_flip (lo_sell_price t0))))
           (asset_id (quote (price_flip (lo_sell_price t0)))) = Ok top →
  match_loop push taker (lower_bound d0 top) (upper_bound d0 (price_flip (lo_sell_price t0))) d0 = Ok d' →
  ∃ itr, loop_done d0 taker (itr, d').
Proof.
  intros Hok Hb Ht top Htop. unfold match_loop. generalize 64%nat as k. intros k H1.
  apply bind_Ok in H1 as ([[itr d1] c] & H1 & E).
  eapply (while_pow_ind _ (loop_inv d0 taker t0) (loop_done d0 taker)) in H1.
  - destruct c; [done|]. injection E as <-. eauto.
  - intros s s' I Hs. by apply (loop_round d0 taker t0 Hok Ht s s' true).
  - intros s s' I Hs. by apply (loop_round d0 taker t0 Hok Ht s s' false).
  - by apply loop_inv_start.
Qed.
(** ** Conservation of the loop and of [apply_order] *)

Definition market_kept (d0 d : database) : Prop :=
  books_ok d ∧ conserves d0 d ∧ market_frame d0 d ∧ subbook d0 d.

Lemma market_kept_refl d : books_ok d → market_kept d d.
Proof. intros Hok. split_and!; [done|reflexivity..]. Qed.

Lemma market_kept_trans d1 d2 d3 : market_kept d1 d2 → market_kept d2 d3 → market_kept d1 d3.
Proof. intros (_ & M1 & F1 & S1) (Hok & M2 & F2 & S2). split_and!; [done|by etrans..]. Qed.

Lemma match_round_taker taker e s s' c :
  match_round push taker e s = Ok (s', c) → s.1 ≠ e →
  ∃ maker m t d' r, s.1 = Some maker ∧ rows (limit_orders s.2) !! maker = Some m ∧
    rows (limit_orders s.2) !! taker = Some t ∧
    match_orders push taker maker (lo_sell_price m) s.2 = Ok (d', r) ∧ s'.2 = d' ∧
    (c = true ↔ r = only_maker_filled).
Proof.
  destruct s as [itr d]. simpl. intros H1 Hne. unfold match_round in H1. rewrite bool_decide_eq_false_2 in H1 by done.
  destruct itr as [maker|]; [|done]. apply bind_Ok in H1 as (m & Hm%tbl_get_Ok & H1).
  apply bind_Ok in H1 as ([d' r] & H1 & E). injection E as <- <-.
  assert (∃ t, rows (limit_orders d) !! taker = Some t) as [t Ht].
  { unfold match_orders in H1. apply bind_Ok in H1 as (t & Ht%tbl_get_Ok & _). eauto. }
  exists maker, m, t, d', r. split_and!; try done. by destruct r.
Qed.

Lemma match_round_keeps taker e s s' c :
  books_ok s.2 → match_round push taker e s = Ok (s', c) → market_kept s.2 s'.2.
Proof.
  intros Hok H1. destruct (decide (s.1 = e)) as [E|Hne].
  - unfold match_round in H1. destruct s as [itr d]. simpl in E. rewrite bool_decide_eq_true_2 in H1 by done.
    injection H1 as <- _. by apply market_kept_refl.
  - destruct (match_round_taker _ _ _ _ _ H1 Hne) as (maker & m & t & d' & r & _ & Hm & Ht & H2 & -> & _).
    destruct (match_orders_book _ _ _ _ _ _ _ Hok Ht Hm H2) as (M & F & S & _). split_and!; try done. by apply M.
Qed.

Lemma match_loop_keeps taker itr e d d' :
  books_ok d → match_loop push taker itr e d = Ok d' → market_kept d d'.
Proof.
  intros Hok. unfold match_loop. generalize 64%nat as k. intros k H1.
  apply bind_Ok in H1 as ([[itr' d1] c] & H1 & E). destruct c; [done|]. injection E as <-.
  apply (while_pow_ind _ (λ s, market_kept d s.2) (λ s, market_kept d s.2)) in H1; [done|..];
    [| |by apply market_kept_refl].
  all: intros s s' K Hs; eapply market_kept_trans; [exact K|]; eapply match_round_keeps; [exact (proj1 K)|exact Hs].
Qed.

Lemma cull_keeps id d d' gone :
  books_ok d → maybe_cull_small_order id d = Ok (d', gone) → market_kept d d'.
Proof.
  intros Hok H1. pose proof H1 as H2. unfold maybe_cull_small_order in H2.
  apply bind_Ok in H2 as (o & Ho%tbl_get_Ok & _).
  destruct (maybe_cull_spec _ _ _ _ o Ho (oo_unlinked _ (ok_orders _ Hok _ _ Ho)) H1) as (M & F & r & _ & Hg).
  split_and!; [by apply M|done|done|]. destruct gone; destruct Hg as [_ E]; [|subst; reflexivity].
  intros j x Hx. rewrite E in Hx. simpl in Hx. apply lookup_delete_Some in Hx as [_ Hx]. eauto.
Qed.

Lemma order_is_gone_keeps id d d' gone :
  books_ok d → order_is_gone id d = Ok (d', gone) → market_kept d d'.
Proof.
  intros Hok. unfold order_is_gone. case_bool_decide; intros H1; [by eapply cull_keeps|].
  injection H1 as <- <-. by apply market_kept_refl.
Qed.

Lemma apply_order_keeps id d d' gone :
  books_ok d → apply_order push id d = Ok (d', gone) → market_kept d d'.
Proof.
  intros Hok H1. unfold apply_order in H1. apply bind_Ok in H1 as (o & _ & H1). cbv zeta in H1.
  destruct (match prev_order d id with Some _ => _ | None => _ end);
    [|injection H1 as <- _; by apply market_kept_refl].
  apply bind_Ok in H1 as (top & _ & H1). apply bind_Ok in H1 as (d1 & K1%match_loop_keeps & H1); [|done].
  eapply market_kept_trans; [done|]. eapply order_is_gone_keeps; [exact (proj1 K1)|done].
Qed.

Lemma apply_order_old_keeps id d d' gone :
  books_ok d → apply_order_before_hardfork_625 push id d = Ok (d', gone) → market_kept d d'.
Proof.
  intros Hok H1. unfold apply_order_before_hardfork_625 in H1. apply bind_Ok in H1 as (o & _ & H1).
  do 3 apply bind_Ok in H1 as (? & _ & H1). cbv zeta in H1.
  apply bind_Ok in H1 as (top & _ & H1). apply bind_Ok in H1 as (d1 & K1%match_loop_keeps & H1); [|done].
  eapply market_kept_trans; [done|]. case_bool_decide.
  - destruct (_ <=? _); [injection H1 as <- _; exact (market_kept_refl _ (proj1 K1))|]. eapply cull_keeps; [exact (proj1 K1)|done].
  - injection H1 as <- _. exact (market_kept_refl _ (proj1 K1)).
Qed.

(** ** Termination *)

(** Matching terminates.  With fewer than 2^64 orders on the book the loop of [apply_order]
    never exhausts its fuel: every round that does not end it removes an order. *)
Theorem matching_terminates taker itr e d :
  books_ok d → Z.of_nat (size (rows (limit_orders d))) < 2 ^ 64 →
  ∀ s', while_pow (match_round push taker e) 64 (itr, d) ≠ Ok (s', true).
Proof.
  intros Hok Hsz s' H1.
  apply (while_pow_measure _ (λ s, books_ok s.2) (λ s, Z.of_nat (size (rows (limit_orders s.2))))) in H1
    as [_ Hle]; [simpl Z.of_nat in Hle; simpl in Hle; lia| |done].
  clear. intros s s' Hok H1. destruct (decide (s.1 = e)) as [E|Hne].
  { unfold match_round in H1. destruct s as [itr d]. simpl in E. by rewrite bool_decide_eq_true_2 in H1. }
  destruct (match_round_taker _ _ _ _ _ H1 Hne) as (maker & m & t & d' & r & _ & Hm & Ht & H2 & E & Hc).
  rewrite (proj1 Hc eq_refl) in H2.
  destruct (match_orders_book _ _ _ _ _ _ _ Hok Ht Hm H2) as (M & _ & S & Hne' & _ & Hnone & _).
  rewrite E. split; [by apply M|]. rewrite <- !(size_dom (D := gset Z)).
  apply inj_lt, subset_size. split.
  - intros j [o Ho]%elem_of_dom. destruct (S _ _ Ho) as (o0 & Ho0 & _). apply elem_of_dom. eauto.
  - intros Hsub. assert (maker ∈ dom (rows (limit_orders s.2))) as Hin by (apply elem_of_dom; eauto).
    apply Hsub, elem_of_dom in Hin as [? ?]. congruence.
Qed.

(** ** No crossed orders *)

(** C15: the matching engine leaves no crossed orders.  If no two orders other than [id] cross,
    then after [id] has been applied to the book no two orders cross: whatever was on the book
    and would accept the price of [id], or be accepted by it, has been filled, or [id] has. *)
Theorem apply_order_uncrosses id d d' gone :
  books_ok d → book_bounded d → uncrossed_but id d → apply_order push id d = Ok (d', gone) →
  uncrossed d'.
Proof.
  intros Hok Hb Hun H1. pose proof (apply_order_keeps _ _ _ _ Hok H1) as (Hok' & _ & _ & S').
  unfold apply_order in H1. apply bind_Ok in H1 as (t0 & Ht0%tbl_get_Ok & H1). cbv zeta in H1.
  assert (∀ j o, rows (limit_orders d) !! j = Some o → price_wf (lo_sell_price o)) as W
    by (intros j o Ho; by apply (ok_orders _ Hok) in Ho as [? _ _ _ _ _ _]).
  (* it is enough that the order itself crosses nothing *)
  assert ((∀ t, rows (limit_orders d') !! id = Some t →
    ∀ j o, rows (limit_orders d') !! j = Some o → ¬ crosses t o) → uncrossed d') as Henough.
  { intros Hid i j x y Hi Hj Hx. destruct (S' _ _ Hi) as (x0 & Hx0 & Ex), (S' _ _ Hj) as (y0 & Hy0 & Ey).
    destruct (decide (i = id)) as [->|]; [by apply (Hid x Hi j y Hj)|].
    destruct (decide (j = id)) as [->|].
    - apply (Hid y Hj i x Hi). apply crosses_sym; [rewrite Ex|rewrite Ey|]; eauto.
    - eapply (Hun i j); [done|done|done|done|]. by eapply crosses_proper; [..|exact Hx]. }
  apply Henough. clear Henough. destruct (prev_order d id) as [[k o]|] eqn:Ep; [destruct (negb _) eqn:En|].
  2:{ (* a better order of the same side is in front *)
      injection H1 as <- _. intros t Ht j y Hy Hx. assert (t0 = t) as -> by congruence. propify.
      destruct (prev_order_spec d (ok_orders _ Hok) id t (k, o) Ht Ep) as (Ho & Hne & Hbef). simpl in *.
      destruct (decide (j = id)) as [->|Hj]; [assert (y = t) as -> by congruence; by apply crosses_irrefl in Hx; eauto|].
      apply (Hun k j o y Hne Hj Ho Hy). eapply crosses_behind; [..|exact Hx]; eauto.
      by apply (at_or_before_price (k, o) (id, t)); [eapply W..|]. }
  all: apply bind_Ok in H1 as (top & Htop & H1); apply bind_Ok in H1 as (d1 & H2 & H1);
    eapply match_loop_spec in H2 as [itr L]; [|done..]; destruct L as [Lok _ _ _ Lt]; simpl in *;
    unfold order_is_gone in H1; case_bool_decide as Hs.
  2,4: injection H1 as <- _; intros t Ht; exfalso; apply Hs; eauto.
  all: destruct Hs as [t Ht];
    destruct (maybe_cull_spec _ _ _ _ t Ht (oo_unlinked _ (ok_orders _ Lok _ _ Ht)) H1) as (_ & _ & r & Hr & Hg);
    destruct gone; destruct Hg as [Hr0 E]; intros t' Ht' j y Hy;
    [rewrite E in Ht'; simpl in Ht'; by rewrite lookup_delete_eq in Ht'|]; subst d1;
    assert (t' = t) as -> by congruence; destruct (Lt t Ht) as [Hn|Hz]; [by eapply Hn|by apply Hz in Hr].
Qed.
End matching_loop.
