(* ===== verification/MarketTheorems.v ===== *)
(** * Limit-order operations

    Creating, updating, cancelling and expiring limit orders conserves every asset, for orders
    without take-profit actions; the price guarantee of a match; and runs of the take-profit
    machinery. *)
From S2P Require Import Prelude MachineInt Hardfork Asset PriceRatio Vesting ChainState Ledger CreditBooks Balance Fees Evaluator Sample LimitOrder MarketBooks MarketMatching OrderBook.

Section operations.
Context `{FeeSchedule}.
Variable push : virtual_operation → database → result (database * Z).

(** ** Deferred fees *)

(** The operations covered: amounts are values of [share_type], there is no take-profit action,
    and a fee paid in another asset than core has to have a core value. *)
Record create_op_ok (op : limit_order_create_operation) : Prop := {
  co_sell : is_share (amount (loc_amount_to_sell op));
  co_receive : is_share (amount (loc_min_to_receive op));
  co_plain : loc_on_fill op = None;
  co_fee : asset_id (loc_fee op) = core_asset_id ∨ 0 < create_fee op }.

Record update_op_ok (op : limit_order_update_operation) : Prop := {
  uo_price p : lou_new_price op = Some p → is_share (amount (base p)) ∧ is_share (amount (quote p));
  uo_plain : lou_on_fill op = None;
  uo_fee : asset_id (lou_fee op) = core_asset_id ∨ 0 < update_fee op }.

Lemma prepare_fee_nonneg payer fee d core : prepare_fee payer fee d = Ok core → 0 ≤ core.
Proof.
  unfold prepare_fee. intros H1. inv_ok; propify; [done|].
  match goal with Hm : asset_mul_price _ _ = Ok _ |- _ => by apply mul_price_max in Hm as [? _] end.
Qed.

Lemma defer_convert_credits fee core d d' :
  defer_convert_fee fee core d = Ok d' →
  credits d d' (λ a, if asset_id fee =? core_asset_id then 0 else amt core_asset_id (- core) a).
Proof.
  unfold defer_convert_fee. intros H1. destruct (asset_id fee =? core_asset_id) eqn:E.
  - injection H1 as <-. credits_chain. done.
  - apply modify_dynamic_data_credits in H1 as (s & s' & _ & Hs & C). inv_ok. inv_share. subst.
    credits_chain. unfold dd_delta, dd_held; simpl. amt_solve.
Qed.

Lemma convert_fee_credits fee core d d' :
  convert_fee fee core d = Ok d' →
  credits d d' (λ a, if asset_id fee =? core_asset_id then 0
                     else amt (asset_id fee) (amount fee) a - amt core_asset_id core a).
Proof.
  unfold convert_fee. intros H1. destruct (asset_id fee =? core_asset_id) eqn:E.
  - injection H1 as <-. credits_chain. done.
  - apply modify_dynamic_data_credits in H1 as (s & s' & _ & Hs & C). inv_ok. inv_share. subst.
    credits_chain. unfold dd_delta, dd_held; simpl. amt_solve.
Qed.

(** The fee is in part handed out and in part kept to be stored in the order. *)
Lemma create_fee_credits payer fee core d d1 d2 deferred paid :
  0 ≤ amount fee → 0 ≤ core → (asset_id fee = core_asset_id → core = amount fee) →
  limit_order_create_convert_fee fee core d = Ok d1 →
  limit_order_create_pay_fee payer fee core d1 = Ok (d2, deferred, paid) →
  0 ≤ deferred ∧ 0 ≤ amount paid ∧
  (asset_id fee = core_asset_id ∨ 0 < core → 0 < amount paid → 0 < deferred) ∧
  credits d d2 (λ a, amt (asset_id fee) (amount fee) a - amt core_asset_id deferred a
    - amt (asset_id paid) (amount paid) a).
Proof.
  unfold limit_order_create_convert_fee, limit_order_create_pay_fee. intros Hf Hc Hcore H1 H2.
  unfold HARDFORK_CORE_604_TIME, HARDFORK_445_TIME in *.
  assert (head_block_time d1 = head_block_time d) as Ht.
  { destruct (head_block_time d <=? _); [apply convert_fee_credits in H1|apply defer_convert_credits in H1];
      destruct H1 as [_ F]; by apply frame_head_time. }
  rewrite Ht in H2. destruct (Z.leb_spec (head_block_time d) 1532008920) as [L|L].
  - apply convert_fee_credits in H1. destruct (Z.ltb_spec 1532008920 (head_block_time d)); [lia|].
    destruct (Z.leb_spec (head_block_time d) 1450288800); inv_ok; inv_credits; simpl;
      (split_and!; [done || lia|lia|lia|]); credits_chain;
      destruct (Z.eqb_spec (asset_id fee) core_asset_id) as [E|E]; try rewrite Hcore by done; amt_solve.
  - apply defer_convert_credits in H1. destruct (Z.ltb_spec 1532008920 (head_block_time d)); [|lia].
    destruct (Z.leb_spec (head_block_time d) 1450288800); [lia|]. injection H2 as <- <- <-.
    destruct (Z.eqb_spec (asset_id fee) core_asset_id) as [E|E]; simpl;
      (split_and!; [done|done || lia|lia|]); credits_chain; try rewrite Hcore by done; amt_solve.
Qed.

(** ** Create *)

Lemma create_order_moves d d1 o id t f :
  credits d d1 f → tbl_create o (limit_orders d1) = Ok (id, t) → order_ok o →
  moves d (set_limit_orders t d1) (λ a, f a + held o a) ∧ market_frame d (set_limit_orders t d1).
Proof.
  intros [M F] Ht Ho. split.
  - eapply moves_trans; [exact M|]. apply moves_limit_orders.
    + intros a. apply (tbl_held_create _ _ _ _ a Ht).
    + intros Hok. eapply rows_ok_create; [exact Ht|done|apply Hok].
  - etrans; [by apply funds_market_frame|apply set_orders_frame].
Qed.

(** The new order is well formed. *)
Lemma new_order_ok op deferred paid :
  create_op_ok op → limit_order_create_validate op = Ok () →
  0 ≤ deferred → 0 ≤ amount paid → (0 < amount paid → 0 < deferred) →
  order_ok (LimitOrderObject (loc_expiration op) (loc_seller op) (amount (loc_amount_to_sell op))
    (Price (loc_amount_to_sell op) (loc_min_to_receive op)) 0 deferred paid [] None).
Proof.
  intros [Hs Hr _ _] Hv Hd Hp Hb. unfold limit_order_create_validate in Hv. inv_ok; propify.
  split; simpl; try done. unfold is_share in Hs. lia.
Qed.

Lemma create_do_apply_moves op deferred paid d d' id :
  books_ok d → create_op_ok op → limit_order_create_validate op = Ok () →
  0 ≤ deferred → 0 ≤ amount paid → (0 < amount paid → 0 < deferred) →
  limit_order_create_do_apply push op deferred paid d = Ok (d', id) →
  moves d d' (λ a, amt core_asset_id deferred a + amt (asset_id paid) (amount paid) a) ∧ market_frame d d'.
Proof.
  intros Hok Hop Hv Hd Hpd Hb H1. pose proof (new_order_ok _ _ _ Hop Hv Hd Hpd Hb) as Hno.
  unfold limit_order_create_do_apply in H1. apply bind_Ok in H1 as (d1 & H2 & H1).
  assert (credits d d1 (λ _, 0)) as C1 by (case_match; inv_ok; inv_credits; done || apply credits_refl). clear H2.
  apply bind_Ok in H1 as (neg & Hneg & H1). apply bind_Ok in H1 as (d2 & C2%adjust_balance_credits & H1).
  apply bind_Ok in H1 as (p & Hp & H1). unfold make_price in Hp. apply bind_Ok in Hp as ([] & _ & Hp).
  injection Hp as <-. rewrite (co_plain _ Hop) in H1. simpl in H1. apply bind_Ok in H1 as ([id3 t] & Ht & H1).
  eapply (create_order_moves d) in Ht as [M F]; [|credits_follow|done].
  pose proof (mv_ok _ _ _ M Hok) as Hok2.
  apply bind_Ok in H1 as ([d4 filled] & H4 & H1). apply bind_Ok in H1 as ([] & _ & E). injection E as <- <-.
  assert (market_kept (set_limit_orders t d2) d4) as (_ & M4 & F4 & _)
    by (case_match; [by eapply apply_order_old_keeps|by eapply apply_order_keeps]).
  split; [|by etrans]. eapply moves_ext; [eapply moves_trans; [exact M|exact M4]|].
  intros a. inv_asset. unfold held, limit_order_holding; simpl. amt_solve.
Qed.

Lemma evaluate_limit_order_create_ok op d d' id :
  books_ok d → create_op_ok op → limit_order_create_validate op = Ok () →
  evaluate_limit_order_create push false op d = Ok (d', id) → conserves d d' ∧ market_frame d d'.
Proof.
  intros Hok Hop Hv H1. unfold evaluate_limit_order_create in H1. apply bind_Ok in H1 as (core & Hcore & H1).
  pose proof (prepare_fee_nonneg _ _ _ _ Hcore) as Hc0. apply prepare_fee_Ok in Hcore as [Hf0 Hcore].
  apply bind_Ok in H1 as ([] & Hreq%GRAPHENE_ASSERT_Ok & H1). apply bind_Ok in H1 as ([] & _ & H1).
  apply bind_Ok in H1 as (d1 & H1a & H1). apply bind_Ok in H1 as ([[d2 deferred] paid] & H1b & H1).
  destruct (create_fee_credits _ _ _ _ _ _ _ _ Hf0 Hc0 Hcore H1a H1b) as (Hd & Hpd & Hback & [M1 F1]).
  apply bind_Ok in H1 as ([d3 id3] & H2 & H1). apply bind_Ok in H1 as (neg & Hneg & H1).
  apply bind_Ok in H1 as (d4 & [M4 F4]%adjust_balance_credits & E). injection E as <- <-.
  apply create_do_apply_moves in H2 as [M2 F2]; [|by apply M1|done|done|done|done|].
  - split; [|by etrans; [by apply funds_market_frame|etrans; [done|by apply funds_market_frame]]].
    eapply moves_ext; [eapply moves_trans; [exact M1|eapply moves_trans; [exact M2|exact M4]]|].
    intros a. inv_asset. amt_solve.
  - apply Hback. propify. destruct (co_fee _ Hop); [by left|right; lia].
Qed.

(** ** Update *)

Lemma process_deferred_fee_credits o d d' :
  order_ok o → process_deferred_fee o d = Ok d' →
  credits d d' (λ a, amt core_asset_id (lo_deferred_fee o) a
    + amt (asset_id (lo_deferred_paid_fee o)) (amount (lo_deferred_paid_fee o)) a).
Proof.
  intros [_ _ Hd Hp Hb _ _] H1. unfold process_deferred_fee in H1.
  destruct (Z.leb_spec (lo_deferred_fee o) 0).
  { injection H1 as <-. credits_chain.
    assert (lo_deferred_fee o = 0) as -> by lia. assert (amount (lo_deferred_paid_fee o) = 0) as -> by lia. amt_solve. }
  apply bind_Ok in H1 as ([[d1 deferred] paid] & H1 & H2).
  assert (asset_id paid = asset_id (lo_deferred_paid_fee o) ∧
    (amount (lo_deferred_paid_fee o) = 0 → amount paid = 0) ∧
    credits d d1 (λ a, amt core_asset_id (lo_deferred_fee o - deferred) a
      + amt (asset_id paid) (amount (lo_deferred_paid_fee o) - amount paid) a)) as (Ei & Hz & C1).
  { clear H2. inv_ok; propify; inv_credits; inv_share; subst; simpl;
      (split_and!; [done|lia|credits_chain; amt_solve]). }
  clear H1. apply refund_deferred_fee_credits in H2; [|done|done]. credits_chain. amt_solve.
Qed.

(** What [validate] and [do_evaluate] establish about the order and its new price and amount. *)
Lemma update_checked op o d :
  0 < lo_for_sale o → update_op_ok op → limit_order_update_validate op = Ok () →
  rows (limit_orders d) !! lou_order op = Some o → limit_order_update_do_evaluate op d = Ok () →
  (∀ p, lou_new_price op = Some p → price_wf p ∧ asset_id (base p) = sell_asset_id o) ∧
  (∀ delta, lou_delta_amount_to_sell op = Some delta →
     asset_id delta = sell_asset_id o ∧ 0 < lo_for_sale o + amount delta).
Proof.
  intros Hs [Up Upl _] Hv Ho He. unfold limit_order_update_do_evaluate in He. rewrite Upl, Ho in He. simpl in He.
  apply bind_Ok in He as ([] & _ & He). apply bind_Ok in He as ([] & _ & He).
  apply bind_Ok in He as ([] & Hprice & He). apply bind_Ok in He as ([] & Hdelta & _).
  unfold limit_order_update_validate in Hv. apply bind_Ok in Hv as ([] & _ & Hv).
  apply bind_Ok in Hv as ([] & _ & Hv). apply bind_Ok in Hv as ([] & Hvp & Hv).
  apply bind_Ok in Hv as ([] & Hvd & _). split.
  - intros p E. rewrite E in Hprice, Hvp. destruct (Up p E) as [U1 U2].
    apply bind_Ok in Hprice as ([] & Hids%FC_ASSERT_Ok & _). unfold price_validate in Hvp.
    clear Hdelta Hvd. inv_ok. propify. split; [unfold price_wf; split_and!; done|done].
  - intros delta E. rewrite E in Hdelta, Hvd. clear Hprice Hvp. apply FC_ASSERT_Ok in Hvd.
    apply bind_Ok in Hdelta as ([] & Hid%FC_ASSERT_Ok & Hdelta). propify.
    split; [done|]. destruct (Z.ltb_spec (amount delta) 0); [|lia]. inv_ok. inv_share. propify. lia.
Qed.

Lemma updated_order_ok op deferred paid o o' d :
  order_ok o → update_op_ok op → limit_order_update_validate op = Ok () →
  rows (limit_orders d) !! lou_order op = Some o → limit_order_update_do_evaluate op d = Ok () →
  0 ≤ deferred → 0 ≤ amount paid → (0 < amount paid → 0 < deferred) →
  lo_updated op deferred paid false o = Ok o' →
  order_ok o' ∧ ∀ a, held o' a - held o a =
    match lou_delta_amount_to_sell op with Some delta => amt (asset_id delta) (amount delta) a | None => 0 end
    + amt core_asset_id (deferred - lo_deferred_fee o) a
    + amt (asset_id paid) (amount paid) a
    - amt (asset_id (lo_deferred_paid_fee o)) (amount (lo_deferred_paid_fee o)) a.
Proof.
  intros [Hp Hs Hd Hpd Hb Hpl Hl] Hop Hv Ho He Hdef Hpaid Hback Hu.
  destruct (update_checked _ _ _ (proj1 Hs) Hop Hv Ho He) as [Hprice Hdelta].
  assert (price_wf (default (lo_sell_price o) (lou_new_price op)) ∧
    asset_id (base (default (lo_sell_price o) (lou_new_price op))) = sell_asset_id o) as [Wp Ep]
    by (destruct (lou_new_price op); simpl; [auto|done]).
  unfold lo_updated in Hu. rewrite (uo_plain _ Hop) in Hu. apply bind_Ok in Hu as (fs & Hfs & E). injection E as <-.
  assert (fs = lo_for_sale o + match lou_delta_amount_to_sell op with Some delta => amount delta | None => 0 end
    ∧ 0 < fs ≤ INT64_MAX ∧ ∀ delta, lou_delta_amount_to_sell op = Some delta → asset_id delta = sell_asset_id o)
    as (-> & Hfs' & Eid).
  { destruct (lou_delta_amount_to_sell op) as [delta|] eqn:E; [|injection Hfs as <-; split_and!; done || lia].
    destruct (Hdelta delta eq_refl). inv_share. unfold is_share in *. split_and!; [done|lia|lia|naive_solver]. }
  split; [by split|]. intros a. unfold held, limit_order_holding; simpl. rewrite Ep. clear Hdelta Hfs Hfs'.
  fold (sell_asset_id o). destruct (lou_delta_amount_to_sell op) as [delta|]; [rewrite (Eid delta) by done|]; amt_solve.
Qed.

Lemma evaluate_limit_order_update_ok skip op d d' :
  books_ok d → update_op_ok op → limit_order_update_validate op = Ok () →
  evaluate_limit_order_update push false skip op d = Ok d' → conserves d d' ∧ market_frame d d'.
Proof.
  intros Hok Hop Hv H1. unfold evaluate_limit_order_update in H1. apply bind_Ok in H1 as (core & Hcore & H1).
  pose proof (prepare_fee_nonneg _ _ _ _ Hcore) as Hc0. apply prepare_fee_Ok in Hcore as [Hf0 Hcore].
  apply bind_Ok in H1 as ([] & Hreq%GRAPHENE_ASSERT_Ok & H1). apply bind_Ok in H1 as ([] & He & H1).
  apply bind_Ok in H1 as (d1 & C1%defer_convert_credits & H1). set (paid := if asset_id (lou_fee op) =? core_asset_id then zero_asset else lou_fee op) in H1.
  assert (0 ≤ amount paid ∧ (0 < amount paid → 0 < core)) as [Hp0 Hback].
  { unfold paid. propify. destruct (Z.eqb_spec (asset_id (lou_fee op)) core_asset_id) as [E|E]; simpl; [lia|].
    destruct (uo_fee _ Hop); [done|lia]. }
  apply bind_Ok in H1 as (d2 & H2 & H1). apply bind_Ok in H1 as (neg & Hneg & C5%adjust_balance_credits).
  unfold limit_order_update_do_apply in H2. apply bind_Ok in H2 as (d3 & H3 & H2).
  assert (credits d1 d3 (λ a, match lou_delta_amount_to_sell op with
    Some delta => - amt (asset_id delta) (amount delta) a | None => 0 end)) as C2.
  { destruct (lou_delta_amount_to_sell op); inv_ok; inv_credits; inv_asset; credits_chain; amt_solve. }
  clear H3. assert (∃ f, credits d d3 f ∧ ∀ a, f a = (if asset_id (lou_fee op) =? core_asset_id then 0
      else amt core_asset_id (- core) a)
    + match lou_delta_amount_to_sell op with Some delta => - amt (asset_id delta) (amount delta) a | None => 0 end)
    as (f3 & C3 & Hf3) by (eexists; split; [credits_follow|done]).
  clear C1 C2. pose proof (frame_orders _ _ (proj2 C3)) as El.
  unfold get_limit_order in H2. rewrite El in H2. apply bind_Ok in H2 as (o & Ho%tbl_get_Ok & H2).
  pose proof (ok_orders _ Hok _ _ Ho) as Hoo.
  apply bind_Ok in H2 as (d4 & C4%process_deferred_fee_credits & H2); [|done].
  rewrite (oo_unlinked _ Hoo) in H2. apply bind_Ok in H2 as ([d4' unlink] & E & H2). injection E as <- <-.
  apply bind_Ok in H2 as (d5 & H5 & H2). apply bind_Ok in H2 as ([d6 gone] & H6 & E). injection E as <-.
  pose proof (λ o' Hu, updated_order_ok op core paid o o' d Hoo Hop Hv Ho He Hc0 Hp0 Hback Hu) as Hupd.
  eapply (replace_order_moves d) in H5 as (o' & Ho' & M & F & _); [|done|credits_follow|].
  2:{ intros o' Ho' _. by apply Hupd. }
  destruct (Hupd o' Ho') as [_ Hheld].
  apply apply_order_keeps in H6 as (_ & M6 & F6 & _); [|exact (mv_ok _ _ _ M Hok)]. destruct C5 as [M7 F7].
  split; [|etrans; [done|etrans; [done|by apply funds_market_frame]]].
  eapply moves_ext; [eapply moves_trans; [exact M|eapply moves_trans; [exact M6|exact M7]]|].
  intros a. simpl. rewrite Hf3, Hheld. inv_asset. unfold paid, zero_asset. clear Hupd.
  destruct (lou_delta_amount_to_sell op); destruct (Z.eqb_spec (asset_id (lou_fee op)) core_asset_id);
    simpl; try rewrite Hcore by done; amt_solve.
Qed.

(** ** Cancel and expiration *)

#[global] Instance limit_order_cancel_laws : EvaluatorLaws limit_order_cancel_operation.
Proof.
  assert (∀ op d0 ctx d d' r, chain_ok d0 → fee_frame d0 d →
    do_apply (Evaluator := limit_order_cancel_evaluator) op ctx d = Ok (d', r) →
    conserves d d' ∧ market_frame d d') as Hc.
  { intros op d0 ctx d d' r Hch F H1. cbn in H1. unfold limit_order_cancel_do_apply in H1.
    apply bind_Ok in H1 as (o & Ho%tbl_get_Ok & H1). apply bind_Ok in H1 as (d1 & H1 & E). injection E as <- <-.
    assert (limit_orders d = limit_orders d0) as El by (by destruct F as (m & s & -> & _)).
    eapply cancel_limit_order_spec in H1 as (M & F1 & _); [|exact Ho|]; [done|].
    rewrite El in Ho. apply (ok_orders _ (ch_books _ Hch) _ _ Ho). }
  split; intros op d0 ctx d d' r Hch _ _ F H1; destruct (Hc _ _ _ _ _ _ Hch F H1) as [M F1]; [done|].
  eapply market_frame_credit; [done|]. by eapply fee_frame_credit.
Qed.

(** Every expired order is cancelled, and the others stay. *)
Lemma cancel_expired_spec fuel d d' :
  chain_ok d → (size (rows (limit_orders d)) ≤ fuel)%nat → cancel_expired fuel d = Ok d' →
  chain_ok d' ∧ conserves d d' ∧
  ∀ id, rows (limit_orders d') !! id =
    match rows (limit_orders d) !! id with
    | Some o => if lo_expiration o <=? head_block_time d then None else Some o
    | None => None
    end.
Proof.
  revert d. induction fuel as [|fuel IH]; intros d Hch Hsz H1; simpl in H1.
  - injection H1 as <-. split_and!; [done|reflexivity|]. intros id.
    assert (rows (limit_orders d) = ∅) as -> by (apply map_size_empty_inv; lia). by rewrite lookup_empty.
  - destruct (first_by lo_expiration (limit_orders d)) as [[id0 o0]|] eqn:Ef.
    2:{ injection H1 as <-. split_and!; [done|reflexivity|]. intros id.
        apply first_by_None in Ef as ->. by rewrite lookup_empty. }
    apply first_by_Some in Ef as [Ho0 Hmin]. simpl in *.
    destruct (Z.leb_spec (lo_expiration o0) (head_block_time d)) as [Hexp|Hlive].
    + apply bind_Ok in H1 as (d1 & H2 & H1).
      pose proof (oo_unlinked _ (ok_orders _ (ch_books _ Hch) _ _ Ho0)) as Hl.
      destruct (cancel_limit_order_spec _ _ _ _ _ _ Ho0 Hl H2) as (M & F & El).
      assert (chain_ok d1) as Hch1
        by (split; [by apply M, Hch|by eapply market_frame_credit, Hch]).
      apply IH in H1 as (Hch' & M' & Hrows); [|done|].
      2:{ rewrite El. simpl. rewrite map_size_delete_Some by eauto. lia. }
      split_and!; [done|by etrans|]. intros id. rewrite Hrows, El. simpl.
      destruct (market_frame_times _ _ F) as [-> _]. destruct (decide (id = id0)) as [->|Hne].
      * rewrite lookup_delete_eq, Ho0. destruct (Z.leb_spec (lo_expiration o0) (head_block_time d)); [done|lia].
      * by rewrite lookup_delete_ne.
    + injection H1 as <-. split_and!; [done|reflexivity|]. intros id.
      destruct (rows (limit_orders d) !! id) as [o|] eqn:Eo; [|done]. specialize (Hmin _ _ Eo).
      destruct (Z.leb_spec (lo_expiration o) (head_block_time d)); [lia|done].
Qed.
End operations.

(** ** Properties of a match *)

(** C16: a match is fair to both orders. After hard fork core-342, when two well-formed crossing
    orders (without take-profit actions) are matched at the maker's price, neither pays more than it
    has for sale; the order that is not filled up gets at least its limit price exactly, the one
    that is filled up pays less than one unit above its limit; and what the latter has left could
    not buy a single unit at the price of the match. *)
Theorem match_price_fair mt t m tr mr cull :
  order_ok t → order_ok m → crosses t m → HARDFORK_CORE_342_TIME < mt →
  match_amounts mt (amount_for_sale t) (amount_for_sale m) (lo_sell_price m) = Ok (Some (tr, mr, cull)) →
  let TB := amount (base (lo_sell_price t)) in let TQ := amount (quote (lo_sell_price t)) in
  let MB := amount (base (lo_sell_price m)) in let MQ := amount (quote (lo_sell_price m)) in
  (asset_id tr = receive_asset_id t ∧ asset_id mr = receive_asset_id m) ∧
  0 ≤ amount tr ≤ lo_for_sale m ∧ 0 ≤ amount mr ≤ lo_for_sale t ∧
  if cull then
    amount tr * MQ ≤ amount mr * MB ∧ (amount mr - 1) * TQ < amount tr * TB ∧
    (lo_for_sale t - amount mr) * MB < MQ
  else
    amount mr * TQ ≤ amount tr * TB ∧ (amount tr - 1) * MQ < amount mr * MB ∧
    (lo_for_sale m - amount tr) * MQ < MB.
Proof.
  intros Ht Hm Hx Hmt Ha. destruct (match_amounts_bounds _ _ _ _ _ _ Ht Hm (proj1 Hx) Ha) as (E1 & E2 & B1 & B2).
  pose proof (match_amounts_prices _ _ _ _ _ _ Ht Hm Hx Hmt Ha) as Hp. destruct Hx as [[O1 O2] _].
  split_and!; [congruence|congruence|lia|lia|lia|lia|exact Hp].
Qed.

Definition sample_maker : limit_order_object :=
  LimitOrderObject time_point_sec_maximum 100 90 (Price (Asset 100 2) (Asset 300 0)) 0 0 (Asset 0 0) [] None.
Definition sample_taker : limit_order_object :=
  LimitOrderObject time_point_sec_maximum 101 200 (Price (Asset 700 0) (Asset 200 2)) 0 0 (Asset 0 0) [] None.

Lemma sample_orders_ok : order_ok sample_maker ∧ order_ok sample_taker ∧ crosses sample_taker sample_maker.
Proof.
  split_and!; [| |by vm_compute]; split; unfold price_wf, is_share, INT64_MIN, INT64_MAX; simpl; try done; lia.
Qed.

Lemma match_price_fair_witness :
  match_amounts (sample_time + 3600) (amount_for_sale sample_taker) (amount_for_sale sample_maker)
    (lo_sell_price sample_maker) = Ok (Some (Asset 66 2, Asset 198 0, true)) ∧
  66 * 300 ≤ 198 * 100 ∧ (198 - 1) * 200 < 66 * 700 ∧ (200 - 198) * 100 < 300.
Proof.
  destruct sample_orders_ok as (Hm & Ht & Hx).
  assert (match_amounts (sample_time + 3600) (amount_for_sale sample_taker) (amount_for_sale sample_maker)
    (lo_sell_price sample_maker) = Ok (Some (Asset 66 2, Asset 198 0, true))) as E by (vm_compute; reflexivity).
  split; [exact E|].
  destruct (match_price_fair (sample_time + 3600) sample_taker sample_maker _ _ _ Ht Hm Hx ltac:(vm_compute; reflexivity) E)
    as (_ & _ & _ & Hp). exact Hp.
Defined.

(** A match never leaves both orders behind.  If two crossing orders are matched and both
    fills return, the smaller order is gone from the book (so the final assertion
    [result != none_filled] cannot fail) and every asset is conserved. *)
Theorem match_fills_one `{FeeSchedule} push taker maker t m tr mr cull d d1 d2 tf mf :
  books_ok d → HARDFORK_CORE_342_TIME < next_maintenance_time d →
  rows (limit_orders d) !! taker = Some t → rows (limit_orders d) !! maker = Some m → crosses t m →
  match_amounts (next_maintenance_time d) (amount_for_sale t) (amount_for_sale m) (lo_sell_price m)
    = Ok (Some (tr, mr, cull)) →
  fill_limit_order push taker mr tr cull false d = Ok (d1, tf) →
  fill_limit_order push maker tr mr true true d1 = Ok (d2, mf) →
  get_match_result tf mf ≠ none_filled ∧
  rows (limit_orders d2) !! (if cull then taker else maker) = None ∧ conserves d d2.
Proof.
  intros Hok Hmt Ht Hm Hx Ha H1 H2.
  pose proof (ok_orders _ Hok _ _ Ht) as Kt. pose proof (ok_orders _ Hok _ _ Hm) as Km.
  destruct (exchange_fills _ _ _ _ _ _ _ _ _ _ _ _ _ Hok Ht Hm (proj1 Hx) Ha H1 H2) as (M & _ & R1 & R2).
  pose proof (exchange_fills_one _ _ _ _ _ _ _ _ _ _ _ _ _ _ Kt Km Hx Hmt Ha R1 R2) as Hf.
  pose proof (opposite_ne _ _ _ _ _ Kt (proj1 Hx) Ht Hm) as Hne.
  destruct cull; subst; (split_and!; [by destruct tf || destruct mf| |done]).
  - rewrite (order_reduced_ne _ _ _ _ _ _ _ taker R2) by done. destruct R1 as [-> _]. apply lookup_delete_eq.
  - destruct R2 as [-> _]. apply lookup_delete_eq.
Qed.

(** ** A market *)

#[local] Instance sample_fees : FeeSchedule :=
  {| create_fee _ := 0; update_fee _ := 0; cancel_fee _ := 0 |}.

(** A sell order of 90 units of asset 2 and, crossing it, an order of 200 core that is about to
    be applied. *)
Definition sample_market_db : database :=
  set_limit_orders (Table 2 {[ 0 := sample_maker; 1 := sample_taker ]}) sample_db.

Lemma sample_market_rows P : P sample_maker → P sample_taker → rows_ok P (limit_orders sample_market_db).
Proof.
  intros Hm Ht i o. simpl. rewrite lookup_insert_Some. intros [[_ <-]|[_ Ho]]; [done|].
  apply lookup_singleton_Some in Ho as [_ <-]. done.
Qed.

Lemma sample_market_books_ok : books_ok sample_market_db.
Proof.
  destruct sample_books_ok as [Hb Ha Hp Hf Ho _]. destruct sample_orders_ok as (Hm & Ht & _).
  split; [exact Hb|exact Ha|exact Hp|exact Hf|exact Ho|by apply sample_market_rows].
Qed.

Lemma match_fills_one_witness : ∃ d1 d2,
  fill_limit_order push_virtual 1 (Asset 198 0) (Asset 66 2) true false sample_market_db = Ok (d1, true) ∧
  fill_limit_order push_virtual 0 (Asset 66 2) (Asset 198 0) true true d1 = Ok (d2, false) ∧
  rows (limit_orders d2) !! 1 = None ∧ conserves sample_market_db d2.
Proof.
  destruct (fill_limit_order push_virtual 1 (Asset 198 0) (Asset 66 2) true false sample_market_db)
    as [[d1 tf]|] eqn:E1; [|vm_compute in E1; discriminate].
  destruct (fill_limit_order push_virtual 0 (Asset 66 2) (Asset 198 0) true true d1)
    as [[d2 mf]|] eqn:E2.
  - destruct sample_orders_ok as (Hm & Ht & Hx).
    destruct (match_fills_one push_virtual 1 0 sample_taker sample_maker (Asset 66 2) (Asset 198 0) true
      sample_market_db d1 d2 tf mf sample_market_books_ok ltac:(vm_compute; reflexivity)
      ltac:(reflexivity) ltac:(reflexivity) Hx ltac:(vm_compute; reflexivity) E1 E2) as (Hn & Hgone & M).
    exists d1, d2. vm_compute in E1. injection E1 as <- <-. vm_compute in E2. injection E2 as <- <-.
    split_and!; [vm_compute; reflexivity|vm_compute; reflexivity|exact Hgone|exact M].
  - vm_compute in E1. injection E1 as <- <-. vm_compute in E2. discriminate.
Defined.

Lemma matching_terminates_witness : ∃ s,
  while_pow (match_round push_virtual 1 None) 64 (Some 0, sample_market_db) = Ok (s, false) ∧
  while_pow (match_round push_virtual 1 None) 64 (Some 0, sample_market_db) ≠ Ok (s, true).
Proof.
  eexists. split; [vm_compute; reflexivity|].
  exact (matching_terminates push_virtual 1 (Some 0) None sample_market_db sample_market_books_ok
    ltac:(vm_compute; reflexivity) _).
Defined.

Lemma apply_order_uncrosses_witness : ∃ d',
  apply_order push_virtual 1 sample_market_db = Ok (d', true) ∧
  lo_for_sale <$> rows (limit_orders d') !! 0 = Some 24 ∧ uncrossed d'.
Proof.
  assert (book_bounded sample_market_db) as Hb
    by (apply sample_market_rows; vm_compute; discriminate).
  assert (uncrossed_but 1 sample_market_db) as Hu.
  { intros i j x y Hi Hj Hx Hy. simpl in *. rewrite lookup_insert_Some in Hx, Hy.
    destruct Hx as [[_ <-]|[_ [? _]%lookup_singleton_Some]]; [|done].
    destruct Hy as [[_ <-]|[_ [? _]%lookup_singleton_Some]]; [|done].
    by intros [[E _] _]. }
  destruct (apply_order push_virtual 1 sample_market_db) as [[d' gone]|] eqn:E; [|vm_compute in E; discriminate].
  pose proof (apply_order_uncrosses push_virtual 1 sample_market_db d' gone sample_market_books_ok Hb Hu E) as Hun.
  exists d'. vm_compute in E. injection E as <- <-. split_and!; [reflexivity|vm_compute; reflexivity|exact Hun].
Defined.

(** ** Take-profit orders *)

Definition sample_create (seller : account_id_type) (sell receive : asset)
    (on_fill : option (list create_take_profit_order_action)) (d : database) : result (database * Z) :=
  evaluate_limit_order_create push_virtual false (LimitOrderCreateOperation zero_asset seller sell receive
    time_point_sec_maximum false on_fill) d.

(** Two orders selling 100 units of asset 2 each for as much core. *)
Definition sample_book : result database :=
  '(d, _) ← sample_create 100 (Asset 100 2) (Asset 100 0) None sample_db;
  '(d, _) ← sample_create 100 (Asset 100 2) (Asset 100 0) None d;
  Ok d.

(** Sell again what was bought, 10% dearer. *)
Definition sample_action : list create_take_profit_order_action :=
  [CreateTakeProfitOrderAction 0 1000 GRAPHENE_100_PERCENT 3600 false].

(** An order with a take-profit action can trade through its limit, with itself.  Account
    101 buys 250 units at a price of at most one core each while 200 are offered at that price.
    Without the action the order keeps its remaining 50 core on the book.  With it, the
    take-profit order created by the first fill enters the range the loop of [apply_order] is
    walking through, before [limit_end], and is reached by the iterator: the remaining 50 core
    are traded against the account's own take-profit order, whose price of 1.1 core is above
    the limit.  If the account offers 1000 core instead, the take-profit order grows while it
    is matched, the assertion [result != none_filled] fails, and the operation is refused. *)
Theorem take_profit_trades_through : ∃ d d1 d2 o1 o2,
  sample_book = Ok d ∧
  sample_create 101 (Asset 250 0) (Asset 250 2) None d = Ok (d1, 2) ∧
  rows (limit_orders d1) !! 2 = Some o1 ∧ lo_for_sale o1 = 50 ∧
  sample_create 101 (Asset 250 0) (Asset 250 2) (Some sample_action) d = Ok (d2, 2) ∧
  rows (limit_orders d2) !! 2 = None ∧ rows (limit_orders d2) !! 3 = Some o2 ∧
  lo_seller o2 = 101 ∧ lo_filled_amount o2 = 45 ∧
  price_ltb (lo_sell_price o2) (price_flip (lo_sell_price o1)) = true ∧
  is_ok (sample_create 101 (Asset 1000 0) (Asset 1000 2) None d) = true ∧
  sample_create 101 (Asset 1000 0) (Asset 1000 2) (Some sample_action) d =
    Err (assert_exception "result != match_result_type::none_filled").
Proof.
  destruct sample_book as [d|] eqn:Ed; [|vm_compute in Ed; discriminate].
  vm_compute in Ed. injection Ed as <-. eexists _, _, _, _, _.
  split; [reflexivity|]. split; [vm_compute; reflexivity|]. split; [vm_compute; reflexivity|].
  split; [reflexivity|]. split; [vm_compute; reflexivity|]. split; [vm_compute; reflexivity|].
  split; [vm_compute; reflexivity|]. repeat split; vm_compute; reflexivity.
Qed.

(** ** Fees without a core value *)

(** The sample state with an exchange rate of 100 units of asset 1 for one core. *)
Definition cheap_asset_db : database :=
  set_assets (<[1 := AssetObject 100 (AssetOptions GRAPHENE_MAX_SHARE_SUPPLY 0 GRAPHENE_MAX_SHARE_SUPPLY 0 0
    (Price (Asset 1 0) (Asset 100 1)) ∅ ∅ ∅ ∅ (AdditionalAssetOptions None None None)) None None]>
    (assets sample_db)) sample_db.

(** Updating an order can destroy the fee it was created with.  While the creation fee is
    zero, an order whose fee of 7 units of asset 1 is worth less than one core unit stores the
    fee but no core value.  [process_deferred_fee] then returns at once and the update
    overwrites the stored fee, which nobody receives: seven units vanish, the supply stays. *)
Theorem update_drops_paid_fee : ∃ d1 d2,
  evaluate_limit_order_create push_virtual false (LimitOrderCreateOperation (Asset 7 1) 101 (Asset 100 0) (Asset 50 2)
    time_point_sec_maximum false None) cheap_asset_db = Ok (d1, 0) ∧
  evaluate_limit_order_update push_virtual false false (LimitOrderUpdateOperation zero_asset 101 0 None None
    (Some (sample_time + 60)) None) d1 = Ok d2 ∧
  holdings d1 1 = holdings cheap_asset_db 1 ∧ holdings d2 1 = holdings d1 1 - 7 ∧ supply d2 1 = supply d1 1.
Proof.
  destruct (evaluate_limit_order_create _ _ _ _) as [[d1 id]|] eqn:E1; [|vm_compute in E1; discriminate].
  vm_compute in E1. injection E1 as <- <-. eexists _, _. split; [reflexivity|].
  split; [vm_compute; reflexivity|]. repeat split; vm_compute; reflexivity.
Qed.
