(* ===== verification/Settings.v ===== *)
(** * What operations leave alone

    The time of the head block, the next maintenance time, the chain parameters and the number
    of active witnesses are read by every operation and written by none.  [keeps s r] states that the
    computation [r] returns a state with the settings [s] (see Frames.v). *)
From S2P Require Import Prelude MachineInt Hardfork Asset Vesting ChainState Frames Balance Fees Evaluator VestingEval Transfer AssetOps LiquidityPool SametFund CreditOffer WithdrawPermission Htlc Ticket LimitOrder.

Record settings := Settings {
  se_head_block_time : Z;
  se_next_maintenance_time : Z;
  se_parameters : chain_parameters;
  se_active_witnesses_size : Z }.

Definition settings_of (d : database) : settings :=
  Settings (head_block_time d) (next_maintenance_time d) (parameters d) (active_witnesses_size d).

Notation keeps := (yields settings_of).

(** ** The primitives *)

Lemma keeps_adjust_balance s a x d : settings_of d = s → keeps s (adjust_balance a x d).
Proof. intros E d' [m ->]%adjust_balance_frame. exact E. Qed.

Lemma keeps_modify_dynamic_data s i f d : settings_of d = s → keeps s (modify_dynamic_data i f d).
Proof. intros E d' (? & ? & _ & _ & ->)%modify_dynamic_data_Ok. exact E. Qed.

Lemma keeps_modify_statistics s i f d : settings_of d = s → keeps s (modify_statistics i f d).
Proof. intros E d' (? & ? & _ & _ & ->)%modify_statistics_Ok. exact E. Qed.

Lemma keeps_modify_account s i f d : settings_of d = s → keeps s (modify_account i f d).
Proof. intros E d' (? & ? & _ & _ & ->)%modify_account_Ok. exact E. Qed.

Lemma keeps_modify_asset s i f d : settings_of d = s → keeps s (modify_asset i f d).
Proof. intros E d' (? & ? & _ & _ & ->)%modify_asset_Ok. exact E. Qed.

#[export] Hint Resolve keeps_adjust_balance keeps_modify_dynamic_data keeps_modify_statistics
  keeps_modify_account keeps_modify_asset : settings.

(** ** Balances and fees *)

Lemma keeps_deposit_market_fee s a x d : settings_of d = s → keeps s (deposit_market_fee_vesting_balance a x d).
Proof. keeps_def deposit_market_fee_vesting_balance. Qed.
#[export] Hint Resolve keeps_deposit_market_fee : settings.

Lemma keeps_deposit_lazy_vesting s a b c e f g d : settings_of d = s → keeps s (deposit_lazy_vesting a b c e f g d).
Proof. keeps_def deposit_lazy_vesting. Qed.
#[export] Hint Resolve keeps_deposit_lazy_vesting : settings.

Lemma keeps_deposit_cashback s a x b d : settings_of d = s → keeps s (deposit_cashback a x b d).
Proof. keeps_def deposit_cashback. Qed.
#[export] Hint Resolve keeps_deposit_cashback : settings.

Lemma keeps_pay_out_fees s a b c d : settings_of d = s → keeps s (pay_out_fees a b c d).
Proof. keeps_def pay_out_fees. Qed.
#[export] Hint Resolve keeps_pay_out_fees : settings.

Lemma keeps_process_fees s a d : settings_of d = s → keeps s (process_fees a d).
Proof. keeps_def process_fees. Qed.
#[export] Hint Resolve keeps_process_fees : settings.

Lemma keeps_pay_network_share s a b d : settings_of d = s → keeps s (pay_network_share a b d).
Proof. keeps_def pay_network_share. Qed.
#[export] Hint Resolve keeps_pay_network_share : settings.

Lemma keeps_pay_reward s a b c e d : settings_of d = s → keeps s (pay_reward a b c e d).
Proof. keeps_def pay_reward. Qed.
#[export] Hint Resolve keeps_pay_reward : settings.

Lemma keeps_pay_rewards s a b c e d : settings_of d = s → keeps s (pay_rewards a b c e d).
Proof. keeps_def pay_rewards. Qed.
#[export] Hint Resolve keeps_pay_rewards : settings.

Lemma keeps_pay_market_fees s a b c e f d : settings_of d = s → keeps s (pay_market_fees a b c e f d).
Proof. keeps_def pay_market_fees. Qed.
#[export] Hint Resolve keeps_pay_market_fees : settings.

Lemma keeps_convert_fee s a b d : settings_of d = s → keeps s (convert_fee a b d).
Proof. keeps_def convert_fee. Qed.
#[export] Hint Resolve keeps_convert_fee : settings.

Lemma keeps_pay_fee s a b d : settings_of d = s → keeps s (pay_fee a b d).
Proof. keeps_def pay_fee. Qed.
#[export] Hint Resolve keeps_pay_fee : settings.

Lemma keeps_move_balance s a b c d : settings_of d = s → keeps s (move_balance a b c d).
Proof. keeps_def move_balance. Qed.
#[export] Hint Resolve keeps_move_balance : settings.

(** ** Operations *)

Class KeepsSettings (Op : Type) `{Evaluator Op} :=
  do_apply_keeps s op ctx d : settings_of d = s → keeps s (do_apply op ctx d).

Ltac keeps_op f := intros s op ctx d E; change (keeps s (f op ctx d)); unfold f; keeps.

#[global] Instance keeps_vesting_balance_create : KeepsSettings vesting_balance_create_operation.
Proof. keeps_op vesting_balance_create_do_apply. Qed.

#[global] Instance keeps_vesting_balance_withdraw : KeepsSettings vesting_balance_withdraw_operation.
Proof. keeps_op vesting_balance_withdraw_do_apply. Qed.

#[global] Instance keeps_transfer : KeepsSettings transfer_operation.
Proof. keeps_op transfer_do_apply. Qed.

#[global] Instance keeps_override_transfer : KeepsSettings override_transfer_operation.
Proof. keeps_op override_transfer_do_apply. Qed.

#[global] Instance keeps_asset_issue : KeepsSettings asset_issue_operation.
Proof. keeps_op asset_issue_do_apply. Qed.

#[global] Instance keeps_asset_reserve : KeepsSettings asset_reserve_operation.
Proof. keeps_op asset_reserve_do_apply. Qed.

#[global] Instance keeps_asset_fund_fee_pool : KeepsSettings asset_fund_fee_pool_operation.
Proof. keeps_op asset_fund_fee_pool_do_apply. Qed.

#[global] Instance keeps_asset_claim_pool : KeepsSettings asset_claim_pool_operation.
Proof. keeps_op asset_claim_pool_do_apply. Qed.

#[global] Instance keeps_pool_create : KeepsSettings liquidity_pool_create_operation.
Proof. keeps_op pool_create_do_apply. Qed.

#[global] Instance keeps_pool_delete : KeepsSettings liquidity_pool_delete_operation.
Proof. keeps_op pool_delete_do_apply. Qed.

#[global] Instance keeps_pool_update : KeepsSettings liquidity_pool_update_operation.
Proof. keeps_op pool_update_do_apply. Qed.

#[global] Instance keeps_pool_deposit : KeepsSettings liquidity_pool_deposit_operation.
Proof. keeps_op pool_deposit_do_apply. Qed.

#[global] Instance keeps_pool_withdraw : KeepsSettings liquidity_pool_withdraw_operation.
Proof. keeps_op pool_withdraw_do_apply. Qed.

#[global] Instance keeps_pool_exchange : KeepsSettings liquidity_pool_exchange_operation.
Proof. keeps_op pool_exchange_do_apply. Qed.

#[global] Instance keeps_samet_fund_create : KeepsSettings samet_fund_create_operation.
Proof. keeps_op samet_fund_create_do_apply. Qed.

#[global] Instance keeps_samet_fund_delete : KeepsSettings samet_fund_delete_operation.
Proof. keeps_op samet_fund_delete_do_apply. Qed.

#[global] Instance keeps_samet_fund_update : KeepsSettings samet_fund_update_operation.
Proof. keeps_op samet_fund_update_do_apply. Qed.

#[global] Instance keeps_samet_fund_borrow : KeepsSettings samet_fund_borrow_operation.
Proof. keeps_op samet_fund_borrow_do_apply. Qed.

#[global] Instance keeps_samet_fund_repay : KeepsSettings samet_fund_repay_operation.
Proof. keeps_op samet_fund_repay_do_apply. Qed.

Lemma keeps_reduce_summary s a b d : settings_of d = s → keeps s (reduce_summary a b d).
Proof. keeps_def reduce_summary. Qed.
#[export] Hint Resolve keeps_reduce_summary : settings.

Lemma keeps_settle_deal s a b c d : settings_of d = s → keeps s (settle_deal a b c d).
Proof. keeps_def settle_deal. Qed.
#[export] Hint Resolve keeps_settle_deal : settings.

#[global] Instance keeps_credit_offer_create : KeepsSettings credit_offer_create_operation.
Proof. keeps_op credit_offer_create_do_apply. Qed.

#[global] Instance keeps_credit_offer_delete : KeepsSettings credit_offer_delete_operation.
Proof. keeps_op credit_offer_delete_do_apply. Qed.

#[global] Instance keeps_credit_offer_update : KeepsSettings credit_offer_update_operation.
Proof. keeps_op credit_offer_update_do_apply. Qed.

#[global] Instance keeps_credit_offer_accept : KeepsSettings credit_offer_accept_operation.
Proof. keeps_op credit_offer_accept_do_apply. Qed.

#[global] Instance keeps_credit_deal_repay : KeepsSettings credit_deal_repay_operation.
Proof. keeps_op credit_deal_repay_do_apply. Qed.

#[global] Instance keeps_credit_deal_update : KeepsSettings credit_deal_update_operation.
Proof. keeps_op credit_deal_update_do_apply. Qed.

#[global] Instance keeps_withdraw_permission_create : KeepsSettings withdraw_permission_create_operation.
Proof. keeps_op withdraw_permission_create_do_apply. Qed.

#[global] Instance keeps_withdraw_permission_claim : KeepsSettings withdraw_permission_claim_operation.
Proof. keeps_op withdraw_permission_claim_do_apply. Qed.

#[global] Instance keeps_withdraw_permission_update : KeepsSettings withdraw_permission_update_operation.
Proof. keeps_op withdraw_permission_update_do_apply. Qed.

#[global] Instance keeps_withdraw_permission_delete : KeepsSettings withdraw_permission_delete_operation.
Proof. keeps_op withdraw_permission_delete_do_apply. Qed.

#[global] Instance keeps_htlc_create : KeepsSettings htlc_create_operation.
Proof. keeps_op htlc_create_do_apply. Qed.

#[global] Instance keeps_htlc_redeem `{HashFunctions} : KeepsSettings htlc_redeem_operation.
Proof. keeps_op htlc_redeem_do_apply. Qed.

#[global] Instance keeps_htlc_extend : KeepsSettings htlc_extend_operation.
Proof. keeps_op htlc_extend_do_apply. Qed.

Lemma keeps_change_ticket s a b d : settings_of d = s → keeps s (change_ticket a b d).
Proof. keeps_def change_ticket. Qed.
#[export] Hint Resolve keeps_change_ticket : settings.

#[global] Instance keeps_ticket_create : KeepsSettings ticket_create_operation.
Proof. keeps_op ticket_create_do_apply. Qed.

Lemma keeps_release_ticket s a b d : settings_of d = s → keeps s (release_ticket a b d).
Proof. keeps_def release_ticket. Qed.
#[export] Hint Resolve keeps_release_ticket : settings.

Lemma keeps_process_ticket s a b c d e : settings_of d = s → keeps s (process_ticket a b c (d, e)).
Proof. keeps_def process_ticket. Qed.
#[export] Hint Resolve keeps_process_ticket : settings.

Lemma keeps_process_due_tickets s v n d a : settings_of d = s → keeps s (process_due_tickets v n (d, a)).
Proof. revert d a. induction n as [|n IH]; intros d a E; simpl; keeps. Qed.
#[export] Hint Resolve keeps_process_due_tickets : settings.

Lemma keeps_process_tickets s d : settings_of d = s → keeps s (process_tickets d).
Proof. keeps_def process_tickets. Qed.
#[export] Hint Resolve keeps_process_tickets : settings.

#[global] Instance keeps_ticket_update : KeepsSettings ticket_update_operation.
Proof. keeps_op ticket_update_do_apply. Qed.

(** ** Limit orders *)

Section orders.
Context `{FeeSchedule}.

Lemma keeps_modify_limit_order s a b d : settings_of d = s → keeps s (modify_limit_order a b d).
Proof. keeps_def modify_limit_order. Qed.
#[local] Hint Resolve keeps_modify_limit_order : settings.

Lemma keeps_cleanup_and_remove_limit_order s a d : settings_of d = s → keeps s (cleanup_and_remove_limit_order a d).
Proof. keeps_def cleanup_and_remove_limit_order. Qed.
#[local] Hint Resolve keeps_cleanup_and_remove_limit_order : settings.

Lemma keeps_add_core_in_orders s a b d : settings_of d = s → keeps s (add_core_in_orders a b d).
Proof. keeps_def add_core_in_orders. Qed.
#[local] Hint Resolve keeps_add_core_in_orders : settings.

Lemma keeps_sub_core_in_orders s a b d : settings_of d = s → keeps s (sub_core_in_orders a b d).
Proof. keeps_def sub_core_in_orders. Qed.
#[local] Hint Resolve keeps_sub_core_in_orders : settings.

Lemma keeps_accumulate_paid_fee s a b d : settings_of d = s → keeps s (accumulate_paid_fee a b d).
Proof. keeps_def accumulate_paid_fee. Qed.
#[local] Hint Resolve keeps_accumulate_paid_fee : settings.

Lemma keeps_deduct_cancel_fee s a b d : settings_of d = s → keeps s (deduct_cancel_fee a b d).
Proof. keeps_def deduct_cancel_fee. Qed.
#[local] Hint Resolve keeps_deduct_cancel_fee : settings.

Lemma keeps_refund_deferred_fee s a b c d : settings_of d = s → keeps s (refund_deferred_fee a b c d).
Proof. keeps_def refund_deferred_fee. Qed.
#[local] Hint Resolve keeps_refund_deferred_fee : settings.

Lemma keeps_cancel_limit_order s a b c d : settings_of d = s → keeps s (cancel_limit_order a b c d).
Proof. keeps_def cancel_limit_order. Qed.
#[local] Hint Resolve keeps_cancel_limit_order : settings.

Lemma keeps_maybe_cull_small_order s a d : settings_of d = s → keeps s (maybe_cull_small_order a d).
Proof. keeps_def maybe_cull_small_order. Qed.
#[local] Hint Resolve keeps_maybe_cull_small_order : settings.

Lemma keeps_pay_order s a b c d : settings_of d = s → keeps s (pay_order a b c d).
Proof. keeps_def pay_order. Qed.
#[local] Hint Resolve keeps_pay_order : settings.

Lemma keeps_settle_paid_fee s a b d : settings_of d = s → keeps s (settle_paid_fee a b d).
Proof. keeps_def settle_paid_fee. Qed.
#[local] Hint Resolve keeps_settle_paid_fee : settings.

Lemma keeps_settle_core_fee s a b c d : settings_of d = s → keeps s (settle_core_fee a b c d).
Proof. keeps_def settle_core_fee. Qed.
#[local] Hint Resolve keeps_settle_core_fee : settings.

Section push.
Variable push : virtual_operation → database → result (database * Z).
Hypothesis keeps_push : ∀ s v d, settings_of d = s → keeps s (push v d).
#[local] Hint Resolve keeps_push : settings.

Lemma keeps_create_take_profit_order s a b c d : settings_of d = s → keeps s (create_take_profit_order push a b c d).
Proof. keeps_def create_take_profit_order. Qed.
#[local] Hint Resolve keeps_create_take_profit_order : settings.

Lemma keeps_update_take_profit_order s a b c e f d : settings_of d = s → keeps s (update_take_profit_order push a b c e f d).
Proof. keeps_def update_take_profit_order. Qed.
#[local] Hint Resolve keeps_update_take_profit_order : settings.

Lemma keeps_settle_fill s a b c e d : settings_of d = s → keeps s (settle_fill a b c e d).
Proof. keeps_def settle_fill. Qed.
#[local] Hint Resolve keeps_settle_fill : settings.

Lemma keeps_reduce_order s a b c e d : settings_of d = s → keeps s (reduce_order a b c e d).
Proof. keeps_def reduce_order. Qed.
#[local] Hint Resolve keeps_reduce_order : settings.

Lemma keeps_on_fill s a b c d d' x :
  process_limit_order_on_fill push a b c d = (d', x) → settings_of d = s → settings_of d' = s.
Proof.
  unfold process_limit_order_on_fill. intros E Hd. repeat case_match; simplify_eq/=; try done.
  - by eapply keeps_update_take_profit_order.
  - match goal with Hc : create_take_profit_order _ _ _ _ _ = Ok _ |- _ =>
      exact (keeps_create_take_profit_order _ _ _ _ _ eq_refl _ Hc) end.
Qed.
#[local] Hint Resolve keeps_on_fill : settings.

Lemma keeps_fill_limit_order s a b c e f d : settings_of d = s → keeps s (fill_limit_order push a b c e f d).
Proof. keeps_def fill_limit_order. Qed.
#[local] Hint Resolve keeps_fill_limit_order : settings.

Lemma keeps_match_limit_normal_limit s a b c d : settings_of d = s → keeps s (match_limit_normal_limit push a b c d).
Proof. keeps_def match_limit_normal_limit. Qed.
#[local] Hint Resolve keeps_match_limit_normal_limit : settings.

Lemma keeps_match_orders s a b c d : settings_of d = s → keeps s (match_orders push a b c d).
Proof. keeps_def match_orders. Qed.
#[local] Hint Resolve keeps_match_orders : settings.

Lemma keeps_match_round s t e i d : settings_of d = s → ∀ i' d' b, match_round push t e (i, d) = Ok (i', d', b) → settings_of d' = s.
Proof.
  unfold match_round. intros E i' d' b Hr. case_bool_decide; [by injection Hr as <- <- <-|].
  destruct i as [m|]; [|done]. apply bind_Ok in Hr as (o & _ & Hr). apply bind_Ok in Hr as ([d1 r] & Hm & [= <- <- <-]).
  by apply (keeps_match_orders s) in Hm.
Qed.

Lemma keeps_match_loop s a b c d : settings_of d = s → keeps s (match_loop push a b c d).
Proof.
  unfold match_loop. intros E x Hx. apply bind_Ok in Hx as ([[i d'] r] & Hw & Hx).
  apply (while_pow_ind _ (λ x, settings_of x.2 = s) (λ x, settings_of x.2 = s)) in Hw; [| |  |done].
  - destruct r; [done|]. by injection Hx as <-.
  - intros [i1 d1] [i2 d2] H1. by apply keeps_match_round.
  - intros [i1 d1] [i2 d2] H1. by apply keeps_match_round.
Qed.
#[local] Hint Resolve keeps_match_loop : settings.

Lemma keeps_order_is_gone s a d : settings_of d = s → keeps s (order_is_gone a d).
Proof. keeps_def order_is_gone. Qed.
#[local] Hint Resolve keeps_order_is_gone : settings.

Lemma keeps_apply_order_before_hardfork_625 s a d : settings_of d = s → keeps s (apply_order_before_hardfork_625 push a d).
Proof. keeps_def apply_order_before_hardfork_625. Qed.
#[local] Hint Resolve keeps_apply_order_before_hardfork_625 : settings.

Lemma keeps_apply_order s a d : settings_of d = s → keeps s (apply_order push a d).
Proof. keeps_def apply_order. Qed.
#[local] Hint Resolve keeps_apply_order : settings.

Lemma keeps_defer_convert_fee s a b d : settings_of d = s → keeps s (defer_convert_fee a b d).
Proof. keeps_def defer_convert_fee. Qed.
#[local] Hint Resolve keeps_defer_convert_fee : settings.

Lemma keeps_limit_order_create_convert_fee s a b d : settings_of d = s → keeps s (limit_order_create_convert_fee a b d).
Proof. keeps_def limit_order_create_convert_fee. Qed.
#[local] Hint Resolve keeps_limit_order_create_convert_fee : settings.

Lemma keeps_limit_order_create_pay_fee s a b c d : settings_of d = s → keeps s (limit_order_create_pay_fee a b c d).
Proof. keeps_def limit_order_create_pay_fee. Qed.
#[local] Hint Resolve keeps_limit_order_create_pay_fee : settings.

Lemma keeps_limit_order_create_do_apply s a b c d : settings_of d = s → keeps s (limit_order_create_do_apply push a b c d).
Proof. keeps_def limit_order_create_do_apply. Qed.
#[local] Hint Resolve keeps_limit_order_create_do_apply : settings.

Lemma keeps_evaluate_limit_order_create s a b d : settings_of d = s → keeps s (evaluate_limit_order_create push a b d).
Proof. keeps_def evaluate_limit_order_create. Qed.
#[local] Hint Resolve keeps_evaluate_limit_order_create : settings.

Lemma keeps_process_deferred_fee s a d : settings_of d = s → keeps s (process_deferred_fee a d).
Proof. keeps_def process_deferred_fee. Qed.
#[local] Hint Resolve keeps_process_deferred_fee : settings.

Lemma keeps_limit_order_update_do_apply s a b c e d : settings_of d = s → keeps s (limit_order_update_do_apply push a b c e d).
Proof. keeps_def limit_order_update_do_apply. Qed.
#[local] Hint Resolve keeps_limit_order_update_do_apply : settings.

Lemma keeps_evaluate_limit_order_update s a b c d : settings_of d = s → keeps s (evaluate_limit_order_update push a b c d).
Proof. keeps_def evaluate_limit_order_update. Qed.
#[local] Hint Resolve keeps_evaluate_limit_order_update : settings.
End push.

Lemma keeps_try_push s n v d : settings_of d = s → keeps s (try_push_virtual_operation n v d).
Proof.
  revert s v d. induction n as [|n IH]; intros s v d E; simpl; keeps.
  - by apply keeps_evaluate_limit_order_create.
  - by apply keeps_evaluate_limit_order_update.
Qed.

#[global] Instance keeps_limit_order_cancel : KeepsSettings limit_order_cancel_operation.
Proof. intros s op ctx d E. change (keeps s (limit_order_cancel_do_apply op d)). keeps_def limit_order_cancel_do_apply. Qed.
End orders.

(** ** The evaluation scheme *)

Lemma keeps_start_evaluate {Op} `{KeepsSettings Op} fee skip op s d :
  settings_of d = s → keeps s (start_evaluate fee skip op d).
Proof. intros E. unfold start_evaluate, apply. keeps; by apply do_apply_keeps. Qed.
