(* ===== verification/DebtState.v ===== *)
(** * The state of the debt markets

    Assets that are backed by collateral (chain/asset_object.hpp, chain/market_object.hpp): their bitasset data, the
    debt positions of their borrowers, the orders to settle them and the bids for their debt after a
    global settlement, kept beside the [database] that holds everything else.

    - A bitasset data object is keyed by its asset, as the dynamic data is.
    - [md_settled_debt] is the set of the limit orders whose member [is_settled_debt] is true. *)
From stdpp Require Import sorting.
From S2P Require Import Prelude MachineInt Hardfork Asset PriceRatio CallOrder PriceFeed ChainState Ledger Balance Fees LimitOrder.

Record force_settlement_object := ForceSettlement {
  fs_owner : account_id_type;
  fs_balance : asset;
  fs_settlement_date : Z }.

#[global] Instance force_settlement_indexed : Indexed force_settlement_object := λ _ _, false.

Record collateral_bid_object := CollateralBid {
  cb_bidder : account_id_type;
  cb_inv_swan_price : price }.

Definition get_additional_collateral (b : collateral_bid_object) : asset := base (cb_inv_swan_price b).
Definition get_debt_covered (b : collateral_bid_object) : asset := quote (cb_inv_swan_price b).
Definition bid_debt_type (b : collateral_bid_object) : asset_id_type := asset_id (quote (cb_inv_swan_price b)).

#[global] Instance collateral_bid_indexed : Indexed collateral_bid_object := λ x y,
  (bid_debt_type x =? bid_debt_type y) && (cb_bidder x =? cb_bidder y).

#[global] Instance call_order_indexed : Indexed call_order_object := λ x y,
  (borrower x =? borrower y) && (debt_type x =? debt_type y).

Record mdatabase := MDatabase {
  md_db : database;
  md_bitassets : gmap asset_id_type asset_bitasset_data_object;
  md_calls : table call_order_object;
  md_settlements : table force_settlement_object;
  md_bids : table collateral_bid_object;
  md_settled_debt : gset Z;
  md_issue_453 : gset asset_id_type }.

Definition set_mdb (d : database) (s : mdatabase) : mdatabase :=
  MDatabase d (md_bitassets s) (md_calls s) (md_settlements s) (md_bids s) (md_settled_debt s) (md_issue_453 s).
Definition set_bitassets (m : gmap asset_id_type asset_bitasset_data_object) (s : mdatabase) : mdatabase :=
  MDatabase (md_db s) m (md_calls s) (md_settlements s) (md_bids s) (md_settled_debt s) (md_issue_453 s).
Definition set_calls (t : table call_order_object) (s : mdatabase) : mdatabase :=
  MDatabase (md_db s) (md_bitassets s) t (md_settlements s) (md_bids s) (md_settled_debt s) (md_issue_453 s).
Definition set_settlements (t : table force_settlement_object) (s : mdatabase) : mdatabase :=
  MDatabase (md_db s) (md_bitassets s) (md_calls s) t (md_bids s) (md_settled_debt s) (md_issue_453 s).
Definition set_bids (t : table collateral_bid_object) (s : mdatabase) : mdatabase :=
  MDatabase (md_db s) (md_bitassets s) (md_calls s) (md_settlements s) t (md_settled_debt s) (md_issue_453 s).
Definition set_settled_debt (x : gset Z) (s : mdatabase) : mdatabase :=
  MDatabase (md_db s) (md_bitassets s) (md_calls s) (md_settlements s) (md_bids s) x (md_issue_453 s).
Definition set_issue_453 (x : gset asset_id_type) (s : mdatabase) : mdatabase :=
  MDatabase (md_db s) (md_bitassets s) (md_calls s) (md_settlements s) (md_bids s) (md_settled_debt s) x.

(** A routine of the [database]. *)
Definition on_db (r : database → result database) (s : mdatabase) : result mdatabase :=
  d ← r (md_db s); Ok (set_mdb d s).

Definition head_time (s : mdatabase) : Z := head_block_time (md_db s).
Definition maint_time (s : mdatabase) : Z := next_maintenance_time (md_db s).

Definition get_bitasset (s : mdatabase) (a : asset_id_type) : result asset_bitasset_data_object :=
  find_object (md_bitassets s) a.
Definition modify_bitasset (a : asset_id_type)
    (m : asset_bitasset_data_object → result asset_bitasset_data_object) (s : mdatabase) : result mdatabase :=
  b ← get_bitasset s a; b' ← m b; Ok (set_bitassets (<[a := b']> (md_bitassets s)) s).

Definition get_call (s : mdatabase) (id : Z) : result call_order_object := tbl_get (md_calls s) id.
Definition get_settlement (s : mdatabase) (id : Z) : result force_settlement_object := tbl_get (md_settlements s) id.

(** Updates of a bitasset's members. *)
Definition ba_with_individual (b : asset_bitasset_data_object) (debt fund : share_type) : asset_bitasset_data_object :=
  Bitasset (ba_asset_id b) (ba_options b) (ba_feeds b) (median_feed b) (current_feed b) (current_feed_publication_time b)
    (current_maintenance_collateralization b) (current_initial_collateralization b) (is_prediction_market b)
    (force_settled_volume b) (ba_settlement_price b) (settlement_fund b) debt fund (asset_cer_updated b) (feed_cer_updated b).
Definition ba_with_settlement (b : asset_bitasset_data_object) (p : price) (fund : share_type) : asset_bitasset_data_object :=
  Bitasset (ba_asset_id b) (ba_options b) (ba_feeds b) (median_feed b) (current_feed b) (current_feed_publication_time b)
    (current_maintenance_collateralization b) (current_initial_collateralization b) (is_prediction_market b)
    (force_settled_volume b) p fund (individual_settlement_debt b) (individual_settlement_fund b)
    (asset_cer_updated b) (feed_cer_updated b).
Definition ba_with_volume (b : asset_bitasset_data_object) (v : share_type) : asset_bitasset_data_object :=
  Bitasset (ba_asset_id b) (ba_options b) (ba_feeds b) (median_feed b) (current_feed b) (current_feed_publication_time b)
    (current_maintenance_collateralization b) (current_initial_collateralization b) (is_prediction_market b)
    v (ba_settlement_price b) (settlement_fund b) (individual_settlement_debt b) (individual_settlement_fund b)
    (asset_cer_updated b) (feed_cer_updated b).

(** The options with [black_swan_response_method] reset. *)
Definition without_response_method (o : bitasset_options) : bitasset_options :=
  BitassetOptions (feed_lifetime_sec o) (minimum_feeds o) (force_settlement_delay_sec o)
    (force_settlement_offset_percent o) (maximum_force_settlement_volume o) (short_backing_asset o)
    (ext_initial_collateral_ratio o) (ext_maintenance_collateral_ratio o) (ext_maximum_short_squeeze_ratio o)
    (ext_margin_call_fee_ratio o) (ext_force_settle_fee_percent o) None.
(** What a global settlement writes. *)
Definition ba_globally_settled (b : asset_bitasset_data_object) (p : price) (fund : share_type) : asset_bitasset_data_object :=
  Bitasset (ba_asset_id b) (without_response_method (ba_options b)) (ba_feeds b) (median_feed b) (median_feed b)
    (current_feed_publication_time b) (current_maintenance_collateralization b) (current_initial_collateralization b)
    (is_prediction_market b) (force_settled_volume b) p fund 0 0 (asset_cer_updated b) (feed_cer_updated b).

(** ** Indexes *)

(** The call orders of an index, in its order. *)
Definition call_idx (key : call_order_object → price) (calls : gmap Z call_order_object) : list (Z * call_order_object) :=
  merge_sort (λ x y, Is_true (negb (call_before key y x))) (map_to_list calls).
Definition call_such (p : Z * call_order_object → bool) (l : list (Z * call_order_object)) : option Z :=
  (λ r, r.2.1) <$> list_find (λ x, Is_true (p x)) l.

(** [lower_bound], [upper_bound] and [++]. *)
Definition call_lower_bound (key : call_order_object → price) (p : price) (s : mdatabase) : option Z :=
  fst <$> first_from key p (rows (md_calls s)).
Definition call_upper_bound (key : call_order_object → price) (p : price) (s : mdatabase) : option Z :=
  call_such (λ c, price_ltb p (key c.2)) (call_idx key (rows (md_calls s))).
Definition next_call (key : call_order_object → price) (id : Z) (s : mdatabase) : result (option Z) :=
  c ← get_call s id;
  Ok (call_such (λ x, call_before key (id, c) x) (call_idx key (rows (md_calls s)))).

(** The index [by_expiration] of settlement orders: by asset, date and id. *)
Definition settlement_before (x y : Z * force_settlement_object) : bool :=
  let ax := asset_id (fs_balance x.2) in let ay := asset_id (fs_balance y.2) in
  (ax <? ay) || ((ax =? ay) && ((fs_settlement_date x.2 <? fs_settlement_date y.2)
    || ((fs_settlement_date x.2 =? fs_settlement_date y.2) && (x.1 <? y.1)))).
(** The least element satisfying [p]. *)
Definition least_such {A} (before : Z * A → Z * A → bool) (p : Z * A → bool) (m : gmap Z A) : option (Z * A) :=
  foldr (λ x acc, if p x then match acc with
                              | Some y => if before x y then Some x else acc
                              | None => Some x
                              end else acc) None (map_to_list m).
Definition settlement_lower_bound (a : asset_id_type) (s : mdatabase) : option (Z * force_settlement_object) :=
  least_such settlement_before (λ x, a <=? asset_id (fs_balance x.2)) (rows (md_settlements s)).
(** The first settlement order of asset [a]. *)
Definition first_settlement (a : asset_id_type) (s : mdatabase) : option (Z * force_settlement_object) :=
  match settlement_lower_bound a s with
  | Some x => if asset_id (fs_balance x.2) =? a then Some x else None
  | None => None
  end.

(** [find_settled_debt_order], through the index [by_is_settled_debt]. *)
Definition find_settled_debt_order (a : asset_id_type) (s : mdatabase) : option (Z * limit_order_object) :=
  least_such (λ x y, x.1 <? y.1) (λ x, bool_decide (x.1 ∈ md_settled_debt s) && (receive_asset_id x.2 =? a))
    (rows (limit_orders (md_db s))).
