(* ===== verification/DebtMarket.v ===== *)
(** * Margin calls, settlement and their matching

    The part of chain/db_market.cpp that concerns debt positions: filling call and settlement orders, matching them with
    each other and with limit orders, individual and global settlement, bids, and [check_for_blackswan].  The loops
    that find the orders to match are in MarginCalls.v.

    References to objects are ids, looked up when the code follows them; iterators are ids with
    [None] for the end.  An exception leaves no state behind, since the operation is undone. The virtual operations the
    code pushes for observers are left out. *)
From S2P Require Import Prelude MachineInt Hardfork Asset PriceRatio CallOrder PriceFeed ChainState Ledger Balance Fees LimitOrder DebtState.

(** [a > b] of two assets. *)
Definition asset_gt (a b : asset) : result bool := asset_lt b a.
(** [std::min( a, b )] of two assets. *)
Definition asset_min (a b : asset) : result asset := c ← asset_lt b a; Ok (if c : bool then b else a).

(** The fee goes to the member for fees in the asset itself or to the one for fees in its collateral. *)
Definition accumulate_fee (a : asset_id_type) (fee : asset) (s : mdatabase) : result mdatabase :=
  if amount fee =? 0 then Ok s
  else
    FC_ASSERT (0 <=? amount fee) "Fee amount must be non-negative.";;
    if asset_id fee =? a then
      on_db (modify_dynamic_data a (λ o, v ← share_add (accumulated_fees o) (amount fee); Ok (dd_with_fees o v))) s
    else
      obj ← get_asset (md_db s) a;
      FC_ASSERT (is_market_issued obj) "Asset cannot accept fee of asset";;
      b ← get_bitasset s a;
      FC_ASSERT (asset_id fee =? short_backing_asset (ba_options b)) "Asset cannot accept fee of asset";;
      on_db (modify_dynamic_data a (λ o,
        v ← share_add (accumulated_collateral_fees o) (amount fee); Ok (dd_with_collateral_fees o v))) s.

Definition pay_force_settle_fees (a : asset_id_type) (collat_receives : asset) (s : mdatabase)
    : result (mdatabase * asset) :=
  FC_ASSERT (negb (a =? asset_id collat_receives)) "collecting_asset.get_id() != collat_receives.asset_id";;
  b ← get_bitasset s a;
  let percent := default 0 (ext_force_settle_fee_percent (ba_options b)) in
  if percent =? 0 then Ok (s, Asset 0 (asset_id collat_receives))
  else
    value ← calculate_percent (amount collat_receives) percent;
    let settle_fee := Asset value (asset_id collat_receives) in
    s ← (if 0 <? value then accumulate_fee a settle_fee s else Ok s);
    Ok (s, settle_fee).

Section debt_market.
Context `{FeeSchedule} `{NthElement price_feed_with_icr}.
(** What pushing an order's automatic operation does, see [LimitOrder.push_virtual]. *)
Variable push : virtual_operation → database → result (database * Z).

Definition fill_limit (id : Z) (pays receives : asset) (cull_if_small is_maker : bool) (s : mdatabase)
    : result (mdatabase * bool) :=
  '(d, filled) ← fill_limit_order push id pays receives cull_if_small is_maker (md_db s);
  Ok (set_mdb d s, filled).

(** ** Filling *)

(** The call order after [receives] was paid off with [pays]: the new order and the collateral it frees. *)
Definition reduce_call (before_1270 after_343 : bool) (mcr : Z) (pays receives : share_type) (o : call_order_object)
    : result (call_order_object * option asset) :=
  debt' ← share_sub (debt o) receives;
  collateral' ← share_sub (collateral o) pays;
  if debt' =? 0 then
    Ok (CallOrderObject (borrower o) 0 debt' (co_call_price o) (target_collateral_ratio o),
        Some (Asset collateral' (collateral_type o)))
  else
    p ← (if before_1270 && after_343 then
           call_price (Asset debt' (debt_type o)) (Asset collateral' (collateral_type o)) mcr
         else Ok (co_call_price o));
    Ok (CallOrderObject (borrower o) collateral' debt' p (target_collateral_ratio o), None).

Definition fill_call_order (id : Z) (pays receives margin_call_fee : asset) (reduce_current_supply : bool) (s : mdatabase)
    : result (mdatabase * bool) :=
  order ← get_call s id;
  FC_ASSERT (debt_type order =? asset_id receives) "order.debt_type() == receives.asset_id";;
  FC_ASSERT (collateral_type order =? asset_id pays) "order.collateral_type() == pays.asset_id";;
  FC_ASSERT (amount pays <=? collateral order) "order.collateral >= pays.amount";;
  let a := asset_id receives in
  mia ← get_asset (md_db s) a;
  FC_ASSERT (is_market_issued mia) "mia.is_market_issued()";;
  b ← get_bitasset s a;
  '(order', collateral_freed) ←
    reduce_call (maint_time s <=? HARDFORK_CORE_1270_TIME) (HARDFORK_CORE_343_TIME <? maint_time s)
      (maintenance_collateral_ratio (current_feed b)) (amount pays) (amount receives) order;
  t ← tbl_modify id (λ _, Ok order') (md_calls s);
  let s := set_calls t s in
  s ← (if reduce_current_supply then
         on_db (modify_dynamic_data a (λ o, v ← share_sub (current_supply o) (amount receives); Ok (dd_with_supply o v))) s
       else Ok s);
  s ← (if collateral_freed is Some c then on_db (adjust_balance (borrower order) c) s else Ok s);
  s ← (if asset_id pays =? core_asset_id then
         s ← on_db (sub_core_in_orders (borrower order) (amount pays)) s;
         if collateral_freed is Some c then on_db (sub_core_in_orders (borrower order) (amount c)) s else Ok s
       else Ok s);
  s ← (if negb (amount margin_call_fee =? 0) then accumulate_fee a margin_call_fee s else Ok s);
  match collateral_freed with
  | Some _ => t ← tbl_remove id (md_calls s); Ok (set_calls t s, true)
  | None => Ok (s, false)
  end.

Definition cancel_settle_order (id : Z) (s : mdatabase) : result mdatabase :=
  o ← get_settlement s id;
  s ← on_db (adjust_balance (fs_owner o) (fs_balance o)) s;
  t ← tbl_remove id (md_settlements s);
  Ok (set_settlements t s).

Definition fill_settle_order (id : Z) (pays receives : asset) (is_maker pay_force_settle_fee : bool) (s : mdatabase)
    : result (mdatabase * bool) :=
  settle ← get_settlement s id;
  let seller := if HARDFORK_CORE_1780_TIME <=? head_time s then Some (fs_owner settle) else None in
  '(d, market_fees) ← pay_market_fees seller (asset_id receives) receives is_maker None (md_db s);
  let s := set_mdb d s in
  '(s, force_settle_fees) ←
    (if pay_force_settle_fee then
       rest ← asset_sub receives market_fees; pay_force_settle_fees (asset_id pays) rest s
     else Ok (s, Asset 0 (asset_id receives)));
  total_fees ← asset_add market_fees force_settle_fees;
  partial ← asset_lt pays (fs_balance settle);
  s ← (if (partial : bool) then
         t ← tbl_modify id (λ o, b ← asset_sub (fs_balance o) pays;
               Ok (ForceSettlement (fs_owner o) b (fs_settlement_date o))) (md_settlements s);
         Ok (set_settlements t s)
       else Ok s);
  rest ← asset_sub receives total_fees;
  s ← on_db (adjust_balance (fs_owner settle) rest) s;
  if (partial : bool) then Ok (s, false)
  else t ← tbl_remove id (md_settlements s); Ok (set_settlements t s, true).

(** ** The current feed and the settled debt order *)

(** What the settled debt order of bitasset [b] sells and at which price: enough to buy back all debt at the price of
    margin calls if the fund is large enough, else the whole fund. *)
Definition settled_debt_terms (b : asset_bitasset_data_object) (receive : asset_id_type) : result (share_type * price) :=
  p ← get_margin_call_order_price b;
  let sell_all := p ← get_individual_settlement_price b; Ok (individual_settlement_fund b, price_flip p) in
  match multiply_and_round_up (Asset (individual_settlement_debt b) receive) (price_flip p) with
  | Ok x => if amount x <=? individual_settlement_fund b then Ok (amount x, price_flip p) else sell_all
  | Err _ => sell_all
  end.

Definition lo_with_terms (t : share_type * price) (o : limit_order_object) : limit_order_object :=
  LimitOrderObject (lo_expiration o) (lo_seller o) t.1 t.2 (lo_filled_amount o) (lo_deferred_fee o)
    (lo_deferred_paid_fee o) (lo_on_fill o) (lo_take_profit_order_id o).

Definition update_settled_debt_order (a : asset_id_type) (s : mdatabase) : result mdatabase :=
  b ← get_bitasset s a;
  if price_is_null (settlement_price (current_feed b)) then Ok s
  else match find_settled_debt_order a s with
  | None => Ok s
  | Some (id, o) =>
    t ← settled_debt_terms b (receive_asset_id o);
    on_db (modify_limit_order id (λ o, Ok (lo_with_terms t o))) s
  end.

Definition update_current_feed (a : asset_id_type) (skip_median_update : bool) (s : mdatabase) : result mdatabase :=
  b ← get_bitasset s a;
  b' ← update_bitasset_current_feed (rows (md_calls s)) (head_time s) (maint_time s) b skip_median_update;
  let s := set_bitassets (<[a := b']> (md_bitassets s)) s in
  if negb skip_median_update
     && (match bsrm b with individual_settlement_to_order => true | _ => false end)
     && HARDFORK_CORE_2591_PASSED (head_time s)
  then update_settled_debt_order a s else Ok s.

(** [remove( order )] of a settled debt order. *)
Definition remove_settled_debt_order (id : Z) (s : mdatabase) : result mdatabase :=
  t ← tbl_remove id (limit_orders (md_db s));
  Ok (set_settled_debt (md_settled_debt s ∖ {[id]}) (set_mdb (set_limit_orders t (md_db s)) s)).

(** ** Individual settlement *)

Definition is_individual (m : black_swan_response_type) : bool :=
  match m with individual_settlement_to_fund | individual_settlement_to_order => true | _ => false end.

(** The order that sells the collateral of settled debt: updated, or created. *)
Definition settle_to_order (a : asset_id_type) (order_debt fund_receives : asset) (s : mdatabase) : result mdatabase :=
  match find_settled_debt_order a s with
  | Some (id, o) =>
    b ← get_bitasset s a;
    t ← (if HARDFORK_CORE_2591_PASSED (head_time s) then settled_debt_terms b (receive_asset_id o)
         else p ← get_individual_settlement_price b; Ok (individual_settlement_fund b, price_flip p));
    on_db (modify_limit_order id (λ o, Ok (lo_with_terms t o))) s
  | None =>
    p ← make_price fund_receives order_debt;
    '(id, t) ← tbl_create (LimitOrderObject time_point_sec_maximum GRAPHENE_NULL_ACCOUNT (amount fund_receives) p 0 0
                 zero_asset [] None) (limit_orders (md_db s));
    Ok (set_settled_debt (md_settled_debt s ∪ {[id]}) (set_mdb (set_limit_orders t (md_db s)) s))
  end.

Definition individually_settle (a : asset_id_type) (id : Z) (s : mdatabase) : result mdatabase :=
  order ← get_call s id;
  b ← get_bitasset s a;
  FC_ASSERT (a =? debt_type order) "Internal error: asset type mismatch";;
  FC_ASSERT (is_individual (bsrm b)) "Internal error: Invalid BSRM";;
  let order_debt := get_debt order in
  let order_collateral := get_collateral order in
  c ← collateralization order;
  let '(n, dn) := get_margin_call_pays_ratio b in
  fund_receives_price ← price_div_ratio (price_flip c) n dn;
  fund_receives ← multiply_and_round_up order_debt fund_receives_price;
  let fund_receives := if collateral order <? amount fund_receives then Asset (collateral order) (asset_id fund_receives)
                       else fund_receives in
  margin_call_fee ← asset_sub order_collateral fund_receives;
  s ← modify_bitasset a (λ b,
        debt' ← share_add (individual_settlement_debt b) (debt order);
        fund' ← share_add (individual_settlement_fund b) (amount fund_receives);
        Ok (ba_with_individual b debt' fund')) s;
  s ← (match bsrm b with
       | individual_settlement_to_order => settle_to_order a order_debt fund_receives s
       | _ => Ok s
       end);
  '(s, closed) ← fill_call_order id order_collateral order_debt margin_call_fee false s;
  FC_ASSERT closed "Internal error: unable to close margin call";;
  match bsrm b with
  | individual_settlement_to_fund => update_current_feed a true s
  | _ => Ok s
  end.

(** ** Global settlement *)

Record gs_loop := GsLoop {
  gs_state : mdatabase;
  is_margin_call : bool;
  gs_call_pays_price : price;
  collateral_gathered : asset }.

(** One position of the loop of [globally_settle_asset_impl]. *)
Definition close_position (margin_end : option Z) (fund_receives_price : price) (l : gs_loop) (id : Z) : result gs_loop :=
  let at_end := is_margin_call l && bool_decide (Some id = margin_end) in
  let margin := is_margin_call l && negb at_end in
  let call_pays_price := if at_end then fund_receives_price else gs_call_pays_price l in
  let s := gs_state l in
  order ← get_call s id;
  let order_debt := get_debt order in
  pays ← (if maint_time s <=? HARDFORK_CORE_342_TIME then asset_mul_price order_debt call_pays_price
          else multiply_and_round_up order_debt call_pays_price);
  over ← asset_gt pays (get_collateral order);
  let pays := if (over : bool) then get_collateral order else pays in
  fund_receives ←
    (if margin then
       x ← multiply_and_round_up order_debt fund_receives_price;
       over ← asset_gt x pays;
       Ok (if (over : bool) then pays else x)
     else Ok pays);
  margin_call_fee ← (if margin then asset_sub pays fund_receives
                     else Ok (Asset 0 (asset_id (collateral_gathered l))));
  gathered ← asset_add (collateral_gathered l) fund_receives;
  '(s, closed) ← fill_call_order id pays order_debt margin_call_fee false s;
  FC_ASSERT closed "Internal error: unable to close margin call";;
  Ok (GsLoop s margin call_pays_price gathered).

Fixpoint close_positions (margin_end : option Z) (fund_receives_price : price) (ids : list Z) (l : gs_loop) : result gs_loop :=
  match ids with
  | [] => Ok l
  | id :: ids => l ← close_position margin_end fund_receives_price l id; close_positions margin_end fund_receives_price ids l
  end.

(** The positions of a bitasset in the order of an index, and the one after them. *)
Definition positions_of (key : call_order_object → price) (call_min call_max : price) (s : mdatabase) : list Z :=
  map fst (filter (λ c, Is_true (negb (price_ltb (key c.2) call_min) && negb (price_ltb call_max (key c.2))))
    (call_idx key (rows (md_calls s)))).

Definition globally_settle_asset (a : asset_id_type) (settlement_price : price) (check_margin_calls : bool) (s : mdatabase)
    : result mdatabase :=
  let key := if maint_time s <=? HARDFORK_CORE_1669_TIME then co_call_price else collateralization_key in
  b ← get_bitasset s a;
  FC_ASSERT (negb (is_globally_settled b)) "black swan already occurred, it should not happen again";;
  let backing := short_backing_asset (ba_options b) in
  dyn ← get_dynamic_data (md_db s) a;
  let original_mia_supply := current_supply dyn in
  call_min ← price_min backing a;
  call_max ← price_max backing a;
  let call_end := call_upper_bound key call_max s in
  let ids := positions_of key call_min call_max s in
  let margin_end := if check_margin_calls then call_upper_bound key (current_maintenance_collateralization b) s else call_end in
  fund_receives_price ←
    (if check_margin_calls then
       price_mul_ratio settlement_price (maximum_short_squeeze_ratio (current_feed b)) GRAPHENE_COLLATERAL_RATIO_DENOM
     else Ok settlement_price);
  let call_itr := match ids with id :: _ => Some id | [] => call_end end in
  let margin := check_margin_calls && negb (bool_decide (call_itr = margin_end)) in
  l ← close_positions margin_end fund_receives_price ids (GsLoop s margin settlement_price (Asset 0 backing));
  let s := gs_state l in
  s ← (match find_settled_debt_order a s with
       | Some (id, _) => remove_settled_debt_order id s
       | None => Ok s
       end);
  b ← get_bitasset s a;
  gathered ← share_add (amount (collateral_gathered l)) (individual_settlement_fund b);
  p ← make_price (Asset original_mia_supply a) (Asset gathered backing);
  modify_bitasset a (λ b, Ok (ba_globally_settled b p gathered)) s.

(** ** Bids *)

Definition cancel_bid (id : Z) (s : mdatabase) : result mdatabase :=
  bid ← tbl_get (md_bids s) id;
  s ← on_db (adjust_balance (cb_bidder bid) (get_additional_collateral bid)) s;
  t ← tbl_remove id (md_bids s);
  Ok (set_bids t s).

Definition execute_bid (id : Z) (debt_covered collateral_from_fund : share_type) (mcr : Z) (s : mdatabase)
    : result mdatabase :=
  bid ← tbl_get (md_bids s) id;
  let backing := asset_id (get_additional_collateral bid) in
  collateral' ← share_add (amount (get_additional_collateral bid)) collateral_from_fund;
  p ← (if HARDFORK_CORE_1270_TIME <? maint_time s then make_price (Asset 1 backing) (Asset 1 (bid_debt_type bid))
       else call_price (Asset debt_covered (bid_debt_type bid)) (Asset collateral' backing) mcr);
  '(_, t) ← tbl_create (CallOrderObject (cb_bidder bid) collateral' debt_covered p None) (md_calls s);
  let s := set_calls t s in
  s ← (if backing =? core_asset_id then on_db (add_core_in_orders (cb_bidder bid) collateral') s else Ok s);
  t ← tbl_remove id (md_bids s);
  Ok (set_bids t s).

(** Cancel the bids for asset [a], best first: one round per bid. *)
Definition bid_before (x y : Z * collateral_bid_object) : bool :=
  price_ltb (cb_inv_swan_price y.2) (cb_inv_swan_price x.2)
  || (negb (price_ltb (cb_inv_swan_price x.2) (cb_inv_swan_price y.2)) && (x.1 <? y.1)).
Fixpoint cancel_bids (fuel : nat) (a : asset_id_type) (s : mdatabase) : result mdatabase :=
  match fuel with
  | O => Ok s
  | S fuel =>
    match least_such bid_before (λ x, bid_debt_type x.2 =? a) (rows (md_bids s)) with
    | None => Ok s
    | Some (id, _) => s ← cancel_bid id s; cancel_bids fuel a s
    end
  end.

Definition _cancel_bids_and_revive_mpa (a : asset_id_type) (s : mdatabase) : result mdatabase :=
  obj ← get_asset (md_db s) a;
  FC_ASSERT (is_market_issued obj) "bitasset.is_market_issued()";;
  b ← get_bitasset s a;
  FC_ASSERT (is_globally_settled b) "bad.is_globally_settled()";;
  FC_ASSERT (negb (is_prediction_market b)) "!bad.is_prediction_market";;
  s ← cancel_bids (size (rows (md_bids s))) a s;
  modify_bitasset a (λ b, Ok (ba_with_settlement b null_price 0)) s.

Definition revive_bitasset (a : asset_id_type) (s : mdatabase) : result mdatabase :=
  obj ← get_asset (md_db s) a;
  FC_ASSERT (is_market_issued obj) "bitasset.is_market_issued()";;
  b ← get_bitasset s a;
  FC_ASSERT (is_globally_settled b) "bad.is_globally_settled()";;
  FC_ASSERT (negb (is_prediction_market b)) "!bad.is_prediction_market";;
  FC_ASSERT (negb (price_is_null (settlement_price (current_feed b)))) "!bad.current_feed.settlement_price.is_null()";;
  bdd ← get_dynamic_data (md_db s) a;
  s ← (if 0 <? current_supply bdd then
         p ← make_price (Asset 0 (short_backing_asset (ba_options b))) (Asset (current_supply bdd) a);
         '(id, t) ← tbl_create (CollateralBid (ao_issuer obj) p) (md_bids s);
         execute_bid id (current_supply bdd) (settlement_fund b) (maintenance_collateral_ratio (current_feed b))
           (set_bids t s)
       else FC_ASSERT (settlement_fund b =? 0) "bad.settlement_fund == 0";; Ok s);
  _cancel_bids_and_revive_mpa a s.

(** ** Black swans *)

(** The price a position must be able to pay, given the price of the best matching limit order, if any. *)
Definition highest_price (b : asset_bitasset_data_object) (maint : Z) (bid : option (asset_id_type * price)) : result price :=
  highest ←
    (match bsrm b with
     | individual_settlement_to_fund => max_short_squeeze_price (feed (median_feed b))
     | _ =>
       if HARDFORK_CORE_1270_TIME <? maint then max_short_squeeze_price (feed (current_feed b))
       else if HARDFORK_CORE_338_TIME <? maint then max_short_squeeze_price_before_hf_1270 (feed (current_feed b))
       else Ok (settlement_price (current_feed b))
     end);
  match bid with
  | None => Ok highest
  | Some (bid_asset, call_pays_price) =>
    FC_ASSERT (asset_id (base highest) =? bid_asset) "highest.base.asset_id == limit_itr->sell_price.base.asset_id";;
    match bsrm b with
    | individual_settlement_to_fund =>
      mssp ← max_short_squeeze_price (feed (current_feed b));
      Ok (if negb (price_ltb call_pays_price mssp) then call_pays_price else highest)
    | _ => Ok (std_max call_pays_price highest)
    end
  end.

(** [while( true )]: every round but the last settles a position. *)
Fixpoint blackswan_loop (fuel : nat) (a : asset_id_type) (enable_black_swan : bool) (bid : option (asset_id_type * price))
    (call : Z * call_order_object) (settled_some : bool) (s : mdatabase) : result (mdatabase * bool) :=
  b ← get_bitasset s a;
  highest ← highest_price b (maint_time s) bid;
  least_collateral ← collateralization call.2;
  let after_2481 := HARDFORK_CORE_2481_PASSED (maint_time s) in
  let swan := price_flip least_collateral in
  let is_blackswan := if after_2481 then price_ltb highest swan else negb (price_ltb swan highest) in
  if negb is_blackswan then Ok (s, settled_some)
  else
    FC_ASSERT enable_black_swan
      "Black swan was detected during a margin update which is not allowed to trigger a blackswan";;
    if is_individual (bsrm b) then
      s ← individually_settle a call.1 s;
      b ← get_bitasset s a;
      next ← find_least_collateralized_short (rows (md_calls s)) (maint_time s) b true;
      match next, fuel with
      | None, _ => Ok (s, true)
      | Some c, S fuel => blackswan_loop fuel a enable_black_swan bid c true s
      | Some _, O => Err (assert_exception "out of fuel")
      end
    else
      s ← (if after_2481 then globally_settle_asset a swan true s
           else if (HARDFORK_CORE_338_TIME <? maint_time s)
                   && negb (price_ltb (settlement_price (current_feed b)) swan)
           then globally_settle_asset a (settlement_price (current_feed b)) false s
           else globally_settle_asset a swan false s);
      Ok (s, true).

(** The asset sold by the best limit order that buys the collateral, if any, and the price a margin call pays it. *)
Definition best_bid (a : asset_id_type) (b : asset_bitasset_data_object) (s : mdatabase) : result (option (asset_id_type * price)) :=
  highest_possible_bid ← price_max a (short_backing_asset (ba_options b));
  lowest_possible_bid ← price_min a (short_backing_asset (ba_options b));
  FC_ASSERT (asset_id (base highest_possible_bid) =? asset_id (base lowest_possible_bid))
    "highest_possible_bid.base.asset_id == lowest_possible_bid.base.asset_id";;
  let limit_itr := lower_bound (md_db s) highest_possible_bid in
  let limit_end := upper_bound (md_db s) lowest_possible_bid in
  if bool_decide (limit_itr = limit_end) then Ok None
  else match limit_itr with
  | None => Err (assert_exception "dereference of limit_price_index.end()")
  | Some id =>
    o ← get_limit_order (md_db s) id;
    let p := lo_sell_price o in
    let '(n, dn) := get_margin_call_pays_ratio b in
    call_pays_price ← (if HARDFORK_CORE_2481_PASSED (maint_time s) then price_mul_ratio p n dn else Ok p);
    Ok (Some (asset_id (base p), call_pays_price))
  end.

Definition check_for_blackswan (a : asset_id_type) (enable_black_swan : bool) (s : mdatabase) : result (mdatabase * bool) :=
  obj ← get_asset (md_db s) a;
  if negb (is_market_issued obj) then Ok (s, false)
  else
    b ← get_bitasset s a;
    if is_globally_settled b then Ok (s, true)
    else if price_is_null (settlement_price (current_feed b)) then Ok (s, false)
    else
      let after_2481 := HARDFORK_CORE_2481_PASSED (maint_time s) in
      if after_2481 && bool_decide (is_Some (first_settlement a s)) then Ok (s, false)
      else
        call ← find_least_collateralized_short (rows (md_calls s)) (maint_time s) b false;
        match call with
        | None => Ok (s, false)
        | Some call =>
          bid ← best_bid a b s;
          blackswan_loop (size (rows (md_calls s))) a enable_black_swan bid call false s
        end.

(** ** Matching limit orders with settled debt *)

Definition is_settled_debt (id : Z) (s : mdatabase) : bool := bool_decide (id ∈ md_settled_debt s).

(** What the settled debt pays: everything if its debt is all bought back, else its share of the fund. *)
Definition settled_debt_pays (filled : bool) (for_sale : share_type) (b : asset_bitasset_data_object)
    (call_receives order_receives : asset) : result asset :=
  call_pays ←
    (if filled then Ok (Asset (individual_settlement_fund b) (asset_id order_receives))
     else if negb (for_sale =? individual_settlement_fund b) then
       p ← get_individual_settlement_price b; asset_mul_price call_receives p
     else Ok order_receives);
  less ← asset_lt call_pays order_receives;
  Ok (if (less : bool) then order_receives else call_pays).

(** Reduce the supply and the settled debt, accumulate the collateral fee. *)
Definition cover_settled_debt (a : asset_id_type) (call_receives call_pays collateral_fee : asset) (s : mdatabase)
    : result mdatabase :=
  s ← on_db (modify_dynamic_data a (λ o,
        v ← share_sub (current_supply o) (amount call_receives);
        f ← share_add (accumulated_collateral_fees o) (amount collateral_fee);
        Ok (dd_with_collateral_fees (dd_with_supply o v) f))) s;
  modify_bitasset a (λ b,
    debt' ← share_sub (individual_settlement_debt b) (amount call_receives);
    fund' ← share_sub (individual_settlement_fund b) (amount call_pays);
    Ok (ba_with_individual b debt' fund')) s.

(** The settled debt order after a part of it was sold. *)
Definition remaining_terms (b : asset_bitasset_data_object) (o : limit_order_object) : result (share_type * price) :=
  x ← multiply_and_round_up (Asset (individual_settlement_debt b) (receive_asset_id o)) (lo_sell_price o);
  if individual_settlement_fund b <? amount x then
    p ← get_individual_settlement_price b; Ok (individual_settlement_fund b, price_flip p)
  else Ok (amount x, lo_sell_price o).

Definition match_limit_settled_debt (taker maker : Z) (match_price : price) (s : mdatabase)
    : result (mdatabase * match_result_type) :=
  FC_ASSERT (is_settled_debt maker s) "Internal error: maker is not settled debt";;
  FC_ASSERT (negb (is_settled_debt taker s)) "Internal error: taker is settled debt";;
  t ← get_limit_order (md_db s) taker;
  m ← get_limit_order (md_db s) maker;
  let a := receive_asset_id m in
  get_asset (md_db s) a;;
  b ← get_bitasset s a;
  let usd_for_sale := amount_for_sale t in
  let usd_to_buy := Asset (individual_settlement_debt b) a in
  larger ← asset_gt usd_to_buy usd_for_sale;
  '(call_receives, order_receives) ←
    (if (larger : bool) then
       x ← asset_mul_price usd_for_sale match_price;
       if amount x =? 0 then Ok (usd_for_sale, x)
       else y ← multiply_and_round_up x match_price; Ok (y, x)
     else Ok (usd_to_buy, amount_for_sale m));
  if (larger : bool) && (amount order_receives =? 0) then Ok (s, only_taker_filled)
  else
    let maker_filled := negb larger in
    '(s, taker_filled) ← fill_limit taker call_receives order_receives larger false s;
    call_pays ← settled_debt_pays maker_filled (lo_for_sale m) b call_receives order_receives;
    collateral_fee ← asset_sub call_pays order_receives;
    s ← cover_settled_debt a call_receives call_pays collateral_fee s;
    s ← (if maker_filled then remove_settled_debt_order maker s
         else
           b ← get_bitasset s a;
           m ← get_limit_order (md_db s) maker;
           t ← (if HARDFORK_CORE_2591_PASSED (head_time s) then remaining_terms b m
                else p ← get_individual_settlement_price b; Ok (individual_settlement_fund b, price_flip p));
           on_db (modify_limit_order maker (λ o, Ok (lo_with_terms t o))) s);
    Ok (s, get_match_result taker_filled maker_filled).

Definition match_settled_debt_limit (taker maker : Z) (match_price : price) (s : mdatabase)
    : result (mdatabase * match_result_type) :=
  FC_ASSERT (negb (is_settled_debt maker s)) "Internal error: maker is settled debt";;
  FC_ASSERT (is_settled_debt taker s) "Internal error: taker is not settled debt";;
  t ← get_limit_order (md_db s) taker;
  m ← get_limit_order (md_db s) maker;
  let a := receive_asset_id t in
  get_asset (md_db s) a;;
  b ← get_bitasset s a;
  let usd_for_sale := amount_for_sale m in
  let usd_to_buy := Asset (individual_settlement_debt b) a in
  larger ← asset_gt usd_to_buy usd_for_sale;
  let taker_filled := negb larger in
  '(call_receives, order_receives) ←
    (if (larger : bool) then
       x ← asset_mul_price usd_for_sale match_price;
       y ← multiply_and_round_up x match_price; Ok (y, x)
     else
       x ← multiply_and_round_up usd_to_buy match_price; Ok (usd_to_buy, x));
  call_pays ← settled_debt_pays taker_filled (lo_for_sale t) b call_receives order_receives;
  collateral_fee ← asset_sub call_pays order_receives;
  s ← cover_settled_debt a call_receives call_pays collateral_fee s;
  s ← (if taker_filled then remove_settled_debt_order taker s
       else
         b ← get_bitasset s a;
         t ← get_limit_order (md_db s) taker;
         x ← remaining_terms b t;
         on_db (modify_limit_order taker (λ o, Ok (lo_with_terms x o))) s);
  '(s, maker_filled) ← fill_limit maker call_receives order_receives true true s;
  Ok (s, get_match_result taker_filled maker_filled).

(** [match( limit_order_object, limit_order_object, ... )]. *)
Definition match_limit_limit (taker maker : Z) (match_price : price) (s : mdatabase)
    : result (mdatabase * match_result_type) :=
  t ← get_limit_order (md_db s) taker;
  m ← get_limit_order (md_db s) maker;
  FC_ASSERT (receive_asset_id t =? sell_asset_id m)
    "taker.sell_price.quote.asset_id == maker.sell_price.base.asset_id";;
  FC_ASSERT (sell_asset_id t =? receive_asset_id m)
    "taker.sell_price.base.asset_id == maker.sell_price.quote.asset_id";;
  FC_ASSERT ((0 <? lo_for_sale t) && (0 <? lo_for_sale m)) "taker.for_sale > 0 && maker.for_sale > 0";;
  if is_settled_debt maker s then match_limit_settled_debt taker maker match_price s
  else
    FC_ASSERT (negb (is_settled_debt taker s)) "Internal error: taker is settled debt";;
    '(d, r) ← match_limit_normal_limit push taker maker match_price (md_db s);
    Ok (set_mdb d s, r).

(** ** Matching a limit order with a margin call *)

(** The price of the feed that target collateral ratios refer to. *)
Definition feed_price_for_target (b : asset_bitasset_data_object) (s : mdatabase) : price :=
  if HARDFORK_CORE_2582_PASSED (head_time s) then settlement_price (median_feed b)
  else settlement_price (current_feed b).

Definition is_no_settlement (b : asset_bitasset_data_object) : bool :=
  match bsrm b with no_settlement => true | _ => false end.

(** The amounts of a match of a new limit order with a call order: what the call order pays and receives, what the limit
    order receives, and whether to cull the limit order; [None] if it would pay something for nothing. *)
Definition limit_call_amounts (after_2481 : bool) (usd_for_sale usd_to_buy : asset) (match_price call_pays_price : price)
    : result (option (asset * asset * asset * bool)) :=
  larger ← asset_gt usd_to_buy usd_for_sale;
  if (larger : bool) then
    order_receives ← asset_mul_price usd_for_sale match_price;
    if amount order_receives =? 0 then Ok None
    else
      call_receives ← multiply_and_round_up order_receives match_price;
      call_pays ← (if after_2481 then asset_mul_price call_receives call_pays_price
                   else asset_mul_price usd_for_sale call_pays_price);
      Ok (Some (call_pays, call_receives, order_receives, true))
  else
    order_receives ← multiply_and_round_up usd_to_buy match_price;
    call_pays ← multiply_and_round_up usd_to_buy call_pays_price;
    Ok (Some (call_pays, usd_to_buy, order_receives, false)).

(** [match( limit_order_object, call_order_object, ... )]. *)
Definition match_limit_call (bid ask : Z) (match_price : price) (a : asset_id_type) (call_pays_price : price) (s : mdatabase)
    : result (mdatabase * match_result_type) :=
  o ← get_limit_order (md_db s) bid;
  c ← get_call s ask;
  FC_ASSERT (sell_asset_id o =? debt_type c) "bid.sell_asset_id() == ask.debt_type()";;
  FC_ASSERT (receive_asset_id o =? collateral_type c) "bid.receive_asset_id() == ask.collateral_type()";;
  FC_ASSERT ((0 <? lo_for_sale o) && (0 <? debt c) && (0 <? collateral c))
    "bid.for_sale > 0 && ask.debt > 0 && ask.collateral > 0";;
  b ← get_bitasset s a;
  let mc := if HARDFORK_CORE_1270_TIME <? maint_time s then Some (current_maintenance_collateralization b) else None in
  max_debt ← get_max_debt_to_cover c call_pays_price (feed_price_for_target b s)
               (maintenance_collateral_ratio (current_feed b)) mc;
  amounts ← limit_call_amounts (HARDFORK_CORE_2481_PASSED (maint_time s)) (amount_for_sale o)
              (Asset max_debt (debt_type c)) match_price call_pays_price;
  match amounts with
  | None => Ok (s, only_taker_filled)
  | Some (call_pays, call_receives, order_receives, cull_taker) =>
    enough ← asset_ge call_pays order_receives;
    FC_ASSERT enough "call_pays >= order_receives";;
    margin_call_fee ← asset_sub call_pays order_receives;
    '(s, taker_filled) ← fill_limit bid call_receives order_receives cull_taker false s;
    '(s, maker_filled) ← fill_call_order ask call_pays call_receives margin_call_fee true s;
    s ← (if is_no_settlement b then update_current_feed a true s else Ok s);
    Ok (s, get_match_result taker_filled maker_filled)
  end.

(** ** Matching a settlement order with a call order *)

(** What [match_impl] decides: the settlement order is cancelled, nothing happens, or the orders are filled with
    [call_pays], [call_receives], [settle_pays], [settle_receives], the settlement order being culled after that. *)
Inductive settle_decision :=
  | cancel_settlement
  | leave_both
  | fill_both (call_pays call_receives settle_pays settle_receives : asset) (cull_settle_order : bool).

(** The lambda [calculate]: what the settlement order receives, and the call order receives and pays. *)
Definition settle_calculate (settle_pays call_receives call_pays : asset) (match_price fill_price : price)
    : result (asset * asset * asset) :=
  settle_receives ← asset_mul_price settle_pays fill_price;
  if amount settle_receives =? 0 then Ok (settle_receives, call_receives, call_pays)
  else
    call_receives ← multiply_and_round_up settle_receives fill_price;
    call_pays ← asset_mul_price call_receives match_price;
    Ok (settle_receives, call_receives, call_pays).

(** A margin call that meets a smaller settlement order. *)
Definition settle_smaller (c : call_order_object) (pays_ratio : Z * Z) (settle_pays call_receives call_pays : asset)
    (match_price fill_price : price) : result (option (asset * asset * asset)) :=
  '(settle_receives, call_receives, call_pays) ← settle_calculate settle_pays call_receives call_pays match_price fill_price;
  if amount settle_receives =? 0 then Ok None
  else
    cap_price ←
      (if collateral c <=? amount call_pays then Ok true
       else
         new_collateral ← asset_sub (get_collateral c) call_pays;
         new_debt ← asset_sub (get_debt c) call_receives;
         p ← make_price new_collateral new_debt;
         q ← collateralization c;
         Ok (price_ltb p q));
    if (cap_price : bool) then
      match_price ← make_price (get_debt c) (get_collateral c);
      fill_price ← price_div_ratio match_price pays_ratio.1 pays_ratio.2;
      '(settle_receives, call_receives, call_pays) ←
        settle_calculate settle_pays call_receives call_pays match_price fill_price;
      if amount settle_receives =? 0 then Ok None else Ok (Some (settle_receives, call_receives, call_pays))
    else Ok (Some (settle_receives, call_receives, call_pays)).

Definition settle_amounts (maint : Z) (settle_balance : asset) (c : call_order_object) (pays_ratio : Z * Z)
    (max_settlement : asset) (match_price fill_price : price) (is_margin_call : bool) : result settle_decision :=
  let call_debt := get_debt c in
  settle_for_sale ← asset_min settle_balance max_settlement;
  call_receives ← asset_min settle_for_sale call_debt;
  call_pays ← asset_mul_price call_receives match_price;
  let one := Asset 1 (asset_id call_pays) in
  let settle_pays := call_receives in
  if (HARDFORK_CORE_184_TIME <? maint) && (amount call_pays =? 0) then
    if asset_eqb call_receives call_debt then Ok (fill_both one call_receives settle_pays one false)
    else if asset_eqb call_receives settle_balance then Ok cancel_settlement
    else if negb is_margin_call then Ok leave_both
    else Ok (fill_both one call_receives settle_pays one false)
  else if (HARDFORK_CORE_342_TIME <? maint) && negb (amount call_pays =? 0) then
    if asset_eqb call_receives call_debt then
      call_pays ← multiply_and_round_up call_receives match_price;
      if is_margin_call then
        '(call_pays, fill_price) ←
          (if collateral c <? amount call_pays then
             match_price ← make_price call_debt (get_collateral c);
             fill_price ← price_div_ratio match_price pays_ratio.1 pays_ratio.2;
             Ok (Asset (collateral c) (asset_id call_pays), fill_price)
           else Ok (call_pays, fill_price));
        settle_receives ← multiply_and_round_up call_receives fill_price;
        Ok (fill_both call_pays call_receives settle_pays settle_receives false)
      else Ok (fill_both call_pays call_receives settle_pays call_pays false)
    else
      amounts ←
        (if negb is_margin_call then
           x ← multiply_and_round_up call_pays match_price; Ok (Some (call_pays, x, call_pays))
         else if asset_eqb settle_pays max_settlement then
           x ← multiply_and_round_up call_receives match_price;
           y ← multiply_and_round_up call_receives fill_price;
           Ok (Some (y, call_receives, x))
         else settle_smaller c pays_ratio settle_pays call_receives call_pays match_price fill_price);
      match amounts with
      | None => Ok cancel_settlement
      | Some (settle_receives, call_receives, call_pays) =>
        let cull := asset_eqb settle_pays settle_balance && negb (asset_eqb call_receives settle_balance) in
        Ok (fill_both call_pays call_receives call_receives settle_receives cull)
      end
  else Ok (fill_both call_pays call_receives settle_pays call_pays false).

(** [match_impl]; the amount of debt that was covered. *)
Definition match_settle_call (settle call : Z) (match_price : price) (a : asset_id_type) (max_settlement : asset)
    (fill_price : price) (is_margin_call settle_is_taker : bool) (s : mdatabase) : result (mdatabase * asset) :=
  o ← get_settlement s settle;
  c ← get_call s call;
  FC_ASSERT (debt_type c =? asset_id (fs_balance o)) "call.get_debt().asset_id == settle.balance.asset_id";;
  FC_ASSERT ((0 <? debt c) && (0 <? collateral c) && (0 <? amount (fs_balance o)))
    "call.debt > 0 && call.collateral > 0 && settle.balance.amount > 0";;
  b ← get_bitasset s a;
  decision ← settle_amounts (maint_time s) (fs_balance o) c (get_margin_call_pays_ratio b) max_settlement
               match_price fill_price is_margin_call;
  match decision with
  | cancel_settlement => s ← cancel_settle_order settle s; Ok (s, Asset 0 (debt_type c))
  | leave_both => Ok (s, Asset 0 (debt_type c))
  | fill_both call_pays call_receives settle_pays settle_receives cull_settle_order =>
    (if maint_time s <=? HARDFORK_CORE_342_TIME then
       less ← asset_lt call_pays (get_collateral c); GRAPHENE_ASSERT less "black_swan_exception"
     else Ok ());;
    margin_call_fee ← asset_sub call_pays settle_receives;
    '(s, _) ← fill_call_order call call_pays call_receives margin_call_fee true s;
    '(s, _) ← fill_settle_order settle settle_pays settle_receives (negb settle_is_taker) (negb is_margin_call) s;
    s ← (if is_no_settlement b then update_current_feed a true s else Ok s);
    s ← (if cull_settle_order then cancel_settle_order settle s else Ok s);
    Ok (s, call_receives)
  end.
End debt_market.
