(* ===== verification/MarginCalls.v ===== *)
(** * Matching margin calls

    The loops of chain/db_market.cpp that match margin calls: [match_force_settlements], [check_settled_debt_order],
    [check_call_orders], [apply_order] in a market with debt positions and [apply_force_settlement].

    The loops run up to 2^64 rounds; a round of a loop that goes on pays off debt, or cancels or fills an order. *)
From S2P Require Import Prelude MachineInt Hardfork Asset PriceRatio CallOrder PriceFeed ChainState Ledger Balance Fees LimitOrder DebtState DebtMarket.

Section margin_calls.
Context `{FeeSchedule} `{NthElement price_feed_with_icr}.
Variable push : virtual_operation → database → result (database * Z).

(** ** Margin calls against settlement orders *)

(** The price a margin call is offered at and the price it pays. *)
Definition margin_call_prices (b : asset_bitasset_data_object) : result (price * price) :=
  call_match_price ← get_margin_call_order_price b;
  call_pays_price ← max_short_squeeze_price (feed (current_feed b));
  Ok (call_match_price, call_pays_price).

(** Is the position above the maintenance collateralization? *)
Definition is_protected (b : asset_bitasset_data_object) (c : call_order_object) : result bool :=
  p ← collateralization c; Ok (price_ltb (current_maintenance_collateralization b) p).

Definition max_cover_of (b : asset_bitasset_data_object) (c : call_order_object) (call_pays_price : price) (s : mdatabase)
    : result share_type :=
  get_max_debt_to_cover c call_pays_price (feed_price_for_target b s) (maintenance_collateral_ratio (current_feed b))
    (Some (current_maintenance_collateralization b)).

(** One round of the loop of [match_force_settlements]; the state is the database and the result. *)
Definition settle_round (a : asset_id_type) (call_min : price) (call_end : option Z) (prices : price * price)
    (st : mdatabase * bool) : result ((mdatabase * bool) * bool) :=
  let s := st.1 in
  match first_settlement a s, call_lower_bound collateralization_key call_min s with
  | Some (settle, _), Some call =>
    if bool_decide (Some call = call_end) then Ok ((s, false), false)
    else
      c ← get_call s call;
      b ← get_bitasset s a;
      protected ← is_protected b c;
      if (protected : bool) then Ok ((s, false), false)
      else
        x ← max_cover_of b c prices.2 s;
        '(s, covered) ← match_settle_call settle call prices.2 a (Asset x a) prices.1 true false s;
        if 0 <? amount covered then Ok ((s, true), false) else Ok ((s, false), true)
  | _, _ => Ok ((s, false), false)
  end.

Definition match_force_settlements (a : asset_id_type) (s : mdatabase) : result (mdatabase * bool) :=
  b ← get_bitasset s a;
  FC_ASSERT (HARDFORK_CORE_2481_PASSED (maint_time s)) "Internal error: hard fork core-2481 not passed";;
  FC_ASSERT (negb (is_prediction_market b)) "Internal error: asset is a prediction market";;
  FC_ASSERT (negb (is_globally_settled b)) "Internal error: asset is globally settled already";;
  FC_ASSERT (negb (price_is_null (settlement_price (current_feed b)))) "Internal error: no sufficient price feeds";;
  call_min ← price_min (short_backing_asset (ba_options b)) a;
  call_max ← price_max (short_backing_asset (ba_options b)) a;
  prices ← margin_call_prices b;
  '(st, running) ← while_pow (settle_round a call_min (call_upper_bound collateralization_key call_max s) prices) 64 (s, false);
  if (running : bool) then Err (assert_exception "out of fuel") else Ok st.

(** ** The settled debt order against the book *)

(** One round; the loop's state is [limit_itr], [limit_end] and the database. *)
Definition settled_debt_round (order : Z) (st : option Z * option Z * mdatabase)
    : result ((option Z * option Z * mdatabase) * bool) :=
  let '(limit_itr, limit_end, s) := st in
  if bool_decide (limit_itr = limit_end) then Ok (st, false)
  else match limit_itr with
  | None => Err (assert_exception "dereference of limit_price_index.end()")
  | Some maker =>
    m ← get_limit_order (md_db s) maker;
    let limit_itr := next_order (md_db s) maker in
    o ← get_limit_order (md_db s) order;
    let old_price := lo_sell_price o in
    '(s, r) ← match_settled_debt_limit push order maker (lo_sell_price m) s;
    match r with
    | only_maker_filled =>
      o ← get_limit_order (md_db s) order;
      let limit_end := if negb (price_eqb old_price (lo_sell_price o))
                       then upper_bound (md_db s) (price_flip (lo_sell_price o)) else limit_end in
      Ok ((limit_itr, limit_end, s), true)
    | _ => Ok ((limit_itr, limit_end, s), false)
    end
  end.

Definition check_settled_debt_order (a : asset_id_type) (s : mdatabase) : result mdatabase :=
  if negb (HARDFORK_CORE_2591_PASSED (head_time s)) then Ok s
  else
    b ← get_bitasset s a;
    match bsrm b, find_settled_debt_order a s with
    | individual_settlement_to_order, Some (id, o) =>
      max_price ← price_max a (short_backing_asset (ba_options b));
      '((_, _, s), running) ← while_pow (settled_debt_round id) 64
        (lower_bound (md_db s) max_price, upper_bound (md_db s) (price_flip (lo_sell_price o)), s);
      if (running : bool) then Err (assert_exception "out of fuel") else Ok s
    | _, _ => Ok s
    end.

(** ** Margin calls against the book *)

(** The amounts of a match of a margin call with a limit order on the book: what the call order pays and receives, what the
    limit order receives, whether the limit order and whether the call order is filled; [None] for the
    exception [UndercollateralizationException]. *)
Definition call_limit_amounts (maint : Z) (mute_exceptions : bool) (c : call_order_object) (usd_to_buy usd_for_sale : asset)
    (match_price call_pays_price : price) : result (option (asset * asset * asset * bool * bool)) :=
  let before_342 := maint <=? HARDFORK_CORE_342_TIME in
  let after_2481 := HARDFORK_CORE_2481_PASSED maint in
  larger ← asset_gt usd_to_buy usd_for_sale;
  if (larger : bool) then
    limit_receives ← asset_mul_price usd_for_sale match_price;
    call_receives ← (if before_342 then Ok usd_for_sale else multiply_and_round_up limit_receives match_price);
    if negb after_2481 then
      call_pays ← asset_mul_price usd_for_sale call_pays_price;
      Ok (Some (call_pays, call_receives, limit_receives, true, false))
    else
      call_pays ← asset_mul_price call_receives call_pays_price;
      if collateral c <=? amount call_pays then Ok None
      else
        new_collateral ← asset_sub (get_collateral c) call_pays;
        new_debt ← asset_sub (get_debt c) call_receives;
        p ← make_price new_collateral new_debt;
        q ← collateralization c;
        Ok (if price_ltb p q then None else Some (call_pays, call_receives, limit_receives, true, false))
  else
    let fills_limit := asset_eqb usd_to_buy usd_for_sale in
    if before_342 then
      x ← asset_mul_price usd_to_buy match_price; Ok (Some (x, usd_to_buy, x, fills_limit, true))
    else
      call_pays ← multiply_and_round_up usd_to_buy call_pays_price;
      let too_much := collateral c <? amount call_pays in
      if too_much && after_2481 then Ok None
      else
        let call_pays := if too_much && mute_exceptions then Asset (collateral c) (asset_id call_pays) else call_pays in
        limit_receives ← multiply_and_round_up usd_to_buy match_price;
        let limit_receives := if collateral c <? amount limit_receives
                              then Asset (collateral c) (asset_id limit_receives) else limit_receives in
        Ok (Some (call_pays, usd_to_buy, limit_receives, fills_limit, true)).

Record call_loop := CallLoop {
  cl_state : mdatabase;
  cl_limit_itr : option Z;
  cl_limit_end : option Z;
  cl_call_itr : option Z;
  margin_called : bool;
  filled_limit : bool;
  cl_update_feed : bool }.

Definition cl_with (l : call_loop) (s : mdatabase) (called : bool) : call_loop :=
  CallLoop s (cl_limit_itr l) (cl_limit_end l) (cl_call_itr l) called (filled_limit l) (cl_update_feed l).

(** What matching a margin call with the next limit order comes to. *)
Inductive call_step :=
  | step_return (l : call_loop)
  | step_continue (l : call_loop)
  | step_undercollateralized (l : call_loop).

Section calls.
Variable a : asset_id_type.
Variables enable_black_swan for_new_limit_order mute_exceptions skip_matching_settle_orders : bool.
Variable call_min : price.
Variable call_end : option Z.

Definition call_key (s : mdatabase) : call_order_object → price :=
  if maint_time s <=? HARDFORK_CORE_1270_TIME then co_call_price else collateralization_key.

(** Fill the call order, then the limit order, with the amounts computed. *)
Definition fill_call_and_limit (l : call_loop) (call limit : Z)
    (amounts : asset * asset * asset * bool * bool) : result call_loop :=
  let '(call_pays, call_receives, limit_receives, fills_limit, filled_call) := amounts in
  let s := cl_state l in
  let maint := maint_time s in
  let s := if filled_call && negb fills_limit && filled_limit l && (head_time s <? HARDFORK_615_TIME)
           then set_issue_453 (md_issue_453 s ∪ {[a]}) s else s in
  let filled_limit' := fills_limit || filled_limit l in
  enough ← asset_ge call_pays limit_receives;
  FC_ASSERT enough "call_pays >= limit_receives";;
  margin_call_fee ← asset_sub call_pays limit_receives;
  next ← (if filled_call && (maint <=? HARDFORK_CORE_343_TIME) then next_call co_call_price call s
          else Ok (cl_call_itr l));
  '(s, _) ← fill_call_order call call_pays call_receives margin_call_fee true s;
  '(s, limit_end, update_feed) ←
    (if cl_update_feed l then
       s ← update_current_feed a true s;
       b ← get_bitasset s a;
       p ← get_margin_call_order_price b;
       Ok (s, upper_bound (md_db s) p, is_current_feed_price_capped b)
     else Ok (s, cl_limit_end l, false));
  let call_itr := if HARDFORK_CORE_343_TIME <? maint then call_lower_bound (call_key s) call_min s else next in
  let next_limit := next_order (md_db s) limit in
  '(s, really_filled) ← fill_limit push limit call_receives limit_receives true (negb for_new_limit_order) s;
  let limit_itr := if really_filled || (filled_limit' && (maint <=? HARDFORK_CORE_453_TIME)) then next_limit
                   else cl_limit_itr l in
  Ok (CallLoop s limit_itr limit_end call_itr (margin_called l) filled_limit' update_feed).

(** Match the margin call [call] with the limit order [limit]. *)
Definition match_margin_call (l : call_loop) (call limit : Z) : result call_step :=
  let s := cl_state l in
  let maint := maint_time s in
  o ← get_limit_order (md_db s) limit;
  c ← get_call s call;
  b ← get_bitasset s a;
  let match_price := lo_sell_price o in
  if (maint <=? HARDFORK_CORE_606_TIME) && price_ltb (price_flip (co_call_price c)) match_price then Ok (step_return l)
  else
    let l := cl_with l s true in
    let '(n, dn) := get_margin_call_pays_ratio b in
    call_pays_price ← price_mul_ratio match_price n dn;
    swan ← (if HARDFORK_CORE_2481_PASSED maint then Ok false
            else x ← asset_mul_price (get_debt c) call_pays_price; asset_gt x (get_collateral c));
    if (swan : bool) then
      FC_ASSERT enable_black_swan "enable_black_swan";;
      s ← globally_settle_asset a (settlement_price (current_feed b)) false s;
      Ok (step_return (cl_with l s true))
    else
      to_buy ← (if HARDFORK_CORE_1270_TIME <? maint then max_cover_of b c call_pays_price s
                else if HARDFORK_CORE_834_TIME <? maint then
                  get_max_debt_to_cover c call_pays_price (settlement_price (current_feed b))
                    (maintenance_collateral_ratio (current_feed b)) None
                else Ok (debt c));
      let usd_to_buy := Asset to_buy (debt_type c) in
      amounts ← call_limit_amounts maint mute_exceptions c usd_to_buy (amount_for_sale o) match_price call_pays_price;
      match amounts with
      | None => Ok (step_undercollateralized l)
      | Some x =>
        l ← fill_call_and_limit l call limit x;
        Ok (step_continue l)
      end.

(** Match the margin calls with settlement orders, if there are any and this is allowed. *)
Definition call_settlements (l : call_loop) : result (call_loop * bool) :=
  let s := cl_state l in
  if skip_matching_settle_orders || negb (HARDFORK_CORE_2481_PASSED (maint_time s)) then Ok (l, false)
  else if negb (bool_decide (is_Some (first_settlement a s))) then Ok (l, false)
  else
    '(s, matched) ← match_force_settlements a s;
    if (matched : bool) then
      let call_itr := call_lower_bound collateralization_key call_min s in
      '(limit_end, update_feed) ←
        (if cl_update_feed l then
           b ← get_bitasset s a;
           p ← get_margin_call_order_price b;
           Ok (upper_bound (md_db s) p, is_current_feed_price_capped b)
         else Ok (cl_limit_end l, false));
      Ok (CallLoop s (cl_limit_itr l) limit_end call_itr true (filled_limit l) update_feed, true)
    else Ok (cl_with l s (margin_called l), true).

(** Does the call order's collateral ratio protect it from being called? *)
Definition feed_protected (b : asset_bitasset_data_object) (c : call_order_object) (s : mdatabase) : result bool :=
  if maint_time s <=? HARDFORK_CORE_1270_TIME then
    Ok ((HARDFORK_436_TIME <? head_time s)
        && price_ltb (price_flip (co_call_price c)) (settlement_price (current_feed b)))
  else is_protected b c.

(** [while( has_call_order() )]; [settled_some] implies that the response method is individual settlement, which no asset
    has before hard fork core-1270. *)
Definition call_round (l : call_loop) : result (call_loop * bool) :=
  if bool_decide (cl_call_itr l = call_end) then
    s ← check_settled_debt_order a (cl_state l); Ok (cl_with l s (margin_called l), false)
  else
    '(s, settled_some) ← check_for_blackswan a enable_black_swan (cl_state l);
    b ← get_bitasset s a;
    if is_globally_settled b then Ok (cl_with l s (margin_called l), false)
    else
      let call_itr := if (settled_some : bool) then call_lower_bound collateralization_key call_min s else cl_call_itr l in
      if settled_some && bool_decide (call_itr = call_end) then
        s ← check_settled_debt_order a s; Ok (cl_with l s true, false)
      else
        limit_end ←
          (match bsrm b, (settled_some : bool) with
           | individual_settlement_to_fund, true =>
             p ← get_margin_call_order_price b; Ok (upper_bound (md_db s) p)
           | _, _ => Ok (cl_limit_end l)
           end);
        let l := CallLoop s (cl_limit_itr l) limit_end call_itr (settled_some || margin_called l) (filled_limit l)
                   (cl_update_feed l) in
        match call_itr with
        | None => Err (assert_exception "dereference of call_index.end()")
        | Some call =>
          c ← get_call s call;
          protected ← feed_protected b c s;
          if (protected : bool) then
            s ← check_settled_debt_order a s; Ok (cl_with l s (margin_called l), false)
          else
            step ←
              (if bool_decide (cl_limit_itr l = limit_end) then Ok (step_undercollateralized l)
               else match cl_limit_itr l with
               | None => Err (assert_exception "dereference of limit_price_index.end()")
               | Some limit => match_margin_call l call limit
               end);
            match step with
            | step_return l => Ok (l, false)
            | step_continue l => Ok (l, true)
            | step_undercollateralized l => call_settlements l
            end
        end.
End calls.

Definition check_call_orders (a : asset_id_type)
    (enable_black_swan for_new_limit_order mute_exceptions skip_matching_settle_orders : bool) (s : mdatabase)
    : result (mdatabase * bool) :=
  let maint := maint_time s in
  (if for_new_limit_order then FC_ASSERT (maint <=? HARDFORK_CORE_625_TIME) "maint_time <= HARDFORK_CORE_625_TIME"
   else Ok ());;
  obj ← get_asset (md_db s) a;
  if negb (is_market_issued obj) then Ok (s, false)
  else
    b ← get_bitasset s a;
    if (HARDFORK_CORE_460_TIME <=? maint) && is_prediction_market b then Ok (s, false)
    else
      '(s, swan) ← (if is_individual (bsrm b) then Ok (s, false) else check_for_blackswan a enable_black_swan s);
      if (swan : bool) then Ok (s, false)
      else if is_prediction_market b then Ok (s, false)
      else if price_is_null (settlement_price (current_feed b)) then Ok (s, false)
      else
        max_price ← price_max a (short_backing_asset (ba_options b));
        min_price ← (if maint <=? HARDFORK_CORE_1270_TIME
                     then max_short_squeeze_price_before_hf_1270 (feed (current_feed b))
                     else get_margin_call_order_price b);
        let limit_itr := lower_bound (md_db s) max_price in
        let limit_end := upper_bound (md_db s) min_price in
        if negb (HARDFORK_CORE_2481_PASSED maint) && bool_decide (limit_itr = limit_end) then Ok (s, false)
        else
          call_min ← price_min (short_backing_asset (ba_options b)) a;
          call_max ← price_max (short_backing_asset (ba_options b)) a;
          '(l, running) ←
            while_pow (call_round a enable_black_swan for_new_limit_order mute_exceptions skip_matching_settle_orders
                         call_min (call_upper_bound (call_key s) call_max s)) 64
              (CallLoop s limit_itr limit_end (call_lower_bound (call_key s) call_min s) false false
                 (is_no_settlement b && is_current_feed_price_capped b));
          if (running : bool) then Err (assert_exception "out of fuel") else Ok (cl_state l, margin_called l).

(** ** A new order in a market with debt positions *)

(** [while( !finished && limit_itr != stop )] over limit orders; the state is [limit_itr], [finished] and the database. *)
Definition limit_round (taker : Z) (stop : option Z) (st : option Z * bool * mdatabase)
    : result ((option Z * bool * mdatabase) * bool) :=
  let '(limit_itr, finished, s) := st in
  if finished || bool_decide (limit_itr = stop) then Ok (st, false)
  else match limit_itr with
  | None => Err (assert_exception "dereference of limit_price_idx.end()")
  | Some maker =>
    m ← get_limit_order (md_db s) maker;
    let limit_itr := next_order (md_db s) maker in
    '(s, r) ← match_limit_limit push taker maker (lo_sell_price m) s;
    let finished := match r with only_maker_filled => false | _ => true end in
    Ok ((limit_itr, finished, s), negb finished)
  end.

Definition limit_loop (taker : Z) (limit_itr stop : option Z) (finished : bool) (s : mdatabase)
    : result (option Z * bool * mdatabase) :=
  '(st, running) ← while_pow (limit_round taker stop) 64 (limit_itr, finished, s);
  if (running : bool) then Err (assert_exception "out of fuel") else Ok st.

Record taker_loop := TakerLoop {
  tl_state : mdatabase;
  tl_finished : bool;
  tl_prices : price * price;
  tl_update : bool }.

(** [while( !finished )] over margin calls, for a new limit order that sells the debt asset [a].  The prices are in the
    format collateral / debt. *)
Definition taker_call_round (taker : Z) (a : asset_id_type) (call_min : price) (l : taker_loop) : result (taker_loop * bool) :=
  let s := tl_state l in
  let before_1270 := maint_time s <=? HARDFORK_CORE_1270_TIME in
  if tl_finished l then Ok (l, false)
  else
    b ← get_bitasset s a;
    match first_from (call_key s) call_min (rows (md_calls s)) with
    | None => Ok (l, false)
    | Some (call, c) =>
      above ← (if before_1270 then Ok (price_ltb (price_flip (settlement_price (current_feed b))) (co_call_price c))
               else p ← collateralization c; Ok (price_ltb (current_maintenance_collateralization b) p));
      if negb (debt_type c =? a) || above then Ok (l, false)
      else
        '(s, r) ← match_limit_call push taker call (tl_prices l).1 a (tl_prices l).2 s;
        match r with
        | only_taker_filled | both_filled => Ok (TakerLoop s true (tl_prices l) (tl_update l), false)
        | _ =>
          if tl_update l then
            b ← get_bitasset s a;
            '(p, q) ← margin_call_prices b;
            Ok (TakerLoop s false (price_flip p, price_flip q) (is_current_feed_price_capped b), true)
          else Ok (TakerLoop s false (tl_prices l) false, true)
        end
    end.

(** The prices margin calls of the asset sold offer, if the new order may meet them. *)
Definition call_prices_for (sell recv : asset_id_type) (order_price : price) (s : mdatabase) : result (option (price * price)) :=
  obj ← get_asset (md_db s) sell;
  if negb (is_market_issued obj) then Ok None
  else
    b ← get_bitasset s sell;
    if (short_backing_asset (ba_options b) =? recv) && negb (is_prediction_market b) && negb (is_globally_settled b)
       && negb (price_is_null (settlement_price (current_feed b))) then
      '(p, q) ← (if maint_time s <=? HARDFORK_CORE_1270_TIME then
                   x ← max_short_squeeze_price_before_hf_1270 (feed (current_feed b)); Ok (x, x)
                 else margin_call_prices b);
      Ok (if negb (price_ltb (price_flip p) (price_flip order_price)) then Some (price_flip p, price_flip q) else None)
    else Ok None.

(** The new order against the limit orders with a better price than the margin calls and then against the margin calls: the
    iterator, whether the order is finished, and whether the current feed has changed. *)
Definition match_with_calls (taker : Z) (a recv : asset_id_type) (prices : price * price) (limit_itr : option Z) (s : mdatabase)
    : result (option Z * bool * mdatabase * bool) :=
  '(limit_itr, finished, s) ← limit_loop taker limit_itr (lower_bound (md_db s) prices.1) false s;
  if (finished : bool) then Ok (limit_itr, finished, s, false)
  else
    call_min ← price_min recv a;
    b ← get_bitasset s a;
    let before_1270 := maint_time s <=? HARDFORK_CORE_1270_TIME in
    let old_price := settlement_price (current_feed b) in
    let watch := negb before_1270 && is_no_settlement b in
    '(l, running) ← while_pow (taker_call_round taker a call_min) 64
                      (TakerLoop s false prices (watch && is_current_feed_price_capped b));
    if (running : bool) then Err (assert_exception "out of fuel")
    else
      let s := tl_state l in
      b ← get_bitasset s a;
      Ok (limit_itr, tl_finished l, s, watch && negb (price_eqb (settlement_price (current_feed b)) old_price)).

Definition apply_order (id : Z) (s : mdatabase) : result (mdatabase * bool) :=
  o ← get_limit_order (md_db s) id;
  let sell := sell_asset_id o in
  let recv := receive_asset_id o in
  let at_front :=
    match prev_order (md_db s) id with
    | Some (_, p) => negb ((sell_asset_id p =? sell) && (receive_asset_id p =? recv))
    | None => true
    end in
  if negb at_front then Ok (s, false)
  else
    let max_price := price_flip (lo_sell_price o) in
    top ← price_max (asset_id (base max_price)) (asset_id (quote max_price));
    let limit_itr := lower_bound (md_db s) top in
    let limit_end := upper_bound (md_db s) max_price in
    prices ← call_prices_for sell recv (lo_sell_price o) s;
    '(limit_itr, finished, s, feed_price_updated) ←
      (match prices with
       | Some prices => match_with_calls id sell recv prices limit_itr s
       | None => Ok (limit_itr, false, s, false)
       end);
    '(_, _, s) ← limit_loop id limit_itr limit_end finished s;
    '(d, gone) ← order_is_gone id (md_db s);
    let s := set_mdb d s in
    s ← (if gone && (feed_price_updated : bool) then '(s, _) ← check_call_orders sell true false false false s; Ok s
         else Ok s);
    Ok (s, gone).

(** ** A new settlement order *)

Record settler_loop := SettlerLoop {
  sl_state : mdatabase;
  sl_prices : price * price;
  sl_update : bool }.

(** [while( !finished )] over margin calls; the prices are in the format debt / collateral. *)
Definition settler_round (settle : Z) (a : asset_id_type) (call_min : price) (l : settler_loop) : result (settler_loop * bool) :=
  let s := sl_state l in
  b ← get_bitasset s a;
  match first_from collateralization_key call_min (rows (md_calls s)) with
  | None => Ok (l, false)
  | Some (call, c) =>
    protected ← is_protected b c;
    if negb (debt_type c =? a) || protected then Ok (l, false)
    else
      x ← max_cover_of b c (sl_prices l).2 s;
      '(s, _) ← match_settle_call settle call (sl_prices l).2 a (Asset x a) (sl_prices l).1 true true s;
      let finished := negb (bool_decide (is_Some (rows (md_settlements s) !! settle))) in
      if sl_update l then
        '(s, _) ← check_call_orders a true false false true s;
        if finished then Ok (SettlerLoop s (sl_prices l) (sl_update l), false)
        else
          b ← get_bitasset s a;
          prices ← margin_call_prices b;
          Ok (SettlerLoop s prices (is_current_feed_price_capped b), true)
      else Ok (SettlerLoop s (sl_prices l) (sl_update l), negb finished)
  end.

Definition apply_force_settlement (settle : Z) (a : asset_id_type) (s : mdatabase) : result mdatabase :=
  FC_ASSERT (HARDFORK_CORE_2481_PASSED (maint_time s)) "Internal error: hard fork core-2481 not passed";;
  o ← get_settlement s settle;
  b ← get_bitasset s a;
  FC_ASSERT (asset_id (fs_balance o) =? a) "Internal error: asset type mismatch";;
  FC_ASSERT (negb (is_prediction_market b)) "Internal error: asset is a prediction market";;
  FC_ASSERT (negb (is_globally_settled b)) "Internal error: asset is globally settled already";;
  FC_ASSERT (negb (price_is_null (settlement_price (current_feed b)))) "Internal error: no sufficient price feeds";;
  prices ← margin_call_prices b;
  call_min ← price_min (short_backing_asset (ba_options b)) a;
  '(l, running) ← while_pow (settler_round settle a call_min) 64
                    (SettlerLoop s prices (is_no_settlement b && is_current_feed_price_capped b));
  if (running : bool) then Err (assert_exception "out of fuel") else Ok (sl_state l).
End margin_calls.
