(* ===== verification/DebtOps.v ===== *)
(** * Operations on debt

    The evaluators of the operations on debt positions and settlements (chain/market_evaluator.cpp,
    chain/asset_evaluator.cpp) and what the chain does with them by itself: settling the orders that are due
    (chain/db_update.cpp) and executing bids (chain/db_maint.cpp).

    [DebtEvaluator] is the interface of an evaluator of the debt markets, [start_debt_evaluate] the scheme
    of Evaluator.v, fees included, over their state. *)
From stdpp Require Import sorting.
From S2P Require Import Prelude MachineInt Hardfork Asset PriceRatio CallOrder PriceFeed ChainState Ledger CreditBooks Balance Fees Evaluator LimitOrder DebtState DebtMarket MarginCalls.

Class DebtEvaluator (Op : Type) := {
  de_ctx : Type;
  de_fee : Op → asset;
  de_fee_payer : Op → account_id_type;
  de_validate : Op → result unit;
  de_evaluate : Op → mdatabase → result de_ctx;
  de_apply : Op → de_ctx → mdatabase → result (mdatabase * operation_result) }.

Definition start_debt_evaluate `{DebtEvaluator Op} (required_fee : Op → share_type) (skip_fee_schedule_check : bool)
    (op : Op) (s : mdatabase) : result (mdatabase * operation_result) :=
  core_fee_paid ← prepare_fee (de_fee_payer op) (de_fee op) (md_db s);
  (if skip_fee_schedule_check then Ok ()
   else GRAPHENE_ASSERT (required_fee op <=? core_fee_paid) "insufficient_fee");;
  ctx ← de_evaluate op s;
  s ← on_db (convert_fee (de_fee op) core_fee_paid) s;
  s ← on_db (pay_fee (de_fee_payer op) core_fee_paid) s;
  '(s, result) ← de_apply op ctx s;
  neg ← asset_neg (de_fee op);
  s ← on_db (adjust_balance (de_fee_payer op) neg) s;
  Ok (s, result).

(** ** Flags of an asset *)

Definition flag_disable_force_settle : Z := 0x10.
Definition permission_global_settle : Z := 0x20.
Definition flag_disable_collateral_bidding : Z := 0x8000.
Definition can_force_settle (a : asset_object) : bool := negb (has_flag a flag_disable_force_settle).
Definition can_global_settle (a : asset_object) : bool :=
  negb (Z.land (issuer_permissions (ao_options a)) permission_global_settle =? 0).
Definition can_bid_collateral (a : asset_object) : bool := negb (has_flag a flag_disable_collateral_bidding).

(** The check of hard fork core-973 on the account that pays: it may hold both assets. *)
Definition both_authorized (payer : account_id_type) (a backing : asset_id_type) (s : mdatabase) : result unit :=
  if HARDFORK_CORE_973_PASSED (head_time s) then
    payer_authorized (md_db s) payer a "The account is not allowed to transact the debt asset";;
    payer_authorized (md_db s) payer backing "The account is not allowed to transact the collateral asset"
  else Ok ().

Section operations.
Context `{FeeSchedule} `{NthElement price_feed_with_icr}.
Variable push : virtual_operation → database → result (database * Z).

(** ** call_order_update *)
Record call_order_update_operation := CallOrderUpdateOperation {
  cu_fee : asset;
  cu_funding_account : account_id_type;
  cu_delta_collateral : asset;
  cu_delta_debt : asset;
  cu_target_collateral_ratio : option Z }.

Definition call_order_update_validate (op : call_order_update_operation) : result unit :=
  FC_ASSERT (0 <=? amount (cu_fee op)) "fee.amount >= 0";;
  FC_ASSERT (negb (asset_id (cu_delta_collateral op) =? asset_id (cu_delta_debt op)))
    "delta_collateral.asset_id != delta_debt.asset_id";;
  FC_ASSERT (negb (amount (cu_delta_collateral op) =? 0) || negb (amount (cu_delta_debt op) =? 0))
    "delta_collateral.amount != 0 || delta_debt.amount != 0".

(** The unique index [by_account] of call orders. *)
Definition find_position (who : account_id_type) (a : asset_id_type) (s : mdatabase) : option (Z * call_order_object) :=
  least_such (λ x y, x.1 <? y.1) (λ x, (borrower x.2 =? who) && (debt_type x.2 =? a)) (rows (md_calls s)).

(** What [do_evaluate] leaves for [do_apply]: the position that is updated, with its new collateral and debt, and whether
    it is closed. *)
Record call_update_ctx := CallUpdateCtx {
  cx_call : option (Z * share_type * share_type);
  cx_closing : bool }.

(** The part that looks for the position. *)
Definition position_update (op : call_order_update_operation) (s : mdatabase) : result call_update_ctx :=
  match find_position (cu_funding_account op) (asset_id (cu_delta_debt op)) s with
  | Some (id, c) =>
    new_collateral ← share_add (collateral c) (amount (cu_delta_collateral op));
    new_debt ← share_add (debt c) (amount (cu_delta_debt op));
    if new_debt =? 0 then
      FC_ASSERT (new_collateral =? 0) "Should claim all collateral when closing debt position";;
      Ok (CallUpdateCtx (Some (id, new_collateral, new_debt)) true)
    else
      FC_ASSERT ((0 <? new_collateral) && (0 <? new_debt))
        "Both collateral and debt should be positive after updated a debt position if not to close it";;
      Ok (CallUpdateCtx (Some (id, new_collateral, new_debt)) false)
  | None =>
    FC_ASSERT (0 <? amount (cu_delta_collateral op)) "Delta collateral amount of new debt position should be positive";;
    FC_ASSERT (0 <? amount (cu_delta_debt op)) "Delta debt amount of new debt position should be positive";;
    Ok (CallUpdateCtx None false)
  end.

Definition call_order_update_do_evaluate (op : call_order_update_operation) (s : mdatabase) : result call_update_ctx :=
  let a := asset_id (cu_delta_debt op) in
  let delta := amount (cu_delta_debt op) in
  obj ← get_asset (md_db s) a;
  FC_ASSERT (is_market_issued obj) "Unable to cover as it is not a collateralized asset.";;
  FC_ASSERT ((delta <=? 0) || can_create_new_supply obj) "Can not create new supply";;
  dyn ← get_dynamic_data (md_db s) a;
  (if HARDFORK_CORE_1465_TIME <? maint_time s then
     v ← share_add (current_supply dyn) delta;
     FC_ASSERT (v <=? max_supply (ao_options obj)) "Borrowing this quantity would exceed MAX_SUPPLY"
   else Ok ());;
  v ← share_add (current_supply dyn) delta;
  FC_ASSERT (0 <=? v) "This transaction would bring current supply below zero.";;
  b ← get_bitasset s a;
  FC_ASSERT (negb (is_globally_settled b)) "Cannot update debt position when the asset has been globally settled";;
  FC_ASSERT (asset_id (cu_delta_collateral op) =? short_backing_asset (ba_options b))
    "Collateral asset type should be same as backing asset of debt asset";;
  ctx ← position_update op s;
  (if is_prediction_market b then
     FC_ASSERT (amount (cu_delta_collateral op) =? delta)
       "Debt amount and collateral amount should be same when updating debt position in a prediction market"
   else if price_is_null (settlement_price (current_feed b))
           && negb (HARDFORK_CORE_2467_PASSED (maint_time s) && cx_closing ctx)
   then Err (graphene_exception "insufficient_feeds") else Ok ());;
  both_authorized (cu_funding_account op) a (short_backing_asset (ba_options b)) s;;
  Ok ctx.

(** Move the debt and the collateral between the account and the position. *)
Definition move_position_funds (op : call_order_update_operation) (s : mdatabase) : result mdatabase :=
  let who := cu_funding_account op in
  let delta_debt := cu_delta_debt op in
  let delta_collateral := cu_delta_collateral op in
  s ← (if negb (amount delta_debt =? 0) then
         s ← on_db (adjust_balance who delta_debt) s;
         on_db (modify_dynamic_data (asset_id delta_debt) (λ o,
           v ← share_add (current_supply o) (amount delta_debt); Ok (dd_with_supply o v))) s
       else Ok s);
  if negb (amount delta_collateral =? 0) then
    neg ← asset_neg delta_collateral;
    s ← on_db (adjust_balance who neg) s;
    if asset_id delta_collateral =? core_asset_id then on_db (add_core_in_orders who (amount delta_collateral)) s
    else Ok s
  else Ok s.

Definition close_debt_position (a : asset_id_type) (id : Z) (s : mdatabase) : result mdatabase :=
  t ← tbl_remove id (md_calls s);
  let s := set_calls t s in
  b ← get_bitasset s a;
  if is_no_settlement b then
    let old_feed_price := settlement_price (current_feed b) in
    s ← update_current_feed a true s;
    b ← get_bitasset s a;
    if negb (price_is_null (settlement_price (current_feed b)))
       && negb (price_eqb (settlement_price (current_feed b)) old_feed_price)
    then '(s, _) ← check_call_orders push a true false false false s; Ok s
    else Ok s
  else Ok s.

(** Create or modify the position: its id, and its collateralization and debt before. *)
Definition write_position (op : call_order_update_operation) (ctx : call_update_ctx) (s : mdatabase)
    : result (mdatabase * Z * option (price * share_type)) :=
  let a := asset_id (cu_delta_debt op) in
  let backing := asset_id (cu_delta_collateral op) in
  let before_1270 := maint_time s <=? HARDFORK_CORE_1270_TIME in
  b ← get_bitasset s a;
  let mcr := maintenance_collateral_ratio (current_feed b) in
  match cx_call ctx with
  | None =>
    p ← (if before_1270 then call_price (cu_delta_debt op) (cu_delta_collateral op) mcr
         else Ok (Price (Asset 1 backing) (Asset 1 a)));
    '(id, t) ← tbl_create (CallOrderObject (cu_funding_account op) (amount (cu_delta_collateral op)) (amount (cu_delta_debt op)) p
                 (cu_target_collateral_ratio op)) (md_calls s);
    Ok (set_calls t s, id, None)
  | Some (id, new_collateral, new_debt) =>
    c ← get_call s id;
    old_collateralization ← collateralization c;
    p ← (if before_1270 then call_price (Asset new_debt (debt_type c)) (Asset new_collateral (collateral_type c)) mcr
         else Ok (co_call_price c));
    t ← tbl_modify id (λ c, Ok (CallOrderObject (borrower c) new_collateral new_debt p (cu_target_collateral_ratio op))) (md_calls s);
    Ok (set_calls t s, id, Some (old_collateralization, debt c))
  end.

(** The checks after the margin calls: [c] is the position as written, [call_ptr] what is left of it. *)
Definition check_position (a : asset_id_type) (increasing_cr called_some : bool) (c : call_order_object)
    (call_ptr : option call_order_object) (s : mdatabase) : result unit :=
  b ← get_bitasset s a;
  new_collateralization ← collateralization c;
  if called_some then
    if negb (HARDFORK_CORE_2467_PASSED (maint_time s)) then
      GRAPHENE_ASSERT (negb (bool_decide (is_Some call_ptr))) "call_order_update_unfilled_margin_call"
    else match call_ptr with
    | None => Ok ()
    | Some rest =>
      if increasing_cr then Ok ()
      else
        p ← collateralization rest;
        FC_ASSERT (price_ltb (current_initial_collateralization b) p)
          "Could not create a debt position which would trigger a margin call instantly"
    end
  else
    match call_ptr with
    | None => Err (assert_exception "no margin call was executed and yet the call object was deleted")
    | Some rest =>
      if head_time s <=? HARDFORK_CORE_583_TIME then
        GRAPHENE_ASSERT (price_ltb (price_flip (co_call_price rest)) (settlement_price (current_feed b)))
          "call_order_update_unfilled_margin_call"
      else
        let ok := increasing_cr
                  || (if maint_time s <=? HARDFORK_CORE_1270_TIME
                      then price_ltb (price_flip (co_call_price rest)) (settlement_price (current_feed b))
                      else price_ltb (current_initial_collateralization b) new_collateralization) in
        FC_ASSERT ok "Can only increase collateral ratio without increasing debt"
    end.

Definition call_order_update_do_apply (op : call_order_update_operation) (ctx : call_update_ctx) (s : mdatabase)
    : result (mdatabase * operation_result) :=
  let a := asset_id (cu_delta_debt op) in
  s ← move_position_funds op s;
  match cx_call ctx, cx_closing ctx with
  | Some (id, _, _), true => s ← close_debt_position a id s; Ok (s, object_id_result (kind_call_order, id))
  | _, _ =>
    '(s, id, old) ← write_position op ctx s;
    b ← get_bitasset s a;
    let result := object_id_result (kind_call_order, id) in
    if is_prediction_market b then Ok (s, result)
    else
      c ← get_call s id;
      call_collateralization ← collateralization c;
      let increasing_cr :=
        match old with
        | Some (old_collateralization, old_debt) =>
          (debt c <=? old_debt) && price_ltb old_collateralization call_collateralization
        | None => false
        end in
      (if HARDFORK_CORE_2481_PASSED (maint_time s) && negb increasing_cr then
         mssp ← max_short_squeeze_price (feed (median_feed b));
         FC_ASSERT (negb (price_ltb call_collateralization (price_flip mssp)))
           "Could not create a debt position which would trigger a blackswan event instantly"
       else Ok ());;
      s ← (if is_no_settlement b then update_current_feed a true s else Ok s);
      '(s, called_some) ← check_call_orders push a false false false false s;
      check_position a increasing_cr called_some c (rows (md_calls s) !! id) s;;
      Ok (s, result)
  end.

(** ** bid_collateral *)
Record bid_collateral_operation := BidCollateralOperation {
  bc_fee : asset;
  bc_bidder : account_id_type;
  bc_additional_collateral : asset;
  bc_debt_covered : asset }.

Definition bid_collateral_validate (op : bid_collateral_operation) : result unit :=
  FC_ASSERT (0 <=? amount (bc_fee op)) "fee.amount >= 0";;
  FC_ASSERT ((amount (bc_debt_covered op) =? 0)
             || ((0 <? amount (bc_debt_covered op)) && (0 <? amount (bc_additional_collateral op))))
    "debt_covered.amount == 0 || (debt_covered.amount > 0 && additional_collateral.amount > 0)".

(** The unique index [by_account] of bids. *)
Definition find_bid (who : account_id_type) (a : asset_id_type) (s : mdatabase) : option (Z * collateral_bid_object) :=
  least_such (λ x y, x.1 <? y.1) (λ x, (bid_debt_type x.2 =? a) && (cb_bidder x.2 =? who)) (rows (md_bids s)).

Definition bid_collateral_do_evaluate (op : bid_collateral_operation) (s : mdatabase) : result (option Z) :=
  let a := asset_id (bc_debt_covered op) in
  FC_ASSERT (HARDFORK_CORE_216_TIME <? head_time s) "Not yet!";;
  obj ← get_asset (md_db s) a;
  FC_ASSERT (is_market_issued obj) "Unable to cover as it is not a collateralized asset.";;
  (if HARDFORK_CORE_2281_PASSED (maint_time s) then
     FC_ASSERT (can_bid_collateral obj) "Collateral bidding is disabled for this asset" else Ok ());;
  b ← get_bitasset s a;
  FC_ASSERT (is_globally_settled b) "Cannot bid since the asset is not globally settled";;
  FC_ASSERT (asset_id (bc_additional_collateral op) =? short_backing_asset (ba_options b))
    "o.additional_collateral.asset_id == _bitasset_data->options.short_backing_asset";;
  FC_ASSERT (negb (is_prediction_market b)) "Cannot bid on a prediction market!";;
  let bid := find_bid (bc_bidder op) a s in
  (if bid is None then FC_ASSERT (0 <? amount (bc_debt_covered op)) "Can't find bid to cancel?!" else Ok ());;
  (if 0 <? amount (bc_additional_collateral op) then
     let collateral_balance := get_balance (md_db s) (bc_bidder op) (short_backing_asset (ba_options b)) in
     needed ← (match bid with
               | Some (_, x) => if HARDFORK_CORE_1692_TIME <=? head_time s
                                then asset_sub (bc_additional_collateral op) (get_additional_collateral x)
                                else Ok (bc_additional_collateral op)
               | None => Ok (bc_additional_collateral op)
               end);
     enough ← asset_ge collateral_balance needed;
     FC_ASSERT enough "Cannot bid collateral"
   else Ok ());;
  both_authorized (bc_bidder op) a (short_backing_asset (ba_options b)) s;;
  Ok (fst <$> bid).

Definition bid_collateral_do_apply (op : bid_collateral_operation) (bid : option Z) (s : mdatabase)
    : result (mdatabase * operation_result) :=
  s ← (if bid is Some id then cancel_bid id s else Ok s);
  if amount (bc_debt_covered op) =? 0 then Ok (s, void_result)
  else
    neg ← asset_neg (bc_additional_collateral op);
    s ← on_db (adjust_balance (bc_bidder op) neg) s;
    p ← make_price (bc_additional_collateral op) (bc_debt_covered op);
    '(_, t) ← tbl_create (CollateralBid (bc_bidder op) p) (md_bids s);
    Ok (set_bids t s, void_result).

(** ** asset_global_settle *)
Record asset_global_settle_operation := AssetGlobalSettleOperation {
  ag_fee : asset;
  ag_issuer : account_id_type;
  ag_asset_to_settle : asset_id_type;
  ag_settle_price : price }.

Definition asset_global_settle_validate (op : asset_global_settle_operation) : result unit :=
  FC_ASSERT (0 <=? amount (ag_fee op)) "fee.amount >= 0";;
  FC_ASSERT (ag_asset_to_settle op =? asset_id (base (ag_settle_price op))) "asset_to_settle == settle_price.base.asset_id".

Definition asset_global_settle_do_evaluate (op : asset_global_settle_operation) (s : mdatabase) : result unit :=
  obj ← get_asset (md_db s) (ag_asset_to_settle op);
  FC_ASSERT (is_market_issued obj) "Can only globally settle market-issued assets";;
  FC_ASSERT (can_global_settle obj) "The global_settle permission of this asset is disabled";;
  FC_ASSERT (ao_issuer obj =? ag_issuer op) "Only asset issuer can globally settle an asset";;
  dyn ← get_dynamic_data (md_db s) (ag_asset_to_settle op);
  FC_ASSERT (0 <? current_supply dyn) "Can not globally settle an asset with zero supply";;
  b ← get_bitasset s (ag_asset_to_settle op);
  FC_ASSERT (negb (is_globally_settled b)) "This asset has been globally settled, cannot globally settle again";;
  least ← find_least_collateralized_short (rows (md_calls s)) (maint_time s) b true;
  match least with
  | Some (_, c) =>
    x ← asset_mul_price (get_debt c) (ag_settle_price op);
    le ← asset_le x (get_collateral c);
    FC_ASSERT le "Cannot globally settle at supplied price: least collateralized short lacks sufficient collateral to settle."
  | None => Ok ()
  end.

Definition asset_global_settle_do_apply (op : asset_global_settle_operation) (_ : unit) (s : mdatabase)
    : result (mdatabase * operation_result) :=
  s ← globally_settle_asset (ag_asset_to_settle op) (ag_settle_price op) false s;
  Ok (s, void_result).

(** ** The evaluators *)
Definition call_order_update_evaluator : DebtEvaluator call_order_update_operation := {|
  de_ctx := call_update_ctx;
  de_fee := cu_fee;
  de_fee_payer := cu_funding_account;
  de_validate := call_order_update_validate;
  de_evaluate := call_order_update_do_evaluate;
  de_apply := call_order_update_do_apply |}.
Definition bid_collateral_evaluator : DebtEvaluator bid_collateral_operation := {|
  de_ctx := option Z;
  de_fee := bc_fee;
  de_fee_payer := bc_bidder;
  de_validate := bid_collateral_validate;
  de_evaluate := bid_collateral_do_evaluate;
  de_apply := bid_collateral_do_apply |}.
Definition asset_global_settle_evaluator : DebtEvaluator asset_global_settle_operation := {|
  de_ctx := unit;
  de_fee := ag_fee;
  de_fee_payer := ag_issuer;
  de_validate := asset_global_settle_validate;
  de_evaluate := asset_global_settle_do_evaluate;
  de_apply := asset_global_settle_do_apply |}.
End operations.
