(* ===== verification/SettleOps.v ===== *)
(** * Settlement of debt

    The evaluator of [asset_settle] (chain/asset_evaluator.cpp), the settlement of the orders that are due
    ([clear_expired_force_settlements], chain/db_update.cpp) and the revival of a globally settled asset by bids
    ([process_bids], chain/db_maint.cpp). *)
From stdpp Require Import sorting.
From S2P Require Import Prelude MachineInt Hardfork Asset PriceRatio CallOrder PriceFeed ChainState Ledger CreditBooks Balance Fees Evaluator LimitOrder DebtState DebtMarket MarginCalls DebtOps.

Section settle.
Context `{FeeSchedule} `{NthElement price_feed_with_icr}.
Variable push : virtual_operation → database → result (database * Z).

(** ** asset_settle *)
Record asset_settle_operation := AssetSettleOperation {
  as_fee : asset;
  as_account : account_id_type;
  as_amount : asset }.

Definition asset_settle_validate (op : asset_settle_operation) : result unit :=
  FC_ASSERT (0 <=? amount (as_fee op)) "fee.amount >= 0";;
  FC_ASSERT (0 <=? amount (as_amount op)) "amount.amount >= 0".

Definition asset_settle_do_evaluate (op : asset_settle_operation) (s : mdatabase) : result unit :=
  let a := asset_id (as_amount op) in
  obj ← get_asset (md_db s) a;
  FC_ASSERT (is_market_issued obj) "Can only force settle a predition market or a market issued asset";;
  b ← get_bitasset s a;
  FC_ASSERT (can_force_settle obj || is_globally_settled b || is_individually_settled_to_fund b)
    "Either the asset need to have the force_settle flag enabled, or it need to be globally settled";;
  (if is_prediction_market b then
     FC_ASSERT (is_globally_settled b) "Global settlement must occur before force settling a prediction market"
   else if price_is_null (settlement_price (current_feed b)) then
     if head_time s <=? HARDFORK_CORE_216_TIME then Err (graphene_exception "insufficient_feeds")
     else if negb (is_globally_settled b) && negb (is_individually_settled_to_fund b)
     then Err (graphene_exception "insufficient_feeds") else Ok ()
   else Ok ());;
  enough ← asset_ge (get_balance (md_db s) (as_account op) a) (as_amount op);
  FC_ASSERT enough "Insufficient balance";;
  both_authorized (as_account op) a (short_backing_asset (ba_options b)) s.

(** [pay_collateral_fees]: what is paid beyond the price of margin calls goes to the asset; an exception on the way
    is caught and nothing is paid. *)
Definition pay_collateral_fees (a : asset_id_type) (pays settled_amount : asset) (s : mdatabase)
    : result (mdatabase * option asset) :=
  b ← get_bitasset s a;
  if HARDFORK_CORE_2591_PASSED (head_time s) && negb (is_prediction_market b)
     && negb (price_is_null (settlement_price (current_feed b))) then
    fill_price ← get_margin_call_order_price b;
    match (by_mcop ← multiply_and_round_up pays fill_price;
           less ← asset_lt by_mcop settled_amount;
           if (less : bool) then
             fees ← asset_sub settled_amount by_mcop;
             s ← accumulate_fee a fees s;
             Ok (s, Some fees)
           else Ok (s, None)) with
    | Ok r => Ok r
    | Err _ => Ok (s, None)
    end
  else Ok (s, None).

Definition settle_result (pays received issuer_fees : asset) (collateral_fees : option asset) : extendable_operation_result_dtl :=
  ExtendableResult None None None None (Some [pays]) (Some [received])
    (Some (if collateral_fees is Some f then [f; issuer_fees] else [issuer_fees])).

(** [settled_amount -= fees] where there are fees. *)
Definition less_fees (x : asset) (fees : option asset) : result asset :=
  if fees is Some f then asset_sub x f else Ok x.

Definition ba_with_settlement_fund (b : asset_bitasset_data_object) (fund : share_type) : asset_bitasset_data_object :=
  ba_with_settlement b (ba_settlement_price b) fund.

(** What a settlement from the global settlement fund pays and receives, before fees. *)
Definition gs_amounts (op_amount : asset) (supply maint : Z) (b : asset_bitasset_data_object) : result (asset * asset) :=
  let all := amount op_amount =? supply in
  settled_amount ← (if all then Ok (Asset (settlement_fund b) (short_backing_asset (ba_options b)))
                    else asset_mul_price op_amount (ba_settlement_price b));
  (if negb all then
     FC_ASSERT (amount settled_amount <=? settlement_fund b)
       "Internal error: amount in the global settlement fund is not sufficient to pay the settlement"
   else Ok ());;
  (if (amount settled_amount =? 0) && negb (is_prediction_market b) && (HARDFORK_CORE_184_TIME <? maint)
   then Err (fc_throw "Settle amount is too small to receive anything due to rounding") else Ok ());;
  pays ← (if negb all && negb (amount settled_amount =? 0) && (HARDFORK_CORE_342_TIME <? maint)
          then multiply_and_round_up settled_amount (ba_settlement_price b) else Ok op_amount);
  Ok (pays, settled_amount).

(** Reduce the supply by what was paid. *)
Definition burn (a : asset_id_type) (pays : asset) (s : mdatabase) : result mdatabase :=
  on_db (modify_dynamic_data a (λ o, v ← share_sub (current_supply o) (amount pays); Ok (dd_with_supply o v))) s.

Definition settler_market_fees (payer : account_id_type) (x : asset) (s : mdatabase) : result (mdatabase * asset) :=
  '(d, fees) ← pay_market_fees (Some payer) (asset_id x) x false None (md_db s);
  Ok (set_mdb d s, fees).

(** Pay fees in collateral, market fees of the collateral if [charged], and the rest to the account: what it receives,
    and the fees. *)
Definition pay_out (who : account_id_type) (a : asset_id_type) (pays settled_amount : asset) (charged : bool) (no_fees : asset)
    (s : mdatabase) : result (mdatabase * asset * asset * option asset) :=
  '(s, collateral_fees) ← pay_collateral_fees a pays settled_amount s;
  settled_amount ← less_fees settled_amount collateral_fees;
  '(s, settled_amount, issuer_fees) ←
    (if charged then
       '(s, issuer_fees) ← settler_market_fees who settled_amount s;
       settled_amount ← asset_sub settled_amount issuer_fees;
       Ok (s, settled_amount, issuer_fees)
     else Ok (s, settled_amount, no_fees));
  s ← (if 0 <? amount settled_amount then on_db (adjust_balance who settled_amount) s else Ok s);
  Ok (s, settled_amount, issuer_fees, collateral_fees).

Definition pay_settle_from_gs_fund (op : asset_settle_operation) (s : mdatabase)
    : result (mdatabase * extendable_operation_result_dtl) :=
  let a := asset_id (as_amount op) in
  dyn ← get_dynamic_data (md_db s) a;
  b ← get_bitasset s a;
  '(pays, settled_amount) ← gs_amounts (as_amount op) (current_supply dyn) (maint_time s) b;
  neg ← asset_neg pays;
  s ← on_db (adjust_balance (as_account op) neg) s;
  let no_fees := Asset 0 (short_backing_asset (ba_options b)) in
  '(s, received, issuer_fees, collateral_fees) ←
    (if 0 <? amount settled_amount then
       s ← modify_bitasset a (λ b, f ← share_sub (settlement_fund b) (amount settled_amount); Ok (ba_with_settlement_fund b f)) s;
       pay_out (as_account op) a pays settled_amount (HARDFORK_CORE_1780_TIME <=? head_time s) no_fees s
     else Ok (s, settled_amount, no_fees, None));
  s ← burn a pays s;
  Ok (s, settle_result pays received issuer_fees collateral_fees).

(** What a settlement from the individual settlement fund pays and receives. *)
Definition pool_amounts (op_amount : asset) (b : asset_bitasset_data_object) : result (asset * asset) :=
  if amount op_amount <? individual_settlement_debt b then
    settlement_price ← get_individual_settlement_price b;
    settled_amount ← asset_mul_price op_amount settlement_price;
    FC_ASSERT (0 <? amount settled_amount) "Settle amount is too small to receive anything due to rounding";;
    pays ← multiply_and_round_up settled_amount settlement_price;
    Ok (pays, settled_amount)
  else Ok (Asset (individual_settlement_debt b) (ba_asset_id b),
           Asset (individual_settlement_fund b) (short_backing_asset (ba_options b))).

Definition pay_settle_from_individual_pool (op : asset_settle_operation) (s : mdatabase)
    : result (mdatabase * asset * extendable_operation_result_dtl) :=
  let a := asset_id (as_amount op) in
  b ← get_bitasset s a;
  '(pays, settled_amount) ← pool_amounts (as_amount op) b;
  neg ← asset_neg pays;
  s ← on_db (adjust_balance (as_account op) neg) s;
  s ← modify_bitasset a (λ b,
        d ← share_sub (individual_settlement_debt b) (amount pays);
        f ← share_sub (individual_settlement_fund b) (amount settled_amount);
        Ok (ba_with_individual b d f)) s;
  s ← burn a pays s;
  '(s, received, issuer_fees, collateral_fees) ←
    pay_out (as_account op) a pays settled_amount true (Asset 0 (asset_id settled_amount)) s;
  let old_feed_price := settlement_price (current_feed b) in
  s ← update_current_feed a true s;
  b ← get_bitasset s a;
  s ← (if (individual_settlement_debt b =? 0) && negb (price_eqb old_feed_price (settlement_price (current_feed b)))
       then '(s, _) ← check_call_orders push a true false false false s; Ok s else Ok s);
  Ok (s, pays, settle_result pays received issuer_fees collateral_fees).

(** The rest of [do_apply]: an order to settle [to_settle]. *)
Definition create_settlement (who : account_id_type) (to_settle : asset) (r : extendable_operation_result_dtl) (s : mdatabase)
    : result (mdatabase * operation_result) :=
  let a := asset_id to_settle in
  b ← get_bitasset s a;
  if HARDFORK_CORE_2582_PASSED (head_time s) && (amount to_settle =? 0) then Ok (s, extendable_operation_result r)
  else if HARDFORK_CORE_2587_PASSED (head_time s) && price_is_null (settlement_price (current_feed b))
  then Ok (s, extendable_operation_result r)
  else
    neg ← asset_neg to_settle;
    s ← on_db (adjust_balance who neg) s;
    '(id, t) ← tbl_create (ForceSettlement who to_settle (time_add (head_time s) (force_settlement_delay_sec (ba_options b))))
                 (md_settlements s);
    let s := set_settlements t s in
    let r := ExtendableResult (er_impacted_accounts r) (Some [(kind_force_settlement, id)]) (er_updated_objects r)
               (er_removed_objects r) (er_paid r) (er_received r) (er_fees r) in
    s ← (if HARDFORK_CORE_2481_PASSED (maint_time s) then apply_force_settlement push id a s else Ok s);
    Ok (s, extendable_operation_result r).

Definition empty_result : extendable_operation_result_dtl := ExtendableResult None None None None None None None.

Definition asset_settle_do_apply (op : asset_settle_operation) (_ : unit) (s : mdatabase) : result (mdatabase * operation_result) :=
  let a := asset_id (as_amount op) in
  obj ← get_asset (md_db s) a;
  b ← get_bitasset s a;
  if is_globally_settled b then
    '(s, r) ← pay_settle_from_gs_fund op s; Ok (s, extendable_operation_result r)
  else if is_individually_settled_to_fund b then
    '(s, paid, r) ← pay_settle_from_individual_pool op s;
    b ← get_bitasset s a;
    if is_individually_settled_to_fund b || negb (can_force_settle obj) then Ok (s, extendable_operation_result r)
    else
      to_settle ← asset_sub (as_amount op) paid;
      create_settlement (as_account op) to_settle r s
  else create_settlement (as_account op) (as_amount op) empty_result s.

Definition asset_settle_evaluator : DebtEvaluator asset_settle_operation := {|
  de_ctx := unit;
  de_fee := as_fee;
  de_fee_payer := as_account;
  de_validate := asset_settle_validate;
  de_evaluate := asset_settle_do_evaluate;
  de_apply := asset_settle_do_apply |}.

(** ** Settlement orders that are due *)

Record clear_loop := ClearLoop {
  cl_db : mdatabase;
  current_asset : asset_id_type;
  max_settlement_volume : asset;
  settlement_fill_price : price;
  cl_settlement_price : price;
  current_asset_finished : bool }.

Definition cl_with_db (l : clear_loop) (s : mdatabase) : clear_loop :=
  ClearLoop s (current_asset l) (max_settlement_volume l) (settlement_fill_price l) (cl_settlement_price l)
    (current_asset_finished l).

(** [next_asset]; the loop ends if there is none. *)
Definition next_asset (l : clear_loop) : clear_loop * bool :=
  match least_such settlement_before (λ x, current_asset l <? asset_id (fs_balance x.2)) (rows (md_settlements (cl_db l))) with
  | None => (l, false)
  | Some (_, o) => (ClearLoop (cl_db l) (asset_id (fs_balance o)) (max_settlement_volume l) (settlement_fill_price l)
                      (cl_settlement_price l) false, true)
  end.

(** One match of the inner loop; the state is the database, what has been settled and [current_asset_finished]. *)
Definition due_round (settle : Z) (a : asset_id_type) (max_volume : asset) (fill_price sp : price)
    (st : mdatabase * asset * bool) : result ((mdatabase * asset * bool) * bool) :=
  let '(s, settled, finished) := st in
  go_on ← asset_lt settled max_volume;
  match (go_on : bool), rows (md_settlements s) !! settle with
  | true, Some o =>
    if amount (fs_balance o) =? 0 then s ← cancel_settle_order settle s; Ok ((s, settled, finished), false)
    else
      b ← get_bitasset s a;
      least ← find_least_collateralized_short (rows (md_calls s)) (maint_time s) b true;
      match least with
      | None => s ← cancel_settle_order settle s; Ok ((s, settled, finished), false)
      | Some (call, _) =>
        max_settlement ← asset_sub max_volume settled;
        match match_settle_call settle call sp a max_settlement fill_price false true s with
        | Err e =>
          if decide (e = graphene_exception "black_swan_exception") then
            s ← cancel_settle_order settle s; Ok ((s, settled, finished), false)
          else Err e
        | Ok (s, new_settled) =>
          if (HARDFORK_CORE_184_TIME <? maint_time s) && (amount new_settled =? 0) then
            Ok ((s, settled, bool_decide (is_Some (rows (md_settlements s) !! settle))), false)
          else
            settled ← asset_add settled new_settled;
            Ok ((s, settled, finished), true)
        end
      end
  | _, _ => Ok (st, false)
  end.

(** The price an order is settled at before hard fork core-342. *)
Definition old_settlement_price (o : force_settlement_object) (b : asset_bitasset_data_object) : result price :=
  receives ← asset_mul_price (fs_balance o) (settlement_price (current_feed b));
  v ← share_check (to_uint64 (u128_div (u128_mul (u128 (amount receives))
        (GRAPHENE_100_PERCENT - force_settlement_offset_percent (ba_options b))) GRAPHENE_100_PERCENT));
  make_price (fs_balance o) (Asset v (asset_id receives)).

(** The cached values of [l] for the asset of [b]. *)
Definition refresh_volume (l : clear_loop) (b : asset_bitasset_data_object) : result clear_loop :=
  let a := current_asset l in
  if negb (asset_id (max_settlement_volume l) =? a) then
    dyn ← get_dynamic_data (md_db (cl_db l)) a;
    v ← max_force_settlement_volume b (current_supply dyn);
    Ok (ClearLoop (cl_db l) a (Asset v a) (settlement_fill_price l) (cl_settlement_price l) (current_asset_finished l))
  else Ok l.

Definition refresh_prices (l : clear_loop) (o : force_settlement_object) (b : asset_bitasset_data_object) : result clear_loop :=
  let a := current_asset l in
  fill_price ← (if negb (asset_id (base (settlement_fill_price l)) =? a) then
                  price_div_ratio (settlement_price (current_feed b))
                    (GRAPHENE_100_PERCENT - force_settlement_offset_percent (ba_options b)) GRAPHENE_100_PERCENT
                else Ok (settlement_fill_price l));
  sp ← (if maint_time (cl_db l) <=? HARDFORK_CORE_342_TIME then old_settlement_price o b
        else if negb (asset_id (base (cl_settlement_price l)) =? a) then Ok fill_price
        else Ok (cl_settlement_price l));
  Ok (ClearLoop (cl_db l) a (max_settlement_volume l) fill_price sp (current_asset_finished l)).

(** Settle the order [settle] of the current asset as far as the volume allows. *)
Definition settle_due (settle : Z) (l : clear_loop) : result clear_loop :=
  let a := current_asset l in
  b ← get_bitasset (cl_db l) a;
  '((s, settled, finished), running) ←
    while_pow (due_round settle a (max_settlement_volume l) (settlement_fill_price l) (cl_settlement_price l)) 64
      (cl_db l, Asset (force_settled_volume b) a, current_asset_finished l);
  if (running : bool) then Err (assert_exception "out of fuel")
  else
    b ← get_bitasset s a;
    s ← (if negb (force_settled_volume b =? amount settled)
         then modify_bitasset a (λ b, Ok (ba_with_volume b (amount settled))) s else Ok s);
    Ok (ClearLoop s a (max_settlement_volume l) (settlement_fill_price l) (cl_settlement_price l) finished).

(** One iteration of the loop over the settlement orders. *)
Definition clear_round (l : clear_loop) : result (clear_loop * bool) :=
  match settlement_lower_bound (current_asset l) (cl_db l) with
  | None => Ok (l, false)
  | Some (settle, o) =>
    let a := asset_id (fs_balance o) in
    let l := ClearLoop (cl_db l) a (max_settlement_volume l) (settlement_fill_price l) (cl_settlement_price l)
               (current_asset_finished l) in
    let s := cl_db l in
    get_asset (md_db s) a;;
    b ← get_bitasset s a;
    if is_globally_settled b then s ← cancel_settle_order settle s; Ok (cl_with_db l s, true)
    else if head_time s <? fs_settlement_date o then Ok (next_asset l)
    else if price_is_null (settlement_price (current_feed b))
            || (GRAPHENE_100_PERCENT =? force_settlement_offset_percent (ba_options b))
    then s ← cancel_settle_order settle s; Ok (cl_with_db l s, true)
    else
      l ← refresh_volume l b;
      if (amount (max_settlement_volume l) <=? force_settled_volume b) || current_asset_finished l then Ok (next_asset l)
      else
        l ← refresh_prices l o b;
        l ← settle_due settle l;
        Ok (l, true)
  end.

Definition clear_expired_force_settlements (s : mdatabase) : result mdatabase :=
  match least_such settlement_before (λ _, true) (rows (md_settlements s)) with
  | None => Ok s
  | Some (_, o) =>
    '(l, running) ← while_pow clear_round 64
      (ClearLoop s (asset_id (fs_balance o)) zero_asset null_price null_price false);
    if (running : bool) then Err (assert_exception "out of fuel") else Ok (cl_db l)
  end.

(** ** Revival by bids *)

(** The bids for asset [a], best first. *)
Definition bids_for (a : asset_id_type) (s : mdatabase) : list (Z * collateral_bid_object) :=
  merge_sort (λ x y, Is_true (negb (bid_before y x)))
    (filter (λ x, Is_true (bid_debt_type x.2 =? a)) (map_to_list (rows (md_bids s)))).

(** The debt a bid takes over. *)
Definition debt_in_bid (supply : share_type) (x : collateral_bid_object) : asset :=
  let d := quote (cb_inv_swan_price x) in if supply <? amount d then Asset supply (asset_id d) else d.

(** The first loop: the bids that cover the supply, and how much they cover. *)
Fixpoint covering_bids (b : asset_bitasset_data_object) (supply : share_type) (revive_ratio : Z) (covered : share_type)
    (bids : list (Z * collateral_bid_object)) : result (list (Z * collateral_bid_object) * share_type) :=
  match bids with
  | x :: bids =>
    if covered <? supply then
      let d := debt_in_bid supply x.2 in
      total ← asset_mul_price d (ba_settlement_price b);
      total ← asset_add total (base (cb_inv_swan_price x.2));
      p ← call_price d total revive_ratio;
      if negb (price_ltb (price_flip p) (settlement_price (current_feed b))) then Ok ([], covered)
      else
        covered ← share_add covered (amount d);
        '(l, covered) ← covering_bids b supply revive_ratio covered bids;
        Ok (x :: l, covered)
    else Ok ([], covered)
  | [] => Ok ([], covered)
  end.

(** The second loop: what is left to cover and of the fund. *)
Fixpoint execute_bids (b : asset_bitasset_data_object) (supply to_cover remaining_fund : share_type)
    (bids : list (Z * collateral_bid_object)) (s : mdatabase) : result (mdatabase * share_type * share_type) :=
  match bids with
  | [] => Ok (s, to_cover, remaining_fund)
  | (id, x) :: bids =>
    let d := debt_in_bid supply x in
    c ← asset_mul_price d (ba_settlement_price b);
    let '(debt, collateral) := if to_cover <=? amount d then (to_cover, remaining_fund) else (amount d, amount c) in
    to_cover ← share_sub to_cover debt;
    remaining_fund ← share_sub remaining_fund collateral;
    s ← execute_bid id debt collateral (maintenance_collateral_ratio (current_feed b)) s;
    execute_bids b supply to_cover remaining_fund bids s
  end.

Definition process_bids (a : asset_id_type) (s : mdatabase) : result mdatabase :=
  b ← get_bitasset s a;
  if is_prediction_market b || price_is_null (settlement_price (current_feed b)) then Ok s
  else
    get_asset (md_db s) a;;
    bdd ← get_dynamic_data (md_db s) a;
    let supply := current_supply bdd in
    if supply =? 0 then _cancel_bids_and_revive_mpa a s
    else
      let ratio := if HARDFORK_CORE_2290_PASSED (maint_time s) then initial_collateral_ratio (current_feed b)
                   else maintenance_collateral_ratio (current_feed b) in
      '(bids, covered) ← covering_bids b supply ratio 0 (bids_for a s);
      if covered <? supply then Ok s
      else
        '(s, to_cover, remaining_fund) ← execute_bids b supply supply (settlement_fund b) bids s;
        FC_ASSERT (remaining_fund =? 0) "remaining_fund == 0";;
        FC_ASSERT (to_cover =? 0) "to_cover == 0";;
        _cancel_bids_and_revive_mpa a s.
End settle.
