(* ===== verification/FeedOps.v ===== *)
(** * Publishing feeds

    The evaluators of the operations on price feeds and of claiming fees (chain/asset_evaluator.cpp), and what
    the chain does at the end of a block when feeds expire (chain/db_update.cpp). *)
From stdpp Require Import sorting.
From S2P Require Import Prelude MachineInt Hardfork Asset PriceRatio CallOrder PriceFeed Authority ChainState Ledger Balance Fees Evaluator LimitOrder DebtState DebtMarket MarginCalls DebtOps.

(** The publication of [who] at time [now], in a [flat_map] sorted by the publishers. *)
Fixpoint put_feed {A} (who : account_id_type) (f : A) (l : list (account_id_type * A)) : list (account_id_type * A) :=
  match l with
  | [] => [(who, f)]
  | (k, g) :: l => if who <? k then (who, f) :: (k, g) :: l
                   else if who =? k then (who, f) :: l
                   else (k, g) :: put_feed who f l
  end.

(** [operator[]]: a new publisher starts with a feed from time 0. *)
Definition add_publisher (l : list (account_id_type * (Z * price_feed_with_icr))) (who : account_id_type)
    : list (account_id_type * (Z * price_feed_with_icr)) :=
  if bool_decide (who ∈ map fst l) then l else put_feed who (0, default_feed_with_icr) l.

Definition is_publisher {A} (who : account_id_type) (l : list (account_id_type * A)) : bool := bool_decide (who ∈ map fst l).

Section feeds.
Context `{FeeSchedule} `{NthElement price_feed_with_icr}.
Variable push : virtual_operation → database → result (database * Z).

(** ** asset_publish_feed *)
Record asset_publish_feed_operation := AssetPublishFeedOperation {
  ap_fee : asset;
  ap_publisher : account_id_type;
  ap_asset_id : asset_id_type;
  ap_feed : price_feed;
  ap_initial_collateral_ratio : option Z }.

Definition asset_publish_feed_validate (op : asset_publish_feed_operation) : result unit :=
  let f := ap_feed op in
  FC_ASSERT (0 <=? amount (ap_fee op)) "fee.amount >= 0";;
  price_feed_validate f;;
  (if negb (price_is_null (pf_core_exchange_rate f)) then price_validate false (pf_core_exchange_rate f) else Ok ());;
  (if negb (price_is_null (pf_settlement_price f)) && negb (price_is_null (pf_core_exchange_rate f)) then
     FC_ASSERT (asset_id (base (pf_settlement_price f)) =? asset_id (base (pf_core_exchange_rate f)))
       "feed.settlement_price.base.asset_id == feed.core_exchange_rate.base.asset_id"
   else Ok ());;
  FC_ASSERT (negb (price_is_null (pf_settlement_price f))) "!feed.settlement_price.is_null()";;
  FC_ASSERT (negb (price_is_null (pf_core_exchange_rate f))) "!feed.core_exchange_rate.is_null()";;
  FC_ASSERT (is_for f (ap_asset_id op)) "feed.is_for( asset_id )";;
  opt_assert (ap_initial_collateral_ratio op) (λ r, GRAPHENE_MIN_COLLATERAL_RATIO <=? r)
    "*extensions.value.initial_collateral_ratio >= GRAPHENE_MIN_COLLATERAL_RATIO";;
  opt_assert (ap_initial_collateral_ratio op) (λ r, r <=? GRAPHENE_MAX_COLLATERAL_RATIO)
    "*extensions.value.initial_collateral_ratio <= GRAPHENE_MAX_COLLATERAL_RATIO".

(** Is the account in the active authority of the special account that feeds the asset? *)
Definition active_member (special who : account_id_type) (s : mdatabase) : result bool :=
  a ← get_account (md_db s) special; Ok (is_publisher who (account_auths (acc_active a))).

Definition publisher_allowed (op : asset_publish_feed_operation) (obj : asset_object) (b : asset_bitasset_data_object)
    (s : mdatabase) : result unit :=
  if has_flag obj flag_witness_fed_asset then
    ok ← active_member GRAPHENE_WITNESS_ACCOUNT (ap_publisher op) s;
    FC_ASSERT ok "Only active witnesses are allowed to publish price feeds for this asset"
  else if has_flag obj flag_committee_fed_asset then
    ok ← active_member GRAPHENE_COMMITTEE_ACCOUNT (ap_publisher op) s;
    FC_ASSERT ok "Only active committee members are allowed to publish price feeds for this asset"
  else FC_ASSERT (is_publisher (ap_publisher op) (ba_feeds b))
         "The account is not in the set of allowed price feed producers of this asset".

Definition asset_publish_feed_do_evaluate (op : asset_publish_feed_operation) (s : mdatabase) : result unit :=
  let now := head_time s in
  let f := ap_feed op in
  (if negb (HARDFORK_BSIP_77_PASSED now) then
     FC_ASSERT (negb (bool_decide (is_Some (ap_initial_collateral_ratio op))))
       "Initial collateral ratio should not be defined before HARDFORK_BSIP_77_TIME"
   else Ok ());;
  obj ← get_asset (md_db s) (ap_asset_id op);
  FC_ASSERT (is_market_issued obj) "Can only publish price feeds for market-issued assets";;
  b ← get_bitasset s (ap_asset_id op);
  (if is_prediction_market b || (now <=? HARDFORK_CORE_216_TIME) then
     FC_ASSERT (negb (is_globally_settled b)) "No further feeds may be published after a settlement event"
   else Ok ());;
  FC_ASSERT (asset_id (quote (pf_settlement_price f)) =? short_backing_asset (ba_options b))
    "Quote asset type in settlement price should be same as backing asset of this asset";;
  (if HARDFORK_480_TIME <? now then
     if negb (price_is_null (pf_core_exchange_rate f)) then
       FC_ASSERT (asset_id (quote (pf_core_exchange_rate f)) =? core_asset_id)
         "Quote asset in core exchange rate should be CORE asset"
     else Ok ()
   else if negb (price_is_null (pf_settlement_price f)) && negb (price_is_null (pf_core_exchange_rate f)) then
     FC_ASSERT (asset_id (quote (pf_settlement_price f)) =? asset_id (quote (pf_core_exchange_rate f))) "Bad feed"
   else Ok ());;
  publisher_allowed op obj b s.

(** Is the settlement fund enough to revive the asset at the new feed? *)
Definition fund_suffices (a : asset_id_type) (b : asset_bitasset_data_object) (supply maint : Z) : result bool :=
  let backing := short_backing_asset (ba_options b) in
  if supply =? 0 then Ok true
  else if maint <=? HARDFORK_CORE_1270_TIME then
    p ← call_price (Asset supply a) (Asset (settlement_fund b) backing) (maintenance_collateral_ratio (current_feed b));
    Ok (price_ltb (price_flip p) (settlement_price (current_feed b)))
  else
    fund_collateralization ← make_price (Asset (settlement_fund b) backing) (Asset supply a);
    Ok (if HARDFORK_CORE_2290_PASSED maint then price_ltb (current_initial_collateralization b) fund_collateralization
        else price_ltb (current_maintenance_collateralization b) fund_collateralization).

Definition asset_publish_feed_do_apply (op : asset_publish_feed_operation) (_ : unit) (s : mdatabase)
    : result (mdatabase * operation_result) :=
  let a := ap_asset_id op in
  old ← get_bitasset s a;
  s ← modify_bitasset a (λ b, Ok (set_feeds b (put_feed (ap_publisher op)
        (head_time s, make_feed_with_icr (ap_feed op) (ap_initial_collateral_ratio op)) (ba_feeds b)))) s;
  s ← update_current_feed a false s;
  b ← get_bitasset s a;
  let after_2582 := HARDFORK_CORE_2582_PASSED (head_time s) in
  if (negb after_2582 && margin_call_params_equal (feed (current_feed old)) (feed (current_feed b)))
     || (after_2582 && margin_call_params_equal (feed (median_feed old)) (feed (median_feed b)))
  then Ok (s, void_result)
  else
    s ← (if is_globally_settled b && negb (price_is_null (settlement_price (current_feed b))) then
           dyn ← get_dynamic_data (md_db s) a;
           should_revive ← fund_suffices a b (current_supply dyn) (maint_time s);
           if (should_revive : bool) then revive_bitasset a s else Ok s
         else Ok s);
    '(s, _) ← check_call_orders push a true false false false s;
    Ok (s, void_result).

(** ** asset_update_feed_producers *)
Record asset_update_feed_producers_operation := AssetUpdateFeedProducersOperation {
  au_fee : asset;
  au_issuer : account_id_type;
  au_asset_to_update : asset_id_type;
  au_new_feed_producers : gset account_id_type }.

Definition asset_update_feed_producers_validate (op : asset_update_feed_producers_operation) : result unit :=
  FC_ASSERT (0 <=? amount (au_fee op)) "fee.amount >= 0".

Definition asset_update_feed_producers_do_evaluate (op : asset_update_feed_producers_operation) (s : mdatabase) : result unit :=
  FC_ASSERT (Z.of_nat (size (au_new_feed_producers op)) <=? maximum_asset_feed_publishers (parameters (md_db s)))
    "Cannot specify more feed producers than maximum allowed";;
  a ← get_asset (md_db s) (au_asset_to_update op);
  FC_ASSERT (is_market_issued a) "Cannot update feed producers on a non-BitAsset.";;
  FC_ASSERT (negb (has_flag a flag_committee_fed_asset)) "Cannot set feed producers on a committee-fed asset.";;
  FC_ASSERT (negb (has_flag a flag_witness_fed_asset)) "Cannot set feed producers on a witness-fed asset.";;
  FC_ASSERT (ao_issuer a =? au_issuer op) "Only asset issuer can update feed producers of an asset";;
  FC_ASSERT (bool_decide (set_Forall (λ id, is_Some (accounts (md_db s) !! id)) (au_new_feed_producers op)))
    "Unable to find Object".

(** Drop the feeds of those who are no longer publishers, add the new publishers. *)
Definition replace_publishers (producers : gset account_id_type) (l : list (account_id_type * (Z * price_feed_with_icr)))
    : list (account_id_type * (Z * price_feed_with_icr)) :=
  fold_left add_publisher (merge_sort Z.le (elements producers)) (filter (λ x, x.1 ∈ producers) l).

Definition asset_update_feed_producers_do_apply (op : asset_update_feed_producers_operation) (_ : unit) (s : mdatabase)
    : result (mdatabase * operation_result) :=
  let a := au_asset_to_update op in
  s ← modify_bitasset a (λ b, Ok (set_feeds b (replace_publishers (au_new_feed_producers op) (ba_feeds b)))) s;
  s ← update_current_feed a false s;
  '(s, _) ← check_call_orders push a true false false false s;
  Ok (s, void_result).

(** ** asset_claim_fees *)
Record asset_claim_fees_operation := AssetClaimFeesOperation {
  ac_fee : asset;
  ac_issuer : account_id_type;
  ac_amount_to_claim : asset;
  ac_claim_from_asset_id : option asset_id_type }.

Definition asset_claim_fees_validate (op : asset_claim_fees_operation) : result unit :=
  FC_ASSERT (0 <=? amount (ac_fee op)) "fee.amount >= 0";;
  FC_ASSERT (0 <? amount (ac_amount_to_claim op)) "amount_to_claim.amount > 0";;
  match ac_claim_from_asset_id op with
  | Some a => FC_ASSERT (negb (a =? asset_id (ac_amount_to_claim op)))
                "*extensions.value.claim_from_asset_id != amount_to_claim.asset_id"
  | None => Ok ()
  end.

(** The asset that holds the fees. *)
Definition container_asset (op : asset_claim_fees_operation) : asset_id_type :=
  default (asset_id (ac_amount_to_claim op)) (ac_claim_from_asset_id op).

Definition can_accumulate_fee (a : asset_id_type) (obj : asset_object) (fee : asset) (s : mdatabase) : result bool :=
  if asset_id fee =? a then Ok true
  else if is_market_issued obj then b ← get_bitasset s a; Ok (asset_id fee =? short_backing_asset (ba_options b))
  else Ok false.

Definition asset_claim_fees_do_evaluate (op : asset_claim_fees_operation) (s : mdatabase) : result unit :=
  let x := ac_amount_to_claim op in
  let a := container_asset op in
  FC_ASSERT (negb (bool_decide (is_Some (ac_claim_from_asset_id op)))
             || (HARDFORK_CORE_BSIP_87_74_COLLATFEE_TIME <=? head_time s))
    "Collateral-denominated fees are not yet active and therefore cannot be claimed.";;
  obj ← get_asset (md_db s) a;
  FC_ASSERT (ao_issuer obj =? ac_issuer op) "Asset fees may only be claimed by the issuer";;
  ok ← can_accumulate_fee a obj x s;
  FC_ASSERT ok "Asset is not backed by asset and does not hold it as fees.";;
  dyn ← get_dynamic_data (md_db s) a;
  if a =? asset_id x then
    FC_ASSERT (amount x <=? accumulated_fees dyn) "Attempt to claim more fees than have accumulated within asset"
  else FC_ASSERT (amount x <=? accumulated_collateral_fees dyn)
         "Attempt to claim more backing-asset fees than have accumulated within asset".

Definition asset_claim_fees_do_apply (op : asset_claim_fees_operation) (_ : unit) (s : mdatabase)
    : result (mdatabase * operation_result) :=
  let x := ac_amount_to_claim op in
  let a := container_asset op in
  s ← on_db (modify_dynamic_data a (λ o,
        if a =? asset_id x then v ← share_sub (accumulated_fees o) (amount x); Ok (dd_with_fees o v)
        else v ← share_sub (accumulated_collateral_fees o) (amount x); Ok (dd_with_collateral_fees o v))) s;
  s ← on_db (adjust_balance (ac_issuer op) x) s;
  Ok (s, void_result).

(** ** The evaluators *)
Definition asset_publish_feeds_evaluator : DebtEvaluator asset_publish_feed_operation := {|
  de_ctx := unit;
  de_fee := ap_fee;
  de_fee_payer := ap_publisher;
  de_validate := asset_publish_feed_validate;
  de_evaluate := asset_publish_feed_do_evaluate;
  de_apply := asset_publish_feed_do_apply |}.
Definition asset_update_feed_producers_evaluator : DebtEvaluator asset_update_feed_producers_operation := {|
  de_ctx := unit;
  de_fee := au_fee;
  de_fee_payer := au_issuer;
  de_validate := asset_update_feed_producers_validate;
  de_evaluate := asset_update_feed_producers_do_evaluate;
  de_apply := asset_update_feed_producers_do_apply |}.
Definition asset_claim_fees_evaluator : DebtEvaluator asset_claim_fees_operation := {|
  de_ctx := unit;
  de_fee := ac_fee;
  de_fee_payer := ac_issuer;
  de_validate := asset_claim_fees_validate;
  de_evaluate := asset_claim_fees_do_evaluate;
  de_apply := asset_claim_fees_do_apply |}.

(** ** Expired feeds *)

(** The index [by_feed_expiration]: by the time the feed expires and the asset. *)
Definition expires_before (x y : asset_id_type * asset_bitasset_data_object) : bool :=
  (feed_expiration_time x.2 <? feed_expiration_time y.2)
  || ((feed_expiration_time x.2 =? feed_expiration_time y.2) && (x.1 <? y.1)).
Definition first_expiring (p : asset_id_type * asset_bitasset_data_object → bool) (s : mdatabase) : option asset_id_type :=
  fst <$> least_such expires_before p (md_bitassets s).

Definition ao_with_cer (p : price) (o : asset_object) : asset_object :=
  let x := ao_options o in
  AssetObject (ao_issuer o)
    (AssetOptions (max_supply x) (market_fee_percent x) (max_market_fee x) (issuer_permissions x) (flags x) p
       (whitelist_authorities x) (blacklist_authorities x) (whitelist_markets x) (blacklist_markets x) (extensions x))
    (ao_bitasset_data_id o) (ao_for_liquidity_pool o).

Definition ba_with_cer_updated (b : asset_bitasset_data_object) : asset_bitasset_data_object :=
  Bitasset (ba_asset_id b) (ba_options b) (ba_feeds b) (median_feed b) (current_feed b) (current_feed_publication_time b)
    (current_maintenance_collateralization b) (current_initial_collateralization b) (is_prediction_market b)
    (force_settled_volume b) (ba_settlement_price b) (settlement_fund b) (individual_settlement_debt b)
    (individual_settlement_fund b) false false.

(** The core exchange rate of the asset follows the feed. *)
Definition refresh_cer (a : asset_id_type) (s : mdatabase) : result mdatabase :=
  b ← get_bitasset s a;
  s ← modify_bitasset a (λ b, Ok (ba_with_cer_updated b)) s;
  obj ← get_asset (md_db s) a;
  let p := PriceFeed.core_exchange_rate (current_feed b) in
  if negb (price_eqb (core_exchange_rate (ao_options obj)) p)
  then on_db (modify_asset a (λ o, Ok (ao_with_cer p o))) s else Ok s.

(** What happens to an asset whose feed has expired. *)
Definition renew_feed (a : asset_id_type) (s : mdatabase) : result mdatabase :=
  old ← get_bitasset s a;
  get_asset (md_db s) a;;
  s ← update_current_feed a false s;
  b ← get_bitasset s a;
  let current_changed := negb (price_is_null (settlement_price (current_feed b)))
        && negb (margin_call_params_equal (feed (current_feed b)) (feed (current_feed old))) in
  let median_changed := HARDFORK_CORE_2582_PASSED (head_time s) && negb (price_is_null (settlement_price (median_feed b)))
        && negb (margin_call_params_equal (feed (median_feed b)) (feed (median_feed old))) in
  s ← (if current_changed || median_changed
       then '(s, _) ← check_call_orders push a true false true false s; Ok s else Ok s);
  b ← get_bitasset s a;
  if need_to_update_cer b then refresh_cer a s else Ok s.

(** One round; the state is the iterator and the database. *)
Definition expired_round (st : option asset_id_type * mdatabase) : result ((option asset_id_type * mdatabase) * bool) :=
  let '(itr, s) := st in
  match itr with
  | None => Ok (st, false)
  | Some a =>
    b ← get_bitasset s a;
    if negb (feed_is_expired b (head_time s)) then Ok (st, false)
    else
      let itr := first_expiring (expires_before (a, b)) s in
      s ← (if (HARDFORK_615_TIME <=? head_time s) || feed_is_expired_before_hf_615 b (head_time s)
           then renew_feed a s else Ok s);
      Ok ((itr, s), true)
  end.

(** The assets affected by issue 453. *)
Fixpoint check_affected (l : list asset_id_type) (s : mdatabase) : result mdatabase :=
  match l with
  | [] => Ok s
  | a :: l => '(s, _) ← check_call_orders push a true false false false s; check_affected l s
  end.

Definition update_expired_feeds (s : mdatabase) : result mdatabase :=
  '((_, s), running) ← while_pow expired_round 64 (first_expiring (λ _, true) s, s);
  if (running : bool) then Err (assert_exception "out of fuel")
  else if HARDFORK_615_TIME <=? head_time s then Ok s
  else check_affected (merge_sort Z.le (elements (md_issue_453 s))) s.

(** Every round updates one asset, which then needs no update. *)
Fixpoint update_cers (fuel : nat) (s : mdatabase) : result mdatabase :=
  match fuel with
  | O => Ok s
  | S fuel =>
    match least_such (λ x y, y.1 <? x.1) (λ x, need_to_update_cer x.2) (md_bitassets s) with
    | None => Ok s
    | Some (a, _) => s ← refresh_cer a s; update_cers fuel s
    end
  end.

Definition update_core_exchange_rates (s : mdatabase) : result mdatabase := update_cers (size (md_bitassets s)) s.
End feeds.
