(* ===== verification/DebtBooks.v ===== *)
(** * The books of the debt markets

    What the objects of a debt market hold, what is owed in them, and that filling and cancelling orders keeps the
    balance of both. *)
From S2P Require Import Prelude MachineInt Hardfork Asset PriceRatio CallOrder CallOrderTheorems PriceFeed ChainState Frames Ledger CreditBooks Balance Fees Evaluator LimitOrder MarketBooks MarketMatching OrderBook DebtState DebtMarket MarginCalls.

(** ** What trading leaves alone *)

(** The supplies and fees in collateral, the assets and the times. *)
Definition frozen (d : database) :=
  ((λ s, (current_supply s, accumulated_collateral_fees s)) <$> dynamic_data d, assets d,
   head_block_time d, next_maintenance_time d).

Notation freezes := (yields frozen).

Lemma frozen_adjust_balance s a x d : frozen d = s → freezes s (adjust_balance a x d).
Proof. intros E d' [m ->]%adjust_balance_frame. exact E. Qed.

Lemma frozen_modify_statistics s i f d : frozen d = s → freezes s (modify_statistics i f d).
Proof. intros E d' (? & ? & _ & _ & ->)%modify_statistics_Ok. exact E. Qed.

Lemma frozen_modify_dynamic_data s i f d :
  (∀ x y, f x = Ok y → current_supply y = current_supply x ∧ accumulated_collateral_fees y = accumulated_collateral_fees x) →
  frozen d = s → freezes s (modify_dynamic_data i f d).
Proof.
  intros Hf E d' (x & y & Hx & [E1 E2]%Hf & ->)%modify_dynamic_data_Ok. rewrite <- E.
  unfold frozen; simpl. do 3 f_equal. rewrite fmap_insert, E1, E2. apply insert_id. by rewrite lookup_fmap, Hx.
Qed.

#[export] Hint Resolve frozen_adjust_balance frozen_modify_statistics : settings.
#[export] Hint Extern 2 (yields frozen _ (modify_dynamic_data _ _ _)) =>
  apply frozen_modify_dynamic_data; [intros; inv_ok; by simpl|assumption] : settings.

Lemma frozen_deposit_market_fee s a x d : frozen d = s → freezes s (deposit_market_fee_vesting_balance a x d).
Proof. keeps_def deposit_market_fee_vesting_balance. Qed.
#[export] Hint Resolve frozen_deposit_market_fee : settings.
Lemma frozen_pay_network_share s a b d : frozen d = s → freezes s (pay_network_share a b d).
Proof. keeps_def pay_network_share. Qed.
Lemma frozen_pay_reward s a b c e d : frozen d = s → freezes s (pay_reward a b c e d).
Proof. keeps_def pay_reward. Qed.
#[export] Hint Resolve frozen_pay_network_share frozen_pay_reward : settings.
Lemma frozen_pay_rewards s a b c e d : frozen d = s → freezes s (pay_rewards a b c e d).
Proof. keeps_def pay_rewards. Qed.
#[export] Hint Resolve frozen_pay_rewards : settings.
Lemma frozen_pay_market_fees s a b c e f d : frozen d = s → freezes s (pay_market_fees a b c e f d).
Proof. keeps_def pay_market_fees. Qed.
#[export] Hint Resolve frozen_pay_market_fees : settings.
Lemma frozen_pay_fee s a b d : frozen d = s → freezes s (pay_fee a b d).
Proof. keeps_def pay_fee. Qed.
#[export] Hint Resolve frozen_pay_fee : settings.

Section orders.
Context `{FeeSchedule}.

Lemma frozen_modify_limit_order s a b d : frozen d = s → freezes s (modify_limit_order a b d).
Proof. keeps_def modify_limit_order. Qed.
#[local] Hint Resolve frozen_modify_limit_order : settings.
Lemma frozen_cleanup s a d : frozen d = s → freezes s (cleanup_and_remove_limit_order a d).
Proof. keeps_def cleanup_and_remove_limit_order. Qed.
Lemma frozen_sub_core s a b d : frozen d = s → freezes s (sub_core_in_orders a b d).
Proof. keeps_def sub_core_in_orders. Qed.
Lemma frozen_add_core s a b d : frozen d = s → freezes s (add_core_in_orders a b d).
Proof. keeps_def add_core_in_orders. Qed.
Lemma frozen_accumulate_paid_fee s a b d : frozen d = s → freezes s (accumulate_paid_fee a b d).
Proof. keeps_def accumulate_paid_fee. Qed.
#[local] Hint Resolve frozen_cleanup frozen_sub_core frozen_accumulate_paid_fee : settings.
Lemma frozen_deduct_cancel_fee s a b d : frozen d = s → freezes s (deduct_cancel_fee a b d).
Proof. keeps_def deduct_cancel_fee. Qed.
Lemma frozen_refund_deferred_fee s a b c d : frozen d = s → freezes s (refund_deferred_fee a b c d).
Proof. keeps_def refund_deferred_fee. Qed.
#[local] Hint Resolve frozen_deduct_cancel_fee frozen_refund_deferred_fee : settings.
Lemma frozen_cancel_limit_order s a b c d : frozen d = s → freezes s (cancel_limit_order a b c d).
Proof. keeps_def cancel_limit_order. Qed.
#[local] Hint Resolve frozen_cancel_limit_order : settings.
Lemma frozen_maybe_cull s a d : frozen d = s → freezes s (maybe_cull_small_order a d).
Proof. keeps_def maybe_cull_small_order. Qed.
Lemma frozen_pay_order s a b c d : frozen d = s → freezes s (pay_order a b c d).
Proof. keeps_def pay_order. Qed.
Lemma frozen_settle_paid_fee s a b d : frozen d = s → freezes s (settle_paid_fee a b d).
Proof. keeps_def settle_paid_fee. Qed.
Lemma frozen_settle_core_fee s a b c d : frozen d = s → freezes s (settle_core_fee a b c d).
Proof. keeps_def settle_core_fee. Qed.
#[local] Hint Resolve frozen_maybe_cull frozen_pay_order frozen_settle_paid_fee frozen_settle_core_fee : settings.
Lemma frozen_settle_fill s a b c e d : frozen d = s → freezes s (settle_fill a b c e d).
Proof. keeps_def settle_fill. Qed.
Lemma frozen_reduce_order s a b c e d : frozen d = s → freezes s (reduce_order a b c e d).
Proof. keeps_def reduce_order. Qed.
Lemma frozen_order_is_gone s a d : frozen d = s → freezes s (order_is_gone a d).
Proof. keeps_def order_is_gone. Qed.

(** Filling an order without automatic actions. *)
Lemma frozen_fill_limit_order push id a b c e d d' filled o :
  rows (limit_orders d) !! id = Some o → lo_on_fill o = [] →
  fill_limit_order push id a b c e d = Ok (d', filled) → frozen d' = frozen d.
Proof.
  intros Ho Hf. unfold fill_limit_order, get_limit_order. intros H1.
  apply bind_Ok in H1 as (o1 & Ho1%tbl_get_Ok & H1). simplify_eq.
  do 2 apply bind_Ok in H1 as ([] & _ & H1). apply bind_Ok in H1 as (seller & _ & H1).
  apply bind_Ok in H1 as ([d1 r] & H2 & H1). apply (frozen_settle_fill (frozen d)) in H2; [|done].
  unfold process_limit_order_on_fill in H1. rewrite Hf in H1. by apply (frozen_reduce_order (frozen d)) in H1.
Qed.
End orders.

(** ** Books and debts *)

#[global] Instance call_order_holding : Holding call_order_object := λ c, amt (collateral_type c) (collateral c).
#[global] Instance force_settlement_holding : Holding force_settlement_object := λ o,
  amt (asset_id (fs_balance o)) (amount (fs_balance o)).
#[global] Instance collateral_bid_holding : Holding collateral_bid_object := λ b,
  amt (asset_id (get_additional_collateral b)) (amount (get_additional_collateral b)).

Definition backing_asset (b : asset_bitasset_data_object) : asset_id_type := short_backing_asset (ba_options b).

(** The fees in collateral that asset [a] has accumulated. *)
Definition collateral_fees (d : database) (a : asset_id_type) : Z :=
  match dynamic_data d !! a with Some s => accumulated_collateral_fees s | None => 0 end.

Definition ba_held (d : database) (a : asset_id_type) (b : asset_bitasset_data_object) : asset_id_type → Z :=
  amt (backing_asset b) (settlement_fund b + individual_settlement_fund b + collateral_fees d a).

(** Everything that is held of an asset, the collateral of debt included. *)
Definition debt_held (s : mdatabase) (x : asset_id_type) : Z :=
  holdings (md_db s) x + tbl_held (md_calls s) x + tbl_held (md_settlements s) x + tbl_held (md_bids s) x
  + msum (λ a b, ba_held (md_db s) a b x) (md_bitassets s).

(** What the debt positions and the individual settlement funds owe of an asset. *)
Definition owed (s : mdatabase) (a : asset_id_type) : Z :=
  msum (λ _ c, amt (debt_type c) (debt c) a) (rows (md_calls s))
  + msum (λ i b, amt i (individual_settlement_debt b) a) (md_bitassets s).

Definition unbacked (s : mdatabase) (x : asset_id_type) : Z := debt_held s x - supply (md_db s) x.
Definition debt_gap (s : mdatabase) (a : asset_id_type) : Z := owed s a - supply (md_db s) a.

(** *** Well-formed states *)

Definition share_price (p : price) : Prop := is_share (amount (base p)) ∧ is_share (amount (quote p)).

Record bitasset_wf (a : asset_id_type) (b : asset_bitasset_data_object) : Prop := {
  bw_id : ba_asset_id b = a;
  bw_not_core : a ≠ core_asset_id;
  bw_backing : backing_asset b ≠ a;
  bw_method : bsrm b ≠ individual_settlement_to_order;
  bw_fund : is_globally_settled b = false → settlement_fund b = 0;
  bw_settled : is_globally_settled b = true →
    asset_id (base (ba_settlement_price b)) = a ∧ asset_id (quote (ba_settlement_price b)) = backing_asset b;
  bw_median : share_price (settlement_price (median_feed b));
  bw_current : share_price (settlement_price (current_feed b));
  bw_feeds : Forall (λ f, share_price (settlement_price f.2.2)) (ba_feeds b);
  bw_debt : is_share (individual_settlement_debt b) ∧ 0 ≤ individual_settlement_debt b;
  bw_collateral : is_share (individual_settlement_fund b) ∧ 0 ≤ individual_settlement_fund b }.

(** A debt position is of an asset backed by its collateral, and neither side is negative. *)
Record call_wf (m : gmap asset_id_type asset_bitasset_data_object) (c : call_order_object) : Prop := {
  cw_debt : is_share (debt c) ∧ 0 ≤ debt c;
  cw_collateral : is_share (collateral c) ∧ 0 ≤ collateral c;
  cw_backed : ∃ b, m !! debt_type c = Some b ∧ backing_asset b = collateral_type c }.

(** A bid offers collateral for debt of an asset it backs. *)
Record bid_ok (m : gmap asset_id_type asset_bitasset_data_object) (x : collateral_bid_object) : Prop := {
  bo_debt : asset_wf (get_debt_covered x);
  bo_collateral : asset_wf (get_additional_collateral x);
  bo_backed : ∃ b, m !! bid_debt_type x = Some b ∧ backing_asset b = asset_id (get_additional_collateral x) }.

Record debt_ok (s : mdatabase) : Prop := {
  do_books : books_ok (md_db s);
  do_bitassets a b : md_bitassets s !! a = Some b → bitasset_wf a b;
  do_calls : rows_ok (call_wf (md_bitassets s)) (md_calls s);
  do_settlements : rows_ok (λ o, asset_wf (fs_balance o)) (md_settlements s);
  do_bids : rows_ok (bid_ok (md_bitassets s)) (md_bids s);
  do_settled : md_settled_debt s = ∅ }.

(** What no step of a debt market changes. *)
Definition debt_frame (s : mdatabase) :=
  (ao_bitasset_data_id <$> assets (md_db s), head_time s, maint_time s,
   (λ b, (ba_asset_id b, backing_asset b, is_prediction_market b)) <$> md_bitassets s).

Definition globally_settled (s : mdatabase) (a : asset_id_type) : Prop :=
  ∃ b, md_bitassets s !! a = Some b ∧ is_globally_settled b = true.

(** A step that adds [f] to what is held beyond the supplies, and [g] to what is owed beyond them. *)
Record debt_step (s s' : mdatabase) (f g : asset_id_type → Z) : Prop := {
  ds_ok : debt_ok s';
  ds_books x : unbacked s' x = unbacked s x + f x;
  ds_debts a : debt_gap s' a = debt_gap s a + g a;
  ds_frame : debt_frame s' = debt_frame s;
  ds_settled a : globally_settled s a → globally_settled s' a }.

Lemma debt_step_refl s : debt_ok s → debt_step s s (λ _, 0) (λ _, 0).
Proof. split; [done|intros; lia..|done|done]. Qed.

Lemma debt_step_trans s1 s2 s3 f1 f2 g1 g2 :
  debt_step s1 s2 f1 g1 → debt_step s2 s3 f2 g2 → debt_step s1 s3 (λ x, f1 x + f2 x) (λ a, g1 a + g2 a).
Proof.
  intros [_ B1 D1 F1 S1] [O2 B2 D2 F2 S2]. split; [done| | |congruence|auto].
  - intros x. rewrite B2, B1. lia.
  - intros a. rewrite D2, D1. lia.
Qed.

Lemma debt_step_ext s s' f g f' g' :
  debt_step s s' f g → (∀ x, f x = f' x) → (∀ a, g a = g' a) → debt_step s s' f' g'.
Proof. intros [O B D F S] Ef Eg. split; [done|intros; rewrite <- Ef; auto|intros; rewrite <- Eg; auto|done|done]. Qed.

(** [debt_chain] composes the steps among the hypotheses. *)
Ltac debt_chain :=
  repeat match goal with
  | H1 : debt_step ?a ?b _ _, H2 : debt_step ?b ?c _ _ |- _ =>
    let H3 := fresh "C" in pose proof (debt_step_trans _ _ _ _ _ _ _ H1 H2) as H3; clear H1 H2
  end.
Ltac debt_done :=
  debt_chain; match goal with
  | H : debt_step ?a ?b _ _ |- debt_step ?a ?b _ _ =>
    eapply debt_step_ext; [exact H|intros; simpl; amt_solve|intros; simpl; amt_solve]
  end.

(** *** Elementary steps *)

Lemma frozen_views d d' : frozen d' = frozen d →
  (∀ a, supply d' a = supply d a) ∧ (∀ a, collateral_fees d' a = collateral_fees d a) ∧
  assets d' = assets d ∧ head_block_time d' = head_block_time d ∧ next_maintenance_time d' = next_maintenance_time d.
Proof.
  unfold frozen. intros E. injection E as E1 E2 E3 E4.
  assert (∀ a, (λ s, (current_supply s, accumulated_collateral_fees s)) <$> dynamic_data d' !! a =
               (λ s, (current_supply s, accumulated_collateral_fees s)) <$> dynamic_data d !! a) as Ha.
  { intros a. by rewrite <- !lookup_fmap, E1. }
  split_and!; try done; intros a; specialize (Ha a).
  - unfold supply. rewrite !msum_amt_lookup.
    destruct (dynamic_data d' !! a), (dynamic_data d !! a); simpl in Ha; by simplify_eq.
  - unfold collateral_fees. destruct (dynamic_data d' !! a), (dynamic_data d !! a); simpl in Ha; by simplify_eq.
Qed.

(** A change of the database that leaves supplies alone. *)
Lemma db_step s d' f :
  debt_ok s → moves (md_db s) d' f → frozen d' = frozen (md_db s) → debt_step s (set_mdb d' s) f (λ _, 0).
Proof.
  intros [O1 O2 O3 O4 O6 O5] M Hf. destruct (frozen_views _ _ Hf) as (Hs & Hc & Ha & Hh & Hm). split.
  - split; [by apply (mv_ok _ _ _ M)|done..].
  - intros x. unfold unbacked, debt_held. simpl. pose proof (mv_backing _ _ _ M x) as Hx.
    assert (msum (λ a b, ba_held d' a b x) (md_bitassets s) = msum (λ a b, ba_held (md_db s) a b x) (md_bitassets s)) as ->
      by (apply msum_ext; intros; unfold ba_held; by rewrite Hc).
    lia.
  - intros a. unfold debt_gap, owed. simpl. rewrite Hs. lia.
  - unfold debt_frame, head_time, maint_time. simpl. by rewrite Ha, Hh, Hm.
  - done.
Qed.

(** Two sums whose terms differ at one key. *)
Lemma msum_at {A} (f g : Z → A → Z) m k a :
  m !! k = Some a → (∀ i c, i ≠ k → m !! i = Some c → f i c = g i c) → msum f m = msum g m - g k a + f k a.
Proof.
  intros Hk Hi. pose proof (msum_delete f m k a Hk). pose proof (msum_delete g m k a Hk).
  assert (msum f (delete k m) = msum g (delete k m)); [|lia]. apply msum_ext.
  intros i c [? ?]%lookup_delete_Some. by apply Hi.
Qed.

Lemma msum_zero {A} (f : Z → A → Z) m : (∀ k a, m !! k = Some a → f k a = 0) → msum f m = 0.
Proof.
  induction m as [|k a m Hk IH] using map_ind; intros Hf; [apply msum_empty|].
  rewrite msum_insert_new by done. rewrite (Hf k a) by apply lookup_insert_eq. rewrite IH; [done|].
  intros i b Hi. apply Hf. rewrite lookup_insert_ne; [done|congruence].
Qed.

(** A change of an asset's dynamic data. *)
Lemma dynamic_data_step s a m s' :
  debt_ok s → on_db (modify_dynamic_data a m) s = Ok s' →
  ∃ o o', dynamic_data (md_db s) !! a = Some o ∧ m o = Ok o' ∧
  debt_step s s' (λ x, dd_delta a o o' x
      + match md_bitassets s !! a with
        | Some b => amt (backing_asset b) (accumulated_collateral_fees o' - accumulated_collateral_fees o) x
        | None => 0 end)
    (amt a (current_supply o - current_supply o')).
Proof.
  intros Hok H1. unfold on_db in H1. apply bind_Ok in H1 as (d' & H1 & [= <-]).
  pose proof H1 as (o & o' & Ho & Hm & M)%modify_dynamic_data_moves. exists o, o'. split_and!; [done..|].
  apply modify_dynamic_data_Ok in H1 as (o1 & o1' & Ho1 & Hm1 & ->).
  rewrite Ho in Ho1. injection Ho1 as <-. rewrite Hm in Hm1. injection Hm1 as <-. destruct Hok as [O1 O2 O3 O4 O6 O5].
  assert (∀ i, collateral_fees (set_dynamic_data (<[a := o']> (dynamic_data (md_db s))) (md_db s)) i =
    collateral_fees (md_db s) i + if decide (i = a) then accumulated_collateral_fees o' - accumulated_collateral_fees o else 0) as Hc.
  { intros i. unfold collateral_fees. simpl. destruct (decide (i = a)) as [->|];
      [rewrite lookup_insert_eq, Ho|rewrite lookup_insert_ne by done]; lia. }
  split.
  - split; [by apply (mv_ok _ _ _ M)|done..].
  - intros x. unfold unbacked, debt_held. cbn [md_db md_calls md_settlements md_bids md_bitassets set_mdb].
    pose proof (mv_backing _ _ _ M x) as Hx.
    match goal with |- context [msum (λ i b, ba_held ?d i b x) (md_bitassets s)] =>
      assert (msum (λ i b, ba_held d i b x) (md_bitassets s) = msum (λ i b, ba_held (md_db s) i b x) (md_bitassets s)
        + match md_bitassets s !! a with
          | Some b => amt (backing_asset b) (accumulated_collateral_fees o' - accumulated_collateral_fees o) x
          | None => 0 end) as -> end; [|lia].
    destruct (md_bitassets s !! a) as [b|] eqn:Eb.
    + rewrite (msum_at _ (λ i b, ba_held (md_db s) i b x) _ a b); [|done|].
      * unfold ba_held. rewrite Hc. destruct (decide (a = a)); [|done]. amt_solve.
      * intros i c Hi _. unfold ba_held. rewrite Hc. rewrite decide_False by done. f_equal. lia.
    + rewrite (msum_ext _ (λ i b, ba_held (md_db s) i b x)); [lia|].
      intros i c Hi. unfold ba_held. rewrite Hc. destruct (decide (i = a)) as [->|]; [congruence|]. f_equal. lia.
  - intros i. unfold debt_gap, owed. cbn [md_db md_calls md_bitassets set_mdb]. unfold supply. simpl.
    rewrite (msum_insert_old _ _ _ o) by done. amt_solve.
  - done.
  - done.
Qed.

(** A change of a debt position. *)
Lemma call_step s id c c' :
  debt_ok s → rows (md_calls s) !! id = Some c → debt_type c' = debt_type c → collateral_type c' = collateral_type c →
  is_share (debt c') → 0 ≤ debt c' → is_share (collateral c') → 0 ≤ collateral c' →
  debt_step s (set_calls (Table (next_id (md_calls s)) (<[id := c']> (rows (md_calls s)))) s)
    (amt (collateral_type c) (collateral c' - collateral c)) (amt (debt_type c) (debt c' - debt c)).
Proof.
  intros [O1 O2 O3 O4 O6 O5] Hc Ed Ec D1 D2 C1 C2. pose proof (O3 _ _ Hc) as [_ _ (b & Hb & Eb)]. split.
  - split; try done. intros i v. simpl. intros [[<- <-]|[_ Hv]]%lookup_insert_Some; [|by eapply O3].
    split; [done|done|]. exists b. by rewrite Ed, Ec.
  - intros x. unfold unbacked, debt_held. simpl. rewrite (tbl_held_update _ _ c) by done.
    unfold held, call_order_holding. rewrite Ec. amt_solve.
  - intros a. unfold debt_gap, owed. simpl. rewrite (msum_insert_old _ _ _ c) by done. rewrite Ed. amt_solve.
  - done.
  - done.
Qed.

Lemma call_remove_step s id c :
  debt_ok s → rows (md_calls s) !! id = Some c →
  debt_step s (set_calls (Table (next_id (md_calls s)) (delete id (rows (md_calls s)))) s)
    (amt (collateral_type c) (- collateral c)) (amt (debt_type c) (- debt c)).
Proof.
  intros [O1 O2 O3 O4 O6 O5] Hc. split.
  - split; try done. intros i v. simpl. intros [_ Hv]%lookup_delete_Some. by eapply O3.
  - intros x. unfold unbacked, debt_held. simpl. unfold tbl_held. simpl. rewrite (msum_delete _ _ _ c) by done.
    unfold held, call_order_holding. amt_solve.
  - intros a. unfold debt_gap, owed. simpl. rewrite (msum_delete _ _ _ c) by done. amt_solve.
  - done.
  - done.
Qed.

Lemma call_create_step s id t c :
  debt_ok s → call_wf (md_bitassets s) c → tbl_create c (md_calls s) = Ok (id, t) →
  debt_step s (set_calls t s) (amt (collateral_type c) (collateral c)) (amt (debt_type c) (debt c)).
Proof.
  intros [O1 O2 O3 O4 O6 O5] Hc H1. pose proof H1 as (-> & Hn & Et)%tbl_create_Ok. split.
  - split; try done. simpl. by eapply rows_ok_create.
  - intros x. unfold unbacked, debt_held. simpl. rewrite (tbl_held_create _ _ _ _ _ H1).
    unfold held, call_order_holding. amt_solve.
  - intros a. unfold debt_gap, owed. simpl. subst t. simpl. rewrite msum_insert_new by done. amt_solve.
  - done.
  - done.
Qed.

(** A change of the settlement orders. *)
Lemma settlements_step s t f :
  debt_ok s → rows_ok (λ o, asset_wf (fs_balance o)) t → (∀ x, tbl_held t x = tbl_held (md_settlements s) x + f x) →
  debt_step s (set_settlements t s) f (λ _, 0).
Proof.
  intros [O1 O2 O3 O4 O6 O5] Ht E. split; [by split| | |done|done].
  - intros x. unfold unbacked, debt_held. simpl. rewrite E. lia.
  - intros a. unfold debt_gap, owed. simpl. lia.
Qed.

Lemma bids_step s t f :
  debt_ok s → rows_ok (bid_ok (md_bitassets s)) t → (∀ x, tbl_held t x = tbl_held (md_bids s) x + f x) →
  debt_step s (set_bids t s) f (λ _, 0).
Proof.
  intros [O1 O2 O3 O4 O6 O5] Ht E. split; [by split| | |done|done].
  - intros x. unfold unbacked, debt_held. simpl. rewrite E. lia.
  - intros a. unfold debt_gap, owed. simpl. lia.
Qed.

(** A change of a bitasset. *)
Definition same_market_data (b b' : asset_bitasset_data_object) : Prop :=
  ba_asset_id b' = ba_asset_id b ∧ backing_asset b' = backing_asset b ∧ is_prediction_market b' = is_prediction_market b.

(** The new bitasset is well-formed in the state; what is held and owed changes by its funds and its debt. *)
Lemma bitasset_change s a b b' :
  debt_ok s → md_bitassets s !! a = Some b → same_market_data b b' → bitasset_wf a b' →
  let s' := set_bitassets (<[a := b']> (md_bitassets s)) s in
  debt_ok s' ∧ debt_frame s' = debt_frame s ∧
  (∀ x, unbacked s' x = unbacked s x + amt (backing_asset b)
    (settlement_fund b' + individual_settlement_fund b' - settlement_fund b - individual_settlement_fund b) x) ∧
  (∀ i, debt_gap s' i = debt_gap s i + amt a (individual_settlement_debt b' - individual_settlement_debt b) i).
Proof.
  intros [O1 O2 O3 O4 O6 O5] Hb (E1 & E2 & E3) Hw s'.
  assert (∀ i v, md_bitassets s !! i = Some v → ∃ v', md_bitassets s' !! i = Some v' ∧ backing_asset v' = backing_asset v) as Hm.
  { intros i v Hv. simpl. destruct (decide (i = a)) as [->|]; [|exists v; by rewrite lookup_insert_ne by done].
    exists b'. rewrite lookup_insert_eq. split; [done|]. simplify_eq. congruence. }
  split_and!.
  - split; try done; simpl.
    + intros i v [[<- <-]|[_ Hv]]%lookup_insert_Some; [done|by apply O2].
    + intros id c Hc. destruct (O3 _ _ Hc) as [? ? (v & Hv & Ev)]. split; [done..|].
      destruct (Hm _ _ Hv) as (v' & ? & ?). exists v'. split; [done|congruence].
    + intros id c Hc. destruct (O6 _ _ Hc) as [? ? (v & Hv & Ev)]. split; [done..|].
      destruct (Hm _ _ Hv) as (v' & ? & ?). exists v'. split; [done|congruence].
  - unfold debt_frame, head_time, maint_time. simpl. f_equal. rewrite fmap_insert, E1, E2, E3.
    apply insert_id. by rewrite lookup_fmap, Hb.
  - intros x. unfold unbacked, debt_held. simpl. rewrite (msum_insert_old _ _ _ b) by done.
    unfold ba_held. rewrite E2. amt_solve.
  - intros i. unfold debt_gap, owed. simpl. rewrite (msum_insert_old _ _ _ b) by done. amt_solve.
Qed.

Lemma bitasset_step s a b b' :
  debt_ok s → md_bitassets s !! a = Some b → same_market_data b b' → bitasset_wf a b' →
  (is_globally_settled b = true → is_globally_settled b' = true) →
  debt_step s (set_bitassets (<[a := b']> (md_bitassets s)) s)
    (amt (backing_asset b) (settlement_fund b' + individual_settlement_fund b' - settlement_fund b - individual_settlement_fund b))
    (amt a (individual_settlement_debt b' - individual_settlement_debt b)).
Proof.
  intros Hok Hb Hs Hw Hg. destruct (bitasset_change s a b b' Hok Hb Hs Hw) as (O & F & B & D). split; [done..|].
  intros i (v & Hv & Ev). unfold globally_settled. simpl. destruct (decide (i = a)) as [->|].
  - exists b'. rewrite lookup_insert_eq. split; [done|]. simplify_eq. auto.
  - exists v. by rewrite lookup_insert_ne by done.
Qed.

(** ** Payments and fees *)

(** The orders other than debt positions. *)
Definition other_orders (s : mdatabase) := (limit_orders (md_db s), md_settlements s, md_bids s).

(** What leaves the orders and the bitassets of [s] alone. *)
Definition same_markets (s s' : mdatabase) : Prop :=
  other_orders s' = other_orders s ∧ md_calls s' = md_calls s ∧ md_bitassets s' = md_bitassets s.

Lemma same_markets_refl s : same_markets s s.
Proof. done. Qed.
Lemma same_markets_trans s1 s2 s3 : same_markets s1 s2 → same_markets s2 s3 → same_markets s1 s3.
Proof. intros (? & ? & ?) (? & ? & ?). split_and!; congruence. Qed.

Lemma on_db_step r s s' f :
  debt_ok s → (∀ d', r (md_db s) = Ok d' → moves (md_db s) d' f ∧ frozen d' = frozen (md_db s) ∧
                     limit_orders d' = limit_orders (md_db s)) →
  on_db r s = Ok s' → debt_step s s' f (λ _, 0) ∧ same_markets s s'.
Proof.
  intros Hok Hr H1. unfold on_db in H1. apply bind_Ok in H1 as (d' & (M & F & L)%Hr & [= <-]).
  split; [by apply db_step|]. unfold same_markets, other_orders. simpl. by rewrite L.
Qed.

Lemma adjust_step who x s s' :
  debt_ok s → on_db (adjust_balance who x) s = Ok s' →
  debt_step s s' (amt (asset_id x) (amount x)) (λ _, 0) ∧ same_markets s s'.
Proof.
  intros Hok. apply on_db_step; [done|]. intros d' H1. split_and!.
  - by eapply adjust_balance_moves.
  - by apply (frozen_adjust_balance (frozen (md_db s))) in H1.
  - apply adjust_balance_frame in H1 as [m ->]. done.
Qed.

Lemma core_in_orders_step (sub : bool) who x s s' :
  debt_ok s → on_db (if sub then sub_core_in_orders who x else add_core_in_orders who x) s = Ok s' →
  debt_step s s' (λ _, 0) (λ _, 0) ∧ same_markets s s'.
Proof.
  intros Hok. apply on_db_step; [done|]. intros d' H1. split_and!.
  - destruct sub; [by apply sub_core_in_orders_credits in H1 as [? _]|by apply add_core_in_orders_credits in H1 as [? _]].
  - destruct sub; [by apply (frozen_sub_core (frozen (md_db s))) in H1|by apply (frozen_add_core (frozen (md_db s))) in H1].
  - destruct sub; by apply modify_statistics_Ok in H1 as (? & ? & _ & _ & ->).
Qed.

Lemma on_db_modify a m s s' : on_db (modify_dynamic_data a m) s = Ok s' → same_markets s s'.
Proof.
  unfold on_db. intros (d' & (o & o' & _ & _ & ->)%modify_dynamic_data_Ok & [= <-])%bind_Ok. done.
Qed.

Lemma accumulate_fee_step a fee s s' :
  debt_ok s → accumulate_fee a fee s = Ok s' →
  debt_step s s' (amt (asset_id fee) (amount fee)) (λ _, 0) ∧ same_markets s s' ∧ 0 ≤ amount fee.
Proof.
  intros Hok. unfold accumulate_fee. destruct (Z.eqb_spec (amount fee) 0) as [E|_].
  { intros [= <-]. rewrite E. split_and!; [|done|done].
    eapply debt_step_ext; [by apply debt_step_refl|intros; amt_solve|done]. }
  intros H1. apply bind_Ok in H1 as ([] & Hf%FC_ASSERT_Ok & H1). propify.
  destruct (Z.eqb_spec (asset_id fee) a) as [E|E].
  - pose proof (on_db_modify _ _ _ _ H1) as Hs.
    apply dynamic_data_step in H1 as (o & o' & Ho & Hm & C); [|done]. inv_ok. inv_share. subst. split_and!; [|done|done].
    eapply debt_step_ext; [exact C| |].
    + intros y. unfold dd_delta, dd_held; simpl. destruct (md_bitassets s !! asset_id fee); amt_solve.
    + intros y. simpl. amt_solve.
  - apply bind_Ok in H1 as (obj & _ & H1). apply bind_Ok in H1 as ([] & _ & H1).
    apply bind_Ok in H1 as (b & Hb & H1). apply bind_Ok in H1 as ([] & Eb%FC_ASSERT_Ok & H1). propify.
    pose proof (on_db_modify _ _ _ _ H1) as Hs. unfold get_bitasset, find_object in Hb.
    destruct (md_bitassets s !! a) as [b'|] eqn:Ea; [|done]. injection Hb as ->.
    apply dynamic_data_step in H1 as (o & o' & Ho & Hm & C); [|done]. inv_ok. inv_share. subst. split_and!; [|done|done].
    rewrite Ea in C. unfold backing_asset in C.
    eapply debt_step_ext; [exact C| |]; intros y; unfold dd_delta, dd_held; simpl; rewrite ?Eb; amt_solve.
Qed.

(** Reducing a supply adds to what is held, and to what is owed, beyond it. *)
Lemma reduce_supply_step a x s s' :
  debt_ok s →
  on_db (modify_dynamic_data a (λ o, v ← share_sub (current_supply o) x; Ok (dd_with_supply o v))) s = Ok s' →
  debt_step s s' (amt a x) (amt a x) ∧ same_markets s s'.
Proof.
  intros Hok H1. pose proof (on_db_modify _ _ _ _ H1) as Hs. split; [|done].
  apply dynamic_data_step in H1 as (o & o' & Ho & Hm & C); [|done]. inv_ok. inv_share. subst.
  eapply debt_step_ext; [exact C| |]; intros y; unfold dd_delta, dd_held; simpl;
    [destruct (md_bitassets s !! a)|]; amt_solve.
Qed.

(** ** Filling a call order *)

Lemma call_price_types d c r p :
  call_price d c r = Ok p → asset_id (base p) = asset_id c ∧ asset_id (quote p) = asset_id d.
Proof.
  unfold call_price. intros (sw & _ & H1)%bind_Ok. cbv zeta in H1.
  generalize dependent (halve_up 128 (rat_mul sw (make_rational r GRAPHENE_COLLATERAL_RATIO_DENOM))).
  intros cp H1. unfold make_price in H1.
  apply bind_Ok in H1 as ([] & _ & [= <-]). done.
Qed.

Lemma reduce_call_spec b1 b2 mcr pays receives c c' freed :
  reduce_call b1 b2 mcr pays receives c = Ok (c', freed) →
  debt_type c' = debt_type c ∧ collateral_type c' = collateral_type c ∧ debt c' = debt c - receives ∧ is_share (debt c') ∧
  is_share (collateral c - pays) ∧
  match freed with
  | Some x => receives = debt c ∧ collateral c' = 0 ∧ x = Asset (collateral c - pays) (collateral_type c)
  | None => receives ≠ debt c ∧ collateral c' = collateral c - pays
  end.
Proof.
  unfold reduce_call. intros (d' & Hd & H1)%bind_Ok. apply bind_Ok in H1 as (k & Hk & H1).
  apply share_sub_Ok in Hd as [-> Hd]. apply share_sub_Ok in Hk as [-> Hk].
  destruct (Z.eqb_spec (debt c - receives) 0) as [E|E].
  - injection H1 as <- <-. unfold debt_type, collateral_type. simpl. split_and!; try done. lia.
  - apply bind_Ok in H1 as (p & Hp & [= <- <-]). unfold debt_type, collateral_type. simpl.
    assert (asset_id (quote p) = debt_type c ∧ asset_id (base p) = collateral_type c) as [-> ->].
    { destruct (b1 && b2); [by apply call_price_types in Hp as [? ?]|by injection Hp as <-]. }
    split_and!; try done. lia.
Qed.

(** The changes of the call orders other than the one filled. *)
Definition calls_but (id : Z) (s s' : mdatabase) : Prop :=
  ∀ i, i ≠ id → rows (md_calls s') !! i = rows (md_calls s) !! i.

Lemma fill_call_order_step id pays receives fee reduce s s' closed c :
  debt_ok s → rows (md_calls s) !! id = Some c → 0 ≤ amount receives ≤ debt c →
  fill_call_order id pays receives fee reduce s = Ok (s', closed) →
  debt_step s s'
    (λ x, amt (collateral_type c) (- amount pays) x + amt (asset_id fee) (amount fee) x
          + if (reduce : bool) then amt (debt_type c) (amount receives) x else 0)
    (λ x, if reduce then 0 else amt (debt_type c) (- amount receives) x) ∧
  other_orders s' = other_orders s ∧ md_bitassets s' = md_bitassets s ∧ calls_but id s s' ∧
  asset_id pays = collateral_type c ∧ asset_id receives = debt_type c ∧
  (if closed then amount receives = debt c ∧ rows (md_calls s') !! id = None
   else ∃ c', rows (md_calls s') !! id = Some c' ∧ debt c' = debt c - amount receives).
Proof.
  intros Hok Hc Hr H1. unfold fill_call_order, get_call in H1.
  apply bind_Ok in H1 as (o & Ho%tbl_get_Ok & H1). rewrite Hc in Ho. injection Ho as <-.
  apply bind_Ok in H1 as ([] & Ed%FC_ASSERT_Ok & H1). apply bind_Ok in H1 as ([] & Ec%FC_ASSERT_Ok & H1).
  apply bind_Ok in H1 as ([] & Hle%FC_ASSERT_Ok & H1). propify.
  apply bind_Ok in H1 as (mia & _ & H1). apply bind_Ok in H1 as ([] & _ & H1). apply bind_Ok in H1 as (b & _ & H1).
  apply bind_Ok in H1 as ([c' freed] & (T1 & T2 & Dc & Ds & Cs & Hfr)%reduce_call_spec & H1).
  apply bind_Ok in H1 as (t & (v & v' & Hv & [= <-] & ->)%tbl_modify_Ok & H1). rewrite Hc in Hv. injection Hv as <-.
  assert (is_share (collateral c') ∧ 0 ≤ collateral c') as [Hs1 Hs2].
  { destruct freed; destruct Hfr as (? & Hfr); [destruct Hfr as [-> _]; split; [done|lia]|rewrite Hfr; split; [done|lia]]. }
  pose proof (call_step s id c c' Hok Hc T1 T2 Ds ltac:(lia) Hs1 Hs2) as C1.
  set (s1 := set_calls _ s) in *.
  assert (other_orders s1 = other_orders s ∧ md_bitassets s1 = md_bitassets s) as [O1 B1] by done.
  assert (calls_but id s s1) as K1 by (intros i Hi; by apply lookup_insert_ne).
  assert (rows (md_calls s1) !! id = Some c') as L1 by apply lookup_insert_eq. clearbody s1.
  apply bind_Ok in H1 as (s2 & H2 & H1).
  assert (debt_step s1 s2 (λ x, if reduce then amt (debt_type c) (amount receives) x else 0)
            (λ x, if reduce then amt (debt_type c) (amount receives) x else 0) ∧ same_markets s1 s2) as [C2 M2].
  { destruct reduce; [|injection H2 as <-; split; [apply debt_step_refl, C1|done]].
    apply reduce_supply_step in H2 as [? ?]; [by rewrite Ed|apply C1]. }
  clear H2. apply bind_Ok in H1 as (s3 & H3 & H1).
  assert (debt_step s2 s3 (λ x, match freed with Some y => amt (asset_id y) (amount y) x | None => 0 end) (λ _, 0) ∧ same_markets s2 s3) as [C3 M3].
  { destruct freed; [|injection H3 as <-; split; [apply debt_step_refl, C2|done]]. apply adjust_step in H3 as [? ?]; [done|apply C2]. }
  clear H3. apply bind_Ok in H1 as (s4 & H4 & H1).
  assert (debt_step s3 s4 (λ _, 0) (λ _, 0) ∧ same_markets s3 s4) as [C4 M4].
  { destruct (asset_id pays =? core_asset_id); [|injection H4 as <-; split; [apply debt_step_refl, C3|done]].
    apply bind_Ok in H4 as (s5 & H5 & H4). apply (core_in_orders_step true) in H5 as [C5 M5]; [|apply C3].
    destruct freed; [|by injection H4 as <-]. apply (core_in_orders_step true) in H4 as [C6 M6]; [|apply C5].
    split; [clear - C5 C6; debt_done|by eapply same_markets_trans]. }
  clear H4. apply bind_Ok in H1 as (s5 & H5 & H1).
  assert (debt_step s4 s5 (amt (asset_id fee) (amount fee)) (λ _, 0) ∧ same_markets s4 s5) as [C5 M5].
  { destruct (Z.eqb_spec (amount fee) 0) as [E|_]; simpl in H5; [|by apply accumulate_fee_step in H5 as (? & ? & _); [|apply C4]].
    injection H5 as <-. split; [|done]. rewrite E. eapply debt_step_ext; [apply debt_step_refl, C4|intros; amt_solve|done]. }
  clear H5. assert (same_markets s1 s5) as (O5 & K5 & B5) by eauto using same_markets_trans.
  destruct freed as [y|].
  - apply bind_Ok in H1 as (t & (w & Hw & ->)%tbl_remove_Ok & [= <- <-]). destruct Hfr as (Er & Ek & ->).
    rewrite K5, L1 in Hw. injection Hw as <-.
    pose proof (call_remove_step s5 id c' (ds_ok _ _ _ _ C5) ltac:(by rewrite K5)) as C6.
    split_and!; try done; [|unfold other_orders in *; simpl; congruence|simpl; congruence|..].
    + clear - C1 C2 C3 C4 C5 C6 T1 T2 Er Ek Dc. debt_chain.
      eapply debt_step_ext; [eassumption|..]; intros x; simpl; rewrite ?T1, ?T2, ?Ek, ?Dc, ?Er; destruct reduce; amt_solve.
    + intros i Hi. simpl. rewrite lookup_delete_ne, K5 by done. by apply K1.
    + simpl. apply lookup_delete_eq.
  - injection H1 as <- <-. destruct Hfr as (Er & Ek).
    split_and!; try done; [|congruence|congruence|..].
    + clear - C1 C2 C3 C4 C5 T1 T2 Er Ek Dc. debt_chain.
      eapply debt_step_ext; [eassumption|..]; intros x; simpl; rewrite ?T1, ?T2, ?Ek, ?Dc; destruct reduce; amt_solve.
    + intros i Hi. rewrite K5. by apply K1.
    + exists c'. by rewrite K5.
Qed.
