(* ===== verification/DebtSample.v ===== *)
(** * A sample debt market

    Asset 3 is backed by the core asset: two accounts have borrowed it, one of them with too little collateral at the feed
    price of one unit of core; an order sells some of it on the market, another one is to be settled. *)
From S2P Require Import Prelude MachineInt Hardfork Asset PriceRatio CallOrder PriceFeed Authority Vesting ChainState Ledger Sample Fees LimitOrder MarketBooks DebtState DebtMarket DebtBooks.

Definition sample_debt_feed : price_feed_with_icr :=
  make_feed_with_icr (PriceFeed (Price (Asset 1 3) (Asset 1 0)) null_price 1750 1100) None.

Definition sample_debt_options : bitasset_options :=
  BitassetOptions 86400 1 86400 0 2000 0 None None None None None None.

Definition sample_debt_bitasset (settlement : price) (fund : share_type) : asset_bitasset_data_object :=
  Bitasset 3 sample_debt_options [] sample_debt_feed sample_debt_feed sample_time
    (Price (Asset 7 0) (Asset 4 3)) (Price (Asset 7 0) (Asset 4 3)) false 0 settlement fund 0 0 false false.

Definition sample_seller : limit_order_object :=
  LimitOrderObject (sample_time + 86400) 100 500 (Price (Asset 500 3) (Asset 520 0)) 0 0 zero_asset [] None.

Definition sample_debt_db (core supply : Z) : database :=
  set_limit_orders (Table 1 {[ 0 := sample_seller ]})
  (Database sample_time (sample_time + 3600) sample_parameters
    {[ (100, 0) := sample_bal 1000000; (100, 3) := sample_bal 1000; (101, 0) := sample_bal 2000 ]}
    {[ 100 := sample_account_of 100; 101 := sample_account_of 101; 102 := sample_account_of 102;
       0 := sample_account_of 0 ]}
    {[ 100 := sample_stats; 101 := AccountStatisticsObject 1500 0 0 0 0 0 false 0 0 0;
       102 := AccountStatisticsObject 6000 0 0 0 0 0 false 0 0 0 ]}
    {[ 0 := AssetObject 3 sample_options None None; 3 := AssetObject 100 sample_options (Some 0) None ]}
    {[ 0 := AssetDynamicDataObject core 0 0 0 0; 3 := AssetDynamicDataObject supply 0 0 0 0 ]}
    empty_table empty_table empty_table empty_table empty_table empty_table empty_table
    empty_table empty_table empty_table 0 0 11).

Definition sample_position (who : account_id_type) (collateral debt : share_type) : call_order_object :=
  CallOrderObject who collateral debt (Price (Asset 1 0) (Asset 1 3)) None.

Definition sample_debt_state : mdatabase :=
  MDatabase (sample_debt_db 1009500 2000) {[ 3 := sample_debt_bitasset null_price 0 ]}
    (Table 2 {[ 0 := sample_position 101 1500 1000; 1 := sample_position 102 6000 1000 ]})
    (Table 1 {[ 0 := ForceSettlement 100 (Asset 500 3) (sample_time - 1) ]}) empty_table ∅ ∅.

(** The same asset after a global settlement: the fund of 7000 core settles the supply of 2000, account 101 bids. *)
Definition sample_settled_state : mdatabase :=
  MDatabase (sample_debt_db 1010000 1500) {[ 3 := sample_debt_bitasset (Price (Asset 2 3) (Asset 7 0)) 5500 ]} empty_table empty_table
    (Table 1 {[ 0 := CollateralBid 101 (Price (Asset 2500 0) (Asset 2000 3)) ]}) ∅ ∅.

Lemma sample_seller_ok : order_ok sample_seller.
Proof. split; try done; simpl; lia. Qed.

Lemma sample_debt_books core supply : books_ok (sample_debt_db core supply).
Proof.
  assert (map_Forall (λ _ b, 0 ≤ ab_balance b) (balances (sample_debt_db core supply))) as Hb
    by (apply map_Forall_to_list; vm_compute; repeat constructor; discriminate).
  assert (map_Forall (λ _ o, options_ok o) (assets (sample_debt_db core supply))) as Ha
    by (apply map_Forall_to_list; vm_compute; repeat constructor; discriminate).
  split; [exact Hb|exact Ha|apply rows_ok_empty..|].
  intros i o. simpl. intros [_ <-]%lookup_singleton_Some. apply sample_seller_ok.
Qed.

Lemma sample_debt_bitasset_wf p f :
  (is_globally_settled (sample_debt_bitasset p f) = false → f = 0) →
  (is_globally_settled (sample_debt_bitasset p f) = true → asset_id (base p) = 3 ∧ asset_id (quote p) = 0) →
  bitasset_wf 3 (sample_debt_bitasset p f).
Proof. intros H1 H2. split; try done. Qed.

Lemma sample_debt_ok : debt_ok sample_debt_state.
Proof.
  split.
  - apply sample_debt_books.
  - simpl. intros a b [<- <-]%lookup_singleton_Some. by apply sample_debt_bitasset_wf.
  - intros id c. simpl. rewrite lookup_insert_Some. intros [[_ <-]|[_ [_ <-]%lookup_singleton_Some]];
      (split; [done..|]); eexists; by rewrite lookup_singleton_eq.
  - intros id o. simpl. intros [_ <-]%lookup_singleton_Some. done.
  - intros id x. simpl. by rewrite lookup_empty.
  - done.
Qed.

Lemma sample_settled_ok : debt_ok sample_settled_state.
Proof.
  split.
  - apply sample_debt_books.
  - simpl. intros a b [<- <-]%lookup_singleton_Some. by apply sample_debt_bitasset_wf.
  - intros id c. simpl. by rewrite lookup_empty.
  - intros id o. simpl. by rewrite lookup_empty.
  - intros id x. simpl. intros [_ <-]%lookup_singleton_Some. split; [done..|]. eexists. by rewrite lookup_singleton_eq.
  - done.
Qed.
