(* ===== verification/DebtMatching.v ===== *)
(** * Matching in the debt markets keeps the books

    The amounts of the matches of DebtMarket.v are within what the orders have, and every match moves exactly these amounts:
    what all objects hold of each asset, less its supply, stays the same, and so does what is owed, less the supply. *)
From S2P Require Import Prelude MachineInt Hardfork Asset PriceRatio CallOrder CallOrderTheorems PriceFeed ChainState Frames Ledger CreditBooks Balance Fees Evaluator LimitOrder MarketBooks MarketMatching OrderBook DebtState DebtMarket MarginCalls DebtBooks.

(** ** Prices and amounts *)

Lemma price_validate_Ok p : price_validate false p = Ok () →
  0 < amount (base p) ∧ 0 < amount (quote p) ∧ asset_id (base p) ≠ asset_id (quote p).
Proof. unfold price_validate. intros H1. inv_ok. propify. done. Qed.

(** Scaling a price of share amounts gives a valid price of the same market. *)
Lemma price_mul_ratio_wf p n d q :
  price_mul_ratio p n d = Ok q → share_price p →
  price_wf q ∧ asset_id (base q) = asset_id (base p) ∧ asset_id (quote q) = asset_id (quote p).
Proof.
  unfold price_mul_ratio. intros H1 [Sb Sq].
  apply bind_Ok in H1 as ([] & (Hb & Hq & Hne)%price_validate_Ok & H1). apply bind_Ok in H1 as ([] & _ & H1).
  assert (price_wf p) as Hp by done.
  destruct (n =? d); [by injection H1 as <-|].
  destruct (shrink 128 _ false) as [[cp sh] um]. apply bind_Ok in H1 as (r & _ & H1).
  apply bind_Ok in H1 as (np & Hnp & H1). unfold make_price in Hnp. apply bind_Ok in Hnp as ([] & _ & Hnp).
  apply bind_Ok in H1 as ([] & Hv & [= <-]).
  match goal with |- price_wf (if ?b then _ else _) ∧ _ => destruct b end; [done|].
  injection Hnp as <-. apply price_validate_Ok in Hv as (? & ? & ?). simpl in *.
  unfold price_wf. split_and!; simpl; first [done|apply to_int64_is_share].
Qed.

Lemma flip_share p : share_price p → share_price (price_flip p).
Proof. intros [? ?]. done. Qed.
Lemma wf_share p : price_wf p → share_price p.
Proof. intros (? & ? & _). done. Qed.

Lemma round_up_max x p r : multiply_and_round_up x p = Ok r → 0 ≤ amount r ≤ GRAPHENE_MAX_SHARE_SUPPLY.
Proof.
  assert (∀ from to, convert_up x from to = Ok r → 0 ≤ amount r ≤ GRAPHENE_MAX_SHARE_SUPPLY) as Hc.
  { intros from to H1. unfold convert_up in H1. apply bind_Ok in H1 as ([] & Hf%FC_ASSERT_Ok & H1).
    apply bind_Ok in H1 as ([] & Hm%FC_ASSERT_Ok & E). injection E as <-. propify. unfold u128_div in *. set (q := _ / _) in *.
    assert (0 ≤ q) by (apply Z.div_pos; [apply u128_range|done]). simpl. rewrite to_int64_small; [done|]. by apply max_supply_is_share. }
  unfold multiply_and_round_up. intros H1. destruct (_ =? _); [by eapply Hc|]. destruct (_ =? _); [by eapply Hc|discriminate].
Qed.

(** Converting down and back, rounding up, gives at most the original. *)
Lemma there_and_back u p x y :
  asset_wf u → price_wf p → asset_mul_price u p = Ok x → multiply_and_round_up x p = Ok y →
  asset_id y = asset_id u ∧ 0 ≤ amount y ≤ amount u.
Proof.
  intros Hu Hp Hx Hy. apply asset_mul_price_Ok in Hx as (f1 & t1 & Hs1 & E1 & Hwx & ->); [|done..].
  apply multiply_and_round_up_Ok in Hy as (f2 & t2 & Hs2 & E2 & Hwy & ->); [|done..].
  destruct (price_sides_back p f1 t1 f2 t2) as [-> ->]; [done..|].
  destruct (price_sides_wf _ _ _ Hp Hs1) as (_ & _ & Hf & Ht & _). destruct Hu, Hwx, Hwy; simpl in *.
  pose proof (div_down_spec (amount u * amount t1) (amount f1) Hf).
  split_and!; [done|done|]. apply div_up_le; lia.
Qed.

#[local] Opaque while_pow.

(** *** The debt a margin call covers is part of the debt *)

Section cover.
Variables (o : call_order_object) (mp : price) (good : share_type → share_type → result bool).
Hypothesis debt_nonneg : 0 ≤ debt o.

Lemma cover_for_nonneg p c : cover_for o mp p = Ok c → 0 ≤ c.
Proof. unfold cover_for. intros (a & Ha%mul_price_max & [= <-])%bind_Ok. lia. Qed.

Definition search_in_debt (s : search) : Prop :=
  0 ≤ min_to_cover s ∧ 0 ≤ max_to_cover s ≤ debt o ∧ (∀ c, found s = Some c → 0 ≤ c ≤ debt o) ∧ 0 ≤ to_cover s.

Lemma mean_in_debt s p c : search_in_debt s → mean o mp s = Ok (p, c) → 0 ≤ c ≤ debt o.
Proof.
  intros (Hm & Hx & _) H1. unfold mean in H1. apply bind_Ok in H1 as ([p1 c1] & _ & H1).
  destruct (_ || _) eqn:E in H1; injection H1 as <- <-; [done|]. propify. lia.
Qed.

Lemma search_round_in_debt s s' b : search_in_debt s → search_round o mp good s = Ok (s', b) → search_in_debt s'.
Proof using debt_nonneg.
  intros Hs H1. unfold search_round in H1. apply bind_Ok in H1 as ([p c] & Hc%(mean_in_debt s) & H1); [|done].
  destruct Hs as (Hm & Hx & Hf & Ht).
  destruct (_ && _) in H1; [injection H1 as <- <-; split_and!; simpl; try done; try lia; by intros ? [= <-]|].
  apply bind_Ok in H1 as ([] & _ & H1). apply bind_Ok in H1 as (g & _ & H1).
  destruct g; destruct (_ =? _) in H1; injection H1 as <- <-; split_and!; simpl; try done; try lia; by intros ? [= <-].
Qed.

Lemma forward_round_in_debt s s' b :
  (∀ c, f_found s = Some c → 0 ≤ c ≤ debt o) → forward_round o mp good s = Ok (s', b) →
  ∀ c, f_found s' = Some c → 0 ≤ c ≤ debt o.
Proof using debt_nonneg.
  intros Hs H1. unfold forward_round in H1. assert (∀ v : Z, Some (debt o) = Some v → 0 ≤ v ≤ debt o) as Hd by (intros ? [= <-]; lia).
  destruct (_ <? _) in H1; apply bind_Ok in H1 as (x & _ & H1);
    (destruct (_ <=? _) in H1; [by injection H1 as <- <-|]).
  - apply bind_Ok in H1 as (v & Hv%cover_for_nonneg & H1). destruct (_ <=? _) in H1; [by injection H1 as <- <-|].
    apply bind_Ok in H1 as (p & _ & H1). destruct (_ <=? _) in H1; [by injection H1 as <- <-|].
    apply bind_Ok in H1 as ([] & Ha%FC_ASSERT_Ok & H1). propify. apply bind_Ok in H1 as (g & _ & H1).
    destruct g; injection H1 as <- <-; [|done]. simpl. intros ? [= <-]. lia.
  - apply bind_Ok in H1 as (p & _ & H1). destruct (_ <=? _) in H1; [by injection H1 as <- <-|].
    apply bind_Ok in H1 as (v & Hv%cover_for_nonneg & H1). destruct (_ <=? _) in H1; [by injection H1 as <- <-|].
    apply bind_Ok in H1 as ([] & Ha%FC_ASSERT_Ok & H1). propify. apply bind_Ok in H1 as (g & _ & H1).
    destruct g; injection H1 as <- <-; [|done]. simpl. intros ? [= <-]. lia.
Qed.

Definition found_in_debt (s : forward) : Prop := ∀ c, f_found s = Some c → 0 ≤ c ≤ debt o.

Lemma search_loop_in_debt k s s' b : search_in_debt s → while_pow (search_round o mp good) k s = Ok (s', b) → search_in_debt s'.
Proof using debt_nonneg.
  intros Hs Hw. apply (while_pow_ind _ search_in_debt search_in_debt) in Hw; [by destruct b|..|done];
    intros s1 s2 H1 H2; by apply search_round_in_debt in H2.
Qed.

Lemma forward_loop_in_debt k s s' b : found_in_debt s → while_pow (forward_round o mp good) k s = Ok (s', b) → found_in_debt s'.
Proof using debt_nonneg.
  intros Hs Hw. apply (while_pow_ind _ found_in_debt found_in_debt) in Hw; [by destruct b|..|done];
    intros s1 s2 H1 H2; exact (forward_round_in_debt s1 s2 _ H1 H2).
Qed.

Lemma search_from_in_debt s c : search_in_debt s → search_from o mp good s = Ok c → 0 ≤ c ≤ debt o.
Proof using debt_nonneg.
  intros Hs H1. unfold search_from in H1. apply bind_Ok in H1 as ([s1 r1] & Hw%search_loop_in_debt & H1); [|done].
  destruct r1; [discriminate H1|]. destruct Hw as (_ & _ & Hf & _). destruct (found s1) as [v|]; [injection H1 as <-; by apply Hf|].
  apply bind_Ok in H1 as ([s2 r2] & Hw%forward_loop_in_debt & H1); [|intros v E; discriminate E].
  destruct r2; [discriminate H1|]. injection H1 as <-. destruct (f_found s2) as [v|] eqn:E; simpl; [by apply Hw|lia].
Qed.

Lemma refine_cover_in_debt num den f c : refine_cover o mp good num den f = Ok c → 0 ≤ c ≤ debt o.
Proof using debt_nonneg.
  unfold refine_cover. destruct (_ <=? _); [intros [= <-]; lia|]. intros H1.
  apply bind_Ok in H1 as (p & _ & H1). apply bind_Ok in H1 as (v & Hv%cover_for_nonneg & H1). apply bind_Ok in H1 as (p1 & _ & H1).
  destruct (_ || _) in H1; [injection H1 as <-; lia|].
  apply bind_Ok in H1 as ([] & Ha%FC_ASSERT_Ok & H1). propify. apply bind_Ok in H1 as (g & _ & H1).
  destruct g; [injection H1 as <-; lia|]. cbv zeta in H1. apply bind_Ok in H1 as (x & _ & H1). apply bind_Ok in H1 as (w & Hw & H1).
  assert (0 ≤ w) as Hw0 by (destruct (_ =? _) in Hw; [injection Hw as <-; lia|by eapply cover_for_nonneg]). clear Hw.
  destruct (Z.leb_spec (debt o) w); destruct (_ || _) in H1; try (injection H1 as <-; lia);
    apply search_from_in_debt in H1; try done; unfold search_in_debt; simpl; split_and!; try done; lia.
Qed.
End cover.

Lemma max_debt_to_cover_in_debt o mp fp mcr mc c :
  0 ≤ debt o → get_max_debt_to_cover o mp fp mcr mc = Ok c → 0 ≤ c ≤ debt o.
Proof.
  intros Hd. unfold get_max_debt_to_cover. cbv zeta. intros H1. apply bind_Ok in H1 as ([] & _ & H1).
  apply bind_Ok in H1 as ([] & _ & H1). apply bind_Ok in H1 as (called & _ & H1).
  destruct (negb called); [injection H1 as <-; lia|]. destruct (target_collateral_ratio o) as [t|]; [|injection H1 as <-; lia].
  apply bind_Ok in H1 as (tc & _ & H1). apply bind_Ok in H1 as ([] & _ & H1).
  destruct (_ <? 0) in H1; [injection H1 as <-; lia|]. destruct (_ <=? 0) in H1; [injection H1 as <-; lia|].
  by eapply refine_cover_in_debt.
Qed.

(** ** Filling limit orders and settlement orders *)

(** The debt positions, settlement orders, bids and bitassets. *)
Definition debt_objects (s : mdatabase) := (md_calls s, md_settlements s, md_bids s, md_bitassets s).

Section filling.
Context `{FeeSchedule} `{NthElement price_feed_with_icr}.
Variable push : virtual_operation → database → result (database * Z).

Lemma fill_limit_step id pays receives cull maker s s' filled o :
  debt_ok s → rows (limit_orders (md_db s)) !! id = Some o → 0 ≤ amount pays ≤ lo_for_sale o →
  fill_limit push id pays receives cull maker s = Ok (s', filled) →
  debt_step s s' (λ x, amt (asset_id receives) (amount receives) x - amt (asset_id pays) (amount pays) x) (λ _, 0) ∧
  debt_objects s' = debt_objects s ∧ asset_id pays = sell_asset_id o.
Proof.
  intros Hok Ho Hp H1. unfold fill_limit in H1. apply bind_Ok in H1 as ([d f] & H1 & [= <- <-]).
  pose proof (ok_orders _ (do_books _ Hok) _ _ Ho) as Hoo.
  assert (asset_id pays = sell_asset_id o) as Es.
  { unfold fill_limit_order, get_limit_order in H1. apply bind_Ok in H1 as (o1 & Ho1%tbl_get_Ok & H1). simplify_eq.
    apply bind_Ok in H1 as ([] & Hs%FC_ASSERT_Ok & H1). propify. done. }
  pose proof (frozen_fill_limit_order _ _ _ _ _ _ _ _ _ _ Ho (oo_plain _ Hoo) H1) as Hf.
  eapply fill_limit_order_spec in H1 as (M & _); [|apply Hok|done|done].
  split_and!; [by apply db_step|done|done].
Qed.

Lemma settlement_remove_step id t o s :
  debt_ok s → rows (md_settlements s) !! id = Some o → tbl_remove id (md_settlements s) = Ok t →
  debt_step s (set_settlements t s) (amt (asset_id (fs_balance o)) (- amount (fs_balance o))) (λ _, 0).
Proof.
  intros Hok Ho Ht. apply settlements_step; [done|by eapply rows_ok_remove in Ht; [|apply Hok]|].
  intros x. rewrite (tbl_held_remove _ _ _ o x Ho Ht). unfold held, force_settlement_holding. amt_solve.
Qed.

Lemma cancel_settle_order_step id s s' :
  debt_ok s → cancel_settle_order id s = Ok s' →
  debt_step s s' (λ _, 0) (λ _, 0) ∧ md_calls s' = md_calls s ∧ md_bitassets s' = md_bitassets s.
Proof.
  intros Hok H1. unfold cancel_settle_order, get_settlement in H1. apply bind_Ok in H1 as (o & Ho%tbl_get_Ok & H1).
  apply bind_Ok in H1 as (s1 & [C1 (O1 & K1 & B1)]%adjust_step & H1); [|done].
  apply bind_Ok in H1 as (t & Ht & [= <-]).
  assert (md_settlements s1 = md_settlements s) as Em by (unfold other_orders in O1; congruence).
  apply (settlement_remove_step _ _ o) in Ht as C2; [|apply C1|by rewrite Em].
  split_and!; [debt_done|done|done].
Qed.

Lemma pay_force_settle_fees_step a x s s' fee :
  debt_ok s → pay_force_settle_fees a x s = Ok (s', fee) →
  debt_step s s' (amt (asset_id fee) (amount fee)) (λ _, 0) ∧ same_markets s s'.
Proof.
  intros Hok H1. unfold pay_force_settle_fees in H1. apply bind_Ok in H1 as ([] & _ & H1). apply bind_Ok in H1 as (b & _ & H1).
  destruct (_ =? 0); [injection H1 as <- <-; split; [|done]; eapply debt_step_ext; [by apply debt_step_refl|intros; simpl; amt_solve|done]|].
  apply bind_Ok in H1 as (v & Hv%calculate_percent_nonneg & H1). apply bind_Ok in H1 as (s1 & H2 & [= <- <-]).
  destruct (Z.ltb_spec 0 v) as [_|Hz]; [by apply accumulate_fee_step in H2 as (? & ? & _)|].
  injection H2 as <-. split; [|done]. eapply debt_step_ext; [by apply debt_step_refl|intros; simpl; amt_solve|done].
Qed.

Lemma fill_settle_order_step id pays receives maker fee s s' filled o :
  debt_ok s → rows (md_settlements s) !! id = Some o → 0 ≤ amount pays ≤ amount (fs_balance o) →
  fill_settle_order id pays receives maker fee s = Ok (s', filled) →
  debt_step s s' (λ x, amt (asset_id receives) (amount receives) x - amt (asset_id pays) (amount pays) x) (λ _, 0) ∧
  md_calls s' = md_calls s ∧ md_bitassets s' = md_bitassets s.
Proof.
  intros Hok Ho Hp H1. unfold fill_settle_order, get_settlement in H1. apply bind_Ok in H1 as (o1 & Ho1%tbl_get_Ok & H1).
  simplify_eq. apply bind_Ok in H1 as ([d mf] & H2 & H1).
  pose proof H2 as Hf%(frozen_pay_market_fees (frozen (md_db s))); [|done].
  apply pay_market_fees_credits in H2 as (Em & Hm & [M (f1 & f2 & f3 & f4 & Fr)]); [|apply Hok].
  pose proof (db_step s d _ Hok M Hf) as C1.
  assert (same_markets s (set_mdb d s)) as S1 by (subst d; done). set (s1 := set_mdb d s) in *. clearbody s1.
  apply bind_Ok in H1 as ([s2 sf] & H2 & H1).
  assert (debt_step s1 s2 (amt (asset_id sf) (amount sf)) (λ _, 0) ∧ same_markets s1 s2) as [C2 S2].
  { destruct fee; [apply bind_Ok in H2 as (? & _ & H2); by apply pay_force_settle_fees_step in H2; [|apply C1]|].
    injection H2 as <- <-. split; [|done]. eapply debt_step_ext; [apply debt_step_refl, C1|intros; simpl; amt_solve|done]. }
  clear H2. apply bind_Ok in H1 as (tf & (-> & Et & _)%asset_add_Ok & H1).
  apply bind_Ok in H1 as (part & [Eb ->]%asset_lt_Ok & H1). apply bind_Ok in H1 as (s3 & H3 & H1).
  pose proof (same_markets_trans _ _ _ S1 S2) as (O2 & K2 & B2).
  assert (md_settlements s2 = md_settlements s) as Em2 by (unfold other_orders in O2; congruence).
  apply bind_Ok in H1 as (rest & (-> & Er & _)%asset_sub_Ok & H1). apply bind_Ok in H1 as (s4 & H4 & H1).
  destruct (Z.ltb_spec (amount pays) (amount (fs_balance o))) as [Hlt|Hge].
  - injection H1 as <- <-. apply bind_Ok in H3 as (t & Ht & [= <-]).
    pose proof Ht as (v & v' & Hv & Hv' & Et')%tbl_modify_Ok. rewrite Em2, Ho in Hv. injection Hv as <-.
    apply bind_Ok in Hv' as (bal & (-> & _ & Hs)%asset_sub_Ok & [= <-]). simpl in Hs.
    assert (debt_step s2 (set_settlements t s2) (amt (asset_id pays) (- amount pays)) (λ _, 0)) as C3.
    { subst t. apply settlements_step; [apply C2| |].
      - intros i w. simpl. rewrite lookup_insert_Some. intros [[_ <-]|[_ Hw]]; [split; simpl; [done|lia]|by eapply (do_settlements _ (ds_ok _ _ _ _ C2))].
      - intros x. rewrite Em2. rewrite (tbl_held_update _ _ o) by done. unfold held, force_settlement_holding. simpl. rewrite Eb. amt_solve. }
    apply adjust_step in H4 as [C4 (O4 & K4 & B4)]; [|apply C3]. split_and!; [|simpl in *; congruence..].
    clear - C1 C2 C3 C4 Em Et Er. simpl in *. rewrite <- Et, ?Em in *. debt_done.
  - injection H3 as <-. apply adjust_step in H4 as [C4 (O4 & K4 & B4)]; [|apply C2].
    apply bind_Ok in H1 as (t & Ht & [= <- <-]).
    assert (md_settlements s4 = md_settlements s) as Em4 by (unfold other_orders in *; congruence).
    apply (settlement_remove_step _ _ o) in Ht as C5; [|apply C4|by rewrite Em4].
    assert (amount (fs_balance o) = amount pays) as Ea by lia.
    split_and!; [|simpl; congruence|simpl; congruence].
    clear - C1 C2 C4 C5 Em Et Er Eb Ea. simpl in *. rewrite <- Et, ?Em, <- ?Eb, ?Ea in *. debt_done.
Qed.
End filling.

(** ** The current feed *)

Lemma fold_left_elem {A} (f : option A → A → option A) (l : list A) best y :
  (∀ b x, f b x = b ∨ f b x = Some x) → fold_left f l best = Some y → best = Some y ∨ y ∈ l.
Proof.
  intros Hf. revert best. induction l as [|x l IH]; intros best; simpl; [auto|].
  intros [E|?]%IH; [|by right; right]. destruct (Hf best x) as [E'|E']; rewrite E' in E; [by left|].
  injection E as <-. right. left.
Qed.

Lemma first_from_elem key low calls c : first_from key low calls = Some c → calls !! c.1 = Some c.2.
Proof.
  intros [E|E]%fold_left_elem; [done|apply elem_of_map_to_list; by rewrite <- surjective_pairing|].
  intros b x. repeat case_match; auto.
Qed.

Lemma find_least_elem calls mt b force id c :
  find_least_collateralized_short calls mt b force = Ok (Some (id, c)) →
  calls !! id = Some c ∧ debt_type c = ba_asset_id b.
Proof.
  unfold find_least_collateralized_short. intros (p & _ & H1)%bind_Ok. injection H1 as H1.
  destruct (first_from _ _ _) as [x|] eqn:E; [|done]. apply first_from_elem in E.
  destruct (Z.eqb_spec (debt_type x.2) (ba_asset_id b)); simpl in H1; [|done]. by injection H1 as ->.
Qed.

Lemma collateralization_Ok c p :
  collateralization c = Ok p → p = Price (get_collateral c) (get_debt c) ∧ collateral_type c ≠ debt_type c.
Proof. unfold collateralization, make_price. intros H1. inv_ok. propify. done. Qed.

Lemma call_share_price m c : call_wf m c → share_price (Price (get_collateral c) (get_debt c)).
Proof. intros [[? _] [? _] _]. done. Qed.

Lemma std_max_share p q : share_price p → share_price q → share_price (std_max p q).
Proof. unfold std_max. by destruct (price_ltb p q). Qed.

Lemma scaled_share p n d q : price_mul_ratio p n d = Ok q → share_price p → share_price q.
Proof. intros H1 Hp. by apply wf_share, (price_mul_ratio_wf _ _ _ _ H1 Hp). Qed.

Lemma derived_price_share m a b calls p :
  bitasset_wf a b → (∀ id c, calls !! id = Some c → call_wf m c) →
  get_derived_current_feed_price calls b = Ok (Some p) → share_price p.
Proof.
  intros Hb Hc. unfold get_derived_current_feed_price. pose proof (bw_median _ _ Hb) as Hm.
  destruct (price_is_null (settlement_price (median_feed b))); [destruct (price_is_null _); intros [= <-]; done|].
  intros H1. apply bind_Ok in H1 as (q & Hq & H1).
  assert (share_price q) as Sq; [|destruct (price_eqb _ _); [done|by injection H1 as <-]].
  destruct (bsrm b); try by injection Hq as <-.
  - apply bind_Ok in Hq as ([[id c]|] & Hl & Hq); [|by injection Hq as <-].
    apply find_least_elem in Hl as [Hl _]. apply bind_Ok in Hq as (k & [-> _]%collateralization_Ok & Hq).
    apply bind_Ok in Hq as (l & Hl'%scaled_share & [= <-]); [by apply std_max_share|]. by eapply flip_share, call_share_price, Hc.
  - destruct (0 <? _); [|by injection Hq as <-]. apply bind_Ok in Hq as (k & Hk & Hq). unfold make_price in Hk.
    apply bind_Ok in Hk as ([] & _ & [= <-]). destruct (get_margin_call_order_ratio b) as [n d].
    apply bind_Ok in Hq as (l & Hl%scaled_share & [= <-]); [by apply std_max_share|].
    split; [apply (bw_debt _ _ Hb)|apply (bw_collateral _ _ Hb)].
Qed.

Lemma set_current_price_wf a b p :
  bitasset_wf a b → share_price p → bitasset_wf a (set_current_feed b (set_settlement_price (current_feed b) p)).
Proof. intros [] Hp. by split. Qed.

Section feeds.
Context `{FeeSchedule} `{NthElement price_feed_with_icr}.

(** Updating the current feed after the positions have changed keeps the books. *)
Lemma update_current_feed_step a s s' :
  debt_ok s → update_current_feed a true s = Ok s' →
  debt_step s s' (λ _, 0) (λ _, 0) ∧ md_db s' = md_db s ∧ md_calls s' = md_calls s.
Proof.
  intros Hok H1. unfold update_current_feed in H1. simpl in H1. apply bind_Ok in H1 as (b & Hb%find_object_Ok & H1).
  pose proof (do_bitassets _ Hok _ _ Hb) as Hw. apply bind_Ok in H1 as (b' & H2 & [= <-]).
  assert (b' = b ∨ ∃ p, share_price p ∧ b' = set_current_feed b (set_settlement_price (current_feed b) p)) as Hb'.
  { unfold update_bitasset_current_feed in H2. destruct (negb (caps_price (bsrm b))).
    - destruct (price_eqb _ _); injection H2 as <-; [by left|]. right. eexists. split; [apply Hw|done].
    - apply bind_Ok in H2 as ([p|] & Hp & [= <-]); [|by left]. right. exists p. split; [|done].
      eapply derived_price_share; [done|apply Hok|done]. }
  split; [|done]. eapply debt_step_ext; [apply (bitasset_step s a b b'); [done..| | |]| |].
  - by destruct Hb' as [->|(p & _ & ->)].
  - destruct Hb' as [->|(p & Hp & ->)]; [done|by apply set_current_price_wf].
  - by destruct Hb' as [->|(p & _ & ->)].
  - intros x. destruct Hb' as [->|(p & _ & ->)]; simpl; amt_solve.
  - intros x. destruct Hb' as [->|(p & _ & ->)]; simpl; amt_solve.
Qed.
End feeds.

(** ** Matches with limit orders *)

Lemma asset_gt_Ok a b c : asset_gt a b = Ok c → asset_id a = asset_id b ∧ c = (amount b <? amount a).
Proof. unfold asset_gt. intros [? ->]%asset_lt_Ok. done. Qed.

Lemma limit_call_amounts_bounds after sale to_buy mp cp pays receives order cull :
  asset_wf sale → asset_wf to_buy → price_wf mp →
  limit_call_amounts after sale to_buy mp cp = Ok (Some (pays, receives, order, cull)) →
  asset_id receives = asset_id to_buy ∧ 0 ≤ amount receives ≤ amount sale ∧ amount receives ≤ amount to_buy.
Proof.
  intros Hs Hb Hp H1. unfold limit_call_amounts in H1. apply bind_Ok in H1 as (larger & [Ei ->]%asset_gt_Ok & H1).
  destruct (Z.ltb_spec (amount sale) (amount to_buy)) as [Hlt|Hge].
  - apply bind_Ok in H1 as (x & Hx & H1). destruct (_ =? 0) in H1; [discriminate|].
    apply bind_Ok in H1 as (y & Hy & H1). apply bind_Ok in H1 as (z & _ & H1). injection H1 as <- <- <- <-.
    destruct (there_and_back _ _ _ _ Hs Hp Hx Hy) as [E ?]. split_and!; [congruence|lia..].
  - apply bind_Ok in H1 as (x & _ & H1). apply bind_Ok in H1 as (y & _ & H1). injection H1 as <- <- <- <-.
    destruct Hb. split_and!; [done|lia..].
Qed.

Section matches.
Context `{FeeSchedule} `{NthElement price_feed_with_icr}.
Variable push : virtual_operation → database → result (database * Z).

Lemma frozen_match taker maker t m d d' r :
  books_ok d → rows (limit_orders d) !! taker = Some t → rows (limit_orders d) !! maker = Some m → opposite t m →
  match_limit_normal_limit push taker maker (lo_sell_price m) d = Ok (d', r) → frozen d' = frozen d.
Proof.
  intros Hok Ht Hm Ho H1. unfold match_limit_normal_limit, get_limit_order in H1.
  apply bind_Ok in H1 as (t1 & Ht1%tbl_get_Ok & H1). apply bind_Ok in H1 as (m1 & Hm1%tbl_get_Ok & H1).
  rewrite Ht in Ht1. injection Ht1 as <-. rewrite Hm in Hm1. injection Hm1 as <-. apply bind_Ok in H1 as (res & Ha & H1).
  pose proof (ok_orders _ Hok _ _ Ht) as Kt. pose proof (ok_orders _ Hok _ _ Hm) as Km.
  destruct res as [[[tr mr] cull]|]; [|by injection H1 as <- _].
  apply bind_Ok in H1 as ([] & _ & H1). apply bind_Ok in H1 as ([d1 tf] & Hf1 & H1).
  apply bind_Ok in H1 as ([d2 mf] & Hf2 & H1).
  assert (d' = d2) as -> by (destruct tf, mf; simpl in *; by inv_ok).
  pose proof Hf1 as F1%(frozen_fill_limit_order _ _ _ _ _ _ _ _ _ t Ht (oo_plain _ Kt)). rewrite <- F1.
  destruct (match_amounts_bounds _ _ _ _ _ _ Kt Km Ho Ha) as (_ & _ & _ & B2).
  eapply fill_limit_order_spec in Hf1 as (_ & _ & R1); [|done|exact Ht|done].
  refine (frozen_fill_limit_order _ _ _ _ _ _ _ _ _ m _ (oo_plain _ Km) Hf2).
  rewrite (order_reduced_ne _ _ _ _ _ _ _ maker R1); [done|]. apply not_eq_sym. exact (opposite_ne t m _ _ _ Kt Ho Ht Hm).
Qed.

Lemma not_settled_debt id s : debt_ok s → is_settled_debt id s = false.
Proof. intros Hok. unfold is_settled_debt. rewrite (do_settled _ Hok). apply bool_decide_eq_false. set_solver. Qed.

Lemma match_limit_limit_step taker maker m s s' r :
  debt_ok s → rows (limit_orders (md_db s)) !! maker = Some m →
  match_limit_limit push taker maker (lo_sell_price m) s = Ok (s', r) →
  debt_step s s' (λ _, 0) (λ _, 0) ∧ debt_objects s' = debt_objects s.
Proof.
  intros Hok Hm H1. unfold match_limit_limit, get_limit_order in H1. apply bind_Ok in H1 as (t & Ht%tbl_get_Ok & H1).
  apply bind_Ok in H1 as (m1 & Hm1%tbl_get_Ok & H1). rewrite Hm in Hm1. injection Hm1 as <-.
  apply bind_Ok in H1 as ([] & E1%FC_ASSERT_Ok & H1). apply bind_Ok in H1 as ([] & E2%FC_ASSERT_Ok & H1).
  apply bind_Ok in H1 as ([] & _ & H1). rewrite !not_settled_debt in H1 by done.
  apply bind_Ok in H1 as ([] & _ & H1). apply bind_Ok in H1 as ([d r'] & H1 & [= <- <-]). propify.
  assert (opposite t m) as Ho by done. split; [|done].
  pose proof (frozen_match _ _ _ _ _ _ _ (do_books _ Hok) Ht Hm Ho H1) as Hf.
  eapply match_limit_normal_limit_spec in H1 as (M & _); [|apply Hok|done..]. by apply db_step.
Qed.

Lemma match_limit_call_step bid ask mp a cp s s' r :
  debt_ok s → price_wf mp → match_limit_call push bid ask mp a cp s = Ok (s', r) →
  debt_step s s' (λ _, 0) (λ _, 0).
Proof.
  intros Hok Hp H1. unfold match_limit_call, get_limit_order, get_call in H1.
  apply bind_Ok in H1 as (o & Ho%tbl_get_Ok & H1). apply bind_Ok in H1 as (c & Hc%tbl_get_Ok & H1).
  apply bind_Ok in H1 as ([] & E1%FC_ASSERT_Ok & H1). apply bind_Ok in H1 as ([] & E2%FC_ASSERT_Ok & H1).
  apply bind_Ok in H1 as ([] & _ & H1). apply bind_Ok in H1 as (b & _ & H1). propify.
  pose proof (do_calls _ Hok _ _ Hc) as Hcw. pose proof (ok_orders _ (do_books _ Hok) _ _ Ho) as Hoo.
  apply bind_Ok in H1 as (md & Hmd%max_debt_to_cover_in_debt & H1); [|apply Hcw].
  apply bind_Ok in H1 as (am & Ham & H1). destruct am as [[[[pays receives] order] cull]|]; [|injection H1 as <- _; by apply debt_step_refl].
  apply limit_call_amounts_bounds in Ham as (Ei & Hr & Hr'); [|by apply for_sale_wf| |done].
  2:{ destruct Hcw as [[Hd _] _ _]. split; simpl; [|lia]. unfold is_share, INT64_MIN, INT64_MAX in *. lia. }
  simpl in Ei, Hr, Hr'. apply bind_Ok in H1 as (en & [Ep _]%asset_ge_Ok & H1). apply bind_Ok in H1 as ([] & _ & H1).
  apply bind_Ok in H1 as (fee & (-> & _ & _)%asset_sub_Ok & H1).
  apply bind_Ok in H1 as ([s1 tf] & H2 & H1). eapply fill_limit_step in H2 as (C1 & D1 & Es); [|done..].
  apply bind_Ok in H1 as ([s2 mf] & H2 & H1).
  assert (md_calls s1 = md_calls s) as Ek by (unfold debt_objects in D1; congruence).
  eapply (fill_call_order_step _ _ _ _ _ _ _ _ c) in H2 as (C2 & _ & _ & _ & E3 & E4 & _); [|apply C1|by rewrite Ek|lia].
  simpl in C2. apply bind_Ok in H1 as (s3 & H3 & [= <- <-]).
  assert (debt_step s s2 (λ _, 0) (λ _, 0)) as C3.
  { clear H3. debt_chain. eapply debt_step_ext; [eassumption|..]; intros x; simpl; rewrite ?E4, ?Ep in *; rewrite <- ?E3, ?Ep; amt_solve. }
  destruct (is_no_settlement b); [|by injection H3 as <-]. apply update_current_feed_step in H3 as [C4 _]; [|apply C3].
  clear C1 C2. debt_done.
Qed.
End matches.

(** ** Matches of settlement orders with debt positions *)

Lemma asset_min_Ok a b m :
  asset_min a b = Ok m → asset_id m = asset_id a ∧ asset_id m = asset_id b ∧ amount m = Z.min (amount a) (amount b) ∧ (m = a ∨ m = b).
Proof.
  unfold asset_min. intros (c & [E ->]%asset_lt_Ok & [= <-])%bind_Ok.
  destruct (Z.ltb_spec (amount b) (amount a)); split_and!; auto; lia.
Qed.

Lemma settle_calculate_bounds sp cr cp mp fp sr cr' cp' :
  asset_wf sp → price_wf fp → settle_calculate sp cr cp mp fp = Ok (sr, cr', cp') → amount sr ≠ 0 →
  asset_id cr' = asset_id sp ∧ 0 ≤ amount cr' ≤ amount sp.
Proof.
  intros Hs Hp H1 Hn. unfold settle_calculate in H1. apply bind_Ok in H1 as (x & Hx & H1).
  destruct (Z.eqb_spec (amount x) 0); [injection H1 as <- <- <-; done|].
  apply bind_Ok in H1 as (y & Hy & H1). apply bind_Ok in H1 as (z & _ & [= <- <- <-]). by eapply there_and_back.
Qed.

(** The price of a position, scaled, is valid. *)
Lemma position_price_wf m c n d p q :
  call_wf m c → make_price (get_debt c) (get_collateral c) = Ok p → price_div_ratio p n d = Ok q → price_wf q.
Proof.
  intros Hc H1 H2. unfold make_price in H1. apply bind_Ok in H1 as ([] & _ & [= <-]). unfold price_div_ratio in H2.
  eapply price_mul_ratio_wf in H2 as [? _]; [done|]. by eapply (flip_share (Price _ _)), call_share_price.
Qed.

Lemma settle_smaller_bounds m c ratio sp cr cp mp fp sr cr' cp' :
  call_wf m c → asset_wf sp → price_wf fp → settle_smaller c ratio sp cr cp mp fp = Ok (Some (sr, cr', cp')) →
  asset_id cr' = asset_id sp ∧ 0 ≤ amount cr' ≤ amount sp.
Proof.
  intros Hc Hs Hp H1. unfold settle_smaller in H1. apply bind_Ok in H1 as ([[sr1 cr1] cp1] & Hr & H1).
  destruct (Z.eqb_spec (amount sr1) 0); [discriminate|]. apply bind_Ok in H1 as (cap & _ & H1).
  destruct cap; [|injection H1 as <- <- <-; by eapply settle_calculate_bounds].
  apply bind_Ok in H1 as (p & Hp' & H1). apply bind_Ok in H1 as (q & Hq & H1).
  apply bind_Ok in H1 as ([[sr2 cr2] cp2] & Hr2 & H1). destruct (Z.eqb_spec (amount sr2) 0); [discriminate|].
  injection H1 as <- <- <-. eapply settle_calculate_bounds; [done| |done|done]. by eapply position_price_wf.
Qed.

(** What the settlement order pays is what the call order receives, which is within what they have. *)
Lemma settle_amounts_bounds m maint bal c ratio mx mp fp called cp cr sp sr cull :
  call_wf m c → asset_wf bal → asset_wf mx → price_wf mp → price_wf fp →
  settle_amounts maint bal c ratio mx mp fp called = Ok (fill_both cp cr sp sr cull) →
  sp = cr ∧ 0 ≤ amount cr ≤ debt c ∧ amount cr ≤ amount bal.
Proof.
  intros Hc Hb Hx Hmp Hfp H1. unfold settle_amounts in H1. cbv zeta in H1.
  apply bind_Ok in H1 as (v & (Ev1 & Ev2 & Av & _)%asset_min_Ok & H1).
  apply bind_Ok in H1 as (w & (Ew1 & Ew2 & Aw & Cw)%asset_min_Ok & H1). simpl in Aw.
  assert (asset_wf w) as Hw.
  { destruct Hc as [[? ?] _ _]. destruct Hb, Hx. split; unfold is_share, INT64_MIN, INT64_MAX in *; lia. }
  assert (0 ≤ amount w ≤ debt c ∧ amount w ≤ amount bal) as [Bw1 Bw2] by (destruct Hw; lia).
  apply bind_Ok in H1 as (y & Hy & H1).
  assert (∀ z, asset_id z = asset_id w ∧ 0 ≤ amount z ≤ amount w → 0 ≤ amount z ≤ debt c ∧ amount z ≤ amount bal) as Hle by lia.
  destruct ((HARDFORK_CORE_184_TIME <? maint) && (amount y =? 0)).
  { destruct (asset_eqb w (get_debt c)); [by injection H1 as <- <- <- <- <-|]. destruct (asset_eqb w bal); [discriminate|].
    destruct called; [by injection H1 as <- <- <- <- <-|discriminate]. }
  destruct ((HARDFORK_CORE_342_TIME <? maint) && negb (amount y =? 0)); [|by injection H1 as <- <- <- <- <-].
  destruct (asset_eqb w (get_debt c)).
  - apply bind_Ok in H1 as (z & _ & H1). destruct called; [|by injection H1 as <- <- <- <- <-].
    apply bind_Ok in H1 as ([z' f] & _ & H1). apply bind_Ok in H1 as (z'' & _ & H1). by injection H1 as <- <- <- <- <-.
  - apply bind_Ok in H1 as (am & Ham & H1). destruct am as [[[sr' cr'] cp']|]; [|discriminate].
    injection H1 as <- <- <- <- <-. split; [done|]. apply Hle. destruct called; simpl in Ham.
    + destruct (asset_eqb w mx); [|by eapply settle_smaller_bounds in Ham].
      apply bind_Ok in Ham as (? & _ & Ham). apply bind_Ok in Ham as (? & _ & Ham). injection Ham as <- <- <-. lia.
    + apply bind_Ok in Ham as (x & Hx' & Ham). injection Ham as <- <- <-. exact (there_and_back _ _ _ _ Hw Hmp Hy Hx').
Qed.

Section settle_matches.
Context `{FeeSchedule} `{NthElement price_feed_with_icr}.

Lemma match_settle_call_step settle call mp a mx fp called taker s s' covered :
  debt_ok s → price_wf mp → price_wf fp → asset_wf mx →
  match_settle_call settle call mp a mx fp called taker s = Ok (s', covered) →
  debt_step s s' (λ _, 0) (λ _, 0).
Proof.
  intros Hok Hmp Hfp Hmx H1. unfold match_settle_call, get_settlement, get_call in H1.
  apply bind_Ok in H1 as (o & Ho%tbl_get_Ok & H1). apply bind_Ok in H1 as (c & Hc%tbl_get_Ok & H1).
  do 2 apply bind_Ok in H1 as ([] & _ & H1). apply bind_Ok in H1 as (b & _ & H1).
  apply bind_Ok in H1 as (dec & Hdec & H1). pose proof (do_calls _ Hok _ _ Hc) as Hcw.
  destruct dec as [| |cp cr sp sr cull].
  - apply bind_Ok in H1 as (s1 & H1 & [= <- _]). by apply cancel_settle_order_step in H1 as [? _].
  - injection H1 as <- _. by apply debt_step_refl.
  - apply (settle_amounts_bounds (md_bitassets s)) in Hdec as (-> & B1 & B2); [|done|by eapply (do_settlements _ Hok)|done..].
    apply bind_Ok in H1 as ([] & _ & H1). apply bind_Ok in H1 as (fee & (-> & Ei & _)%asset_sub_Ok & H1).
    apply bind_Ok in H1 as ([s1 x1] & H2 & H1).
    eapply (fill_call_order_step _ _ _ _ _ _ _ _ c) in H2 as (C1 & O1 & _ & _ & E3 & E4 & _); [|done|done|lia].
    assert (md_settlements s1 = md_settlements s) as Em by (unfold other_orders in O1; congruence).
    apply bind_Ok in H1 as ([s2 x2] & H2 & H1).
    eapply fill_settle_order_step with (o := o) in H2 as (C2 & _); [|apply C1|by rewrite Em|lia].
    assert (debt_step s s2 (λ _, 0) (λ _, 0)) as C3.
    { clear H1. debt_chain. eapply debt_step_ext; [eassumption|..]; intros x; simpl; rewrite <- ?E3, ?E4, <- ?Ei; amt_solve. }
    clear C1 C2. apply bind_Ok in H1 as (s3 & H3 & H1).
    assert (debt_step s2 s3 (λ _, 0) (λ _, 0)) as C4.
    { destruct (is_no_settlement b); [|injection H3 as <-; apply debt_step_refl, C3]. by apply update_current_feed_step in H3 as [? _]; [|apply C3]. }
    apply bind_Ok in H1 as (s4 & H4 & [= <- _]).
    assert (debt_step s3 s4 (λ _, 0) (λ _, 0)) as C5.
    { destruct cull; [|injection H4 as <-; apply debt_step_refl, C4]. by apply cancel_settle_order_step in H4 as [? _]; [|apply C4]. }
    clear H3 H4. debt_done.
Qed.
End settle_matches.
