(* ===== verification/BlackSwan.v ===== *)
(** * Settlement after a black swan keeps the books

    Individual settlement moves the collateral and the debt of a position to the funds of its asset.  Global settlement
    closes all positions of an asset and gathers their collateral in its settlement fund; from then on
    the supply is backed by the fund, not by debt. *)
From stdpp Require Import sorting.
From S2P Require Import Prelude MachineInt Hardfork Asset PriceRatio CallOrder CallOrderTheorems PriceFeed ChainState Frames Ledger CreditBooks Balance Fees Evaluator LimitOrder MarketBooks MarketMatching OrderBook DebtState DebtMarket MarginCalls DebtBooks DebtMatching.

(** What every routine of the debt markets keeps: what is held beyond the supplies, and what is owed beyond the supply of
    every asset that is not globally settled. *)
Record debt_keeps (s s' : mdatabase) : Prop := {
  dk_ok : debt_ok s';
  dk_books x : unbacked s' x = unbacked s x;
  dk_debts a : debt_gap s' a = debt_gap s a ∨ globally_settled s' a;
  dk_frame : debt_frame s' = debt_frame s;
  dk_settled a : globally_settled s a → globally_settled s' a }.

Lemma debt_keeps_refl s : debt_ok s → debt_keeps s s.
Proof. split; auto. Qed.

Lemma debt_keeps_trans s1 s2 s3 : debt_keeps s1 s2 → debt_keeps s2 s3 → debt_keeps s1 s3.
Proof.
  intros [O1 B1 D1 F1 G1] [O2 B2 D2 F2 G2]. split; [done|congruence| |congruence|auto].
  intros a. destruct (D2 a) as [->|]; [|by right]. destruct (D1 a) as [->|]; auto.
Qed.

Lemma step_keeps s s' : debt_step s s' (λ _, 0) (λ _, 0) → debt_keeps s s'.
Proof. intros [O B D F G]. split; [done|intros; rewrite B; lia|left; rewrite D; lia|done|done]. Qed.

(** A step that changes what is owed of a globally settled asset only. *)
Lemma settled_step_keeps a v s s' : debt_step s s' (λ _, 0) (amt a v) → globally_settled s' a → debt_keeps s s'.
Proof.
  intros [O B D F G] Ha. split; [done|intros; rewrite B; lia| |done|done].
  intros i. destruct (decide (i = a)) as [->|]; [by right|left]. rewrite D. amt_solve.
Qed.

Lemma modify_bitasset_Ok a m s s' :
  modify_bitasset a m s = Ok s' →
  ∃ b b', md_bitassets s !! a = Some b ∧ m b = Ok b' ∧ s' = set_bitassets (<[a := b']> (md_bitassets s)) s.
Proof.
  unfold modify_bitasset. intros (b & Hb%find_object_Ok & H1)%bind_Ok. apply bind_Ok in H1 as (b' & Hb' & [= <-]). eauto.
Qed.

Section settlement.
Context `{FeeSchedule} `{NthElement price_feed_with_icr}.

(** ** Individual settlement *)

Lemma individual_is_fund a b : bitasset_wf a b → is_individual (bsrm b) = true → bsrm b = individual_settlement_to_fund.
Proof. intros Hb Hi. pose proof (bw_method _ _ Hb). by destruct (bsrm b). Qed.

Lemma fund_grows a b d f :
  bitasset_wf a b → is_share d ∧ 0 ≤ d → is_share f ∧ 0 ≤ f → bitasset_wf a (ba_with_individual b d f).
Proof. intros [] Hd Hf. by split. Qed.

Lemma individually_settle_step a id s s' :
  debt_ok s → individually_settle a id s = Ok s' →
  debt_step s s' (λ _, 0) (λ _, 0) ∧ rows (md_calls s') ⊂ rows (md_calls s).
Proof.
  intros Hok H1. unfold individually_settle, get_call in H1. apply bind_Ok in H1 as (c & Hc%tbl_get_Ok & H1).
  apply bind_Ok in H1 as (b & Hb%find_object_Ok & H1). apply bind_Ok in H1 as ([] & Ea%FC_ASSERT_Ok & H1).
  apply bind_Ok in H1 as ([] & Hi%FC_ASSERT_Ok & H1). propify. pose proof (do_bitassets _ Hok _ _ Hb) as Hw.
  rewrite (individual_is_fund _ _ Hw Hi) in H1. pose proof (do_calls _ Hok _ _ Hc) as Hcw.
  apply bind_Ok in H1 as (p & _ & H1). destruct (get_margin_call_pays_ratio b) as [n dn].
  apply bind_Ok in H1 as (q & _ & H1). apply bind_Ok in H1 as (x & Hx%round_up_max & H1). cbv zeta in H1.
  set (y := if _ : bool then _ else x) in H1.
  assert (0 ≤ amount y) as Hy by (unfold y; destruct (_ <? _); simpl; [apply Hcw|lia]). clearbody y.
  apply bind_Ok in H1 as (fee & (-> & Ey & _)%asset_sub_Ok & H1).
  apply bind_Ok in H1 as (s1 & (b1 & b2 & Hb1 & H2 & ->)%modify_bitasset_Ok & H1).
  rewrite Hb in Hb1. injection Hb1 as <-. apply bind_Ok in H2 as (d' & [-> Hd']%share_add_Ok & H2).
  apply bind_Ok in H2 as (f' & [-> Hf']%share_add_Ok & [= <-]).
  assert (0 ≤ individual_settlement_debt b + debt c ∧ 0 ≤ individual_settlement_fund b + amount y) as [Hd0 Hf0]
    by (pose proof (cw_debt _ _ Hcw); pose proof (bw_debt _ _ Hw); pose proof (bw_collateral _ _ Hw); lia).
  pose proof (fund_grows a b _ _ Hw (conj Hd' Hd0) (conj Hf' Hf0)) as Hw'.
  match type of Hw' with bitasset_wf _ ?b' => pose proof (bitasset_step s a b b' Hok Hb ltac:(done) Hw' ltac:(done)) as C1 end.
  apply bind_Ok in H1 as (s2 & [= <-] & H1). set (s1 := set_bitassets _ s) in *.
  assert (rows (md_calls s1) !! id = Some c ∧ md_calls s1 = md_calls s) as [Hc1 K1] by done. clearbody s1.
  apply bind_Ok in H1 as ([s2 cl] & H2 & H1).
  eapply fill_call_order_step in H2 as (C2 & _ & _ & K2 & _ & _ & Hcl); [|apply C1|done|split; [apply Hcw|done]].
  apply bind_Ok in H1 as ([] & Hclosed%FC_ASSERT_Ok & H1). destruct cl; [|done].
  apply update_current_feed_step in H1 as (C3 & _ & K3); [|apply C2]. split.
  2:{ rewrite K3, <- K1. destruct Hcl as [_ Hn]. apply strict_spec_alt. split; [|intros E; by rewrite E, Hc1 in Hn].
      apply map_subseteq_spec. intros i v Hv. destruct (decide (i = id)) as [->|]; [by rewrite Hn in Hv|by rewrite <- K2]. }
  destruct Hcw as [_ _ (b' & Hb' & Eb)]. rewrite <- Ea, Hb in Hb'. injection Hb' as <-. simpl in *.
  clear - C1 C2 C3 Ey Eb Ea. debt_chain.
  eapply debt_step_ext; [eassumption|..]; intros z; simpl; rewrite ?Eb, ?Ea; amt_solve.
Qed.

(** ** Global settlement *)

(** The positions that [globally_settle_asset] closes are of the asset. *)
Lemma price_between k lo hi :
  price_ltb k lo = false → price_ltb hi k = false → asset_id (base hi) = asset_id (base lo) → asset_id (quote hi) = asset_id (quote lo) →
  asset_id (base k) = asset_id (base lo) ∧ asset_id (quote k) = asset_id (quote lo).
Proof.
  unfold price_ltb. intros H1 H2 E1 E2. rewrite E1, E2 in H2.
  destruct (Z.ltb_spec (asset_id (base k)) (asset_id (base lo))); [done|].
  destruct (Z.ltb_spec (asset_id (base lo)) (asset_id (base k))); [done|].
  destruct (Z.ltb_spec (asset_id (quote k)) (asset_id (quote lo))); [done|].
  destruct (Z.ltb_spec (asset_id (quote lo)) (asset_id (quote k))); [done|]. lia.
Qed.

(** A key that has the assets of the position. *)
Definition market_key (key : call_order_object → price) : Prop :=
  ∀ c, asset_id (base (key c)) = collateral_type c ∧ asset_id (quote (key c)) = debt_type c.

Lemma collateral_market_key : market_key collateralization_key.
Proof. done. Qed.
Lemma call_price_market_key : market_key co_call_price.
Proof. done. Qed.

Lemma positions_of_spec key a backing lo hi s id :
  market_key key → price_min backing a = Ok lo → price_max backing a = Ok hi → id ∈ positions_of key lo hi s →
  ∃ c, rows (md_calls s) !! id = Some c ∧ debt_type c = a.
Proof.
  intros Hk Hlo Hhi Hid. unfold price_min, price_max, make_price in *.
  apply bind_Ok in Hlo as ([] & _ & [= <-]). apply bind_Ok in Hhi as ([] & _ & [= <-]).
  unfold positions_of in Hid. apply list_elem_of_In, in_map_iff in Hid as ([i c] & <- & Hin%list_elem_of_In).
  apply list_elem_of_filter in Hin as [Hf Hin]. unfold call_idx in Hin. rewrite merge_sort_Permutation in Hin.
  apply elem_of_map_to_list in Hin. exists c. split; [done|]. simpl in Hf. apply Is_true_true, andb_true_iff in Hf as [H1 H2].
  apply negb_true_iff in H1, H2. rewrite <- (proj2 (Hk c)). by apply (price_between _ _ _ H1 H2).
Qed.

(** Closing a position moves what the fund receives out of the positions. *)
Lemma close_position_step me fp l id l' c :
  debt_ok (gs_state l) → rows (md_calls (gs_state l)) !! id = Some c → close_position me fp l id = Ok l' →
  debt_step (gs_state l) (gs_state l')
    (amt (asset_id (collateral_gathered l)) (amount (collateral_gathered l) - amount (collateral_gathered l')))
    (amt (debt_type c) (- debt c)) ∧
  asset_id (collateral_gathered l') = asset_id (collateral_gathered l) ∧
  rows (md_calls (gs_state l')) ⊆ rows (md_calls (gs_state l)) ∧ rows (md_calls (gs_state l')) !! id = None ∧
  md_bitassets (gs_state l') = md_bitassets (gs_state l) ∧ other_orders (gs_state l') = other_orders (gs_state l).
Proof.
  intros Hok Hc H1. unfold close_position, get_call in H1. cbv zeta in H1. apply bind_Ok in H1 as (c1 & Hc1%tbl_get_Ok & H1).
  rewrite Hc in Hc1. injection Hc1 as <-. set (margin := is_margin_call l && _) in H1. clearbody margin.
  apply bind_Ok in H1 as (p0 & _ & H1). apply bind_Ok in H1 as (ov & _ & H1).
  set (pays := if ov : bool then _ else p0) in H1. clearbody pays.
  apply bind_Ok in H1 as (fr & Hfr & H1). apply bind_Ok in H1 as (fee & Hfee & H1).
  apply bind_Ok in H1 as (g & (-> & Eg & _)%asset_add_Ok & H1). apply bind_Ok in H1 as ([s2 cl] & H2 & H1).
  apply bind_Ok in H1 as ([] & Hcl%FC_ASSERT_Ok & [= <-]). destruct cl; [|done].
  eapply fill_call_order_step in H2 as (C & O & B & K & Ep & _ & _ & Hn); [|done|done|split; [apply (do_calls _ Hok _ _ Hc)|done]].
  assert (∀ x, amt (collateral_type c) (- amount pays) x + amt (asset_id fee) (amount fee) x
             = amt (asset_id (collateral_gathered l)) (- amount fr) x) as E.
  { intros x. rewrite <- Ep. destruct margin.
    - apply asset_sub_Ok in Hfee as (-> & E & _). rewrite Eg, <- E. simpl. amt_solve.
    - injection Hfr as <-. injection Hfee as <-. rewrite Eg. simpl. amt_solve. }
  simpl. split_and!; [|done| |done..].
  - eapply debt_step_ext; [exact C|..]; intros x; simpl; [rewrite E; amt_solve|done].
  - apply map_subseteq_spec. intros i v Hv. destruct (decide (i = id)) as [->|]; [by rewrite Hn in Hv|]. by rewrite <- K.
Qed.

Lemma close_positions_step me fp a ids l l' :
  debt_ok (gs_state l) → (∀ id c, id ∈ ids → rows (md_calls (gs_state l)) !! id = Some c → debt_type c = a) →
  close_positions me fp ids l = Ok l' →
  ∃ v, debt_step (gs_state l) (gs_state l')
    (amt (asset_id (collateral_gathered l)) (amount (collateral_gathered l) - amount (collateral_gathered l')))
    (amt a v) ∧
  md_bitassets (gs_state l') = md_bitassets (gs_state l) ∧
  rows (md_calls (gs_state l')) ⊆ rows (md_calls (gs_state l)) ∧ (∀ id, id ∈ ids → rows (md_calls (gs_state l')) !! id = None).
Proof.
  revert l. induction ids as [|id ids IH]; intros l Hok Hids H1; simpl in H1.
  { injection H1 as <-. exists 0. split_and!; [|done|done|set_solver]. eapply debt_step_ext; [by apply debt_step_refl|intros; amt_solve..]. }
  apply bind_Ok in H1 as (l1 & H2 & H1). assert (∃ c, rows (md_calls (gs_state l)) !! id = Some c) as [c Hc].
  { unfold close_position in H2. apply bind_Ok in H2 as (c & Hc%tbl_get_Ok & _). eauto. }
  apply (close_position_step _ _ _ _ _ c) in H2 as (C1 & E1 & K1 & N1 & B1 & _); [|done..].
  apply IH in H1 as (v & C2 & B2 & K2 & N2); [|apply C1|].
  - exists (v - debt c). split_and!; [|congruence|by etrans|].
    2:{ intros i [->|Hi]%elem_of_cons; [by eapply lookup_weaken_None|by apply N2]. }
    rewrite E1, (Hids id c) in * by (done || left). clear - C1 C2. debt_done.
  - intros i w Hi Hw. apply (Hids i); [by right|]. by eapply lookup_weaken.
Qed.

Lemma no_settled_debt_order a s : debt_ok s → find_settled_debt_order a s = None.
Proof.
  intros Hok. unfold find_settled_debt_order, least_such. rewrite (do_settled _ Hok).
  induction (map_to_list _) as [|x l IH]; simpl; [done|]. rewrite IH. by rewrite bool_decide_eq_false_2 by set_solver.
Qed.

(** The index by which the positions are closed. *)
Definition settle_key (s : mdatabase) : call_order_object → price :=
  if maint_time s <=? HARDFORK_CORE_1669_TIME then co_call_price else collateralization_key.
Lemma settle_key_market s : market_key (settle_key s).
Proof. unfold settle_key. by destruct (_ <=? _). Qed.

Definition settled_price (a : asset_id_type) (b : asset_bitasset_data_object) (supply fund : share_type) : price :=
  Price (Asset supply a) (Asset fund (short_backing_asset (ba_options b))).

Lemma settled_price_settles a b v f :
  bitasset_wf a b → let b' := ba_globally_settled b (settled_price a b v f) f in
  is_globally_settled b' = true ∧ bitasset_wf a b'.
Proof.
  intros Hw b'. assert (is_globally_settled b' = true) as Hg2; [|split; [done|destruct Hw; split; try done; by rewrite Hg2]].
  unfold is_globally_settled, price_is_null. simpl. pose proof (bw_backing _ _ Hw) as Hne. unfold backing_asset in Hne.
  destruct (Z.eqb_spec a core_asset_id), (Z.eqb_spec (short_backing_asset (ba_options b)) core_asset_id); try done. congruence.
Qed.

Lemma globally_settle_asset_spec a p margin s s' :
  debt_ok s → globally_settle_asset a p margin s = Ok s' →
  ∃ b o v fund lo hi, md_bitassets s !! a = Some b ∧ dynamic_data (md_db s) !! a = Some o ∧
    price_min (backing_asset b) a = Ok lo ∧ price_max (backing_asset b) a = Ok hi ∧
    debt_step s s' (λ _, 0) (amt a v) ∧
    md_bitassets s' = <[a := ba_globally_settled b (settled_price a b (current_supply o) fund) fund]> (md_bitassets s) ∧
    rows (md_calls s') ⊆ rows (md_calls s) ∧ (∀ id, id ∈ positions_of (settle_key s) lo hi s → rows (md_calls s') !! id = None).
Proof.
  intros Hok H1. unfold globally_settle_asset in H1. cbv zeta in H1. apply bind_Ok in H1 as (b & Hb%find_object_Ok & H1).
  apply bind_Ok in H1 as ([] & Hg%FC_ASSERT_Ok & H1). propify. apply bind_Ok in H1 as (dyn & Hdyn%find_object_Ok & H1).
  change (if _ : bool then co_call_price else collateralization_key) with (settle_key s) in H1.
  apply bind_Ok in H1 as (lo & Hlo & H1). apply bind_Ok in H1 as (hi & Hhi & H1). apply bind_Ok in H1 as (fp & _ & H1).
  apply bind_Ok in H1 as (l & H2 & H1). pose proof (do_bitassets _ Hok _ _ Hb) as Hw.
  apply (close_positions_step _ _ a) in H2 as (v & C1 & B1 & K1 & N1); [|done|].
  2:{ intros id c Hid Hc. eapply positions_of_spec in Hid as (c' & Hc' & E); [|apply settle_key_market|done..]. simpl in Hc. congruence. }
  simpl in C1, B1, K1. rewrite no_settled_debt_order in H1 by apply C1. apply bind_Ok in H1 as (s1 & [= <-] & H1).
  apply bind_Ok in H1 as (b1 & Hb1%find_object_Ok & H1). rewrite B1, Hb in Hb1. injection Hb1 as <-.
  apply bind_Ok in H1 as (g & [-> _]%share_add_Ok & H1). apply bind_Ok in H1 as (np & Hnp & H1).
  apply modify_bitasset_Ok in H1 as (b1 & b2 & Hb1 & [= <-] & ->). rewrite B1, Hb in Hb1. injection Hb1 as <-.
  unfold make_price in Hnp. apply bind_Ok in Hnp as ([] & _ & [= <-]). fold (settled_price a b (current_supply dyn)
    (amount (collateral_gathered l) + individual_settlement_fund b)).
  exists b, dyn, (v - individual_settlement_debt b), (amount (collateral_gathered l) + individual_settlement_fund b), lo, hi.
  set (fund := amount (collateral_gathered l) + _). destruct (settled_price_settles a b (current_supply dyn) fund Hw) as [Hg2 Hw2].
  set (b2 := ba_globally_settled _ _ _) in *.
  pose proof (bitasset_step (gs_state l) a b b2 (ds_ok _ _ _ _ C1) ltac:(by rewrite B1) ltac:(done) Hw2 ltac:(done)) as C2.
  pose proof (bw_fund _ _ Hw Hg) as Hf0. simpl. rewrite B1 in *. split_and!; [done..| |done|done|done].
  clear - C1 C2 Hf0. debt_chain. eapply debt_step_ext; [eassumption|..]; intros x; simpl; [|amt_solve].
  rewrite Hf0. unfold backing_asset, fund. amt_solve.
Qed.

Lemma globally_settle_asset_keeps a p margin s s' :
  debt_ok s → globally_settle_asset a p margin s = Ok s' → debt_keeps s s' ∧ globally_settled s' a.
Proof.
  intros Hok (b & o & v & fund & lo & hi & Hb & _ & _ & _ & C & B & _)%globally_settle_asset_spec; [|done].
  assert (globally_settled s' a) as Hg; [|split; [by eapply settled_step_keeps|done]].
  eexists. rewrite B, lookup_insert_eq. split; [done|]. eapply settled_price_settles. by eapply (do_bitassets _ Hok).
Qed.

(** ** Black swans *)

Lemma blackswan_loop_keeps fuel a enable bid call settled s s' r :
  debt_ok s → blackswan_loop fuel a enable bid call settled s = Ok (s', r) → debt_keeps s s'.
Proof.
  revert call settled s. induction fuel as [|fuel IH]; intros call settled s Hok H1; simpl in H1;
    apply bind_Ok in H1 as (b & _ & H1); apply bind_Ok in H1 as (hp & _ & H1); apply bind_Ok in H1 as (lc & _ & H1);
    (destruct (negb _) in H1; [injection H1 as <- _; by apply debt_keeps_refl|]); apply bind_Ok in H1 as ([] & _ & H1).
  all: destruct (is_individual (bsrm b)).
  all: try (apply bind_Ok in H1 as (s1 & H2 & [= <- _]);
    destruct (HARDFORK_CORE_2481_PASSED _); [|destruct (_ && _)]; by apply globally_settle_asset_keeps in H2 as [? _]).
  all: apply bind_Ok in H1 as (s1 & [C1%step_keeps _]%individually_settle_step & H1); [|done].
  all: apply bind_Ok in H1 as (b1 & _ & H1); apply bind_Ok in H1 as ([c|] & _ & H1); try by injection H1 as <- _.
  - discriminate.
  - eapply debt_keeps_trans; [done|]. eapply IH; [apply C1|done].
Qed.

(** The number of positions is enough fuel: every round but the last settles one. *)
Lemma blackswan_loop_fuel n m a enable bid call settled s :
  debt_ok s → (size (rows (md_calls s)) ≤ n)%nat → (size (rows (md_calls s)) ≤ m)%nat →
  blackswan_loop n a enable bid call settled s = blackswan_loop m a enable bid call settled s.
Proof.
  revert m call settled s. induction n as [|n IH]; intros m call settled s Hok Hn Hm; (destruct m as [|m]; [try done|]).
  all: cbn [blackswan_loop]; destruct (get_bitasset s a) as [b|]; [|done]; simpl; destruct (highest_price _ _ _); [|done]; simpl;
    destruct (collateralization _); [|done]; simpl; destruct (negb _); [done|]; destruct enable; [|done]; simpl;
    destruct (is_individual _); [|done]; destruct (individually_settle a call.1 s) as [s1|] eqn:Hi; [|done]; simpl;
    apply individually_settle_step in Hi as [C1 Hlt%map_subset_size]; [|done]; try lia.
  destruct (get_bitasset s1 a); [|done]. simpl. destruct (find_least_collateralized_short _ _ _ _) as [[c|]|]; [|done..].
  apply IH; [apply C1|lia..].
Qed.

Lemma check_for_blackswan_keeps a enable s s' r :
  debt_ok s → check_for_blackswan a enable s = Ok (s', r) → debt_keeps s s'.
Proof.
  intros Hok H1. unfold check_for_blackswan in H1. apply bind_Ok in H1 as (obj & _ & H1).
  assert (Ok (s, r) = Ok (s', r) → debt_keeps s s') as Hr by (intros [= <-]; by apply debt_keeps_refl).
  destruct (negb _); [injection H1 as <- <-; auto|]. apply bind_Ok in H1 as (b & _ & H1).
  destruct (is_globally_settled b); [injection H1 as <- <-; auto|]. destruct (price_is_null _); [injection H1 as <- <-; auto|].
  destruct (_ && _) in H1; [injection H1 as <- <-; auto|]. apply bind_Ok in H1 as ([call|] & _ & H1); [|injection H1 as <- <-; auto].
  apply bind_Ok in H1 as (bid & _ & H1). by eapply blackswan_loop_keeps.
Qed.
End settlement.
