(* ===== verification/MarginCallTheorems.v ===== *)
(** * Margin calls keep the books

    The loops of MarginCalls.v keep what is held and what is owed beyond the supplies: [check_call_orders], [apply_order] in
    a market with debt positions, [apply_force_settlement]. *)
From S2P Require Import Prelude MachineInt Hardfork Asset PriceRatio CallOrder CallOrderTheorems PriceFeed ChainState Frames Ledger CreditBooks Balance Fees Evaluator LimitOrder MarketBooks MarketMatching OrderBook DebtState DebtMarket MarginCalls DebtBooks DebtMatching BlackSwan.

#[local] Opaque while_pow.

(** ** Prices of margin calls *)

Lemma margin_call_order_price_wf a b p : bitasset_wf a b → get_margin_call_order_price b = Ok p → price_wf p.
Proof.
  intros Hb. unfold get_margin_call_order_price, margin_call_order_price. destruct (margin_call_order_ratio _ _) as [n d].
  intros H1%price_mul_ratio_wf; [apply H1|apply Hb].
Qed.

Lemma margin_call_prices_wf a b p q : bitasset_wf a b → margin_call_prices b = Ok (p, q) → price_wf p ∧ price_wf q.
Proof.
  intros Hb H1. unfold margin_call_prices in H1. apply bind_Ok in H1 as (x & Hx%(margin_call_order_price_wf a) & H1); [|done].
  apply bind_Ok in H1 as (y & Hy%price_mul_ratio_wf & [= <- <-]); [|apply Hb]. split; [done|apply Hy].
Qed.

Lemma max_cover_wf m c mp fp mcr mc x a :
  call_wf m c → get_max_debt_to_cover c mp fp mcr mc = Ok x → asset_wf (Asset x a) ∧ x ≤ debt c.
Proof.
  intros [[Hs Hd] _ _] H1%max_debt_to_cover_in_debt; [|done].
  split; [split; simpl|]; unfold is_share, INT64_MIN, INT64_MAX in *; lia.
Qed.

(** ** Margin calls against settlement orders and the settled debt order *)

Section margin_calls.
Context `{FeeSchedule} `{NthElement price_feed_with_icr}.
Variable push : virtual_operation → database → result (database * Z).

Lemma settle_round_keeps a lo e prices s st st' r :
  debt_keeps s st.1 → price_wf prices.1 → price_wf prices.2 → settle_round a lo e prices st = Ok (st', r) → debt_keeps s st'.1.
Proof.
  intros K Hp Hq H1. pose proof (dk_ok _ _ K) as Hok. unfold settle_round in H1.
  destruct (first_settlement a _) as [[settle o]|]; [|by injection H1 as <- _].
  destruct (call_lower_bound _ lo _) as [call|]; [|by injection H1 as <- _]. destruct (bool_decide _); [by injection H1 as <- _|].
  apply bind_Ok in H1 as (c & Hc%tbl_get_Ok & H1). apply bind_Ok in H1 as (b & _ & H1). apply bind_Ok in H1 as (pr & _ & H1).
  destruct pr; [by injection H1 as <- _|]. apply bind_Ok in H1 as (x & Hx & H1).
  eapply max_cover_wf in Hx as [Hx _]; try apply (do_calls _ Hok _ _ Hc).
  apply bind_Ok in H1 as ([s1 cov] & H2 & H1). apply match_settle_call_step, step_keeps in H2; try done.
  destruct (0 <? _); injection H1 as <- _; by eapply debt_keeps_trans.
Qed.

Lemma match_force_settlements_keeps a s s' r :
  debt_ok s → match_force_settlements a s = Ok (s', r) → debt_keeps s s'.
Proof.
  intros Hok H1. unfold match_force_settlements in H1. apply bind_Ok in H1 as (b & Hb%find_object_Ok & H1).
  do 4 apply bind_Ok in H1 as ([] & _ & H1). do 2 apply bind_Ok in H1 as (? & _ & H1).
  apply bind_Ok in H1 as ([p q] & Hpq & H1). eapply margin_call_prices_wf in Hpq as [Hp Hq]; [|by eapply (do_bitassets _ Hok)].
  apply bind_Ok in H1 as ([st running] & Hw & H1). destruct running; [discriminate|]. injection H1 as ->.
  apply (while_pow_ind _ (λ st, debt_keeps s st.1) (λ st, debt_keeps s st.1)) in Hw; [done|..|by apply debt_keeps_refl];
    intros st1 st2 K Hr; by eapply (settle_round_keeps a _ _ (p, q)).
Qed.

Lemma check_settled_debt_order_id a s s' : debt_ok s → check_settled_debt_order push a s = Ok s' → s' = s.
Proof.
  intros Hok H1. unfold check_settled_debt_order in H1. destruct (negb _); [by injection H1 as <-|].
  apply bind_Ok in H1 as (b & _ & H1). rewrite no_settled_debt_order in H1 by done. destruct (bsrm b); by injection H1 as <-.
Qed.

(** ** Margin calls against the book *)

Lemma call_limit_amounts_bounds maint mute c to_buy sale mp cp pays receives lr f1 f2 :
  asset_wf sale → asset_wf to_buy → price_wf mp →
  call_limit_amounts maint mute c to_buy sale mp cp = Ok (Some (pays, receives, lr, f1, f2)) →
  0 ≤ amount receives ≤ amount sale ∧ amount receives ≤ amount to_buy.
Proof.
  intros Hs Hb Hp H1. unfold call_limit_amounts in H1. cbv zeta in H1.
  apply bind_Ok in H1 as (larger & [Ei ->]%asset_gt_Ok & H1).
  destruct (Z.ltb_spec (amount sale) (amount to_buy)) as [Hlt|Hge].
  - apply bind_Ok in H1 as (x & Hx & H1). apply bind_Ok in H1 as (y & Hy & H1).
    assert (0 ≤ amount y ≤ amount sale) as By.
    { destruct (maint <=? _); [injection Hy as <-; destruct Hs; lia|]. by destruct (there_and_back _ _ _ _ Hs Hp Hx Hy). }
    destruct (negb _) in H1; [apply bind_Ok in H1 as (z & _ & H1); injection H1 as <- <- <- <- <-; lia|].
    apply bind_Ok in H1 as (z & _ & H1). destruct (_ <=? _) in H1; [discriminate|]. do 4 apply bind_Ok in H1 as (? & _ & H1).
    destruct (price_ltb _ _) in H1; [discriminate|]. injection H1 as <- <- <- <- <-. lia.
  - destruct Hb. destruct (maint <=? _); apply bind_Ok in H1 as (x & _ & H1); [injection H1 as <- <- <- <- <-; lia|].
    destruct (_ && _) in H1; [discriminate|]. apply bind_Ok in H1 as (y & _ & H1). injection H1 as <- <- <- <- <-. lia.
Qed.

Lemma issue_453_step x s : debt_ok s → debt_step s (set_issue_453 x s) (λ _, 0) (λ _, 0).
Proof. intros [O1 O2 O3 O4 O5]. split; [by split|intros; unfold unbacked, debt_held; simpl; lia|intros; unfold debt_gap, owed; simpl; lia|done|done]. Qed.

Section calls.
Variable a : asset_id_type.
Variables enable_black_swan for_new_limit_order mute_exceptions skip_matching_settle_orders : bool.
Variable call_min : price.
Variable call_end : option Z.

Lemma fill_call_and_limit_keeps l call limit c o pays receives lr f1 f2 l' :
  debt_ok (cl_state l) → rows (md_calls (cl_state l)) !! call = Some c →
  rows (limit_orders (md_db (cl_state l))) !! limit = Some o → 0 ≤ amount receives ≤ lo_for_sale o → amount receives ≤ debt c →
  fill_call_and_limit push a for_new_limit_order call_min l call limit (pays, receives, lr, f1, f2) = Ok l' →
  debt_keeps (cl_state l) (cl_state l').
Proof.
  intros Hok Hc Ho Hr1 Hr2 H1. unfold fill_call_and_limit in H1. cbv zeta in H1.
  set (s0 := if _ : bool then set_issue_453 _ _ else _) in H1.
  assert (debt_step (cl_state l) s0 (λ _, 0) (λ _, 0)) as C0
    by (unfold s0; destruct (_ && _); [by apply issue_453_step|by apply debt_step_refl]).
  assert (md_calls s0 = md_calls (cl_state l) ∧ md_db s0 = md_db (cl_state l)) as [K0 D0] by (unfold s0; by destruct (_ && _)).
  clearbody s0. apply bind_Ok in H1 as (en & [Ei _]%asset_ge_Ok & H1). apply bind_Ok in H1 as ([] & _ & H1).
  apply bind_Ok in H1 as (fee & (-> & _ & _)%asset_sub_Ok & H1). apply bind_Ok in H1 as (nx & _ & H1).
  apply bind_Ok in H1 as ([s1 cl] & H2 & H1).
  eapply (fill_call_order_step _ _ _ _ _ _ _ _ c) in H2 as (C1 & O1 & _ & _ & E3 & E4 & _); [|apply C0|by rewrite K0|lia].
  apply bind_Ok in H1 as ([[s2 le] uf] & H2 & H1).
  assert (debt_step s1 s2 (λ _, 0) (λ _, 0) ∧ md_db s2 = md_db s1) as [C2 D2].
  { destruct (cl_update_feed l); [|injection H2 as <- _ _; split; [apply debt_step_refl, C1|done]].
    apply bind_Ok in H2 as (s3 & H3 & H2). apply update_current_feed_step in H3 as (? & ? & _); [|apply C1].
    apply bind_Ok in H2 as (? & _ & H2). apply bind_Ok in H2 as (? & _ & H2). by injection H2 as <- _ _. }
  clear H2. apply bind_Ok in H1 as ([s3 rf] & H3 & [= <-]). simpl.
  assert (limit_orders (md_db s2) = limit_orders (md_db (cl_state l))) as El by (unfold other_orders in O1; congruence).
  eapply (fill_limit_step _ _ _ _ _ _ _ _ _ o) in H3 as (C3 & _); [|apply C2|by rewrite El|done].
  apply step_keeps. simpl in *. debt_chain.
  eapply debt_step_ext; [eassumption|..]; intros x; simpl; rewrite <- ?E3, ?E4, <- ?Ei; amt_solve.
Qed.

Lemma match_margin_call_keeps l call limit step :
  debt_ok (cl_state l) →
  match_margin_call push a enable_black_swan for_new_limit_order mute_exceptions call_min l call limit = Ok step →
  debt_keeps (cl_state l) (cl_state match step with step_return l | step_continue l | step_undercollateralized l => l end).
Proof.
  intros Hok H1. unfold match_margin_call, get_limit_order, get_call in H1. cbv zeta in H1.
  apply bind_Ok in H1 as (o & Ho%tbl_get_Ok & H1). apply bind_Ok in H1 as (c & Hc%tbl_get_Ok & H1).
  apply bind_Ok in H1 as (b & _ & H1). pose proof (do_calls _ Hok _ _ Hc) as Hcw.
  pose proof (ok_orders _ (do_books _ Hok) _ _ Ho) as Hoo.
  destruct (_ && _) in H1; [injection H1 as <-; by apply debt_keeps_refl|]. destruct (get_margin_call_pays_ratio b) as [n dn].
  apply bind_Ok in H1 as (cp & _ & H1). apply bind_Ok in H1 as (sw & _ & H1). destruct sw.
  { apply bind_Ok in H1 as ([] & _ & H1). apply bind_Ok in H1 as (s1 & H2 & [= <-]). simpl in *.
    by apply globally_settle_asset_keeps in H2 as [? _]. }
  apply bind_Ok in H1 as (x & Hx & H1).
  assert (asset_wf (Asset x (debt_type c)) ∧ x ≤ debt c) as [Hx1 Hx2].
  { destruct (_ <? _) in Hx; [by eapply max_cover_wf|]. destruct (_ <? _) in Hx; [by eapply max_cover_wf|].
    injection Hx as <-. destruct Hcw as [? _ _]. done. }
  apply bind_Ok in H1 as ([[[[[pays receives] lr] f1] f2]|] & Ham & H1); [|injection H1 as <-; by apply debt_keeps_refl].
  apply bind_Ok in H1 as (l1 & H2 & [= <-]).
  apply call_limit_amounts_bounds in Ham as [B1 B2]; [|by apply for_sale_wf|done|apply Hoo]. simpl in B1, B2.
  eapply (fill_call_and_limit_keeps (cl_with l (cl_state l) true)) in H2; [exact H2|done..|lia].
Qed.

Lemma call_settlements_keeps l l' r :
  debt_ok (cl_state l) → call_settlements a skip_matching_settle_orders call_min l = Ok (l', r) → debt_keeps (cl_state l) (cl_state l').
Proof.
  intros Hok H1. unfold call_settlements in H1. cbv zeta in H1.
  destruct (_ || _); [injection H1 as <- _; by apply debt_keeps_refl|].
  destruct (negb _); [injection H1 as <- _; by apply debt_keeps_refl|].
  apply bind_Ok in H1 as ([s1 m] & K%match_force_settlements_keeps & H1); [|done].
  destruct m; [|injection H1 as <- _; done]. apply bind_Ok in H1 as ([? ?] & _ & H1). by injection H1 as <- _.
Qed.

Lemma call_round_keeps l l' r :
  debt_ok (cl_state l) →
  call_round push a enable_black_swan for_new_limit_order mute_exceptions skip_matching_settle_orders call_min call_end l = Ok (l', r) →
  debt_keeps (cl_state l) (cl_state l').
Proof.
  intros Hok H1. unfold call_round in H1.
  assert (∀ s s1 l1, debt_keeps (cl_state l) s → check_settled_debt_order push a s = Ok s1 →
    cl_state l1 = s1 → debt_keeps (cl_state l) (cl_state l1)) as Hend.
  { intros s s1 l1 K H2 ->. apply check_settled_debt_order_id in H2 as ->; [done|apply K]. }
  destruct (bool_decide _) in H1.
  { apply bind_Ok in H1 as (s1 & H2 & H1). injection H1 as <- _. by eapply Hend; [apply debt_keeps_refl| |]. }
  apply bind_Ok in H1 as ([s1 some] & K1%check_for_blackswan_keeps & H1); [|done]. apply bind_Ok in H1 as (b & _ & H1).
  destruct (is_globally_settled b); [by injection H1 as <- _|]. cbv zeta in H1.
  destruct (_ && _) in H1; [apply bind_Ok in H1 as (s2 & H2 & H1); injection H1 as <- _; by eapply Hend|].
  apply bind_Ok in H1 as (le & _ & H1). destruct (if some then _ else _) as [call|] in H1; [|discriminate].
  apply bind_Ok in H1 as (c & _ & H1). apply bind_Ok in H1 as (pr & _ & H1).
  destruct pr; [apply bind_Ok in H1 as (s2 & H2 & H1); injection H1 as <- _; by eapply Hend|].
  apply bind_Ok in H1 as (st & Hst & H1).
  assert (debt_keeps s1 (cl_state match st with step_return l | step_continue l | step_undercollateralized l => l end)) as K2.
  { destruct (bool_decide _) in Hst; [injection Hst as <-; apply debt_keeps_refl, K1|].
    destruct (cl_limit_itr _) as [limit|] in Hst; [|discriminate]. apply match_margin_call_keeps in Hst; [done|apply K1]. }
  eapply debt_keeps_trans; [exact K1|]. destruct st; [by injection H1 as <- _..|].
  eapply debt_keeps_trans; [exact K2|]. apply call_settlements_keeps in H1; [done|apply K2].
Qed.
End calls.

Lemma check_call_orders_keeps a enable new mute skip s s' r :
  debt_ok s → check_call_orders push a enable new mute skip s = Ok (s', r) → debt_keeps s s'.
Proof.
  intros Hok H1. unfold check_call_orders in H1. cbv zeta in H1. apply bind_Ok in H1 as ([] & _ & H1).
  apply bind_Ok in H1 as (obj & _ & H1). pose proof (debt_keeps_refl s Hok) as K0.
  destruct (negb _) in H1; [by injection H1 as <- _|]. apply bind_Ok in H1 as (b & _ & H1).
  destruct (_ && _) in H1; [by injection H1 as <- _|]. apply bind_Ok in H1 as ([s1 sw] & H2 & H1).
  assert (debt_keeps s s1) as K1.
  { destruct (is_individual _); [by injection H2 as <- _|by eapply check_for_blackswan_keeps]. }
  clear H2. destruct sw; [by injection H1 as <- _|]. destruct (is_prediction_market b); [by injection H1 as <- _|].
  destruct (price_is_null _) in H1; [by injection H1 as <- _|]. do 2 apply bind_Ok in H1 as (? & _ & H1).
  destruct (_ && _) in H1; [by injection H1 as <- _|]. do 2 apply bind_Ok in H1 as (? & _ & H1).
  apply bind_Ok in H1 as ([l running] & Hw & H1). destruct running; [discriminate|]. injection H1 as <- _.
  apply (while_pow_ind _ (λ l, debt_keeps s (cl_state l)) (λ l, debt_keeps s (cl_state l))) in Hw; [done|..|done];
    intros l1 l2 K Hr; eapply debt_keeps_trans; [exact K| |exact K|]; eapply call_round_keeps; try done; apply K.
Qed.

(** ** A new limit order *)

Lemma limit_round_keeps taker stop st st' r :
  debt_ok st.2 → limit_round push taker stop st = Ok (st', r) → debt_keeps st.2 st'.2.
Proof.
  destruct st as [[itr fin] s]. simpl. intros Hok H1. destruct (_ || _); [injection H1 as <- _; by apply debt_keeps_refl|].
  destruct itr as [maker|]; [|discriminate]. apply bind_Ok in H1 as (m & Hm%tbl_get_Ok & H1).
  apply bind_Ok in H1 as ([s1 res] & H2 & H1). injection H1 as <- _. by eapply match_limit_limit_step in H2 as [C%step_keeps _].
Qed.

Lemma limit_loop_keeps taker itr stop fin s st :
  debt_ok s → limit_loop push taker itr stop fin s = Ok st → debt_keeps s st.2.
Proof.
  intros Hok H1. unfold limit_loop in H1. apply bind_Ok in H1 as ([st1 running] & Hw & H1). destruct running; [discriminate|].
  injection H1 as <-. apply (while_pow_ind _ (λ st, debt_keeps s st.2) (λ st, debt_keeps s st.2)) in Hw; [done|..|by apply debt_keeps_refl];
    intros l1 l2 K Hr; eapply debt_keeps_trans; [exact K| |exact K|]; eapply limit_round_keeps; try done; apply K.
Qed.

Definition taker_inv (s : mdatabase) (l : taker_loop) : Prop := debt_keeps s (tl_state l) ∧ price_wf (tl_prices l).1.

Lemma taker_call_round_keeps s taker a lo l l' r :
  taker_inv s l → taker_call_round push taker a lo l = Ok (l', r) → taker_inv s l'.
Proof.
  intros [K Hp] H1. unfold taker_call_round in H1. cbv zeta in H1. destruct (tl_finished l); [by injection H1 as <- _|].
  apply bind_Ok in H1 as (b & _ & H1). destruct (first_from _ _ _) as [[call c]|] in H1; [|by injection H1 as <- _].
  apply bind_Ok in H1 as (ab & _ & H1). destruct (_ || _) in H1; [by injection H1 as <- _|].
  apply bind_Ok in H1 as ([s1 res] & H2 & H1). apply match_limit_call_step, step_keeps in H2; [|apply K|done].
  pose proof (debt_keeps_trans _ _ _ K H2) as K2.
  assert (∀ x, (if tl_update l then
     b ← get_bitasset s1 a; '(p, q) ← margin_call_prices b;
     Ok (TakerLoop s1 false (price_flip p, price_flip q) (is_current_feed_price_capped b), true)
   else Ok (TakerLoop s1 false (tl_prices l) false, true)) = Ok (l', x) → taker_inv s l') as Hgo.
  { intros x Hx. destruct (tl_update l); [|by injection Hx as <- _]. apply bind_Ok in Hx as (b1 & Hb1%find_object_Ok & Hx).
    apply bind_Ok in Hx as ([p q] & Hpq & Hx). injection Hx as <- _. split; [done|]. simpl. apply price_flip_wf.
    eapply margin_call_prices_wf in Hpq; [apply Hpq|]. by eapply (do_bitassets _ (dk_ok _ _ K2)). }
  destruct res; first [by eapply Hgo|by injection H1 as <- _].
Qed.

Lemma match_with_calls_keeps taker a recv prices itr s itr' fin s' upd :
  debt_ok s → price_wf prices.1 → match_with_calls push taker a recv prices itr s = Ok (itr', fin, s', upd) → debt_keeps s s'.
Proof.
  intros Hok Hp H1. unfold match_with_calls in H1.
  apply bind_Ok in H1 as ([[itr1 f1] s1] & K1%limit_loop_keeps & H1); [|done]. simpl in K1.
  destruct f1; [by injection H1 as <- <- <- <-|]. apply bind_Ok in H1 as (lo & _ & H1). apply bind_Ok in H1 as (b & _ & H1).
  cbv zeta in H1. apply bind_Ok in H1 as ([l running] & Hw & H1). destruct running; [discriminate|].
  apply bind_Ok in H1 as (b' & _ & H1). injection H1 as _ _ <- _.
  apply (while_pow_ind _ (taker_inv s) (taker_inv s)) in Hw; [apply Hw|..|done];
    intros l1 l2 K Hr; by eapply taker_call_round_keeps.
Qed.

Lemma call_prices_wf sell recv p s prices :
  debt_ok s → HARDFORK_CORE_1270_TIME < maint_time s → call_prices_for sell recv p s = Ok (Some prices) → price_wf prices.1.
Proof.
  intros Hok Ht H1. unfold call_prices_for in H1. apply bind_Ok in H1 as (obj & _ & H1). destruct (negb _) in H1; [discriminate|].
  apply bind_Ok in H1 as (b & Hb%find_object_Ok & H1). destruct (_ && _) in H1; [|discriminate].
  apply bind_Ok in H1 as ([q1 q2] & Hq & H1). destruct (Z.leb_spec (maint_time s) HARDFORK_CORE_1270_TIME); [lia|].
  eapply margin_call_prices_wf in Hq as [Hq _]; [|by eapply (do_bitassets _ Hok)].
  destruct (negb _) in H1; [|discriminate]. injection H1 as <-. by apply price_flip_wf.
Qed.

Lemma order_is_gone_step id s d gone :
  debt_ok s → order_is_gone id (md_db s) = Ok (d, gone) → debt_keeps s (set_mdb d s).
Proof.
  intros Hok H1. pose proof H1 as Hf%(frozen_order_is_gone (frozen (md_db s))); [|done].
  apply order_is_gone_keeps in H1 as (_ & M & _); [|apply Hok]. by apply step_keeps, db_step.
Qed.

Lemma apply_order_debt_keeps id s s' gone :
  debt_ok s → HARDFORK_CORE_1270_TIME < maint_time s → apply_order push id s = Ok (s', gone) → debt_keeps s s'.
Proof.
  intros Hok Ht H1. unfold apply_order in H1. cbv zeta in H1. apply bind_Ok in H1 as (o & _ & H1).
  pose proof (debt_keeps_refl s Hok) as K0. destruct (negb _) in H1; [by injection H1 as <- _|].
  apply bind_Ok in H1 as (top & _ & H1). apply bind_Ok in H1 as (prices & Hp & H1).
  apply bind_Ok in H1 as ([[[itr fin] s1] upd] & H2 & H1).
  assert (debt_keeps s s1) as K1.
  { destruct prices as [prices|]; [|by injection H2 as _ _ <- _]. eapply match_with_calls_keeps; [done| |done]. by eapply call_prices_wf. }
  clear H2. apply bind_Ok in H1 as ([[itr2 fin2] s2] & K2%limit_loop_keeps & H1); [|apply K1]. simpl in K2.
  apply bind_Ok in H1 as ([d g] & K3%order_is_gone_step & H1); [|apply K2].
  apply bind_Ok in H1 as (s3 & H2 & H1). injection H1 as <- _.
  assert (debt_keeps s (set_mdb d s2)) as K by eauto using debt_keeps_trans.
  destruct (_ && _) in H2; [|by injection H2 as <-]. apply bind_Ok in H2 as ([s4 b4] & H4 & [= <-]).
  eapply debt_keeps_trans; [exact K|]. eapply check_call_orders_keeps; [apply K|done].
Qed.

(** ** A new settlement order *)

Definition settler_inv (s : mdatabase) (l : settler_loop) : Prop :=
  debt_keeps s (sl_state l) ∧ price_wf (sl_prices l).1 ∧ price_wf (sl_prices l).2.

Lemma settler_round_keeps s settle a lo l l' r :
  settler_inv s l → settler_round push settle a lo l = Ok (l', r) → settler_inv s l'.
Proof.
  intros (K & Hp & Hq) H1. unfold settler_round in H1. cbv zeta in H1. apply bind_Ok in H1 as (b & _ & H1).
  destruct (first_from _ _ _) as [[call c]|] eqn:Ef; [|by injection H1 as <- _]. apply first_from_elem in Ef.
  apply bind_Ok in H1 as (pr & _ & H1). destruct (_ || _) in H1; [by injection H1 as <- _|].
  apply bind_Ok in H1 as (x & Hx & H1). eapply max_cover_wf in Hx as [Hx _]; [|exact (do_calls _ (dk_ok _ _ K) _ _ Ef)].
  apply bind_Ok in H1 as ([s1 cov] & H2 & H1). apply match_settle_call_step, step_keeps in H2; [|apply K|done..].
  pose proof (debt_keeps_trans _ _ _ K H2) as K2. destruct (sl_update l); [|by injection H1 as <- _].
  apply bind_Ok in H1 as ([s2 ?] & H3%check_call_orders_keeps & H1); [|apply K2].
  pose proof (debt_keeps_trans _ _ _ K2 H3) as K3. destruct (negb _) in H1; [by injection H1 as <- _|].
  apply bind_Ok in H1 as (b1 & Hb1%find_object_Ok & H1). apply bind_Ok in H1 as ([p q] & Hpq & H1). injection H1 as <- _.
  eapply margin_call_prices_wf in Hpq as [? ?]; [done|]. by eapply (do_bitassets _ (dk_ok _ _ K3)).
Qed.

Lemma apply_force_settlement_debt_keeps settle a s s' :
  debt_ok s → apply_force_settlement push settle a s = Ok s' → debt_keeps s s'.
Proof.
  intros Hok H1. unfold apply_force_settlement in H1. apply bind_Ok in H1 as ([] & _ & H1). apply bind_Ok in H1 as (o & _ & H1).
  apply bind_Ok in H1 as (b & Hb%find_object_Ok & H1). do 4 apply bind_Ok in H1 as ([] & _ & H1).
  apply bind_Ok in H1 as ([p q] & Hpq & H1). apply bind_Ok in H1 as (lo & _ & H1).
  apply bind_Ok in H1 as ([l running] & Hw & H1). destruct running; [discriminate|]. injection H1 as <-.
  eapply margin_call_prices_wf in Hpq as [? ?]; [|by eapply (do_bitassets _ Hok)].
  apply (while_pow_ind _ (settler_inv s) (settler_inv s)) in Hw; [apply Hw|..|by split_and!; [apply debt_keeps_refl|..]];
    intros l1 l2 K Hr; by eapply settler_round_keeps.
Qed.
End margin_calls.

(** ** Markets without debt positions *)

(** Two computations that fail alike or return related values. *)
Definition alike {A B} (R : A → B → Prop) (r : result A) (q : result B) : Prop :=
  match r, q with Ok x, Ok y => R x y | Err e, Err e' => e = e' | _, _ => False end.

Lemma alike_bind {A B C D} (R : A → B → Prop) (Q : C → D → Prop) r q f g :
  alike R r q → (∀ x y, R x y → alike Q (f x) (g y)) → alike Q (r ≫= f) (q ≫= g).
Proof. destruct r, q; simpl; intros Hr Hf; try done. by apply Hf. Qed.

Lemma alike_refl {A} (r : result A) : alike eq r r.
Proof. by destruct r. Qed.

Lemma alike_bind_eq {A C D} (Q : C → D → Prop) (r : result A) f g :
  (∀ x, alike Q (f x) (g x)) → alike Q (r ≫= f) (r ≫= g).
Proof. intros Hf. eapply alike_bind; [apply alike_refl|]. by intros x ? <-. Qed.

Lemma alike_if {A B} (R : A → B → Prop) (b : bool) r1 r2 q1 q2 :
  alike R r1 q1 → alike R r2 q2 → alike R (if b then r1 else r2) (if b then q1 else q2).
Proof. by destruct b. Qed.

(** A loop simulates another if its rounds do. *)
Definition rounds {A B} (R Q : A → B → Prop) (x : A * bool) (y : B * bool) : Prop :=
  x.2 = y.2 ∧ if x.2 then R x.1 y.1 else Q x.1 y.1.

Lemma while_pow_alike {A B} (R Q : A → B → Prop) f g k x y :
  (∀ x y, R x y → alike (rounds R Q) (f x) (g y)) → R x y → alike (rounds R Q) (while_pow f k x) (while_pow g k y).
Proof.
  intros Hfg. revert x y. induction k as [|k IH]; intros x y Hxy; [by apply Hfg|].
  cbn [while_pow]. eapply alike_bind; [by apply IH|]. intros [x' c] [y' c'] [E Hr]. simpl in E, Hr. subst c'.
  destruct c; [by apply IH|]. by split.
Qed.

Section plain_markets.
Context `{FeeSchedule} `{NthElement price_feed_with_icr}.
Variable push : virtual_operation → database → result (database * Z).

(** The database of the state [s0] is [d]. *)
Definition only_db (s0 s : mdatabase) (d : database) : Prop := s = set_mdb d s0.

Lemma match_limit_limit_plain s0 taker maker p s d :
  md_settled_debt s0 = ∅ → only_db s0 s d →
  alike (λ x y, only_db s0 x.1 y.1 ∧ x.2 = y.2) (match_limit_limit push taker maker p s) (match_orders push taker maker p d).
Proof.
  intros Hs ->. unfold match_limit_limit, match_orders. simpl. do 2 (apply alike_bind_eq; intros ?).
  do 3 (apply alike_bind_eq; intros _). unfold is_settled_debt. simpl. rewrite Hs.
  rewrite !bool_decide_eq_false_2 by set_solver. simpl.
  destruct (match_limit_normal_limit _ _ _ _ _) as [[d1 r]|]; done.
Qed.

Lemma limit_round_plain s0 taker stop s d itr :
  md_settled_debt s0 = ∅ → only_db s0 s d →
  alike (rounds (λ x y, x.1 = (y.1, false) ∧ only_db s0 x.2 y.2) (λ x y, only_db s0 x.2 y.2))
    (limit_round push taker stop (itr, false, s)) (match_round push taker stop (itr, d)).
Proof.
  intros Hs Hd. unfold limit_round, match_round. simpl. case_bool_decide; [done|]. destruct itr as [maker|]; [|done].
  assert (md_db s = d) as -> by (by rewrite Hd). apply alike_bind_eq. intros m.
  eapply alike_bind; [by apply match_limit_limit_plain|]. intros [s1 r] [d1 r'] [Hx E]. simpl in Hx, E. subst r'.
  destruct r; by split.
Qed.

Lemma limit_loop_plain s0 taker itr stop s d :
  md_settled_debt s0 = ∅ → only_db s0 s d →
  alike (λ x y, only_db s0 x.2 y) (limit_loop push taker itr stop false s) (match_loop push taker itr stop d).
Proof.
  intros Hs Hd. unfold limit_loop, match_loop. eapply alike_bind.
  - apply (while_pow_alike (λ x y, x.1 = (y.1, false) ∧ only_db s0 x.2 y.2) (λ x y, only_db s0 x.2 y.2)); [|by split]. intros [[i f] s1] [i' d1] [E Hx]. simpl in E, Hx. injection E as -> ->. by apply limit_round_plain.
  - intros [[[i f] s1] c] [[i' d1] c'] [E Hx]. simpl in E, Hx. subst c'. destruct c; [done|]. done.
Qed.

Lemma no_call_prices sell recv p s obj :
  assets (md_db s) !! sell = Some obj → is_market_issued obj = false → call_prices_for sell recv p s = Ok None.
Proof. intros Ha Hm. unfold call_prices_for, get_asset, find_object. rewrite Ha. simpl. by rewrite Hm. Qed.

Lemma bind_Ok_eq {A B} (x : A) (f : A → result B) : Ok x ≫= f = f x.
Proof. done. Qed.

Lemma only_db_refl s : only_db s s (md_db s).
Proof. by destruct s. Qed.

Lemma apply_order_alike id s o obj :
  md_settled_debt s = ∅ → rows (limit_orders (md_db s)) !! id = Some o →
  assets (md_db s) !! sell_asset_id o = Some obj → is_market_issued obj = false →
  alike (λ x y, x = (set_mdb y.1 s, y.2)) (apply_order push id s) (LimitOrder.apply_order push id (md_db s)).
Proof.
  intros Hs Ho Ha Hm. unfold apply_order, LimitOrder.apply_order, get_limit_order. rewrite (proj2 (tbl_get_Ok _ _ _) Ho), !bind_Ok_eq.
  destruct (match prev_order (md_db s) id with Some _ => _ | None => _ end); cbn [negb]; [|by destruct s].
  apply alike_bind_eq. intros top. rewrite (no_call_prices _ _ _ _ _ Ha Hm), !bind_Ok_eq.
  eapply alike_bind; [apply (limit_loop_plain s _ _ _ _ _ Hs (only_db_refl s))|].
  intros [[i f] s1] d1 Hd. cbn [snd] in Hd. unfold only_db in Hd. subst s1. cbn [md_db set_mdb].
  destruct (order_is_gone id d1) as [[d2 g]|e]; [|done]. rewrite bind_Ok_eq, andb_false_r, bind_Ok_eq. done.
Qed.

(** In a market whose sold asset is not issued by the market and without settled debt, a new order is matched as
    LimitOrder.v does, and nothing but the database changes. *)
Lemma apply_order_plain id s o obj :
  md_settled_debt s = ∅ → rows (limit_orders (md_db s)) !! id = Some o →
  assets (md_db s) !! sell_asset_id o = Some obj → is_market_issued obj = false →
  apply_order push id s = ('(d, gone) ← LimitOrder.apply_order push id (md_db s); Ok (set_mdb d s, gone)).
Proof.
  intros Hs Ho Ha Hm. pose proof (apply_order_alike id s o obj Hs Ho Ha Hm) as HA.
  generalize dependent (LimitOrder.apply_order push id (md_db s)). generalize (apply_order push id s).
  intros [x|e] [[d g]|e'] HA; simpl in *; by subst.
Qed.
End plain_markets.
