(* ===== verification/DebtOpTheorems.v ===== *)
(** * The operations on debt keep the books

    [DebtLaws] is what the evaluation scheme needs from an evaluator of the debt markets so that
    the whole evaluation, fees included, keeps the books; every evaluator of DebtOps.v and SettleOps.v fulfils it. *)
From stdpp Require Import sorting.
From S2P Require Import Prelude MachineInt Hardfork Asset PriceRatio CallOrder CallOrderTheorems PriceFeed ChainState Frames Ledger CreditBooks Balance Fees Evaluator LimitOrder MarketBooks MarketMatching OrderBook DebtState DebtMarket MarginCalls DebtOps SettleOps DebtBooks DebtMatching BlackSwan MarginCallTheorems.

#[local] Opaque while_pow.

(** ** The scheme *)

(** The state after the fee was moved: only the database differs, by the fee. *)
Definition after_fee (s0 s : mdatabase) : Prop := ∃ d, s = set_mdb d s0 ∧ fee_frame (md_db s0) d.

Class DebtLaws (Op : Type) `{DebtEvaluator Op} := {
  de_op_ok : Op → mdatabase → Prop;
  de_apply_keeps op s0 ctx s s' r :
    de_op_ok op s0 → de_validate op = Ok () → de_evaluate op s0 = Ok ctx → after_fee s0 s → debt_ok s →
    de_apply op ctx s = Ok (s', r) → debt_keeps s s' }.

Lemma frozen_convert_fee s a b d : frozen d = s → freezes s (convert_fee a b d).
Proof. keeps_def convert_fee. Qed.

Section scheme.
Context `{DebtLaws Op}.
Variable required_fee : Op → share_type.

(** Evaluating an operation, fees included, keeps the books. *)
Lemma start_debt_evaluate_keeps skip op s s' r :
  debt_ok s → de_op_ok op s → de_validate op = Ok () → start_debt_evaluate required_fee skip op s = Ok (s', r) → debt_keeps s s'.
Proof.
  intros Hok Hop Hv Hx. unfold start_debt_evaluate, on_db in Hx.
  apply bind_Ok in Hx as (core & [_ Hcore]%prepare_fee_Ok & Hx). apply bind_Ok in Hx as ([] & _ & Hx).
  apply bind_Ok in Hx as (ctx & Hctx & Hx). apply bind_Ok in Hx as (s1 & H1 & Hx). apply bind_Ok in H1 as (d1 & H1 & [= <-]).
  apply bind_Ok in Hx as (s2 & H2 & Hx). apply bind_Ok in H2 as (d2 & H2 & [= <-]). simpl in H2.
  destruct (fee_moves _ _ _ _ _ _ Hcore H1 H2) as [M F].
  assert (frozen d2 = frozen (md_db s)) as Hf
    by (apply (frozen_convert_fee (frozen (md_db s))) in H1; [|done]; by apply (frozen_pay_fee (frozen (md_db s))) in H2).
  pose proof (db_step s d2 _ Hok M Hf) as C1. change (set_mdb d2 (set_mdb d1 s)) with (set_mdb d2 s) in Hx.
  apply bind_Ok in Hx as ([s3 r3] & H3 & Hx).
  apply (de_apply_keeps _ _ _ _ _ _ Hop Hv Hctx) in H3; [|by exists d2|apply C1].
  apply bind_Ok in Hx as (neg & (-> & _)%asset_neg_Ok & Hx). apply bind_Ok in Hx as (s4 & H4 & [= <- <-]).
  apply adjust_step in H4 as [C4 _]; [|apply H3]. destruct H3 as [_ B3 D3 F3 G3], C1 as [_ B1 D1 F1 G1], C4 as [O4 B4 D4 F4 G4].
  split; [done| | |congruence|auto].
  - intros x. rewrite B4, B3, B1. simpl. amt_solve.
  - intros a. destruct (D3 a) as [E|]; [left; rewrite D4, E, D1; lia|right; auto].
Qed.
End scheme.

(** ** Moving debt and collateral *)

(** Increasing a supply takes from what is held, and from what is owed, beyond it. *)
Lemma increase_supply_step a x s s' :
  debt_ok s →
  on_db (modify_dynamic_data a (λ o, v ← share_add (current_supply o) x; Ok (dd_with_supply o v))) s = Ok s' →
  debt_step s s' (amt a (- x)) (amt a (- x)) ∧ same_markets s s'.
Proof.
  intros Hok H1. pose proof (on_db_modify _ _ _ _ H1) as Hs. split; [|done].
  apply dynamic_data_step in H1 as (o & o' & Ho & Hm & C); [|done]. inv_ok. inv_share. subst.
  eapply debt_step_ext; [exact C| |]; intros y; unfold dd_delta, dd_held; simpl;
    [destruct (md_bitassets s !! a)|]; amt_solve.
Qed.

Lemma move_position_funds_step op s s' :
  debt_ok s → move_position_funds op s = Ok s' →
  debt_step s s' (amt (asset_id (cu_delta_collateral op)) (- amount (cu_delta_collateral op)))
    (amt (asset_id (cu_delta_debt op)) (- amount (cu_delta_debt op))) ∧ same_markets s s'.
Proof.
  intros Hok H1. unfold move_position_funds in H1. cbv zeta in H1. apply bind_Ok in H1 as (s1 & H2 & H1).
  assert (debt_step s s1 (λ _, 0) (amt (asset_id (cu_delta_debt op)) (- amount (cu_delta_debt op))) ∧ same_markets s s1) as [C1 M1].
  { destruct (Z.eqb_spec (amount (cu_delta_debt op)) 0) as [E|_]; simpl in H2.
    - injection H2 as <-. split; [|done]. rewrite E. eapply debt_step_ext; [by apply debt_step_refl|done|intros; amt_solve].
    - apply bind_Ok in H2 as (s2 & [C1 M1]%adjust_step & [C2 M2]%increase_supply_step); [|apply C1|done].
      split; [debt_done|by eapply same_markets_trans]. }
  clear H2. destruct (Z.eqb_spec (amount (cu_delta_collateral op)) 0) as [E|_]; simpl in H1.
  - injection H1 as <-. split; [|done]. rewrite E. eapply debt_step_ext; [exact C1|intros; amt_solve|done].
  - apply bind_Ok in H1 as (neg & (-> & _)%asset_neg_Ok & H1). apply bind_Ok in H1 as (s2 & [C2 M2]%adjust_step & H1); [|apply C1].
    assert (debt_step s2 s' (λ _, 0) (λ _, 0) ∧ same_markets s2 s') as [C3 M3].
    { destruct (_ =? core_asset_id); [by apply (core_in_orders_step false) in H1; [|apply C2]|].
      injection H1 as <-. split; [apply debt_step_refl, C2|done]. }
    split; [clear H1; debt_done|eauto using same_markets_trans].
Qed.

Lemma least_such_elem {A} before (p : Z * A → bool) m x : least_such before p m = Some x → m !! x.1 = Some x.2 ∧ p x = true.
Proof.
  intros H1. assert (x ∈ map_to_list m ∧ p x = true) as [Hx Hp].
  2:{ split; [|done]. apply elem_of_map_to_list. by rewrite <- surjective_pairing. }
  unfold least_such in H1. revert H1. induction (map_to_list m) as [|y l IH]; simpl; [done|].
  destruct (p y) eqn:Ep; [|intros [? ?]%IH; split; [by right|done]].
  destruct (foldr _ None l) as [z|]; [destruct (before y z)|]; intros [= <-]; try (split; [by left|done]).
  destruct IH as [? ?]; [done|]. split; [by right|done].
Qed.

Lemma least_such_None {A} before (p : Z * A → bool) m : least_such before p m = None → ∀ x, m !! x.1 = Some x.2 → p x = false.
Proof.
  intros H1 x Hx. assert (x ∈ map_to_list m) as Hin by (destruct x; by apply elem_of_map_to_list).
  clear Hx. unfold least_such in H1. revert H1 Hin. induction (map_to_list m) as [|y l IH]; simpl; [by intros _ ?%not_elem_of_nil|].
  destruct (p y) eqn:Ep; [destruct (foldr _ None l) as [z|]; [destruct (before y z)|]; done|].
  intros H1 [->|Hin]%elem_of_cons; [done|by apply IH].
Qed.

(** ** call_order_update *)

Definition call_update_op_ok (op : call_order_update_operation) : Prop :=
  is_share (amount (cu_delta_debt op)) ∧ is_share (amount (cu_delta_collateral op)).

(** What [do_evaluate] has found out about the position, in terms of the state after the fee. *)
Record position_found (op : call_order_update_operation) (ctx : call_update_ctx) (s : mdatabase) : Prop := {
  pf_bitasset : ∃ b, md_bitassets s !! asset_id (cu_delta_debt op) = Some b ∧ backing_asset b = asset_id (cu_delta_collateral op);
  pf_call : match cx_call ctx with
    | Some (id, k, d) => ∃ c, rows (md_calls s) !! id = Some c ∧ debt_type c = asset_id (cu_delta_debt op) ∧
        k = collateral c + amount (cu_delta_collateral op) ∧ d = debt c + amount (cu_delta_debt op) ∧
        is_share k ∧ is_share d ∧ if cx_closing ctx then k = 0 ∧ d = 0 else 0 < k ∧ 0 < d
    | None => cx_closing ctx = false ∧ 0 < amount (cu_delta_collateral op) ∧ 0 < amount (cu_delta_debt op)
    end }.

Lemma position_update_found op s ctx b :
  md_bitassets s !! asset_id (cu_delta_debt op) = Some b → backing_asset b = asset_id (cu_delta_collateral op) →
  position_update op s = Ok ctx → position_found op ctx s.
Proof.
  intros Hb Eb H1. split; [eauto|]. unfold position_update in H1.
  destruct (find_position _ _ _) as [[id c]|] eqn:Ef.
  - apply least_such_elem in Ef as [Hc Hp]. simpl in Hc, Hp. propify.
    apply bind_Ok in H1 as (k & [-> Hk]%share_add_Ok & H1). apply bind_Ok in H1 as (d & [-> Hd]%share_add_Ok & H1).
    destruct (Z.eqb_spec (debt c + amount (cu_delta_debt op)) 0); apply bind_Ok in H1 as ([] & Ha%FC_ASSERT_Ok & [= <-]); simpl; propify;
      exists c; split_and!; try done; lia.
  - do 2 (apply bind_Ok in H1 as ([] & ?%FC_ASSERT_Ok & H1)). injection H1 as <-. simpl. propify. done.
Qed.

(** Only the database changes before the position is written. *)
Lemma position_found_same op ctx s s' :
  md_calls s' = md_calls s → md_bitassets s' = md_bitassets s → position_found op ctx s → position_found op ctx s'.
Proof. intros E1 E2 [Hb Hc]. split; by rewrite ?E1, ?E2. Qed.

Lemma evaluate_position_found op s ctx :
  call_order_update_do_evaluate op s = Ok ctx → position_found op ctx s.
Proof.
  intros H1. unfold call_order_update_do_evaluate in H1. cbv zeta in H1. apply bind_Ok in H1 as (obj & _ & H1).
  do 2 apply bind_Ok in H1 as ([] & _ & H1). apply bind_Ok in H1 as (dyn & _ & H1). apply bind_Ok in H1 as ([] & _ & H1).
  apply bind_Ok in H1 as (v & _ & H1). apply bind_Ok in H1 as ([] & _ & H1). apply bind_Ok in H1 as (b & Hb%find_object_Ok & H1).
  apply bind_Ok in H1 as ([] & _ & H1). apply bind_Ok in H1 as ([] & Eb%FC_ASSERT_Ok & H1). propify.
  apply bind_Ok in H1 as (cx & Hx & H1). apply bind_Ok in H1 as ([] & _ & H1). apply bind_Ok in H1 as ([] & _ & [= <-]).
  by eapply position_update_found.
Qed.

Section call_update.
Context `{FeeSchedule} `{NthElement price_feed_with_icr}.
Variable push : virtual_operation → database → result (database * Z).

Lemma close_debt_position_keeps a id c s s' :
  debt_ok s → rows (md_calls s) !! id = Some c → close_debt_position push a id s = Ok s' →
  ∃ s1, debt_step s s1 (amt (collateral_type c) (- collateral c)) (amt (debt_type c) (- debt c)) ∧ debt_keeps s1 s'.
Proof.
  intros Hok Hc Hx. unfold close_debt_position in Hx. apply bind_Ok in Hx as (t & (w & Hw & ->)%tbl_remove_Ok & Hx).
  pose proof (call_remove_step s id c Hok Hc) as C1. set (s1 := set_calls _ s) in *. exists s1. split; [done|]. clearbody s1.
  apply bind_Ok in Hx as (b & _ & Hx). destruct (is_no_settlement b); [|injection Hx as <-; apply debt_keeps_refl, C1].
  apply bind_Ok in Hx as (s2 & H2 & Hx). apply update_current_feed_step in H2 as [C2%step_keeps _]; [|apply C1].
  apply bind_Ok in Hx as (b2 & _ & Hx). eapply debt_keeps_trans; [done|].
  destruct (_ && _); [|injection Hx as <-; apply debt_keeps_refl, C2].
  apply bind_Ok in Hx as ([s3 r3] & K%check_call_orders_keeps & [= <-]); [done|apply C2].
Qed.

Lemma write_position_step op ctx s s' id old :
  debt_ok s → call_update_op_ok op → position_found op ctx s → cx_closing ctx = false →
  write_position op ctx s = Ok (s', id, old) →
  debt_step s s' (amt (asset_id (cu_delta_collateral op)) (amount (cu_delta_collateral op)))
    (amt (asset_id (cu_delta_debt op)) (amount (cu_delta_debt op))).
Proof.
  intros Hok [Td Tc] [(b & Hb & Eb) Hf] Hcl Hx. unfold write_position in Hx. cbv zeta in Hx. apply bind_Ok in Hx as (b1 & _ & Hx).
  destruct (cx_call ctx) as [[[i k] d]|].
  - rewrite Hcl in Hf. destruct Hf as (c & Hc & Ed & Ek & Ed' & Hk & Hd & Pk & Pd). unfold get_call in Hx.
    apply bind_Ok in Hx as (c1 & Hc1%tbl_get_Ok & Hx). rewrite Hc in Hc1. injection Hc1 as <-.
    apply bind_Ok in Hx as (oc & _ & Hx). apply bind_Ok in Hx as (p & Hp & Hx).
    apply bind_Ok in Hx as (t & (w & w' & Hw & [= <-] & ->)%tbl_modify_Ok & [= <- _ _]). rewrite Hc in Hw. injection Hw as <-.
    assert (asset_id (quote p) = debt_type c ∧ asset_id (base p) = collateral_type c) as [E1 E2].
    { destruct (maint_time s <=? _); [by apply call_price_types in Hp as [? ?]|by injection Hp as <-]. }
    destruct (do_calls _ Hok _ _ Hc) as [_ _ (b2 & Hb2 & Eb2)]. rewrite Ed, Hb in Hb2. injection Hb2 as <-.
    eapply debt_step_ext; [apply (call_step s i c); try done; simpl; lia|..]; intros x; simpl; [rewrite <- Eb2, Eb|rewrite Ed]; amt_solve.
  - destruct Hf as (_ & Pc & Pd). apply bind_Ok in Hx as (p & Hp & Hx). apply bind_Ok in Hx as ([i t] & Ht & [= <- _ _]).
    assert (asset_id (quote p) = asset_id (cu_delta_debt op) ∧ asset_id (base p) = asset_id (cu_delta_collateral op)) as [E1 E2].
    { destruct (maint_time s <=? _); [by apply call_price_types in Hp as [? ?]|by injection Hp as <-]. }
    eapply call_create_step in Ht; [|done|].
    + unfold debt_type, collateral_type in Ht. simpl in Ht. by rewrite E1, E2 in Ht.
    + split; simpl; [split; [done|lia]..|]. exists b. unfold debt_type, collateral_type. simpl. by rewrite E1, E2.
Qed.

Lemma call_order_update_keeps op s0 ctx s s' r :
  call_update_op_ok op → call_order_update_do_evaluate op s0 = Ok ctx → after_fee s0 s → debt_ok s →
  call_order_update_do_apply push op ctx s = Ok (s', r) → debt_keeps s s'.
Proof.
  intros Hop Hev (d & -> & _) Hok Hx. apply evaluate_position_found in Hev as Hf.
  apply (position_found_same _ _ _ (set_mdb d s0)) in Hf; [|done..]. clear Hev. set (s := set_mdb d s0) in *. clearbody s.
  unfold call_order_update_do_apply in Hx. cbv zeta in Hx.
  apply bind_Ok in Hx as (s1 & [C1 (_ & K1 & B1)]%move_position_funds_step & Hx); [|done].
  apply (position_found_same _ _ _ s1) in Hf; [|done..].
  destruct (cx_closing ctx) eqn:Hcl.
  - destruct Hf as [(b & Hb & Eb) Hf]. destruct (cx_call ctx) as [[[id k] e]|]; [|destruct Hf; congruence].
    rewrite Hcl in Hf. destruct Hf as (c & Hc & Ed & Ek & Ee & _ & _ & Zk & Ze).
    apply bind_Ok in Hx as (s2 & H2 & [= <- _]). eapply close_debt_position_keeps in H2 as (s3 & C2 & K2); [|apply C1|done].
    eapply debt_keeps_trans; [|exact K2]. apply step_keeps.
    destruct (do_calls _ (ds_ok _ _ _ _ C1) _ _ Hc) as [_ _ (b2 & Hb2 & Eb2)]. rewrite Ed, Hb in Hb2. injection Hb2 as <-.
    clear - C1 C2 Ed Eb Eb2 Ek Ee Zk Ze. debt_chain.
    eapply debt_step_ext; [eassumption|..]; intros x; simpl; [rewrite <- Eb2, Eb|rewrite Ed]; amt_solve.
  - destruct (cx_call ctx) as [[[? ?] ?]|]; cbv beta iota in Hx.
    all: apply bind_Ok in Hx as ([[s2 id] old] & H2%write_position_step & Hx); [|apply C1|done..].
    all: assert (debt_keeps s s2) as K2 by (apply step_keeps; clear - C1 H2; debt_done).
    all: apply bind_Ok in Hx as (b & _ & Hx); destruct (is_prediction_market b); [by injection Hx as <- _|].
    all: apply bind_Ok in Hx as (c & _ & Hx); apply bind_Ok in Hx as (cc & _ & Hx); apply bind_Ok in Hx as ([] & _ & Hx).
    all: apply bind_Ok in Hx as (s3 & H3 & Hx).
    all: assert (debt_keeps s s3) as K3 by
      (destruct (is_no_settlement b); [|by injection H3 as <-];
       apply update_current_feed_step in H3 as [C3%step_keeps _]; [by eapply debt_keeps_trans|apply K2]).
    all: apply bind_Ok in Hx as ([s4 called] & K4%check_call_orders_keeps & Hx); [|apply K3].
    all: apply bind_Ok in Hx as ([] & _ & [= <- _]); by eapply debt_keeps_trans.
Qed.
End call_update.

(** ** bid_collateral *)

Lemma bid_remove_step id t x s :
  debt_ok s → rows (md_bids s) !! id = Some x → tbl_remove id (md_bids s) = Ok t →
  debt_step s (set_bids t s) (amt (asset_id (get_additional_collateral x)) (- amount (get_additional_collateral x))) (λ _, 0).
Proof.
  intros Hok Hx Ht. apply bids_step; [done|by eapply rows_ok_remove in Ht; [|apply Hok]|].
  intros y. rewrite (tbl_held_remove _ _ _ x y Hx Ht). unfold held, collateral_bid_holding. amt_solve.
Qed.

Lemma bid_create_step x id t s :
  debt_ok s → bid_ok (md_bitassets s) x → tbl_create x (md_bids s) = Ok (id, t) →
  debt_step s (set_bids t s) (amt (asset_id (get_additional_collateral x)) (amount (get_additional_collateral x))) (λ _, 0).
Proof.
  intros Hok Hx Ht. apply bids_step; [done|exact (rows_ok_create _ _ _ _ _ Ht Hx (do_bids _ Hok))|].
  intros y. by rewrite (tbl_held_create _ _ _ _ y Ht).
Qed.

Lemma cancel_bid_step id s s' :
  debt_ok s → cancel_bid id s = Ok s' →
  debt_step s s' (λ _, 0) (λ _, 0) ∧ md_bitassets s' = md_bitassets s ∧ md_calls s' = md_calls s ∧
  md_bids s' = Table (next_id (md_bids s)) (delete id (rows (md_bids s))).
Proof.
  intros Hok H1. unfold cancel_bid in H1. apply bind_Ok in H1 as (x & Hx%tbl_get_Ok & H1).
  apply bind_Ok in H1 as (s1 & [C1 (O1 & K1 & B1)]%adjust_step & H1); [|done]. apply bind_Ok in H1 as (t & Ht & [= <-]).
  assert (md_bids s1 = md_bids s) as Eb by (unfold other_orders in O1; congruence).
  apply (bid_remove_step _ _ x) in Ht as C2; [|apply C1|by rewrite Eb].
  apply tbl_remove_Ok in Ht as (w & _ & ->). rewrite Eb in *. split_and!; [debt_done|done..].
Qed.

Definition bid_op_ok (op : bid_collateral_operation) : Prop :=
  is_share (amount (bc_additional_collateral op)) ∧ is_share (amount (bc_debt_covered op)).

Lemma bid_collateral_keeps op s0 ctx s s' r :
  bid_op_ok op → bid_collateral_validate op = Ok () → bid_collateral_do_evaluate op s0 = Ok ctx → after_fee s0 s → debt_ok s →
  bid_collateral_do_apply op ctx s = Ok (s', r) → debt_keeps s s'.
Proof.
  intros [T1 T2] Hv Hev (d & -> & _) Hok Hx.
  assert (∃ b, md_bitassets s0 !! asset_id (bc_debt_covered op) = Some b ∧ backing_asset b = asset_id (bc_additional_collateral op))
    as (b & Hb & Eb).
  { unfold bid_collateral_do_evaluate in Hev. cbv zeta in Hev. apply bind_Ok in Hev as ([] & _ & Hev). apply bind_Ok in Hev as (? & _ & Hev).
    do 2 apply bind_Ok in Hev as ([] & _ & Hev). apply bind_Ok in Hev as (b & Hb%find_object_Ok & Hev).
    apply bind_Ok in Hev as ([] & _ & Hev). apply bind_Ok in Hev as ([] & Eb%FC_ASSERT_Ok & _). propify. eauto. }
  clear Hev. unfold bid_collateral_validate in Hv. apply bind_Ok in Hv as ([] & _ & Hv%FC_ASSERT_Ok).
  set (s := set_mdb d s0) in *. assert (md_bitassets s = md_bitassets s0) as Em by done. clearbody s.
  unfold bid_collateral_do_apply in Hx. apply bind_Ok in Hx as (s1 & H1 & Hx).
  assert (debt_step s s1 (λ _, 0) (λ _, 0) ∧ md_bitassets s1 = md_bitassets s) as [C1 B1].
  { destruct ctx as [id|]; [by apply cancel_bid_step in H1 as (? & ? & _)|injection H1 as <-; split; [by apply debt_step_refl|done]]. }
  clear H1. destruct (Z.eqb_spec (amount (bc_debt_covered op)) 0) as [|Hne]; [injection Hx as <- _; by apply step_keeps|].
  apply bind_Ok in Hx as (neg & (-> & _)%asset_neg_Ok & Hx). apply bind_Ok in Hx as (s2 & [C2 (O2 & _ & B2)]%adjust_step & Hx); [|apply C1].
  apply bind_Ok in Hx as (p & Hp & Hx). unfold make_price in Hp. apply bind_Ok in Hp as ([] & _ & [= <-]).
  apply bind_Ok in Hx as ([id t] & Ht & [= <- _]). apply bid_create_step in Ht as C3; [|apply C2|].
  - apply step_keeps. clear Ht. unfold get_additional_collateral in C3. simpl in C3. debt_done.
  - apply orb_true_iff in Hv as [Hv|[Hv1 Hv2]%andb_true_iff]; propify; [done|].
    split; unfold get_debt_covered, get_additional_collateral; simpl; [split; [done|lia]..|]. exists b. simpl. rewrite B2, B1, Em. done.
Qed.

(** ** asset_global_settle *)

Lemma asset_global_settle_keeps `{FeeSchedule} `{NthElement price_feed_with_icr} op ctx s s' r :
  debt_ok s → asset_global_settle_do_apply op ctx s = Ok (s', r) → debt_keeps s s'.
Proof.
  intros Hok H1. unfold asset_global_settle_do_apply in H1. apply bind_Ok in H1 as (s1 & H2 & [= <- _]).
  by apply globally_settle_asset_keeps in H2 as [? _].
Qed.

(** ** asset_settle *)

Lemma pay_collateral_fees_step a pays settled s s' fees :
  debt_ok s → pay_collateral_fees a pays settled s = Ok (s', fees) →
  debt_step s s' (λ x, match fees with Some f => amt (asset_id f) (amount f) x | None => 0 end) (λ _, 0) ∧ same_markets s s' ∧
  match fees with Some f => asset_id f = asset_id settled ∧ amount f ≤ amount settled | None => True end.
Proof.
  intros Hok H1. assert (debt_step s s (λ _, 0) (λ _, 0) ∧ same_markets s s ∧ True) as H0 by (split_and!; [by apply debt_step_refl|done|done]).
  unfold pay_collateral_fees in H1. apply bind_Ok in H1 as (b & _ & H1). destruct (_ && _); [|by injection H1 as <- <-].
  apply bind_Ok in H1 as (fp & _ & H1).
  match type of H1 with match ?r with _ => _ end = _ => destruct r as [x|e] eqn:Er end; [|by injection H1 as <- <-].
  injection H1 as ->. apply bind_Ok in Er as (m & Hm%round_up_max & Er). apply bind_Ok in Er as (less & [Ei ->]%asset_lt_Ok & Er).
  destruct (amount m <? amount settled); [|by injection Er as <- <-].
  apply bind_Ok in Er as (f & (-> & _ & _)%asset_sub_Ok & Er). apply bind_Ok in Er as (s1 & Hs & [= <- <-]).
  apply accumulate_fee_step in Hs as (C & M & _); [|done]. simpl in *. split_and!; [done..|lia].
Qed.

Lemma market_fees_step who x s s' fees :
  debt_ok s → settler_market_fees who x s = Ok (s', fees) →
  debt_step s s' (amt (asset_id x) (amount fees)) (λ _, 0) ∧ same_markets s s' ∧ asset_id fees = asset_id x ∧ amount fees ≤ amount x.
Proof.
  intros Hok H1. unfold settler_market_fees in H1. apply bind_Ok in H1 as ([d f] & H1 & [= <- <-]).
  pose proof H1 as Hf%(frozen_pay_market_fees (frozen (md_db s))); [|done].
  apply pay_market_fees_credits in H1 as (Em & Hm & [M (f1 & f2 & f3 & f4 & Fr)]); [|apply Hok].
  split_and!; [by apply db_step|subst d; done|done|lia].
Qed.

(** What is paid out is what has left the fund. *)
Lemma pay_out_step who a pays settled charged no_fees s s' received ifees cfees :
  debt_ok s → 0 ≤ amount settled → pay_out who a pays settled charged no_fees s = Ok (s', received, ifees, cfees) →
  debt_step s s' (amt (asset_id settled) (amount settled)) (λ _, 0) ∧ same_markets s s'.
Proof.
  intros Hok Hpos H1. unfold pay_out in H1. apply bind_Ok in H1 as ([s1 cf] & (C1 & M1 & Hcf)%pay_collateral_fees_step & H1); [|done].
  apply bind_Ok in H1 as (rest & Hrest & H1).
  assert (debt_step s s1 (amt (asset_id settled) (amount settled - amount rest)) (λ _, 0) ∧ asset_id rest = asset_id settled ∧ 0 ≤ amount rest)
    as (C1' & Er & Hr).
  { unfold less_fees in Hrest. destruct cf as [f|]; [apply asset_sub_Ok in Hrest as (-> & _ & _); destruct Hcf as [Ef Hf]|injection Hrest as ->].
    - simpl. split_and!; [|done|lia]. eapply debt_step_ext; [exact C1|..]; intros x; simpl; [rewrite Ef; amt_solve|done].
    - split_and!; [|done|done]. eapply debt_step_ext; [exact C1|..]; intros x; simpl; [amt_solve|done]. }
  clear C1 Hrest. apply bind_Ok in H1 as ([[s2 rest2] iff] & H2 & H1).
  assert (debt_step s1 s2 (amt (asset_id settled) (amount rest - amount rest2)) (λ _, 0) ∧ same_markets s1 s2 ∧
    asset_id rest2 = asset_id settled ∧ 0 ≤ amount rest2) as (C2 & M2 & Er2 & Hr2).
  { destruct charged.
    - apply bind_Ok in H2 as ([s3 f] & (C & M & Ef & Hf)%market_fees_step & H2); [|apply C1'].
      apply bind_Ok in H2 as (y & (-> & _ & _)%asset_sub_Ok & [= <- <- _]). simpl. split_and!; [|done|done|lia].
      eapply debt_step_ext; [exact C|..]; intros x; simpl; [rewrite Er; amt_solve|done].
    - injection H2 as <- <- _. split_and!; [|done|done|done].
      eapply debt_step_ext; [apply debt_step_refl, C1'|..]; intros x; simpl; [amt_solve|done]. }
  clear H2. apply bind_Ok in H1 as (s3 & H3 & [= <- _ _ _]).
  assert (debt_step s2 s3 (amt (asset_id settled) (amount rest2)) (λ _, 0) ∧ same_markets s2 s3) as [C3 M3].
  { destruct (Z.ltb_spec 0 (amount rest2)); [apply adjust_step in H3; [by rewrite Er2 in H3|apply C2]|].
    injection H3 as <-. split; [|done]. eapply debt_step_ext; [apply debt_step_refl, C2|..]; intros x; simpl; [amt_solve|done]. }
  clear H3. split; [debt_done|eauto using same_markets_trans].
Qed.

Lemma burn_step a pays s s' :
  debt_ok s → burn a pays s = Ok s' → debt_step s s' (amt a (amount pays)) (amt a (amount pays)) ∧ same_markets s s'.
Proof. apply reduce_supply_step. Qed.

(** Conversions take an asset of one side of the price to the other. *)
Lemma mul_price_side x p y :
  asset_mul_price x p = Ok y → asset_id x = asset_id (base p) → asset_id y = asset_id (quote p).
Proof.
  unfold asset_mul_price, convert_down. intros H1 E. rewrite E, Z.eqb_refl in H1.
  do 2 apply bind_Ok in H1 as ([] & _ & H1). by injection H1 as <-.
Qed.
Lemma round_up_side x p y :
  multiply_and_round_up x p = Ok y → asset_id x = asset_id (quote p) → asset_id (quote p) ≠ asset_id (base p) →
  asset_id y = asset_id (base p).
Proof.
  unfold multiply_and_round_up, convert_up. intros H1 E Hne. rewrite E, Z.eqb_refl, (proj2 (Z.eqb_neq _ _) Hne) in H1.
  do 2 apply bind_Ok in H1 as ([] & _ & H1). by injection H1 as <-.
Qed.

Lemma gs_amounts_sides a b x v mt pays settled :
  bitasset_wf a b → is_globally_settled b = true → asset_id x = a → gs_amounts x v mt b = Ok (pays, settled) →
  asset_id pays = a ∧ asset_id settled = backing_asset b.
Proof.
  intros Hw Hg Ex H1. destruct (bw_settled _ _ Hw Hg) as [E1 E2]. pose proof (bw_backing _ _ Hw) as Hne.
  unfold gs_amounts in H1. cbv zeta in H1. apply bind_Ok in H1 as (y & Hy & H1).
  assert (asset_id y = backing_asset b) as Ey.
  { destruct (_ =? _) in Hy; [by injection Hy as <-|]. apply mul_price_side in Hy; congruence. }
  apply bind_Ok in H1 as ([] & _ & H1). apply bind_Ok in H1 as ([] & _ & H1). apply bind_Ok in H1 as (z & Hz & [= <- <-]).
  split; [|done]. destruct (_ && _) in Hz; [|by injection Hz as <-]. apply round_up_side in Hz; congruence.
Qed.

Lemma settlement_fund_wf a b f : bitasset_wf a b → is_globally_settled b = true → bitasset_wf a (ba_with_settlement_fund b f).
Proof. intros [] Hg. split; try done. intros Hn. change (is_globally_settled b = false) in Hn. congruence. Qed.

Section settle.
Context `{FeeSchedule} `{NthElement price_feed_with_icr}.
Variable push : virtual_operation → database → result (database * Z).

Lemma pay_settle_from_gs_fund_keeps op s s' r b :
  debt_ok s → md_bitassets s !! asset_id (as_amount op) = Some b → is_globally_settled b = true →
  pay_settle_from_gs_fund op s = Ok (s', r) → debt_keeps s s'.
Proof.
  intros Hok Hb Hg Hx. pose proof (do_bitassets _ Hok _ _ Hb) as Hw. unfold pay_settle_from_gs_fund in Hx. cbv zeta in Hx.
  set (a := asset_id (as_amount op)) in *.
  apply bind_Ok in Hx as (dyn & _ & Hx). apply bind_Ok in Hx as (b1 & Hb1%find_object_Ok & Hx). rewrite Hb in Hb1. injection Hb1 as <-.
  apply bind_Ok in Hx as ([pays settled] & Ham & Hx). apply (gs_amounts_sides a) in Ham as [Ep Es]; [|done..].
  apply bind_Ok in Hx as (neg & (-> & _)%asset_neg_Ok & Hx). apply bind_Ok in Hx as (s1 & [C1 (_ & _ & B1)]%adjust_step & Hx); [|done].
  simpl in C1. apply bind_Ok in Hx as ([[[s2 rec] ifs] cfs] & H2 & Hx). apply bind_Ok in Hx as (s3 & H3 & [= <- _]).
  assert (debt_step s1 s2 (λ _, 0) (λ _, 0)) as C2.
  { destruct (Z.ltb_spec 0 (amount settled)); [|injection H2 as <- _ _ _; apply debt_step_refl, C1].
    apply bind_Ok in H2 as (s4 & (b4 & b5 & Hb4 & Hm & ->)%modify_bitasset_Ok & H2). rewrite B1, Hb in Hb4. injection Hb4 as <-.
    apply bind_Ok in Hm as (f & [-> _]%share_sub_Ok & [= <-]).
    pose proof (settlement_fund_wf a b (settlement_fund b - amount settled) Hw Hg) as Hw'.
    set (b' := ba_with_settlement_fund b _) in *.
    pose proof (bitasset_step s1 a b b' (ds_ok _ _ _ _ C1) ltac:(by rewrite B1) ltac:(done) Hw' ltac:(done)) as C3.
    apply pay_out_step in H2 as [C4 _]; [|apply C3|lia]. clear - C3 C4 Es. unfold b' in C3. simpl in C3. rewrite Es in C4. debt_done. }
  apply burn_step in H3 as [C3 (_ & _ & B3)]; [|apply C2].
  assert (globally_settled s3 a) as Hgs by (apply C3, C2, C1; by exists b).
  apply (settled_step_keeps a (amount pays)); [|done]. clear - C1 C2 C3 Ep. rewrite Ep in C1. debt_done.
Qed.

Lemma pool_amounts_bounds a b x pays settled :
  bitasset_wf a b → asset_wf x → asset_id x = a → pool_amounts x b = Ok (pays, settled) →
  asset_id pays = a ∧ asset_id settled = backing_asset b ∧ 0 ≤ amount pays ≤ individual_settlement_debt b ∧
  amount pays ≤ amount x ∧ 0 ≤ amount settled ≤ individual_settlement_fund b.
Proof.
  intros Hw Hx Ex H1. pose proof (bw_debt _ _ Hw) as [Sd Pd]. pose proof (bw_collateral _ _ Hw) as [Sf Pf].
  pose proof (bw_id _ _ Hw) as Ea. unfold pool_amounts in H1. destruct (Z.ltb_spec (amount x) (individual_settlement_debt b)) as [Hlt|Hge].
  - apply bind_Ok in H1 as (p & Hp & H1). apply bind_Ok in H1 as (y & Hy & H1). apply bind_Ok in H1 as ([] & Hpos%FC_ASSERT_Ok & H1).
    apply bind_Ok in H1 as (z & Hz & [= <- <-]). propify. destruct Hx as [Sx Px].
    unfold get_individual_settlement_price, make_price in Hp. apply bind_Ok in Hp as ([] & Hne%FC_ASSERT_Ok & [= <-]). propify. simpl in Hne.
    rewrite Ea in *. fold (backing_asset b) in *.
    assert (0 < individual_settlement_fund b) as Pf'.
    { destruct (decide (individual_settlement_fund b = 0)) as [E|]; [|lia]. exfalso. rewrite E in Hy.
      unfold asset_mul_price, convert_down in Hy. simpl in Hy. rewrite Ex, Z.eqb_refl in Hy. do 2 apply bind_Ok in Hy as ([] & _ & Hy).
      injection Hy as <-. simpl in Hpos. unfold u128_mul, u128_div in Hpos. change (u128 0) with 0 in Hpos.
      rewrite Z.mul_0_r in Hpos. change (u128 0) with 0 in Hpos. rewrite Z.div_0_l in Hpos by lia. done. }
    set (p := Price _ _) in *. assert (price_wf p) as Hp by (unfold p; split_and!; simpl; (done || lia)).
    pose proof (there_and_back _ _ _ _ (conj Sx Px) Hp Hy Hz) as [E1 E2].
    pose proof (mul_price_base p Hp x y (conj Sx Px) ltac:(done) Hy) as ->. unfold p in *. simpl in *.
    split_and!; try done; try lia; try congruence. apply Z.div_le_upper_bound; [lia|]. nia.
  - injection H1 as <- <-. simpl. split_and!; done || lia.
Qed.

Lemma pay_settle_from_individual_pool_keeps op s s' paid r b :
  debt_ok s → asset_wf (as_amount op) → md_bitassets s !! asset_id (as_amount op) = Some b →
  pay_settle_from_individual_pool push op s = Ok (s', paid, r) →
  debt_keeps s s' ∧ asset_id paid = asset_id (as_amount op) ∧ amount paid ≤ amount (as_amount op).
Proof.
  intros Hok Hop Hb Hx. pose proof (do_bitassets _ Hok _ _ Hb) as Hw. unfold pay_settle_from_individual_pool in Hx. cbv zeta in Hx.
  apply bind_Ok in Hx as (b1 & Hb1%find_object_Ok & Hx). rewrite Hb in Hb1. injection Hb1 as <-.
  set (a := asset_id (as_amount op)) in *. apply bind_Ok in Hx as ([pays settled] & Ham & Hx).
  apply (pool_amounts_bounds a) in Ham as (Ep & Es & Bp & Bp' & Bs); [|done..].
  apply bind_Ok in Hx as (neg & (-> & _)%asset_neg_Ok & Hx). apply bind_Ok in Hx as (s1 & [C1 (_ & _ & B1)]%adjust_step & Hx); [|done].
  simpl in C1. apply bind_Ok in Hx as (s2 & (b2 & b3 & Hb2 & Hm & ->)%modify_bitasset_Ok & Hx). rewrite B1, Hb in Hb2. injection Hb2 as <-.
  apply bind_Ok in Hm as (dd & [-> Sd]%share_sub_Ok & Hm). apply bind_Ok in Hm as (f & [-> Sf]%share_sub_Ok & [= <-]).
  assert (0 ≤ individual_settlement_debt b - amount pays ∧ 0 ≤ individual_settlement_fund b - amount settled) as [P1 P2] by lia.
  pose proof (fund_grows a b _ _ Hw (conj Sd P1) (conj Sf P2)) as Hw'. set (b' := ba_with_individual b _ _) in *.
  pose proof (bitasset_step s1 a b b' (ds_ok _ _ _ _ C1) ltac:(by rewrite B1) ltac:(done) Hw' ltac:(done)) as C2.
  set (s2 := set_bitassets _ s1) in *. clearbody s2.
  apply bind_Ok in Hx as (s3 & [C3 _]%burn_step & Hx); [|apply C2].
  apply bind_Ok in Hx as ([[[s4 rec] ifs] cfs] & [C4 _]%pay_out_step & Hx); [|apply C3|lia].
  assert (debt_step s s4 (λ _, 0) (λ _, 0)) as C.
  { clear - C1 C2 C3 C4 Ep Es. unfold b' in C2. simpl in C2. rewrite Ep in C1. rewrite Es in C4. debt_done. }
  clear C1 C2 C3 C4. apply bind_Ok in Hx as (s5 & H5 & Hx). apply update_current_feed_step in H5 as [C5%step_keeps _]; [|apply C].
  apply step_keeps in C. apply bind_Ok in Hx as (b5 & _ & Hx). apply bind_Ok in Hx as (s6 & H6 & [= <- <- _]).
  split; [|done]. eapply debt_keeps_trans; [exact C|]. destruct (_ && _); [|injection H6 as <-; done].
  apply bind_Ok in H6 as ([s7 ?] & K%check_call_orders_keeps & [= <-]); [by eapply debt_keeps_trans|apply C5].
Qed.

Lemma create_settlement_keeps who x r s s' r' :
  debt_ok s → asset_wf x → create_settlement push who x r s = Ok (s', r') → debt_keeps s s'.
Proof.
  intros Hok Hx H1. unfold create_settlement in H1. cbv zeta in H1. apply bind_Ok in H1 as (b & _ & H1).
  destruct (_ && _); [injection H1 as <- _; by apply debt_keeps_refl|]. destruct (_ && _); [injection H1 as <- _; by apply debt_keeps_refl|].
  apply bind_Ok in H1 as (neg & (-> & _)%asset_neg_Ok & H1). apply bind_Ok in H1 as (s1 & [C1 _]%adjust_step & H1); [|done].
  apply bind_Ok in H1 as ([id t] & Ht & H1). cbv zeta in H1.
  assert (debt_step s1 (set_settlements t s1) (amt (asset_id x) (amount x)) (λ _, 0)) as C2.
  { apply settlements_step; [apply C1|exact (rows_ok_create _ _ _ _ _ Ht Hx (do_settlements _ (ds_ok _ _ _ _ C1)))|].
    intros y. by rewrite (tbl_held_create _ _ _ _ y Ht). }
  assert (debt_keeps s (set_settlements t s1)) as K by (apply step_keeps; clear - C1 C2; debt_done).
  apply bind_Ok in H1 as (s2 & H2 & [= <- _]). destruct (HARDFORK_CORE_2481_PASSED _); [|by injection H2 as <-].
  eapply debt_keeps_trans; [exact K|]. eapply apply_force_settlement_debt_keeps; [apply K|done].
Qed.

Definition settle_op_ok (op : asset_settle_operation) : Prop := is_share (amount (as_amount op)).

Lemma asset_settle_keeps op ctx s s' r :
  settle_op_ok op → asset_settle_validate op = Ok () → debt_ok s →
  asset_settle_do_apply push op ctx s = Ok (s', r) → debt_keeps s s'.
Proof.
  intros Hop Hv Hok Hx. unfold asset_settle_validate in Hv. apply bind_Ok in Hv as ([] & _ & Hv%FC_ASSERT_Ok). propify.
  assert (asset_wf (as_amount op)) as Hw by done. unfold asset_settle_do_apply in Hx. cbv zeta in Hx.
  apply bind_Ok in Hx as (obj & _ & Hx). apply bind_Ok in Hx as (b & Hb%find_object_Ok & Hx).
  destruct (is_globally_settled b) eqn:Hg.
  { apply bind_Ok in Hx as ([s1 r1] & H1 & [= <- _]). by eapply pay_settle_from_gs_fund_keeps. }
  destruct (is_individually_settled_to_fund b); [|by eapply create_settlement_keeps].
  apply bind_Ok in Hx as ([[s1 paid] r1] & H1 & Hx). eapply pay_settle_from_individual_pool_keeps in H1 as (K & Ep & Bp); [|done..].
  apply bind_Ok in Hx as (b1 & _ & Hx). destruct (_ || _); [by injection Hx as <- _|].
  apply bind_Ok in Hx as (x & (-> & _ & Sx)%asset_sub_Ok & Hx). eapply debt_keeps_trans; [exact K|].
  eapply create_settlement_keeps; [apply K| |done]. split; simpl in *; [done|lia].
Qed.
End settle.

(** ** Settlement orders that are due *)

Section due.
Context `{FeeSchedule} `{NthElement price_feed_with_icr}.

Lemma due_round_keeps settle a mx fp sp st st' r :
  debt_ok st.1.1 → price_wf fp → price_wf sp → due_round settle a mx fp sp st = Ok (st', r) → debt_keeps st.1.1 st'.1.1.
Proof.
  destruct st as [[s settled] fin]. simpl. intros Hok Hfp Hsp Hx.
  assert (∀ z, (s ← cancel_settle_order settle s; Ok ((s, settled, fin), z)) = Ok (st', r) → debt_keeps s st'.1.1) as Hc.
  { intros z (s1 & [C%step_keeps _]%cancel_settle_order_step & [= <- _])%bind_Ok; done. }
  apply bind_Ok in Hx as (go & [_ ->]%asset_lt_Ok & Hx).
  destruct (Z.ltb_spec (amount settled) (amount mx)) as [Hlt|]; [|injection Hx as <- _; by apply debt_keeps_refl].
  destruct (rows (md_settlements s) !! settle) as [o|]; [|injection Hx as <- _; by apply debt_keeps_refl].
  destruct (amount (fs_balance o) =? 0); [by eapply Hc|]. apply bind_Ok in Hx as (b & _ & Hx).
  apply bind_Ok in Hx as ([[call c]|] & _ & Hx); [|by eapply Hc].
  apply bind_Ok in Hx as (ms & (-> & _ & Hs)%asset_sub_Ok & Hx).
  destruct (match_settle_call _ _ _ _ _ _ _ _ _) as [[s1 cov]|e] eqn:Hm; [|case_decide; [by eapply Hc|discriminate]].
  apply match_settle_call_step, step_keeps in Hm; [|done|done|done|split; simpl in *; [done|lia]].
  destruct (_ && _) in Hx; [by injection Hx as <- _|]. apply bind_Ok in Hx as (t & _ & Hx). by injection Hx as <- _.
Qed.

Lemma settle_due_keeps settle l l' :
  debt_ok (cl_db l) → price_wf (settlement_fill_price l) → price_wf (cl_settlement_price l) → settle_due settle l = Ok l' →
  debt_keeps (cl_db l) (cl_db l') ∧ settlement_fill_price l' = settlement_fill_price l ∧ cl_settlement_price l' = cl_settlement_price l.
Proof.
  intros Hok Hfp Hsp Hx. unfold settle_due in Hx. cbv zeta in Hx. apply bind_Ok in Hx as (b & _ & Hx).
  apply bind_Ok in Hx as ([[[s1 settled] fin] running] & Hw & Hx). destruct running; [discriminate|].
  apply (while_pow_ind _ (λ st, debt_keeps (cl_db l) st.1.1) (λ st, debt_keeps (cl_db l) st.1.1)) in Hw; [|..|by apply debt_keeps_refl].
  2,3: intros l1 l2 K Hr; eapply debt_keeps_trans; [exact K|]; eapply due_round_keeps; [apply K|exact Hfp|exact Hsp|exact Hr].
  simpl in Hw. apply bind_Ok in Hx as (b1 & Hb1%find_object_Ok & Hx). apply bind_Ok in Hx as (s2 & H2 & [= <-]). simpl.
  split; [|done]. destruct (negb _) in H2; [|by injection H2 as <-].
  apply modify_bitasset_Ok in H2 as (b2 & b3 & Hb2 & [= <-] & ->). rewrite Hb1 in Hb2. injection Hb2 as <-.
  assert (bitasset_wf (current_asset l) (ba_with_volume b1 (amount settled))) as Hw'
    by (destruct (do_bitassets _ (dk_ok _ _ Hw) _ _ Hb1); by split).
  set (b' := ba_with_volume _ _) in *.
  pose proof (bitasset_step s1 _ b1 b' (dk_ok _ _ Hw) Hb1 ltac:(done) Hw' ltac:(done)) as C. eapply debt_keeps_trans; [exact Hw|].
  apply step_keeps. eapply debt_step_ext; [exact C|..]; intros x; simpl; amt_solve.
Qed.

(** A cached price is that of a feed, or not yet set. *)
Definition cached (p : price) : Prop := price_wf p ∨ p = null_price.

Definition clear_inv (s : mdatabase) (l : clear_loop) : Prop :=
  debt_keeps s (cl_db l) ∧ cached (settlement_fill_price l) ∧ cached (cl_settlement_price l).

Lemma cached_of a b p : bitasset_wf a b → cached p → asset_id (base p) = a → price_wf p.
Proof. intros Hw [Hp| ->] E; [done|]. by destruct (bw_not_core _ _ Hw). Qed.

Lemma refresh_prices_wf l o b l' :
  bitasset_wf (current_asset l) b → HARDFORK_CORE_342_TIME < maint_time (cl_db l) →
  cached (settlement_fill_price l) → cached (cl_settlement_price l) → refresh_prices l o b = Ok l' →
  cl_db l' = cl_db l ∧ price_wf (settlement_fill_price l') ∧ price_wf (cl_settlement_price l').
Proof.
  intros Hw Ht Hf Hs Hx. unfold refresh_prices in Hx. cbv zeta in Hx. apply bind_Ok in Hx as (fp & Hfp & Hx).
  assert (price_wf fp) as Hfw.
  { destruct (Z.eqb_spec (asset_id (base (settlement_fill_price l))) (current_asset l)); simpl in Hfp.
    - injection Hfp as <-. by eapply cached_of.
    - apply price_mul_ratio_wf in Hfp; [apply Hfp|apply Hw]. }
  destruct (Z.leb_spec (maint_time (cl_db l)) HARDFORK_CORE_342_TIME); [lia|]. apply bind_Ok in Hx as (sp & Hsp & [= <-]).
  split_and!; [done|done|]. simpl. destruct (Z.eqb_spec (asset_id (base (cl_settlement_price l))) (current_asset l)); simpl in Hsp;
    injection Hsp as <-; [by eapply cached_of|done].
Qed.

Lemma next_asset_inv s l : clear_inv s l → clear_inv s (next_asset l).1.
Proof. intros Hi. unfold next_asset. by destruct (least_such _ _ _) as [[? ?]|]. Qed.

Lemma clear_round_keeps s l l' r :
  HARDFORK_CORE_342_TIME < maint_time s → clear_inv s l → clear_round l = Ok (l', r) → clear_inv s l'.
Proof.
  intros Ht (K & Hf & Hs) Hx. unfold clear_round in Hx. destruct (settlement_lower_bound _ _) as [[settle o]|]; [|by injection Hx as <- _].
  cbv zeta in Hx. set (l1 := ClearLoop _ _ _ _ _ _) in Hx. assert (clear_inv s l1) as Hi by done.
  change (cl_db l1) with (cl_db l) in Hx. change (current_asset l1) with (asset_id (fs_balance o)) in Hx.
  apply bind_Ok in Hx as (obj & _ & Hx). apply bind_Ok in Hx as (b & Hb%find_object_Ok & Hx).
  assert (∀ z, (s ← cancel_settle_order settle (cl_db l); Ok (cl_with_db l1 s, z)) = Ok (l', r) → clear_inv s l') as Hc.
  { intros z (s1 & [C%step_keeps _]%cancel_settle_order_step & [= <- _])%bind_Ok; [|apply K].
    split; [by eapply debt_keeps_trans|done]. }
  destruct (is_globally_settled b); [by eapply Hc|].
  destruct (_ <? _) in Hx; [injection Hx as Hx; pose proof (next_asset_inv s l1 Hi) as Hn; by rewrite Hx in Hn|].
  destruct (_ || _) in Hx; [by eapply Hc|]. apply bind_Ok in Hx as (l2 & Hl2 & Hx).
  assert (clear_inv s l2 ∧ cl_db l2 = cl_db l ∧ current_asset l2 = asset_id (fs_balance o)) as (Hi2 & Ed & Ea).
  { unfold refresh_volume in Hl2. destruct (negb _) in Hl2; [|by injection Hl2 as <-].
    apply bind_Ok in Hl2 as (dyn & _ & Hl2). apply bind_Ok in Hl2 as (v & _ & Hl2). by injection Hl2 as <-. }
  clear Hl2. destruct (_ || _) in Hx; [injection Hx as Hx; pose proof (next_asset_inv s l2 Hi2) as Hn; by rewrite Hx in Hn|].
  apply bind_Ok in Hx as (l3 & Hl3 & Hx). destruct Hi2 as (_ & Hf2 & Hs2).
  apply refresh_prices_wf in Hl3 as (Ed3 & Hf3 & Hs3); [|..|done|done].
  - apply bind_Ok in Hx as (l4 & H4 & [= <- _]). rewrite Ed in Ed3.
    apply settle_due_keeps in H4 as (K4 & E1 & E2); [|rewrite Ed3; apply K|done..]. rewrite Ed3 in K4.
    split; [by eapply debt_keeps_trans|]. rewrite E1, E2. split; by left.
  - rewrite Ea. by eapply (do_bitassets _ (dk_ok _ _ K)).
  - rewrite Ed. pose proof (dk_frame _ _ K) as E. unfold debt_frame in E. replace (maint_time (cl_db l)) with (maint_time s) by congruence. done.
Qed.

Lemma clear_expired_keeps s s' :
  debt_ok s → HARDFORK_CORE_342_TIME < maint_time s → clear_expired_force_settlements s = Ok s' → debt_keeps s s'.
Proof.
  intros Hok Ht Hx. unfold clear_expired_force_settlements in Hx.
  destruct (least_such _ _ _) as [[i o]|]; [|injection Hx as <-; by apply debt_keeps_refl].
  apply bind_Ok in Hx as ([l running] & Hw & Hx). destruct running; [discriminate|]. injection Hx as <-.
  apply (while_pow_ind _ (clear_inv s) (clear_inv s)) in Hw; [apply Hw|..|split_and!; [by apply debt_keeps_refl|by right..]];
    intros l1 l2 K Hr; by eapply clear_round_keeps.
Qed.
End due.
