(* ===== verification/FeedOpTheorems.v ===== *)
(** * Feeds keep the books

    Publishing feeds, replacing publishers, claiming fees and renewing expired feeds change neither what is held nor what
    is owed, margin calls and black swans they trigger included. *)
From stdpp Require Import sorting.
From S2P Require Import Prelude MachineInt Hardfork Asset PriceRatio CallOrder CallOrderTheorems PriceFeed ChainState Frames Ledger CreditBooks Balance Fees Evaluator LimitOrder MarketBooks MarketMatching OrderBook DebtState DebtMarket MarginCalls DebtOps SettleOps FeedOps DebtBooks DebtMatching BlackSwan MarginCallTheorems DebtOpTheorems.

#[local] Opaque while_pow.

(** ** Feeds of a bitasset *)

(** [b'] differs from [b] in its feeds and what follows from them; their prices stay within shares. *)
Record feeds_change (b b' : asset_bitasset_data_object) : Prop := {
  fc_id : ba_asset_id b' = ba_asset_id b;
  fc_options : ba_options b' = ba_options b;
  fc_market : is_prediction_market b' = is_prediction_market b;
  fc_price : ba_settlement_price b' = ba_settlement_price b;
  fc_fund : settlement_fund b' = settlement_fund b;
  fc_debt : individual_settlement_debt b' = individual_settlement_debt b;
  fc_individual : individual_settlement_fund b' = individual_settlement_fund b;
  fc_wf a : bitasset_wf a b → bitasset_wf a b' }.

Lemma feeds_change_refl b : feeds_change b b.
Proof. by split. Qed.

Lemma feeds_change_trans b1 b2 b3 : feeds_change b1 b2 → feeds_change b2 b3 → feeds_change b1 b3.
Proof. intros [] []. split; try congruence. eauto. Qed.

(** A step that keeps the books and settles nothing. *)
Definition feed_step (s s' : mdatabase) : Prop :=
  debt_step s s' (λ _, 0) (λ _, 0) ∧ ∀ i, globally_settled s' i → globally_settled s i.

Lemma feed_step_trans s1 s2 s3 : feed_step s1 s2 → feed_step s2 s3 → feed_step s1 s3.
Proof. intros [C1 G1] [C2 G2]. split; [debt_done|eauto]. Qed.

Lemma feeds_change_step s a b b' :
  debt_ok s → md_bitassets s !! a = Some b → feeds_change b b' →
  feed_step s (set_bitassets (<[a := b']> (md_bitassets s)) s).
Proof.
  intros Hok Hb [E1 E2 E3 E4 E5 E6 E7 Hw]. split.
  2:{ intros i (v & Hv & Ev). simpl in Hv. apply lookup_insert_Some in Hv as [[<- <-]|[_ Hv]]; [|by exists v].
      exists b. split; [done|]. unfold is_globally_settled in *. by rewrite <- E4. }
  eapply debt_step_ext; [apply (bitasset_step s a b b'); [done..| | |]| |].
  - split_and!; [done|unfold backing_asset; by rewrite E2|done].
  - by eapply Hw, (do_bitassets _ Hok).
  - unfold is_globally_settled. by rewrite E4.
  - intros x. rewrite E5, E7. amt_solve.
  - intros i. rewrite E6. amt_solve.
Qed.

Lemma set_feeds_change b fs :
  (Forall (λ f, share_price (settlement_price f.2.2)) (ba_feeds b) → Forall (λ f, share_price (settlement_price f.2.2)) fs) →
  feeds_change b (set_feeds b fs).
Proof. intros Hf. split; try done. intros a []. split; try done. simpl. auto. Qed.

Lemma set_median_change b m t c :
  (Forall (λ f, share_price (settlement_price f.2.2)) (ba_feeds b) → share_price (settlement_price m)) →
  feeds_change b (set_median b m t c).
Proof. intros Hm. split; try done. intros a []. split; try done. simpl. auto. Qed.

Lemma set_current_feed_change b f :
  (∀ a, bitasset_wf a b → share_price (settlement_price f)) → feeds_change b (set_current_feed b f).
Proof. intros Hf. split; try done. intros a Hw. pose proof (Hf a Hw). destruct Hw. split; done. Qed.

Section medians.
Context `{NthElement price_feed_with_icr}.

(** A median is the value of one of the feeds. *)
Lemma median_of_feeds {A} (field : price_feed_with_icr → A) lt fs v fs' :
  CALCULATE_MEDIAN_VALUE field lt fs = Ok (v, fs') → ∃ f, f ∈ fs ∧ v = field f.
Proof.
  unfold CALCULATE_MEDIAN_VALUE. cbv zeta. destruct (_ !! _) as [f|] eqn:E; [|done]. intros [= <- _]. exists f. split; [|done].
  apply list_elem_of_lookup_2 in E. by rewrite nth_element_perm in E.
Qed.

Lemma refresh_cache_change b b' : refresh_cache b = Ok b' → feeds_change b b'.
Proof.
  unfold refresh_cache. intros (m & _ & H1)%bind_Ok. apply bind_Ok in H1 as (i & _ & [= <-]). split; try done.
  intros a []. by split.
Qed.

Lemma alive_share b now f :
  Forall (λ f, share_price (settlement_price f.2.2)) (ba_feeds b) → f ∈ map snd (alive_feeds b now) → share_price (settlement_price f).
Proof.
  intros Hall. unfold alive_feeds. intros ([t g] & -> & [_ Hin]%list_elem_of_filter)%list_elem_of_fmap.
  apply list_elem_of_fmap in Hin as ([who [t' g']] & [= <- <-] & Hin). rewrite Forall_forall in Hall. exact (Hall _ Hin).
Qed.

Lemma update_median_feeds_change b now maint b' : update_median_feeds b now maint = Ok b' → feeds_change b b'.
Proof.
  unfold update_median_feeds. cbv zeta.
  assert (∀ b1, feeds_change b b1 → (if HARDFORK_CORE_1270_TIME <? maint then refresh_cache b1 else Ok b1) = Ok b' → feeds_change b b') as Hr.
  { intros b1 C1. destruct (_ <? _); [intros ?%refresh_cache_change; by eapply feeds_change_trans|by intros [= <-]]. }
  destruct (_ <? minimum_feeds _). { apply Hr. by apply set_median_change. }
  destruct (map snd (alive_feeds b now)) as [|f [|g l]] eqn:Ef.
  - intros (m & H1 & _)%bind_Ok. unfold calculate_medians in H1. apply bind_Ok in H1 as ([sp fs1] & H2 & _).
    apply median_of_feeds in H2 as (f & Hf & _). by apply not_elem_of_nil in Hf.
  - apply Hr. apply set_median_change. intros Hall. assert (share_price (settlement_price f)); [|by destruct (_ <? _)].
    eapply alive_share; [done|]. rewrite Ef. by left.
  - intros (m & H1 & H2)%bind_Ok. revert H2. apply Hr. apply set_median_change. intros Hall. unfold calculate_medians in H1.
    apply bind_Ok in H1 as ([sp fs1] & H2 & H1). do 4 apply bind_Ok in H1 as ([? ?] & _ & H1). injection H1 as <-.
    apply median_of_feeds in H2 as (h & Hh & ->). apply (alive_share b now h); [done|]. rewrite Ef. exact Hh.
Qed.
End medians.

Section feeds.
Context `{FeeSchedule} `{NthElement price_feed_with_icr}.

(** Updating the medians and the current feed keeps the books. *)
Lemma renewed_feed_step a s s' :
  debt_ok s → update_current_feed a false s = Ok s' → feed_step s s'.
Proof.
  intros Hok H1. unfold update_current_feed in H1. apply bind_Ok in H1 as (b & Hb%find_object_Ok & H1).
  pose proof (do_bitassets _ Hok _ _ Hb) as Hw. apply bind_Ok in H1 as (b' & H2 & H1).
  assert (feeds_change b b') as C.
  { unfold update_bitasset_current_feed in H2. apply bind_Ok in H2 as (b1 & C1%update_median_feeds_change & H2).
    apply bind_Ok in H2 as (np & Hp & [= <-]). eapply feeds_change_trans; [exact C1|].
    assert (feeds_change b1 (set_current_feed b1 (median_feed b1))) as C2 by (apply set_current_feed_change; intros i; apply bw_median).
    eapply feeds_change_trans; [exact C2|]. destruct np as [p|]; [|apply feeds_change_refl]. apply set_current_feed_change.
    intros i Hi. change (share_price p). destruct (caps_price _); [|done].
    eapply derived_price_share; [exact Hi|apply Hok|exact Hp]. }
  pose proof (feeds_change_step s a b b' Hok Hb C) as S1. pose proof (bw_method _ _ Hw) as Hm.
  destruct (bsrm b); simpl in H1; (done || by injection H1 as <-).
Qed.

Variable push : virtual_operation → database → result (database * Z).

Lemma modify_feeds_step a f s s' :
  (∀ b b', f b = Ok b' → feeds_change b b') → debt_ok s → modify_bitasset a f s = Ok s' → feed_step s s'.
Proof. intros Hf Hok (b & b' & Hb & H1%Hf & ->)%modify_bitasset_Ok. by eapply feeds_change_step. Qed.

(** Changing the feeds, renewing the medians and calling margins. *)
Lemma feeds_then_calls_keep a f s s1 s2 s3 r :
  (∀ b b', f b = Ok b' → feeds_change b b') → debt_ok s → modify_bitasset a f s = Ok s1 → update_current_feed a false s1 = Ok s2 →
  feed_step s s2 ∧ debt_keeps s s2 ∧ (check_call_orders push a true false false false s2 = Ok (s3, r) → debt_keeps s s3).
Proof.
  intros Hf Hok C1%modify_feeds_step C2%renewed_feed_step; [|apply C1|done..].
  pose proof (feed_step_trans _ _ _ C1 C2) as C. assert (debt_keeps s s2) as K by apply step_keeps, C. do 2 (split; [done|]).
  intros K3%check_call_orders_keeps; [|apply K]. by eapply debt_keeps_trans.
Qed.

(** ** asset_publish_feed *)

Lemma put_feed_elem {A} who (f : A) l x : x ∈ put_feed who f l → x = (who, f) ∨ x ∈ l.
Proof.
  induction l as [|[k g] l IH]; simpl; [by intros ->%list_elem_of_singleton; left|].
  destruct (_ <? _); [intros [->|Hx]%elem_of_cons; [by left|by right]|].
  destruct (_ =? _); intros [->|Hx]%elem_of_cons; try (by left); try (right; by left); [by right; right|].
  destruct (IH Hx) as [->|?]; [by left|by right; right].
Qed.

Definition publish_op_ok (op : asset_publish_feed_operation) : Prop := share_price (pf_settlement_price (ap_feed op)).

Lemma publish_change op now b b' :
  publish_op_ok op →
  Ok (set_feeds b (put_feed (ap_publisher op) (now, make_feed_with_icr (ap_feed op) (ap_initial_collateral_ratio op)) (ba_feeds b))) = Ok b' →
  feeds_change b b'.
Proof.
  intros Hop [= <-]. apply set_feeds_change. rewrite !Forall_forall. intros Hall x [->|Hx]%put_feed_elem; [exact Hop|by apply Hall].
Qed.

Lemma publish_feed_keeps op ctx s s' r :
  publish_op_ok op → debt_ok s → ¬ globally_settled s (ap_asset_id op) →
  asset_publish_feed_do_apply push op ctx s = Ok (s', r) → debt_keeps s s'.
Proof.
  intros Hop Hok Hns Hx. unfold asset_publish_feed_do_apply in Hx. cbv zeta in Hx. apply bind_Ok in Hx as (old & _ & Hx).
  apply bind_Ok in Hx as (s1 & H1 & Hx). apply bind_Ok in Hx as (s2 & H2 & Hx). apply bind_Ok in Hx as (b & Hb%find_object_Ok & Hx).
  pose proof (λ s3 r, feeds_then_calls_keep _ _ _ _ _ s3 r (λ b b', publish_change op (head_time s) b b' Hop) Hok H1 H2) as HK.
  destruct (HK s2 true) as ([_ Hg'] & K2 & _). destruct (_ || _); [by injection Hx as <- _|].
  assert (is_globally_settled b = false) as Hg by (apply not_true_iff_false; intros E; apply Hns, Hg'; by exists b).
  rewrite Hg in Hx. simpl in Hx. apply bind_Ok in Hx as ([s3 r3] & H3 & [= <- _]). by apply (HK s3 r3) in H3.
Qed.

(** ** asset_update_feed_producers *)

Lemma add_publishers_elem ps l x :
  x ∈ fold_left add_publisher ps l → x ∈ l ∨ x.2 = (0, default_feed_with_icr).
Proof.
  revert l. induction ps as [|who ps IH]; intros l; simpl; [by left|]. intros [Hx|Hx]%IH; [|by right].
  unfold add_publisher in Hx. destruct (bool_decide _); [by left|]. apply put_feed_elem in Hx as [->|Hx]; [by right|by left].
Qed.

Lemma producers_change ps b b' : Ok (set_feeds b (replace_publishers ps (ba_feeds b))) = Ok b' → feeds_change b b'.
Proof.
  intros [= <-]. apply set_feeds_change. rewrite !Forall_forall. intros Hall x.
  unfold replace_publishers. intros [[_ Hx]%list_elem_of_filter|E]%add_publishers_elem; [by apply Hall|by rewrite E].
Qed.

Lemma update_producers_keeps op ctx s s' r :
  debt_ok s → asset_update_feed_producers_do_apply push op ctx s = Ok (s', r) → debt_keeps s s'.
Proof.
  intros Hok Hx. unfold asset_update_feed_producers_do_apply in Hx. cbv zeta in Hx.
  apply bind_Ok in Hx as (s1 & H1 & Hx). apply bind_Ok in Hx as (s2 & H2 & Hx). apply bind_Ok in Hx as ([s3 r3] & H3 & [= <- _]).
  by apply (feeds_then_calls_keep _ _ _ _ _ s3 r3 (producers_change _) Hok H1 H2) in H3.
Qed.

(** ** asset_claim_fees *)

Lemma claim_fees_keeps op s0 ctx s s' r :
  asset_claim_fees_do_evaluate op s0 = Ok ctx → after_fee s0 s → debt_ok s →
  asset_claim_fees_do_apply op ctx s = Ok (s', r) → debt_keeps s s'.
Proof.
  intros Hev (d & -> & _) Hok Hx. unfold asset_claim_fees_do_evaluate in Hev. cbv zeta in Hev.
  apply bind_Ok in Hev as ([] & _ & Hev). apply bind_Ok in Hev as (obj & _ & Hev). apply bind_Ok in Hev as ([] & _ & Hev).
  apply bind_Ok in Hev as (ok & Ha & Hev). apply bind_Ok in Hev as ([] & ->%FC_ASSERT_Ok & _).
  set (s := set_mdb d s0) in *. assert (md_bitassets s = md_bitassets s0) as Em by done. clearbody s.
  unfold asset_claim_fees_do_apply in Hx. cbv zeta in Hx. apply bind_Ok in Hx as (s1 & H1 & Hx).
  apply bind_Ok in Hx as (s2 & H2 & [= <- _]). set (x := ac_amount_to_claim op) in *. set (a := container_asset op) in *. clearbody a x.
  apply dynamic_data_step in H1 as (o & o' & Ho & Hm & C1); [|done].
  apply adjust_step in H2 as [C2 _]; [|apply C1]. apply step_keeps. debt_chain. eapply debt_step_ext; [eassumption|..]; intros y; simpl.
  - rewrite Em. unfold can_accumulate_fee, get_bitasset, find_object in Ha. destruct (Z.eqb_spec a (asset_id x)) as [E|E].
    + apply bind_Ok in Hm as (v & [-> _]%share_sub_Ok & [= <-]). unfold dd_delta, dd_held; simpl. rewrite E.
      destruct (md_bitassets s0 !! asset_id x) as [b|]; amt_solve.
    + destruct (Z.eqb_spec (asset_id x) a); [congruence|]. destruct (is_market_issued obj); [|discriminate].
      destruct (md_bitassets s0 !! a) as [b|]; [|done]. injection Ha as Eb. propify.
      apply bind_Ok in Hm as (v & [-> _]%share_sub_Ok & [= <-]).
      unfold dd_delta, dd_held, backing_asset; simpl. rewrite Eb. amt_solve.
  - destruct (_ =? _) in Hm; apply bind_Ok in Hm as (v & _ & [= <-]); simpl; amt_solve.
Qed.

(** ** Expired feeds *)

Lemma cer_step a p s s' :
  debt_ok s → on_db (modify_asset a (λ o, Ok (ao_with_cer p o))) s = Ok s' → debt_step s s' (λ _, 0) (λ _, 0).
Proof.
  intros Hok H1. unfold on_db in H1. apply bind_Ok in H1 as (d & (o & o' & Ho & [= <-] & ->)%modify_asset_Ok & [= <-]).
  split; [|intros x; unfold unbacked, debt_held, ba_held, collateral_fees, holdings, supply; simpl; lia
    |intros i; unfold debt_gap, owed, supply; simpl; lia| |done].
  - destruct Hok as [O1 O2 O3 O4 O6 O5]. split; try done. simpl. eapply mv_ok; [apply moves_assets|done].
    intros j v [[<- <-]|[_ Hl]]%lookup_insert_Some; [right|by left]. intros Hb. by apply (ok_assets _ Hb _ _ Ho).
  - unfold debt_frame, head_time, maint_time. simpl. do 3 f_equal. rewrite fmap_insert. apply insert_id. by rewrite lookup_fmap, Ho.
Qed.

Lemma cer_updated_change b b' : Ok (ba_with_cer_updated b) = Ok b' → feeds_change b b'.
Proof. intros [= <-]. split; try done. intros a []. by split. Qed.

Lemma refresh_cer_step a s s' : debt_ok s → refresh_cer a s = Ok s' → debt_step s s' (λ _, 0) (λ _, 0).
Proof.
  intros Hok Hx. unfold refresh_cer in Hx. apply bind_Ok in Hx as (b & _ & Hx).
  apply bind_Ok in Hx as (s1 & [C1 _]%modify_feeds_step & Hx); [|apply cer_updated_change|done].
  apply bind_Ok in Hx as (obj & _ & Hx). destruct (negb _); [|by injection Hx as <-].
  apply cer_step in Hx; [debt_done|apply C1].
Qed.

Lemma renew_feed_keeps a s s' : debt_ok s → renew_feed push a s = Ok s' → debt_keeps s s'.
Proof.
  intros Hok Hx. unfold renew_feed in Hx. apply bind_Ok in Hx as (old & _ & Hx). apply bind_Ok in Hx as (obj & _ & Hx).
  apply bind_Ok in Hx as (s1 & [C1%step_keeps _]%renewed_feed_step & Hx); [|done]. apply bind_Ok in Hx as (b & _ & Hx). cbv zeta in Hx.
  apply bind_Ok in Hx as (s2 & H2 & Hx).
  assert (debt_keeps s s2) as K2.
  { destruct (_ || _) in H2; [|by injection H2 as <-]. apply bind_Ok in H2 as ([s3 r3] & H3 & [= <-]).
    apply check_call_orders_keeps in H3; [by eapply debt_keeps_trans|apply C1]. }
  apply bind_Ok in Hx as (b2 & _ & Hx). destruct (need_to_update_cer _); [|by injection Hx as <-].
  apply refresh_cer_step in Hx; [|apply K2]. eapply debt_keeps_trans; [done|by apply step_keeps].
Qed.

Lemma expired_round_keeps s st st' r :
  debt_keeps s st.2 → expired_round push st = Ok (st', r) → debt_keeps s st'.2.
Proof.
  intros K H1. destruct st as [itr s1]. simpl in K. unfold expired_round in H1. destruct itr as [a|]; [|by injection H1 as <- _].
  apply bind_Ok in H1 as (b & _ & H1). destruct (negb _); [by injection H1 as <- _|].
  apply bind_Ok in H1 as (s2 & H2 & [= <- _]). simpl. destruct (_ || _); [|by injection H2 as <-].
  apply renew_feed_keeps in H2; [by eapply debt_keeps_trans|apply K].
Qed.

Lemma check_affected_keeps l s s' : debt_ok s → check_affected push l s = Ok s' → debt_keeps s s'.
Proof.
  revert s. induction l as [|a l IH]; intros s Hok H1; simpl in H1; [injection H1 as <-; by apply debt_keeps_refl|].
  apply bind_Ok in H1 as ([s1 r] & K%check_call_orders_keeps & H1); [|done]. eapply debt_keeps_trans; [exact K|]. apply IH; [apply K|done].
Qed.

Lemma update_expired_feeds_keeps s s' : debt_ok s → update_expired_feeds push s = Ok s' → debt_keeps s s'.
Proof.
  intros Hok Hx. unfold update_expired_feeds in Hx. apply bind_Ok in Hx as ([[itr s1] running] & Hw & Hx).
  destruct running; [discriminate|].
  apply (while_pow_ind _ (λ st, debt_keeps s st.2) (λ st, debt_keeps s st.2)) in Hw; [|..|by apply debt_keeps_refl].
  - simpl in Hw. destruct (_ <=? _); [by injection Hx as <-|]. apply check_affected_keeps in Hx; [by eapply debt_keeps_trans|apply Hw].
  - intros st1 st2 K Hr. by eapply expired_round_keeps.
  - intros st1 st2 K Hr. by eapply expired_round_keeps.
Qed.

Lemma update_cers_step fuel s s' : debt_ok s → update_cers fuel s = Ok s' → debt_step s s' (λ _, 0) (λ _, 0).
Proof.
  revert s. induction fuel as [|fuel IH]; intros s Hok H1; simpl in H1; [injection H1 as <-; by apply debt_step_refl|].
  destruct (least_such _ _ _) as [[a b]|]; [|injection H1 as <-; by apply debt_step_refl].
  apply bind_Ok in H1 as (s1 & C1%refresh_cer_step & H1); [|done]. apply IH in H1; [debt_done|apply C1].
Qed.

(** The bitassets whose core exchange rate is behind their feed. *)
Definition cer_behind (s : mdatabase) : gmap asset_id_type asset_bitasset_data_object :=
  filter (λ x, need_to_update_cer x.2 = true) (md_bitassets s).

Lemma refresh_cer_spec a b s s' :
  md_bitassets s !! a = Some b → refresh_cer a s = Ok s' → md_bitassets s' = <[a := ba_with_cer_updated b]> (md_bitassets s).
Proof.
  intros Hb Hx. unfold refresh_cer in Hx. apply bind_Ok in Hx as (b0 & _ & Hx).
  apply bind_Ok in Hx as (s1 & (b1 & b2 & Hb1 & [= <-] & ->)%modify_bitasset_Ok & Hx). rewrite Hb in Hb1. injection Hb1 as <-.
  apply bind_Ok in Hx as (obj & _ & Hx). destruct (negb _); [|by injection Hx as <-].
  unfold on_db in Hx. by apply bind_Ok in Hx as (d & _ & [= <-]).
Qed.

(** One round per bitasset is enough: no core exchange rate is left behind its feed. *)
Lemma update_cers_complete fuel s s' :
  (size (cer_behind s) ≤ fuel)%nat → update_cers fuel s = Ok s' → cer_behind s' = ∅.
Proof.
  revert s. induction fuel as [|fuel IH]; intros s Hn H1; simpl in H1; [injection H1 as <-; apply map_size_empty_inv; lia|].
  destruct (least_such _ _ _) as [[a b]|] eqn:Hl.
  - apply least_such_elem in Hl as [Hb Hneed]. simpl in Hb, Hneed. apply bind_Ok in H1 as (s1 & H2 & H1). apply (IH s1); [|done].
    unfold cer_behind in *. rewrite (refresh_cer_spec _ _ _ _ Hb H2), map_filter_insert_False by done.
    rewrite map_filter_delete, map_size_delete, (proj2 (map_lookup_filter_Some _ _ a b) (conj Hb Hneed)). simpl. lia.
  - injection H1 as <-. apply map_empty. intros a. apply map_lookup_filter_None. right. intros b Hb. simpl.
    apply (least_such_None _ _ _ Hl (a, b)) in Hb. simpl in Hb. by rewrite Hb.
Qed.
End feeds.
