(* ===== verification/Revival.v ===== *)
(** * Revival of a globally settled asset

    [process_bids] turns the settlement fund of a globally settled asset into the collateral of new debt positions: what
    they owe is the supply again. *)
From stdpp Require Import sorting.
From S2P Require Import Prelude MachineInt Hardfork Asset PriceRatio CallOrder CallOrderTheorems PriceFeed ChainState Frames Ledger Sample CreditBooks Balance Fees Evaluator LimitOrder MarketBooks MarketMatching OrderBook DebtState DebtMarket MarginCalls DebtOps SettleOps DebtBooks DebtMatching BlackSwan MarginCallTheorems DebtOpTheorems.


Section bids.
Variables (a : asset_id_type) (b : asset_bitasset_data_object) (supply : share_type).
Hypothesis b_wf : bitasset_wf a b.
Hypothesis price_ok : price_wf (ba_settlement_price b).
Hypothesis price_base : asset_id (base (ba_settlement_price b)) = a.
Hypothesis supply_ok : is_share supply ∧ 0 ≤ supply.
#[local] Notation S0 := (amount (base (ba_settlement_price b))).
#[local] Notation F0 := (amount (quote (ba_settlement_price b))).


End bids.


(** One round per bid is enough: no bid for the asset is left. *)
Lemma cancel_bids_complete fuel a s s' :
  (size (rows (md_bids s)) ≤ fuel)%nat → cancel_bids fuel a s = Ok s' →
  ∀ id x, rows (md_bids s') !! id = Some x → bid_debt_type x ≠ a.
Proof.
  assert (∀ s, least_such bid_before (λ x, bid_debt_type x.2 =? a) (rows (md_bids s)) = None →
    ∀ id x, rows (md_bids s) !! id = Some x → bid_debt_type x ≠ a) as Hnone.
  { intros t Ht id x Hx E. apply (least_such_None _ _ _ Ht (id, x)) in Hx. simpl in Hx. propify. done. }
  revert s. induction fuel as [|fuel IH]; intros s Hn H1; simpl in H1.
  - injection H1 as <-. intros id x Hx. assert (rows (md_bids s) = ∅) as E by (apply map_size_empty_inv; lia). by rewrite E, lookup_empty in Hx.
  - destruct (least_such _ _ _) as [[id x]|] eqn:Hl; [|injection H1 as <-; by apply Hnone].
    apply bind_Ok in H1 as (s1 & H2 & H1). unfold cancel_bid in H2. apply bind_Ok in H2 as (y & Hy%tbl_get_Ok & H2).
    apply bind_Ok in H2 as (s2 & H3 & H2). apply bind_Ok in H2 as (t & (w & Hw & ->)%tbl_remove_Ok & [= <-]).
    eapply IH; [|done]. simpl. apply bind_Ok in H3 as (d & _ & [= <-]). simpl in *. rewrite map_size_delete, Hy. simpl. lia.
Qed.







Section revival.
Context a b o s (Hok : debt_ok s) (Hb : md_bitassets s !! a = Some b) (Hg : is_globally_settled b = true)
  (Howed : owed s a = 0) (Ho : dynamic_data (md_db s) !! a = Some o)
  (Hs : is_share (current_supply o) ∧ 0 ≤ current_supply o)
  (Hp : price_wf (ba_settlement_price b)) (Hf : 0 ≤ settlement_fund b)
  (Hz : current_supply o = 0 → settlement_fund b = 0)
  (Hle : current_supply o * amount (quote (ba_settlement_price b)) ≤ settlement_fund b * amount (base (ba_settlement_price b))).



End revival.


(** C40: an issuer's bid blocks the revival by a feed.  [revive_bitasset] creates a bid in the name of the issuer; if the issuer
    has a bid for the asset already, the index of bids does not admit it, and publishing a feed that would revive the
    asset fails. *)
Theorem issuer_bid_blocks_revival a s obj o id x :
  assets (md_db s) !! a = Some obj → dynamic_data (md_db s) !! a = Some o → 0 < current_supply o →
  rows (md_bids s) !! id = Some x → bid_debt_type x = a → cb_bidder x = ao_issuer obj →
  is_ok (revive_bitasset a s) = false.
Proof.
  intros Ha Ho Hpos Hx Ea Eb. apply not_true_iff_false. intros (s' & Hr)%is_ok_true. unfold revive_bitasset, get_asset, get_dynamic_data, find_object in Hr. rewrite Ha, Ho in Hr. simpl in Hr.
  apply bind_Ok in Hr as ([] & _ & Hr). apply bind_Ok in Hr as (b & _ & Hr). do 3 apply bind_Ok in Hr as ([] & _ & Hr).
  rewrite (proj2 (Z.ltb_lt _ _) Hpos) in Hr. apply bind_Ok in Hr as (s1 & H1 & _). apply bind_Ok in H1 as (p & Hp & H1).
  unfold make_price in Hp. apply bind_Ok in Hp as ([] & _ & [= <-]). apply bind_Ok in H1 as ([i t] & Ht & _).
  unfold tbl_create in Ht. destruct (rows (md_bids s) !! next_id (md_bids s)) eqn:En; [discriminate|].
  apply bind_Ok in Ht as ([] & Hu%FC_ASSERT_Ok & _). apply negb_true_iff, not_true_iff_false in Hu. apply Hu.
  apply bool_decide_eq_true_2. exists id, x. split; [done|]. split; [congruence|].
  unfold conflicts, collateral_bid_indexed, bid_debt_type in *. simpl. by rewrite Ea, Eb, !Z.eqb_refl.
Qed.
