(* ===== verification/DebtTheorems.v ===== *)
(** * The guarantees of the debt markets

    What a global settlement leaves, that no position is under water when [check_for_blackswan] returns, and that margin
    calls, new orders and settlements keep the books. *)
From stdpp Require Import sorting.
From S2P Require Import Prelude MachineInt Hardfork Asset PriceRatio CallOrder CallOrderTheorems PriceFeed PriceFeedTheorems ChainState Frames Ledger Sample CreditBooks Balance Fees Evaluator LimitOrder MarketBooks MarketMatching OrderBook DebtState DebtMarket MarginCalls DebtBooks DebtMatching BlackSwan MarginCallTheorems.

(** ** Global settlement *)

(** All positions of the asset are among those closed. *)
Lemma positions_complete a backing lo hi s id c :
  call_order_wf c → price_min backing a = Ok lo → price_max backing a = Ok hi →
  rows (md_calls s) !! id = Some c → debt_type c = a → collateral_type c = backing →
  id ∈ positions_of collateralization_key lo hi s.
Proof.
  intros Hw Hlo Hhi Hc Ea Eb. pose proof (collateralization_key_wf c Hw) as Hk. destruct Hw as (HC & HD & Hne & _).
  unfold price_min, price_max, make_price in *. apply bind_Ok in Hlo as ([] & _ & [= <-]). apply bind_Ok in Hhi as ([] & _ & [= <-]).
  unfold positions_of. apply list_elem_of_In, in_map_iff. exists (id, c). split; [done|]. apply list_elem_of_In, list_elem_of_filter.
  split; [|unfold call_idx; rewrite merge_sort_Permutation; by apply elem_of_map_to_list].
  apply Is_true_true, andb_true_iff. simpl. subst a backing. unfold GRAPHENE_MAX_SHARE_SUPPLY in *.
  split; apply negb_true_iff, not_true_iff_false; rewrite price_ltb_true; try done; simpl.
  all: unfold collateralization_key; simpl; lia.
Qed.

Section guarantees.
Context `{FeeSchedule} `{NthElement price_feed_with_icr}.

(** C6: a global settlement after hard fork core-1669 leaves no debt. Take a state that satisfies
    [debt_ok] (so no order sells settled debt, no asset settles positions to an order, no order has
    a take-profit action), with well-formed debt positions. If [globally_settle_asset] returns,
    nothing is owed of the asset any more, the price it is settled at from then on is its whole
    supply for the whole fund, the individual settlement fund is empty, and of no asset is anything
    lost or created. *)
Theorem global_settlement_clears_debt a p check_margin_calls s s' :
  debt_ok s → calls_ok (rows (md_calls s)) → HARDFORK_CORE_1669_TIME < maint_time s →
  globally_settle_asset a p check_margin_calls s = Ok s' →
  owed s' a = 0 ∧ (∀ x, unbacked s' x = unbacked s x) ∧
  ∃ b' o, md_bitassets s' !! a = Some b' ∧ dynamic_data (md_db s) !! a = Some o ∧
    ba_settlement_price b' = Price (Asset (current_supply o) a) (Asset (settlement_fund b') (backing_asset b')) ∧
    individual_settlement_fund b' = 0.
Proof.
  intros Hok Hcalls Ht (b & o & v & fund & lo & hi & Hb & Ho & Hlo & Hhi & C & B & K & N)%globally_settle_asset_spec; [|done].
  split_and!; [|intros x; rewrite (ds_books _ _ _ _ C x); lia|].
  2:{ eexists _, o. rewrite B, lookup_insert_eq. done. }
  unfold owed. rewrite B, (msum_insert_old _ _ _ b) by done. simpl.
  assert (msum (λ _ c, amt (debt_type c) (debt c) a) (rows (md_calls s')) = 0) as ->.
  { apply msum_zero. intros id c Hc. destruct (decide (debt_type c = a)) as [E|]; [|amt_solve]. exfalso.
    pose proof (lookup_weaken _ _ _ _ Hc K) as Hc0. destruct (do_calls _ Hok _ _ Hc0) as [_ _ (b0 & Hb0 & Eb)].
    rewrite E, Hb in Hb0. injection Hb0 as <-.
    assert (id ∈ positions_of (settle_key s) lo hi s) as Hid; [|apply N in Hid; congruence].
    unfold settle_key. destruct (Z.leb_spec (maint_time s) HARDFORK_CORE_1669_TIME); [lia|].
    by eapply (positions_complete a (backing_asset b)); [by eapply Hcalls|..]. }
  rewrite (msum_amt_lookup individual_settlement_debt). rewrite Hb. amt_solve.
Qed.

(** ** Black swans *)

(** The position could not buy all its debt back at price [h]: [~collateralization > h]. *)
Definition under_water (h : price) (o : call_order_object) : bool := price_ltb h (price_flip (collateralization_key o)).

(** No position of asset [a] is under water at the price that [check_for_blackswan] compares with. *)
Definition no_black_swan (a : asset_id_type) (bid : option (asset_id_type * price)) (s : mdatabase) : Prop :=
  ∃ b, md_bitassets s !! a = Some b ∧ ∀ id o, position_of b (rows (md_calls s)) id o →
    ∃ h, highest_price b (maint_time s) bid = Ok h ∧ under_water h o = false.

Definition bid_wf (bid : option (asset_id_type * price)) : Prop := ∀ i p, bid = Some (i, p) → price_wf p.

Lemma highest_price_wf a b mt bid h :
  bitasset_wf a b → bid_wf bid → HARDFORK_CORE_1270_TIME < mt → highest_price b mt bid = Ok h → price_wf h.
Proof.
  intros Hb Hbid Hmt H1. unfold highest_price in H1. apply bind_Ok in H1 as (p & Hp & H1).
  assert (price_wf p) as Hpw.
  { rewrite (proj2 (Z.ltb_lt _ _) Hmt) in Hp. destruct (bsrm b); apply price_mul_ratio_wf in Hp; try apply Hp; apply Hb. }
  clear Hp. destruct bid as [[i q]|]; [|by injection H1 as <-]. specialize (Hbid _ _ eq_refl).
  apply bind_Ok in H1 as ([] & _ & H1). unfold std_max in H1.
  destruct (bsrm b); try (destruct (price_ltb _ _); by injection H1 as <-).
  apply bind_Ok in H1 as (m & _ & H1). destruct (negb _); by injection H1 as <-.
Qed.

Lemma best_bid_wf a b s bid : debt_ok s → HARDFORK_CORE_2481_PASSED (maint_time s) = true → best_bid a b s = Ok bid → bid_wf bid.
Proof.
  intros Hok Ht H1. unfold best_bid in H1. cbv zeta in H1. apply bind_Ok in H1 as (hp & _ & H1).
  apply bind_Ok in H1 as (lp & _ & H1). apply bind_Ok in H1 as ([] & _ & H1).
  destruct (bool_decide _); [by injection H1 as <-|]. destruct (lower_bound _ _) as [id|]; [|discriminate].
  apply bind_Ok in H1 as (o & Ho%tbl_get_Ok & H1). destruct (get_margin_call_pays_ratio b) as [n dn]. rewrite Ht in H1.
  apply bind_Ok in H1 as (p & Hp%price_mul_ratio_wf & [= <-]);
    [|eapply wf_share, oo_price, (ok_orders _ (do_books _ Hok)), Ho].
  intros i q [= _ <-]. apply Hp.
Qed.

Lemma frame_maint s s' : debt_frame s' = debt_frame s → maint_time s' = maint_time s.
Proof. unfold debt_frame. congruence. Qed.

(** If the position with the least collateral is not under water, none is. *)
Lemma least_pays m o h :
  call_order_wf m → call_order_wf o → price_wf h → debt_type m = debt_type o → collateral_type m = collateral_type o →
  collateral m * debt o ≤ collateral o * debt m → under_water h m = false → under_water h o = false.
Proof.
  intros Hm Ho Hh Ed Ec Hle Hlt. pose proof (price_flip_wf _ (collateralization_key_wf m Hm)) as Hkm.
  pose proof (price_flip_wf _ (collateralization_key_wf o Ho)) as Hko.
  apply (price_ge_trans h _ _ Hh Hkm Hko Hlt). apply not_true_iff_false. rewrite price_ltb_true by done.
  unfold collateralization_key. simpl. rewrite Ed, Ec. lia.
Qed.

Lemma least_is_enough a b s h bid id m :
  debt_ok s → calls_ok (rows (md_calls s)) → md_bitassets s !! a = Some b → bid_wf bid → HARDFORK_CORE_1270_TIME < maint_time s →
  find_least_collateralized_short (rows (md_calls s)) (maint_time s) b true = Ok (Some (id, m)) →
  highest_price b (maint_time s) bid = Ok h → under_water h m = false → no_black_swan a bid s.
Proof.
  intros Hok Hcalls Hb Hbid Ht Hl Hh Hm. pose proof (do_bitassets _ Hok _ _ Hb) as Hw.
  exists b. split; [done|]. intros i o Ho. exists h. split; [done|].
  assert (short_backing_asset (ba_options b) ≠ ba_asset_id b) as Hne by (rewrite (bw_id _ _ Hw); apply Hw).
  pose proof (find_least_returns _ b (maint_time s) Hcalls Hne) as Hr. rewrite Hl in Hr. destruct Hr as [_ Hr].
  destruct (Hr i o Ho) as (i' & m' & [= <- <-] & (Hm1 & E1 & E2) & Hle). destruct Ho as (Ho1 & E3 & E4).
  eapply (least_pays m); [by eapply Hcalls..| |congruence|congruence|done|done]. by eapply highest_price_wf.
Qed.

Lemma none_is_enough a b s bid :
  debt_ok s → calls_ok (rows (md_calls s)) → md_bitassets s !! a = Some b →
  find_least_collateralized_short (rows (md_calls s)) (maint_time s) b true = Ok None → no_black_swan a bid s.
Proof.
  intros Hok Hcalls Hb Hl. pose proof (do_bitassets _ Hok _ _ Hb) as Hw. exists b. split; [done|]. intros i o Ho.
  assert (short_backing_asset (ba_options b) ≠ ba_asset_id b) as Hne by (rewrite (bw_id _ _ Hw); apply Hw).
  pose proof (find_least_returns _ b (maint_time s) Hcalls Hne) as Hr. rewrite Hl in Hr. destruct Hr as [_ Hr].
  by destruct (Hr i o Ho) as (? & ? & ? & _).
Qed.

Lemma calls_ok_subset m m' : m' ⊆ m → calls_ok m → calls_ok m'.
Proof. intros Hs Hm id o Ho. by eapply Hm, lookup_weaken. Qed.

Lemma blackswan_loop_clears fuel a bid call settled s s' r b :
  debt_ok s → calls_ok (rows (md_calls s)) → HARDFORK_CORE_2481_PASSED (maint_time s) = true → bid_wf bid →
  md_bitassets s !! a = Some b → find_least_collateralized_short (rows (md_calls s)) (maint_time s) b true = Ok (Some call) →
  blackswan_loop fuel a true bid call settled s = Ok (s', r) → globally_settled s' a ∨ no_black_swan a bid s'.
Proof.
  revert call settled s b. induction fuel as [|fuel IH]; intros [id m] settled s b Hok Hcalls Ht Hbid Hb Hl H1; simpl in H1;
    unfold get_bitasset, find_object in H1; rewrite Hb in H1; simpl in H1;
    apply bind_Ok in H1 as (h & Hh & H1); apply bind_Ok in H1 as (lc & [-> _]%collateralization_Ok & H1); rewrite Ht in H1.
  all: change (Price (get_collateral m) (get_debt m)) with (collateralization_key m) in H1.
  all: assert (HARDFORK_CORE_1270_TIME < maint_time s) as Ht' by
    (unfold HARDFORK_CORE_2481_PASSED, HARDFORK_CORE_1270_TIME in *; propify; lia).
  all: destruct (price_ltb h (price_flip (collateralization_key m))) eqn:Hsw; simpl in H1.
  2,4: injection H1 as <- _; right; by eapply least_is_enough.
  all: destruct (is_individual (bsrm b)) eqn:Hi.
  2,4: apply bind_Ok in H1 as (s1 & [_ Hg]%globally_settle_asset_keeps & [= <- _]); [|done]; by left.
  all: apply bind_Ok in H1 as (s1 & [C1 [K1 _]]%individually_settle_step & H1); [|done].
  all: apply bind_Ok in H1 as (b1 & Hb1 & H1); apply bind_Ok in H1 as ([c|] & Hl1 & H1).
  all: pose proof (frame_maint _ _ (ds_frame _ _ _ _ C1)) as Em; apply find_object_Ok in Hb1.
  - discriminate.
  - injection H1 as <- _. right. eapply none_is_enough; [apply C1|by eapply calls_ok_subset|done..].
  - eapply IH in H1; [done|apply C1|by eapply calls_ok_subset|by rewrite Em|done..].
  - injection H1 as <- _. right. eapply none_is_enough; [apply C1|by eapply calls_ok_subset|done..].
Qed.

(** C5: no black swan is left. Take a state after hard fork core-2481 that satisfies [debt_ok] (in
    particular no asset has the response individual_settlement_to_order, and no order sells settled
    debt or has a take-profit action), with well-formed debt positions, and a market-issued asset
    with a current feed and no pending force-settlement, for which the best bid on its debt can be
    determined. When [check_for_blackswan], with black swan processing enabled, returns, the asset
    is globally settled, or no debt position of it is under water at [highest_price], the price the
    check compares with: each could buy back its debt with its collateral. *)
Theorem no_black_swan_left a obj b bid s s' r :
  debt_ok s → calls_ok (rows (md_calls s)) → HARDFORK_CORE_2481_PASSED (maint_time s) = true →
  assets (md_db s) !! a = Some obj → is_market_issued obj = true → md_bitassets s !! a = Some b →
  price_is_null (settlement_price (current_feed b)) = false → first_settlement a s = None → best_bid a b s = Ok bid →
  check_for_blackswan a true s = Ok (s', r) →
  globally_settled s' a ∨ no_black_swan a bid s'.
Proof.
  intros Hok Hcalls Ht Ha Hm Hb Hf Hs Hbid H1. unfold check_for_blackswan, get_asset, get_bitasset, find_object in H1.
  rewrite Ha, Hb in H1. simpl in H1. rewrite Hm in H1. simpl in H1.
  destruct (is_globally_settled b) eqn:Hg; [injection H1 as <- _; left; by exists b|]. rewrite Hf, Hs, Ht in H1. simpl in H1.
  apply bind_Ok in H1 as (call & Hc & H1).
  assert (find_least_collateralized_short (rows (md_calls s)) (maint_time s) b true = Ok call) as Hl.
  { rewrite <- Hc. unfold find_least_collateralized_short. by rewrite (proj2 (Z.ltb_lt HARDFORK_CORE_1270_TIME (maint_time s)))
      by (unfold HARDFORK_CORE_2481_PASSED, HARDFORK_CORE_1270_TIME in *; propify; lia). }
  destruct call as [call|]; [|injection H1 as <- _; right; by eapply none_is_enough].
  rewrite Hbid in H1. simpl in H1. eapply blackswan_loop_clears; [done..| |done|done|done]. by eapply best_bid_wf.
Qed.
End guarantees.
