(* ===== verification/DebtHistory.v ===== *)
(** * Histories of the debt markets

    The evaluators of the debt operations fulfil [DebtLaws], so every sequence of operations on debt, new orders, margin
    calls and settlements keeps the books; where no asset is backed by debt, the markets are those of LimitOrder.v. *)
From stdpp Require Import sorting relations.
From S2P Require Import Prelude MachineInt Hardfork Asset PriceRatio CallOrder CallOrderTheorems PriceFeed PriceFeedTheorems ChainState Frames Ledger Sample CreditBooks Balance Fees Evaluator LimitOrder MarketBooks MarketMatching OrderBook MarketTheorems DebtState DebtMarket MarginCalls DebtOps SettleOps FeedOps DebtBooks DebtSample DebtMatching BlackSwan MarginCallTheorems DebtOpTheorems FeedOpTheorems Revival DebtTheorems.

#[local] Opaque while_pow.

Section histories.
Context `{FeeSchedule} `{NthElement price_feed_with_icr}.
Variable push : virtual_operation → database → result (database * Z).

(** ** The evaluators are lawful *)

#[local] Existing Instances bid_collateral_evaluator asset_global_settle_evaluator asset_claim_fees_evaluator.
#[local] Instance call_order_update_evaluates : DebtEvaluator call_order_update_operation := call_order_update_evaluator push.
#[local] Instance asset_settle_evaluates : DebtEvaluator asset_settle_operation := asset_settle_evaluator push.
#[local] Instance publish_feed_evaluates : DebtEvaluator asset_publish_feed_operation := asset_publish_feeds_evaluator push.
#[local] Instance update_producers_evaluates : DebtEvaluator asset_update_feed_producers_operation :=
  asset_update_feed_producers_evaluator push.

#[local, refine] Instance call_order_update_laws : DebtLaws call_order_update_operation := {| de_op_ok op _ := call_update_op_ok op |}.
Proof. intros op s0 ctx s s' r Hop _. by apply call_order_update_keeps. Defined.
#[local, refine] Instance bid_collateral_laws : DebtLaws bid_collateral_operation := {| de_op_ok op _ := bid_op_ok op |}.
Proof. exact bid_collateral_keeps. Defined.
#[local, refine] Instance asset_global_settle_laws : DebtLaws asset_global_settle_operation := {| de_op_ok _ _ := True |}.
Proof. intros op s0 ctx s s' r _ _ _ _. by apply asset_global_settle_keeps. Defined.
#[local, refine] Instance asset_settle_laws : DebtLaws asset_settle_operation := {| de_op_ok op _ := settle_op_ok op |}.
Proof. intros op s0 ctx s s' r Hop Hv _ _. by apply asset_settle_keeps. Defined.
(** A feed of an asset that is globally settled may revive it, see Revival.v. *)
#[local, refine] Instance publish_feed_laws : DebtLaws asset_publish_feed_operation :=
  {| de_op_ok op s := publish_op_ok op ∧ ¬ globally_settled s (ap_asset_id op) |}.
Proof. intros op s0 ctx s s' r [Hop Hns] _ _ (d & -> & _) Hok. by apply publish_feed_keeps. Defined.
#[local, refine] Instance update_producers_laws : DebtLaws asset_update_feed_producers_operation := {| de_op_ok _ _ := True |}.
Proof. intros op s0 ctx s s' r _ _ _ _. by apply update_producers_keeps. Defined.
#[local, refine] Instance claim_fees_laws : DebtLaws asset_claim_fees_operation := {| de_op_ok _ _ := True |}.
Proof. intros op s0 ctx s s' r _ _. by apply claim_fees_keeps. Defined.

(** ** Histories *)

(** An operation whose amounts are shares is validated and evaluated. *)
Definition evaluates `{DebtLaws Op} (s s' : mdatabase) : Prop :=
  ∃ (required_fee : Op → share_type) skip op r,
    de_op_ok op s ∧ de_validate op = Ok () ∧ start_debt_evaluate required_fee skip op s = Ok (s', r).

(** What happens in the debt markets. *)
Inductive debt_event (s s' : mdatabase) : Prop :=
| event_call_order_update : evaluates (Op := call_order_update_operation) s s' → debt_event s s'
| event_bid_collateral : evaluates (Op := bid_collateral_operation) s s' → debt_event s s'
| event_asset_global_settle : evaluates (Op := asset_global_settle_operation) s s' → debt_event s s'
| event_asset_settle : evaluates (Op := asset_settle_operation) s s' → debt_event s s'
| event_publish_feed : evaluates (Op := asset_publish_feed_operation) s s' → debt_event s s'
| event_update_feed_producers : evaluates (Op := asset_update_feed_producers_operation) s s' → debt_event s s'
| event_claim_fees : evaluates (Op := asset_claim_fees_operation) s s' → debt_event s s'
| event_new_order id gone : apply_order push id s = Ok (s', gone) → debt_event s s'
| event_margin_calls a enable new mute skip r : check_call_orders push a enable new mute skip s = Ok (s', r) → debt_event s s'
| event_settlements : clear_expired_force_settlements s = Ok s' → debt_event s s'
| event_expired_feeds : update_expired_feeds push s = Ok s' → debt_event s s'
| event_exchange_rates : update_core_exchange_rates s = Ok s' → debt_event s s'.

Lemma evaluates_keeps `{DebtLaws Op} s s' : debt_ok s → evaluates s s' → debt_keeps s s'.
Proof. intros Hok (fee & skip & op & r & Hop & Hv & Hx). by eapply start_debt_evaluate_keeps. Qed.

Lemma debt_event_keeps s s' :
  debt_ok s → HARDFORK_CORE_1270_TIME < maint_time s → debt_event s s' → debt_keeps s s'.
Proof.
  intros Hok Ht [He|He|He|He|He|He|He|id gone He|a enable new mute skip r He|He|He|He]; try by eapply evaluates_keeps in He.
  - by eapply apply_order_debt_keeps.
  - by eapply check_call_orders_keeps.
  - eapply clear_expired_keeps; [done| |done]. unfold HARDFORK_CORE_342_TIME, HARDFORK_CORE_1270_TIME in *. lia.
  - by eapply update_expired_feeds_keeps.
  - by eapply step_keeps, update_cers_step.
Qed.

(** C4: the debt markets keep the books. Take a state after hard fork core-1270 that satisfies
    [debt_ok], that is, which is well formed and in which no asset has the black swan response
    individual_settlement_to_order, no order sells settled debt, and no limit order has a
    take-profit action. Then every sequence of operations on debt with their fees and with amounts
    that are shares (updating positions, bidding, global and forced settlement, claiming fees,
    replacing publishers, publishing feeds of assets that are not globally settled), matching of new
    orders against orders and margin calls, margin calls with black swans, due settlements, expired
    feeds and updates of exchange rates leads to a state that satisfies [debt_ok]; what is held of
    every asset beyond its supply is unchanged, and so is what is owed of it beyond its supply
    unless it has been globally settled, which stays so. *)
Theorem debt_markets_keep_books s s' :
  debt_ok s → HARDFORK_CORE_1270_TIME < maint_time s → rtc debt_event s s' →
  debt_ok s' ∧ (∀ x, unbacked s' x = unbacked s x) ∧ (∀ a, debt_gap s' a = debt_gap s a ∨ globally_settled s' a) ∧
  (∀ a, globally_settled s a → globally_settled s' a).
Proof.
  intros Hok Ht Hr. assert (debt_keeps s s') as [? ? ? _ ?]; [|done]. revert Hok Ht.
  induction Hr as [s|s1 s2 s3 He _ IH]; intros Hok Ht; [by apply debt_keeps_refl|].
  apply debt_event_keeps in He as K; [|done..].
  eapply debt_keeps_trans; [exact K|]. apply IH; [apply K|]. by rewrite (frame_maint _ _ (dk_frame _ _ K)).
Qed.

(** ** Markets without debt *)

(** C8: markets without debt.  Where the asset sold is not issued by the market and no order sells settled debt, a new order
    is matched exactly as if there were no debt markets, and nothing of their state changes. *)
Theorem plain_order_refines id s o obj :
  md_settled_debt s = ∅ → rows (limit_orders (md_db s)) !! id = Some o →
  assets (md_db s) !! sell_asset_id o = Some obj → is_market_issued obj = false →
  apply_order push id s = ('(d, gone) ← LimitOrder.apply_order push id (md_db s); Ok (set_mdb d s, gone)).
Proof. apply apply_order_plain. Qed.
End histories.

(** ** Witnesses *)

#[local] Instance sample_debt_fees : FeeSchedule := {| create_fee _ := 0; update_fee _ := 0; cancel_fee _ := 0 |}.

(** Account 100 borrows, margin calls are matched, the settlement that is due is executed. *)
Definition sample_history : result (mdatabase * mdatabase * mdatabase) :=
  '(s1, _) ← start_debt_evaluate (H := call_order_update_evaluator push_virtual) (λ _, 0) false
    (CallOrderUpdateOperation zero_asset 100 (Asset 4000 0) (Asset 1000 3) None) sample_debt_state;
  '(s2, _) ← check_call_orders push_virtual 3 true false false false s1;
  s3 ← clear_expired_force_settlements s2;
  Ok (s1, s2, s3).

Lemma debt_markets_keep_books_witness : ∃ s1 s2 s3,
  sample_history = Ok (s1, s2, s3) ∧
  (∀ x, unbacked s3 x = unbacked sample_debt_state x) ∧ (debt_gap s3 3 = debt_gap sample_debt_state 3 ∨ globally_settled s3 3).
Proof.
  assert (is_ok sample_history = true) as ([[s1 s2] s3] & Hx)%is_ok_true by (vm_compute; reflexivity).
  exists s1, s2, s3. split; [exact Hx|]. unfold sample_history in Hx.
  apply bind_Ok in Hx as ([t1 r1] & E1 & Hx). apply bind_Ok in Hx as ([t2 r2] & E2 & Hx).
  apply bind_Ok in Hx as (t3 & E3 & [= <- <- <-]).
  assert (rtc (debt_event push_virtual) sample_debt_state t3) as Hr.
  { eapply rtc_l; [|eapply rtc_l; [|eapply rtc_once]].
    - apply event_call_order_update. eexists _, _, _, _. split; [|split; [|exact E1]]; vm_compute; repeat split; discriminate.
    - eapply event_margin_calls, E2.
    - apply event_settlements, E3. }
  destruct (debt_markets_keep_books push_virtual sample_debt_state t3 sample_debt_ok ltac:(vm_compute; reflexivity) Hr)
    as (_ & Hu & Hg & _).
  split; [exact Hu|exact (Hg 3)].
Defined.

(** An order of a market without debt. *)
Definition sample_plain_state : mdatabase := MDatabase sample_market_db ∅ empty_table empty_table empty_table ∅ ∅.

Lemma plain_order_refines_witness :
  is_ok (apply_order push_virtual 1 sample_plain_state) = true ∧
  apply_order push_virtual 1 sample_plain_state =
    ('(d, gone) ← LimitOrder.apply_order push_virtual 1 sample_market_db; Ok (set_mdb d sample_plain_state, gone)).
Proof.
  split; [vm_compute; reflexivity|].
  eapply (plain_order_refines push_virtual 1 sample_plain_state);
    [reflexivity|vm_compute; reflexivity|vm_compute; reflexivity|vm_compute; reflexivity].
Defined.

Lemma sample_calls_ok : calls_ok (rows (md_calls sample_debt_state)).
Proof.
  intros id c. simpl. rewrite lookup_insert_Some. intros [[_ <-]|[_ [_ <-]%lookup_singleton_Some]]; done.
Qed.

Lemma global_settlement_clears_debt_witness : ∃ s',
  globally_settle_asset 3 (Price (Asset 1 3) (Asset 1 0)) true sample_debt_state = Ok s' ∧
  owed s' 3 = 0 ∧ (∀ x, unbacked s' x = unbacked sample_debt_state x).
Proof.
  assert (is_ok (globally_settle_asset 3 (Price (Asset 1 3) (Asset 1 0)) true sample_debt_state) = true) as (s' & Hx)%is_ok_true
    by (vm_compute; reflexivity).
  exists s'. split; [exact Hx|].
  destruct (global_settlement_clears_debt 3 (Price (Asset 1 3) (Asset 1 0)) true sample_debt_state s' sample_debt_ok sample_calls_ok
    ltac:(vm_compute; reflexivity) Hx) as (Ho & Hu & _).
  split; [exact Ho|exact Hu].
Defined.

(** The market without the settlement order. *)
Definition sample_unsettled_state : mdatabase := set_settlements empty_table sample_debt_state.

Lemma sample_unsettled_ok : debt_ok sample_unsettled_state.
Proof. destruct sample_debt_ok as [H1 H2 H3 H4 H5 H6]. split; [exact H1|exact H2|exact H3|apply rows_ok_empty|exact H5|exact H6]. Qed.

Lemma no_black_swan_left_witness : ∃ bid s' r,
  best_bid 3 (sample_debt_bitasset null_price 0) sample_unsettled_state = Ok bid ∧
  check_for_blackswan 3 true sample_unsettled_state = Ok (s', r) ∧
  (globally_settled s' 3 ∨ no_black_swan 3 bid s').
Proof.
  assert (is_ok (best_bid 3 (sample_debt_bitasset null_price 0) sample_unsettled_state) = true) as (bid & Hb)%is_ok_true
    by (vm_compute; reflexivity).
  assert (is_ok (check_for_blackswan 3 true sample_unsettled_state) = true) as ([s' r] & Hx)%is_ok_true
    by (vm_compute; reflexivity).
  exists bid, s', r. split; [exact Hb|split; [exact Hx|]].
  eapply (no_black_swan_left 3 _ (sample_debt_bitasset null_price 0) bid sample_unsettled_state s' r sample_unsettled_ok sample_calls_ok);
    [..|exact Hb|exact Hx]; vm_compute; reflexivity.
Defined.


(** The issuer has a bid for the asset. *)
Definition sample_issuer_bid_state : mdatabase :=
  set_bids (Table 1 {[ 0 := CollateralBid 100 (Price (Asset 2500 0) (Asset 2000 3)) ]}) sample_settled_state.

Lemma issuer_bid_blocks_revival_witness :
  is_ok (revive_bitasset 3 sample_settled_state) = true ∧ is_ok (revive_bitasset 3 sample_issuer_bid_state) = false.
Proof.
  split; [vm_compute; reflexivity|].
  eapply (issuer_bid_blocks_revival 3 sample_issuer_bid_state _ _ 0);
    [vm_compute; reflexivity|vm_compute; reflexivity|vm_compute; reflexivity|vm_compute; reflexivity
    |vm_compute; reflexivity|vm_compute; reflexivity].
Defined.
