(* ===== verification/Transaction.v ===== *)
(** * Transactions

    The operation variant, [database::apply_operation] and [database::_apply_transaction] of
    libraries/chain/db_block.cpp, [transaction::validate] of libraries/protocol/transaction.cpp,
    and the chain of states that transactions and the modelled block-end processing run through.

    Parameters: the hash functions, the fee schedule's [required_fee], the recovery of public keys
    from signatures and the addresses of keys, the viable custom authorities, the transaction
    digest [trx_id] and the serialized size [packed_size]. *)
From S2P Require Import Prelude MachineInt Hardfork Asset Authority AuthorityTheorems Vesting ChainState Ledger CreditBooks Balance Fees Evaluator Sample VestingEval Transfer AssetOps LiquidityPool SametFund CreditOffer CreditTheorems WithdrawPermission Htlc Ticket LimitOrder MarketBooks MarketMatching OrderBook MarketTheorems.

(** ** Operations *)

(** The alternatives of [operation] that are modelled. *)
Inductive operation :=
  | op_transfer (op : transfer_operation)
  | op_limit_order_create (op : limit_order_create_operation)
  | op_limit_order_update (op : limit_order_update_operation)
  | op_limit_order_cancel (op : limit_order_cancel_operation)
  | op_override_transfer (op : override_transfer_operation)
  | op_asset_issue (op : asset_issue_operation)
  | op_asset_reserve (op : asset_reserve_operation)
  | op_asset_fund_fee_pool (op : asset_fund_fee_pool_operation)
  | op_asset_claim_pool (op : asset_claim_pool_operation)
  | op_vesting_balance_create (op : vesting_balance_create_operation)
  | op_vesting_balance_withdraw (op : vesting_balance_withdraw_operation)
  | op_withdraw_permission_create (op : withdraw_permission_create_operation)
  | op_withdraw_permission_update (op : withdraw_permission_update_operation)
  | op_withdraw_permission_claim (op : withdraw_permission_claim_operation)
  | op_withdraw_permission_delete (op : withdraw_permission_delete_operation)
  | op_htlc_create (op : htlc_create_operation)
  | op_htlc_redeem (op : htlc_redeem_operation)
  | op_htlc_extend (op : htlc_extend_operation)
  | op_ticket_create (op : ticket_create_operation)
  | op_ticket_update (op : ticket_update_operation)
  | op_liquidity_pool_create (op : liquidity_pool_create_operation)
  | op_liquidity_pool_delete (op : liquidity_pool_delete_operation)
  | op_liquidity_pool_deposit (op : liquidity_pool_deposit_operation)
  | op_liquidity_pool_withdraw (op : liquidity_pool_withdraw_operation)
  | op_liquidity_pool_exchange (op : liquidity_pool_exchange_operation)
  | op_liquidity_pool_update (op : liquidity_pool_update_operation)
  | op_samet_fund_create (op : samet_fund_create_operation)
  | op_samet_fund_delete (op : samet_fund_delete_operation)
  | op_samet_fund_update (op : samet_fund_update_operation)
  | op_samet_fund_borrow (op : samet_fund_borrow_operation)
  | op_samet_fund_repay (op : samet_fund_repay_operation)
  | op_credit_offer_create (op : credit_offer_create_operation)
  | op_credit_offer_delete (op : credit_offer_delete_operation)
  | op_credit_offer_update (op : credit_offer_update_operation)
  | op_credit_offer_accept (op : credit_offer_accept_operation)
  | op_credit_deal_repay (op : credit_deal_repay_operation)
  | op_credit_deal_update (op : credit_deal_update_operation).

Record skip_flags := SkipFlags {
  skip_transaction_signatures : bool;
  skip_transaction_dupe_check : bool;
  skip_block_size_check : bool;
  skip_tapos_check : bool }.

Record signed_transaction := SignedTransaction {
  ref_block_num : Z;
  ref_block_prefix : Z;
  expiration : Z;
  operations : list operation;
  signatures : list Z }.

(** What [_apply_transaction] reads and writes besides the objects: the block summaries' hash
    words, the ids in the transaction index, and the parameters on transactions. *)
Record trx_context := TrxContext {
  head_block_num : Z;
  block_summaries : gmap Z Z;
  transaction_ids : gset Z;
  maximum_time_until_expiration : Z;
  maximum_transaction_size : Z }.

Section transactions.
Context `{HashFunctions} `{KeyAddresses}.
Variable required_fee : operation → share_type.
(** The key a signature of the transaction recovers to; may throw. *)
Variable recover : signed_transaction → Z → result public_key_type.
(** [get_viable_custom_authorities]. *)
Variable viable_custom : database → account_id_type → operation → list authority.
Variable trx_id : signed_transaction → Z.
Variable packed_size : signed_transaction → Z.

(** The fees of the limit-order operations, which are also charged by automatic actions and
    when an order is cancelled. *)
#[local] Instance market_fees : FeeSchedule := {|
  create_fee op := required_fee (op_limit_order_create op);
  update_fee op := required_fee (op_limit_order_update op);
  cancel_fee op := required_fee (op_limit_order_cancel op) |}.

Definition operation_validate (o : operation) : result unit :=
  match o with
  | op_transfer op => validate op
  | op_limit_order_create op => limit_order_create_validate op
  | op_limit_order_update op => limit_order_update_validate op
  | op_limit_order_cancel op => validate op
  | op_override_transfer op => validate op
  | op_asset_issue op => validate op
  | op_asset_reserve op => validate op
  | op_asset_fund_fee_pool op => validate op
  | op_asset_claim_pool op => validate op
  | op_vesting_balance_create op => validate op
  | op_vesting_balance_withdraw op => validate op
  | op_withdraw_permission_create op => validate op
  | op_withdraw_permission_update op => validate op
  | op_withdraw_permission_claim op => validate op
  | op_withdraw_permission_delete op => validate op
  | op_htlc_create op => validate op
  | op_htlc_redeem op => validate op
  | op_htlc_extend op => validate op
  | op_ticket_create op => validate op
  | op_ticket_update op => validate op
  | op_liquidity_pool_create op => validate op
  | op_liquidity_pool_delete op => validate op
  | op_liquidity_pool_deposit op => validate op
  | op_liquidity_pool_withdraw op => validate op
  | op_liquidity_pool_exchange op => validate op
  | op_liquidity_pool_update op => validate op
  | op_samet_fund_create op => validate op
  | op_samet_fund_delete op => validate op
  | op_samet_fund_update op => validate op
  | op_samet_fund_borrow op => validate op
  | op_samet_fund_repay op => validate op
  | op_credit_offer_create op => validate op
  | op_credit_offer_delete op => validate op
  | op_credit_offer_update op => validate op
  | op_credit_offer_accept op => validate op
  | op_credit_deal_repay op => validate op
  | op_credit_deal_update op => validate op
  end.

Definition operation_fee_payer (o : operation) : account_id_type :=
  match o with
  | op_transfer op => fee_payer op
  | op_limit_order_create op => loc_seller op
  | op_limit_order_update op => lou_seller op
  | op_limit_order_cancel op => fee_payer op
  | op_override_transfer op => fee_payer op
  | op_asset_issue op => fee_payer op
  | op_asset_reserve op => fee_payer op
  | op_asset_fund_fee_pool op => fee_payer op
  | op_asset_claim_pool op => fee_payer op
  | op_vesting_balance_create op => fee_payer op
  | op_vesting_balance_withdraw op => fee_payer op
  | op_withdraw_permission_create op => fee_payer op
  | op_withdraw_permission_update op => fee_payer op
  | op_withdraw_permission_claim op => fee_payer op
  | op_withdraw_permission_delete op => fee_payer op
  | op_htlc_create op => fee_payer op
  | op_htlc_redeem op => fee_payer op
  | op_htlc_extend op => fee_payer op
  | op_ticket_create op => fee_payer op
  | op_ticket_update op => fee_payer op
  | op_liquidity_pool_create op => fee_payer op
  | op_liquidity_pool_delete op => fee_payer op
  | op_liquidity_pool_deposit op => fee_payer op
  | op_liquidity_pool_withdraw op => fee_payer op
  | op_liquidity_pool_exchange op => fee_payer op
  | op_liquidity_pool_update op => fee_payer op
  | op_samet_fund_create op => fee_payer op
  | op_samet_fund_delete op => fee_payer op
  | op_samet_fund_update op => fee_payer op
  | op_samet_fund_borrow op => fee_payer op
  | op_samet_fund_repay op => fee_payer op
  | op_credit_offer_create op => fee_payer op
  | op_credit_offer_delete op => fee_payer op
  | op_credit_offer_update op => fee_payer op
  | op_credit_offer_accept op => fee_payer op
  | op_credit_deal_repay op => fee_payer op
  | op_credit_deal_update op => fee_payer op
  end.

(** The fee payer's active authority; none of the modelled operations asks for more. *)
Definition operation_get_required_authorities (o : operation)
    : gset account_id_type * gset account_id_type * list authority :=
  ({[ operation_fee_payer o ]}, ∅, []).

Definition get_active (d : database) (id : account_id_type) : result (option authority) :=
  a ← get_account d id; Ok (Some (acc_active a)).
Definition get_owner (d : database) (id : account_id_type) : result (option authority) :=
  a ← get_account d id; Ok (Some (acc_owner a)).

(** [signed_transaction::verify_authority] as [_apply_transaction] calls it. *)
Definition trx_verify_authority (trx : signed_transaction) (d : database) : result unit :=
  sigs ← get_signature_keys (recover trx) (signatures trx) ∅;
  verify_authority operation_get_required_authorities (get_active d) (get_owner d) (viable_custom d)
    (HARDFORK_CORE_584_TIME <=? head_block_time d) (Z.to_nat (max_authority_depth (parameters d)))
    (operations trx) sigs false ∅ ∅.

(** [push] pushes the virtual operations of take-profit actions. *)
Definition apply_operation (push : virtual_operation → database → result (database * Z))
    (skip_fee_schedule_check : bool) (o : operation) (d : database)
    : result (database * operation_result) :=
  match o with
  | op_transfer op => start_evaluate (λ op, required_fee (op_transfer op)) skip_fee_schedule_check op d
  | op_limit_order_create op =>
    '(d, id) ← evaluate_limit_order_create push skip_fee_schedule_check op d;
    Ok (d, object_id_result (kind_limit_order, id))
  | op_limit_order_update op =>
    d ← evaluate_limit_order_update push skip_fee_schedule_check false op d; Ok (d, void_result)
  | op_limit_order_cancel op => start_evaluate (λ op, required_fee (op_limit_order_cancel op)) skip_fee_schedule_check op d
  | op_override_transfer op => start_evaluate (λ op, required_fee (op_override_transfer op)) skip_fee_schedule_check op d
  | op_asset_issue op => start_evaluate (λ op, required_fee (op_asset_issue op)) skip_fee_schedule_check op d
  | op_asset_reserve op => start_evaluate (λ op, required_fee (op_asset_reserve op)) skip_fee_schedule_check op d
  | op_asset_fund_fee_pool op => start_evaluate (λ op, required_fee (op_asset_fund_fee_pool op)) skip_fee_schedule_check op d
  | op_asset_claim_pool op => start_evaluate (λ op, required_fee (op_asset_claim_pool op)) skip_fee_schedule_check op d
  | op_vesting_balance_create op => start_evaluate (λ op, required_fee (op_vesting_balance_create op)) skip_fee_schedule_check op d
  | op_vesting_balance_withdraw op => start_evaluate (λ op, required_fee (op_vesting_balance_withdraw op)) skip_fee_schedule_check op d
  | op_withdraw_permission_create op => start_evaluate (λ op, required_fee (op_withdraw_permission_create op)) skip_fee_schedule_check op d
  | op_withdraw_permission_update op => start_evaluate (λ op, required_fee (op_withdraw_permission_update op)) skip_fee_schedule_check op d
  | op_withdraw_permission_claim op => start_evaluate (λ op, required_fee (op_withdraw_permission_claim op)) skip_fee_schedule_check op d
  | op_withdraw_permission_delete op => start_evaluate (λ op, required_fee (op_withdraw_permission_delete op)) skip_fee_schedule_check op d
  | op_htlc_create op => start_evaluate (λ op, required_fee (op_htlc_create op)) skip_fee_schedule_check op d
  | op_htlc_redeem op => start_evaluate (λ op, required_fee (op_htlc_redeem op)) skip_fee_schedule_check op d
  | op_htlc_extend op => start_evaluate (λ op, required_fee (op_htlc_extend op)) skip_fee_schedule_check op d
  | op_ticket_create op => start_evaluate (λ op, required_fee (op_ticket_create op)) skip_fee_schedule_check op d
  | op_ticket_update op => start_evaluate (λ op, required_fee (op_ticket_update op)) skip_fee_schedule_check op d
  | op_liquidity_pool_create op => start_evaluate (λ op, required_fee (op_liquidity_pool_create op)) skip_fee_schedule_check op d
  | op_liquidity_pool_delete op => start_evaluate (λ op, required_fee (op_liquidity_pool_delete op)) skip_fee_schedule_check op d
  | op_liquidity_pool_deposit op => start_evaluate (λ op, required_fee (op_liquidity_pool_deposit op)) skip_fee_schedule_check op d
  | op_liquidity_pool_withdraw op => start_evaluate (λ op, required_fee (op_liquidity_pool_withdraw op)) skip_fee_schedule_check op d
  | op_liquidity_pool_exchange op => start_evaluate (λ op, required_fee (op_liquidity_pool_exchange op)) skip_fee_schedule_check op d
  | op_liquidity_pool_update op => start_evaluate (λ op, required_fee (op_liquidity_pool_update op)) skip_fee_schedule_check op d
  | op_samet_fund_create op => start_evaluate (λ op, required_fee (op_samet_fund_create op)) skip_fee_schedule_check op d
  | op_samet_fund_delete op => start_evaluate (λ op, required_fee (op_samet_fund_delete op)) skip_fee_schedule_check op d
  | op_samet_fund_update op => start_evaluate (λ op, required_fee (op_samet_fund_update op)) skip_fee_schedule_check op d
  | op_samet_fund_borrow op => start_evaluate (λ op, required_fee (op_samet_fund_borrow op)) skip_fee_schedule_check op d
  | op_samet_fund_repay op => start_evaluate (λ op, required_fee (op_samet_fund_repay op)) skip_fee_schedule_check op d
  | op_credit_offer_create op => start_evaluate (λ op, required_fee (op_credit_offer_create op)) skip_fee_schedule_check op d
  | op_credit_offer_delete op => start_evaluate (λ op, required_fee (op_credit_offer_delete op)) skip_fee_schedule_check op d
  | op_credit_offer_update op => start_evaluate (λ op, required_fee (op_credit_offer_update op)) skip_fee_schedule_check op d
  | op_credit_offer_accept op => start_evaluate (λ op, required_fee (op_credit_offer_accept op)) skip_fee_schedule_check op d
  | op_credit_deal_repay op => start_evaluate (λ op, required_fee (op_credit_deal_repay op)) skip_fee_schedule_check op d
  | op_credit_deal_update op => start_evaluate (λ op, required_fee (op_credit_deal_update op)) skip_fee_schedule_check op d
  end.

Fixpoint validate_operations (l : list operation) : result unit :=
  match l with
  | [] => Ok ()
  | o :: l => operation_validate o;; validate_operations l
  end.

Definition transaction_validate (trx : signed_transaction) : result unit :=
  FC_ASSERT (0 <? Z.of_nat (length (operations trx)))
    "A transaction must have at least one operation";;
  validate_operations (operations trx).

Fixpoint apply_operations (l : list operation) (d : database)
    : result (database * list operation_result) :=
  match l with
  | [] => Ok (d, [])
  | o :: l =>
    '(d, r) ← apply_operation push_virtual false o d;
    '(d, rs) ← apply_operations l d;
    Ok (d, r :: rs)
  end.

(** The TaPoS, expiration and size checks. *)
Definition check_transaction (skip : skip_flags) (trx : signed_transaction) (c : trx_context)
    (d : database) : result unit :=
  if 0 <? head_block_num c then
    (if skip_tapos_check skip then Ok () else
       prefix ← find_object (block_summaries c) (ref_block_num trx);
       FC_ASSERT (ref_block_prefix trx =? prefix) "trx.ref_block_prefix == tapos_block_summary");;
    let now := head_block_time d in
    FC_ASSERT (expiration trx <=? time_add now (maximum_time_until_expiration c)) "trx.expiration too late";;
    FC_ASSERT (now <=? expiration trx) "now <= trx.expiration";;
    if skip_block_size_check skip then Ok () else
      FC_ASSERT ((head_block_time d <=? HARDFORK_CORE_1573_TIME)
                 || (packed_size trx <=? maximum_transaction_size c))
        "Transaction exceeds maximum transaction size."
  else Ok ().

(** The first fund of the index [by_unpaid], which is ordered by decreasing unpaid amount. *)
Definition check_unpaid (d : database) : result unit :=
  FC_ASSERT (match first_by (λ f, - sf_unpaid_amount f) (samet_funds d) with
             | None => true
             | Some (_, f) => sf_unpaid_amount f =? 0
             end) "Unpaid SameT Fund debt detected".

Definition add_transaction_id (i : Z) (c : trx_context) : trx_context :=
  TrxContext (head_block_num c) (block_summaries c) ({[ i ]} ∪ transaction_ids c)
    (maximum_time_until_expiration c) (maximum_transaction_size c).

Definition _apply_transaction (skip : skip_flags) (trx : signed_transaction) (c : trx_context)
    (d : database) : result (trx_context * database * list operation_result) :=
  transaction_validate trx;;
  (if skip_transaction_dupe_check skip then Ok ()
   else GRAPHENE_ASSERT (bool_decide (trx_id trx ∉ transaction_ids c)) "duplicate_transaction");;
  (if skip_transaction_signatures skip then Ok () else trx_verify_authority trx d);;
  check_transaction skip trx c d;;
  let c := if skip_transaction_dupe_check skip then c else add_transaction_id (trx_id trx) c in
  '(d, results) ← apply_operations (operations trx) d;
  check_unpaid d;;
  Ok (c, d, results).

(** ** Lemmas *)

(** The operations the conservation theorem covers: all, but limit orders without take-profit
    actions, with amounts that are values of [share_type], and whose fee has a core value. *)
Definition plain_operation (o : operation) : Prop :=
  match o with
  | op_limit_order_create op => create_op_ok op
  | op_limit_order_update op => update_op_ok op
  | _ => True
  end.

Lemma market_chain_ok d d' : chain_ok d → conserves d d' → market_frame d d' → chain_ok d'.
Proof. intros [Hb Hc] M F. split; [by apply M|by eapply market_frame_credit]. Qed.

Lemma apply_operation_ok push o d d' r :
  chain_ok d → plain_operation o → operation_validate o = Ok () → apply_operation push false o d = Ok (d', r) →
  chain_ok d' ∧ conserves d d'.
Proof.
  intros Hok Hp Hv Ha. destruct o; cbn [operation_validate apply_operation plain_operation] in Hp, Hv, Ha;
    try (split; [exact (start_evaluate_chain_ok _ _ _ _ _ _ Hok Hv Ha)
                |exact (start_evaluate_conserves _ _ _ _ _ _ Hok Hv Ha)]).
  - apply bind_Ok in Ha as ([d1 id] & Ha & E). injection E as <- _.
    apply evaluate_limit_order_create_ok in Ha as [M F]; [|exact (ch_books _ Hok)|done|done].
    split; [by eapply market_chain_ok|done].
  - apply bind_Ok in Ha as (d1 & Ha & E). injection E as <- _.
    apply evaluate_limit_order_update_ok in Ha as [M F]; [|exact (ch_books _ Hok)|done|done].
    split; [by eapply market_chain_ok|done].
Qed.

Lemma apply_operations_ok l d d' rs :
  chain_ok d → Forall plain_operation l → validate_operations l = Ok () → apply_operations l d = Ok (d', rs) →
  chain_ok d' ∧ conserves d d' ∧ length rs = length l.
Proof.
  revert d rs. induction l as [|o l IH]; intros d rs Hok Hp Hv Ha; simpl in Hv, Ha.
  - injection Ha as <- <-. split_and!; [done|reflexivity|done].
  - apply bind_Ok in Hv as ([] & Hv & Hvs). apply bind_Ok in Ha as ([d1 r] & H1 & Ha).
    apply bind_Ok in Ha as ([d2 rs'] & H2 & E). injection E as <- <-.
    apply Forall_cons in Hp as [Hp Hps].
    destruct (apply_operation_ok _ _ _ _ _ Hok Hp Hv H1) as [Hok1 M1].
    destruct (IH _ _ Hok1 Hps Hvs H2) as (Hok2 & M2 & Hlen).
    split_and!; [done|by etrans|simpl; lia].
Qed.

(** The check of the first fund covers all of them. *)
Lemma check_unpaid_all d :
  books_ok d → check_unpaid d = Ok () →
  ∀ id f, rows (samet_funds d) !! id = Some f → sf_unpaid_amount f = 0.
Proof.
  intros Hok Hc id f Hf. unfold check_unpaid in Hc. apply FC_ASSERT_Ok in Hc.
  pose proof (ok_funds _ Hok _ _ Hf) as [_ Hu].
  destruct (first_by _ _) as [[i g]|] eqn:E.
  - apply first_by_Some in E as [_ Hmin]. specialize (Hmin _ _ Hf). simpl in Hmin. propify. lia.
  - apply first_by_None in E. rewrite E, lookup_empty in Hf. done.
Qed.

Lemma apply_transaction_inv skip trx c d c' d' rs :
  _apply_transaction skip trx c d = Ok (c', d', rs) →
  validate_operations (operations trx) = Ok () ∧ apply_operations (operations trx) d = Ok (d', rs) ∧
  check_unpaid d' = Ok () ∧
  (skip_transaction_signatures skip = false → trx_verify_authority trx d = Ok ()) ∧
  (skip_transaction_dupe_check skip = false →
     trx_id trx ∉ transaction_ids c ∧ trx_id trx ∈ transaction_ids c').
Proof.
  unfold _apply_transaction, transaction_validate. intros Ha.
  apply bind_Ok in Ha as ([] & Hv & Ha). apply bind_Ok in Hv as ([] & _ & Hv).
  apply bind_Ok in Ha as ([] & Hd & Ha). apply bind_Ok in Ha as ([] & Hsig & Ha).
  apply bind_Ok in Ha as ([] & _ & Ha). apply bind_Ok in Ha as ([d1 rs1] & Hops & Ha).
  apply bind_Ok in Ha as ([] & Hu & E). injection E as <- <- <-. split_and!; [done..| |].
  { intros Hs. by rewrite Hs in Hsig. }
  intros Hs. rewrite Hs in *. apply GRAPHENE_ASSERT_Ok, bool_decide_eq_true in Hd.
  split; [done|]. simpl. set_solver.
Qed.

(** ** Transactions keep the books *)

(** C2: a transaction of [plain_operation]s keeps the books. Suppose the state satisfies [chain_ok],
    and that the operations of a transaction that create or update limit orders have no take-profit
    action, amounts that are values of [share_type], and a fee that is paid in the core asset or has
    a positive core value in the fee schedule (other operations are not restricted). If the
    transaction is applied, then for every asset the difference between all holdings and the supply
    is what it was before, no account balance is negative, [chain_ok] holds again, no SameT fund is
    owed anything, and there is one result per operation. *)
Theorem transaction_keeps_books skip trx c d c' d' rs :
  chain_ok d → Forall plain_operation (operations trx) →
  _apply_transaction skip trx c d = Ok (c', d', rs) →
  (∀ a, holdings d' a - supply d' a = holdings d a - supply d a) ∧
  balances_nonneg d' ∧ chain_ok d' ∧
  (∀ id f, rows (samet_funds d') !! id = Some f → sf_unpaid_amount f = 0) ∧
  length rs = length (operations trx).
Proof.
  intros Hok Hp (Hv & Ha & Hu & _)%apply_transaction_inv.
  destruct (apply_operations_ok _ _ _ _ Hok Hp Hv Ha) as (Hok' & M & Hlen).
  split_and!; [|apply Hok'|done| |done].
  - intros a. rewrite (mv_backing _ _ _ M a). lia.
  - apply check_unpaid_all; [apply Hok'|done].
Qed.

(** ** Transactions are authorized *)

(** The accounts' authorities are well-formed. *)
Definition authorities_ok (d : database) : Prop := ∀ id a, accounts d !! id = Some a →
  auth_wf (acc_active a) ∧ auth_wf (acc_owner a).

(** C3: nobody acts for an account without its authority. Suppose the authorities of accounts and
    the viable custom authorities are well formed, and a transaction is applied with its signatures
    checked. Then for each of its operations either a custom authority of the paying account for
    that operation is satisfied by the keys that signed, or the paying account is not the committee
    account and its active or owner authority is satisfied by these keys (at some depth of accounts
    that are members of authorities); so the committee account can pay only through a custom
    authority. No signature is superfluous: each key, or its address, is named by an authority that
    is reachable from those that were required. *)
Theorem transaction_authorized skip trx c d c' d' rs :
  skip_transaction_signatures skip = false → authorities_ok d →
  (∀ a op au, au ∈ viable_custom d a op → auth_wf au) →
  _apply_transaction skip trx c d = Ok (c', d', rs) →
  let allow := HARDFORK_CORE_584_TIME <=? head_block_time d in
  ∃ sigs, get_signature_keys (recover trx) (signatures trx) ∅ = Ok sigs ∧
    (∀ op, op ∈ operations trx →
       custom_authorized (get_active d) (get_owner d) (viable_custom d) allow sigs ∅ op (operation_fee_payer op) ∨
       account_authorized (get_active d) (get_owner d) allow sigs ∅ (operation_fee_payer op) ∧
       operation_fee_payer op ≠ GRAPHENE_COMMITTEE_ACCOUNT) ∧
    (∀ k, k ∈ sigs → relevant (get_active d) (get_owner d)
       (required_root operation_get_required_authorities (get_active d) (get_owner d) (viable_custom d)
          (operations trx)) k).
Proof.
  intros Hs Hd Hc Ha. apply apply_transaction_inv in Ha as (_ & _ & _ & Hv & _). specialize (Hv Hs).
  unfold trx_verify_authority in Hv. apply bind_Ok in Hv as (sigs & Hsigs & Hv).
  apply (verify_sound _ _ _ _ _ _ _ _ ∅) in Hv as [Hops Hrel]; [..|by rewrite (union_idemp_L ∅)].
  - exists sigs. split_and!; [done| |done]. intros op Hop. destruct (Hops op Hop) as [Hact _].
    destruct (Hact (operation_fee_payer op)) as [?|[? ?]]; [by apply elem_of_singleton|by left|right; auto].
  - intros id au Hau. unfold get_active in Hau. apply bind_Ok in Hau as (a & Hacc & [= <-]).
    by apply find_object_Ok, Hd in Hacc as [? _].
  - intros id au Hau. unfold get_owner in Hau. apply bind_Ok in Hau as (a & Hacc & [= <-]).
    by apply find_object_Ok, Hd in Hacc as [_ ?].
  - exact Hc.
  - by intros op au _ ?%not_elem_of_nil.
Qed.

(** A transaction is applied at most once.  Unless the duplicate check is switched off, a
    transaction that has been applied is refused from then on, as long as its id stays in the
    transaction index. *)
Theorem transaction_applied_once skip skip' trx c d c' d' rs c2 d2 :
  skip_transaction_dupe_check skip = false → skip_transaction_dupe_check skip' = false →
  _apply_transaction skip trx c d = Ok (c', d', rs) →
  transaction_ids c' ⊆ transaction_ids c2 →
  _apply_transaction skip' trx c2 d2 = Err (graphene_exception "duplicate_transaction").
Proof.
  intros Hs Hs' Ha Hsub. pose proof Ha as (_ & _ & _ & _ & Hid)%apply_transaction_inv.
  destruct (Hid Hs) as [_ Hin]. unfold _apply_transaction in *.
  apply bind_Ok in Ha as ([] & Hv & _). rewrite Hv, Hs'. simpl.
  rewrite bool_decide_eq_false_2; [done|]. set_solver.
Qed.

(** ** The chain of states *)

(** One step of the modelled part of the node: applying a transaction, moving to a later block
    (the other members of the context are arbitrary), or one of the tasks at the end of a
    block. *)
Inductive chain_step : trx_context * database → trx_context * database → Prop :=
  | step_transaction skip trx c d c' d' rs :
      Forall plain_operation (operations trx) →
      _apply_transaction skip trx c d = Ok (c', d', rs) → chain_step (c, d) (c', d')
  | step_next_block c c' d seconds : 0 ≤ seconds → chain_step (c, d) (c', later seconds d)
  | step_clear_expired_htlcs c d d' :
      clear_expired_htlcs d = Ok d' → chain_step (c, d) (c, d')
  | step_clear_expired_orders c d d' :
      clear_expired_orders d = Ok d' → chain_step (c, d) (c, d')
  | step_update_withdraw_permissions c d d' :
      update_withdraw_permissions d = Ok d' → chain_step (c, d) (c, d')
  | step_update_credit_offers_and_deals c d d' :
      update_credit_offers_and_deals d = Ok d' → chain_step (c, d) (c, d')
  | step_process_tickets c d d' acc :
      process_tickets d = Ok (d', acc) → chain_step (c, d) (c, d').

Lemma chain_step_ok s s' :
  chain_step s s' → chain_ok s.2 → chain_ok s'.2 ∧ conserves s.2 s'.2.
Proof.
  intros Hstep Hok. destruct Hstep as [skip trx c d c' d' rs Hp Ha|c c' d n Hn|c d d' E|c d d' E|c d d' E|c d d' E|c d d' acc E];
    simpl in *.
  - apply apply_transaction_inv in Ha as (Hv & Ha & _).
    by destruct (apply_operations_ok _ _ _ _ Hok Hp Hv Ha) as (? & ? & _).
  - pose proof (later_chain_ok n d Hok) as Hl. split; [done|]. split; [|intros _; apply Hl].
    intros a. unfold holdings, supply; simpl. lia.
  - destruct (clear_expired_htlcs_ok _ _ Hok E). done.
  - by apply cancel_expired_spec in E as (? & ? & _).
  - destruct (update_withdraw_permissions_frame _ _ E) as [t ->].
    split; [split; [by apply moves_withdraw_permissions, Hok|apply Hok]|].
    apply moves_withdraw_permissions.
  - unfold update_credit_offers_and_deals in E. destruct (disable_expired_offers_ok d Hok) as [Hok1 M1].
    apply process_due_deals_spec in E as (? & M2 & _); [|done|done]. split; [done|by etrans].
  - destruct (process_tickets_conserves _ _ _ E) as [M C].
    split; [split; [by apply M, Hok|by apply C, Hok]|done].
Qed.

(** C1: every supply is backed, forever - for [plain_operation]s. Consider any interleaving of
    applied transactions, new blocks and end-of-block tasks (expired HTLCs and orders, withdrawal
    permissions, credit deals, tickets) in which every operation is a [plain_operation]: any
    modelled operation, but limit orders are created and updated without take-profit actions, with
    amounts that are values of [share_type], and with a fee that is paid in the core asset or has a
    positive core value in the fee schedule. From a state that satisfies the invariant of the chain
    state [chain_ok] (among other things no order on the book has a take-profit action) and in which
    what all objects hold of each asset equals its current supply, only such states are reached: the
    equality, the invariants of balances, pools, funds, offers, orders and the credit books hold,
    and no balance is negative. (Without the condition on fees the conclusion fails:
    [update_drops_paid_fee].) *)
Theorem reachable_supply_backed s s' :
  rtc chain_step s s' → chain_ok s.2 → (∀ a, holdings s.2 a = supply s.2 a) →
  (∀ a, holdings s'.2 a = supply s'.2 a) ∧ balances_nonneg s'.2 ∧ chain_ok s'.2.
Proof.
  intros Hr. induction Hr as [s|s s1 s2 Hstep _ IH]; intros Hok Hb.
  - split_and!; [done|apply Hok|done].
  - destruct (chain_step_ok _ _ Hstep Hok) as [Hok1 M]. apply IH; [done|].
    intros a. pose proof (mv_backing _ _ _ M a) as E. specialize (Hb a). simpl in E. lia.
Qed.
End transactions.

(** ** Concrete runs *)
Definition sample_context : trx_context := TrxContext 1 {[ 7 := 99 ]} ∅ 86400 2048.

(** Signatures are named by the key they recover to. *)
Definition sample_recover (trx : signed_transaction) (sig : Z) : result public_key_type := Ok sig.

Definition sample_flags : skip_flags := SkipFlags false false false false.

(** A transaction that borrows from a fund, repays with the fee, and transfers. *)
Definition sample_trx : signed_transaction :=
  SignedTransaction 7 99 (sample_time + 60)
    [ op_samet_fund_borrow (SametFundBorrowOperation (Asset 10 0) 101 0 (Asset 700 1));
      op_transfer (TransferOperation (Asset 10 0) 101 102 (Asset 3400 1));
      op_transfer (TransferOperation (Asset 10 0) 100 101 (Asset 3000 1));
      op_samet_fund_repay (SametFundRepayOperation (Asset 10 0) 101 0 (Asset 700 1) (Asset 7 1)) ]
    [101; 1100].

Definition sample_apply (trx : signed_transaction) :=
  _apply_transaction (H := sample_hash) (λ _, 10) sample_recover (λ _ _ _, []) (λ trx, expiration trx)
    (λ _, 500) sample_flags trx sample_context sample_fund_db.

Lemma sample_trx_plain : Forall (plain_operation (λ _, 10)) (operations sample_trx).
Proof. repeat constructor. Qed.

Lemma sample_fund_chain_ok : chain_ok sample_fund_db.
Proof.
  destruct sample_chain_ok as [[] Hc]. split; [|exact Hc]. split; try done.
  assert (map_Forall (λ _, fund_ok) (rows (samet_funds sample_fund_db))) as Hf
    by (apply map_Forall_singleton; unfold fund_ok; simpl; lia).
  exact Hf.
Qed.

Lemma transaction_keeps_books_witness : ∃ c' d' rs, sample_apply sample_trx = Ok (c', d', rs) ∧
  length rs = 4%nat ∧ chain_ok d' ∧ amount (get_balance d' 101 1) = 2593.
Proof.
  unfold sample_apply.
  destruct (_apply_transaction (H := sample_hash) _ _ _ _ _ _ _ _ _) as [[[c' d'] rs]|] eqn:E;
    [|vm_compute in E; discriminate].
  exists c', d', rs. split; [done|].
  destruct (transaction_keeps_books (H := sample_hash) _ _ _ _ _ _ _ _ _ _ _ _ sample_fund_chain_ok
    sample_trx_plain E)
    as (_ & _ & Hok & _ & Hlen).
  split_and!; [exact Hlen|exact Hok|]. vm_compute in E. injection E as <- <- <-. vm_compute. reflexivity.
Defined.

Lemma sample_fund_authorities : authorities_ok sample_fund_db.
Proof.
  assert (map_Forall (λ _ a, auth_wf (acc_active a) ∧ auth_wf (acc_owner a)) (accounts sample_fund_db)) as Ha; [|exact Ha].
  apply map_Forall_to_list. vm_compute map_to_list. repeat constructor; simpl; unfold weights_ok; repeat constructor; simpl; lia.
Qed.

(** Account 100 acts through its owner key. *)
Lemma transaction_authorized_witness : ∃ c' d' rs, sample_apply sample_trx = Ok (c', d', rs) ∧
  account_authorized (get_active sample_fund_db) (get_owner sample_fund_db) true {[ 1100; 101 ]} ∅ 100 ∧
  sample_apply (SignedTransaction 7 99 (sample_time + 60) (operations sample_trx) [101; 1102])
    = Err (graphene_exception "tx_missing_active_auth") ∧
  sample_apply (SignedTransaction 7 99 (sample_time + 60) (operations sample_trx) [101; 1100; 7])
    = Err (graphene_exception "tx_irrelevant_sig").
Proof.
  unfold sample_apply at 1.
  destruct (_apply_transaction (H := sample_hash) _ _ _ _ _ _ _ _ _) as [[[c' d'] rs]|] eqn:E;
    [|vm_compute in E; discriminate].
  exists c', d', rs. split; [done|].
  destruct (transaction_authorized (H := sample_hash) _ _ (λ _ _ _, []) _ _ sample_flags sample_trx _ _ _ _ _ eq_refl
    sample_fund_authorities ltac:(by intros a op au ?%not_elem_of_nil) E) as (sigs & Hs & Hops & _).
  vm_compute in Hs. injection Hs as <-. split; [|split; vm_compute; reflexivity].
  destruct (Hops (op_transfer (TransferOperation (Asset 10 0) 100 101 (Asset 3000 1)))) as [Hc|[Ha _]].
  - right. right. left.
  - destruct Hc as (au & Hau & _). by apply not_elem_of_nil in Hau.
  - exact Ha.
Defined.

Lemma transaction_applied_once_witness : ∃ c' d' rs, sample_apply sample_trx = Ok (c', d', rs) ∧
  _apply_transaction (H := sample_hash) (λ _, 10) sample_recover (λ _ _ _, []) (λ trx, expiration trx)
    (λ _, 500) sample_flags sample_trx c' d' = Err (graphene_exception "duplicate_transaction").
Proof.
  destruct (sample_apply sample_trx) as [[[c' d'] rs]|] eqn:E; [|vm_compute in E; discriminate].
  exists c', d', rs. split; [done|].
  exact (transaction_applied_once (H := sample_hash) _ _ _ _ _ sample_flags sample_flags _ _ _ _ _ _ _ _
    eq_refl eq_refl E (reflexivity _)).
Defined.

Lemma sample_backed a : holdings sample_db a = supply sample_db a.
Proof.
  assert (∀ A K `{Countable K} (f : K → A → Z) k v, msum f {[k := v]} = f k v) as Hone
    by (intros; rewrite <- insert_empty, msum_insert_new, msum_empty by apply lookup_empty; lia).
  unfold holdings, supply, tbl_held, balances_held, statistics_held, dynamic_data_held, dd_held.
  simpl. rewrite !msum_insert_new, !Hone, !msum_empty by (vm_compute; reflexivity).
  simpl. amt_solve.
Qed.

Definition sample_transfer_trx : signed_transaction :=
  SignedTransaction 7 99 (sample_time + 60)
    [ op_transfer (TransferOperation (Asset 10 0) 100 101 (Asset 3000 1));
      op_asset_issue (AssetIssueOperation (Asset 10 0) 100 (Asset 500 2) 101);
      op_limit_order_create (LimitOrderCreateOperation (Asset 10 0) 100 (Asset 100 2) (Asset 50 0)
        time_point_sec_maximum false None);
      op_limit_order_create (LimitOrderCreateOperation (Asset 10 0) 101 (Asset 60 0) (Asset 100 2)
        time_point_sec_maximum false None) ]
    [100; 101].

Lemma sample_transfer_plain : Forall (plain_operation (λ _, 10)) (operations sample_transfer_trx).
Proof.
  repeat (constructor; [try exact I|]); [..|constructor];
    (split; [unfold is_share, INT64_MIN, INT64_MAX; simpl; lia..|done|by left]).
Qed.

Lemma reachable_supply_backed_witness : ∃ c' d' rs,
  _apply_transaction (H := sample_hash) (λ _, 10) sample_recover (λ _ _ _, []) (λ trx, expiration trx)
    (λ _, 500) sample_flags sample_transfer_trx sample_context sample_db = Ok (c', d', rs) ∧
  supply d' 2 = 400500 ∧ amount (get_balance d' 101 2) = 600 ∧ holdings d' 2 = supply d' 2.
Proof.
  destruct (_apply_transaction (H := sample_hash) _ _ _ _ _ _ _ _ _) as [[[c' d'] rs]|] eqn:E;
    [|vm_compute in E; discriminate].
  exists c', d', rs. split; [done|].
  destruct (reachable_supply_backed (H := sample_hash) _ _ _ _ _ (sample_context, sample_db) (c', d')
    (rtc_once _ _ (step_transaction (H := sample_hash) _ _ _ _ _ _ _ _ _ _ _ _ sample_transfer_plain E))
    sample_chain_ok sample_backed) as (Hb & _ & _).
  split_and!; [| |exact (Hb 2)]; vm_compute in E; injection E as <- <- <-; vm_compute; reflexivity.
Defined.
