(* ===== verification/Proposal.v ===== *)
(** * Proposals

    Proposed transactions, their approval and their execution: libraries/protocol/proposal.cpp,
    libraries/chain/proposal_evaluator.cpp, [proposal_object] and [required_approval_index] of
    libraries/chain/proposal_object.cpp, [database::push_proposal] of db_block.cpp and
    [database::clear_expired_proposals] of db_update.cpp.

    A proposal holds operations, which may be proposals and approvals again, so the operation
    variant is extended here by the three proposal operations and the proposals are kept beside
    the database.  [push_proposal] runs in an undo session: when it throws, the state before it
    is kept.  Sessions nest at most twice the number of active witnesses deep
    ([undo_session_nesting_guard]); this bound is the fuel of the recursion. *)
From S2P Require Import Prelude MachineInt Hardfork Asset Authority AuthorityTheorems Vesting ChainState Frames Ledger CreditBooks Balance Fees Evaluator Sample Transfer AssetOps Htlc CreditOffer CreditTheorems LimitOrder MarketTheorems Transaction Settings.

(** ** Operations *)

Record proposal_update_operation := ProposalUpdateOperation {
  pu_fee_paying_account : account_id_type;
  pu_fee : asset;
  pu_proposal : Z;
  active_approvals_to_add : gset account_id_type;
  active_approvals_to_remove : gset account_id_type;
  owner_approvals_to_add : gset account_id_type;
  owner_approvals_to_remove : gset account_id_type;
  key_approvals_to_add : gset public_key_type;
  key_approvals_to_remove : gset public_key_type }.

Record proposal_delete_operation := ProposalDeleteOperation {
  pd_fee_paying_account : account_id_type;
  using_owner_authority : bool;
  pd_fee : asset;
  pd_proposal : Z }.

(** [proposal_create_operation] is the constructor's arguments, its members in their order. *)
Inductive any_operation :=
  | op_plain (o : operation)
  | op_proposal_create (fee : asset) (fee_paying_account : account_id_type) (proposed_ops : list any_operation)
      (expiration_time : Z) (review_period_seconds : option Z)
  | op_proposal_update (op : proposal_update_operation)
  | op_proposal_delete (op : proposal_delete_operation).

Record proposal_object := ProposalObject {
  po_expiration_time : Z;
  review_period_time : option Z;
  proposed_transaction : list any_operation;
  required_active_approvals : gset account_id_type;
  available_active_approvals : gset account_id_type;
  required_owner_approvals : gset account_id_type;
  available_owner_approvals : gset account_id_type;
  available_key_approvals : gset public_key_type;
  proposer : account_id_type;
  fail_reason : option fc_exception }.

#[global] Instance proposal_indexed : Indexed proposal_object := λ _ _, false.

Record pdatabase := PDatabase { pd_db : database; proposals : table proposal_object }.

Definition set_db (d : database) (s : pdatabase) : pdatabase := PDatabase d (proposals s).
Definition set_proposals (t : table proposal_object) (s : pdatabase) : pdatabase := PDatabase (pd_db s) t.

Definition is_update (o : any_operation) : bool :=
  match o with op_proposal_update _ => true | _ => false end.

(** ** Hard fork checks of proposed operations *)

(** [proposal_operation_hardfork_visitor] on an operation that is not a proposal. *)
Definition hardfork_check (block_time : Z) (o : operation) : result unit :=
  match o with
  | op_limit_order_update _ =>
    FC_ASSERT (HARDFORK_CORE_1604_PASSED block_time) "Operation is not enabled yet"
  | op_limit_order_create op =>
    if HARDFORK_CORE_2535_PASSED block_time then Ok ()
    else FC_ASSERT (negb (bool_decide (is_Some (loc_on_fill op))))
           "The on_fill extension is not allowed until the core-2535 hardfork"
  | op_htlc_create op =>
    FC_ASSERT (HARDFORK_CORE_1468_TIME <=? block_time) "Not allowed until hardfork 1468";;
    if block_time <? HARDFORK_CORE_BSIP64_TIME then
      FC_ASSERT (negb (bool_decide (is_Some (hc_memo op)))) "Memo unavailable until after HARDFORK BSIP64";;
      FC_ASSERT (negb (bool_decide (hash_kind (hc_preimage_hash op) = algo_hash160)))
        "HASH160 unavailable until after HARDFORK BSIP64"
    else Ok ()
  | op_htlc_redeem _ | op_htlc_extend _ =>
    FC_ASSERT (HARDFORK_CORE_1468_TIME <=? block_time) "Not allowed until hardfork 1468"
  | op_ticket_create _ | op_ticket_update _ =>
    FC_ASSERT (HARDFORK_CORE_2103_PASSED block_time) "Not allowed until hardfork 2103"
  | op_liquidity_pool_create _ | op_liquidity_pool_delete _ | op_liquidity_pool_deposit _
  | op_liquidity_pool_withdraw _ | op_liquidity_pool_exchange _ =>
    FC_ASSERT (HARDFORK_LIQUIDITY_POOL_PASSED block_time) "Not allowed until the LP hardfork"
  | op_liquidity_pool_update _ =>
    FC_ASSERT (HARDFORK_CORE_2604_PASSED block_time) "Not allowed until the core-2604 hardfork"
  | op_samet_fund_create _ | op_samet_fund_delete _ | op_samet_fund_update _
  | op_samet_fund_borrow _ | op_samet_fund_repay _ =>
    FC_ASSERT (HARDFORK_CORE_2351_PASSED block_time) "Not allowed until the core-2351 hardfork"
  | op_credit_offer_create _ | op_credit_offer_delete _ | op_credit_offer_update _ | op_credit_deal_repay _ =>
    FC_ASSERT (HARDFORK_CORE_2362_PASSED block_time) "Not allowed until the core-2362 hardfork"
  | op_credit_offer_accept op =>
    FC_ASSERT (HARDFORK_CORE_2362_PASSED block_time) "Not allowed until the core-2362 hardfork";;
    if HARDFORK_CORE_2595_PASSED block_time then Ok ()
    else FC_ASSERT (negb (bool_decide (is_Some (coa_auto_repay op))))
           "auto_repay unavailable until the core-2595 hardfork"
  | op_credit_deal_update _ =>
    FC_ASSERT (HARDFORK_CORE_2595_PASSED block_time) "Not allowed until the core-2595 hardfork"
  | _ => Ok ()
  end.

(** The visitor on any operation; the loop remembers whether it has seen a proposal update. *)
Fixpoint hardfork_visitor (block_time : Z) (o : any_operation) : result unit :=
  match o with
  | op_plain o => hardfork_check block_time o
  | op_proposal_create _ _ proposed_ops _ _ =>
    (fix go (l : list any_operation) (seen : bool) : result unit :=
       match l with
       | [] => Ok ()
       | op :: l =>
         hardfork_visitor block_time op;;
         if is_update op then
           FC_ASSERT (negb seen) "At most one proposal update can be nested in a proposal!";; go l true
         else go l seen
       end) proposed_ops false
  | _ => Ok ()
  end.

(** [hardfork_visitor_1479]: the largest id of a proposal updated or deleted by [o], if any; the
    code keeps it with the number of such operations. *)
Fixpoint max_update_instance (o : any_operation) (acc : option Z) : option Z :=
  let note (id : Z) := match acc with None => Some id | Some m => Some (Z.max m id) end in
  match o with
  | op_plain _ => acc
  | op_proposal_update op => note (pu_proposal op)
  | op_proposal_delete op => note (pd_proposal op)
  | op_proposal_create _ _ proposed_ops _ _ =>
    (fix go (l : list any_operation) (acc : option Z) : option Z :=
       match l with [] => acc | op :: l => go l (max_update_instance op acc) end) proposed_ops acc
  end.

(** [hardfork_visitor_214]: not recursive. *)
Definition hardfork_visitor_214 (o : any_operation) : result unit :=
  FC_ASSERT (negb (is_update o)) "Not allowed until hardfork 214".

(** ** Validation and required authorities *)

Definition proposal_update_validate (op : proposal_update_operation) : result unit :=
  FC_ASSERT (0 <=? amount (pu_fee op)) "fee.amount >= 0";;
  FC_ASSERT (negb (bool_decide (active_approvals_to_add op = ∅) && bool_decide (active_approvals_to_remove op = ∅)
                   && bool_decide (owner_approvals_to_add op = ∅) && bool_decide (owner_approvals_to_remove op = ∅)
                   && bool_decide (key_approvals_to_add op = ∅) && bool_decide (key_approvals_to_remove op = ∅)))
    "no approvals";;
  FC_ASSERT (bool_decide (active_approvals_to_add op ## active_approvals_to_remove op))
    "Cannot add and remove approval at the same time.";;
  FC_ASSERT (bool_decide (owner_approvals_to_add op ## owner_approvals_to_remove op))
    "Cannot add and remove approval at the same time.";;
  FC_ASSERT (bool_decide (key_approvals_to_add op ## key_approvals_to_remove op))
    "Cannot add and remove approval at the same time.".

Section proposals.
Context `{HashFunctions} `{KeyAddresses}.
Variable required_fee : any_operation → share_type.
(** [get_viable_custom_authorities]. *)
Variable viable_custom : database → account_id_type → any_operation → list authority.

Definition plain_fee (o : operation) : share_type := required_fee (op_plain o).

(** [operation_validate]. *)
Fixpoint any_validate (o : any_operation) : result unit :=
  match o with
  | op_plain o => operation_validate plain_fee o
  | op_proposal_create _ _ proposed_ops _ _ =>
    FC_ASSERT (match proposed_ops with [] => false | _ => true end) "!proposed_ops.empty()";;
    (fix go (l : list any_operation) : result unit :=
       match l with [] => Ok () | op :: l => any_validate op;; go l end) proposed_ops
  | op_proposal_update op => proposal_update_validate op
  | op_proposal_delete op => FC_ASSERT (0 <=? amount (pd_fee op)) "fee.amount >= 0"
  end.

Definition any_fee_payer (o : any_operation) : account_id_type :=
  match o with
  | op_plain o => operation_fee_payer plain_fee o
  | op_proposal_create _ fee_paying_account _ _ _ => fee_paying_account
  | op_proposal_update op => pu_fee_paying_account op
  | op_proposal_delete op => pd_fee_paying_account op
  end.

(** The authority of the keys an update names: all of them. *)
Definition update_key_authority (op : proposal_update_operation) : authority :=
  let keys := ascending (key_approvals_to_add op ∪ key_approvals_to_remove op) in
  Authority (Z.of_nat (length keys)) [] ((λ k, (k, 1)) <$> keys) [].

(** [operation_get_required_authorities]. *)
Definition any_required (o : any_operation) : gset account_id_type * gset account_id_type * list authority :=
  match o with
  | op_proposal_update op =>
    ({[ pu_fee_paying_account op ]} ∪ active_approvals_to_add op ∪ active_approvals_to_remove op,
     owner_approvals_to_add op ∪ owner_approvals_to_remove op,
     let auth := update_key_authority op in if 0 <? weight_threshold auth then [auth] else [])
  | _ => ({[ any_fee_payer o ]}, ∅, [])
  end.

(** ** Evaluators *)

(** *** create *)

(** [_required_active_auths], [_required_owner_auths], [_proposed_trx.operations] and what
    [vtor_1479] found. *)
Record proposal_create_ctx := ProposalCreateCtx {
  _required_active_auths : gset account_id_type;
  _required_owner_auths : gset account_id_type;
  _proposed_ops : list any_operation;
  vtor_1479 : option Z }.

Definition proposal_create_do_evaluate (o : any_operation) (proposed_ops : list any_operation) (expiration_time : Z)
    (review_period_seconds : option Z) (d : database) : result proposal_create_ctx :=
  let block_time := head_block_time d in
  hardfork_visitor block_time o;;
  (if block_time <? HARDFORK_CORE_214_TIME then res_fold (λ op _, hardfork_visitor_214 op) proposed_ops () else Ok ());;
  FC_ASSERT (block_time <? expiration_time) "Proposal has already expired on creation.";;
  FC_ASSERT (expiration_time <=? time_add block_time (maximum_proposal_lifetime (parameters d)))
    "Proposal expiration time is too far in the future.";;
  FC_ASSERT (if review_period_seconds is Some p then p <? expiration_time - block_time else true)
    "Proposal review period must be less than its overall lifetime.";;
  let r := get_required_authorities any_required proposed_ops in
  FC_ASSERT (match required_other r with [] => true | _ => false end)
    "Proposals containing operations requiring non-account authorities are not yet implemented.";;
  (if bool_decide (GRAPHENE_COMMITTEE_ACCOUNT ∈ required_active r)
      || bool_decide (GRAPHENE_COMMITTEE_ACCOUNT ∈ required_owner r) then
     match review_period_seconds with
     | None => Err (graphene_exception "proposal_create_review_period_required")
     | Some p => GRAPHENE_ASSERT (committee_proposal_review_period (parameters d) <=? p)
                   "proposal_create_review_period_insufficient"
     end
   else Ok ());;
  FC_ASSERT (match proposed_ops with [] => false | _ => true end) "A transaction must have at least one operation";;
  res_fold (λ op _, any_validate op) proposed_ops ();;
  Ok (ProposalCreateCtx (required_active r) (required_owner r) proposed_ops (max_update_instance o None)).

(** The operation that cannot be approved. *)
Definition prevent_approval : any_operation :=
  op_plain (op_transfer (TransferOperation (Asset 0 core_asset_id) GRAPHENE_NULL_ACCOUNT
    GRAPHENE_RELAXED_COMMITTEE_ACCOUNT (Asset GRAPHENE_MAX_SHARE_SUPPLY core_asset_id))).

Definition proposal_create_do_apply (fee_paying_account : account_id_type) (expiration_time : Z)
    (review_period_seconds : option Z) (ctx : proposal_create_ctx) (s : pdatabase)
    : result (pdatabase * operation_result) :=
  let id := next_id (proposals s) in
  ops ← (if HARDFORK_CORE_1479_TIME <? head_block_time (pd_db s) then
           FC_ASSERT (if vtor_1479 ctx is Some m then m <? id else true)
             "Cannot update/delete a proposal with a future id!";;
           Ok (_proposed_ops ctx)
         else Ok (if vtor_1479 ctx is Some m then
                    if id <=? m then _proposed_ops ctx ++ [prevent_approval] else _proposed_ops ctx
                  else _proposed_ops ctx));
  '(id, t) ← tbl_create (ProposalObject expiration_time ((λ p, expiration_time - p) <$> review_period_seconds) ops
               (_required_active_auths ctx) ∅ (_required_owner_auths ctx) ∅ ∅ fee_paying_account None) (proposals s);
  Ok (set_proposals t s, object_id_result (kind_proposal, id)).

(** *** update *)

Definition proposal_update_do_evaluate (op : proposal_update_operation) (s : pdatabase) : result unit :=
  p ← tbl_get (proposals s) (pu_proposal op);
  (if (if review_period_time p is Some t then t <=? head_block_time (pd_db s) else false) then
     FC_ASSERT (bool_decide (active_approvals_to_add op = ∅) && bool_decide (owner_approvals_to_add op = ∅))
       "This proposal is in its review period. No new approvals may be added."
   else Ok ());;
  FC_ASSERT (bool_decide (active_approvals_to_remove op ⊆ available_active_approvals p)) "approval not given";;
  FC_ASSERT (bool_decide (owner_approvals_to_remove op ⊆ available_owner_approvals p)) "approval not given".

Definition update_approvals (op : proposal_update_operation) (p : proposal_object) : proposal_object :=
  ProposalObject (po_expiration_time p) (review_period_time p) (proposed_transaction p)
    (required_active_approvals p)
    ((available_active_approvals p ∪ active_approvals_to_add op) ∖ active_approvals_to_remove op)
    (required_owner_approvals p)
    ((available_owner_approvals p ∪ owner_approvals_to_add op) ∖ owner_approvals_to_remove op)
    ((available_key_approvals p ∪ key_approvals_to_add op) ∖ key_approvals_to_remove op)
    (proposer p) (fail_reason p).

Definition set_fail_reason (e : fc_exception) (p : proposal_object) : proposal_object :=
  ProposalObject (po_expiration_time p) (review_period_time p) (proposed_transaction p)
    (required_active_approvals p) (available_active_approvals p) (required_owner_approvals p)
    (available_owner_approvals p) (available_key_approvals p) (proposer p) (Some e).

(** [verify_authority] on the proposed operations with the approvals given. *)
Definition proposal_verify (p : proposal_object) (d : database) : result unit :=
  verify_authority any_required (get_active d) (get_owner d) (viable_custom d)
    (HARDFORK_CORE_584_TIME <=? head_block_time d) (Z.to_nat (max_authority_depth (parameters d)))
    (proposed_transaction p) (available_key_approvals p) true
    (available_active_approvals p) (available_owner_approvals p).

Definition is_authorized_to_execute (p : proposal_object) (d : database) : bool :=
  match proposal_verify p d with Ok _ => true | Err _ => false end.

Section push.
(** Executing another proposal, and pushing a virtual operation. *)
Variable push_proposal : Z → proposal_object → pdatabase → result pdatabase.
Variable push : virtual_operation → database → result (database * Z).

Definition proposal_update_do_apply (op : proposal_update_operation) (s : pdatabase)
    : result (pdatabase * operation_result) :=
  t ← tbl_modify (pu_proposal op) (λ p, Ok (update_approvals op p)) (proposals s);
  let s := set_proposals t s in
  p ← tbl_get (proposals s) (pu_proposal op);
  if review_period_time p is Some _ then Ok (s, void_result)
  else if is_authorized_to_execute p (pd_db s) then
    match push_proposal (pu_proposal op) p s with
    | Ok s => Ok (s, void_result)
    | Err e =>
      t ← tbl_modify (pu_proposal op) (λ p, Ok (set_fail_reason e p)) (proposals s);
      Ok (set_proposals t s, void_result)
    end
  else Ok (s, void_result).

(** *** delete *)

Definition proposal_delete_do_evaluate (op : proposal_delete_operation) (s : pdatabase) : result unit :=
  p ← tbl_get (proposals s) (pd_proposal op);
  let required_approvals := if using_owner_authority op then required_owner_approvals p
                            else required_active_approvals p in
  FC_ASSERT (bool_decide (pd_fee_paying_account op ∈ required_approvals))
    "Provided authority is not authoritative for this proposal.".

Definition proposal_delete_do_apply (op : proposal_delete_operation) (s : pdatabase)
    : result (pdatabase * operation_result) :=
  t ← tbl_remove (pd_proposal op) (proposals s); Ok (set_proposals t s, void_result).

(** *** [start_evaluate] *)

(** The evaluation scheme of Evaluator.v, for operations on proposals. *)
Definition proposal_start_evaluate {C} (o : any_operation) (fee : asset) (do_eval : pdatabase → result C)
    (do_app : C → pdatabase → result (pdatabase * operation_result)) (s : pdatabase)
    : result (pdatabase * operation_result) :=
  core_fee_paid ← prepare_fee (any_fee_payer o) fee (pd_db s);
  GRAPHENE_ASSERT (required_fee o <=? core_fee_paid) "insufficient_fee";;
  ctx ← do_eval s;
  d ← convert_fee fee core_fee_paid (pd_db s);
  d ← pay_fee (any_fee_payer o) core_fee_paid d;
  '(s, r) ← do_app ctx (set_db d s);
  neg ← asset_neg fee;
  d ← adjust_balance (any_fee_payer o) neg (pd_db s);
  Ok (set_db d s, r).

Definition apply_any (o : any_operation) (s : pdatabase) : result (pdatabase * operation_result) :=
  match o with
  | op_plain p =>
    '(d, r) ← apply_operation plain_fee push false p (pd_db s); Ok (set_db d s, r)
  | op_proposal_create fee fee_paying_account proposed_ops expiration_time review_period_seconds =>
    proposal_start_evaluate o fee
      (λ s, proposal_create_do_evaluate o proposed_ops expiration_time review_period_seconds (pd_db s))
      (proposal_create_do_apply fee_paying_account expiration_time review_period_seconds) s
  | op_proposal_update op =>
    proposal_start_evaluate o (pu_fee op) (proposal_update_do_evaluate op) (λ _, proposal_update_do_apply op) s
  | op_proposal_delete op =>
    proposal_start_evaluate o (pd_fee op) (proposal_delete_do_evaluate op) (λ _, proposal_delete_do_apply op) s
  end.

Fixpoint apply_all (l : list any_operation) (s : pdatabase) : result (pdatabase * list operation_result) :=
  match l with
  | [] => Ok (s, [])
  | o :: l => '(s, r) ← apply_any o s; '(s, rs) ← apply_all l s; Ok (s, r :: rs)
  end.
End push.

(** ** Execution *)

(** [database::push_proposal] with [depth] undo sessions left. *)
Fixpoint push_proposal (depth : nat) (id : Z) (p : proposal_object) (s : pdatabase) : result pdatabase :=
  match depth with
  | O => Err (assert_exception "Max undo session nesting depth exceeded!")
  | S depth =>
    '(s, _) ← apply_all (push_proposal depth) (try_push_virtual_operation (H := market_fees plain_fee) depth)
                (proposed_transaction p) s;
    check_unpaid (pd_db s);;
    t ← tbl_remove id (proposals s);
    Ok (set_proposals t s)
  end.

Definition nesting_depth (d : database) : nat := Z.to_nat (2 * active_witnesses_size d).

(** The operations of a transaction. *)
Definition apply_any_operations (l : list any_operation) (s : pdatabase) : result (pdatabase * list operation_result) :=
  let depth := nesting_depth (pd_db s) in
  apply_all (push_proposal depth) (try_push_virtual_operation (H := market_fees plain_fee) depth) l s.

(** [database::clear_expired_proposals]; each round removes a proposal
    ([clear_expired_proposals_complete]). *)
Definition expire_proposal (id : Z) (p : proposal_object) (s : pdatabase) : result pdatabase :=
  match (if is_authorized_to_execute p (pd_db s)
         then push_proposal (nesting_depth (pd_db s)) id p s else Err (fc_throw "not authorized")) with
  | Ok s => Ok s
  | Err _ => t ← tbl_remove id (proposals s); Ok (set_proposals t s)
  end.

Fixpoint expire_proposals (fuel : nat) (s : pdatabase) : result pdatabase :=
  match fuel with
  | O => Ok s
  | S fuel =>
    match first_by po_expiration_time (proposals s) with
    | None => Ok s
    | Some (id, p) =>
      if po_expiration_time p <=? head_block_time (pd_db s) then
        s ← expire_proposal id p s; expire_proposals fuel s
      else Ok s
    end
  end.

Definition clear_expired_proposals (s : pdatabase) : result pdatabase :=
  expire_proposals (size (rows (proposals s))) s.
End proposals.

(** ** The index of approvals *)

(** [required_approval_index]: [_account_to_proposals]. *)
Notation approval_index := (gmap account_id_type (gset Z)).

(** [_account_to_proposals[ a ].insert( p )]. *)
Definition index_add (p : Z) (a : account_id_type) (m : approval_index) : approval_index :=
  <[a := {[ p ]} ∪ default ∅ (m !! a)]> m.

Definition index_erase (p : Z) (a : account_id_type) (m : approval_index) : approval_index :=
  match m !! a with
  | None => m
  | Some s => if bool_decide (s ∖ {[ p ]} = ∅) then delete a m else <[a := s ∖ {[ p ]}]> m
  end.

Definition for_accounts (f : account_id_type → approval_index → approval_index) (s : gset account_id_type)
    (m : approval_index) : approval_index := foldl (λ m a, f a m) m (ascending s).

Definition for_approvals (f : account_id_type → approval_index → approval_index) (p : proposal_object)
    (m : approval_index) : approval_index :=
  for_accounts f (available_owner_approvals p) (for_accounts f (available_active_approvals p)
    (for_accounts f (required_owner_approvals p) (for_accounts f (required_active_approvals p) m))).

Definition object_inserted (id : Z) (p : proposal_object) : approval_index → approval_index :=
  for_approvals (index_add id) p.
Definition object_removed (id : Z) (p : proposal_object) : approval_index → approval_index :=
  for_approvals (index_erase id) p.

(** The loop of [insert_or_remove_delta] over two ascending ranges. *)
Fixpoint delta_loop (p : Z) (before : list account_id_type)
    : list account_id_type → approval_index → approval_index :=
  match before with
  | [] =>
    fix rest (after : list account_id_type) (m : approval_index) : approval_index :=
      match after with [] => m | a :: after => rest after (index_add p a m) end
  | b :: before' =>
    fix go (after : list account_id_type) (m : approval_index) : approval_index :=
      match after with
      | [] => delta_loop p before' [] (index_erase p b m)
      | a :: after' =>
        if b <? a then delta_loop p before' after (index_erase p b m)
        else if a <? b then go after' (index_add p a m)
        else delta_loop p before' after' m
      end
  end.

Definition insert_or_remove_delta (p : Z) (before after : gset account_id_type) : approval_index → approval_index :=
  delta_loop p (ascending before) (ascending after).

(** [about_to_modify] with the proposal before, [object_modified] with the proposal after. *)
Definition object_modified (id : Z) (before after : proposal_object) (m : approval_index) : approval_index :=
  insert_or_remove_delta id (available_owner_approvals before) (available_owner_approvals after)
    (insert_or_remove_delta id (available_active_approvals before) (available_active_approvals after) m).
