(* ===== verification/ProposalTheorems.v ===== *)
(** * Theorems on proposals

    The ids that a proposal refers to are below its own, so executing a proposal, with whatever
    other proposals that executes in turn, never touches the proposal itself; executions keep
    the books; a proposal is executed only with the authority its operations need; a review
    period holds executions back; expired proposals are cleared. *)
From stdpp Require Import sorting.
From S2P Require Import Prelude MachineInt Hardfork Asset Authority AuthorityTheorems Vesting ChainState Frames Ledger CreditBooks Balance Fees Evaluator Sample Transfer AssetOps Htlc CreditOffer CreditTheorems LimitOrder MarketTheorems Settings Transaction Proposal.

(** ** Operations inside operations *)

(** Induction with a hypothesis for each proposed operation. *)
Lemma any_operation_nested (P : any_operation → Prop) :
  (∀ o, P (op_plain o)) → (∀ fee payer ops e r, Forall P ops → P (op_proposal_create fee payer ops e r)) →
  (∀ op, P (op_proposal_update op)) → (∀ op, P (op_proposal_delete op)) → ∀ o, P o.
Proof.
  intros Hplain Hcreate Hupdate Hdelete. fix IH 1. intros [o|fee payer ops e r|op|op]; [auto| |auto|auto].
  apply Hcreate. induction ops as [|o ops IHops]; constructor; [apply IH|exact IHops].
Qed.

(** The proposals an operation updates or deletes, now or when proposals it makes are executed. *)
Fixpoint refs (o : any_operation) : list Z :=
  match o with
  | op_plain _ => []
  | op_proposal_update op => [pu_proposal op]
  | op_proposal_delete op => [pd_proposal op]
  | op_proposal_create _ _ proposed_ops _ _ =>
    (fix go (l : list any_operation) : list Z := match l with [] => [] | op :: l => refs op ++ go l end) proposed_ops
  end.

Definition note_ref (acc : option Z) (id : Z) : option Z :=
  match acc with None => Some id | Some m => Some (Z.max m id) end.

Lemma refs_create fee payer ops e r : refs (op_proposal_create fee payer ops e r) = concat (refs <$> ops).
Proof. simpl. induction ops as [|o ops IH]; simpl; [done|]. by rewrite IH. Qed.

Lemma max_update_instance_refs o acc : max_update_instance o acc = foldl note_ref acc (refs o).
Proof.
  revert acc. induction o as [o|fee payer ops e r IH|op|op] using any_operation_nested; intros acc; [done| |done|done].
  rewrite refs_create. simpl. revert acc. induction IH as [|o ops Ho _ IHops]; intros acc; simpl; [done|].
  by rewrite foldl_app, Ho, IHops.
Qed.

Lemma note_refs_le l acc id : (∃ m, acc = Some m ∧ id ≤ m) ∨ id ∈ l → ∃ m, foldl note_ref acc l = Some m ∧ id ≤ m.
Proof.
  revert acc. induction l as [|x l IH]; intros acc [Hm|Hid]; simpl; [done|by apply not_elem_of_nil in Hid| |].
  - apply IH. left. destruct Hm as (m & -> & Hle). simpl. eexists. split; [done|]. lia.
  - apply IH. apply elem_of_cons in Hid as [-> | ?]; [left|by right].
    destruct acc as [m|]; simpl; eexists; (split; [done|]); lia.
Qed.

(** The largest reference is below [k], so all are. *)
Lemma max_update_below o k : (if max_update_instance o None is Some m then m <? k else true) = true →
  Forall (λ id, id < k) (refs o).
Proof.
  rewrite max_update_instance_refs. intros Hm. apply Forall_forall. intros id Hid.
  destruct (note_refs_le (refs o) None id) as (m & E & Hle); [by right|]. rewrite E in Hm. propify. lia.
Qed.

Definition refs_below (k : Z) (l : list any_operation) : Prop := Forall (λ o, Forall (λ id, id < k) (refs o)) l.

Lemma refs_below_create fee payer ops e r k :
  Forall (λ id, id < k) (refs (op_proposal_create fee payer ops e r)) ↔ refs_below k ops.
Proof.
  rewrite refs_create. unfold refs_below. induction ops as [|o ops IH]; [by split|].
  rewrite fmap_cons. cbn [concat]. by rewrite Forall_app, Forall_cons, IH.
Qed.

(** ** The order of proposals *)

Notation lookup_proposal s id := (rows (proposals s) !! id).

(** Every proposal refers only to proposals made before it. *)
Definition ordered (s : pdatabase) : Prop := ∀ id p, lookup_proposal s id = Some p →
  id < next_id (proposals s) ∧ refs_below id (proposed_transaction p).

(** What does not change while a proposal exists. *)
Record same_terms (p p' : proposal_object) : Prop := SameTerms {
  st_expiration : po_expiration_time p' = po_expiration_time p;
  st_review : review_period_time p' = review_period_time p;
  st_operations : proposed_transaction p' = proposed_transaction p;
  st_active : required_active_approvals p' = required_active_approvals p;
  st_owner : required_owner_approvals p' = required_owner_approvals p }.

#[global] Instance same_terms_preorder : PreOrder same_terms.
Proof. split; [by split|]. intros p1 p2 p3 [] []. split; by etrans. Qed.

Section theorems.
Context `{HashFunctions} `{KeyAddresses}.
Variable required_fee : any_operation → share_type.
Variable viable_custom : database → account_id_type → any_operation → list authority.

(** What is established when a proposal is made: which approvals it needs, that no other
    authority is needed, and that it has a review period if the committee account is involved. *)
Record terms_ok (P : chain_parameters) (p : proposal_object) : Prop := TermsOk {
  tk_active : required_active_approvals p
    = required_active (get_required_authorities (any_required required_fee) (proposed_transaction p));
  tk_owner : required_owner_approvals p
    = required_owner (get_required_authorities (any_required required_fee) (proposed_transaction p));
  tk_other : required_other (get_required_authorities (any_required required_fee) (proposed_transaction p)) = [];
  tk_committee : GRAPHENE_COMMITTEE_ACCOUNT ∈ required_active_approvals p ∪ required_owner_approvals p →
    ∃ t, review_period_time p = Some t ∧ t + committee_proposal_review_period P ≤ po_expiration_time p }.

Lemma terms_ok_same P p p' : same_terms p p' → terms_ok P p → terms_ok P p'.
Proof. intros [Ee Er Eo Ea Ew] [Ta To Tn Tc]. split; rewrite ?Ee, ?Er, ?Eo, ?Ea, ?Ew; done. Qed.

(** How the proposals may change below [k], with only new ones from [next_id] on. *)
Record evolves (k : Z) (s s' : pdatabase) : Prop := Evolves {
  ev_ordered : ordered s';
  ev_next : next_id (proposals s) ≤ next_id (proposals s');
  ev_frame : ∀ q, k ≤ q < next_id (proposals s) → lookup_proposal s' q = lookup_proposal s q;
  ev_old : ∀ q p', q < next_id (proposals s) → lookup_proposal s' q = Some p' →
    ∃ p, lookup_proposal s q = Some p ∧ same_terms p p';
  ev_new : ∀ q p', next_id (proposals s) ≤ q → lookup_proposal s' q = Some p' →
    head_block_time (pd_db s) < po_expiration_time p' ∧ terms_ok (parameters (pd_db s)) p';
  ev_settings : settings_of (pd_db s') = settings_of (pd_db s) }.

Lemma evolves_refl k s : ordered s → evolves k s s.
Proof.
  intros Ho. split; [done|lia|done| | |done].
  - intros q p' _ Hq. by exists p'.
  - intros q p' Hq [Hlt _]%Ho. lia.
Qed.

Lemma settings_head_time d d' : settings_of d' = settings_of d → head_block_time d' = head_block_time d.
Proof. intros E. by injection E. Qed.
Lemma settings_parameters d d' : settings_of d' = settings_of d → parameters d' = parameters d.
Proof. intros E. by injection E. Qed.

Lemma evolves_trans k s1 s2 s3 : evolves k s1 s2 → evolves k s2 s3 → evolves k s1 s3.
Proof.
  intros [O2 N2 F2 P2 W2 S2] [O3 N3 F3 P3 W3 S3]. split; [done|lia| | | |by etrans].
  - intros q Hq. rewrite F3 by lia. apply F2. lia.
  - intros q p3 Hq (p2 & Hp2 & T23)%P3; [|lia]. apply P2 in Hp2 as (p1 & ? & T12); [|done].
    exists p1. split; [done|by etrans].
  - intros q p3 Hq H3. destruct (decide (q < next_id (proposals s2))) as [Hlt|Hge].
    + apply P3 in H3 as (p2 & Hp2 & T); [|done]. apply W2 in Hp2 as [He Ht]; [|done].
      split; [by rewrite (st_expiration _ _ T)|by eapply terms_ok_same].
    + rewrite <- (settings_head_time _ _ S2), <- (settings_parameters _ _ S2). apply (W3 q); [lia|done].
Qed.

Definition all_terms (s : pdatabase) : Prop := ∀ id p, lookup_proposal s id = Some p → terms_ok (parameters (pd_db s)) p.

Lemma evolves_terms k s s' : evolves k s s' → all_terms s → all_terms s'.
Proof.
  intros [_ _ _ P W S] Ht id p' Hp'. rewrite (settings_parameters _ _ S).
  destruct (decide (id < next_id (proposals s))); [|by apply (W id); [lia|]].
  apply P in Hp' as (p & Hp & T); [|done]. eapply terms_ok_same; [done|]. by apply (Ht id).
Qed.

Lemma evolves_weaken k k' s s' : k ≤ k' → evolves k s s' → evolves k' s s'.
Proof. intros Hk [O N F P W S]. split; [done|done| |done..]. intros q Hq. apply F. lia. Qed.

Lemma evolves_then k1 k2 s1 s2 s3 : evolves k1 s1 s2 → evolves k2 s2 s3 → evolves (Z.max k1 k2) s1 s3.
Proof. intros E1 E2. eapply evolves_trans; (eapply evolves_weaken; [|done]); lia. Qed.

(** Changes of the database only. *)
Lemma evolves_db k d s : ordered s → settings_of d = settings_of (pd_db s) → evolves k s (set_db d s).
Proof. intros Ho E. destruct (evolves_refl k s Ho). by split. Qed.

Lemma evolves_modify k id f t s : ordered s → id < k → (∀ p, same_terms p (f p)) →
  tbl_modify id (λ p, Ok (f p)) (proposals s) = Ok t → evolves k s (set_proposals t s).
Proof.
  intros Ho Hk Hf (p & p' & Hp & [= <-] & ->)%tbl_modify_Ok.
  assert (∀ q x, <[id := f p]> (rows (proposals s)) !! q = Some x → ∃ y, lookup_proposal s q = Some y ∧ same_terms y x) as Hold.
  { intros q x [[<- <-]|[_ Hx]]%lookup_insert_Some; [by exists p|by exists x]. }
  split; simpl; [|lia| |by intros q x _ ?%Hold| |done].
  - intros q x (y & [Hlt Hr]%Ho & [_ _ E _ _])%Hold. by rewrite E.
  - intros q Hq. rewrite lookup_insert_ne by lia. done.
  - intros q x Hq (y & [Hlt _]%Ho & _)%Hold. lia.
Qed.

Lemma evolves_remove k id t s : ordered s → id < k → tbl_remove id (proposals s) = Ok t → evolves k s (set_proposals t s).
Proof.
  intros Ho Hk (p & Hp & ->)%tbl_remove_Ok. destruct (evolves_refl k s Ho) as [O N F P W S].
  split; simpl; [| done| | | |done].
  - intros q x Hx. simpl in Hx. apply lookup_delete_Some in Hx as [_ Hx]. by apply Ho.
  - intros q Hq. by rewrite lookup_delete_ne by lia.
  - intros q x Hq [_ Hx]%lookup_delete_Some. by exists x.
  - intros q x Hq [_ Hx]%lookup_delete_Some. by apply (W q).
Qed.

Lemma evolves_create k p id t s : ordered s → refs_below (next_id (proposals s)) (proposed_transaction p) →
  head_block_time (pd_db s) < po_expiration_time p → terms_ok (parameters (pd_db s)) p →
  tbl_create p (proposals s) = Ok (id, t) → evolves k s (set_proposals t s).
Proof.
  intros Ho Hr He Hok (-> & E & ->)%tbl_create_Ok. split; simpl; [|lia| | | |done].
  - intros q x Hx. simpl in Hx. apply lookup_insert_Some in Hx as [[<- <-]|[_ Hx]]; [split; [simpl; lia|done]|]. apply Ho in Hx as [? ?]. split; [simpl; lia|done].
  - intros q Hq. by rewrite lookup_insert_ne by lia.
  - intros q x Hq. rewrite lookup_insert_ne by lia. intros Hx. by exists x.
  - intros q x Hq [[<- <-]|[_ [? _]%Ho]]%lookup_insert_Some; [done|lia].
Qed.

Definition after_1479 (s : pdatabase) : Prop := HARDFORK_CORE_1479_TIME < head_block_time (pd_db s).

Lemma evolves_after_1479 k s s' : evolves k s s' → after_1479 s → after_1479 s'.
Proof. intros [_ _ _ _ _ E]. unfold after_1479. by rewrite (settings_head_time _ _ E). Qed.

Notation vpush n := (try_push_virtual_operation (H := market_fees (plain_fee required_fee)) n).
Notation run_any := (apply_any required_fee viable_custom).
Notation run_all := (apply_all required_fee viable_custom).
Notation run_proposal := (push_proposal required_fee viable_custom).

(** ** The evaluation scheme *)

Lemma keeps_apply_operation fee push s o d : (∀ s v d, settings_of d = s → keeps s (push v d)) →
  settings_of d = s → keeps s (apply_operation fee push false o d).
Proof.
  intros Hp E. destruct o; cbn [apply_operation]; try by apply keeps_start_evaluate.
  - keeps. by apply keeps_evaluate_limit_order_create.
  - keeps. by apply keeps_evaluate_limit_order_update.
Qed.

(** Evaluating is the operation's own steps between the movements of the fee. *)
Lemma proposal_start_evaluate_inv {C} o fee (do_eval : pdatabase → result C) do_app s s' r :
  proposal_start_evaluate required_fee o fee do_eval do_app s = Ok (s', r) →
  ∃ ctx d1 s2 d2, do_eval s = Ok ctx ∧ fee_frame (pd_db s) d1 ∧ moves (pd_db s) d1 (amt (asset_id fee) (amount fee)) ∧
    do_app ctx (set_db d1 s) = Ok (s2, r) ∧ moves (pd_db s2) d2 (amt (asset_id fee) (- amount fee)) ∧
    (∃ m, d2 = set_balances m (pd_db s2)) ∧ s' = set_db d2 s2.
Proof.
  unfold proposal_start_evaluate. intros Hs.
  apply bind_Ok in Hs as (core & [_ Hcore]%prepare_fee_Ok & Hs). apply bind_Ok in Hs as ([] & _ & Hs).
  apply bind_Ok in Hs as (ctx & Hctx & Hs). apply bind_Ok in Hs as (d0 & H1 & Hs). apply bind_Ok in Hs as (d1 & H2 & Hs).
  destruct (fee_moves _ _ _ _ _ _ Hcore H1 H2) as [M F].
  apply bind_Ok in Hs as ([s2 r2] & Ha & Hs). apply bind_Ok in Hs as (neg & Hneg & Hs).
  apply bind_Ok in Hs as (d2 & H4 & E). injection E as <- <-.
  pose proof H4 as [m ->]%adjust_balance_frame. apply adjust_balance_moves in H4. inv_asset.
  exists ctx, d1, s2, (set_balances m (pd_db s2)). split_and!; [done..| |by exists m|done].
  eapply moves_ext; [exact H4|]. done.
Qed.

Lemma fee_frame_settings d d1 : fee_frame d d1 → settings_of d1 = settings_of d.
Proof. by intros (m & s & -> & _). Qed.

(** ** Operations respect the order *)

Section step.
Variable push_p : Z → proposal_object → pdatabase → result pdatabase.
Variable push_v : virtual_operation → database → result (database * Z).
Hypothesis push_v_keeps : ∀ s v d, settings_of d = s → keeps s (push_v v d).
Hypothesis push_p_evolves : ∀ id p s s', ordered s → after_1479 s → lookup_proposal s id = Some p →
  push_p id p s = Ok s' → evolves (id + 1) s s'.

Lemma update_approvals_terms op p : same_terms p (update_approvals op p).
Proof. by split. Qed.
Lemma fail_reason_terms e p : same_terms p (set_fail_reason e p).
Proof. by split. Qed.

Lemma update_apply_evolves op s s' r : ordered s → after_1479 s →
  proposal_update_do_apply required_fee viable_custom push_p op s = Ok (s', r) → evolves (pu_proposal op + 1) s s'.
Proof.
  unfold proposal_update_do_apply. intros Ho Ht Ha. apply bind_Ok in Ha as (t & Hm & Ha). cbv zeta in Ha.
  apply bind_Ok in Ha as (p & Hp%tbl_get_Ok & Ha).
  assert (evolves (pu_proposal op + 1) s (set_proposals t s)) as E1
    by (eapply evolves_modify; [done| |apply update_approvals_terms|exact Hm]; lia).
  destruct (review_period_time p); [by injection Ha as <- _|].
  destruct (is_authorized_to_execute _ _ _); [|by injection Ha as <- _].
  eapply evolves_trans; [exact E1|]. destruct E1 as [O1 _ _ _ _ S1].
  destruct (push_p _ _ _) as [s2|e] eqn:Ep.
  - injection Ha as <- _. eapply push_p_evolves; [exact O1| |exact Hp|exact Ep]. done.
  - apply bind_Ok in Ha as (t' & Hm' & E). injection E as <- _.
    eapply evolves_modify; [exact O1| |apply fail_reason_terms|exact Hm']. lia.
Qed.

Lemma create_evaluate_inv o ops e r d ctx : proposal_create_do_evaluate required_fee o ops e r d = Ok ctx →
  head_block_time d < e ∧ _proposed_ops ctx = ops ∧ vtor_1479 ctx = max_update_instance o None ∧
  ∀ payer, terms_ok (parameters d) (ProposalObject e ((λ p, e - p) <$> r) ops (_required_active_auths ctx) ∅
    (_required_owner_auths ctx) ∅ ∅ payer None).
Proof.
  unfold proposal_create_do_evaluate. intros Hc.
  apply bind_Ok in Hc as ([] & _ & Hc). apply bind_Ok in Hc as ([] & _ & Hc).
  apply bind_Ok in Hc as ([] & He%FC_ASSERT_Ok & Hc). do 2 (apply bind_Ok in Hc as ([] & _ & Hc)).
  apply bind_Ok in Hc as ([] & Hother%FC_ASSERT_Ok & Hc). apply bind_Ok in Hc as ([] & Hcom & Hc).
  do 2 (apply bind_Ok in Hc as ([] & _ & Hc)). injection Hc as <-. simpl. propify.
  split_and!; [done..|]. intros payer. split; simpl; [done|done|by destruct (required_other _)|].
  intros [Hin|Hin]%elem_of_union; [rewrite (bool_decide_eq_true_2 _ Hin) in Hcom
    |rewrite (bool_decide_eq_true_2 (_ ∈ required_owner _) Hin), orb_true_r in Hcom]; simpl in Hcom;
    (destruct r as [p|]; [|done]); apply GRAPHENE_ASSERT_Ok, Z.leb_le in Hcom; exists (e - p); (split; [done|]); lia.
Qed.

Lemma apply_any_evolves k o s s' r : ordered s → after_1479 s → Forall (λ id, id < k) (refs o) →
  run_any push_p push_v o s = Ok (s', r) → evolves k s s'.
Proof.
  intros Ho Ht Hr Ha. destruct o as [o|fee payer ops e rp|op|op]; cbn [apply_any] in Ha.
  { apply bind_Ok in Ha as ([d r'] & Ha & E). injection E as <- _. apply evolves_db; [done|].
    by apply (keeps_apply_operation _ _ (settings_of (pd_db s)) _ _ push_v_keeps eq_refl) in Ha. }
  all: apply proposal_start_evaluate_inv in Ha as (ctx & d1 & s2 & d2 & He & F%fee_frame_settings & _ & Ha & _ & (m & ->) & ->).
  all: assert (ordered (set_db d1 s)) as Ho1 by exact Ho.
  all: assert (after_1479 (set_db d1 s)) as Ht1 by (unfold after_1479 in *; simpl; by rewrite (settings_head_time _ _ F)).
  all: enough (evolves k (set_db d1 s) s2) as E2
         by (eapply evolves_trans; [by apply (evolves_db _ d1)|]; eapply evolves_trans; [exact E2|];
             apply evolves_db; [apply E2|done]).
  - unfold proposal_create_do_apply in Ha. simpl in Ha. unfold after_1479 in Ht1. simpl in Ht1.
    rewrite (proj2 (Z.ltb_lt _ _) Ht1) in Ha. simpl in Ha.
    apply create_evaluate_inv in He as (Hexp & Eops & Ev & Hterms). rewrite Ev in Ha.
    apply bind_Ok in Ha as (ops' & Hm & Ha). apply bind_Ok in Hm as ([] & Hm%FC_ASSERT_Ok & [= <-]).
    apply bind_Ok in Ha as ([id t] & Hc & [= <- _]). apply max_update_below, refs_below_create in Hm.
    eapply (evolves_create k); [done| | | |exact Hc]; simpl.
    + by rewrite Eops.
    + by rewrite (settings_head_time _ _ F).
    + rewrite (settings_parameters _ _ F), Eops. apply Hterms.
  - apply Forall_inv in Hr. simpl in Hr. eapply evolves_weaken; [|by eapply update_apply_evolves]. lia.
  - apply Forall_inv in Hr. simpl in Hr. unfold proposal_delete_do_apply in Ha. apply bind_Ok in Ha as (t & Hrm & [= <- _]).
    by eapply evolves_remove.
Qed.

Lemma apply_all_evolves k l s s' rs : ordered s → after_1479 s → refs_below k l →
  run_all push_p push_v l s = Ok (s', rs) → evolves k s s'.
Proof.
  intros Ho Ht Hr. revert s rs Ho Ht. induction Hr as [|o l Hr _ IH]; intros s rs Ho Ht Ha; simpl in Ha.
  - injection Ha as <- _. by apply evolves_refl.
  - apply bind_Ok in Ha as ([s1 r] & H1 & Ha). apply bind_Ok in Ha as ([s2 rs'] & H2 & [= <- _]).
    pose proof (apply_any_evolves k o s s1 r Ho Ht Hr H1) as E1.
    eapply evolves_trans; [exact E1|]. eapply IH; [apply E1|by eapply evolves_after_1479|exact H2].
Qed.
End step.

Lemma push_proposal_evolves depth id p s s' : ordered s → after_1479 s → lookup_proposal s id = Some p →
  run_proposal depth id p s = Ok s' → evolves (id + 1) s s' ∧ lookup_proposal s' id = None.
Proof.
  revert id p s s'. induction depth as [|depth IH]; intros id p s s' Ho Ht Hp Hpush; simpl in Hpush; [done|].
  apply bind_Ok in Hpush as ([s1 rs] & Ha & Hpush). apply bind_Ok in Hpush as ([] & _ & Hpush).
  apply bind_Ok in Hpush as (t & Hrm & [= <-]).
  apply (apply_all_evolves (run_proposal depth) (vpush depth)
    ltac:(intros; by apply keeps_try_push) ltac:(intros; by eapply IH) id) in Ha; [|done..|by apply Ho in Hp as [_ ?]].
  split.
  - eapply evolves_trans; [eapply evolves_weaken; [|exact Ha]; lia|].
    eapply evolves_remove; [apply Ha| |exact Hrm]. lia.
  - apply tbl_remove_Ok in Hrm as (v & _ & ->). apply lookup_delete_eq.
Qed.

(** ** Executions keep the books *)

(** The operations other than those on proposals, inside an operation. *)
Fixpoint leaves (o : any_operation) : list operation :=
  match o with
  | op_plain o => [o]
  | op_proposal_create _ _ proposed_ops _ _ =>
    (fix go (l : list any_operation) : list operation := match l with [] => [] | op :: l => leaves op ++ go l end)
      proposed_ops
  | _ => []
  end.

(** Operations that the conservation theorems cover, and that are valid. *)
Definition any_plain (o : any_operation) : Prop := Forall (plain_operation (plain_fee required_fee)) (leaves o).
Definition any_ok (o : any_operation) : Prop := any_plain o ∧ any_validate required_fee o = Ok ().

Lemma any_ok_create fee payer ops e r : any_ok (op_proposal_create fee payer ops e r) → Forall any_ok ops.
Proof.
  intros [Hp Hv]. unfold any_plain in Hp. simpl in Hp, Hv. apply bind_Ok in Hv as ([] & _ & Hv).
  induction ops as [|o ops IH]; constructor.
  - split; [by apply Forall_app in Hp as [? _]|]. by apply bind_Ok in Hv as ([] & ? & _).
  - apply IH; [by apply Forall_app in Hp as [_ ?]|]. by apply bind_Ok in Hv as ([] & _ & ?).
Qed.

Definition stored_ok (s : pdatabase) : Prop := ∀ id p, lookup_proposal s id = Some p → Forall any_ok (proposed_transaction p).

(** The invariant, and what a change may do to it. *)
Record pchain_ok (s : pdatabase) : Prop := PchainOk { pc_chain : chain_ok (pd_db s); pc_stored : stored_ok s }.
Definition keeps_books (s s' : pdatabase) : Prop := pchain_ok s → pchain_ok s' ∧ conserves (pd_db s) (pd_db s').

#[local] Instance keeps_books_preorder : PreOrder keeps_books.
Proof.
  split; [intros s Hs; split; [done|reflexivity]|]. intros s1 s2 s3 H12 H23 [H2 M2]%H12.
  apply H23 in H2 as [H3 M3]. split; [done|by etrans].
Qed.

Lemma stored_modify id f t s : (∀ p, same_terms p (f p)) → tbl_modify id (λ p, Ok (f p)) (proposals s) = Ok t →
  keeps_books s (set_proposals t s).
Proof.
  intros Hf (p & p' & Hp & [= <-] & ->)%tbl_modify_Ok [Hc Hs]. split; [|reflexivity]. split; [done|].
  intros q x Hx. simpl in Hx. apply lookup_insert_Some in Hx as [[<- <-]|[_ Hx]]; [|by apply (Hs q)].
  rewrite (st_operations _ _ (Hf p)). by apply (Hs id).
Qed.

Lemma stored_remove id t s : tbl_remove id (proposals s) = Ok t → keeps_books s (set_proposals t s).
Proof.
  intros (p & Hp & ->)%tbl_remove_Ok [Hc Hs]. split; [|reflexivity]. split; [done|].
  intros q x Hx. simpl in Hx. apply lookup_delete_Some in Hx as [_ Hx]. by apply (Hs q).
Qed.

Lemma stored_create p id t s : Forall any_ok (proposed_transaction p) → tbl_create p (proposals s) = Ok (id, t) →
  keeps_books s (set_proposals t s).
Proof.
  intros Hp (-> & E & ->)%tbl_create_Ok [Hc Hs]. split; [|reflexivity]. split; [done|].
  intros q x Hx. simpl in Hx. apply lookup_insert_Some in Hx as [[<- <-]|[_ Hx]]; [done|by apply (Hs q)].
Qed.

Lemma prevent_approval_ok : any_ok prevent_approval.
Proof. split; [by repeat constructor|done]. Qed.

Section books.
Variable push_p : Z → proposal_object → pdatabase → result pdatabase.
Variable push_v : virtual_operation → database → result (database * Z).
Hypothesis push_p_books : ∀ id p s s', Forall any_ok (proposed_transaction p) → push_p id p s = Ok s' → keeps_books s s'.

(** The steps between the movements of the fee. *)
Lemma fee_keeps_books {C} o fee (do_eval : pdatabase → result C) do_app s s' r :
  (∀ ctx d1 s2, do_eval s = Ok ctx → do_app ctx (set_db d1 s) = Ok (s2, r) → keeps_books (set_db d1 s) s2) →
  proposal_start_evaluate required_fee o fee do_eval do_app s = Ok (s', r) → keeps_books s s'.
Proof.
  intros Happ (ctx & d1 & s2 & d2 & He & F & M1 & Ha & M2 & (m & E2) & ->)%proposal_start_evaluate_inv [Hc Hs].
  destruct (Happ _ _ _ He Ha) as [[[Hb2 Hc2] Hs2] M].
  { split; [|done]. split; [apply M1, Hc|]. by eapply fee_frame_credit. }
  split; [split; [split; simpl; [by apply M2|rewrite E2; exact Hc2]|done]|]. simpl.
  eapply moves_ext; [eapply moves_trans; [eapply moves_trans; [exact M1|exact M]|exact M2]|].
  intros a. simpl. amt_solve.
Qed.

Lemma update_apply_books op s s' r :
  proposal_update_do_apply required_fee viable_custom push_p op s = Ok (s', r) → keeps_books s s'.
Proof.
  unfold proposal_update_do_apply. intros Ha. apply bind_Ok in Ha as (t & Hm & Ha). cbv zeta in Ha.
  apply bind_Ok in Ha as (p & Hp%tbl_get_Ok & Ha).
  pose proof (stored_modify _ _ _ _ (update_approvals_terms op) Hm) as B1.
  etrans; [exact B1|].
  destruct (review_period_time p); [by injection Ha as <- _|].
  destruct (is_authorized_to_execute _ _ _); [|by injection Ha as <- _].
  destruct (push_p _ _ _) as [s2|e] eqn:Ep.
  - injection Ha as <- _. intros Hs. exact (push_p_books _ _ _ _ (pc_stored _ Hs _ _ Hp) Ep Hs).
  - apply bind_Ok in Ha as (t' & Hm' & [= <- _]). exact (stored_modify _ _ _ _ (fail_reason_terms e) Hm').
Qed.

Lemma create_apply_books payer e rp ctx s s' r : Forall any_ok (_proposed_ops ctx) →
  proposal_create_do_apply payer e rp ctx s = Ok (s', r) → keeps_books s s'.
Proof.
  unfold proposal_create_do_apply. intros Hops Ha. apply bind_Ok in Ha as (ops & Hop & Ha).
  apply bind_Ok in Ha as ([id t] & Hc & [= <- _]). apply stored_create in Hc; [done|]. simpl.
  destruct (_ <? _); [by apply bind_Ok in Hop as ([] & _ & [= <-])|]. injection Hop as <-.
  destruct (vtor_1479 ctx); [|done]. destruct (_ <=? _); [|done].
  apply Forall_app. split; [done|]. constructor; [apply prevent_approval_ok|done].
Qed.

Lemma apply_any_books o s s' r : any_ok o → run_any push_p push_v o s = Ok (s', r) → keeps_books s s'.
Proof.
  intros Hok Ha. destruct o as [o|fee payer ops e rp|op|op]; cbn [apply_any] in Ha.
  - apply bind_Ok in Ha as ([d r'] & Ha & E). injection E as <- _. intros [Hc Hs]. destruct Hok as [Hp Hv].
    apply Forall_inv in Hp. destruct (apply_operation_ok _ _ _ _ _ _ Hc Hp Hv Ha) as [? ?]. split; [by split|done].
  - eapply fee_keeps_books; [|exact Ha]. intros ctx d1 s2 He Hap. eapply create_apply_books; [|exact Hap].
    apply create_evaluate_inv in He as (_ & -> & _ & _). by eapply any_ok_create.
  - eapply fee_keeps_books; [|exact Ha]. intros ctx d1 s2 He Hap. exact (update_apply_books _ _ _ _ Hap).
  - eapply fee_keeps_books; [|exact Ha]. intros ctx d1 s2 He Hap. unfold proposal_delete_do_apply in Hap.
    apply bind_Ok in Hap as (t & Hrm & [= <- _]). by eapply stored_remove.
Qed.

Lemma apply_all_books l s s' rs : Forall any_ok l → run_all push_p push_v l s = Ok (s', rs) → keeps_books s s'.
Proof.
  intros Hl. revert s rs. induction Hl as [|o l Ho _ IH]; intros s rs Ha; simpl in Ha.
  - by injection Ha as <- _.
  - apply bind_Ok in Ha as ([s1 r] & H1 & Ha). apply bind_Ok in Ha as ([s2 rs'] & H2 & [= <- _]).
    etrans; [by eapply apply_any_books|by eapply IH].
Qed.
End books.

Lemma push_proposal_books depth id p s s' : Forall any_ok (proposed_transaction p) →
  run_proposal depth id p s = Ok s' → keeps_books s s'.
Proof.
  revert id p s s'. induction depth as [|depth IH]; intros id p s s' Hp Hpush; simpl in Hpush; [done|].
  apply bind_Ok in Hpush as ([s1 rs] & Ha & Hpush). apply bind_Ok in Hpush as ([] & _ & Hpush).
  apply bind_Ok in Hpush as (t & Hrm & [= <-]).
  etrans; [by eapply apply_all_books|by eapply stored_remove].
Qed.

(** ** Expired proposals *)

Definition expired (s : pdatabase) : gset Z :=
  dom (filter (λ x, po_expiration_time x.2 ≤ head_block_time (pd_db s)) (rows (proposals s))).

Lemma elem_of_expired s q :
  q ∈ expired s ↔ ∃ p, lookup_proposal s q = Some p ∧ po_expiration_time p ≤ head_block_time (pd_db s).
Proof. unfold expired. rewrite elem_of_dom. unfold is_Some. by setoid_rewrite map_lookup_filter_Some. Qed.

(** Whatever happens, the proposal is gone. *)
Lemma expire_proposal_ok id p s : ordered s → after_1479 s → lookup_proposal s id = Some p →
  ∃ s', expire_proposal required_fee viable_custom id p s = Ok s' ∧ evolves (id + 1) s s' ∧
    lookup_proposal s' id = None ∧ keeps_books s s'.
Proof.
  intros Ho Ht Hp. unfold expire_proposal.
  destruct (if is_authorized_to_execute _ _ _ _ then _ else _) as [s'|e] eqn:E.
  - destruct (is_authorized_to_execute _ _ _ _); [|done]. exists s'. split; [done|].
    pose proof E as [? ?]%push_proposal_evolves; [|done..]. split_and!; [done..|].
    intros Hs. by apply push_proposal_books in E; [apply E|by apply (pc_stored _ Hs id)].
  - assert (tbl_remove id (proposals s) = Ok (Table (next_id (proposals s)) (delete id (rows (proposals s))))) as Hrm.
    { unfold tbl_remove. by rewrite (proj2 (tbl_get_Ok _ _ _) Hp). }
    rewrite Hrm. simpl. eexists. split; [done|].
    split_and!; [eapply evolves_remove; [done| |exact Hrm]; lia|apply lookup_delete_eq|by eapply stored_remove].
Qed.

Lemma expired_shrinks k id s s' : evolves k s s' → lookup_proposal s' id = None → expired s' ⊆ expired s ∖ {[ id ]}.
Proof.
  intros E Hnone q (p' & Hp' & Hle)%elem_of_expired. pose proof (settings_head_time _ _ (ev_settings _ _ _ E)) as Eh.
  rewrite Eh in Hle. apply elem_of_difference. split; [|intros ->%elem_of_singleton; by rewrite Hp' in Hnone].
  destruct (decide (q < next_id (proposals s))).
  - apply (ev_old _ _ _ E) in Hp' as (p & Hp & [Ex _ _ _ _]); [|done]. apply elem_of_expired. exists p.
    split; [done|]. by rewrite <- Ex.
  - apply (ev_new _ _ _ E) in Hp'; lia.
Qed.

Lemma expire_proposals_complete fuel s : ordered s → after_1479 s → (size (expired s) ≤ fuel)%nat →
  ∃ s', expire_proposals required_fee viable_custom fuel s = Ok s' ∧ expired s' = ∅ ∧
    (∃ k, evolves k s s') ∧ keeps_books s s'.
Proof.
  revert s. induction fuel as [|fuel IH]; intros s Ho Ht Hs; simpl; pose proof (evolves_refl 0 s Ho) as E0.
  { exists s. split_and!; [done| |eauto|done]. apply leibniz_equiv, size_empty_inv. lia. }
  destruct (first_by _ _) as [[id p]|] eqn:Ef.
  - apply first_by_Some in Ef as [Hp Hmin]. simpl in *. destruct (Z.leb_spec (po_expiration_time p) (head_block_time (pd_db s))) as [Hle|Hgt].
    + destruct (expire_proposal_ok id p s Ho Ht Hp) as (s1 & -> & E1 & Hnone & B1). simpl.
      destruct (IH s1) as (s' & Hs' & He & [k E] & B); [apply E1|by eapply evolves_after_1479| |].
      { pose proof (expired_shrinks _ _ _ _ E1 Hnone) as Hsub%subseteq_size.
        rewrite size_difference, size_singleton in Hsub; [lia|].
        apply singleton_subseteq_l, elem_of_expired. eauto. }
      exists s'. split_and!; [done..|eexists; by eapply evolves_then|by etrans].
    + exists s. split_and!; [done| |eauto|done]. apply set_eq. intros q. split; [|set_solver].
      intros (x & Hx%Hmin & Hle)%elem_of_expired. simpl in Hx. lia.
  - exists s. split_and!; [done| |eauto|done]. apply first_by_None in Ef. unfold expired. rewrite Ef.
    by rewrite map_filter_empty, dom_empty_L.
Qed.

Lemma clear_expired_ok s : ordered s → after_1479 s → ∃ s', clear_expired_proposals required_fee viable_custom s = Ok s' ∧
  expired s' = ∅ ∧ (∃ k, evolves k s s') ∧ keeps_books s s'.
Proof.
  intros Ho Ht. apply expire_proposals_complete; [done..|]. unfold expired. rewrite size_dom.
  apply map_subseteq_size, map_filter_subseteq.
Qed.

(** ** Claims *)

(** C9: executing a proposal never touches the proposal itself. After hard fork 1479, in a state in
    which every stored proposal refers only to proposals made before it ([ordered]): if the
    operations of a proposal are applied without an exception, with every proposal that they execute
    in turn, the proposal being executed and all made after it stay exactly as they are, so the code
    may keep its reference and remove the proposal at the end, which succeeds; and proposals still
    refer only to earlier ones. *)
Theorem execution_spares_itself depth id p s s' rs :
  ordered s → after_1479 s → lookup_proposal s id = Some p →
  run_all (run_proposal depth) (vpush depth) (proposed_transaction p) s = Ok (s', rs) →
  lookup_proposal s' id = Some p ∧ ordered s' ∧
  (∀ q, id ≤ q < next_id (proposals s) → lookup_proposal s' q = lookup_proposal s q) ∧
  ∃ t, tbl_remove id (proposals s') = Ok t.
Proof.
  intros Ho Ht Hp Ha. pose proof (Ho _ _ Hp) as [Hlt Hr].
  apply (apply_all_evolves (run_proposal depth) (vpush depth)
    ltac:(intros; by apply keeps_try_push) ltac:(intros; by eapply push_proposal_evolves) id) in Ha; [|done..].
  assert (lookup_proposal s' id = Some p) as Hp' by (rewrite (ev_frame _ _ _ Ha); [done|lia]).
  split_and!; [done|apply Ha|apply Ha|]. unfold tbl_remove. rewrite (proj2 (tbl_get_Ok _ _ _) Hp'). simpl. eauto.
Qed.

(** C24: expired proposals are cleared. After hard fork 1479, in a state in which every stored
    proposal refers only to proposals made before it ([ordered]), clearing comes to its end without
    an exception and leaves no expired proposal, whatever the executions it tries do; and proposals
    still refer only to earlier ones. *)
Theorem clear_expired_proposals_complete s : ordered s → after_1479 s →
  ∃ s', clear_expired_proposals required_fee viable_custom s = Ok s' ∧ ordered s' ∧
    ∀ id p, lookup_proposal s' id = Some p → head_block_time (pd_db s') < po_expiration_time p.
Proof.
  intros Ho Ht. destruct (clear_expired_ok s Ho Ht) as (s' & Hc & He & [k E] & _).
  exists s'. split_and!; [done|apply E|]. intros id p Hp. apply Z.nle_gt. intros Hle.
  assert (id ∈ expired s') as Hin by (apply elem_of_expired; eauto). rewrite He in Hin. set_solver.
Qed.

(** The chain as far as proposals go: the operations of a transaction, the tasks at the end of
    a block, the next block. *)
Inductive proposal_step : pdatabase → pdatabase → Prop :=
  | step_operations l s s' rs : Forall any_ok l →
      apply_any_operations required_fee viable_custom l s = Ok (s', rs) → proposal_step s s'
  | step_clear_expired s s' : clear_expired_proposals required_fee viable_custom s = Ok s' → proposal_step s s'
  | step_later seconds s : 0 ≤ seconds → proposal_step s (set_db (later seconds (pd_db s)) s).

Record proposals_inv (s : pdatabase) : Prop := ProposalsInv {
  pi_ordered : ordered s;
  pi_after : after_1479 s;
  pi_terms : all_terms s;
  pi_chain : pchain_ok s }.

(** A bound of the references in a list. *)
Lemma refs_bounded l : ∃ k, refs_below k l.
Proof.
  exists (foldr Z.max 0 (mjoin (refs <$> l)) + 1).
  assert (∀ m id, id ∈ m → id ≤ foldr Z.max 0 m) as Hmax.
  { intros m id. induction m as [|x m IH]; simpl; [by intros ?%not_elem_of_nil|]. intros [-> | ?%IH]%elem_of_cons; lia. }
  apply Forall_forall. intros o Ho. apply Forall_forall. intros id Hid.
  enough (id ≤ foldr Z.max 0 (mjoin (refs <$> l))) by lia. apply Hmax, list_elem_of_join. exists (refs o).
  split; [done|]. by apply list_elem_of_fmap_2.
Qed.

Lemma apply_operations_evolves l s s' rs : ordered s → after_1479 s →
  apply_any_operations required_fee viable_custom l s = Ok (s', rs) → ∃ k, evolves k s s'.
Proof.
  intros Ho Ht Ha. destruct (refs_bounded l) as [k Hk]. exists k. unfold apply_any_operations in Ha.
  by apply (apply_all_evolves (run_proposal _) (vpush _)
    ltac:(intros; by apply keeps_try_push) ltac:(intros; by eapply push_proposal_evolves) k) in Ha.
Qed.

Lemma proposal_step_inv s s' : proposal_step s s' → proposals_inv s →
  proposals_inv s' ∧ ∀ a, holdings (pd_db s') a - supply (pd_db s') a = holdings (pd_db s) a - supply (pd_db s) a.
Proof.
  intros Hstep [Ho Ht Hm Hc]. destruct Hstep as [l s s' rs Hl Ha|s s' Ha|n s Hn].
  - pose proof (apply_operations_evolves _ _ _ _ Ho Ht Ha) as [k E]. unfold apply_any_operations in Ha.
    apply (apply_all_books _ _ (push_proposal_books _)) in Ha; [|done]. destruct (Ha Hc) as [Hc' M].
    split; [split; [apply E|by eapply evolves_after_1479|by eapply evolves_terms|done]|].
    intros a. rewrite (mv_backing _ _ _ M a). lia.
  - destruct (clear_expired_ok s Ho Ht) as (s1 & Hs1 & _ & [k E] & B). rewrite Ha in Hs1. injection Hs1 as <-.
    destruct (B Hc) as [Hc' M]. split; [|intros a; rewrite (mv_backing _ _ _ M a); lia].
    split; [apply E|by eapply evolves_after_1479|by eapply evolves_terms|done].
  - destruct Hc as [Hc Hs]. split; [|done]. split; [done| |done|].
    + unfold after_1479 in *. simpl. lia.
    + split; [by apply later_chain_ok|done].
Qed.

Lemma reachable_inv s s' : proposals_inv s → rtc proposal_step s s' → proposals_inv s' ∧
  (∀ a, holdings (pd_db s') a - supply (pd_db s') a = holdings (pd_db s) a - supply (pd_db s) a) ∧
  parameters (pd_db s') = parameters (pd_db s).
Proof.
  intros Hs Hr. revert Hs. induction Hr as [s|s1 s2 s3 H12 _ IH]; intros Hs; [done|].
  destruct (proposal_step_inv _ _ H12 Hs) as [Hs2 E2]. destruct (IH Hs2) as (Hs3 & E3 & P3).
  split_and!; [done|intros a; by rewrite E3|]. rewrite P3. destruct Hs as [Ho Ht _ _].
  destruct H12 as [l s s' rs Hl Ha|s s' Ha|n s Hn]; [| |done].
  - apply apply_operations_evolves in Ha as [k E]; [|done..]. apply settings_parameters, E.
  - destruct (clear_expired_ok s Ho Ht) as (s4 & Hs4 & _ & [k E] & B). rewrite Ha in Hs4. injection Hs4 as <-.
    apply settings_parameters, E.
Qed.

(** C10: proposals keep the books. Start after hard fork 1479 in a state that satisfies [chain_ok]
    and in which every stored proposal refers only to earlier ones, is consistent with its
    operations, and consists of valid [plain_operation]s. Consider any sequence of applied
    transactions with proposals, approvals that execute them, failed executions, vetoes, expirations
    and new blocks, in which all operations, the proposed ones included, are valid
    [plain_operation]s: limit orders are created and updated without take-profit actions, with
    amounts that are values of [share_type], and with a fee paid in the core asset or with a
    positive core value in the fee schedule. Then each asset's holdings minus its supply stays what
    it was and all these invariants hold again. *)
Theorem proposals_keep_books s s' : proposals_inv s → rtc proposal_step s s' →
  proposals_inv s' ∧ ∀ a, holdings (pd_db s') a - supply (pd_db s') a = holdings (pd_db s) a - supply (pd_db s) a.
Proof.
  intros Hs Hr. by destruct (reachable_inv s s' Hs Hr) as (? & ? & _).
Qed.

(** The committee cannot be rushed.  Starting from a state that satisfies the invariant (such
    as one without proposals), every proposal that needs the approval of the committee account
    has a review period, and it is at least as long as the parameters demand. *)
Theorem committee_proposals_reviewed s s' id p : proposals_inv s → rtc proposal_step s s' →
  lookup_proposal s' id = Some p →
  GRAPHENE_COMMITTEE_ACCOUNT ∈ required_active_approvals p ∪ required_owner_approvals p →
  ∃ t, review_period_time p = Some t ∧
    t + committee_proposal_review_period (parameters (pd_db s)) ≤ po_expiration_time p.
Proof.
  intros Hs Hr Hp Hin. destruct (reachable_inv s s' Hs Hr) as ([_ _ Ht _] & _ & <-). by apply (Ht id).
Qed.

(** Proposals have no index that could be violated. *)
Lemma modify_proposal id f p (t : table proposal_object) : rows t !! id = Some p →
  tbl_modify id (λ p, Ok (f p)) t = Ok (Table (next_id t) (<[id := f p]> (rows t))).
Proof.
  intros Hp. unfold tbl_modify, clashes. rewrite (proj2 (tbl_get_Ok _ _ _) Hp). simpl.
  rewrite bool_decide_eq_false_2; [done|]. by intros (k & v & _ & _ & ?).
Qed.

(** The update, up to whether the proposal is executed. *)
Lemma update_apply_eq push_p op s p : lookup_proposal s (pu_proposal op) = Some p →
  let p' := update_approvals op p in
  let s' := set_proposals (Table (next_id (proposals s)) (<[pu_proposal op := p']> (rows (proposals s)))) s in
  proposal_update_do_apply required_fee viable_custom push_p op s =
    if review_period_time p is Some _ then Ok (s', void_result)
    else if is_authorized_to_execute required_fee viable_custom p' (pd_db s) then
      match push_p (pu_proposal op) p' s' with
      | Ok s2 => Ok (s2, void_result)
      | Err e =>
        t ← tbl_modify (pu_proposal op) (λ p, Ok (set_fail_reason e p)) (proposals s');
        Ok (set_proposals t s', void_result)
      end
    else Ok (s', void_result).
Proof.
  intros Hp. unfold proposal_update_do_apply. rewrite (modify_proposal _ (update_approvals op) _ _ Hp).
  cbn [mbind result_bind]. unfold tbl_get. cbn [proposals set_proposals rows]. by rewrite lookup_insert_eq.
Qed.

(** The result of an update whose proposal has a review period. *)
Lemma reviewed_update_apply push_p op s p t :
  lookup_proposal s (pu_proposal op) = Some p → review_period_time p = Some t →
  proposal_update_do_apply required_fee viable_custom push_p op s =
    Ok (set_proposals (Table (next_id (proposals s)) (<[pu_proposal op := update_approvals op p]> (rows (proposals s)))) s,
        void_result).
Proof.
  intros Hp Hr. rewrite (update_apply_eq _ _ _ _ Hp). by rewrite Hr.
Qed.

(** A review period holds the execution back.  Approving a proposal that has a review period
    never executes it: only the approvals change and the fee is paid.  Once the review period has
    begun, no account approval can be added any more, only withdrawn. *)
Theorem review_period_holds push_p push_v op s s' r p t :
  lookup_proposal s (pu_proposal op) = Some p → review_period_time p = Some t →
  run_any push_p push_v (op_proposal_update op) s = Ok (s', r) →
  (∃ d1 m, fee_frame (pd_db s) d1 ∧ pd_db s' = set_balances m d1) ∧
  rows (proposals s') = <[pu_proposal op := update_approvals op p]> (rows (proposals s)) ∧
  (t ≤ head_block_time (pd_db s) →
     available_active_approvals (update_approvals op p) ⊆ available_active_approvals p ∧
     available_owner_approvals (update_approvals op p) ⊆ available_owner_approvals p).
Proof.
  intros Hp Hr Ha. cbn [apply_any] in Ha.
  apply proposal_start_evaluate_inv in Ha as (ctx & d1 & s2 & d2 & He & F & _ & Ha & _ & (m & ->) & ->).
  erewrite reviewed_update_apply in Ha; [|done..]. injection Ha as <- _. split_and!; [by exists d1, m|done|].
  intros Ht. unfold proposal_update_do_evaluate in He. apply bind_Ok in He as (p' & Hp'%tbl_get_Ok & He).
  rewrite Hp' in Hp. injection Hp as ->. rewrite Hr, (proj2 (Z.leb_le _ _) Ht) in He.
  apply bind_Ok in He as ([] & He%FC_ASSERT_Ok & _). apply andb_true_iff in He as [Ea%bool_decide_eq_true_1 Eo%bool_decide_eq_true_1]. simpl. rewrite Ea, Eo. set_solver.
Qed.

(** An authority that only keys can satisfy. *)
Record key_only (au : authority) : Prop := KeyOnly {
  ko_accounts : account_auths au = [];
  ko_addresses : address_auths au = [];
  ko_threshold : 0 < weight_threshold au }.

(** The operations need the active authority of one account and have no custom authorities. *)
Record single_payer (d : database) (c : account_id_type) (ops : list any_operation) : Prop := SinglePayer {
  sp_some : ops ≠ [];
  sp_required : ∀ op, op ∈ ops → any_required required_fee op = ({[ c ]}, ∅, []);
  sp_custom : ∀ op, op ∈ ops → viable_custom d c op = [] }.

Lemma ascending_singleton c : ascending {[ c ]} = [c].
Proof. unfold ascending. by rewrite elements_singleton. Qed.

Lemma ascending_empty : ascending ∅ = [].
Proof. unfold ascending. by rewrite elements_empty. Qed.

Lemma collect_single d c allow n ops r s :
  (∀ op, op ∈ ops → any_required required_fee op = ({[ c ]}, ∅, [])) → (∀ op, op ∈ ops → viable_custom d c op = []) →
  collect_required (any_required required_fee) (get_active d) (get_owner d) (viable_custom d) allow n ops r s =
    Ok (s, Requirements (required_active r ∪ (if ops is [] then ∅ else {[ c ]})) (required_owner r) (required_other r)).
Proof.
  revert r. induction ops as [|op ops IH]; intros r Hr Hc; simpl.
  - rewrite (right_id_L ∅ (∪)). by destruct r.
  - rewrite (Hr op), ascending_singleton by constructor. simpl. rewrite (Hc op) by constructor. simpl.
    rewrite IH by (intros; (apply Hr || apply Hc); by constructor). simpl. rewrite (right_id_L ∅ (∪) (required_owner r)), app_nil_r.
    do 3 f_equal. destruct ops; set_solver.
Qed.

(** What is left of [verify_authority] for such operations. *)
Lemma verify_single p d c : single_payer d c (proposed_transaction p) →
  proposal_verify required_fee viable_custom p d =
    ('(s, yes) ← check_required_active (get_active d) (get_owner d) (HARDFORK_CORE_584_TIME <=? head_block_time d) ∅
                   (Z.to_nat (max_authority_depth (parameters d))) c
                   (new_sign_state (available_key_approvals p) (available_active_approvals p ∪ available_owner_approvals p));
     GRAPHENE_ASSERT yes "tx_missing_active_auth";; GRAPHENE_ASSERT (negb (remove_unused_signatures s).2) "tx_irrelevant_sig").
Proof.
  intros [Hne Hr Hc]. unfold proposal_verify, verify_authority. rewrite (collect_single _ c) by done. simpl.
  destruct (proposed_transaction p); [done|]. rewrite (left_id_L ∅ (∪)). unfold assert_all.
  rewrite ascending_singleton, ascending_empty. simpl. by destruct (check_required_active _ _ _ _ _ _ _) as [[s []]|].
Qed.

Lemma no_signature l th approved :
  add_weights (signed_by ∅) th l (new_sign_state ∅ approved) 0 = Ok (new_sign_state ∅ approved, 0, false).
Proof.
  induction l as [|[k w] l IH]; [done|]. cbn [add_weights]. unfold signed_by.
  cbn [provided_signatures new_sign_state]. rewrite (proj2 (lookup_gset_to_gmap_None false ∅ k)) by set_solver.
  exact IH.
Qed.

(** Without approvals such an authority is not satisfied. *)
Lemma key_only_unsigned get_active get_owner allow n au approved : key_only au →
  check_authority get_active get_owner allow ∅ n (Some au) (new_sign_state ∅ approved) =
    Ok (new_sign_state ∅ approved, false).
Proof.
  intros [Ea Ed Ht]. destruct n; cbn [check_authority]; rewrite Ea, Ed, no_signature; simpl;
    by rewrite (proj2 (Z.leb_gt _ _) Ht).
Qed.

(** A first key of enough weight satisfies an authority at once. *)
Lemma first_key_signs get_active get_owner allow n au approved k w l :
  key_auths au = (k, w) :: l → weight_threshold au ≤ w → 0 ≤ w < 2 ^ 32 →
  check_authority get_active get_owner allow ∅ n (Some au) (new_sign_state {[ k ]} approved) =
    Ok (use_key k (new_sign_state {[ k ]} approved), true).
Proof.
  intros Ek Ht Hw. assert (signed_by ∅ k (new_sign_state {[ k ]} approved) = Ok (use_key k (new_sign_state {[ k ]} approved), true)) as Hs.
  { unfold signed_by. cbn [provided_signatures new_sign_state].
    by rewrite (proj2 (lookup_gset_to_gmap_Some false {[ k ]} k false)) by set_solver. }
  destruct n; cbn [check_authority]; rewrite Ek; cbn [add_weights]; rewrite Hs; cbn [mbind result_bind];
    rewrite Z.add_0_l, Z.mod_small by lia; by rewrite (proj2 (Z.leb_le _ _) Ht).
Qed.

Lemma key_is_used k approved : (remove_unused_signatures (use_key k (new_sign_state {[ k ]} approved))).2 = false.
Proof.
  unfold remove_unused_signatures. cbn [use_key provided_signatures new_sign_state snd].
  rewrite bool_decide_eq_true_2; [done|]. apply map_filter_id. intros i x.
  destruct (decide (i = k)) as [->|Hne]; [rewrite lookup_insert_eq; by intros [= <-]|].
  rewrite lookup_insert_ne by done. rewrite lookup_gset_to_gmap_Some. set_solver.
Qed.

(** C38: the review period does not stop approvals by keys. Take a proposal in its review period
    without any approval, whose operations all need only the active authority of one account, which
    has no custom authorities for them and whose active and owner authorities consist of keys (with
    positive thresholds). It is not authorized to be executed. An update that adds only the first
    key of the account's active authority, whose weight reaches the threshold, passes the check of
    the review period and is applied, and the proposal that is stored then, with the same
    operations, is authorized to be executed. *)
Theorem review_period_admits_keys push_p op s p t c k w l act own :
  lookup_proposal s (pu_proposal op) = Some p → review_period_time p = Some t → t ≤ head_block_time (pd_db s) →
  op = ProposalUpdateOperation (pu_fee_paying_account op) (pu_fee op) (pu_proposal op) ∅ ∅ ∅ ∅ {[ k ]} ∅ →
  available_active_approvals p = ∅ → available_owner_approvals p = ∅ → available_key_approvals p = ∅ →
  single_payer (pd_db s) c (proposed_transaction p) → c ≠ GRAPHENE_TEMP_ACCOUNT →
  get_active (pd_db s) c = Ok (Some act) → get_owner (pd_db s) c = Ok (Some own) → key_only act → key_only own →
  key_auths act = (k, w) :: l → weight_threshold act ≤ w → w < 2 ^ 32 →
  is_authorized_to_execute required_fee viable_custom p (pd_db s) = false ∧
  proposal_update_do_evaluate op s = Ok () ∧
  ∃ s' p', proposal_update_do_apply required_fee viable_custom push_p op s = Ok (s', void_result) ∧
    lookup_proposal s' (pu_proposal op) = Some p' ∧ pd_db s' = pd_db s ∧
    proposed_transaction p' = proposed_transaction p ∧ available_key_approvals p' = {[ k ]} ∧
    is_authorized_to_execute required_fee viable_custom p' (pd_db s') = true.
Proof.
  intros Hp Hr Ht Eop Ea Eo Ek Hs Hc Hact Hown Kact Kown El Hth Hw. split_and!.
  - unfold is_authorized_to_execute. rewrite (verify_single _ _ c), Ea, Eo, Ek by done.
    unfold check_required_active, check_account, or_owner.
    rewrite bool_decide_eq_false_2 by (simpl; set_solver). rewrite Hact, Hown. simpl.
    rewrite key_only_unsigned by done. simpl.
    destruct (_ <=? _); simpl; repeat (rewrite key_only_unsigned by done; simpl); done.
  - unfold proposal_update_do_evaluate. rewrite (proj2 (tbl_get_Ok _ _ _) Hp). simpl.
    rewrite Hr, (proj2 (Z.leb_le _ _) Ht), Eop. simpl. by rewrite !bool_decide_eq_true_2 by set_solver.
  - eexists _, (update_approvals op p). split; [by apply (reviewed_update_apply _ _ _ p t)|].
    split; [apply lookup_insert_eq|]. split; [done|]. split; [done|].
    assert (available_key_approvals (update_approvals op p) = {[ k ]}) as Ek' by (rewrite Eop; simpl; rewrite Ek; set_solver).
    split; [done|]. unfold is_authorized_to_execute. rewrite (verify_single _ _ c), Ek' by done.
    unfold check_required_active, check_account. rewrite Eop. cbn [update_approvals available_active_approvals available_owner_approvals
      active_approvals_to_add active_approvals_to_remove owner_approvals_to_add owner_approvals_to_remove].
    rewrite Ea, Eo, bool_decide_eq_false_2 by (simpl; set_solver). cbn [pd_db set_proposals]. rewrite Hact. cbn [mbind result_bind].
    rewrite (first_key_signs _ _ _ _ _ _ _ _ _ El) by (destruct Kact; lia).
    cbn [mbind result_bind or_owner]. unfold GRAPHENE_ASSERT at 2. by rewrite key_is_used.
Qed.

(** ** Executions are authorized *)

Lemma required_other_nil {Op} (f : Op → gset account_id_type * gset account_id_type * list authority) ops :
  required_other (get_required_authorities f ops) = [] → ∀ op, op ∈ ops → (f op).2 = [].
Proof.
  unfold get_required_authorities. cbn [required_other]. generalize (Requirements ∅ ∅ []) as r0.
  induction ops as [|o ops IH]; intros r0 Hnil op; simpl in *; [by intros ?%not_elem_of_nil|].
  assert (∀ l r, required_other (foldl (λ r op, let '(active, owner, other) := f op in
    Requirements (required_active r ∪ active) (required_owner r ∪ owner) (required_other r ++ other)) r l) = [] →
    required_other r = []) as Hmono.
  { intros l. induction l as [|x l IHl]; intros r Hr; simpl in *; [done|]. apply IHl in Hr.
    destruct (f x) as [[? ?] ?]. simpl in Hr. by apply app_eq_nil in Hr as [? _]. }
  intros [-> | Hop]%elem_of_cons; [|by eapply IH]. apply Hmono in Hnil.
  destruct (f o) as [[? ?] other]. simpl in *. by apply app_eq_nil in Hnil as [_ ?].
Qed.

(** Each operation has the active and owner authorities it needs, from the approving accounts
    and keys. *)
Definition execution_authorized (p : proposal_object) (d : database) : Prop :=
  let allow := HARDFORK_CORE_584_TIME <=? head_block_time d in
  let keys := available_key_approvals p in
  let approvals := available_active_approvals p ∪ available_owner_approvals p in
  ∀ op, op ∈ proposed_transaction p →
    (∀ id, id ∈ (any_required required_fee op).1.1 →
       custom_authorized (get_active d) (get_owner d) (viable_custom d) allow keys approvals op id ∨
       account_authorized (get_active d) (get_owner d) allow keys approvals id) ∧
    (∀ id, id ∈ (any_required required_fee op).1.2 → id ∈ available_owner_approvals p ∨
       authorized_by (get_active d) (get_owner d) allow keys approvals (get_owner d id)).

Hypothesis custom_wf : ∀ d a op au, au ∈ viable_custom d a op → auth_wf au.

Lemma authorized_sound P p d : authorities_ok d → terms_ok P p →
  is_authorized_to_execute required_fee viable_custom p d = true → execution_authorized p d.
Proof.
  intros Hd Hp Hv. unfold is_authorized_to_execute in Hv. destruct (proposal_verify _ _ _ _) as [[]|] eqn:E; [|done].
  eapply verify_sound in E as [Hops _]; [..|reflexivity].
  - intros op Hop. destruct (Hops op Hop) as (Ha & Ho & _). split; [|done]. intros id [?|[? _]]%Ha; auto.
  - intros id au Hau. unfold get_active in Hau. apply bind_Ok in Hau as (a & Hacc & [= <-]).
    by apply find_object_Ok, Hd in Hacc as [? _].
  - intros id au Hau. unfold get_owner in Hau. apply bind_Ok in Hau as (a & Hacc & [= <-]).
    by apply find_object_Ok, Hd in Hacc as [_ ?].
  - apply custom_wf.
  - intros op au Hop Hau. rewrite (required_other_nil _ _ (tk_other _ _ Hp) op Hop) in Hau. by apply not_elem_of_nil in Hau.
Qed.

(** C11: a proposal is executed only with authority.  If an approval makes a proposal disappear,
    the proposal had no review period and each of its operations had the authorities it needs
    from the accounts and keys that approve, this approval included.  When a proposal expires,
    nothing but its removal happens unless its operations had their authorities. *)
Theorem proposal_execution_authorized P push_p push_v id p s :
  authorities_ok (pd_db s) → terms_ok P p → lookup_proposal s id = Some p →
  (∀ op s' r, pu_proposal op = id → run_any push_p push_v (op_proposal_update op) s = Ok (s', r) →
     lookup_proposal s' id = None →
     review_period_time p = None ∧
     ∃ d1, fee_frame (pd_db s) d1 ∧ execution_authorized (update_approvals op p) d1) ∧
  (∀ s', expire_proposal required_fee viable_custom id p s = Ok s' → pd_db s' ≠ pd_db s →
     execution_authorized p (pd_db s)).
Proof.
  intros Hd Hp Hl. split.
  - intros op s' r <- Ha Hnone. cbn [apply_any] in Ha.
    apply proposal_start_evaluate_inv in Ha as (ctx & d1 & s2 & d2 & He & F & _ & Ha & _ & (m & ->) & ->).
    destruct (review_period_time p) as [t|] eqn:Er.
    { erewrite reviewed_update_apply in Ha; [|done..]. injection Ha as <- _. simpl in Hnone.
      by rewrite lookup_insert_eq in Hnone. }
    split; [done|]. exists d1. split; [done|].
    rewrite (update_apply_eq _ _ (set_db d1 s) _ Hl), Er in Ha. cbv zeta in Ha.
    destruct (is_authorized_to_execute _ _ _ _) eqn:Eauth.
    + eapply authorized_sound; [|eapply terms_ok_same; [apply update_approvals_terms|exact Hp]|exact Eauth].
      destruct F as (m1 & s1 & -> & _). exact Hd.
    + injection Ha as <- _. simpl in Hnone. by rewrite lookup_insert_eq in Hnone.
  - intros s' He Hne. unfold expire_proposal in He. destruct (is_authorized_to_execute _ _ _ _) eqn:Eauth.
    + by eapply authorized_sound.
    + apply bind_Ok in He as (t & _ & [= <-]). done.
Qed.
End theorems.

(** ** The index of approvals *)

(** Proposal [q] is listed for account [x]. *)
Definition listed (m : approval_index) (x : account_id_type) (q : Z) : Prop := q ∈ default ∅ (m !! x).

Lemma listed_add p a m x q : listed (index_add p a m) x q ↔ listed m x q ∨ (x = a ∧ q = p).
Proof.
  unfold listed, index_add. destruct (decide (x = a)) as [->|Hne].
  - rewrite lookup_insert_eq. simpl. set_solver.
  - rewrite lookup_insert_ne by done. naive_solver.
Qed.

Lemma listed_erase p a m x q : listed (index_erase p a m) x q ↔ listed m x q ∧ ¬ (x = a ∧ q = p).
Proof.
  unfold listed, index_erase. destruct (m !! a) as [s|] eqn:E.
  - destruct (decide (x = a)) as [->|Hne].
    + rewrite E. simpl. case_bool_decide as Hs; [rewrite lookup_delete_eq|rewrite lookup_insert_eq]; simpl; set_solver.
    + case_bool_decide; [rewrite lookup_delete_ne by done|rewrite lookup_insert_ne by done]; naive_solver.
  - destruct (decide (x = a)) as [->|Hne]; [rewrite E; simpl; set_solver|naive_solver].
Qed.

Notation rising := (StronglySorted Z.lt).

Lemma ascending_rising (s : gset Z) : rising (ascending s).
Proof.
  assert (StronglySorted Z.le (ascending s)) as Hs by (apply StronglySorted_merge_sort; [intros ????; lia|intros x y; lia]).
  assert (NoDup (ascending s)) as Hn by (unfold ascending; rewrite merge_sort_Permutation; apply NoDup_elements).
  revert Hn. induction Hs as [|x l Hl IH Hx]; intros Hn; constructor; inversion_clear Hn as [|?? Hxl Hn'].
  - by apply IH.
  - apply Forall_forall. intros y Hy. rewrite Forall_forall in Hx. specialize (Hx y Hy).
    assert (y ≠ x) by (intros ->; done). lia.
Qed.

Lemma rising_cons x l : rising (x :: l) → rising l ∧ ∀ y, y ∈ l → x < y.
Proof. intros Hs. inversion_clear Hs as [|?? Hl Hx]. split; [done|]. by apply Forall_forall. Qed.

(** What the loop does to each entry, for ranges without repetitions. *)
Lemma delta_loop_listed p b a m x q : rising b → rising a →
  listed (delta_loop p b a m) x q ↔
    (listed m x q ∧ ¬ (q = p ∧ x ∈ b ∧ x ∉ a)) ∨ (q = p ∧ x ∈ a ∧ x ∉ b).
Proof.
  revert a m. induction b as [|y b IHb]; intros a m Hb Ha.
  - simpl. revert m. induction a as [|z a IHa]; intros m; [set_solver|].
    apply rising_cons in Ha as [Ha Hz]. rewrite IHa, listed_add by done. set_solver.
  - pose proof (rising_cons _ _ Hb) as [Hb' Hy]. revert m. induction a as [|z a IHa]; intros m; simpl.
    { rewrite IHb, listed_erase by done. specialize (Hy x). set_solver. }
    pose proof (rising_cons _ _ Ha) as [Ha' Hz]. destruct (Z.ltb_spec y z) as [Hlt|Hge]; [|destruct (Z.ltb_spec z y) as [Hlt|Hge']].
    + rewrite IHb, listed_erase by done.
      assert (y ∉ z :: a) by (intros [->|?%Hz]%elem_of_cons; lia).
      assert (y ∉ b) by (intros ?%Hy; lia). destruct (decide (x = y)) as [->|]; set_solver.
    + assert (∀ m, listed ((fix go (after : list Z) (m : approval_index) : approval_index :=
        match after with
        | [] => delta_loop p b [] (index_erase p y m)
        | a :: after' => if y <? a then delta_loop p b after (index_erase p y m)
          else if a <? y then go after' (index_add p a m) else delta_loop p b after' m
        end) a m) x q ↔ (listed m x q ∧ ¬ (q = p ∧ x ∈ y :: b ∧ x ∉ a)) ∨ (q = p ∧ x ∈ a ∧ x ∉ y :: b)) as IHa'
        by (intros; by apply IHa).
      rewrite IHa', listed_add.
      assert (z ∉ y :: b) by (intros [->|?%Hy]%elem_of_cons; lia).
      assert (z ∉ a) by (intros ?%Hz; lia). destruct (decide (x = z)) as [->|]; set_solver.
    + assert (z = y) as -> by lia. rewrite IHb by done.
      assert (y ∉ a) by (intros ?%Hz; lia). assert (y ∉ b) by (intros ?%Hy; lia).
      destruct (decide (x = y)) as [->|]; set_solver.
Qed.

Lemma delta_listed p before after m x q :
  listed (insert_or_remove_delta p before after m) x q ↔
    (listed m x q ∧ ¬ (q = p ∧ x ∈ before ∖ after)) ∨ (q = p ∧ x ∈ after ∖ before).
Proof.
  unfold insert_or_remove_delta. rewrite delta_loop_listed by apply ascending_rising.
  by rewrite !elem_of_ascending, !elem_of_difference.
Qed.

(** The index of approvals forgets required accounts.  When an account withdraws its active
    approval, the proposal is no longer listed for it, even if the proposal requires its approval
    and was listed for it when it was made; the same holds when its owner approval stands. *)
Theorem revoked_approval_forgotten id p p' a m :
  a ∈ available_active_approvals p → a ∉ available_active_approvals p' →
  (a ∈ available_owner_approvals p' → a ∈ available_owner_approvals p) →
  ¬ listed (object_modified id p p' m) a id.
Proof.
  intros Hin Hout Hown. unfold object_modified. rewrite !delta_listed, !elem_of_difference. naive_solver.
Qed.

(** ** Concrete runs *)

Definition sample_fee (o : any_operation) : share_type := 10.
Definition no_custom (d : database) (a : account_id_type) (o : any_operation) : list authority := [].

(** A payment of account 101. *)
Definition sample_payment : proposal_object :=
  ProposalObject (sample_time + 1000) None
    [op_plain (op_transfer (TransferOperation (Asset 10 0) 101 100 (Asset 50 0)))]
    {[ 101 ]} ∅ ∅ ∅ ∅ 100 None.

(** The approval of that payment by account 101, as a proposal. *)
Definition sample_approval (id : Z) : proposal_update_operation :=
  ProposalUpdateOperation 101 (Asset 10 0) id {[ 101 ]} ∅ ∅ ∅ ∅ ∅.
Definition sample_nested : proposal_object :=
  ProposalObject (sample_time + 2000) None [op_proposal_update (sample_approval 0)] {[ 101 ]} ∅ ∅ ∅ ∅ 100 None.

(** A payment of the committee account, in its review period. *)
Definition sample_committee : proposal_object :=
  ProposalObject (sample_time + 1209600) (Some sample_time)
    [op_plain (op_transfer (TransferOperation (Asset 10 0) 0 100 (Asset 50 0)))]
    {[ 0 ]} ∅ ∅ ∅ ∅ 100 None.

Definition sample_proposals : pdatabase :=
  PDatabase sample_db (Table 3 {[ 0 := sample_payment; 1 := sample_nested; 2 := sample_committee ]}).

Lemma sample_proposals_inv : proposals_inv (H := sample_hash) sample_fee sample_proposals.
Proof.
  assert (∀ P : Z → proposal_object → Prop, P 0 sample_payment → P 1 sample_nested → P 2 sample_committee →
    ∀ id p, lookup_proposal sample_proposals id = Some p → P id p) as Hall.
  { intros P H0 H1 H2 id p Hp. simpl in Hp. rewrite !lookup_insert_Some, lookup_singleton_Some in Hp. naive_solver. }
  split.
  - red. apply Hall; (split; [done|]); repeat constructor.
  - vm_compute. reflexivity.
  - red. apply Hall; (split; [vm_compute; reflexivity..|]); cbn [required_active_approvals required_owner_approvals
      sample_payment sample_nested sample_committee]; unfold GRAPHENE_COMMITTEE_ACCOUNT; intros Hin; [set_solver..|].
    exists sample_time. split; [done|]. vm_compute. discriminate.
  - split; [exact sample_chain_ok|]. red. apply Hall; repeat constructor.
Qed.

Lemma execution_spares_itself_witness : ∃ s' rs,
  apply_all (H := sample_hash) sample_fee no_custom (push_proposal (H := sample_hash) sample_fee no_custom 3)
    (try_push_virtual_operation (H := market_fees (plain_fee sample_fee)) 3)
    (proposed_transaction sample_nested) sample_proposals = Ok (s', rs) ∧
  lookup_proposal s' 1 = Some sample_nested ∧ lookup_proposal s' 0 = None ∧
  amount (get_balance (pd_db s') 100 0) = 1000050.
Proof.
  destruct (apply_all _ _ _ _ (proposed_transaction sample_nested) sample_proposals) as [[s' rs]|] eqn:E;
    [|vm_compute in E; discriminate].
  exists s', rs. split; [done|].
  destruct (execution_spares_itself (H := sample_hash) sample_fee no_custom 3 1 sample_nested sample_proposals s' rs
    (pi_ordered _ _ sample_proposals_inv) (pi_after _ _ sample_proposals_inv) eq_refl E) as (Hp & _).
  split; [exact Hp|]. vm_compute in E. injection E as <- _. split; vm_compute; reflexivity.
Defined.

Lemma clear_expired_proposals_complete_witness : ∃ s',
  clear_expired_proposals (H := sample_hash) sample_fee no_custom (set_db (later 1500 sample_db) sample_proposals) = Ok s' ∧
  (dom (rows (proposals s')) : gset Z) = {[ 1; 2 ]} ∧
  match lookup_proposal s' 1 with Some p => head_block_time (pd_db s') < po_expiration_time p | None => False end.
Proof.
  destruct (clear_expired_proposals_complete (H := sample_hash) sample_fee no_custom
    (set_db (later 1500 sample_db) sample_proposals)) as (s' & Hc & _ & Hs').
  - exact (pi_ordered _ _ sample_proposals_inv).
  - vm_compute. reflexivity.
  - exists s'. specialize (Hs' 1). split; [exact Hc|]. vm_compute in Hc. injection Hc as <-. split; [vm_compute; reflexivity|].
    apply (Hs' sample_nested). reflexivity.
Defined.

(** Account 101 approves the proposal that approves its payment; both are executed. *)
Lemma proposals_keep_books_witness : ∃ s' rs,
  apply_any_operations (H := sample_hash) sample_fee no_custom [op_proposal_update (sample_approval 1)] sample_proposals
    = Ok (s', rs) ∧
  holdings (pd_db s') 0 - supply (pd_db s') 0 = holdings sample_db 0 - supply sample_db 0 ∧
  (dom (rows (proposals s')) : gset Z) = {[ 2 ]} ∧ amount (get_balance (pd_db s') 100 0) = 1000050 ∧
  amount (get_balance (pd_db s') 101 0) = 1920.
Proof.
  destruct (apply_any_operations _ _ [op_proposal_update (sample_approval 1)] sample_proposals) as [[s' rs]|] eqn:E;
    [|vm_compute in E; discriminate].
  exists s', rs. split; [done|].
  destruct (proposals_keep_books (H := sample_hash) sample_fee no_custom sample_proposals s') as [_ Hb].
  - exact sample_proposals_inv.
  - apply rtc_once, (step_operations _ _ [op_proposal_update (sample_approval 1)] _ _ rs); [|exact E].
    constructor; [|constructor]. split; [constructor|reflexivity].
  - split; [apply Hb|]. vm_compute in E. injection E as <- _. split_and!; vm_compute; reflexivity.
Defined.

Lemma committee_proposals_reviewed_witness :
  ∃ t, review_period_time sample_committee = Some t ∧ t + 1209600 ≤ po_expiration_time sample_committee.
Proof.
  apply (committee_proposals_reviewed (H := sample_hash) sample_fee no_custom sample_proposals sample_proposals 2).
  - exact sample_proposals_inv.
  - reflexivity.
  - reflexivity.
  - cbn [required_active_approvals required_owner_approvals sample_committee]. unfold GRAPHENE_COMMITTEE_ACCOUNT. set_solver.
Defined.

(** The key of the committee account is added in the review period. *)
Definition sample_key_approval : proposal_update_operation :=
  ProposalUpdateOperation 100 (Asset 10 0) 2 ∅ ∅ ∅ ∅ {[ 0 ]} ∅.

Lemma review_period_holds_witness : ∃ s' r,
  apply_any (H := sample_hash) sample_fee no_custom (push_proposal (H := sample_hash) sample_fee no_custom 3)
    (try_push_virtual_operation (H := market_fees (plain_fee sample_fee)) 3)
    (op_proposal_update sample_key_approval) sample_proposals = Ok (s', r) ∧
  rows (proposals s') = <[2 := update_approvals sample_key_approval sample_committee]> (rows (proposals sample_proposals)).
Proof.
  destruct (apply_any _ _ _ _ (op_proposal_update sample_key_approval) sample_proposals) as [[s' r]|] eqn:E;
    [|vm_compute in E; discriminate].
  exists s', r. split; [done|].
  by destruct (review_period_holds (H := sample_hash) sample_fee no_custom _ _ sample_key_approval sample_proposals s' r
    sample_committee sample_time eq_refl eq_refl E) as (_ & Hr & _).
Defined.

(** With it the proposal can be executed when it expires, which it could not before. *)
Lemma review_period_admits_keys_witness :
  is_authorized_to_execute (H := sample_hash) sample_fee no_custom sample_committee sample_db = false ∧
  proposal_update_do_evaluate sample_key_approval sample_proposals = Ok () ∧
  ∃ s' p', proposal_update_do_apply (H := sample_hash) sample_fee no_custom
             (push_proposal (H := sample_hash) sample_fee no_custom 3) sample_key_approval sample_proposals
             = Ok (s', void_result) ∧
    lookup_proposal s' 2 = Some p' ∧ available_key_approvals p' = {[ 0 ]} ∧
    is_authorized_to_execute (H := sample_hash) sample_fee no_custom p' (pd_db s') = true.
Proof.
  destruct (review_period_admits_keys (H := sample_hash) sample_fee no_custom
    (push_proposal (H := sample_hash) sample_fee no_custom 3) sample_key_approval sample_proposals sample_committee sample_time
    0 0 1 [] (Authority 1 [] [(0, 1)] []) (Authority 1 [] [(1000, 1)] []))
    as (Hno & He & s' & p' & Ha & Hp & _ & _ & Hk & Hyes);
    [reflexivity|reflexivity|apply Z.leb_le; vm_compute; reflexivity|reflexivity|reflexivity|reflexivity|reflexivity|
     |done|reflexivity|reflexivity|done|done|reflexivity|simpl; lia|lia|].
  { split; [done|by intros op ->%list_elem_of_singleton..]. }
  split_and!; [exact Hno|exact He|]. by exists s', p'.
Defined.

Lemma sample_authorities : authorities_ok sample_db.
Proof.
  assert (map_Forall (λ _ a, auth_wf (acc_active a) ∧ auth_wf (acc_owner a)) (accounts sample_db)) as Ha; [|exact Ha].
  apply map_Forall_to_list. vm_compute map_to_list. repeat constructor; simpl; unfold weights_ok; repeat constructor; simpl; lia.
Qed.

Lemma proposal_execution_authorized_witness : ∃ s' r d1,
  apply_any (H := sample_hash) sample_fee no_custom (push_proposal (H := sample_hash) sample_fee no_custom 3)
    (try_push_virtual_operation (H := market_fees (plain_fee sample_fee)) 3)
    (op_proposal_update (sample_approval 0)) sample_proposals = Ok (s', r) ∧
  lookup_proposal s' 0 = None ∧
  execution_authorized (H := sample_hash) sample_fee no_custom (update_approvals (sample_approval 0) sample_payment) d1.
Proof.
  destruct (apply_any _ _ _ _ (op_proposal_update (sample_approval 0)) sample_proposals) as [[s' r]|] eqn:E;
    [|vm_compute in E; discriminate].
  assert (lookup_proposal s' 0 = None) as Hnone by (vm_compute in E; injection E as <- _; vm_compute; reflexivity).
  destruct (proposal_execution_authorized (H := sample_hash) sample_fee no_custom
    ltac:(by intros d a op au ?%not_elem_of_nil) sample_parameters (push_proposal (H := sample_hash) sample_fee no_custom 3)
    (try_push_virtual_operation (H := market_fees (plain_fee sample_fee)) 3) 0 sample_payment sample_proposals) as [Hup _].
  - exact sample_authorities.
  - exact (pi_terms _ _ sample_proposals_inv 0 sample_payment eq_refl).
  - reflexivity.
  - destruct (Hup (sample_approval 0) s' r eq_refl E Hnone) as [_ (d1 & _ & Hd1)]. by exists s', r, d1.
Defined.

(** The account whose approval is needed withdraws it. *)
Lemma revoked_approval_forgotten_witness :
  let given := update_approvals (sample_approval 0) sample_payment in
  listed (object_modified 0 sample_payment given (object_inserted 0 sample_payment ∅)) 101 0 ∧
  ¬ listed (object_modified 0 given sample_payment
      (object_modified 0 sample_payment given (object_inserted 0 sample_payment ∅))) 101 0.
Proof.
  split; [vm_compute; reflexivity|]. apply revoked_approval_forgotten; cbn; set_solver.
Defined.
